(* ===== verification/_CoqProject ===== *)
-Q . S2P
Prelude.v
CString.v
Headers.v
Spinlock.v
Ring.v
Sched.v
Mem.v
Kalloc.v
Mutex.v
Container.v
Sleeplock.v
Dll.v
Bio.v
Bcache.v
Bytes.v
Log.v
Pipe.v
Vm.v
Txn.v
Inode.v
Bmap.v
Console.v
Tty.v
Fs.v
Content.v
Dir.v
Path.v
File.v
Shm.v
Share.v
Proc.v
Syscall.v
Exec.v
Sysfile.v
Sysproc.v
Grep.v
Jsmn.v
Json.v
Umalloc.v
Cm.v
Sh.v
Shell.v
Mkfs.v
Image.v
Hw.v
Boot.v
Mp.v
Apic.v
Ide.v
Utils.v
