(* ===== verification/Prelude.v ===== *)
(** * A verification of the xv6 kernel with containers

    The program is the teaching kernel xv6 for 32-bit x86 ([src/]), extended with
    containers (process limits, namespaces and root directories), named shared
    memory, user mutexes with condition variables, and priority scheduling.  This
    library models the kernel as Rocq functions on a record of its global state
    and proves the properties below.

    ** The model

    - [Prelude] (this file) holds the machine integers with their wrap-around, the
      record-update notation, the monad [M S A] of state-passing code and its
      program logic, and the lemmas on lists and searches that the files share.
      An outcome of [M] is [Ret a s] (returned), [Panic msg s] (the kernel's
      [panic]), [Fault s] (an access outside the model: a null or wild pointer),
      [Switch s resume] (the processor was given up in state [s]; [resume] is what
      runs when the process is scheduled again, from whatever state the others
      have left) and [Spin s] (a loop ran out of fuel).  [wp] reasons about runs
      that return, [keeps] and [pres] about invariants across context switches.
    - [Headers] has the constants and structures of the [.h] files and the record
      [kernel] of all global variables.  Pointers into the kernel's fixed tables
      are indices; pointers to pages and to user memory are 32-bit addresses.
      [K A] is [M kernel A].
    - [Mem] has the accesses to physical memory, directly and through the page
      table in use; [CString] the string and memory routines of [string.c] and
      [ulib.c] over any byte memory; [Bytes] the integers inside disk blocks;
      [Ring] and [Dll] the circular arrays and doubly linked lists of the code.

    ** Files and the code they model

    - [Spinlock]: [spinlock.c], as seen by one processor, and the lock algorithm on
      several processors as a step relation (Module [MP]).
    - [Sched]: the run queues, [sched], [yield], [sleep], [wakeup], [kill],
      [prio_set] and the scheduler of [proc.c].
    - [Mutex], [Container], [Proc]: the mutexes and condition variables, the
      container calls and the life cycle of processes of [proc.c].
    - [Kalloc]: [kalloc.c].  [Vm]: [vm.c] up to [copyout].  [Shm], [Share]:
      [shm_get] and [shm_rem] of [vm.c] and what attaching to a region does.
    - [Sleeplock]: [sleeplock.c].  [Bio]: [bio.c] with the disk of [memide.c];
      [Bcache] is the contract of the cache.  [Log]: [log.c]; [Txn] is what the
      cache and the log promise to code inside a transaction.
    - [Inode], [Fs]: the two halves of [fs.c].  [Bmap], [Content], [Dir], [Path]
      prove the block map, file contents, directories and path names.
    - [Console]: [console.c]; [Tty] proves its line discipline.  [Pipe]: [pipe.c].
      [File]: [file.c] and [pipealloc].
    - [Syscall], [Exec], [Sysfile], [Sysproc]: [syscall.c], [exec.c], [sysfile.c],
      and [sysproc.c] with [trap.c].
    - [Grep]: the matcher and the read loop of [grep.c], over the list of what the reads
      return.  [Umalloc]: [umalloc.c], over the memory of a process and the kernel's answers
      to its requests for more.  [Jsmn]: the JSON tokenizer [jsmn.h]; [Json] proves
      that a printed object is read back.  [Cm]: [cm.h], which reads a container's
      specification with the tokenizer and the allocator and starts the container.
    - [Sh]: the parser of the shell, [sh.c] from [gettoken] to [nulterminate].  [Shell]:
      [runcmd] and [main] of [sh.c] with [gets]; a process is the tree of its system
      calls, with its descriptor table.  [Utils]: [printf.c] and the programs [cat],
      [wc], [echo], [ln], [mkdir], [rm] and [kill], over what their system calls return.
    - [Mkfs]: [mkfs.c], the program that builds the disk image; [Image] proves that the
      kernel's file system code can read the image.
    - [Hw]: the port instructions of [x86.h] and, as classes, what the code relies on of
      the hardware: a machine with ports and device registers, and a disk.  [Boot]:
      [bootmain.c].  [Mp]: [mp.c], with [mycpu] of [proc.c].  [Apic]: [ioapic.c], [lapic.c],
      [picirq.c], [uart.c] and [kbd.c].  [Ide]: [ide.c].  The hardware is a parameter of
      these files; each class has an instance that shows it can be met.
    An operation keeps the name of the C function; the loops and branches of a
    large function have definitions of their own whose names extend it.

    ** What is proved

    - Locks: mutual exclusion and the interrupt discipline of spin locks on any
      number of processors ([Spinlock]); ownership of user mutexes across context
      switches, and what each mutex and condition-variable call does ([Mutex]).
    - Scheduling: the run queues behave as one list per priority under any sequence of
      insertions and removals, wake-ups reach exactly the sleepers, [sleep] hands its lock
      over, [prio_set] carries out exactly the requests its caller may make, and the two
      boundary cases where the queues go wrong ([Sched]).
    - Memory: the page allocator is a stack of pages ([Kalloc]); [mappages] extends
      the processor's translation by exactly its range and [copyuvm] copies private
      pages and shares shared ones ([Vm]); [shm_get] maps the one page of a region
      ([Share]); the string routines ([CString]).
    - Disk: the cache is transparent and evicts the least recently used buffer
      ([Bio]); a commit is atomic under a crash at any disk write, and recovery may
      itself be interrupted ([Log]); the interrupt-driven driver serves its queue in
      order under every interleaving of calls and interrupts, and a failed read goes
      unnoticed ([Ide]).
    - Files: block allocation ([Content], [balloc_bfree]), reading back what was
      written ([Content]), one cache slot per inode and directories as maps from
      names to inodes ([Dir]), splitting of paths and confinement to a container's
      root ([Path]).
    - Interfaces: pipes are FIFO channels ([Pipe]), the console's line discipline
      ([Tty]), printed numbers ([Console]), user pointers are checked ([Syscall]),
      process limits and namespaces ([Container]).
    - Start-up: the image that [mkfs] builds is a file system with the given files, as the
      kernel reads it ([Image]); the boot loader puts every segment of the kernel in
      memory ([Boot]); the processors are those of the BIOS tables, and a table with an
      unknown entry hangs the boot ([Mp]); the time is read in one piece, only enabled
      interrupts are unmasked, the serial line is set up before it is used, and modifier
      keys are in force exactly while they are down ([Apic]).
    - User programs: [grep] prints the lines that match when every read but the last
      completes a line, and loses text otherwise ([Grep]); the heap of [malloc]
      and [free] is an invariant, both always return, and [malloc] fails only when the
      kernel refuses memory ([Umalloc]); the JSON tokenizer is total and in bounds ([Jsmn]) and reads printed objects back ([Json]); reading a
      specification yields the strings in the order of the file, and what starting a
      container asks of the kernel ([Cm]); the shell's parser ends on every line and reads
      printed command lines back however they are spaced ([Sh]), and the programs of a
      session are started with the descriptors the lines say and no others ([Shell]); [printf] formats, [atoi] reads
      back printed numbers, [wc] counts and [cat] concatenates ([Utils]).
    The theorems that describe a run take the state the code expects (a well-formed
    cache, room in the log, free blocks) as hypotheses; the numbered ones have a witness that
    shows a concrete state satisfying them.

    ** Fuel and bounds

    Loops whose length is known run over a list.  The others take fuel:
    [WAITS] (64) bounds how often a sleeper is woken in vain before the model
    gives up with [Spin] (every wait is a [Switch], so properties across waits
    cover any number of other processes' steps); [xfer_fuel] is one more than the
    number of blocks a transfer touches ([blocks_left_fuel]); [namex] runs at most
    once per character of the path ([skipelem_splits]); the loops of [mappages] and
    [deallocuvm] run once per page of their range; [do_ce] ends within [NPROC + 1]
    passes ([do_ce_fresh]).  [walk_fuel] exceeds twice the number of free blocks a heap
    can have ([fuel_enough]), and the tokenizer takes one round per character
    ([jsmn_parse_total]).  The shell's parser calls itself at most four times per
    character ([parsers_ok]), and its command loop takes a character each round.
    [patience] is how many status reads a disk needs at most, a part of the class [Disk];
    [cmostime] takes its fuel as an argument, and ends with enough of it on a clock that
    behaves as [Rtc] says ([clock_loop]).  [mpinit] takes it as an argument, since it does not
    end on every table;
    [Utils] gives its read loops one round per byte and one more.

    ** Not modelled

    The assembly of the start-up and of the traps ([bootasm.S], [entry.S], [entryother.S],
    [initcode.S], [trapasm.S], [usys.S]) switches processor modes and stacks, for which there
    is no model of the processor here; [main.c] only calls the initialisation functions one
    after the other, and [seginit], [tvinit] and [idtinit] load tables into the processor.
    [swtch.S] is the [Switch] outcome.  Other processors
    appear only in Module [MP]; in the kernel model one processor runs and other
    processes act at context switches.  [procdump] and the text of [cprintf] calls
    are output only.  Of the user
    programs, [ls] is modelled only in its formatting of names, and [init], [zombie],
    [cm.c] and [dockv6.c] are short sequences of system calls; in [Cm] the system calls are arguments or a list
    of requests, and in [Shell] the failure of a system call is a branch of the tree.  The test
    programs are not part of the system. *)

From Stdlib Require Export ZArith Lia.
From stdpp Require Export base functions strings gmap list.

Open Scope Z_scope.

(** ** Machine integers

    The kernel is compiled for a 32-bit x86: [int] is a 32-bit two's
    complement integer, [uint] and pointers are 32-bit unsigned, [short] and
    [char] are 16 and 8 bits.  A value is a [Z]; the functions below write out
    the wrap-around. *)

Definition u8 (x : Z) : Z := x mod 2 ^ 8.
Definition u16 (x : Z) : Z := x mod 2 ^ 16.
Definition u32 (x : Z) : Z := x mod 2 ^ 32.
Definition i16 (x : Z) : Z := (x + 2 ^ 15) mod 2 ^ 16 - 2 ^ 15.
Definition i32 (x : Z) : Z := (x + 2 ^ 31) mod 2 ^ 32 - 2 ^ 31.

(** C's [/] and [%] on signed operands truncate towards zero. *)
Definition cdiv (a b : Z) : Z := Z.quot a b.
Definition crem (a b : Z) : Z := Z.rem a b.

Lemma u32_range x : 0 <= u32 x < 2 ^ 32.
Proof. apply Z.mod_pos_bound. lia. Qed.

Lemma u32_small x : 0 <= x < 2 ^ 32 -> u32 x = x.
Proof. apply Z.mod_small. Qed.

Lemma u32_idem x : u32 (u32 x) = u32 x.
Proof. apply u32_small, u32_range. Qed.

Lemma i32_range x : - 2 ^ 31 <= i32 x < 2 ^ 31.
Proof. unfold i32. pose proof (Z.mod_pos_bound (x + 2 ^ 31) (2 ^ 32)). lia. Qed.

Lemma i32_small x : - 2 ^ 31 <= x < 2 ^ 31 -> i32 x = x.
Proof. intros. unfold i32. rewrite Z.mod_small; lia. Qed.

Lemma u32_add_l x y : u32 (u32 x + y) = u32 (x + y).
Proof. unfold u32. by rewrite Zplus_mod_idemp_l. Qed.

Lemma u32_add_r x y : u32 (x + u32 y) = u32 (x + y).
Proof. unfold u32. by rewrite Zplus_mod_idemp_r. Qed.

(** ** Record update *)

(** [eta] rebuilds a record from its projections; [set f g r] applies [g] to
    field [f] of [r].  One [Setter] instance is declared per field. *)
Class Eta (R : Type) := eta : R -> R.
Class Setter {R E : Type} (proj : R -> E) := set : (E -> E) -> R -> R.
Arguments set {R E} proj {_} f r.

Ltac mk_setter :=
  lazymatch goal with
  | |- @Setter ?R ?E ?proj =>
      let i := constr:(_ : Eta R) in
      let b := eval red in i in
      lazymatch eval pattern proj in b with
      | ?abs _ =>
          let t := eval cbv beta in
            (fun (f : E -> E) => abs (fun r : R => f (proj r))) in
          exact t
      end
  end.

Declare Scope kernel_scope.
Delimit Scope kernel_scope with K.
Open Scope kernel_scope.

Notation "r <| f := v |>" := (set f (fun _ => v) r)
  (at level 1, f at next level, left associativity,
   format "r <| f  :=  v |>") : kernel_scope.
Notation "r <| f ::= g |>" := (set f g r)
  (at level 1, f at next level, left associativity,
   format "r <| f  ::=  g |>") : kernel_scope.

(** ** Arrays *)

(** A C array is a list; an index is a [Z].  Reading or writing outside the
    array has no meaning in C: the accessors return [None]. *)
Definition zget {A} (l : list A) (i : Z) : option A :=
  if 0 <=? i then l !! Z.to_nat i else None.

Definition zset {A} (l : list A) (i : Z) (x : A) : option (list A) :=
  if (0 <=? i) && (i <? Z.of_nat (length l)) then Some (<[Z.to_nat i := x]> l) else None.

Lemma zget_Some {A} (l : list A) i x :
  zget l i = Some x <-> 0 <= i < Z.of_nat (length l) /\ l !! Z.to_nat i = Some x.
Proof.
  unfold zget. destruct (Z.leb_spec 0 i); split.
  - intros Hl. split; [|done]. apply lookup_lt_Some in Hl. lia.
  - tauto.
  - done.
  - lia.
Qed.

Lemma zget_is_Some {A} (l : list A) i :
  0 <= i < Z.of_nat (length l) -> is_Some (zget l i).
Proof.
  intros Hi. unfold zget. destruct (Z.leb_spec 0 i); [|lia].
  apply lookup_lt_is_Some. lia.
Qed.

Lemma zget_nat {A} (l : list A) (i : nat) : zget l (Z.of_nat i) = l !! i.
Proof.
  unfold zget. destruct (Z.leb_spec 0 (Z.of_nat i)); [|lia]. by rewrite Nat2Z.id.
Qed.

Lemma alter_insert_id {A} (f : A -> A) (l : list A) i x : l !! i = Some x -> alter f i l = <[i := f x]> l.
Proof.
  intros Hx. apply list_eq. intros j. destruct (decide (i = j)) as [<-|Hne].
  - rewrite list_lookup_alter_eq, Hx, list_lookup_insert_eq by (by eapply lookup_lt_Some). done.
  - by rewrite list_lookup_alter_ne, list_lookup_insert_ne.
Qed.

Lemma zset_inv {A} (l l' : list A) i x :
  zset l i x = Some l' ->
  0 <= i < Z.of_nat (length l) /\ l' = <[Z.to_nat i := x]> l.
Proof. unfold zset. intros H. case_match eqn:E; simplify_eq. split; [lia|done]. Qed.

Lemma zset_in {A} (l : list A) i x :
  0 <= i < Z.of_nat (length l) -> zset l i x = Some (<[Z.to_nat i := x]> l).
Proof. intros H. unfold zset. by replace ((0 <=? i) && (i <? Z.of_nat (length l))) with true by lia. Qed.

Lemma zset_length {A} (l l' : list A) i x : zset l i x = Some l' -> length l' = length l.
Proof. intros [_ ->]%zset_inv. apply length_insert. Qed.

Lemma zget_insert_eq {A} (l : list A) i x :
  0 <= i < Z.of_nat (length l) -> zget (<[Z.to_nat i := x]> l) i = Some x.
Proof.
  intros Hi. unfold zget. destruct (Z.leb_spec 0 i); [|lia].
  apply list_lookup_insert_eq. lia.
Qed.

Lemma zget_insert_ne {A} (l : list A) i j x :
  0 <= i -> i <> j -> zget (<[Z.to_nat i := x]> l) j = zget l j.
Proof.
  intros Hi Hij. unfold zget. destruct (Z.leb_spec 0 j); [|done].
  apply list_lookup_insert_ne. lia.
Qed.

(** ** Effects *)

(** The result of running kernel code from a state:
    - [Ret]: it returns a value and the new state;
    - [Panic]: it called [panic], which prints a message and never returns;
    - [Fault]: it does what C gives no meaning to (an index outside an array,
      a null or dangling pointer);
    - [Switch]: it called [swtch] and left the processor to the scheduler; when
      the scheduler switches back, in whatever state the kernel is then in, it
      goes on as [resume] says;
    - [Spin]: a loop ran out of the fuel given to it. *)
Inductive outcome (S A : Type) : Type :=
| Ret (a : A) (s : S)
| Panic (msg : string) (s : S)
| Fault (s : S)
| Switch (s : S) (resume : S -> outcome S A)
| Spin (s : S).
Arguments Ret {S A} a s.
Arguments Panic {S A} msg s.
Arguments Fault {S A} s.
Arguments Switch {S A} s resume.
Arguments Spin {S A} s.

Definition M (S A : Type) : Type := S -> outcome S A.

Definition ret {S A} (a : A) : M S A := fun s => Ret a s.

Fixpoint bindO {S A B} (o : outcome S A) (f : A -> M S B) : outcome S B :=
  match o with
  | Ret a s => f a s
  | Panic msg s => Panic msg s
  | Fault s => Fault s
  | Switch s r => Switch s (fun s' => bindO (r s') f)
  | Spin s => Spin s
  end.

Definition bind {S A B} (m : M S A) (f : A -> M S B) : M S B :=
  fun s => bindO (m s) f.

Definition gets {S A} (f : S -> A) : M S A := fun s => Ret (f s) s.
Definition modify {S} (f : S -> S) : M S unit := fun s => Ret tt (f s).
Definition panic {S A} (msg : string) : M S A := fun s => Panic msg s.
Definition fault {S A} : M S A := fun s => Fault s.

(** Read through an option, [None] being undefined behaviour. *)
Definition ofopt {S A} (o : option A) : M S A :=
  match o with Some a => ret a | None => fault end.

Notation "'let!' x := m 'in' k" := (bind m (fun x => k))
  (at level 10, x name, m at level 100, k at level 200,
   format "'[v' 'let!'  x  :=  m  'in' '//' k ']'") : kernel_scope.
Notation "'let!' ' p := m 'in' k" := (bind m (fun x => match x with p => k end))
  (at level 10, p pattern, m at level 100, k at level 200) : kernel_scope.
Notation "'do!' m 'in' k" := (bind m (fun _ => k))
  (at level 10, m at level 100, k at level 200,
   format "'[v' 'do!'  m  'in' '//' k ']'") : kernel_scope.

Definition when {S} (b : bool) (m : M S unit) : M S unit := if b then m else ret tt.

(** [for (x in l) body(x);] *)
Fixpoint foreach {S X} (l : list X) (body : X -> M S unit) : M S unit :=
  match l with
  | [] => ret tt
  | x :: l' => do! body x in foreach l' body
  end.

(** [for (x in l) { ... break or return ... }]: the first [Some] the body
    produces ends the loop. *)
Fixpoint first_of {S X A} (l : list X) (body : X -> M S (option A)) : M S (option A) :=
  match l with
  | [] => ret None
  | x :: l' =>
      let! r := body x in
      match r with
      | Some a => ret (Some a)
      | None => first_of l' body
      end
  end.

(** [for (;;) body]: the body returns [inl] to go round again with new values
    of the local variables, [inr] to leave the loop. *)
Fixpoint loop {S X A} (fuel : nat) (body : X -> M S (X + A)) (x : X) : M S A :=
  match fuel with
  | O => fun s => Spin s
  | Datatypes.S n =>
      let! r := body x in
      match r with
      | inl x' => loop n body x'
      | inr a => ret a
      end
  end.

(** ** Weakest preconditions *)

(** [wp m Q s]: from [s], [m] returns (no panic, no fault, no switch, enough
    fuel) a value and a state that satisfy [Q]. *)
Definition wp {S A} (m : M S A) (Q : A -> S -> Prop) (s : S) : Prop :=
  match m s with Ret a s' => Q a s' | _ => False end.

Section wp_rules.
Context {S : Type}.
Implicit Types s : S.

Lemma wp_ret {A} (a : A) (Q : A -> S -> Prop) s : Q a s -> wp (ret a) Q s.
Proof. done. Qed.

Lemma wp_bind {A B} (m : M S A) (f : A -> M S B) Q s :
  wp m (fun a => wp (f a) Q) s -> wp (bind m f) Q s.
Proof. unfold wp, bind. by destruct (m s). Qed.

Lemma wp_bind_inv {A B} (m : M S A) (f : A -> M S B) Q s :
  wp (bind m f) Q s -> wp m (fun a => wp (f a) Q) s.
Proof. unfold wp, bind. by destruct (m s). Qed.

Lemma wp_mono {A} (m : M S A) (P Q : A -> S -> Prop) s :
  wp m P s -> (forall a s', P a s' -> Q a s') -> wp m Q s.
Proof. unfold wp. destruct (m s); auto. Qed.

Lemma wp_gets {A} (f : S -> A) Q s : Q (f s) s -> wp (gets f) Q s.
Proof. done. Qed.

Lemma wp_modify (f : S -> S) Q s : Q tt (f s) -> wp (modify f) Q s.
Proof. done. Qed.

Lemma wp_ofopt {A} (o : option A) a Q s : o = Some a -> Q a s -> wp (ofopt o) Q s.
Proof. by intros ->. Qed.

Lemma wp_when b (m : M S unit) Q s :
  (b = true -> wp m Q s) -> (b = false -> Q tt s) -> wp (when b m) Q s.
Proof. intros Ht Hf. destruct b; [by apply Ht|by apply Hf]. Qed.

Lemma wp_run {A} (m : M S A) Q s :
  wp m Q s <-> exists a s', m s = Ret a s' /\ Q a s'.
Proof.
  unfold wp. split.
  - destruct (m s) as [a s'| | | |]; try done. eauto.
  - by intros (a & s' & -> & ?).
Qed.

Lemma wp_of_run {A} (m : M S A) Q s a s' : m s = Ret a s' -> wp m Q s -> Q a s'.
Proof. unfold wp. by intros ->. Qed.

(** A loop over a list, with an invariant indexed by what is still to do. *)
Lemma wp_foreach {X} (l : list X) (body : X -> M S unit) (I : list X -> S -> Prop)
    (Q : unit -> S -> Prop) s :
  I l s ->
  (forall x l' s', I (x :: l') s' -> wp (body x) (fun _ => I l') s') ->
  (forall s', I [] s' -> Q tt s') ->
  wp (foreach l body) Q s.
Proof.
  intros HI Hstep Hend. revert s HI. induction l as [|x l IH]; intros s HI; simpl.
  - apply wp_ret. auto.
  - apply wp_bind. eapply wp_mono; [by apply Hstep|]. intros [] s' ?. by apply IH.
Qed.

(** A search loop: the body leaves the state alone until it finds. *)
Lemma wp_first_of {X A} (l : list X) (body : X -> M S (option A)) (I : list X -> S -> Prop)
    (Q : option A -> S -> Prop) s :
  I l s ->
  (forall x l' s', I (x :: l') s' ->
     wp (body x) (fun r s'' => match r with Some a => Q (Some a) s'' | None => I l' s'' end) s') ->
  (forall s', I [] s' -> Q None s') ->
  wp (first_of l body) Q s.
Proof.
  intros HI Hstep Hend. revert s HI. induction l as [|x l IH]; intros s HI; simpl.
  - apply wp_ret. auto.
  - apply wp_bind. eapply wp_mono; [by apply Hstep|].
    intros [a|] s' H'; [by apply wp_ret|]. by apply IH.
Qed.

(** The same for loops over the indices of a table. *)
Lemma wp_foreach_seq n (body : nat -> M S unit) (I : nat -> S -> Prop)
    (Q : unit -> S -> Prop) s :
  I 0%nat s ->
  (forall i s', (i < n)%nat -> I i s' -> wp (body i) (fun _ => I (i + 1)%nat) s') ->
  (forall s', I n s' -> Q tt s') ->
  wp (foreach (seq 0 n) body) Q s.
Proof.
  intros HI Hstep Hend.
  apply (wp_foreach _ _ (fun l s => exists i, l = seq i (n - i) /\ (i <= n)%nat /\ I i s)).
  - exists 0%nat. rewrite Nat.sub_0_r. split_and!; [done|lia|done].
  - intros x l' s' (i & Hl & Hi & HIi). destruct (n - i)%nat as [|m] eqn:Em; [done|].
    injection Hl as -> ->. eapply wp_mono; [apply Hstep; [lia|done]|].
    intros [] s'' ?. exists (i + 1)%nat. replace (n - (i + 1))%nat with m by lia.
    rewrite Nat.add_1_r in *. split_and!; [done|lia|done].
  - intros s' (i & Hl & Hi & HIi). destruct (n - i)%nat eqn:Em; [|done].
    apply Hend. by replace n with i by lia.
Qed.

Lemma wp_first_of_seq {A} n (body : nat -> M S (option A)) (I : nat -> S -> Prop)
    (Q : option A -> S -> Prop) s :
  I 0%nat s ->
  (forall i s', (i < n)%nat -> I i s' ->
     wp (body i) (fun r s'' => match r with Some a => Q (Some a) s'' | None => I (i + 1)%nat s'' end) s') ->
  (forall s', I n s' -> Q None s') ->
  wp (first_of (seq 0 n) body) Q s.
Proof.
  intros HI Hstep Hend.
  apply (wp_first_of _ _ (fun l s => exists i, l = seq i (n - i) /\ (i <= n)%nat /\ I i s)).
  - exists 0%nat. rewrite Nat.sub_0_r. split_and!; [done|lia|done].
  - intros x l' s' (i & Hl & Hi & HIi). destruct (n - i)%nat as [|m] eqn:Em; [done|].
    injection Hl as -> ->. eapply wp_mono; [apply Hstep; [lia|done]|].
    intros [a|] s'' ?; [done|]. exists (i + 1)%nat. replace (n - (i + 1))%nat with m by lia.
    rewrite Nat.add_1_r in *. split_and!; [done|lia|done].
  - intros s' (i & Hl & Hi & HIi). destruct (n - i)%nat eqn:Em; [|done].
    apply Hend. by replace n with i by lia.
Qed.

(** A loop with an invariant and a measure that each round lowers. *)
Lemma wp_loop {X A} (I : X -> S -> Prop) (mu : X -> S -> nat) fuel (body : X -> M S (X + A))
    (Q : A -> S -> Prop) x s :
  I x s -> (mu x s < fuel)%nat ->
  (forall x s, I x s ->
     wp (body x) (fun r s' => match r with inl x' => I x' s' /\ (mu x' s' < mu x s)%nat | inr a => Q a s' end) s) ->
  wp (loop fuel body x) Q s.
Proof.
  intros HI Hf Hb. revert x s HI Hf. induction fuel as [|n IH]; intros x s HI Hf; [lia|].
  cbn [loop]. apply wp_bind. eapply wp_mono; [by apply Hb|].
  intros [x'|a] s'; [|by intros; apply wp_ret]. intros [HI' Hmu]. apply IH; [done|lia].
Qed.
End wp_rules.

Create HintDb wp discriminated.
#[export] Hint Resolve wp_ret wp_gets wp_modify : wp.

(** [wp_step] runs the next primitive of the code in the goal. *)
Ltac wp_step :=
  lazymatch goal with
  | |- wp (bind _ _) _ _ => apply wp_bind
  | |- wp (ret _) _ _ => apply wp_ret
  | |- wp (gets _) _ _ => apply wp_gets
  | |- wp (modify _) _ _ => apply wp_modify
  | |- wp (when _ _) _ _ => apply wp_when; intro
  | |- wp (if ?b then _ else _) _ _ => destruct b eqn:?
  | |- wp (match ?x with _ => _ end) _ _ => destruct x eqn:?
  end; cbv beta.

Ltac wp_steps := repeat wp_step.

(** [bind] on a run that is known. *)
Lemma bind_run {S A B} (m : M S A) (f : A -> M S B) s a s' :
  m s = Ret a s' -> bind m f s = f a s'.
Proof. unfold bind. by intros ->. Qed.

Lemma bind_gets {S A B} (g : S -> A) (f : A -> M S B) s : bind (gets g) f s = f (g s) s.
Proof. done. Qed.

(** [run H] steps over the first call of a sequence, [H] saying what it returns. *)
Ltac run H := rewrite (bind_run _ _ _ _ _ H); cbv beta.

Lemma bind_ret_inv {S A B} (m : M S A) (f : A -> M S B) s b s' :
  bind m f s = Ret b s' -> exists a s1, m s = Ret a s1 /\ f a s1 = Ret b s'.
Proof. unfold bind. destruct (m s) as [a s1| | | |]; try done. eauto. Qed.

(** ** Searching a table *)

(** A loop that looks for the first entry that satisfies [P] and changes nothing
    until then finds the first, if any. *)
Lemma first_of_scan {S X A} (P : X -> Prop) `{forall x, Decision (P x)} (l : list X)
    (body : nat -> M S (option A)) s :
  (forall i x, l !! i = Some x -> ~ P x -> body i s = Ret None s) ->
  match list_find P l with
  | None => first_of (seq 0 (length l)) body s = Ret None s
  | Some (i, x) => forall a s', body i s = Ret (Some a) s' ->
      first_of (seq 0 (length l)) body s = Ret (Some a) s'
  end.
Proof.
  intros Hno.
  enough (Hgen : forall j, match list_find P l with
    | None => (forall i x, l !! i = Some x -> ~ P x -> body (j + i)%nat s = Ret None s) ->
              first_of (seq j (length l)) body s = Ret None s
    | Some (i, x) => (forall i x, l !! i = Some x -> ~ P x -> body (j + i)%nat s = Ret None s) ->
        forall a s', body (j + i)%nat s = Ret (Some a) s' ->
        first_of (seq j (length l)) body s = Ret (Some a) s'
    end).
  { specialize (Hgen 0%nat). destruct (list_find P l) as [[i x]|]; by apply Hgen. }
  clear Hno. induction l as [|x l IH]; intros j; [done|]. cbn [list_find length seq first_of].
  assert (Hsh : (forall i y, (x :: l) !! i = Some y -> ~ P y -> body (j + i)%nat s = Ret None s) ->
    forall i y, l !! i = Some y -> ~ P y -> body (Datatypes.S j + i)%nat s = Ret None s).
  { intros Hb i y Hi Hy. rewrite <- (Hb (Datatypes.S i) y Hi Hy). f_equal. lia. }
  destruct (decide (P x)) as [Hx|Hx].
  - intros _ a s' Hb. rewrite Nat.add_0_r in Hb. by rewrite (bind_run _ _ _ _ _ Hb).
  - specialize (IH (Datatypes.S j)). destruct (list_find P l) as [[i y]|]; cbn.
    + intros Hb a s' Ha. pose proof (Hb 0%nat x eq_refl Hx) as H0. rewrite Nat.add_0_r in H0.
      rewrite (bind_run _ _ _ _ _ H0). apply IH; [by apply Hsh|]. rewrite <- Ha. f_equal. lia.
    + intros Hb. pose proof (Hb 0%nat x eq_refl Hx) as H0. rewrite Nat.add_0_r in H0.
      rewrite (bind_run _ _ _ _ _ H0). apply IH. by apply Hsh.
Qed.

(** A loop over a list that changes nothing until it finds. *)
Lemma first_of_find {S X A} (P : X -> Prop) `{forall x, Decision (P x)} (l : list X)
    (body : X -> M S (option A)) s :
  (forall x, x ∈ l -> ~ P x -> body x s = Ret None s) ->
  match list_find P l with
  | None => first_of l body s = Ret None s
  | Some (_, x) => forall a s', body x s = Ret (Some a) s' -> first_of l body s = Ret (Some a) s'
  end.
Proof.
  intros Hno. induction l as [|x l IH]; [done|]. cbn [list_find first_of].
  destruct (decide (P x)) as [Hx|Hx].
  - intros a s' Hb. by rewrite (bind_run _ _ _ _ _ Hb).
  - assert (IH' := IH (fun y Hy => Hno y (list_elem_of_further _ _ _ Hy))).
    rewrite (bind_run _ _ _ _ _ (Hno x (list_elem_of_here _ _) Hx)).
    destruct (list_find P l) as [[i y]|]; cbn; done.
Qed.

(** ** Invariants across context switches *)

(** Code that gives up the processor is resumed in a state other code has
    changed.  [keeps I m Q s]: run from [s], [m] is in a state that satisfies [I]
    whenever it switches away, stops or panics, and [Q] holds when it returns,
    provided it is only resumed in states that satisfy [I]. *)
Fixpoint keepsO {S A} (I : S -> Prop) (Q : A -> S -> Prop) (o : outcome S A) : Prop :=
  match o with
  | Ret a s => Q a s
  | Switch s resume => I s /\ forall s', I s' -> keepsO I Q (resume s')
  | Panic _ s | Fault s | Spin s => I s
  end.

Definition keeps {S A} (I : S -> Prop) (m : M S A) (Q : A -> S -> Prop) (s : S) : Prop :=
  keepsO I Q (m s).

(** [m] preserves [I]. *)
Definition pres {S A} (I : S -> Prop) (m : M S A) : Prop :=
  forall s, I s -> keeps I m (fun _ => I) s.

Section keeps_rules.
Context {S : Type} (I : S -> Prop).

Lemma keepsO_mono {A} (P Q : A -> S -> Prop) (o : outcome S A) :
  keepsO I P o -> (forall a s, P a s -> Q a s) -> keepsO I Q o.
Proof. intros H HPQ. induction o as [| | |s r IH|]; cbn in *; try by auto. destruct H; auto. Qed.

Lemma keepsO_bind {A B} (o : outcome S A) (f : A -> M S B) Q :
  keepsO I (fun a => keeps I (f a) Q) o -> keepsO I Q (bindO o f).
Proof. intros H. induction o as [| | |s r IH|]; cbn in *; try done. destruct H. split; auto. Qed.

Lemma keeps_mono {A} (m : M S A) (P Q : A -> S -> Prop) s :
  keeps I m P s -> (forall a s', P a s' -> Q a s') -> keeps I m Q s.
Proof. apply keepsO_mono. Qed.

Lemma keeps_bind {A B} (m : M S A) (f : A -> M S B) Q s :
  keeps I m (fun a => keeps I (f a) Q) s -> keeps I (bind m f) Q s.
Proof. apply keepsO_bind. Qed.

(** Reading: the continuation runs from the same state, knowing what was read. *)
Lemma keeps_gets {A B} (g : S -> A) (f : A -> M S B) Q s :
  keeps I (f (g s)) Q s -> keeps I (bind (gets g) f) Q s.
Proof. done. Qed.

Lemma keeps_pres {A B} (m : M S A) (f : A -> M S B) Q s :
  pres I m -> I s -> (forall a s', I s' -> keeps I (f a) Q s') -> keeps I (bind m f) Q s.
Proof. intros Hm Hs Hf. apply keeps_bind. eapply keeps_mono; [by apply Hm|]. auto. Qed.

Lemma pres_ret {A} (a : A) : pres I (ret a).
Proof. by intros s. Qed.
Lemma pres_gets {A} (g : S -> A) : pres I (gets g).
Proof. by intros s. Qed.
Lemma pres_panic {A} msg : pres I (panic (A := A) msg).
Proof. by intros s. Qed.
Lemma pres_fault {A} : pres I (fault (A := A)).
Proof. by intros s. Qed.
Lemma pres_ofopt {A} (o : option A) : pres I (ofopt o).
Proof. by destruct o; intros s. Qed.
Lemma pres_modify g : (forall s, I s -> I (g s)) -> pres I (modify g).
Proof. intros H s. apply H. Qed.
Lemma pres_bind {A B} (m : M S A) (f : A -> M S B) :
  pres I m -> (forall a, pres I (f a)) -> pres I (bind m f).
Proof. intros Hm Hf s Hs. apply keeps_pres; [done..|]. intros. by apply Hf. Qed.
Lemma pres_when b m : pres I m -> pres I (when b m).
Proof. destruct b; [done|]. intros _. apply pres_ret. Qed.
Lemma pres_foreach {X} (l : list X) body : (forall x, pres I (body x)) -> pres I (foreach l body).
Proof. intros H. induction l; [apply pres_ret|]. apply pres_bind; [done|]. intros _. done. Qed.
Lemma pres_first_of {X A} (l : list X) (body : X -> M S (option A)) :
  (forall x, pres I (body x)) -> pres I (first_of l body).
Proof.
  intros H. induction l; [apply pres_ret|]. apply pres_bind; [done|].
  intros [x|]; [apply pres_ret|done].
Qed.
Lemma pres_loop {X A} fuel (body : X -> M S (X + A)) x :
  (forall x, pres I (body x)) -> pres I (loop fuel body x).
Proof.
  intros H. revert x. induction fuel as [|n IH]; intros x; [by intros s|].
  apply pres_bind; [done|]. intros [y|a]; [apply IH|apply pres_ret].
Qed.
End keeps_rules.

Create HintDb pres discriminated.
#[export] Hint Resolve pres_ret pres_gets pres_panic pres_fault pres_ofopt : pres.

(** [pres_tac] follows the code; what is left are the primitives that change the
    state, closed by the hints of the database. *)
Ltac pres_tac :=
  repeat lazymatch goal with
  | |- pres _ (bind _ _) => apply pres_bind; [|intros ?]
  | |- pres _ (when _ _) => apply pres_when
  | |- pres _ (foreach _ _) => apply pres_foreach; intros ?
  | |- pres _ (first_of _ _) => apply pres_first_of; intros ?
  | |- pres _ (loop _ _ _) => apply pres_loop; intros ?
  | |- pres _ (if ?b then _ else _) => destruct b
  | |- pres _ (match ?x with _ => _ end) => destruct x
  | |- pres _ _ => solve [eauto with pres]
  end.

(** ** Transition systems *)

Lemma rtc_invariant {A} (R : relation A) (P : A -> Prop) x y :
  (forall x y, P x -> R x y -> P y) -> rtc R x y -> P x -> P y.
Proof. intros Hp Hr. induction Hr; eauto. Qed.
