(* ===== verification/CString.v ===== *)
(** * Memory and string routines

    The C library of the kernel ([src/string.c]) and of the user programs
    ([src/ulib.c]), over any byte-addressed memory (class [ByteMem]).  Pointers
    are integers; a [char] is its value 0..255.  Loops that run to a
    terminating NUL take fuel; [strlen_counts] and the theorems on the user
    routines give the fuel that is enough.  The functions on lists ([cstr], [strncpy_l],
    [safestrcpy_l], [strncmp_l]) say what the routines do to character arrays;
    the theorems show that the loops do it, and kernel code that copies names
    held in structures uses them. *)

From S2P Require Import Prelude.

(** Memory that can be read and written a byte at a time. *)
Class ByteMem (S : Type) := { load8 : Z -> M S Z; store8 : Z -> Z -> M S unit }.

(** ** Names in character arrays *)

(** The C string at the start of an array. *)
Fixpoint cstr (l : list Z) : list Z :=
  match l with
  | [] => []
  | c :: l' => if c =? 0 then [] else c :: cstr l'
  end.

Definition strncpy_l (t : list Z) (n : nat) : list Z :=
  let c := take n (cstr t) in c ++ replicate (n - length c) 0.

(** What [safestrcpy] writes: the string cut to [n - 1] and its NUL; when the
    string's own NUL was copied, another NUL after it. *)
Definition safestrcpy_w (t : list Z) (n : nat) : list Z :=
  match n with
  | O => []
  | S n' =>
      let c := take n' (cstr t) in
      if (length c <? n')%nat then c ++ [0; 0] else c ++ [0]
  end.

(** The array [old] after the copy. *)
Definition safestrcpy_l (old t : list Z) (n : nat) : list Z :=
  let w := safestrcpy_w t n in w ++ drop (length w) old.

(** The end of a list reads as NUL. *)
Fixpoint strncmp_l (p q : list Z) (n : nat) : Z :=
  match n with
  | O => 0
  | S n' =>
      let a := default 0 (head p) in
      let b := default 0 (head q) in
      if negb (a =? 0) && (a =? b) then strncmp_l (tail p) (tail q) n' else a - b
  end.

Section string_c.
Context {S : Type} `{ByteMem S}.

(** ** string.c *)

(** The string instructions [stosb] and [stosl] (x86.h). *)
Fixpoint stosb (dst c : Z) (n : nat) : M S unit :=
  match n with
  | O => ret tt
  | Datatypes.S n' => do! store8 dst (u8 c) in stosb (dst + 1) c n'
  end.

Fixpoint stosl (dst w : Z) (n : nat) : M S unit :=
  match n with
  | O => ret tt
  | Datatypes.S n' =>
      do! store8 dst (u8 w) in
      do! store8 (dst + 1) (u8 (Z.shiftr w 8)) in
      do! store8 (dst + 2) (u8 (Z.shiftr w 16)) in
      do! store8 (dst + 3) (u8 (Z.shiftr w 24)) in
      stosl (dst + 4) w n'
  end.

Definition memset (dst c n : Z) : M S Z :=
  do! (if (crem (i32 dst) 4 =? 0) && (n mod 4 =? 0) then
         let c := Z.land c 0xFF in
         stosl dst (Z.lor (Z.lor (Z.lor (Z.shiftl c 24) (Z.shiftl c 16)) (Z.shiftl c 8)) c)
           (Z.to_nat (n / 4))
       else stosb dst c (Z.to_nat n)) in
  ret dst.

Fixpoint memcmp_loop (s1 s2 : Z) (n : nat) : M S Z :=
  match n with
  | O => ret 0
  | Datatypes.S n' =>
      let! a := load8 s1 in
      let! b := load8 s2 in
      if negb (a =? b) then ret (a - b) else memcmp_loop (s1 + 1) (s2 + 1) n'
  end.

Definition memcmp (v1 v2 n : Z) : M S Z := memcmp_loop v1 v2 (Z.to_nat n).

(** [while (n-- > 0) *d++ = *s++] and [while (n-- > 0) *--d = *--s]. *)
Fixpoint copy_up (d s : Z) (n : nat) : M S unit :=
  match n with
  | O => ret tt
  | Datatypes.S n' => let! b := load8 s in do! store8 d b in copy_up (d + 1) (s + 1) n'
  end.

Fixpoint copy_down (d s : Z) (n : nat) : M S unit :=
  match n with
  | O => ret tt
  | Datatypes.S n' =>
      let! b := load8 (s - 1) in do! store8 (d - 1) b in copy_down (d - 1) (s - 1) n'
  end.

Definition memmove (dst src n : Z) : M S Z :=
  do! (if (src <? dst) && (dst <? src + n) then copy_down (dst + n) (src + n) (Z.to_nat n)
       else copy_up dst src (Z.to_nat n)) in
  ret dst.

Definition memcpy (dst src n : Z) : M S Z := memmove dst src n.

Fixpoint strncmp_loop (p q : Z) (n : nat) : M S Z :=
  match n with
  | O => ret 0
  | Datatypes.S n' =>
      let! a := load8 p in
      let! b := load8 q in
      if negb (a =? 0) && (a =? b) then strncmp_loop (p + 1) (q + 1) n' else ret (a - b)
  end.

Definition strncmp (p q n : Z) : M S Z := strncmp_loop p q (Z.to_nat n).

(** [while (n-- > 0 && ( *s++ = *t++ ) != 0)], then NULs up to [n]. *)
Fixpoint strncpy_loop (s t : Z) (n : nat) : M S unit :=
  match n with
  | O => ret tt
  | Datatypes.S n' =>
      let! b := load8 t in
      do! store8 s b in
      if b =? 0 then stosb (s + 1) 0 n' else strncpy_loop (s + 1) (t + 1) n'
  end.

Definition strncpy (s t n : Z) : M S Z := do! strncpy_loop s t (Z.to_nat n) in ret s.

(** [while (--n > 0 && ( *s++ = *t++ ) != 0)], then a NUL at [s]. *)
Fixpoint safestrcpy_loop (s t : Z) (n : nat) : M S Z :=
  match n with
  | O => ret s
  | Datatypes.S n' =>
      let! b := load8 t in
      do! store8 s b in
      if b =? 0 then ret (s + 1) else safestrcpy_loop (s + 1) (t + 1) n'
  end.

Definition safestrcpy (s t n : Z) : M S Z :=
  if n <=? 0 then ret s
  else
    let! e := safestrcpy_loop s t (Z.to_nat (n - 1)) in
    do! store8 e 0 in
    ret s.

Definition strlen (fuel : nat) (s : Z) : M S Z :=
  loop fuel (fun n =>
    let! b := load8 (s + n) in
    if negb (b =? 0) then ret (inl (n + 1)) else ret (inr n)) 0.

(** ** ulib.c *)

Definition strcpy (fuel : nat) (s t : Z) : M S Z :=
  do! loop fuel (fun i =>
    let! b := load8 (t + i) in
    do! store8 (s + i) b in
    if negb (b =? 0) then ret (inl (i + 1)) else ret (inr tt)) 0 in
  ret s.

Definition strcmp (fuel : nat) (p q : Z) : M S Z :=
  loop fuel (fun i =>
    let! a := load8 (p + i) in
    let! b := load8 (q + i) in
    if negb (a =? 0) && (a =? b) then ret (inl (i + 1)) else ret (inr (a - b))) 0.

Definition ulib_memset (dst c n : Z) : M S Z := do! stosb dst c (Z.to_nat n) in ret dst.

Definition strchr (fuel : nat) (s c : Z) : M S Z :=
  loop fuel (fun p =>
    let! b := load8 p in
    if b =? 0 then ret (inr 0)
    else if b =? c then ret (inr p)
    else ret (inl (p + 1))) s.

Definition atoi (fuel : nat) (s : Z) : M S Z :=
  loop fuel (fun '(s, n) =>
    let! b := load8 s in
    if (48 <=? b) && (b <=? 57) then ret (inl (s + 1, i32 (n * 10 + b - 48)))
    else ret (inr n)) (s, 0).

Definition ulib_memmove (vdst vsrc n : Z) : M S Z :=
  do! copy_up vdst vsrc (Z.to_nat n) in ret vdst.

(** [n] is an int here and is only compared with 0. *)
Definition ulib_strncmp (fuel : nat) (s1 s2 n : Z) : M S Z :=
  loop fuel (fun '(i, n) =>
    if n =? 0 then ret (inr 0)
    else
      let! a := load8 (s1 + i) in
      let! b := load8 (s2 + i) in
      if negb (a =? 0) && (a =? b) then ret (inl (i + 1, n - 1)) else ret (inr (a - b))) (0, n).

Fixpoint safe_strcpy_loop (dest src : Z) (n : nat) : M S unit :=
  match n with
  | O => ret tt
  | Datatypes.S n' =>
      let! b := load8 src in
      if negb (b =? 0) then do! store8 dest b in safe_strcpy_loop (dest + 1) (src + 1) n'
      else store8 dest 0
  end.

Definition safe_strcpy (dest src n : Z) : M S unit := safe_strcpy_loop dest src (Z.to_nat n).

(** [while ( *s ) *dest++ = *s++]: returns the new [dest]. *)
Definition append_str (fuel : nat) (dest s : Z) : M S Z :=
  loop fuel (fun i =>
    let! b := load8 (s + i) in
    if negb (b =? 0) then do! store8 (dest + i) b in ret (inl (i + 1))
    else ret (inr (dest + i))) 0.

Definition strconcat (fuel : nat) (dest s1 s2 : Z) : M S unit :=
  let! d := append_str fuel dest s1 in
  let! d := append_str fuel d s2 in
  store8 d 0.
End string_c.

(** ** Flat memory: every address holds a byte *)

Definition flat : Type := Z -> Z.
Definition flat_set (a b : Z) (m : flat) : flat := fun x => if x =? a then b else m x.

#[export] Instance flat_mem : ByteMem flat := {
  load8 a := gets (fun m => m a);
  store8 a b := modify (flat_set a b) }.

(** The bytes from [a] on. *)
Fixpoint bytes_at (m : flat) (a : Z) (n : nat) : list Z :=
  match n with O => [] | S n' => m a :: bytes_at m (a + 1) n' end.

(** [m'] is [m] with [l] written at [a]. *)
Definition written (m m' : flat) (a : Z) (l : list Z) : Prop :=
  forall x, m' x = (if (a <=? x) && (x <? a + Z.of_nat (length l))
                    then default 0 (l !! Z.to_nat (x - a)) else m x).

Lemma flat_load {B} a (f : Z -> M flat B) m : bind (load8 a) f m = f (m a) m.
Proof. done. Qed.

Lemma flat_store {B} a b (f : unit -> M flat B) m : bind (store8 a b) f m = f tt (flat_set a b m).
Proof. done. Qed.

Lemma flat_set_eq a b m : flat_set a b m a = b.
Proof. unfold flat_set. by rewrite Z.eqb_refl. Qed.

Lemma flat_set_ne a b m x : x <> a -> flat_set a b m x = m x.
Proof. unfold flat_set. intros. by destruct (Z.eqb_spec x a). Qed.

(** Membership in an address range, as the tests of [written] compute it. *)
Ltac range :=
  repeat match goal with
  | |- context [(?a <=? ?b)] => destruct (Z.leb_spec a b)
  | |- context [(?a <? ?b)] => destruct (Z.ltb_spec a b)
  end; simpl; try lia.

Lemma copy_up_spec n : forall d s m,
  ~ (s < d < s + Z.of_nat n) ->
  exists m', copy_up d s n m = Ret tt m' /\
    forall x, m' x = if (d <=? x) && (x <? d + Z.of_nat n) then m (s + (x - d)) else m x.
Proof.
  induction n as [|n IH]; intros d s m Hov.
  - exists m. split; [done|]. intros x. range; done.
  - cbn [copy_up]. rewrite flat_load, flat_store.
    destruct (IH (d + 1) (s + 1) (flat_set d (m s) m)) as (m' & -> & Hm'); [lia|].
    exists m'. split; [done|]. intros x. rewrite Hm'.
    destruct (decide (x = d)) as [->|Hne].
    + range; rewrite flat_set_eq. f_equal. lia.
    + range; rewrite flat_set_ne by lia; f_equal; lia.
Qed.

Lemma copy_down_spec n : forall d s m,
  s < d -> exists m', copy_down d s n m = Ret tt m' /\
    forall x, m' x = if (d - Z.of_nat n <=? x) && (x <? d) then m (s - (d - x)) else m x.
Proof.
  induction n as [|n IH]; intros d s m Hov.
  - exists m. split; [done|]. intros x. range; done.
  - cbn [copy_down]. rewrite flat_load, flat_store.
    destruct (IH (d - 1) (s - 1) (flat_set (d - 1) (m (s - 1)) m)) as (m' & -> & Hm'); [lia|].
    exists m'. split; [done|]. intros x. rewrite Hm'.
    destruct (decide (x = d - 1)) as [->|Hne].
    + range; rewrite flat_set_eq. f_equal. lia.
    + range; rewrite flat_set_ne by lia; f_equal; lia.
Qed.

(** [memmove] copies correctly whatever the overlap.  Every byte of the
    destination ends up with what the corresponding source byte held before the
    call, and no other byte changes. *)
Theorem memmove_overlap m dst src n :
  0 <= n ->
  exists m', memmove dst src n m = Ret dst m' /\
    forall x, m' x = if (dst <=? x) && (x <? dst + n) then m (src + (x - dst)) else m x.
Proof.
  intros Hn. unfold memmove. destruct ((src <? dst) && (dst <? src + n)) eqn:E.
  - destruct (copy_down_spec (Z.to_nat n) (dst + n) (src + n) m) as (m' & Hr & Hm'); [lia|].
    rewrite (bind_run _ _ _ _ _ Hr). exists m'. split; [done|]. intros x. rewrite Hm'.
    range; f_equal; lia.
  - destruct (copy_up_spec (Z.to_nat n) dst src m) as (m' & Hr & Hm'); [lia|].
    rewrite (bind_run _ _ _ _ _ Hr). exists m'. split; [done|]. intros x. rewrite Hm'.
    range; f_equal; lia.
Qed.

(** The user library's [memmove] only copies upwards: with the destination one
    byte above the source it fills the destination with the first byte. *)
Lemma ulib_memmove_smears m a n :
  exists m', ulib_memmove (a + 1) a (Z.of_nat n) m = Ret (a + 1) m' /\
    forall x, m' x = if (a <=? x) && (x <? a + 1 + Z.of_nat n) then m a else m x.
Proof.
  unfold ulib_memmove. rewrite Nat2Z.id.
  enough (exists m', copy_up (a + 1) a n m = Ret tt m' /\
    forall x, m' x = if (a <=? x) && (x <? a + 1 + Z.of_nat n) then m a else m x) as (m' & Hr & Hm').
  { rewrite (bind_run _ _ _ _ _ Hr). by exists m'. }
  revert a m. induction n as [|n IH]; intros a m.
  - exists m. split; [done|]. intros x. destruct (decide (x = a)) as [->|]; range; done.
  - cbn [copy_up]. rewrite flat_load, flat_store.
    destruct (IH (a + 1) (flat_set (a + 1) (m a) m)) as (m' & Hr & Hm').
    exists m'. split; [done|]. intros x. rewrite Hm', flat_set_eq.
    destruct (decide (x = a)) as [->|]; range; rewrite ?flat_set_ne by lia; done.
Qed.

(** ** Filling *)

Lemma written_cons m m' a b l :
  written (flat_set a b m) m' (a + 1) l -> written m m' a (b :: l).
Proof.
  intros H x. rewrite H. cbn [length].
  destruct (decide (x = a)) as [->|Hne].
  - range. rewrite Z.sub_diag, flat_set_eq. done.
  - range; rewrite ?flat_set_ne by done; try done.
    replace (Z.to_nat (x - a)) with (S (Z.to_nat (x - (a + 1)))) by lia. done.
Qed.

Lemma written_nil m a : written m m a [].
Proof. intros x. cbn. range; done. Qed.

Lemma stosb_spec c n : forall d m, exists m',
  stosb d c n m = Ret tt m' /\ written m m' d (replicate n (u8 c)).
Proof.
  induction n as [|n IH]; intros d m; [exists m; split; [done|apply written_nil]|].
  cbn [stosb]. rewrite flat_store. destruct (IH (d + 1) (flat_set d (u8 c) m)) as (m' & -> & Hm').
  exists m'. split; [done|]. by apply written_cons.
Qed.

(** A word whose four bytes are all [b]. *)
Lemma splat_byte b i : 0 <= b < 256 -> 0 <= i <= 3 ->
  u8 (Z.shiftr (Z.lor (Z.lor (Z.lor (Z.shiftl b 24) (Z.shiftl b 16)) (Z.shiftl b 8)) b) (8 * i)) = b.
Proof.
  intros Hb Hi. unfold u8. apply Z.bits_inj'. intros j Hj.
  destruct (Z.ltb_spec j 8).
  - rewrite Z.mod_pow2_bits_low by lia. rewrite Z.shiftr_spec by lia.
    rewrite !Z.lor_spec, !Z.shiftl_spec by lia.
    assert (Hhi : forall t, 8 <= t -> Z.testbit b t = false).
    { intros t Ht. destruct (decide (b = 0)) as [->|]; [apply Z.bits_0|].
      apply Z.bits_above_log2; [lia|]. apply Z.log2_lt_pow2; [lia|].
      apply Z.lt_le_trans with (2 ^ 8); [lia|]. apply Z.pow_le_mono_r; lia. }
    assert (i = 0 \/ i = 1 \/ i = 2 \/ i = 3) as [->|[->|[->| ->]]] by lia.
    + rewrite !(Z.testbit_neg_r b (j + _ - _)) by lia. cbn. f_equal. lia.
    + rewrite (Z.testbit_neg_r b (j + _ - 24)), (Z.testbit_neg_r b (j + _ - 16)) by lia.
      rewrite (Hhi (j + 8 * 1)) by lia. cbn. rewrite orb_false_r. f_equal. lia.
    + rewrite (Z.testbit_neg_r b (j + _ - 24)) by lia.
      rewrite (Hhi (j + 8 * 2)), (Hhi (j + 8 * 2 - 8)) by lia. cbn. rewrite !orb_false_r. f_equal. lia.
    + rewrite (Hhi (j + 8 * 3)), (Hhi (j + 8 * 3 - 8)), (Hhi (j + 8 * 3 - 16)) by lia. cbn.
      rewrite !orb_false_r. f_equal. lia.
  - rewrite Z.mod_pow2_bits_high by lia. symmetry.
    destruct (decide (b = 0)) as [->|]; [apply Z.bits_0|].
    apply Z.bits_above_log2; [lia|]. apply Z.log2_lt_pow2; [lia|].
    apply Z.lt_le_trans with (2 ^ 8); [lia|]. apply Z.pow_le_mono_r; lia.
Qed.

Lemma stosl_spec b n : 0 <= b < 256 -> forall d m, exists m',
  stosl d (Z.lor (Z.lor (Z.lor (Z.shiftl b 24) (Z.shiftl b 16)) (Z.shiftl b 8)) b) n m = Ret tt m' /\
  written m m' d (replicate (4 * n) b).
Proof.
  intros Hb. pose proof (splat_byte b 0 Hb ltac:(lia)) as E0. pose proof (splat_byte b 1 Hb ltac:(lia)) as E1.
  pose proof (splat_byte b 2 Hb ltac:(lia)) as E2. pose proof (splat_byte b 3 Hb ltac:(lia)) as E3.
  change (8 * 0) with 0 in E0. change (8 * 1) with 8 in E1. change (8 * 2) with 16 in E2.
  change (8 * 3) with 24 in E3. rewrite Z.shiftr_0_r in E0. revert E0 E1 E2 E3.
  set (w := Z.lor _ _). intros E0 E1 E2 E3.
  induction n as [|n IH]; intros d m; [exists m; split; [done|apply written_nil]|].
  cbn [stosl]. rewrite !flat_store. rewrite E0, E1, E2, E3.
  destruct (IH (d + 4) (flat_set (d + 3) b (flat_set (d + 2) b (flat_set (d + 1) b (flat_set d b m)))))
    as (m' & -> & Hm').
  exists m'. split; [done|]. replace (4 * S n)%nat with (S (S (S (S (4 * n))))) by lia.
  cbn [replicate]. do 4 apply written_cons.
  by replace (d + 1 + 1 + 1 + 1) with (d + 4) by lia; replace (d + 1 + 1 + 1) with (d + 3) by lia;
     replace (d + 1 + 1) with (d + 2) by lia.
Qed.

Lemma land_255 c : Z.land c 255 = u8 c.
Proof. unfold u8. change 255 with (Z.ones 8). by rewrite Z.land_ones by lia. Qed.

Lemma memset_fills m dst c n :
  0 <= n -> exists m', memset dst c n m = Ret dst m' /\ written m m' dst (replicate (Z.to_nat n) (u8 c)).
Proof.
  intros Hn. unfold memset. destruct (_ && _) eqn:E.
  - apply andb_true_iff in E as [_ E%Z.eqb_eq]. rewrite land_255.
    assert (Hb : 0 <= u8 c < 256) by (apply (Z.mod_pos_bound c 256); lia).
    destruct (stosl_spec (u8 c) (Z.to_nat (n / 4)) Hb dst m) as (m' & Hr & Hm').
    rewrite (bind_run _ _ _ _ _ Hr). exists m'. split; [done|].
    replace (Z.to_nat n) with (4 * Z.to_nat (n / 4))%nat; [done|].
    pose proof (Z.div_mod n 4 ltac:(lia)). lia.
  - destruct (stosb_spec c (Z.to_nat n) dst m) as (m' & Hr & Hm').
    rewrite (bind_run _ _ _ _ _ Hr). by exists m'.
Qed.

(** ** Copying and comparing strings *)

Lemma bytes_at_ext m m' a n :
  (forall x, a <= x < a + Z.of_nat n -> m x = m' x) -> bytes_at m a n = bytes_at m' a n.
Proof.
  revert a. induction n as [|n IH]; intros a Hx; [done|]. cbn.
  rewrite (Hx a) by lia. f_equal. apply IH. intros x ?. apply Hx. lia.
Qed.

(** [strncpy] and [safestrcpy] do to memory what their list versions do. *)
Lemma strncpy_spec m s t n :
  s + n <= t \/ t + n <= s -> 0 <= n ->
  exists m', strncpy s t n m = Ret s m' /\
    written m m' s (strncpy_l (bytes_at m t (Z.to_nat n)) (Z.to_nat n)).
Proof.
  intros Hd Hn. unfold strncpy.
  enough (exists m', strncpy_loop s t (Z.to_nat n) m = Ret tt m' /\
    written m m' s (strncpy_l (bytes_at m t (Z.to_nat n)) (Z.to_nat n))) as (m' & Hr & Hm').
  { rewrite (bind_run _ _ _ _ _ Hr). by exists m'. }
  assert (Hd' : s + Z.of_nat (Z.to_nat n) <= t \/ t + Z.of_nat (Z.to_nat n) <= s) by lia.
  clear Hd. revert Hd'. generalize (Z.to_nat n). clear Hn n. intros n. revert s t m.
  induction n as [|n IH]; intros s t m Hd; [exists m; split; [done|apply written_nil]|].
  cbn [strncpy_loop]. rewrite flat_load, flat_store. unfold strncpy_l. cbn [bytes_at cstr].
  destruct (Z.eqb_spec (m t) 0) as [E|E].
  - destruct (stosb_spec 0 n (s + 1) (flat_set s (m t) m)) as (m' & -> & Hm').
    exists m'. split; [done|]. cbn. rewrite <- E at 1. by apply written_cons.
  - destruct (IH (s + 1) (t + 1) (flat_set s (m t) m)) as (m' & -> & Hm'); [lia|].
    exists m'. split; [done|]. cbn. apply written_cons.
    rewrite (bytes_at_ext _ m) in Hm' by (intros x ?; apply flat_set_ne; lia). done.
Qed.

Lemma safestrcpy_loop_spec n : forall m s t,
  s + Z.of_nat n <= t \/ t + Z.of_nat n <= s ->
  exists m' e, safestrcpy_loop s t n m = Ret e m' /\
    (let c := take n (cstr (bytes_at m t n)) in
     let w := if (length c <? n)%nat then c ++ [0] else c in
     e = s + Z.of_nat (length w) /\ written m m' s w).
Proof.
  induction n as [|n IH]; intros m s t Hd.
  - exists m, s. split; [done|]. split; [cbn; lia|apply written_nil].
  - cbn [safestrcpy_loop bytes_at cstr]. rewrite flat_load, flat_store.
    destruct (Z.eqb_spec (m t) 0) as [E|E].
    + exists (flat_set s (m t) m), (s + 1). split; [done|]. cbn. split; [lia|].
      rewrite E. apply written_cons, written_nil.
    + destruct (IH (flat_set s (m t) m) (s + 1) (t + 1)) as (m' & e & -> & He & Hm'); [lia|].
      exists m', e. split; [done|]. cbn -[Nat.ltb] in *.
      rewrite (bytes_at_ext _ m) in He, Hm' by (intros x ?; apply flat_set_ne; lia).
      change (S ?a <? S n)%nat with (a <? n)%nat.
      destruct (_ <? n)%nat; cbn; (split; [lia|]); by apply written_cons.
Qed.

Lemma written_snoc m m' a l b :
  written m m' a l -> written m (flat_set (a + Z.of_nat (length l)) b m') a (l ++ [b]).
Proof.
  intros H x. rewrite length_app. cbn [length].
  destruct (decide (x = a + Z.of_nat (length l))) as [->|Hne].
  - rewrite flat_set_eq. range. rewrite lookup_app_r by lia.
    by replace (Z.to_nat _ - _)%nat with 0%nat by lia.
  - rewrite flat_set_ne by done. rewrite H. range; try done. by rewrite lookup_app_l by lia.
Qed.

Lemma safestrcpy_spec m s t n :
  s + n <= t \/ t + n <= s -> 0 <= n ->
  exists m', safestrcpy s t n m = Ret s m' /\
    written m m' s (safestrcpy_w (bytes_at m t (Z.to_nat (n - 1))) (Z.to_nat n)).
Proof.
  intros Hd Hn. unfold safestrcpy. destruct (Z.leb_spec n 0).
  { exists m. replace n with 0 by lia. split; [done|apply written_nil]. }
  destruct (safestrcpy_loop_spec (Z.to_nat (n - 1)) m s t) as (m' & e & Hr & He & Hm'); [lia|].
  rewrite (bind_run _ _ _ _ _ Hr), flat_store. eexists. split; [done|].
  replace (Z.to_nat n) with (S (Z.to_nat (n - 1))) by lia. cbn [safestrcpy_w].
  subst e. apply (written_snoc _ _ _ _ 0) in Hm'.
  destruct (_ <? _)%nat; [by rewrite <- app_assoc in Hm'|done].
Qed.

Lemma strncmp_loop_spec n : forall m p q,
  strncmp_loop p q n m = Ret (strncmp_l (bytes_at m p n) (bytes_at m q n) n) m.
Proof.
  induction n as [|n IH]; intros m p q; [done|].
  cbn [strncmp_loop bytes_at strncmp_l]. rewrite !flat_load. cbn [head default tail].
  destruct (negb (m p =? 0) && (m p =? m q)) eqn:E; cbn; rewrite E; [apply IH|done].
Qed.

(** Comparing with [strncmp] is comparing the C strings, cut to [n]. *)
Lemma strncmp_l_eq n : forall p q,
  strncmp_l p q n = 0 <-> take n (cstr p) = take n (cstr q).
Proof.
  induction n as [|n IH]; intros p q; [done|]. cbn [strncmp_l].
  destruct p as [|a p], q as [|b q]; cbn [head default tail cstr]; simpl.
  - done.
  - destruct (Z.eqb_spec b 0) as [->|]; [done|]. split; [lia|done].
  - destruct (Z.eqb_spec a 0) as [->|]; simpl; [done|].
    split; [lia|done].
  - destruct (Z.eqb_spec a 0) as [->|Ha]; simpl.
    + destruct (Z.eqb_spec b 0) as [->|Hb]; [done|]. split; [lia|done].
    + destruct (Z.eqb_spec a b) as [<-|Hab].
      * rewrite (proj2 (Z.eqb_neq a 0) Ha). cbn. rewrite IH. split; [by intros ->|by intros [= ->]].
      * destruct (Z.eqb_spec b 0); cbn; split; try lia; intros [=]; lia.
Qed.

Lemma cstr_strncpy_l t n : cstr (strncpy_l t n) = take n (cstr t).
Proof.
  unfold strncpy_l. revert n. induction t as [|a t IH]; intros n; cbn [cstr].
  - rewrite take_nil. cbn. by destruct (n - 0)%nat.
  - destruct (Z.eqb_spec a 0) as [->|Ha].
    + rewrite take_nil. cbn. by destruct (n - 0)%nat.
    + destruct n as [|n]; [done|]. cbn. rewrite (proj2 (Z.eqb_neq a 0) Ha). f_equal. apply IH.
Qed.

Lemma length_strncpy_l t n : length (strncpy_l t n) = n.
Proof. unfold strncpy_l. rewrite length_app, length_replicate, length_take. lia. Qed.

(** ** Lengths *)

Lemma bytes_at_lookup m a n i : (i < n)%nat -> bytes_at m a n !! i = Some (m (a + Z.of_nat i)).
Proof.
  revert a i. induction n as [|n IH]; intros a i Hi; [lia|]. destruct i as [|i]; cbn [bytes_at].
  - cbn. by rewrite Z.add_0_r.
  - change ((?x :: ?l) !! S i) with (l !! i). rewrite IH by lia. do 2 f_equal. lia.
Qed.

Lemma bytes_at_length m a n : length (bytes_at m a n) = n.
Proof. revert a. induction n as [|n IH]; intros a; [done|]. cbn. by rewrite IH. Qed.

(** Memory as a part of a larger state: loads read the bytes [get] gives. *)
Section views.
Context {S : Type} `{ByteMem S} (get : S -> flat).
Hypothesis load_get : forall a s, load8 a s = Ret (get s a) s.

(** [strlen] returns the length of the string when given one step of fuel per
    character and one for the NUL. *)
Lemma strlen_view s a n fuel :
  (forall i, (i < n)%nat -> get s (a + Z.of_nat i) <> 0) -> get s (a + Z.of_nat n) = 0 -> (n < fuel)%nat ->
  strlen fuel a s = Ret (Z.of_nat n) s.
Proof.
  intros Hnz Hz Hfuel. unfold strlen.
  enough (forall r j fuel, (r + j = n)%nat -> (r < fuel)%nat ->
    loop fuel (fun n => let! b := load8 (a + n) in
      if negb (b =? 0) then ret (inl (n + 1)) else ret (inr n)) (Z.of_nat j) s
    = Ret (Z.of_nat n) s) as Hl by (apply (Hl n 0%nat); lia).
  clear fuel Hfuel. induction r as [|r IH]; intros j [|fuel] Hj Hf; try lia; cbn [loop]; unfold bind at 1; erewrite bind_run by apply load_get.
  - cbn in Hj. subst j. rewrite Hz. done.
  - destruct (Z.eqb_spec (get s (a + Z.of_nat j)) 0) as [E|_]; [by apply Hnz in E; [|lia]|]. cbn.
    replace (Z.of_nat j + 1) with (Z.of_nat (Datatypes.S j)) by lia. apply IH; lia.
Qed.

(** The user library's [strncmp] compares like the kernel's. *)
Lemma ulib_strncmp_view s p q n fuel : (n < fuel)%nat ->
  ulib_strncmp fuel p q (Z.of_nat n) s = Ret (strncmp_l (bytes_at (get s) p n) (bytes_at (get s) q n) n) s.
Proof.
  intros Hfuel. unfold ulib_strncmp.
  enough (forall r j fuel, (r < fuel)%nat ->
    loop fuel (fun '(i, n) => if n =? 0 then ret (inr 0) else let! a := load8 (p + i) in let! b := load8 (q + i) in
      if negb (a =? 0) && (a =? b) then ret (inl (i + 1, n - 1)) else ret (inr (a - b))) (j, Z.of_nat r) s
    = Ret (strncmp_l (bytes_at (get s) (p + j) r) (bytes_at (get s) (q + j) r) r) s) as Hl.
  { specialize (Hl n 0 fuel Hfuel). by rewrite !Z.add_0_r in Hl. }
  clear fuel Hfuel. induction r as [|r IH]; intros j [|fuel] Hf; try lia; [done|]. cbn [loop]. rewrite (proj2 (Z.eqb_neq _ 0)) by lia.
  unfold bind at 1. erewrite bind_run by apply load_get. erewrite bind_run by apply load_get. cbn [bytes_at strncmp_l head default tail].
  change (default 0 (Some ?x)) with x. destruct (negb (get s (p + j) =? 0) && (get s (p + j) =? get s (q + j))) eqn:E; cbn; rewrite E; [|done].
  replace (Z.of_nat (Datatypes.S r) - 1) with (Z.of_nat r) by lia. rewrite IH by lia. by rewrite !Z.add_assoc.
Qed.
End views.

Lemma strlen_counts (m : flat) s n :
  (forall i, (i < n)%nat -> m (s + Z.of_nat i) <> 0) -> m (s + Z.of_nat n) = 0 ->
  strlen (S n) s m = Ret (Z.of_nat n) m.
Proof. intros Hnz Hz. by apply (strlen_view id); [|..|lia]. Qed.

Lemma memmove_overlap_witness :
  exists m', memmove 11 10 3 (fun a => a) = Ret 11 m' /\ (m' 11, m' 12, m' 13, m' 14) = (10, 11, 12, 14).
Proof.
  destruct (memmove_overlap (fun a => a) 11 10 3) as (m' & ? & Hm'); [lia|].
  exists m'. split; [done|]. by rewrite !Hm'.
Defined.
