(* ===== verification/Headers.v ===== *)
(** * Headers: the constants, structures and global state of the kernel

    The C headers ([param.h], [memlayout.h], [mmu.h], [proc.h], [spinlock.h],
    [sleeplock.h], [fs.h], [file.h], [buf.h], [shm.h]) and the global variables
    of the kernel's [.c] files, gathered in one record [kernel].

    Pointers to elements of the kernel's fixed tables ([struct proc *],
    [struct inode *], [struct file *], [struct buf *]) are indices in these
    tables, the null pointer being [None].  Addresses of memory pages are [Z].
    Flags that C keeps in an [int] and only tests are kept as [Z] where the
    code stores several values in them and as [bool] otherwise. *)

From S2P Require Import Prelude.

(** ** Constants *)

Definition NPROC : nat := 64.
Definition KSTACKSIZE : Z := 4096.
Definition NOFILE : nat := 16.
Definition NFILE : nat := 100.
Definition NINODE : nat := 50.
Definition NDEV : Z := 10.
Definition ROOTDEV : Z := 1.
Definition MAXARG : nat := 32.
Definition MAXOPBLOCKS : Z := 10.
Definition LOGSIZE : Z := MAXOPBLOCKS * 3.
Definition NBUF : nat := 30.
Definition FSSIZE : Z := 1000.
Definition MAXPATH : Z := 256.

Definition QUEUESIZE : Z := 50.
Definition PRIO_MAX : Z := 10.
Definition HFS_PRIO_MAX : Z := 10.
Definition FP_POLICY : Z := 0.
Definition HFS_POLICY : Z := 1.
Definition MUX_MAXNUM : nat := 16.
Definition SHM_MAXNUM : nat := 16.
Definition SHM_NAME_LEN : nat := 16.

Definition EXTMEM : Z := 0x100000.
Definition PHYSTOP : Z := 0xE000000.
Definition DEVSPACE : Z := 0xFE000000.
Definition KERNBASE : Z := 0x80000000.
Definition KERNLINK : Z := KERNBASE + EXTMEM.
Definition V2P (a : Z) : Z := u32 (a - KERNBASE).
Definition P2V (a : Z) : Z := u32 (a + KERNBASE).

Definition PGSIZE : Z := 4096.
Definition PTE_P : Z := 0x001.
Definition PTE_W : Z := 0x002.
Definition PTE_U : Z := 0x004.
Definition NPDENTRIES : Z := 1024.
Definition PGROUNDUP (a : Z) : Z := Z.land (u32 (a + PGSIZE - 1)) (u32 (Z.lnot (PGSIZE - 1))).
Definition PGROUNDDOWN (a : Z) : Z := Z.land (u32 a) (u32 (Z.lnot (PGSIZE - 1))).
Definition PDX (va : Z) : Z := Z.land (Z.shiftr va 22) 0x3FF.
Definition PTX (va : Z) : Z := Z.land (Z.shiftr va 12) 0x3FF.
Definition PGADDR (d t o : Z) : Z := u32 (Z.lor (Z.lor (Z.shiftl d 22) (Z.shiftl t 12)) o).
Definition PTE_ADDR (pte : Z) : Z := Z.land pte (u32 (Z.lnot 0xFFF)).
Definition PTE_FLAGS (pte : Z) : Z := Z.land pte 0xFFF.

Definition FL_IF : Z := 0x00000200.
Definition DPL_USER : Z := 3.
Definition SEG_UCODE : Z := 3.
Definition SEG_UDATA : Z := 4.

Definition ROOTINO : Z := 1.
Definition BSIZE : Z := 1024.
Definition NDIRECT : Z := 12.
Definition NINDIRECT : Z := BSIZE / 4.
Definition MAXFILE : Z := NDIRECT + NINDIRECT.
Definition DIRSIZ : nat := 14.
Definition O_RDONLY : Z := 0x000.
Definition O_WRONLY : Z := 0x001.
Definition O_RDWR : Z := 0x002.
Definition O_CREATE : Z := 0x200.

Definition T_DIR : Z := 1.
Definition T_FILE : Z := 2.
Definition T_DEV : Z := 3.
Definition B_VALID : Z := 2.
Definition B_DIRTY : Z := 4.
Definition PIPESIZE : Z := 512.
Definition T_IRQ0 : Z := 32.
Definition IRQ_TIMER : Z := 0.
Definition IRQ_KBD : Z := 1.
Definition IRQ_COM1 : Z := 4.
Definition IRQ_IDE : Z := 14.
Definition IRQ_ERROR : Z := 19.
Definition IRQ_SPURIOUS : Z := 31.

(** ** Locks and sleep channels *)

(** Every [struct spinlock] of the kernel, by where it lives. *)
Inductive lock :=
| Lptable | Lmutex_table | Lmutex (i : nat) | Lcv (i : nat)
| Lkmem | Lbcache | Lbuf (i : nat) | Licache | Linode (i : nat)
| Llog | Lftable | Lpipe (p : Z) | Lcons | Ltickslock | Lide.

#[export] Instance lock_eq_dec : EqDecision lock.
Proof. solve_decision. Defined.

(** The addresses the kernel sleeps on: [sleep(chan, lk)]. *)
Inductive channel :=
| Cproc (i : nat)               (* a struct proc, in wait()            *)
| Cmutex (i : nat)              (* a struct mutex                      *)
| Cbuflock (i : nat)            (* the sleeplock of a buffer           *)
| Cinodelock (i : nat)          (* the sleeplock of an inode           *)
| Clog                          (* &log                                *)
| Cpipe_nread (p : Z) | Cpipe_nwrite (p : Z)
| Cticks | Cinput_r.

#[export] Instance channel_eq_dec : EqDecision channel.
Proof. solve_decision. Defined.

(** ** Processes ([proc.h]) *)

Inductive procstate := UNUSED | EMBRYO | SLEEPING | RUNNABLE | RUNNING | ZOMBIE.

#[export] Instance procstate_eq_dec : EqDecision procstate.
Proof. solve_decision. Defined.

Record trapframe := mk_trapframe {
  tf_edi : Z; tf_esi : Z; tf_ebp : Z; tf_ebx : Z; tf_edx : Z; tf_ecx : Z; tf_eax : Z;
  tf_gs : Z; tf_fs : Z; tf_es : Z; tf_ds : Z; tf_trapno : Z; tf_err : Z;
  tf_eip : Z; tf_cs : Z; tf_eflags : Z; tf_esp : Z; tf_ss : Z }.

#[export] Instance eta_trapframe : Eta trapframe := fun r =>
  mk_trapframe (tf_edi r) (tf_esi r) (tf_ebp r) (tf_ebx r) (tf_edx r) (tf_ecx r) (tf_eax r)
    (tf_gs r) (tf_fs r) (tf_es r) (tf_ds r) (tf_trapno r) (tf_err r)
    (tf_eip r) (tf_cs r) (tf_eflags r) (tf_esp r) (tf_ss r).
#[export] Instance set_tf_eax : Setter tf_eax := ltac:(mk_setter).
#[export] Instance set_tf_es : Setter tf_es := ltac:(mk_setter).
#[export] Instance set_tf_ds : Setter tf_ds := ltac:(mk_setter).
#[export] Instance set_tf_eip : Setter tf_eip := ltac:(mk_setter).
#[export] Instance set_tf_cs : Setter tf_cs := ltac:(mk_setter).
#[export] Instance set_tf_eflags : Setter tf_eflags := ltac:(mk_setter).
#[export] Instance set_tf_esp : Setter tf_esp := ltac:(mk_setter).
#[export] Instance set_tf_ss : Setter tf_ss := ltac:(mk_setter).

Definition zero_tf : trapframe := mk_trapframe 0 0 0 0 0 0 0 0 0 0 0 0 0 0 0 0 0 0.

(** Where a process resumes when it is switched to: the saved [eip] of its
    [struct context]. *)
Inductive resume_point := RP_none | RP_forkret | RP_kernel.

Record shm_mapping := mk_shm_mapping { sm_name : list Z; sm_va : Z }.
#[export] Instance eta_shm_mapping : Eta shm_mapping := fun r => mk_shm_mapping (sm_name r) (sm_va r).
#[export] Instance set_sm_name : Setter sm_name := ltac:(mk_setter).
#[export] Instance set_sm_va : Setter sm_va := ltac:(mk_setter).

Record proc := mk_proc {
  sz : Z;                       (* size of process memory (bytes) *)
  pgdir : Z;                    (* page table, 0 when there is none *)
  kstack : Z;                   (* bottom of kernel stack, 0 when there is none *)
  state : procstate;
  pid : Z;
  parent : option nat;
  tf : trapframe;
  context : resume_point;
  chan : option channel;
  killed : Z;
  ofile : list (option nat);
  cwd : option nat;
  pname : list Z;
  maxproc : Z;
  maxprocset : Z;
  newroot_inode : option nat;
  in_newroot : Z;
  in_container : Z;
  namespace : Z;
  proc_mutexes : list Z;        (* uint[MUX_MAXNUM] *)
  pshm : list shm_mapping;      (* shm[MAX_SHM_PER_PROC] *)
  fp_priority : Z;
  hfs_priority : Z;
  queueType : Z }.

#[export] Instance eta_proc : Eta proc := fun r =>
  mk_proc (sz r) (pgdir r) (kstack r) (state r) (pid r) (parent r) (tf r) (context r)
    (chan r) (killed r) (ofile r) (cwd r) (pname r) (maxproc r) (maxprocset r)
    (newroot_inode r) (in_newroot r) (in_container r) (namespace r) (proc_mutexes r)
    (pshm r) (fp_priority r) (hfs_priority r) (queueType r).
#[export] Instance set_sz : Setter sz := ltac:(mk_setter).
#[export] Instance set_pgdir : Setter pgdir := ltac:(mk_setter).
#[export] Instance set_kstack : Setter kstack := ltac:(mk_setter).
#[export] Instance set_state : Setter state := ltac:(mk_setter).
#[export] Instance set_pid : Setter pid := ltac:(mk_setter).
#[export] Instance set_parent : Setter parent := ltac:(mk_setter).
#[export] Instance set_tf : Setter tf := ltac:(mk_setter).
#[export] Instance set_context : Setter context := ltac:(mk_setter).
#[export] Instance set_chan : Setter chan := ltac:(mk_setter).
#[export] Instance set_killed : Setter killed := ltac:(mk_setter).
#[export] Instance set_ofile : Setter ofile := ltac:(mk_setter).
#[export] Instance set_cwd : Setter cwd := ltac:(mk_setter).
#[export] Instance set_pname : Setter pname := ltac:(mk_setter).
#[export] Instance set_maxproc : Setter maxproc := ltac:(mk_setter).
#[export] Instance set_maxprocset : Setter maxprocset := ltac:(mk_setter).
#[export] Instance set_newroot_inode : Setter newroot_inode := ltac:(mk_setter).
#[export] Instance set_in_newroot : Setter in_newroot := ltac:(mk_setter).
#[export] Instance set_in_container : Setter in_container := ltac:(mk_setter).
#[export] Instance set_namespace : Setter namespace := ltac:(mk_setter).
#[export] Instance set_proc_mutexes : Setter proc_mutexes := ltac:(mk_setter).
#[export] Instance set_pshm : Setter pshm := ltac:(mk_setter).
#[export] Instance set_fp_priority : Setter fp_priority := ltac:(mk_setter).
#[export] Instance set_hfs_priority : Setter hfs_priority := ltac:(mk_setter).
#[export] Instance set_queueType : Setter queueType := ltac:(mk_setter).

(** The process table is in the kernel's zero-initialised data. *)
Definition zero_mapping : shm_mapping := mk_shm_mapping (replicate SHM_NAME_LEN 0) 0.
Definition zero_proc : proc :=
  mk_proc 0 0 0 UNUSED 0 None zero_tf RP_none None 0 (replicate NOFILE None) None
    (replicate 16 0) 0 0 None 0 0 0 (replicate MUX_MAXNUM 0)
    (replicate SHM_MAXNUM zero_mapping) 0 0 0.

(** ** Mutexes and condition variables ([proc.c], module 3) *)

Record mutex := mk_mutex {
  muxid : Z;
  mux_name : Z;                 (* char *: never assigned, so always null *)
  locked : Z;
  used : Z;
  waiters : list Z;             (* cv.waiters[MUX_MAXNUM] *)
  num_waiters : Z;              (* cv.num_waiters *)
  mpid : Z;                     (* uint: pid of the holder, -1 wraps to 2^32-1 *)
  nameSpace : Z }.

#[export] Instance eta_mutex : Eta mutex := fun r =>
  mk_mutex (muxid r) (mux_name r) (locked r) (used r) (waiters r) (num_waiters r) (mpid r) (nameSpace r).
#[export] Instance set_muxid : Setter muxid := ltac:(mk_setter).
#[export] Instance set_locked : Setter locked := ltac:(mk_setter).
#[export] Instance set_used : Setter used := ltac:(mk_setter).
#[export] Instance set_waiters : Setter waiters := ltac:(mk_setter).
#[export] Instance set_num_waiters : Setter num_waiters := ltac:(mk_setter).
#[export] Instance set_mpid : Setter mpid := ltac:(mk_setter).
#[export] Instance set_nameSpace : Setter nameSpace := ltac:(mk_setter).

(** ** Shared memory ([shm.h]) *)

Record shm_block := mk_shm_block {
  sb_name : list Z; sb_pa : Z; sb_ref : Z; shm_mutex_index : Z }.
#[export] Instance eta_shm_block : Eta shm_block := fun r =>
  mk_shm_block (sb_name r) (sb_pa r) (sb_ref r) (shm_mutex_index r).
#[export] Instance set_sb_name : Setter sb_name := ltac:(mk_setter).
#[export] Instance set_sb_pa : Setter sb_pa := ltac:(mk_setter).
#[export] Instance set_sb_ref : Setter sb_ref := ltac:(mk_setter).
#[export] Instance set_shm_mutex_index : Setter shm_mutex_index := ltac:(mk_setter).

(** ** Sleep locks, buffers, inodes, files, pipes *)

Record sleeplock := mk_sleeplock { sl_locked : Z; sl_pid : Z }.

Record buf := mk_buf {
  b_flags : Z; b_dev : Z; b_blockno : Z; b_lock : sleeplock; b_refcnt : Z;
  b_prev : nat; b_next : nat; b_data : list Z }.
#[export] Instance eta_buf : Eta buf := fun r =>
  mk_buf (b_flags r) (b_dev r) (b_blockno r) (b_lock r) (b_refcnt r) (b_prev r) (b_next r) (b_data r).
#[export] Instance set_b_flags : Setter b_flags := ltac:(mk_setter).
#[export] Instance set_b_dev : Setter b_dev := ltac:(mk_setter).
#[export] Instance set_b_blockno : Setter b_blockno := ltac:(mk_setter).
#[export] Instance set_b_lock : Setter b_lock := ltac:(mk_setter).
#[export] Instance set_b_refcnt : Setter b_refcnt := ltac:(mk_setter).
#[export] Instance set_b_prev : Setter b_prev := ltac:(mk_setter).
#[export] Instance set_b_next : Setter b_next := ltac:(mk_setter).
#[export] Instance set_b_data : Setter b_data := ltac:(mk_setter).

Record inode := mk_inode {
  i_dev : Z; i_inum : Z; i_ref : Z; i_lock : sleeplock; i_valid : Z;
  i_type : Z; i_major : Z; i_minor : Z; i_nlink : Z; i_size : Z; i_addrs : list Z }.
#[export] Instance eta_inode : Eta inode := fun r =>
  mk_inode (i_dev r) (i_inum r) (i_ref r) (i_lock r) (i_valid r) (i_type r) (i_major r)
    (i_minor r) (i_nlink r) (i_size r) (i_addrs r).
#[export] Instance set_i_dev : Setter i_dev := ltac:(mk_setter).
#[export] Instance set_i_inum : Setter i_inum := ltac:(mk_setter).
#[export] Instance set_i_ref : Setter i_ref := ltac:(mk_setter).
#[export] Instance set_i_lock : Setter i_lock := ltac:(mk_setter).
#[export] Instance set_i_valid : Setter i_valid := ltac:(mk_setter).
#[export] Instance set_i_type : Setter i_type := ltac:(mk_setter).
#[export] Instance set_i_major : Setter i_major := ltac:(mk_setter).
#[export] Instance set_i_minor : Setter i_minor := ltac:(mk_setter).
#[export] Instance set_i_nlink : Setter i_nlink := ltac:(mk_setter).
#[export] Instance set_i_size : Setter i_size := ltac:(mk_setter).
#[export] Instance set_i_addrs : Setter i_addrs := ltac:(mk_setter).

Inductive fdtype := FD_NONE | FD_PIPE | FD_INODE.

#[export] Instance fdtype_eq_dec : EqDecision fdtype.
Proof. solve_decision. Defined.

Record file := mk_file {
  f_type : fdtype; f_ref : Z; f_readable : Z; f_writable : Z;
  f_pipe : Z; f_ip : option nat; f_off : Z }.
#[export] Instance eta_file : Eta file := fun r =>
  mk_file (f_type r) (f_ref r) (f_readable r) (f_writable r) (f_pipe r) (f_ip r) (f_off r).
#[export] Instance set_f_type : Setter f_type := ltac:(mk_setter).
#[export] Instance set_f_ref : Setter f_ref := ltac:(mk_setter).
#[export] Instance set_f_readable : Setter f_readable := ltac:(mk_setter).
#[export] Instance set_f_writable : Setter f_writable := ltac:(mk_setter).
#[export] Instance set_f_pipe : Setter f_pipe := ltac:(mk_setter).
#[export] Instance set_f_ip : Setter f_ip := ltac:(mk_setter).
#[export] Instance set_f_off : Setter f_off := ltac:(mk_setter).

Record pipe := mk_pipe {
  p_data : list Z; p_nread : Z; p_nwrite : Z; p_readopen : Z; p_writeopen : Z }.
#[export] Instance eta_pipe : Eta pipe := fun r =>
  mk_pipe (p_data r) (p_nread r) (p_nwrite r) (p_readopen r) (p_writeopen r).
#[export] Instance set_p_data : Setter p_data := ltac:(mk_setter).
#[export] Instance set_p_nread : Setter p_nread := ltac:(mk_setter).
#[export] Instance set_p_nwrite : Setter p_nwrite := ltac:(mk_setter).
#[export] Instance set_p_readopen : Setter p_readopen := ltac:(mk_setter).
#[export] Instance set_p_writeopen : Setter p_writeopen := ltac:(mk_setter).

(** The device switch table [devsw] (file.h): the read and write functions
    registered for a major number. *)
Inductive devfn := FN_consoleread | FN_consolewrite.
Definition devsw_entry : Type := option devfn * option devfn.
Definition CONSOLE : Z := 1.

(** ** The log and the superblock *)

Record log := mk_log {
  log_start : Z; log_size : Z; log_outstanding : Z; log_committing : Z; log_dev : Z;
  lh_n : Z; lh_block : list Z }.
#[export] Instance eta_log : Eta log := fun r =>
  mk_log (log_start r) (log_size r) (log_outstanding r) (log_committing r) (log_dev r)
    (lh_n r) (lh_block r).
#[export] Instance set_log_start : Setter log_start := ltac:(mk_setter).
#[export] Instance set_log_size : Setter log_size := ltac:(mk_setter).
#[export] Instance set_log_outstanding : Setter log_outstanding := ltac:(mk_setter).
#[export] Instance set_log_committing : Setter log_committing := ltac:(mk_setter).
#[export] Instance set_log_dev : Setter log_dev := ltac:(mk_setter).
#[export] Instance set_lh_n : Setter lh_n := ltac:(mk_setter).
#[export] Instance set_lh_block : Setter lh_block := ltac:(mk_setter).

Record superblock := mk_superblock {
  s_size : Z; s_nblocks : Z; s_ninodes : Z; s_nlog : Z;
  s_logstart : Z; s_inodestart : Z; s_bmapstart : Z }.

(** ** The global state *)

(** What the processor running the code sees: the spinlocks it holds, most
    recently acquired first (their number is [mycpu()->ncli]), the process it
    runs ([mycpu()->proc]), its page-table and kernel-stack registers, the kernel's global variables, physical memory
    (32-bit words by physical address; an absent word is 0), the disk, and what
    has been printed on the console. *)
Record kernel := mk_kernel {
  held : list lock;
  curproc : option nat;
  procs : list proc;                       (* ptable.proc *)
  htindex : list (Z * Z);                  (* ptable.htindex: head, tail *)
  pqueues : list (list (option nat));      (* ptable.pqueues *)
  nextpid : Z;
  initproc : option nat;
  namespace_id : Z;
  mutexes : list mutex;                    (* mutex_table.mutexes *)
  shm_num : Z;                             (* shared_memory.shm_num *)
  shm_mems : list shm_block;               (* shared_memory.shm_mems *)
  kernel_end : Z;                          (* end[]: first address after the kernel image, set by the linker *)
  kernel_data : Z;                         (* data[]: where the kernel's writable data start, set by the linker *)
  use_lock : Z;                            (* kmem.use_lock *)
  freelist : Z;                            (* kmem.freelist *)
  pmem : gmap Z Z;
  kpgdir : Z;                              (* the kernel-only page directory *)
  cr3 : Z;                                 (* physical address of the page directory in use *)
  esp0 : Z;                                (* mycpu()->ts.esp0 *)
  bufs : list buf;                         (* bcache.buf, then bcache.head *)
  disk : gmap Z (list Z);
  disk_writes : list (Z * list Z);         (* blocks written, most recent first *)
  the_log : log;
  the_sb : superblock;
  icache : list inode;
  ftable : list file;
  pipes : gmap Z pipe;
  devsw : list devsw_entry;
  ticks : Z;
  input_buf : list Z;                      (* console input: input.buf, .r, .w, .e *)
  input_r : Z;
  input_w : Z;
  input_e : Z;
  console : list string }.

#[export] Instance eta_kernel : Eta kernel := fun r =>
  mk_kernel (held r) (curproc r) (procs r) (htindex r) (pqueues r) (nextpid r) (initproc r)
    (namespace_id r) (mutexes r) (shm_num r) (shm_mems r) (kernel_end r) (kernel_data r) (use_lock r) (freelist r) (pmem r) (kpgdir r) (cr3 r) (esp0 r) (bufs r)
    (disk r) (disk_writes r) (the_log r) (the_sb r) (icache r) (ftable r) (pipes r) (devsw r) (ticks r)
    (input_buf r) (input_r r) (input_w r) (input_e r) (console r).
#[export] Instance set_held : Setter held := ltac:(mk_setter).
#[export] Instance set_curproc : Setter curproc := ltac:(mk_setter).
#[export] Instance set_procs : Setter procs := ltac:(mk_setter).
#[export] Instance set_htindex : Setter htindex := ltac:(mk_setter).
#[export] Instance set_pqueues : Setter pqueues := ltac:(mk_setter).
#[export] Instance set_nextpid : Setter nextpid := ltac:(mk_setter).
#[export] Instance set_initproc : Setter initproc := ltac:(mk_setter).
#[export] Instance set_namespace_id : Setter namespace_id := ltac:(mk_setter).
#[export] Instance set_mutexes : Setter mutexes := ltac:(mk_setter).
#[export] Instance set_shm_num : Setter shm_num := ltac:(mk_setter).
#[export] Instance set_shm_mems : Setter shm_mems := ltac:(mk_setter).
#[export] Instance set_kernel_end : Setter kernel_end := ltac:(mk_setter).
#[export] Instance set_kernel_data : Setter kernel_data := ltac:(mk_setter).
#[export] Instance set_use_lock : Setter use_lock := ltac:(mk_setter).
#[export] Instance set_freelist : Setter freelist := ltac:(mk_setter).
#[export] Instance set_pmem : Setter pmem := ltac:(mk_setter).
#[export] Instance set_kpgdir : Setter kpgdir := ltac:(mk_setter).
#[export] Instance set_cr3 : Setter cr3 := ltac:(mk_setter).
#[export] Instance set_esp0 : Setter esp0 := ltac:(mk_setter).
#[export] Instance set_bufs : Setter bufs := ltac:(mk_setter).
#[export] Instance set_disk : Setter disk := ltac:(mk_setter).
#[export] Instance set_disk_writes : Setter disk_writes := ltac:(mk_setter).
#[export] Instance set_the_log : Setter the_log := ltac:(mk_setter).
#[export] Instance set_the_sb : Setter the_sb := ltac:(mk_setter).
#[export] Instance set_icache : Setter icache := ltac:(mk_setter).
#[export] Instance set_ftable : Setter ftable := ltac:(mk_setter).
#[export] Instance set_pipes : Setter pipes := ltac:(mk_setter).
#[export] Instance set_devsw : Setter devsw := ltac:(mk_setter).
#[export] Instance set_ticks : Setter ticks := ltac:(mk_setter).
#[export] Instance set_input_buf : Setter input_buf := ltac:(mk_setter).
#[export] Instance set_input_r : Setter input_r := ltac:(mk_setter).
#[export] Instance set_input_w : Setter input_w := ltac:(mk_setter).
#[export] Instance set_input_e : Setter input_e := ltac:(mk_setter).
#[export] Instance set_console : Setter console := ltac:(mk_setter).

Abbreviation K := (M kernel).

(** The kernel's data segment before any code has run (the kernel image is
    where the linker put it, here at example addresses). *)
Definition zero_sleeplock : sleeplock := mk_sleeplock 0 0.
Definition zero_inode : inode := mk_inode 0 0 0 zero_sleeplock 0 0 0 0 0 0 (replicate 13 0).
Definition zero_file : file := mk_file FD_NONE 0 0 0 0 None 0.
Definition zero_buf : buf := mk_buf 0 0 0 zero_sleeplock 0 0 0 (replicate 1024 0).
Definition zero_mutex : mutex := mk_mutex 0 0 0 0 (replicate MUX_MAXNUM 0) 0 0 0.
Definition zero_shm_block : shm_block := mk_shm_block (replicate SHM_NAME_LEN 0) 0 0 0.

Definition zero_kernel : kernel :=
  mk_kernel [] None (replicate NPROC zero_proc) (replicate 10 (0, 0))
    (replicate 10 (replicate 50 None)) 1 None 1 (replicate MUX_MAXNUM zero_mutex)
    0 (replicate SHM_MAXNUM zero_shm_block) 0x80115000 0x80108000 0 0 ∅ 0 0 0 (replicate (NBUF + 1) zero_buf) ∅ []
    (mk_log 0 0 0 0 0 0 (replicate 30 0)) (mk_superblock 0 0 0 0 0 0 0)
    (replicate NINODE zero_inode) (replicate NFILE zero_file) ∅ (replicate (Z.to_nat NDEV) (None, None)) 0
    (replicate 128 0) 0 0 0 [].

(** ** Access to the tables *)

(** Field access [p->f] and assignment [p->f = v] through a pointer into the
    process table; a null pointer is a fault. *)
Definition proc_at (i : nat) : K proc := let! ps := gets procs in ofopt (ps !! i).
Definition upd_proc (i : nat) (f : proc -> proc) : K unit :=
  let! p := proc_at i in
  modify (fun k => k <| procs ::= <[i := f p]> |>).

Definition myproc : K (option nat) := gets curproc.

(** [myproc()->...]: the current process, whose pointer must not be null. *)
Definition mycur : K nat := let! c := myproc in ofopt c.

Definition cputs (s : string) : K unit := modify (fun k => k <| console ::= cons s |>).

Lemma wp_proc_at i p (Q : proc -> kernel -> Prop) k :
  procs k !! i = Some p -> Q p k -> wp (proc_at i) Q k.
Proof. intros Hp HQ. unfold proc_at. wp_steps. by apply (wp_ofopt _ p). Qed.

Lemma wp_upd_proc i p f (Q : unit -> kernel -> Prop) k :
  procs k !! i = Some p -> Q tt (k <| procs ::= <[i := f p]> |>) -> wp (upd_proc i f) Q k.
Proof. intros Hp HQ. unfold upd_proc. wp_steps. by apply (wp_proc_at _ p). Qed.

Lemma wp_mycur p (Q : nat -> kernel -> Prop) k : curproc k = Some p -> Q p k -> wp mycur Q k.
Proof. intros Hp HQ. unfold mycur, myproc. wp_steps. by apply (wp_ofopt _ p). Qed.

Lemma proc_at_run i p k : procs k !! i = Some p -> proc_at i k = Ret p k.
Proof. unfold proc_at, bind, gets. cbn. by intros ->. Qed.

Lemma upd_proc_run i p f k :
  procs k !! i = Some p -> upd_proc i f k = Ret tt (k <| procs ::= <[i := f p]> |>).
Proof. intros Hp. unfold upd_proc. by rewrite (bind_run _ _ _ _ _ (proc_at_run _ _ _ Hp)). Qed.

Lemma mycur_run p k : curproc k = Some p -> mycur k = Ret p k.
Proof. unfold mycur, myproc, bind, gets. cbn. by intros ->. Qed.

Lemma set_proc_id k i p : procs k !! i = Some p -> k <| procs ::= <[i := p]> |> = k.
Proof.
  intros Hp%(list_insert_id (procs k)). destruct k. unfold set, set_procs. by f_equal.
Qed.

Lemma kernel_eq k k' :
  held k = held k' -> curproc k = curproc k' -> procs k = procs k' -> htindex k = htindex k'
  -> pqueues k = pqueues k' -> nextpid k = nextpid k' -> initproc k = initproc k' ->
  namespace_id k = namespace_id k' -> mutexes k = mutexes k' -> shm_num k = shm_num k' ->
  shm_mems k = shm_mems k' -> kernel_end k = kernel_end k' -> kernel_data k = kernel_data k' -> use_lock k = use_lock k' -> freelist k = freelist k' -> pmem k = pmem k' -> kpgdir k = kpgdir k' -> cr3 k = cr3 k'
  -> esp0 k = esp0 k' -> bufs k = bufs k' -> disk k = disk k' -> disk_writes k = disk_writes k' -> the_log k = the_log k' ->
  the_sb k = the_sb k' -> icache k = icache k' -> ftable k = ftable k' -> pipes k = pipes k'
  -> devsw k = devsw k' -> ticks k = ticks k' -> input_buf k = input_buf k' -> input_r k = input_r k' ->
  input_w k = input_w k' -> input_e k = input_e k' -> console k = console k' -> k = k'.
Proof. destruct k, k'. cbn. by intros; subst. Qed.

(** Equality of two updates of a kernel, field by field. *)
Ltac kernel_eq := apply kernel_eq; try reflexivity; cbn.
