(* ===== verification/Spinlock.v ===== *)
(** * Spinlock: [spinlock.c]

    Two views of the spin locks.

    The first is what a client on one processor sees, and the rest of the
    development uses: [acquire] adds the lock to the locks this processor holds
    and panics when it is already one of them, [release] takes it away and
    panics when it is not.

    The second, [Module MP], is the code of [spinlock.c] itself on any number of
    processors: every access to the lock word or the owner field is one step,
    processors interleave freely.  Its theorems say that at most one processor
    is between its [acquire] and its [release] of a lock, that interrupts are off
    on a processor that is, and that [holding] answers what the first view
    says. *)

From S2P Require Import Prelude Headers.

(** ** The client's view *)

Definition holding (l : lock) : K bool := gets (fun k => bool_decide (l ∈ held k)).

Fixpoint remove_lock (l : lock) (ls : list lock) : list lock :=
  match ls with
  | [] => []
  | l' :: ls' => if decide (l' = l) then ls' else l' :: remove_lock l ls'
  end.

Definition acquire (l : lock) : K unit :=
  let! h := holding l in
  if h then panic "acquire" else modify (fun k => k <| held ::= cons l |>).

Definition release (l : lock) : K unit :=
  let! h := holding l in
  if negb h then panic "release" else modify (fun k => k <| held ::= remove_lock l |>).

(** [initlock] marks the lock free, whoever held it. *)
Definition initlock (l : lock) : K unit := modify (fun k => k <| held ::= filter (fun x => x <> l) |>).

Lemma remove_lock_head l ls : remove_lock l (l :: ls) = ls.
Proof. simpl. by rewrite decide_True. Qed.

Lemma remove_lock_second l x ls : x <> l -> remove_lock l (x :: l :: ls) = x :: ls.
Proof. intros. simpl. by rewrite decide_False, decide_True. Qed.

Lemma wp_acquire l (Q : unit -> kernel -> Prop) k :
  l ∉ held k -> Q tt (k <| held ::= cons l |>) -> wp (acquire l) Q k.
Proof.
  intros Hl HQ. unfold acquire, holding. wp_steps; [|done].
  exfalso. apply bool_decide_eq_true in Heqb. done.
Qed.

Lemma wp_release l (Q : unit -> kernel -> Prop) k :
  l ∈ held k -> Q tt (k <| held ::= remove_lock l |>) -> wp (release l) Q k.
Proof.
  intros Hl HQ. unfold release, holding. wp_steps; [|done].
  exfalso. apply negb_true_iff, bool_decide_eq_false in Heqb. done.
Qed.

Lemma holding_run l k : holding l k = Ret (bool_decide (l ∈ held k)) k.
Proof. done. Qed.

Lemma acquire_run l k : l ∉ held k -> acquire l k = Ret tt (k <| held ::= cons l |>).
Proof. intros Hl. unfold acquire. run (holding_run l k). by rewrite bool_decide_false. Qed.

Lemma release_run l k : l ∈ held k -> release l k = Ret tt (k <| held ::= remove_lock l |>).
Proof. intros Hl. unfold release. run (holding_run l k). by rewrite bool_decide_true. Qed.

(** ** The code on several processors *)

Module MP.

(** [struct cpu]: nesting depth, saved flag, and the processor's interrupt
    flag. *)
Record cpu := mk_cpu { ncli : Z; intena : bool; iflag : bool }.
#[export] Instance eta_cpu : Eta cpu := fun r => mk_cpu (ncli r) (intena r) (iflag r).
#[export] Instance set_ncli : Setter ncli := ltac:(mk_setter).
#[export] Instance set_intena : Setter intena := ltac:(mk_setter).
#[export] Instance set_iflag : Setter iflag := ltac:(mk_setter).

Definition pushcli (c : cpu) : cpu :=
  let eflags := iflag c in
  let c := c <| iflag := false |> in
  let c := if ncli c =? 0 then c <| intena := eflags |> else c in
  c <| ncli ::= fun n => n + 1 |>.

(** [None] is a panic. *)
Definition popcli (c : cpu) : option cpu :=
  if iflag c then None
  else
    let c := c <| ncli ::= fun n => n - 1 |> in
    if ncli c <? 0 then None
    else Some (if (ncli c =? 0) && intena c then c <| iflag := true |> else c).

(** [struct spinlock]. *)
Record spinlock := mk_spinlock { lk_locked : Z; lk_cpu : option nat }.

Definition initlock : spinlock := mk_spinlock 0 None.

(** Where a processor is in [acquire] or [release]; [PClient] is the code that
    calls them.  [holding] reads [locked] first and then [cpu]. *)
Inductive pc :=
| PClient
| PAcqLocked (l : lock)     (* pushcli done; holding is to read lk->locked *)
| PAcqCpu (l : lock)        (* lk->locked was set; holding is to read lk->cpu *)
| PXchg (l : lock)          (* the xchg loop *)
| PSetCpu (l : lock)        (* xchg returned 0; lk->cpu is to be written *)
| PRelLocked (l : lock)     (* release: holding is to read lk->locked *)
| PRelCpu (l : lock)
| PUnlock (l : lock)        (* lk->cpu cleared; lk->locked is to be cleared *)
| PPop                      (* popcli is to be run *)
| PPanic.

(** [cs c] are the locks whose [acquire] has returned on processor [c] and that
    no [release] has begun to give up since; [extra c] counts the [pushcli] calls of the
    client's own that are still open. *)
Record sys := mk_sys {
  cpus : nat -> cpu; pcs : nat -> pc; locks : lock -> spinlock;
  cs : nat -> list lock; extra : nat -> nat }.

Definition init (s : sys) : Prop :=
  (forall c, ncli (cpus s c) = 0) /\ (forall c, pcs s c = PClient) /\
  (forall l, locks s l = initlock) /\ (forall c, cs s c = []) /\ (forall c, extra s c = 0%nat).

Inductive step (s : sys) : sys -> Prop :=
| step_sti c b :
    pcs s c = PClient -> ncli (cpus s c) = 0 ->
    step s (mk_sys (<[c := (cpus s c) <| iflag := b |>]> (cpus s)) (pcs s) (locks s) (cs s) (extra s))
| step_pushcli c :
    pcs s c = PClient ->
    step s (mk_sys (<[c := pushcli (cpus s c)]> (cpus s)) (pcs s) (locks s) (cs s)
              (<[c := S (extra s c)]> (extra s)))
| step_popcli c x' n :
    pcs s c = PClient -> extra s c = S n -> popcli (cpus s c) = Some x' ->
    step s (mk_sys (<[c := x']> (cpus s)) (pcs s) (locks s) (cs s) (<[c := n]> (extra s)))
| step_acquire c l :
    pcs s c = PClient ->
    step s (mk_sys (<[c := pushcli (cpus s c)]> (cpus s)) (<[c := PAcqLocked l]> (pcs s))
              (locks s) (cs s) (extra s))
| step_acq_locked c l :
    pcs s c = PAcqLocked l ->
    step s (mk_sys (cpus s)
              (<[c := if lk_locked (locks s l) =? 0 then PXchg l else PAcqCpu l]> (pcs s))
              (locks s) (cs s) (extra s))
| step_acq_cpu c l :
    pcs s c = PAcqCpu l ->
    step s (mk_sys (cpus s)
              (<[c := if decide (lk_cpu (locks s l) = Some c) then PPanic else PXchg l]> (pcs s))
              (locks s) (cs s) (extra s))
| step_xchg c l :
    pcs s c = PXchg l ->
    step s (mk_sys (cpus s)
              (<[c := if lk_locked (locks s l) =? 0 then PSetCpu l else PXchg l]> (pcs s))
              (<[l := mk_spinlock 1 (lk_cpu (locks s l))]> (locks s)) (cs s) (extra s))
| step_set_cpu c l :
    pcs s c = PSetCpu l ->
    step s (mk_sys (cpus s) (<[c := PClient]> (pcs s))
              (<[l := mk_spinlock (lk_locked (locks s l)) (Some c)]> (locks s))
              (<[c := l :: cs s c]> (cs s)) (extra s))
| step_release c l :
    pcs s c = PClient ->
    step s (mk_sys (cpus s) (<[c := PRelLocked l]> (pcs s)) (locks s) (cs s) (extra s))
| step_rel_locked c l :
    pcs s c = PRelLocked l ->
    step s (mk_sys (cpus s)
              (<[c := if lk_locked (locks s l) =? 0 then PPanic else PRelCpu l]> (pcs s))
              (locks s) (cs s) (extra s))
| step_rel_cpu_panic c l :
    pcs s c = PRelCpu l -> lk_cpu (locks s l) <> Some c ->
    step s (mk_sys (cpus s) (<[c := PPanic]> (pcs s)) (locks s) (cs s) (extra s))
| step_rel_cpu c l :
    pcs s c = PRelCpu l -> lk_cpu (locks s l) = Some c ->
    step s (mk_sys (cpus s) (<[c := PUnlock l]> (pcs s))
              (<[l := mk_spinlock (lk_locked (locks s l)) None]> (locks s))
              (<[c := remove_lock l (cs s c)]> (cs s)) (extra s))
| step_unlock c l :
    pcs s c = PUnlock l ->
    step s (mk_sys (cpus s) (<[c := PPop]> (pcs s))
              (<[l := mk_spinlock 0 (lk_cpu (locks s l))]> (locks s)) (cs s) (extra s))
| step_pop c x' :
    pcs s c = PPop -> popcli (cpus s c) = Some x' ->
    step s (mk_sys (<[c := x']> (cpus s)) (<[c := PClient]> (pcs s)) (locks s) (cs s) (extra s))
| step_pop_panic c :
    pcs s c = PPop -> popcli (cpus s c) = None ->
    step s (mk_sys (cpus s) (<[c := PPanic]> (pcs s)) (locks s) (cs s) (extra s)).

Definition reachable (s : sys) : Prop := exists s0, init s0 /\ rtc step s0 s.

(** *** The invariant *)

(** [g l] is the processor that took the lock word of [l] from 0 to 1. *)
Record lock_inv (s : sys) (g : lock -> option nat) : Prop := {
  li_word l : lk_locked (locks s l) = if g l then 1 else 0;
  li_cs c l : l ∈ cs s c -> g l = Some c /\ lk_cpu (locks s l) = Some c;
  li_cpu c l : lk_cpu (locks s l) = Some c -> l ∈ cs s c;
  li_nodup c : NoDup (cs s c);
  li_pc c :
    match pcs s c with
    | PXchg l => l ∉ cs s c
    | PSetCpu l | PUnlock l => g l = Some c /\ l ∉ cs s c
    | _ => True
    end }.

(** The [pushcli] of an [acquire] that has not returned, or of a [release] that has
    given up the lock and not yet run [popcli]. *)
Definition pending (p : pc) : Z :=
  match p with
  | PAcqLocked _ | PAcqCpu _ | PXchg _ | PSetCpu _ | PUnlock _ | PPop => 1
  | _ => 0
  end.

Record cpu_inv (s : sys) (c : nat) : Prop := {
  ci_ncli : pcs s c <> PPanic ->
    ncli (cpus s c) = Z.of_nat (extra s c) + Z.of_nat (length (cs s c)) + pending (pcs s c);
  ci_low : Z.of_nat (extra s c) + Z.of_nat (length (cs s c)) <= ncli (cpus s c);
  ci_iflag : 0 < ncli (cpus s c) -> iflag (cpus s c) = false }.

Ltac fn_simpl :=
  unfold insert, fn_insert in *; cbn in *;
  repeat (case_decide; subst; simplify_eq; cbn in *).

Lemma remove_lock_elem l l' ls : NoDup ls -> l' ∈ remove_lock l ls <-> l' ∈ ls /\ l' <> l.
Proof.
  induction 1 as [|x ls Hx Hnd IH]; simpl; [set_solver|].
  case_decide; subst; set_solver.
Qed.

Lemma remove_lock_nodup l ls : NoDup ls -> NoDup (remove_lock l ls).
Proof.
  induction 1 as [|x ls Hx Hnd IH]; simpl; [constructor|].
  case_decide; [done|]. constructor; [|done]. rewrite remove_lock_elem by done. tauto.
Qed.

Lemma remove_lock_length l ls : l ∈ ls -> length ls = S (length (remove_lock l ls)).
Proof.
  induction ls as [|x ls IH]; [set_solver|]. intros Hl. simpl. case_decide; [done|].
  simpl. f_equal. apply IH. set_solver.
Qed.

Lemma init_lock_inv s : init s -> lock_inv s (fun _ => None).
Proof.
  intros (_ & Hp & Hl & Hc & _). split; intros; rewrite ?Hl, ?Hc, ?Hp in *; cbn in *; try done.
  - set_solver.
  - constructor.
Qed.

Lemma init_cpu_inv s c : init s -> cpu_inv s c.
Proof.
  intros (Hn & Hp & _ & Hc & He). split; rewrite ?Hn, ?Hp, ?Hc, ?He; cbn; lia.
Qed.

(** A step that only moves processor [c] inside the code. *)
Definition pc_ok (s : sys) (g : lock -> option nat) (c : nat) (p : pc) : Prop :=
  match p with
  | PXchg l => l ∉ cs s c
  | PSetCpu l | PUnlock l => g l = Some c /\ l ∉ cs s c
  | _ => True
  end.

Lemma lock_inv_move s g c p x e :
  lock_inv s g -> pc_ok s g c p ->
  lock_inv (mk_sys x (<[c := p]> (pcs s)) (locks s) (cs s) e) g.
Proof.
  intros [Hw Hcs Hcpu Hnd Hpc] Hp. split; auto. intros c'. cbn. fn_simpl; [done|apply Hpc].
Qed.

Lemma lock_inv_xchg s g c l :
  lock_inv s g -> pcs s c = PXchg l ->
  exists g', lock_inv (mk_sys (cpus s)
    (<[c := if lk_locked (locks s l) =? 0 then PSetCpu l else PXchg l]> (pcs s))
    (<[l := mk_spinlock 1 (lk_cpu (locks s l))]> (locks s)) (cs s) (extra s)) g'.
Proof.
  intros [Hw Hcs Hcpu Hnd Hpc] Hc. pose proof (Hpc c) as Hpcc. rewrite Hc in Hpcc.
  pose proof (Hw l) as E. destruct (g l) as [o|] eqn:Eg; rewrite E; cbn.
  - exists g. split; auto.
    + intros l'. fn_simpl; [by rewrite Eg|auto].
    + intros c' l' Hin. pose proof Hin as [Hg Hc']%Hcs. fn_simpl; auto.
    + intros c' l' Hin. fn_simpl; eauto.
    + intros c'. fn_simpl; [done|apply Hpc].
  - exists (<[l := Some c]> g). split; auto.
    + intros l'. fn_simpl; auto.
    + intros c' l' Hin. pose proof Hin as [Hg Hc']%Hcs. fn_simpl; auto.
    + intros c' l' Hin. fn_simpl; eauto.
    + intros c'. fn_simpl; auto. specialize (Hpc c').
      destruct (pcs s c'); auto; destruct Hpc; fn_simpl; auto.
Qed.

Lemma lock_inv_set_cpu s g c l :
  lock_inv s g -> pcs s c = PSetCpu l ->
  lock_inv (mk_sys (cpus s) (<[c := PClient]> (pcs s))
    (<[l := mk_spinlock (lk_locked (locks s l)) (Some c)]> (locks s))
    (<[c := l :: cs s c]> (cs s)) (extra s)) g.
Proof.
  intros [Hw Hcs Hcpu Hnd Hpc] Hc. pose proof (Hpc c) as Hpcc. rewrite Hc in Hpcc.
  destruct Hpcc as [Hg Hnin]. split.
  - intros l'. fn_simpl; auto.
  - intros c' l' Hin. fn_simpl; try (apply elem_of_cons in Hin as [|Hin]); simplify_eq;
      try apply Hcs in Hin as []; split; congruence.
  - intros c' l' Hin. fn_simpl; rewrite ?elem_of_cons; eauto.
  - intros c'. fn_simpl; [by constructor|auto].
  - intros c'. fn_simpl; [done|]. apply Hpc.
Qed.

Lemma lock_inv_rel_cpu s g c l :
  lock_inv s g -> pcs s c = PRelCpu l -> lk_cpu (locks s l) = Some c ->
  lock_inv (mk_sys (cpus s) (<[c := PUnlock l]> (pcs s))
    (<[l := mk_spinlock (lk_locked (locks s l)) None]> (locks s))
    (<[c := remove_lock l (cs s c)]> (cs s)) (extra s)) g.
Proof.
  intros [Hw Hcs Hcpu Hnd Hpc] Hc Hl. split.
  - intros l'. fn_simpl; auto.
  - intros c' l' Hin. fn_simpl; try (apply remove_lock_elem in Hin as [Hin ?]; [|done]);
      apply Hcs in Hin as []; split; congruence.
  - intros c' l' Hin. fn_simpl; eauto. apply remove_lock_elem; auto.
  - intros c'. fn_simpl; [by apply remove_lock_nodup|auto].
  - intros c'. fn_simpl; [|apply Hpc]. split; [by apply Hcs, Hcpu|].
    rewrite remove_lock_elem by auto. tauto.
Qed.

Lemma lock_inv_unlock s g c l :
  lock_inv s g -> pcs s c = PUnlock l ->
  lock_inv (mk_sys (cpus s) (<[c := PPop]> (pcs s))
    (<[l := mk_spinlock 0 (lk_cpu (locks s l))]> (locks s)) (cs s) (extra s))
    (<[l := None]> g).
Proof.
  intros [Hw Hcs Hcpu Hnd Hpc] Hc. pose proof (Hpc c) as Hpcc. rewrite Hc in Hpcc.
  destruct Hpcc as [Hg Hnin]. split; auto.
  - intros l'. fn_simpl; auto.
  - intros c' l' Hin. pose proof Hin as [Hg' Hc']%Hcs. fn_simpl; naive_solver.
  - intros c' l' Hin. fn_simpl; eauto.
  - intros c'. fn_simpl; auto. specialize (Hpc c').
    destruct (pcs s c'); auto; destruct Hpc; fn_simpl; naive_solver.
Qed.

#[local] Arguments pushcli : simpl never.

Lemma step_lock_inv s s' g : lock_inv s g -> step s s' -> exists g', lock_inv s' g'.
Proof.
  intros HI Hs. inversion Hs; subst; clear Hs;
    try (exists g; destruct HI; split; solve [auto]);
    try (exists g; apply lock_inv_move; solve [done]).
  - exists g. apply lock_inv_move; [done|]. destruct (Z.eqb_spec (lk_locked (locks s l)) 0) as [E|]; [|done].
    intros [Hg _]%(li_cs _ _ HI). rewrite (li_word _ _ HI), Hg in E. done.
  - exists g. apply lock_inv_move; [done|]. case_decide as E; [done|].
    intros [_ ?]%(li_cs _ _ HI). done.
  - by apply (lock_inv_xchg _ g).
  - exists g. by apply lock_inv_set_cpu.
  - exists g. apply lock_inv_move; [done|]. by case_match.
  - exists g. by apply lock_inv_rel_cpu.
  - eexists. by apply lock_inv_unlock.
Qed.

Lemma pushcli_ncli x : ncli (pushcli x) = ncli x + 1.
Proof. unfold pushcli. cbn. by destruct (ncli x =? 0). Qed.
Lemma pushcli_iflag x : iflag (pushcli x) = false.
Proof. unfold pushcli. cbn. by destruct (ncli x =? 0). Qed.
Lemma popcli_spec x x' :
  popcli x = Some x' -> ncli x' = ncli x - 1 /\ 0 <= ncli x' /\ (0 < ncli x' -> iflag x' = iflag x).
Proof.
  unfold popcli. cbn. destruct (iflag x) eqn:E1; [done|].
  destruct (Z.ltb_spec (ncli x - 1) 0); [done|]. intros [= <-].
  destruct (Z.eqb_spec (ncli x - 1) 0); cbn; [|split_and!; intros; auto; lia].
  destruct (intena x); cbn; split_and!; auto; lia.
Qed.

Lemma step_cpu_inv s s' g c : lock_inv s g -> cpu_inv s c -> step s s' -> cpu_inv s' c.
Proof.
  intros HL [Hn Hlow Hi] Hs. inversion Hs; subst; clear Hs; split; cbn in *; fn_simpl;
    rewrite ?pushcli_ncli, ?pushcli_iflag; auto;
    repeat match goal with
      | H : popcli _ = Some _ |- _ => apply popcli_spec in H as (? & ? & ?)
      | |- context [if ?b then _ else _] => destruct b
      | H : lk_cpu _ = Some _ |- _ => apply (li_cpu _ _ HL), remove_lock_length in H
      end;
    try (intros; specialize (Hn ltac:(congruence)); rewrite ?H in *; cbn in *; lia);
    try (intros; done).
  all: intros; rewrite <- Hi by lia; auto.
Qed.

Lemma reachable_inv s : reachable s -> exists g, lock_inv s g /\ forall c, cpu_inv s c.
Proof.
  intros (s0 & Hi & Hr).
  eapply (rtc_invariant step (fun s => exists g, lock_inv s g /\ forall c, cpu_inv s c)); [|done|].
  - intros s1 s2 (g & HL & HC) Hs. destruct (step_lock_inv _ _ _ HL Hs) as [g' ?].
    exists g'. split; [done|]. intros c. exact (step_cpu_inv _ _ g c HL (HC c) Hs).
  - exists (fun _ => None). split; [by apply init_lock_inv|]. intros c. by apply init_cpu_inv.
Qed.

(** Processor 0 taking [ptable.lock]. *)
Definition demo0 : sys :=
  mk_sys (fun _ => mk_cpu 0 false true) (fun _ => PClient) (fun _ => initlock) (fun _ => [])
    (fun _ => 0%nat).
Definition demo1 : sys :=
  mk_sys (<[0%nat := pushcli (cpus demo0 0)]> (cpus demo0))
    (<[0%nat := PAcqLocked Lptable]> (pcs demo0)) (locks demo0) (cs demo0) (extra demo0).
Definition demo2 : sys :=
  mk_sys (cpus demo1) (<[0%nat := PXchg Lptable]> (pcs demo1)) (locks demo1) (cs demo1) (extra demo1).
Definition demo3 : sys :=
  mk_sys (cpus demo2) (<[0%nat := PSetCpu Lptable]> (pcs demo2))
    (<[Lptable := mk_spinlock 1 None]> (locks demo2)) (cs demo2) (extra demo2).
Definition demo4 : sys :=
  mk_sys (cpus demo3) (<[0%nat := PClient]> (pcs demo3))
    (<[Lptable := mk_spinlock 1 (Some 0%nat)]> (locks demo3))
    (<[0%nat := [Lptable]]> (cs demo3)) (extra demo3).

Lemma demo_reachable_inside : reachable demo3.
Proof.
  exists demo0. split; [by repeat split|].
  apply rtc_l with demo1; [exact (step_acquire demo0 0 Lptable eq_refl)|].
  apply rtc_l with demo2; [exact (step_acq_locked demo1 0 Lptable eq_refl)|].
  apply rtc_l with demo3; [exact (step_xchg demo2 0 Lptable eq_refl)|].
  reflexivity.
Qed.

Lemma demo_reachable : reachable demo4.
Proof.
  destruct demo_reachable_inside as (s0 & Hi & Hr). exists s0. split; [done|].
  eapply rtc_r; [exact Hr|]. exact (step_set_cpu demo3 0 Lptable eq_refl).
Qed.

(** C1: mutual exclusion.  In any interleaving of any number of processors, two
    processors that are both between the return of their [acquire] and their
    [release] of a lock are the same processor, and the lock word is then
    set. *)
Theorem spinlock_mutual_exclusion s c1 c2 l :
  reachable s -> l ∈ cs s c1 -> l ∈ cs s c2 -> c1 = c2 /\ lk_locked (locks s l) = 1.
Proof.
  intros (g & HL & _)%reachable_inv H1%(li_cs _ _ HL) H2%(li_cs _ _ HL).
  rewrite (li_word _ _ HL). destruct H1 as [H1 _], H2 as [H2 _]. rewrite H1 in *. by simplify_eq.
Qed.

Lemma spinlock_mutual_exclusion_witness :
  Lptable ∈ cs demo4 0 /\ lk_locked (locks demo4 Lptable) = 1.
Proof.
  assert (H : Lptable ∈ cs demo4 0) by (vm_compute; constructor).
  split; [exact H|]. exact (proj2 (spinlock_mutual_exclusion demo4 0 0 Lptable demo_reachable H H)).
Defined.

(** C29: lock discipline of one processor, at every point of [acquire], of [release] and
    of the code that calls them.  What [holding] computes from the lock word and the
    owner field is exactly whether this processor holds the lock; unless it has
    panicked, [ncli] counts the locks it holds, its own open [pushcli] calls and the one
    [pushcli] of an [acquire] or [release] under way; while it holds any lock, or is
    inside an [acquire] (after its [pushcli]) or in a [release] (before its [popcli]),
    its interrupts are off; and neither [popcli] of [release] nor one that matches a
    [pushcli] of the caller panics. *)
Theorem spinlock_discipline s c l :
  reachable s ->
  (lk_locked (locks s l) <> 0 /\ lk_cpu (locks s l) = Some c <-> l ∈ cs s c) /\
  (pcs s c <> PPanic -> ncli (cpus s c) = Z.of_nat (extra s c + length (cs s c)) + pending (pcs s c)) /\
  (l ∈ cs s c \/ pending (pcs s c) = 1 -> iflag (cpus s c) = false) /\
  (pcs s c = PPop \/ pcs s c = PClient /\ (0 < extra s c)%nat -> is_Some (popcli (cpus s c))).
Proof.
  intros (g & HL & HC)%reachable_inv. destruct (HC c) as [Hn Hlow Hi]. split_and!.
  - split; [intros [_ H]; by apply (li_cpu _ _ HL)|].
    intros [Hg ?]%(li_cs _ _ HL). by rewrite (li_word _ _ HL), Hg.
  - intros Hp. rewrite Hn by done. lia.
  - intros H. apply Hi. destruct H as [Hl|Hp].
    + destruct (cs s c); [by apply not_elem_of_nil in Hl|]. cbn in Hlow. lia.
    + rewrite Hn by (intros E; by rewrite E in Hp). lia.
  - intros H. assert (0 < ncli (cpus s c)) as Hpos.
    { destruct H as [E|[E He]]; rewrite E in Hn; cbn in Hn; specialize (Hn ltac:(done)); lia. }
    unfold popcli. rewrite Hi by done. cbn. replace (ncli (cpus s c) - 1 <? 0) with false by lia. by eexists.
Qed.

(** Holding [ptable.lock], and before that in the middle of its [acquire]. *)
Lemma spinlock_discipline_witness :
  (ncli (cpus demo4 0) = 1 /\ iflag (cpus demo4 0) = false) /\ (cs demo3 0 = [] /\ ncli (cpus demo3 0) = 1 /\ iflag (cpus demo3 0) = false).
Proof.
  destruct (spinlock_discipline demo4 0 Lptable demo_reachable) as (_ & Hn & Hi & _).
  destruct (spinlock_discipline demo3 0 Lptable demo_reachable_inside) as (_ & Hn3 & Hi3 & _). split.
  - split; [apply Hn; vm_compute; discriminate|]. apply Hi. left. vm_compute. constructor.
  - split; [reflexivity|]. split; [apply Hn3; vm_compute; discriminate|]. apply Hi3. right. reflexivity.
Defined.

End MP.

#[global] Arguments remove_lock : simpl never.
