(* ===== verification/Ring.v ===== *)
(** * Ring: circular arrays

    The scheduler's run queues ([ptable.pqueues]), the pipe buffer and the
    console's input buffer are arrays used as circular queues.  [ring N q i n]
    is the sequence of the [n] elements from index [i] on in an array [q] of [N]
    elements; the lemmas say what appending at the end and taking from the front
    do to it. *)

From S2P Require Import Prelude.

Fixpoint ring {A} (N : Z) (q : list A) (i : Z) (n : nat) : list A :=
  match n with
  | O => []
  | S n' =>
      match zget q (i mod N) with
      | Some x => x :: ring N q (i + 1) n'
      | None => []
      end
  end.

Section ring.
Context {A : Type} (N : Z).
Hypothesis HN : 0 < N.
Implicit Types (q : list A) (i : Z) (n : nat) (x : A).

Lemma ring_get q i : Z.of_nat (length q) = N -> exists x, zget q (i mod N) = Some x.
Proof.
  intros Hq. apply zget_is_Some. rewrite Hq. by apply Z.mod_pos_bound.
Qed.

Lemma ring_length q i n : Z.of_nat (length q) = N -> length (ring N q i n) = n.
Proof.
  intros Hq. revert i. induction n as [|n IH]; intros i; [done|]. simpl.
  destruct (ring_get q i Hq) as [x ->]. simpl. by rewrite IH.
Qed.

Lemma ring_mod q i n : ring N q (i mod N) n = ring N q i n.
Proof.
  revert i. induction n as [|n IH]; intros i; [done|]. simpl.
  rewrite Z.mod_mod by lia. destruct (zget q (i mod N)); [|done].
  f_equal. rewrite <- IH, <- (IH (i + 1)). by rewrite Zplus_mod_idemp_l.
Qed.

Lemma ring_pop q i n x :
  zget q (i mod N) = Some x -> ring N q i (S n) = x :: ring N q (i + 1) n.
Proof. simpl. by intros ->. Qed.

Lemma ring_mod_ne i j : 0 < j < N -> (i + j) mod N <> i mod N.
Proof.
  intros Hj E. assert (j mod N = 0) as Hz.
  { replace j with (i + j - i) by lia. by rewrite Zminus_mod, E, Z.sub_diag, Z.mod_0_l by lia. }
  rewrite Z.mod_small in Hz; lia.
Qed.

(** Writing outside the sequence leaves it alone. *)
Lemma ring_insert_out q i n m x :
  Z.of_nat n <= m < N ->
  ring N (<[Z.to_nat ((i + m) mod N) := x]> q) i n = ring N q i n.
Proof.
  revert i m. induction n as [|n IH]; intros i m Hm; [done|]. simpl.
  rewrite zget_insert_ne.
  - destruct (zget q (i mod N)); [|done]. f_equal.
    rewrite <- (IH (i + 1) (m - 1)) by lia. do 3 f_equal. f_equal. lia.
  - apply Z.mod_pos_bound. lia.
  - apply ring_mod_ne. lia.
Qed.

Lemma ring_snoc q i n x :
  Z.of_nat (length q) = N -> zget q ((i + Z.of_nat n) mod N) = Some x ->
  ring N q i (S n) = ring N q i n ++ [x].
Proof.
  intros Hq. revert i. induction n as [|n IH]; intros i Hx.
  - rewrite Z.add_0_r in Hx. by rewrite (ring_pop _ _ _ _ Hx).
  - destruct (ring_get q i Hq) as [y Hy].
    rewrite (ring_pop _ _ _ _ Hy), (ring_pop _ _ n _ Hy). cbn. f_equal.
    apply IH. rewrite <- Hx. f_equal. f_equal. lia.
Qed.

(** Appending at the end of the sequence. *)
Lemma ring_push q i n x :
  Z.of_nat (length q) = N -> Z.of_nat n < N ->
  ring N (<[Z.to_nat ((i + Z.of_nat n) mod N) := x]> q) i (S n) = ring N q i n ++ [x].
Proof.
  intros Hq Hn. rewrite ring_snoc with (x := x).
  - by rewrite ring_insert_out by lia.
  - by rewrite length_insert.
  - apply zget_insert_eq. rewrite Hq. by apply Z.mod_pos_bound.
Qed.
End ring.
