(* ===== verification/Sched.v ===== *)
(** * Sched: run queues, sleeping and waking, the scheduler ([proc.c])

    The fixed-priority and feedback run queues ([fp_enqueue] and the like), the
    switch to the scheduler ([sched], [yield], [sleep]), wake-ups ([wakeup],
    [kill]), [prio_set] and the scheduler loop.

    A process that calls [sched] leaves the processor: the outcome is
    [Switch k resume], [k] being the kernel at that moment and [resume] what the
    process does when the scheduler has switched back to it. *)

From S2P Require Import Prelude Headers Spinlock Ring.

(** ** Run queues *)

(** The common part of [fp_enqueue] and [hfs_enqueue], which use the same
    arrays: append [p] to the queue of [priority]. *)
Definition enqueue_at (priority : Z) (p : nat) : K Z :=
  let! hts := gets htindex in
  let! ht := ofopt (zget hts priority) in
  let head := ht.1 in
  let tail := ht.2 in
  if tail =? crem (head - 1) QUEUESIZE then ret (-1)
  else
    let! qs := gets pqueues in
    let! q := ofopt (zget qs priority) in
    let! q' := ofopt (zset q tail (Some p)) in
    do! modify (fun k => k <| pqueues ::= <[Z.to_nat priority := q']> |>) in
    do! modify (fun k => k <| htindex ::= <[Z.to_nat priority := (head, crem (tail + 1) QUEUESIZE)]> |>) in
    ret 1.

Definition fp_enqueue (p : nat) : K Z :=
  let! pr := proc_at p in
  if decide (state pr = RUNNABLE) then enqueue_at (fp_priority pr) p else ret (-1).

Definition hfs_enqueue (p : nat) : K Z :=
  let! pr := proc_at p in
  if decide (state pr = RUNNABLE) then
    do! when (HFS_PRIO_MAX <? hfs_priority pr)
          (upd_proc p (fun pr => pr <| hfs_priority := HFS_PRIO_MAX |>)) in
    let! pr := proc_at p in
    enqueue_at (hfs_priority pr) p
  else ret (-1).

(** The result is [None] for the macro [NULL], which [proc.h] defines as the
    address -1, and [Some q] for a queue entry [q]. *)
Definition fp_dequeue : K (option (option nat)) :=
  let! found := first_of (seqZ 0 PRIO_MAX) (fun priority =>
    let! hts := gets htindex in
    let! ht := ofopt (zget hts priority) in
    ret (if ht.1 =? ht.2 then None else Some priority)) in
  match found with
  | None => ret None
  | Some priority =>
      let! hts := gets htindex in
      let! ht := ofopt (zget hts priority) in
      let head := ht.1 in
      let! qs := gets pqueues in
      let! q := ofopt (zget qs priority) in
      let! p := ofopt (zget q head) in
      do! modify (fun k => k <| htindex ::= <[Z.to_nat priority := (crem (head + 1) QUEUESIZE, ht.2)]> |>) in
      ret (Some p)
  end.

(** [hfs_dequeue] is the same code. *)
Definition hfs_dequeue : K (option (option nat)) := fp_dequeue.

(** ** Leaving the processor *)

(** [swtch(&p->context, mycpu()->scheduler)] *)
Definition swtch : K unit := fun k => Switch k (fun k' => Ret tt k').

(** With [ptable.lock] held interrupts are off (see [Spinlock.MP]), so the
    check of [FL_IF] always passes and is left out. *)
Definition sched : K unit :=
  let! h := holding Lptable in
  if negb h then panic "sched ptable.lock"
  else
    let! ls := gets held in
    if negb (length ls =? 1)%nat then panic "sched locks"
    else
      let! p := mycur in
      let! pr := proc_at p in
      if decide (state pr = RUNNING) then panic "sched running"
      else swtch.

Definition yield : K unit :=
  do! acquire Lptable in
  let! me := mycur in
  do! upd_proc me (fun p => p <| state := RUNNABLE |>) in
  let! p := proc_at me in
  do! (if (queueType p =? 1) && (PRIO_MAX <? hfs_priority p) then
         do! upd_proc me (fun p => p <| hfs_priority ::= fun x => i32 (x + 1) |>) in
         do! hfs_enqueue me in ret tt
       else if queueType p =? 0 then do! fp_enqueue me in ret tt
       else ret tt) in
  do! sched in
  release Lptable.

(** [sleep(chan, lk)]; every caller passes a lock, so [lk] is not null. *)
Definition sleep (ch : channel) (lk : lock) : K unit :=
  let! cur := myproc in
  match cur with
  | None => panic "sleep"
  | Some p =>
      do! when (negb (bool_decide (lk = Lptable)))
            (do! acquire Lptable in release lk) in
      do! upd_proc p (fun pr => pr <| chan := Some ch |>) in
      do! upd_proc p (fun pr => pr <| state := SLEEPING |>) in
      do! sched in
      do! upd_proc p (fun pr => pr <| chan := None |>) in
      when (negb (bool_decide (lk = Lptable)))
        (do! release Lptable in acquire lk)
  end.

(** ** Waking *)

Definition wakeup1 (ch : option channel) : K unit :=
  foreach (seq 0 NPROC) (fun i =>
    let! p := proc_at i in
    do! when (bool_decide (state p = SLEEPING) && bool_decide (chan p = ch))
          (upd_proc i (fun p => p <| state := RUNNABLE |>)) in
    let! p := proc_at i in
    if queueType p =? FP_POLICY then do! fp_enqueue i in ret tt
    else if queueType p =? HFS_POLICY then
      do! upd_proc i (fun p => p <| hfs_priority := 0 |>) in
      do! hfs_enqueue i in ret tt
    else ret tt).

Definition wakeup (ch : channel) : K unit :=
  do! acquire Lptable in
  do! wakeup1 (Some ch) in
  release Lptable.

Definition kill (target : Z) : K Z :=
  do! acquire Lptable in
  let! r := first_of (seq 0 NPROC) (fun i =>
    let! p := proc_at i in
    if pid p =? target then
      do! upd_proc i (fun p => p <| killed := 1 |>) in
      do! when (bool_decide (state p = SLEEPING))
            (upd_proc i (fun p => p <| state := RUNNABLE |>)) in
      do! (if queueType p =? FP_POLICY then do! fp_enqueue i in ret tt
           else if queueType p =? HFS_POLICY then
             do! upd_proc i (fun p => p <| hfs_priority := 0 |>) in
             do! hfs_enqueue i in ret tt
           else ret tt) in
      do! release Lptable in
      ret (Some 0)
    else ret None) in
  match r with
  | Some v => ret v
  | None => do! release Lptable in ret (-1)
  end.

(** ** Priorities *)

Definition prio_set (target priority : Z) : K Z :=
  if (PRIO_MAX <? priority) || (priority <? 0) then ret (-1)
  else
    do! acquire Lptable in
    let! me := mycur in
    do! upd_proc me (fun p => p <| queueType := FP_POLICY |>) in
    let! p := proc_at me in
    if priority <? fp_priority p then do! release Lptable in ret (-1)
    else if pid p =? target then
      do! upd_proc me (fun p => p <| fp_priority := priority |>) in
      do! release Lptable in
      ret 0
    else
      let! r := first_of (seq 0 NPROC) (fun i =>
        let! q := proc_at i in
        if pid q =? target then
          let! par := ofopt (parent q) in
          let! pp := proc_at par in
          if pid pp =? pid p then
            do! upd_proc i (fun q => q <| fp_priority := priority |>) in
            ret (Some true)
          else
            do! release Lptable in
            ret (Some false)
        else ret None) in
      match r with
      | Some false => ret (-1)
      | _ => do! release Lptable in ret 0
      end.

(** ** The scheduler *)

Definition switchuvm (p : nat) : K unit :=
  let! pr := proc_at p in
  if kstack pr =? 0 then panic "switchuvm: no kstack"
  else if pgdir pr =? 0 then panic "switchuvm: no pgdir"
  else modify (fun k => k <| esp0 := u32 (kstack pr + KSTACKSIZE) |> <| cr3 := V2P (pgdir pr) |>).

Definition switchkvm : K unit := modify (fun k => k <| cr3 := V2P (kpgdir k) |>).

(** Run process [p] until it switches back. *)
Definition run_proc (p : nat) : K unit :=
  do! modify (fun k => k <| curproc := Some p |>) in
  do! switchuvm p in
  do! upd_proc p (fun pr => pr <| state := RUNNING |>) in
  do! swtch in
  do! switchkvm in
  modify (fun k => k <| curproc := None |>).

(** One iteration of the [for(;;)] of [scheduler]. *)
Definition scheduler_round : K unit :=
  do! acquire Lptable in
  let! r := fp_dequeue in
  do! match r with
      | None => ret tt
      | Some q =>
          let! p := ofopt q in
          let! pr := proc_at p in
          when (bool_decide (state pr = RUNNABLE)) (run_proc p)
      end in
  do! foreach (seq 0 NPROC) (fun p =>
        let! pr := proc_at p in
        when (bool_decide (state pr = RUNNABLE)) (run_proc p)) in
  release Lptable.

(** ** The run queues as a family of FIFO queues *)

Record queues_wf (k : kernel) : Prop := {
  qw_hts : length (htindex k) = 10%nat;
  qw_qs : length (pqueues k) = 10%nat;
  qw_ht pr ht : zget (htindex k) pr = Some ht -> 0 <= ht.1 < QUEUESIZE /\ 0 <= ht.2 < QUEUESIZE;
  qw_q pr q : zget (pqueues k) pr = Some q -> Z.of_nat (length q) = QUEUESIZE }.

(** What is queued at a priority, first in line first. *)
Definition queue_of (k : kernel) (pr : Z) : list (option nat) :=
  match zget (htindex k) pr, zget (pqueues k) pr with
  | Some ht, Some q => ring QUEUESIZE q ht.1 (Z.to_nat ((ht.2 - ht.1) mod QUEUESIZE))
  | _, _ => []
  end.

(** Only the run queues differ. *)
Definition same_but_queues (k k' : kernel) : Prop :=
  k' = k <| pqueues := pqueues k' |> <| htindex := htindex k' |>.

Lemma queues_get k pr :
  queues_wf k -> 0 <= pr < PRIO_MAX ->
  exists h t q, zget (htindex k) pr = Some (h, t) /\ zget (pqueues k) pr = Some q /\
    0 <= h < QUEUESIZE /\ 0 <= t < QUEUESIZE /\ Z.of_nat (length q) = QUEUESIZE.
Proof.
  intros Hwf Hpr. unfold PRIO_MAX in Hpr.
  destruct (zget_is_Some (htindex k) pr) as [[h t] Hht]; [rewrite (qw_hts k Hwf); lia|].
  destruct (zget_is_Some (pqueues k) pr) as [q Hq]; [rewrite (qw_qs k Hwf); lia|].
  pose proof (qw_ht k Hwf _ _ Hht) as [? ?]. pose proof (qw_q k Hwf _ _ Hq).
  by exists h, t, q.
Qed.

Lemma queue_of_eq k pr h t q :
  zget (htindex k) pr = Some (h, t) -> zget (pqueues k) pr = Some q ->
  queue_of k pr = ring QUEUESIZE q h (Z.to_nat ((t - h) mod QUEUESIZE)).
Proof. unfold queue_of. by intros -> ->. Qed.

Lemma queue_length k pr h t q :
  zget (htindex k) pr = Some (h, t) -> zget (pqueues k) pr = Some q ->
  Z.of_nat (length q) = QUEUESIZE ->
  Z.of_nat (length (queue_of k pr)) = (t - h) mod QUEUESIZE.
Proof.
  intros Hh Hq Hl. rewrite (queue_of_eq _ _ _ _ _ Hh Hq), ring_length by (done || lia).
  pose proof (Z.mod_pos_bound (t - h) QUEUESIZE). unfold QUEUESIZE in *. lia.
Qed.

(** Replacing the arrays of one priority. *)
Definition put_queue (k : kernel) (pr : Z) (q : list (option nat)) (ht : Z * Z) : kernel :=
  k <| pqueues ::= <[Z.to_nat pr := q]> |> <| htindex ::= <[Z.to_nat pr := ht]> |>.

Lemma put_queue_wf k pr q ht :
  queues_wf k -> 0 <= pr < PRIO_MAX -> Z.of_nat (length q) = QUEUESIZE ->
  0 <= ht.1 < QUEUESIZE -> 0 <= ht.2 < QUEUESIZE -> queues_wf (put_queue k pr q ht).
Proof.
  intros [H1 H2 H3 H4] Hpr Hq Hh Ht. unfold PRIO_MAX in *. split; cbn; rewrite ?length_insert; try done.
  - intros pr' ht' Hg. destruct (decide (pr = pr')) as [<-|Hne].
    + rewrite zget_insert_eq in Hg by lia. by simplify_eq.
    + rewrite zget_insert_ne in Hg by lia. eauto.
  - intros pr' ht' Hg. destruct (decide (pr = pr')) as [<-|Hne].
    + rewrite zget_insert_eq in Hg by lia. by simplify_eq.
    + rewrite zget_insert_ne in Hg by lia. eauto.
Qed.

Lemma put_queue_at k pr q ht :
  queues_wf k -> 0 <= pr < PRIO_MAX ->
  queue_of (put_queue k pr q ht) pr = ring QUEUESIZE q ht.1 (Z.to_nat ((ht.2 - ht.1) mod QUEUESIZE)).
Proof.
  intros [H1 H2 H3 H4] Hpr. unfold PRIO_MAX in *. destruct ht as [h t]. apply queue_of_eq; cbn;
    apply zget_insert_eq; lia.
Qed.

Lemma put_queue_ne k pr pr' q ht :
  0 <= pr -> pr <> pr' -> queue_of (put_queue k pr q ht) pr' = queue_of k pr'.
Proof. intros. unfold queue_of, put_queue. cbn. by rewrite !zget_insert_ne by lia. Qed.

Lemma crem_succ x : 0 <= x < QUEUESIZE -> crem (x + 1) QUEUESIZE = (x + 1) mod QUEUESIZE.
Proof. intros. unfold crem, QUEUESIZE in *. apply Z.rem_mod_nonneg; lia. Qed.

(** The outcome of an insertion, by the state of the queue. *)
Lemma enqueue_at_run k pr p h t q :
  queues_wf k -> zget (htindex k) pr = Some (h, t) -> zget (pqueues k) pr = Some q ->
  0 <= pr < PRIO_MAX ->
  enqueue_at pr p k =
    if t =? crem (h - 1) QUEUESIZE then Ret (-1) k
    else Ret 1 (put_queue k pr (<[Z.to_nat t := Some p]> q) (h, (t + 1) mod QUEUESIZE)).
Proof.
  intros Hwf Hht Hq Hpr. pose proof (qw_ht _ Hwf _ _ Hht) as [Hh Ht]. pose proof (qw_q _ Hwf _ _ Hq) as Hl.
  unfold enqueue_at, bind, gets, ofopt. cbn. rewrite Hht. cbn.
  destruct (t =? crem (h - 1) QUEUESIZE); [done|]. cbn. rewrite Hq. cbn.
  rewrite zset_in by (cbn in *; lia). cbn. by rewrite crem_succ.
Qed.

(** Within its capacity the run queue of a priority is first-in first-out.
    Queueing a runnable process whose queue holds fewer than [QUEUESIZE - 1]
    entries returns 1 and appends the process to the queue of its priority; the
    other queues and the rest of the kernel do not change, and the queues stay
    well formed. *)
Theorem fp_enqueue_appends k p pr :
  queues_wf k -> procs k !! p = Some pr -> state pr = RUNNABLE ->
  0 <= fp_priority pr < PRIO_MAX ->
  Z.of_nat (length (queue_of k (fp_priority pr))) < QUEUESIZE - 1 ->
  exists k', fp_enqueue p k = Ret 1 k' /\ queues_wf k' /\ same_but_queues k k' /\
    queue_of k' (fp_priority pr) = queue_of k (fp_priority pr) ++ [Some p] /\
    forall pr', pr' <> fp_priority pr -> queue_of k' pr' = queue_of k pr'.
Proof.
  intros Hwf Hp Hst Hpr Hlen. destruct (queues_get k _ Hwf Hpr) as (h & t & q & Hht & Hq & Hh & Ht & Hl).
  rewrite (queue_length _ _ _ _ _ Hht Hq Hl) in Hlen.
  unfold fp_enqueue, proc_at, bind, gets. cbn. rewrite Hp. cbn. rewrite decide_True by done.
  rewrite (enqueue_at_run _ _ _ _ _ _ Hwf Hht Hq Hpr).
  assert ((t =? crem (h - 1) QUEUESIZE) = false) as ->.
  { apply Z.eqb_neq. unfold crem, QUEUESIZE in *. intros ->. destruct (decide (h = 0)) as [->|]; [done|].
    rewrite Z.rem_small in Hlen by lia. replace (h - 1 - h) with (-1) in Hlen by lia. done. }
  eexists. split; [done|]. split; [|split; [done|split]].
  - apply put_queue_wf; try done; cbn; [by rewrite length_insert|]. by apply Z.mod_pos_bound.
  - rewrite put_queue_at, (queue_of_eq _ _ _ _ _ Hht Hq) by done. cbn.
    set (n := Z.to_nat ((t - h) mod QUEUESIZE)).
    assert (Z.of_nat n = (t - h) mod QUEUESIZE) as Hn.
    { unfold n. pose proof (Z.mod_pos_bound (t - h) QUEUESIZE). unfold QUEUESIZE in *. lia. }
    rewrite <- (ring_push QUEUESIZE) by (done || lia). f_equal.
    + f_equal. f_equal. rewrite Hn. rewrite Zplus_mod_idemp_r. replace (h + (t - h)) with t by lia.
      by rewrite Z.mod_small.
    + rewrite Zminus_mod_idemp_l. replace (t + 1 - h) with (t - h + 1) by lia.
      rewrite <- Zplus_mod_idemp_l, <- Hn. rewrite Z.mod_small; lia.
  - intros pr' Hne. apply put_queue_ne; lia || done.
Qed.

(** What happens at capacity.  With [QUEUESIZE - 1] entries queued, the
    test [tail == (head-1)%QUEUESIZE] refuses the process when [head] is not 0.
    When [head] is 0 the C remainder is -1, the test fails, the process is
    written in the last slot and [tail] wraps round to [head]: the call reports
    success and the queue is empty, all its entries lost. *)
Theorem fp_enqueue_at_capacity k p pr h t :
  queues_wf k -> procs k !! p = Some pr -> state pr = RUNNABLE ->
  0 <= fp_priority pr < PRIO_MAX -> zget (htindex k) (fp_priority pr) = Some (h, t) ->
  Z.of_nat (length (queue_of k (fp_priority pr))) = QUEUESIZE - 1 ->
  (h <> 0 -> fp_enqueue p k = Ret (-1) k) /\
  (h = 0 -> exists k', fp_enqueue p k = Ret 1 k' /\ queue_of k' (fp_priority pr) = []).
Proof.
  intros Hwf Hp Hst Hpr Hht Hlen. destruct (queues_get k _ Hwf Hpr) as (? & ? & q & E & Hq & Hh & Ht & Hl).
  rewrite E in Hht. simplify_eq. rewrite (queue_length _ _ _ _ _ E Hq Hl) in Hlen.
  unfold fp_enqueue, proc_at, bind, gets. cbn. rewrite Hp. cbn. rewrite decide_True by done.
  rewrite (enqueue_at_run _ _ _ _ _ _ Hwf E Hq Hpr). unfold crem. split.
  - intros Hh0. replace (t =? Z.rem (h - 1) QUEUESIZE) with true; [done|].
    symmetry. apply Z.eqb_eq. unfold QUEUESIZE in *. rewrite Z.rem_small by lia.
    destruct (decide (h <= t)); [rewrite Z.mod_small in Hlen; lia|].
    replace (t - h) with (t - h + 50 + (-1) * 50) in Hlen by lia.
    rewrite Z_mod_plus_full, Z.mod_small in Hlen; lia.
  - intros ->. rewrite Z.sub_0_r in Hlen. rewrite Z.mod_small in Hlen by done. subst t.
    eexists. split; [done|]. by rewrite put_queue_at.
Qed.

Lemma put_queue_id k pr q ht :
  zget (pqueues k) pr = Some q ->
  put_queue k pr q ht = k <| htindex ::= <[Z.to_nat pr := ht]> |>.
Proof.
  intros [_ Hq]%zget_Some. apply (list_insert_id (pqueues k)) in Hq.
  unfold put_queue. destruct k. unfold set, set_pqueues, set_htindex. by f_equal.
Qed.

Definition empty_at (k : kernel) (pr : Z) : Prop :=
  exists h, zget (htindex k) pr = Some (h, h).

Lemma empty_at_queue k pr :
  queues_wf k -> 0 <= pr < PRIO_MAX -> empty_at k pr <-> queue_of k pr = [].
Proof.
  intros Hwf Hpr. destruct (queues_get k _ Hwf Hpr) as (h & t & q & E & Hq & Hh & Ht & Hl). split.
  - intros [h' E']. rewrite E in E'. simplify_eq. rewrite (queue_of_eq _ _ _ _ _ E Hq).
    by rewrite Z.sub_diag.
  - intros Hnil. pose proof (queue_length _ _ _ _ _ E Hq Hl) as Hn. rewrite Hnil in Hn. cbn in Hn.
    exists h. rewrite E. do 2 f_equal. unfold QUEUESIZE in *.
    destruct (decide (h <= t)); [rewrite Z.mod_small in Hn; lia|].
    replace (t - h) with (t - h + 50 + (-1) * 50) in Hn by lia.
    rewrite Z_mod_plus_full, Z.mod_small in Hn; lia.
Qed.

(** The search for the first non-empty queue. *)
Lemma fp_scan k l :
  queues_wf k -> (forall pr, pr ∈ l -> 0 <= pr < PRIO_MAX) ->
  let scan := first_of l (fun priority =>
    let! hts := gets htindex in
    let! ht := ofopt (zget hts priority) in
    ret (if ht.1 =? ht.2 then None else Some priority)) in
  (Forall (empty_at k) l /\ scan k = Ret None k) \/
  exists l1 pr l2, l = l1 ++ pr :: l2 /\ Forall (empty_at k) l1 /\ ~ empty_at k pr /\ scan k = Ret (Some pr) k.
Proof.
  intros Hwf. induction l as [|pr l IH]; intros Hl; [by left|].
  destruct (queues_get k pr Hwf) as (h & t & q & E & _); [apply Hl; set_solver|].
  cbn. unfold bind at 1. unfold bind, gets, ofopt, ret. cbn. rewrite E. cbn.
  destruct (Z.eqb_spec h t) as [->|Hne]; cbn.
  - destruct IH as [[Hf Hs]|(l1 & pr' & l2 & -> & Hf & Hn & Hs)]; [set_solver| |].
    + left. split; [|done]. constructor; [by exists t|done].
    + right. exists (pr :: l1), pr', l2. split_and!; try done. constructor; [by exists t|done].
  - right. exists [], pr, l. split_and!; try done. intros [h' E']. rewrite E in E'. by simplify_eq.
Qed.

Lemma seqZ_before n l1 x l2 y : seqZ 0 n = l1 ++ x :: l2 -> 0 <= y < x -> y ∈ l1.
Proof.
  intros Hl Hy.
  assert (Hx : seqZ 0 n !! length l1 = Some x) by (rewrite Hl; by apply list_lookup_middle).
  apply lookup_seqZ in Hx as [Hx Hlt]. apply list_elem_of_lookup. exists (Z.to_nat y).
  rewrite <- (lookup_app_l l1 (x :: l2)) by lia. rewrite <- Hl. apply lookup_seqZ. lia.
Qed.

(** The queues are served in order of priority.  [fp_dequeue] returns the
    macro [NULL] only when every queue is empty; otherwise it removes the first
    entry of the first non-empty queue, counting priorities from 0 up, and
    changes nothing else. *)
Theorem fp_dequeue_serves_first k :
  queues_wf k ->
  ((forall pr, 0 <= pr < PRIO_MAX -> queue_of k pr = []) /\ fp_dequeue k = Ret None k) \/
  exists pr x rest k',
    0 <= pr < PRIO_MAX /\ (forall pr', 0 <= pr' < pr -> queue_of k pr' = []) /\
    queue_of k pr = x :: rest /\ fp_dequeue k = Ret (Some x) k' /\
    queues_wf k' /\ same_but_queues k k' /\ queue_of k' pr = rest /\
    forall pr', pr' <> pr -> queue_of k' pr' = queue_of k pr'.
Proof.
  intros Hwf. destruct (fp_scan k (seqZ 0 PRIO_MAX)) as [[Hf Hs]|(l1 & pr & l2 & Hl & Hf & Hn & Hs)];
    [done|by intros pr ?%elem_of_seqZ; lia| |]; unfold fp_dequeue; rewrite (bind_run _ _ _ _ _ Hs).
  - left. split; [|done]. intros pr Hpr. apply empty_at_queue; [done..|].
    eapply Forall_forall; [done|]. apply elem_of_seqZ. lia.
  - right. assert (Hpr : 0 <= pr < PRIO_MAX).
    { assert (pr ∈ seqZ 0 PRIO_MAX) as ?%elem_of_seqZ by (rewrite Hl; set_solver). lia. }
    destruct (queues_get k _ Hwf Hpr) as (h & t & q & E & Hq & Hh & Ht & Hlq).
    destruct (ring_get QUEUESIZE ltac:(done) q h Hlq) as [x Hx].
    rewrite Z.mod_small in Hx by done.
    assert (Hlen : (t - h) mod QUEUESIZE <> 0).
    { intros Hz. apply Hn, empty_at_queue; [done..|]. rewrite (queue_of_eq _ _ _ _ _ E Hq). by rewrite Hz. }
    pose proof (Z.mod_pos_bound (t - h) QUEUESIZE ltac:(done)) as Hb.
    exists pr, x, (ring QUEUESIZE q (h + 1) (Z.to_nat ((t - h) mod QUEUESIZE - 1))),
      (put_queue k pr q ((h + 1) mod QUEUESIZE, t)).
    pose proof Hpr as [? ?]. split_and!; try done.
    + intros pr' Hpr'. apply empty_at_queue; [done|lia|]. rewrite Forall_forall in Hf. apply Hf.
      eapply seqZ_before; [done|]. lia.
    + rewrite (queue_of_eq _ _ _ _ _ E Hq), <- (ring_pop QUEUESIZE) with (x := x).
      * f_equal. lia.
      * by rewrite Z.mod_small.
    + unfold bind, gets, ofopt. cbn. rewrite E. cbn. rewrite Hq. cbn. rewrite Hx. cbn. rewrite crem_succ by done.
      by rewrite put_queue_id.
    + apply put_queue_wf; cbn; try done. by apply Z.mod_pos_bound.
    + rewrite put_queue_at by done. cbn. rewrite ring_mod by done. f_equal.
      rewrite Zminus_mod_idemp_r. replace (t - (h + 1)) with (t - h - 1) by lia.
      rewrite <- Zminus_mod_idemp_l. rewrite Z.mod_small; lia.
    + intros pr' Hne. apply put_queue_ne; lia || done.
Qed.

(** ** Waking *)

(** The process table and the run queues are all that differs. *)
Definition same_but_sched (k k' : kernel) : Prop :=
  k' = k <| procs := procs k' |> <| pqueues := pqueues k' |> <| htindex := htindex k' |>.

(** A process served by the fixed-priority queues has a priority that is an
    index of them. *)
Definition prio_ok (p : proc) : Prop :=
  queueType p = FP_POLICY -> 0 <= fp_priority p < PRIO_MAX.

Lemma wp_enqueue_at pr p (Q : Z -> kernel -> Prop) k :
  queues_wf k -> 0 <= pr < PRIO_MAX ->
  (forall r k', same_but_queues k k' -> queues_wf k' -> Q r k') -> wp (enqueue_at pr p) Q k.
Proof.
  intros Hwf Hpr HQ. destruct (queues_get k _ Hwf Hpr) as (h & t & q & Hht & Hq & Hh & Ht & Hl).
  unfold wp. rewrite (enqueue_at_run _ _ _ _ _ _ Hwf Hht Hq Hpr).
  destruct (t =? _); apply HQ; try done; [by destruct k|].
  apply put_queue_wf; try done; cbn; [by rewrite length_insert|by apply Z.mod_pos_bound].
Qed.

Lemma wp_fp_enqueue p pr (Q : Z -> kernel -> Prop) k :
  queues_wf k -> procs k !! p = Some pr -> 0 <= fp_priority pr < PRIO_MAX ->
  (forall r k', same_but_queues k k' -> queues_wf k' -> Q r k') -> wp (fp_enqueue p) Q k.
Proof.
  intros Hwf Hp Hpr HQ. unfold fp_enqueue. apply wp_bind, (wp_proc_at _ pr); [done|].
  case_decide; [by apply wp_enqueue_at|]. apply wp_ret, HQ; [by destruct k|done].
Qed.

Lemma wp_hfs_enqueue p pr (Q : Z -> kernel -> Prop) k :
  queues_wf k -> procs k !! p = Some pr -> 0 <= hfs_priority pr < PRIO_MAX ->
  (forall r k', same_but_queues k k' -> queues_wf k' -> Q r k') -> wp (hfs_enqueue p) Q k.
Proof.
  intros Hwf Hp Hpr HQ. unfold hfs_enqueue. apply wp_bind, (wp_proc_at _ pr); [done|].
  case_decide; [|apply wp_ret, HQ; [by destruct k|done]].
  apply wp_bind, wp_when; [unfold PRIO_MAX, HFS_PRIO_MAX in *; lia|]. intros _.
  apply wp_bind, (wp_proc_at _ pr); [done|]. by apply wp_enqueue_at.
Qed.

(** What [wakeup1(ch)] does to one process. *)
Definition woken (ch : option channel) (p : proc) : proc :=
  let p := if bool_decide (state p = SLEEPING) && bool_decide (chan p = ch)
           then p <| state := RUNNABLE |> else p in
  if queueType p =? HFS_POLICY then p <| hfs_priority := 0 |> else p.

Lemma woken_queueType ch p : queueType (woken ch p) = queueType p.
Proof. unfold woken. repeat case_match; done. Qed.

Lemma woken_not_asleep ch p : ~ (state (woken ch p) = SLEEPING /\ chan (woken ch p) = ch).
Proof.
  unfold woken. destruct (decide (state p = SLEEPING /\ chan p = ch)) as [[E1 E2]|E].
  - rewrite !bool_decide_true by done. cbn. case_match; cbn; intros [? _]; congruence.
  - replace (bool_decide (state p = SLEEPING) && bool_decide (chan p = ch)) with false.
    + case_match; cbn; tauto.
    + symmetry. apply andb_false_iff. rewrite !bool_decide_eq_false. destruct (decide (state p = SLEEPING)); tauto.
Qed.

Lemma wakeup1_body ch i p k :
  queues_wf k -> procs k !! i = Some p -> prio_ok p ->
  wp (let! p := proc_at i in
      do! when (bool_decide (state p = SLEEPING) && bool_decide (chan p = ch))
            (upd_proc i (fun p => p <| state := RUNNABLE |>)) in
      let! p := proc_at i in
      if queueType p =? FP_POLICY then do! fp_enqueue i in ret tt
      else if queueType p =? HFS_POLICY then
        do! upd_proc i (fun p => p <| hfs_priority := 0 |>) in
        do! hfs_enqueue i in ret tt
      else ret tt)
    (fun _ k' => queues_wf k' /\ same_but_sched k k' /\ procs k' = <[i := woken ch p]> (procs k)) k.
Proof.
  intros Hwf Hp Hok. apply wp_bind, (wp_proc_at _ p); [done|].
  set (p1 := if bool_decide (state p = SLEEPING) && bool_decide (chan p = ch)
             then p <| state := RUNNABLE |> else p).
  set (k1 := k <| procs ::= <[i := p1]> |>).
  assert (Hq1 : queueType p1 = queueType p) by (unfold p1; by case_match).
  assert (Hf1 : fp_priority p1 = fp_priority p) by (unfold p1; by case_match).
  assert (Hp1 : procs k1 !! i = Some p1).
  { unfold k1. cbn. apply list_lookup_insert_eq. by eapply lookup_lt_Some. }
  assert (Hwf1 : queues_wf k1) by (destruct Hwf; by split).
  apply wp_bind. eapply (wp_mono _ (fun _ k' => k' = k1)).
  { apply wp_when; intros E; [eapply wp_upd_proc; [done|]|]; unfold k1, p1; rewrite E; [done|].
    by rewrite set_proc_id. }
  intros _ ? ->. apply wp_bind, (wp_proc_at _ p1); [done|]. unfold woken. fold p1.
  destruct (Z.eqb_spec (queueType p1) FP_POLICY) as [E|E].
  - apply wp_bind. eapply wp_fp_enqueue; [done..| |].
    + rewrite Hf1. apply Hok. congruence.
    + intros r k' -> Hwf'. apply wp_ret. split; [done|]. rewrite E. by split.
  - destruct (Z.eqb_spec (queueType p1) HFS_POLICY) as [E'|E'].
    + apply wp_bind. eapply wp_upd_proc; [done|]. apply wp_bind.
      eapply wp_hfs_enqueue.
      * destruct Hwf1; by split.
      * cbn. rewrite list_insert_insert_eq. apply list_lookup_insert_eq. by eapply lookup_lt_Some.
      * done.
      * intros r k' -> Hwf'. apply wp_ret. split_and!; [done|done|]. cbn. by rewrite list_insert_insert_eq.
    + apply wp_ret. split_and!; [done|by destruct k|done].
Qed.

Lemma same_but_sched_refl k : same_but_sched k k.
Proof. unfold same_but_sched. by destruct k. Qed.

Lemma same_but_sched_trans k1 k2 k3 :
  same_but_sched k1 k2 -> same_but_sched k2 k3 -> same_but_sched k1 k3.
Proof. unfold same_but_sched. by intros -> ->. Qed.

Lemma insert_prefix {A} (f : A -> A) (l0 l : list A) i x :
  (forall j, l !! j = (if decide (j < i)%nat then f else id) <$> l0 !! j) ->
  l0 !! i = Some x ->
  forall j, <[i := f x]> l !! j = (if decide (j < S i)%nat then f else id) <$> l0 !! j.
Proof.
  intros Hl Hx j. destruct (decide (i = j)) as [<-|Hne].
  - rewrite decide_True by lia. rewrite list_lookup_insert_eq; [by rewrite Hx|].
    apply lookup_lt_is_Some. rewrite Hl, Hx. eauto.
  - rewrite list_lookup_insert_ne, Hl by done. do 2 case_decide; try lia; done.
Qed.

(** [wakeup1] applies [woken] to the whole table. *)
Lemma wakeup1_spec ch k :
  queues_wf k -> length (procs k) = NPROC -> Forall prio_ok (procs k) ->
  wp (wakeup1 ch) (fun _ k' =>
    queues_wf k' /\ same_but_sched k k' /\ procs k' = woken ch <$> procs k) k.
Proof.
  intros Hwf Hlen Hok. unfold wakeup1.
  eapply (wp_foreach_seq _ _ (fun i s => queues_wf s /\ same_but_sched k s /\
    forall j, procs s !! j = (if decide (j < i)%nat then woken ch else id) <$> procs k !! j)).
  - split_and!; [done|apply same_but_sched_refl|]. intros j. by destruct (procs k !! j).
  - intros i s Hi (Hws & Hss & Hps).
    destruct (lookup_lt_is_Some_2 (procs k) i) as [p Hp]; [lia|].
    assert (Hp' : procs s !! i = Some p) by (rewrite Hps, Hp, decide_False by lia; done).
    eapply wp_mono; [apply (wakeup1_body ch i p s Hws Hp'); by eapply Forall_lookup_1|].
    intros _ s' (Hw' & Hss' & Hps'). rewrite Nat.add_1_r.
    split_and!; [done|by eapply same_but_sched_trans|]. rewrite Hps'. by apply insert_prefix.
  - intros s (Hws & Hss & Hps). split_and!; [done..|].
    apply list_eq. intros j. rewrite Hps, list_lookup_fmap.
    destruct (procs k !! j) eqn:E; [|done]. apply lookup_lt_Some in E.
    by rewrite decide_True by lia.
Qed.

(** [wakeup] does to every process what [woken] says. *)
Lemma wakeup_run ch k :
  queues_wf k -> length (procs k) = NPROC -> Forall prio_ok (procs k) -> Lptable ∉ held k ->
  exists k', wakeup ch k = Ret tt k' /\ queues_wf k' /\ same_but_sched k k' /\
    procs k' = woken (Some ch) <$> procs k.
Proof.
  intros Hwf Hlen Hok Hh.
  enough (wp (wakeup ch) (fun _ k' => queues_wf k' /\ same_but_sched k k' /\
            procs k' = woken (Some ch) <$> procs k) k) as ([] & k' & Hr & Hw & Hs & Hp)%wp_run by eauto.
  unfold wakeup. apply wp_bind, wp_acquire; [done|]. apply wp_bind.
  eapply wp_mono; [apply wakeup1_spec; [destruct Hwf; by split|done..]|].
  intros [] k' (Hw & Hs & Hp). apply wp_release; [rewrite Hs; cbn; by left|].
  split_and!; [destruct Hw; by split| |done].
  rewrite Hs. unfold same_but_sched. by kernel_eq.
Qed.

(** A wake-up wakes exactly the processes asleep on the channel.
    [wakeup(ch)], called with neither [ptable.lock] held nor an out-of-range
    priority in the table, returns with the locks as they were; every process
    asleep on [ch] has become runnable and no process changes state otherwise;
    pids, channels, parents and memory are untouched. *)
Theorem wakeup_wakes ch k :
  queues_wf k -> length (procs k) = NPROC -> Forall prio_ok (procs k) -> Lptable ∉ held k ->
  exists k', wakeup ch k = Ret tt k' /\ queues_wf k' /\ same_but_sched k k' /\
    procs k' = woken (Some ch) <$> procs k /\
    forall i p', procs k' !! i = Some p' -> ~ (state p' = SLEEPING /\ chan p' = Some ch).
Proof.
  intros Hwf Hlen Hok Hh. destruct (wakeup_run ch k Hwf Hlen Hok Hh) as (k' & Hr & Hw & Hs & Hp).
  exists k'. split_and!; try done. rewrite Hp. intros i p' Hl. rewrite list_lookup_fmap in Hl.
  destruct (procs k !! i) as [p|]; [|done]. injection Hl as <-. apply woken_not_asleep.
Qed.

(** ** Sleeping *)

Lemma sched_switches k p pr :
  held k = [Lptable] -> curproc k = Some p -> procs k !! p = Some pr -> state pr <> RUNNING ->
  sched k = Switch k (fun k' => Ret tt k').
Proof.
  intros Hh Hc Hp Hs. unfold sched. run (holding_run Lptable k). rewrite Hh. cbn [negb bool_decide].
  rewrite bool_decide_true by set_solver. cbn [negb]. rewrite bind_gets, Hh. cbn [length Nat.eqb negb].
  run (mycur_run _ _ Hc). run (proc_at_run _ _ _ Hp). by rewrite decide_False.
Qed.

Lemma sched_two_locks k l l' ls :
  held k = l :: l' :: ls -> Lptable ∈ held k -> sched k = Panic "sched locks" k.
Proof.
  intros Hh Hin. unfold sched. run (holding_run Lptable k). rewrite bool_decide_true by done.
  cbn [negb]. by rewrite bind_gets, Hh.
Qed.

(** The two halves of [sleep], before and after the switch. *)
Lemma sleep_enter ch lk ls k p pr :
  curproc k = Some p -> procs k !! p = Some pr -> held k = lk :: ls -> Lptable ∉ ls ->
  sleep ch lk k =
    bind sched (fun _ =>
      do! upd_proc p (fun pr => pr <| chan := None |>) in
      when (negb (bool_decide (lk = Lptable))) (do! release Lptable in acquire lk))
    (k <| procs := <[p := pr <| chan := Some ch |> <| state := SLEEPING |>]> (procs k) |>
       <| held := Lptable :: ls |>).
Proof.
  intros Hc Hp Hh Hls. unfold sleep, myproc. rewrite bind_gets, Hc.
  set (k0 := k <| held := Lptable :: ls |>).
  assert (H0 : when (negb (bool_decide (lk = Lptable))) (do! acquire Lptable in release lk) k = Ret tt k0).
  { destruct (decide (lk = Lptable)) as [->|Hne].
    - rewrite bool_decide_true by done. cbn. unfold ret. f_equal. by kernel_eq.
    - rewrite bool_decide_false by done. cbn [negb when]. run (acquire_run Lptable k ltac:(rewrite Hh; set_solver)).
      rewrite release_run by (cbn; rewrite Hh; set_solver). f_equal. kernel_eq. by rewrite Hh, remove_lock_second. }
  run H0. assert (Hp0 : procs k0 !! p = Some pr) by done.
  run (upd_proc_run p pr (fun pr => pr <| chan := Some ch |>) k0 Hp0).
  set (k1 := k0 <| procs ::= <[p := pr <| chan := Some ch |>]> |>).
  assert (Hp1 : procs k1 !! p = Some (pr <| chan := Some ch |>)).
  { apply list_lookup_insert_eq. by eapply lookup_lt_Some. }
  run (upd_proc_run p _ (fun pr => pr <| state := SLEEPING |>) k1 Hp1).
  f_equal. kernel_eq. by rewrite list_insert_insert_eq.
Qed.

Lemma sleep_leave lk p k2 pr2 :
  held k2 = [Lptable] -> procs k2 !! p = Some pr2 ->
  bind (upd_proc p (fun pr => pr <| chan := None |>)) (fun _ =>
      when (negb (bool_decide (lk = Lptable))) (do! release Lptable in acquire lk)) k2 =
  Ret tt (k2 <| procs := <[p := pr2 <| chan := None |>]> (procs k2) |> <| held := [lk] |>).
Proof.
  intros Hh Hp. run (upd_proc_run p _ (fun pr => pr <| chan := None |>) k2 Hp).
  destruct (decide (lk = Lptable)) as [->|Hne].
  - rewrite bool_decide_true by done. cbn. unfold ret. f_equal. by kernel_eq.
  - rewrite bool_decide_false by done. cbn [negb when].
    erewrite bind_run; [|apply release_run; cbn; rewrite Hh; set_solver].
    rewrite acquire_run.
    + f_equal. kernel_eq. by rewrite Hh, remove_lock_head.
    + cbn. rewrite Hh, remove_lock_head. set_solver.
Qed.

(** C30: sleeping gives up the caller's lock and the processor in one step.
    [sleep(ch, lk)], called by the running process with [lk] the only lock held,
    switches to the scheduler with the process asleep on [ch], [ptable.lock]
    held and [lk] released, so no wake-up can fall between the caller's test and
    the sleep; when the scheduler switches back, holding [ptable.lock], it
    returns with the channel cleared and exactly [lk] held.  Called with a
    second lock held it panics. *)
Theorem sleep_hands_over ch lk k p pr :
  curproc k = Some p -> procs k !! p = Some pr ->
  (held k = [lk] ->
    exists resume,
      sleep ch lk k =
        Switch (k <| procs := <[p := pr <| chan := Some ch |> <| state := SLEEPING |>]> (procs k) |>
                  <| held := [Lptable] |>) resume /\
      forall k2 pr2, held k2 = [Lptable] -> procs k2 !! p = Some pr2 ->
        resume k2 =
          Ret tt (k2 <| procs := <[p := pr2 <| chan := None |>]> (procs k2) |> <| held := [lk] |>)) /\
  (forall l, held k = [lk; l] -> l <> Lptable ->
    exists k1, sleep ch lk k = Panic "sched locks" k1).
Proof.
  intros Hc Hp. split.
  - intros Hh. rewrite (sleep_enter ch lk [] k p pr Hc Hp Hh ltac:(set_solver)).
    unfold bind at 1. rewrite (sched_switches _ p (pr <| chan := Some ch |> <| state := SLEEPING |>)).
    + eexists. split; [done|]. intros k2 pr2 Hh2 Hp2. by apply sleep_leave.
    + done.
    + done.
    + apply list_lookup_insert_eq. by eapply lookup_lt_Some.
    + done.
  - intros l Hh Hne. rewrite (sleep_enter ch lk [l] k p pr Hc Hp Hh ltac:(set_solver)).
    unfold bind at 1. erewrite sched_two_locks; [by eexists|done|]. cbn. set_solver.
Qed.

(** ** Priorities *)

(** The first entry of a table that satisfies [P] is where a scan of it stops. *)
Lemma first_of_table {S X A} (P : X -> Prop) `{forall x, Decision (P x)} (l : list X) (body : nat -> M S (option A)) j s :
  (forall i x, l !! i = Some x -> ~ P x -> body (j + i)%nat s = Ret None s) ->
  match list_find P l with
  | None => first_of (seq j (length l)) body s = Ret None s
  | Some (i, x) => first_of (seq j (length l)) body s =
      (let! r := body (j + i)%nat in
       match r with Some a => ret (Some a) | None => first_of (seq (1 + (j + i)) (length l - 1 - i)) body end) s
  end.
Proof.
  revert j. induction l as [|x l IH]; intros j Hno; [done|]. cbn [list_find length seq first_of]. destruct (decide (P x)) as [Hx|Hx].
  - rewrite Nat.add_0_r. replace (Datatypes.S (length l) - 1 - 0)%nat with (length l) by lia. done.
  - specialize (Hno 0%nat x eq_refl Hx) as H0. rewrite Nat.add_0_r in H0.
    specialize (IH (Datatypes.S j)). rewrite (bind_run _ _ _ _ _ H0). cbv iota.
    destruct (list_find P l) as [[i y]|]; cbn [fmap option_fmap option_map prod_map fst snd].
    + rewrite IH; [replace (j + Datatypes.S i)%nat with (Datatypes.S j + i)%nat by lia; replace (Datatypes.S (length l) - 1 - Datatypes.S i)%nat with (length l - 1 - i)%nat by lia; done|]. intros i' x' Hx' HP. rewrite <- (Hno (1 + i')%nat x' Hx' HP). f_equal; lia.
    + apply IH. intros i' x' Hx' HP. rewrite <- (Hno (1 + i')%nat x' Hx' HP). f_equal; lia.
Qed.

(** The process [prio_set] finds for a pid. *)
Definition with_pid (target : Z) (l : list proc) : option (nat * proc) := list_find (fun q => pid q = target) l.

(** [par] is an entry of the table with the pid [p]. *)
Definition pid_of (k : kernel) (par : nat) : option Z := pid <$> procs k !! par.

(** The search of [prio_set] for the target, in a kernel with [ptable.lock]
    held. *)
Lemma prio_set_scan target priority k mypid :
  length (procs k) = NPROC -> Lptable ∈ held k ->
  (forall i q par, procs k !! i = Some q -> parent q = Some par -> (par < NPROC)%nat) ->
  first_of (seq 0 NPROC) (fun i =>
        let! q := proc_at i in
        if pid q =? target then
          let! par := ofopt (parent q) in
          let! pp := proc_at par in
          if pid pp =? mypid then
            do! upd_proc i (fun q => q <| fp_priority := priority |>) in
            ret (Some true)
          else
            do! release Lptable in
            ret (Some false)
        else ret None) k =
    match with_pid target (procs k) with
    | None => Ret None k
    | Some (i, q) =>
        match parent q with
        | None => Fault k
        | Some par =>
            if decide (pid_of k par = Some mypid) then Ret (Some true) (k <| procs ::= <[i := q <| fp_priority := priority |>]> |>)
            else Ret (Some false) (k <| held ::= remove_lock Lptable |>)
        end
    end.
Proof.
  intros Hlen Hh Hpar. set (body := fun i : nat => _).
  pose proof (first_of_table (fun q => pid q = target) (procs k) body 0 k) as Hscan. rewrite Hlen in Hscan. unfold with_pid.
  destruct (list_find _ (procs k)) as [[i q]|] eqn:Ef.
  - rewrite Hscan; clear Hscan.
    + apply list_find_Some in Ef as (Hi & Ht & _). rewrite Nat.add_0_l. set (rest := first_of _ body).
      unfold body, bind at 1. unfold bindO. run (proc_at_run _ _ _ Hi). rewrite (proj2 (Z.eqb_eq _ _) Ht). destruct (parent q) as [par|] eqn:Ep; [|done].
      destruct (lookup_lt_is_Some_2 (procs k) par) as [pp Hpp]; [rewrite Hlen; by eapply Hpar|].
      change (bind (ofopt (Some par)) ?f) with (f par). cbv beta. run (proc_at_run _ _ _ Hpp).
      unfold pid_of. rewrite Hpp. cbn [fmap option_fmap option_map].
      destruct (Z.eqb_spec (pid pp) mypid) as [E|E].
      * rewrite decide_True by congruence. run (upd_proc_run i q (fun q => q <| fp_priority := priority |>) k Hi). done.
      * rewrite decide_False by congruence. run (release_run _ _ Hh). done.
    + intros j x Hx Hne. unfold body. rewrite Nat.add_0_l. run (proc_at_run _ _ _ Hx). by rewrite (proj2 (Z.eqb_neq _ _) Hne).
  - apply Hscan. intros j x Hx Hne. unfold body. rewrite Nat.add_0_l. run (proc_at_run _ _ _ Hx). by rewrite (proj2 (Z.eqb_neq _ _) Hne).
Qed.

Lemma list_find_insert {X} (P : X -> Prop) `{forall x, Decision (P x)} (l : list X) i x y :
  l !! i = Some y -> ~ P y -> ~ P x -> list_find P (<[i := x]> l) = list_find P l.
Proof.
  revert i. induction l as [|z l IH]; intros [|i] Hi Hy Hx; try done; cbn in Hi |- *.
  - injection Hi as ->. by rewrite !decide_False by done.
  - case_decide; [done|]. change (list_insert i x l) with (<[i := x]> l). by rewrite IH.
Qed.

(** [prio_set] on every branch. *)
Lemma prio_set_run target priority k me mep :
  curproc k = Some me -> procs k !! me = Some mep -> Lptable ∉ held k -> length (procs k) = NPROC ->
  (forall i q par, procs k !! i = Some q -> parent q = Some par -> (par < NPROC)%nat) ->
  let mep' := mep <| queueType := FP_POLICY |> in
  let k1 := k <| procs ::= <[me := mep']> |> in
  prio_set target priority k =
    if (PRIO_MAX <? priority) || (priority <? 0) then Ret (-1) k
    else if priority <? fp_priority mep then Ret (-1) k1
    else if pid mep =? target then Ret 0 (k1 <| procs ::= <[me := mep' <| fp_priority := priority |>]> |>)
    else match with_pid target (procs k) with
         | None => Ret 0 k1
         | Some (i, q) =>
             match parent q with
             | None => Fault (k1 <| held ::= cons Lptable |>)
             | Some par => if decide (pid_of k par = Some (pid mep)) then Ret 0 (k1 <| procs ::= <[i := q <| fp_priority := priority |>]> |>)
                           else Ret (-1) k1
             end
         end.
Proof.
  intros Hc Hme Hh Hlen Hpar mep' k1. unfold prio_set. destruct ((PRIO_MAX <? priority) || (priority <? 0)); [done|].
  run (acquire_run _ _ Hh). set (k2 := k <| held ::= _ |>). run (mycur_run me k2 Hc). run (upd_proc_run me mep (fun p => p <| queueType := FP_POLICY |>) k2 Hme).
  set (k3 := k2 <| procs ::= _ |>). assert (Hlk : Lptable ∈ held k3) by (cbn; set_solver).
  assert (Hme3 : procs k3 !! me = Some mep') by (apply list_lookup_insert_eq; by eapply lookup_lt_Some).
  run (proc_at_run me mep' k3 Hme3). change (fp_priority mep') with (fp_priority mep). change (pid mep') with (pid mep).
  assert (Hrel : k3 <| held ::= remove_lock Lptable |> = k1) by kernel_eq.
  destruct (priority <? fp_priority mep); [run (release_run _ _ Hlk); by rewrite Hrel|].
  destruct (Z.eqb_spec (pid mep) target) as [Et|Et].
  { run (upd_proc_run me mep' (fun p => p <| fp_priority := priority |>) k3 Hme3). erewrite bind_run; [|by apply release_run]. unfold ret; f_equal; kernel_eq. }
  unfold bind at 1. rewrite prio_set_scan; [|by cbn; rewrite length_insert|done|].
  2: { intros i q par Hq Hp. cbn in Hq. apply list_lookup_insert_Some in Hq as [(<- & <- & _)|[_ Hq]]; eauto. }
  assert (Ew : with_pid target (procs k3) = with_pid target (procs k)) by (by apply (list_find_insert _ _ me mep' mep)). rewrite Ew.
  destruct (with_pid target (procs k)) as [[i q]|] eqn:Ef; [|cbn [bindO]; cbv beta iota; run (release_run _ _ Hlk); by rewrite Hrel].
  destruct (parent q) as [par|] eqn:Ep; [|cbn; f_equal; kernel_eq].
  assert (E3 : pid_of k3 par = pid_of k par).
  { unfold pid_of. cbn. destruct (decide (par = me)) as [->|Hne]; [|by rewrite list_lookup_insert_ne]. rewrite list_lookup_insert_eq, Hme by (by eapply lookup_lt_Some). done. }
  rewrite E3. case_decide; cbn [bindO]; cbv beta iota.
  - erewrite bind_run; [|by apply release_run]. unfold ret; f_equal; kernel_eq.
  - rewrite Hrel. done.
Qed.

(** What [prio_set], called by process [me] and returning [r], may have done to the
    kernel. *)
Definition prio_effect (me : nat) (mep : proc) (target priority r : Z) (k k' : kernel) : Prop :=
  k' = k <| procs := procs k' |> /\ length (procs k') = length (procs k) /\
  forall i q, procs k !! i = Some q -> exists qt pr,
    procs k' !! i = Some (q <| fp_priority := pr |> <| queueType := qt |>) /\
    (qt = queueType q \/ i = me /\ qt = FP_POLICY) /\
    (pr = fp_priority q \/
     r = 0 /\ pr = priority /\ fp_priority mep <= priority /\ pid q = target /\
     (i = me \/ exists par, parent q = Some par /\ pid_of k par = Some (pid mep))).

Lemma prio_effect_refl me mep target priority r k : prio_effect me mep target priority r k k.
Proof.
  split; [kernel_eq|split; [done|]]. intros i q Hq. exists (queueType q), (fp_priority q). split_and!; [|by left..].
  rewrite Hq. by destruct q.
Qed.

Lemma prio_effect_mine me mep target priority r k pr : procs k !! me = Some mep ->
  (pr = fp_priority mep \/ r = 0 /\ pr = priority /\ fp_priority mep <= priority /\ pid mep = target) ->
  prio_effect me mep target priority r k (k <| procs ::= <[me := mep <| fp_priority := pr |> <| queueType := FP_POLICY |>]> |>).
Proof.
  intros Hme Hpr. split; [kernel_eq|split; [by cbn; rewrite length_insert|]]. intros i q Hq. cbn. destruct (decide (i = me)) as [->|Hne].
  - rewrite list_lookup_insert_eq by (by eapply lookup_lt_Some). simplify_eq. exists FP_POLICY, pr. split; [done|]. split; [by right|]. naive_solver.
  - rewrite list_lookup_insert_ne by done. exists (queueType q), (fp_priority q). split_and!; [|by left..]. rewrite Hq. by destruct q.
Qed.

Lemma prio_effect_child me mep target priority k i q par : procs k !! me = Some mep -> procs k !! i = Some q -> i <> me ->
  fp_priority mep <= priority -> pid q = target -> parent q = Some par -> pid_of k par = Some (pid mep) ->
  prio_effect me mep target priority 0 k
    (k <| procs ::= <[me := mep <| queueType := FP_POLICY |>]> |> <| procs ::= <[i := q <| fp_priority := priority |>]> |>).
Proof.
  intros Hme Hi Hne Hle Ht Hp Hpp. split; [kernel_eq|split; [by cbn; rewrite !length_insert|]]. intros j p Hj. cbn. destruct (decide (j = i)) as [->|Hji].
  - rewrite list_lookup_insert_eq by (rewrite length_insert; by eapply lookup_lt_Some). rewrite Hi in Hj. injection Hj as <-. exists (queueType q), priority.
    split; [by destruct q|]. split; [by left|]. right. split_and!; eauto.
  - rewrite list_lookup_insert_ne by done. destruct (decide (j = me)) as [->|Hjm].
    + rewrite list_lookup_insert_eq by (by eapply lookup_lt_Some). rewrite Hme in Hj. injection Hj as <-. exists FP_POLICY, (fp_priority mep). split_and!; [by destruct mep|by right|by left].
    + rewrite list_lookup_insert_ne by done. exists (queueType p), (fp_priority p). split_and!; [|by left..]. rewrite Hj. by destruct p.
Qed.

(** C31: what [prio_set] may change.  Called by process [me] with the parents of all
    processes in the table, it returns 0 or -1 with the locks as they were, except that
    it dereferences the null parent of the first process with the target pid when that
    has none (as [init] and the unused entries, with pid 0, have none).  When it
    returns, nothing but the table of processes has changed, and there only two fields:
    the queue type, of the caller and to [FP_POLICY], and the fixed priority, only when
    0 is returned, to the requested value, which is not below the caller's own, and of
    a process with the target pid that is the caller itself or a child of a process
    with the caller's pid.  And the request of a permitted caller is carried out: the
    first process with the target pid, if it is the caller or else such a child, has
    the requested priority afterwards. *)
Theorem prio_set_authority target priority k me mep :
  curproc k = Some me -> procs k !! me = Some mep -> Lptable ∉ held k -> length (procs k) = NPROC ->
  (forall i q par, procs k !! i = Some q -> parent q = Some par -> (par < NPROC)%nat) ->
  match prio_set target priority k with
  | Ret r k' => (r = 0 \/ r = -1) /\ prio_effect me mep target priority r k k'
  | Fault _ => exists i q, with_pid target (procs k) = Some (i, q) /\ parent q = None
  | _ => False
  end /\
  (0 <= priority <= PRIO_MAX -> fp_priority mep <= priority ->
   forall i q, with_pid target (procs k) = Some (i, q) ->
     i = me \/ pid mep <> target /\ (exists par, parent q = Some par /\ pid_of k par = Some (pid mep)) ->
     exists k', prio_set target priority k = Ret 0 k' /\ (fp_priority <$> procs k' !! i) = Some priority).
Proof.
  intros Hc Hme Hh Hlen Hpar. rewrite (prio_set_run target priority k me mep) by done. cbv zeta.
  assert (Hwith : forall i q, with_pid target (procs k) = Some (i, q) -> procs k !! i = Some q /\ pid q = target).
  { intros i q Hw. unfold with_pid in Hw. by apply list_find_Some in Hw as (? & ? & _). }
  assert (Hmine : forall r, prio_effect me mep target priority r k (k <| procs ::= <[me := mep <| queueType := FP_POLICY |>]> |>)).
  { intros r. replace (mep <| queueType := FP_POLICY |>) with (mep <| fp_priority := fp_priority mep |> <| queueType := FP_POLICY |>) by (by destruct mep).
    apply prio_effect_mine; [done|by left]. }
  split.
  - destruct (_ || _); [split; [by right|apply prio_effect_refl]|]. destruct (Z.ltb_spec priority (fp_priority mep)); [split; [by right|done]|].
    destruct (Z.eqb_spec (pid mep) target) as [Et|Et].
    + split; [by left|]. replace (_ <| procs ::= _ |> <| procs ::= _ |>) with (k <| procs ::= <[me := mep <| fp_priority := priority |> <| queueType := FP_POLICY |>]> |>); [|kernel_eq; by rewrite list_insert_insert_eq].
      apply prio_effect_mine; [done|]. right. split_and!; done || lia.
    + destruct (with_pid target (procs k)) as [[i q]|] eqn:Ew; [|split; [by left|done]]. destruct (Hwith i q eq_refl) as [Hi Hq].
      destruct (parent q) as [par|] eqn:Ep; [|by exists i, q]. case_decide; [|split; [by right|done]]. split; [by left|].
      eapply prio_effect_child; try done. intros ->. simplify_eq.
  - intros Hr Hle i q Hw Hauth. destruct (Hwith i q Hw) as [Hi Hq]. replace (_ || _) with false by lia.
    replace (priority <? fp_priority mep) with false by lia. rewrite Hw. destruct (Z.eqb_spec (pid mep) target) as [Et|Et].
    + destruct Hauth as [->|[? _]]; [|done]. eexists. split; [done|]. cbn. by rewrite list_lookup_insert_eq by (rewrite length_insert; by eapply lookup_lt_Some).
    + destruct Hauth as [->|(_ & par & Hp & Hpp)]; [simplify_eq|]. rewrite Hp, decide_True by done. eexists. split; [done|].
      cbn. by rewrite list_lookup_insert_eq by (rewrite length_insert; by eapply lookup_lt_Some).
Qed.

Lemma enqueue_at_out k pr p : zget (htindex k) pr = None -> enqueue_at pr p k = Fault k.
Proof. intros H. unfold enqueue_at, bind, gets. cbn -[zget]. by rewrite H. Qed.

(** A priority of [PRIO_MAX] is accepted and has no queue.  [prio_set] on the
    caller's own pid with priority 10 succeeds (its bound is [PRIO_MAX < priority]),
    and enqueueing that process once it is RUNNABLE indexes the ten-entry
    [htindex] out of range; every lower priority has its queue. *)
Theorem prio_max_has_no_queue k me mep :
  curproc k = Some me -> procs k !! me = Some mep -> Lptable ∉ held k ->
  fp_priority mep <= PRIO_MAX -> queues_wf k ->
  exists k', prio_set (pid mep) PRIO_MAX k = Ret 0 k' /\
    procs k' !! me = Some (mep <| queueType := FP_POLICY |> <| fp_priority := PRIO_MAX |>) /\
    fp_enqueue me (k' <| procs ::= alter (fun p => p <| state := RUNNABLE |>) me |>) =
      Fault (k' <| procs ::= alter (fun p => p <| state := RUNNABLE |>) me |>).
Proof.
  intros Hc Hme Hh Hpr Hwf.
  enough (wp (prio_set (pid mep) PRIO_MAX)
    (fun r k' => r = 0 /\ htindex k' = htindex k /\
       procs k' !! me = Some (mep <| queueType := FP_POLICY |> <| fp_priority := PRIO_MAX |>)) k)
    as (r & k' & Hr & -> & Hq & Hp)%wp_run.
  { exists k'. split_and!; [done..|].
    set (k2 := k' <| procs ::= _ |>). unfold fp_enqueue.
    erewrite bind_run; [|apply proc_at_run; cbn; by rewrite list_lookup_alter_eq, Hp].
    rewrite decide_True by done. apply enqueue_at_out. change (htindex k2) with (htindex k').
    rewrite Hq. unfold zget. apply lookup_ge_None_2. rewrite (qw_hts k Hwf). by vm_compute. }
  unfold prio_set. cbn. apply wp_bind, wp_acquire; [done|]. apply wp_bind, (wp_mycur me); [done|].
  assert (Hlt := lookup_lt_Some _ _ _ Hme).
  apply wp_bind. eapply wp_upd_proc; [done|].
  apply wp_bind. eapply wp_proc_at; [cbn; by apply list_lookup_insert_eq|]. cbn.
  rewrite (proj2 (Z.ltb_ge _ _) Hpr), Z.eqb_refl. apply wp_bind.
  eapply wp_upd_proc; [cbn; by apply list_lookup_insert_eq|].
  apply wp_bind, wp_release; [cbn; set_solver|]. apply wp_ret. split_and!; [done..|].
  cbn. rewrite list_lookup_insert_eq; [done|]. by rewrite length_insert.
Qed.

(** ** A small machine on which the theorems above apply *)

Lemma queues_wf_intro k :
  length (htindex k) = 10%nat -> length (pqueues k) = 10%nat ->
  Forall (fun ht : Z * Z => 0 <= ht.1 < QUEUESIZE /\ 0 <= ht.2 < QUEUESIZE) (htindex k) ->
  Forall (fun q => Z.of_nat (length q) = QUEUESIZE) (pqueues k) -> queues_wf k.
Proof.
  intros H1 H2 H3 H4. split; [done..| |].
  - intros pr ht Hg. eapply Forall_lookup_1 in H3; [done|]. by apply zget_Some in Hg as [_ ?].
  - intros pr q Hg. eapply Forall_lookup_1 in H4; [done|]. by apply zget_Some in Hg as [_ ?].
Qed.

(** Process 0 is init; 1 is the running process, at priority 3; 2 is its child,
    asleep on tick; 3 is RUNNABLE at priority 4. *)
Definition demo : kernel :=
  zero_kernel <| curproc := Some 1%nat |>
    <| procs ::= fun ps =>
       <[0%nat := zero_proc <| pid := 1 |> <| state := SLEEPING |> <| chan := Some (Cproc 0) |>
                            <| queueType := FP_POLICY |>]>
      (<[1%nat := zero_proc <| pid := 2 |> <| state := RUNNING |> <| parent := Some 0%nat |>
                            <| queueType := FP_POLICY |> <| fp_priority := 3 |>]>
      (<[2%nat := zero_proc <| pid := 3 |> <| state := SLEEPING |> <| parent := Some 1%nat |>
                            <| chan := Some Cticks |> <| queueType := FP_POLICY |>]>
      (<[3%nat := zero_proc <| pid := 4 |> <| state := RUNNABLE |> <| parent := Some 1%nat |>
                            <| queueType := FP_POLICY |> <| fp_priority := 4 |>]> ps))) |>.

(** The running process holding [tickslock]. *)
Definition demo_locked : kernel := demo <| held := [Ltickslock] |>.

(** The same machine with the queue of priority 4 filled to capacity. *)
Definition demo_full : kernel := demo <| htindex ::= <[4%nat := (0, 49)]> |>.

Lemma demo_wf : queues_wf demo.
Proof. apply queues_wf_intro; [done..| |]; apply (bool_decide_unpack _); by vm_compute. Qed.

Lemma demo_full_wf : queues_wf demo_full.
Proof. apply queues_wf_intro; [done..| |]; apply (bool_decide_unpack _); by vm_compute. Qed.

Lemma fp_enqueue_appends_witness :
  exists k', fp_enqueue 3 demo = Ret 1 k' /\ queue_of k' 4 = [Some 3%nat].
Proof.
  destruct (fp_enqueue_appends demo 3 _ demo_wf eq_refl eq_refl) as (k' & ? & _ & _ & ? & _);
    [done|done|]. by exists k'.
Defined.

Lemma fp_enqueue_at_capacity_witness :
  exists k', fp_enqueue 3 demo_full = Ret 1 k' /\ queue_of k' 4 = [].
Proof.
  by apply (fp_enqueue_at_capacity demo_full 3 _ 0 49 demo_full_wf eq_refl eq_refl).
Defined.

Lemma fp_dequeue_serves_first_witness :
  queue_of demo_full 4 <> [] /\ exists x k', fp_dequeue demo_full = Ret (Some x) k'.
Proof.
  split; [done|]. destruct (fp_dequeue_serves_first demo_full demo_full_wf)
    as [[H _]|(pr & x & rest & k' & _ & _ & _ & H & _)].
  - exfalso. specialize (H 4 ltac:(done)). by vm_compute in H.
  - by exists x, k'.
Defined.

Lemma prio_ok_demo : Forall prio_ok (procs demo).
Proof. apply Forall_forall. intros p Hp. unfold demo in Hp. repeat (apply elem_of_cons in Hp as [->|Hp]; [done|]). by apply elem_of_nil in Hp. Qed.

Lemma wakeup_wakes_witness :
  exists k', wakeup Cticks demo = Ret tt k' /\ (state <$> procs k' !! 2%nat) = Some RUNNABLE.
Proof.
  destruct (wakeup_wakes Cticks demo demo_wf eq_refl prio_ok_demo) as (k' & Hr & _ & _ & Hp & _);
    [by apply not_elem_of_nil|].
  exists k'. split; [done|]. by rewrite Hp.
Defined.

Lemma sleep_hands_over_witness :
  exists k' resume, sleep Cticks Ltickslock demo_locked = Switch k' resume /\
    held k' = [Lptable].
Proof.
  destruct (sleep_hands_over Cticks Ltickslock demo_locked 1 _ eq_refl eq_refl) as [H _].
  destruct (H eq_refl) as (resume & -> & _). by eexists _, resume.
Defined.

Lemma prio_set_authority_witness :
  exists k', prio_set 4 7 demo = Ret 0 k' /\ (fp_priority <$> procs k' !! 3%nat) = Some 7.
Proof.
  destruct (prio_set_authority 4 7 demo 1 _ eq_refl eq_refl) as [_ H].
  - by apply not_elem_of_nil.
  - reflexivity.
  - intros i q par Hq Hp. do 4 (destruct i as [|i]; [injection Hq as <-; try done; injection Hp as <-; unfold NPROC; lia|]).
    change (replicate 60 zero_proc !! i = Some q) in Hq. apply lookup_replicate in Hq as [-> _]. done.
  - eapply H; [unfold PRIO_MAX; lia|cbn; lia|reflexivity|]. right. split; [done|]. by eexists.
Defined.

Lemma prio_max_has_no_queue_witness :
  exists k', prio_set 2 PRIO_MAX demo = Ret 0 k'.
Proof.
  destruct (prio_max_has_no_queue demo 1 _ eq_refl eq_refl) as (k' & ? & _);
    [by apply not_elem_of_nil|done|apply demo_wf|by exists k'].
Defined.

(** ** The run queues as a whole *)

(** A sequence of insertions and removals, and what the removals return. *)
Inductive fpop := FpEnq (p : nat) | FpDeq.

Definition fp_do (o : fpop) : K (option (option nat)) := match o with FpEnq p => let! _ := fp_enqueue p in ret None | FpDeq => fp_dequeue end.
Fixpoint fp_run (ops : list fpop) : K (list (option (option nat))) :=
  match ops with [] => ret [] | o :: ops => let! r := fp_do o in let! rs := fp_run ops in ret (r :: rs) end.

(** The abstract scheduler: a list for every priority; the first non-empty one is served. *)
Fixpoint first_ready (a : Z -> list (option nat)) (l : list Z) : option (Z * option nat) :=
  match l with [] => None | pr :: l => match a pr with [] => first_ready a l | x :: _ => Some (pr, x) end end.

(** [None] when an insertion finds its list full. *)
Fixpoint fp_spec (prio : nat -> Z) (ops : list fpop) (a : Z -> list (option nat)) : option (list (option (option nat)) * (Z -> list (option nat))) :=
  match ops with
  | [] => Some ([], a)
  | FpEnq p :: ops =>
      if Z.of_nat (length (a (prio p))) <? QUEUESIZE - 1 then
        (fun r => (None :: r.1, r.2)) <$> fp_spec prio ops (fun q => if q =? prio p then a q ++ [Some p] else a q)
      else None
  | FpDeq :: ops =>
      match first_ready a (seqZ 0 PRIO_MAX) with
      | None => (fun r => (None :: r.1, r.2)) <$> fp_spec prio ops a
      | Some (pr, x) => (fun r => (Some x :: r.1, r.2)) <$> fp_spec prio ops (fun q => if q =? pr then tail (a q) else a q)
      end
  end.

Definition queues_are (k : kernel) (a : Z -> list (option nat)) : Prop := forall pr, 0 <= pr < PRIO_MAX -> queue_of k pr = a pr.
Definition queueable (k : kernel) (prio : nat -> Z) (p : nat) : Prop := exists pr, procs k !! p = Some pr /\ state pr = RUNNABLE /\ fp_priority pr = prio p /\ 0 <= prio p < PRIO_MAX.

Lemma first_ready_none a l : (forall pr, pr ∈ l -> a pr = []) -> first_ready a l = None.
Proof. induction l as [|pr l IH]; intros H; [done|]. cbn. rewrite H by set_solver. apply IH. intros. apply H. set_solver. Qed.

Lemma first_ready_some a pr x rest n : forall i, i <= pr < i + Z.of_nat n -> (forall q, i <= q < pr -> a q = []) -> a pr = x :: rest -> first_ready a (seqZ i (Z.of_nat n)) = Some (pr, x).
Proof.
  induction n as [|n IH]; intros i Hi He Hx; [lia|]. rewrite seqZ_cons by lia. cbn [first_ready]. destruct (decide (i = pr)) as [->|Hne]; [by rewrite Hx|]. rewrite He by lia. replace (Z.pred (Z.of_nat (S n))) with (Z.of_nat n) by lia. apply IH; [lia| |done]. intros q Hq. apply He. lia.
Qed.

Lemma same_but_queues_refl k : same_but_queues k k.
Proof. unfold same_but_queues. by destruct k. Qed.

Lemma same_but_queues_trans k1 k2 k3 : same_but_queues k1 k2 -> same_but_queues k2 k3 -> same_but_queues k1 k3.
Proof. unfold same_but_queues. intros -> ->. done. Qed.

Lemma fp_do_spec prio o k a rs a' : queues_wf k -> queues_are k a -> (forall p, o = FpEnq p -> queueable k prio p) -> fp_spec prio [o] a = Some (rs, a') ->
  exists r k', fp_do o k = Ret r k' /\ rs = [r] /\ queues_wf k' /\ same_but_queues k k' /\ queues_are k' a'.
Proof.
  intros Hwf Ha Hq. destruct o as [p|]; cbn [fp_spec fp_do].
  - destruct (Hq p eq_refl) as (pr & Hp & Hst & Hpr & Hr). destruct (Z.ltb_spec (Z.of_nat (length (a (prio p)))) (QUEUESIZE - 1)) as [Hl|]; [|done]. intros [= <- <-]. rewrite <- Hpr in Hr, Hl. rewrite <- Ha in Hl by done.
    destruct (fp_enqueue_appends k p pr Hwf Hp Hst Hr Hl) as (k' & E & W & S & Q1 & Q2). exists None, k'. split; [by rewrite (bind_run _ _ _ _ _ E)|]. split_and!; [done..|]. intros q Hq'. destruct (Z.eqb_spec q (prio p)) as [->|Hne]; [rewrite <- Hpr, Q1, Ha by exact Hr; done|]. rewrite Q2 by (by rewrite Hpr). by apply Ha.
  - destruct (fp_dequeue_serves_first k Hwf) as [[Hz E]|(pr & x & rest & k' & Hr & He & Hx & E & W & S & Q1 & Q2)].
    + rewrite first_ready_none by (intros pr Hpr; apply elem_of_seqZ in Hpr; rewrite <- Ha by lia; apply Hz; lia). intros [= <- <-]. exists None, k. split_and!; [done..|apply same_but_queues_refl|done].
    + unfold queues_are, PRIO_MAX in *. change 10 with (Z.of_nat 10) at 1. rewrite (first_ready_some a pr x rest 10 0) by (try lia; try (intros q Hq'; rewrite <- Ha by lia; apply He; lia); rewrite <- Ha by lia; done). intros [= <- <-]. exists (Some x), k'. split_and!; [done..|]. intros q Hq'. destruct (Z.eqb_spec q pr) as [->|Hne]; [by rewrite Q1, <- Ha, Hx by lia|]. rewrite Q2 by done. by apply Ha.
Qed.

(** C17: the run queues of the fixed-priority scheduler are a list for each priority.  For every
    sequence of insertions of runnable processes and removals in which no list grows beyond
    [QUEUESIZE - 1] entries, the ring buffers give exactly the results of the lists: an
    insertion appends to the list of the process's priority, a removal takes the first
    entry of the first non-empty list, counting priorities from 0 up, and nothing when all
    are empty; and nothing else of the kernel changes. *)
Theorem fp_queues_refine prio ops : forall k a rs a', queues_wf k -> queues_are k a -> (forall p, FpEnq p ∈ ops -> queueable k prio p) -> fp_spec prio ops a = Some (rs, a') ->
  exists k', fp_run ops k = Ret rs k' /\ queues_wf k' /\ same_but_queues k k' /\ queues_are k' a'.
Proof.
  induction ops as [|o ops IH]; intros k a rs a' Hwf Ha Hq Hs; [injection Hs as <- <-; exists k; split_and!; [done..|apply same_but_queues_refl|done]|].
  assert (Hsplit : exists r1 a1 rs', fp_spec prio [o] a = Some ([r1], a1) /\ fp_spec prio ops a1 = Some (rs', a') /\ rs = r1 :: rs').
  { cbn [fp_spec] in *. destruct o as [p|]; [destruct (_ <? _); [|done]|destruct (first_ready a _) as [[pr x]|]]; apply fmap_Some in Hs as ([rs' a0] & E & [= -> ->]); by eexists _, _, rs'. }
  destruct Hsplit as (r1 & a1 & rs' & S1 & S2 & ->). destruct (fp_do_spec prio o k a [r1] a1 Hwf Ha ltac:(intros p ->; apply Hq; set_solver) S1) as (r & k1 & E1 & [= <-] & W1 & B1 & Q1).
  destruct (IH k1 a1 rs' a' W1 Q1) as (k' & E' & W' & B' & Q'); [|done|]. { intros p Hp. destruct (Hq p ltac:(set_solver)) as (pr & P1 & P2). exists pr. rewrite B1. by split. }
  exists k'. cbn [fp_run]. rewrite (bind_run _ _ _ _ _ E1), (bind_run _ _ _ _ _ E'). split_and!; [done..|by eapply same_but_queues_trans|done].
Qed.

Lemma fp_queues_refine_witness : exists k', fp_run [FpEnq 3; FpDeq; FpDeq] demo = Ret [None; Some (Some 3%nat); None] k' /\ queue_of k' 4 = [].
Proof.
  destruct (fp_queues_refine (fun p => from_option fp_priority 0 (procs demo !! p)) [FpEnq 3; FpDeq; FpDeq] demo (queue_of demo) [None; Some (Some 3%nat); None] (fun q => if q =? 4 then tail (if q =? 4 then queue_of demo q ++ [Some 3%nat] else queue_of demo q) else if q =? 4 then queue_of demo q ++ [Some 3%nat] else queue_of demo q) demo_wf) as (k' & E & _ & _ & Q).
  - by intros pr _.
  - intros p Hp. assert (p = 3%nat) as -> by set_solver. eexists. split_and!; [reflexivity|done|done|done|done].
  - reflexivity.
  - exists k'. split; [exact E|]. rewrite Q by done. by vm_compute.
Defined.
