(* ===== verification/Mem.v ===== *)
(** * Memory accesses of the kernel

    Physical memory is addressed in two ways.  Kernel virtual addresses from
    [KERNBASE] up map to physical memory with the constant offset of [V2P]
    ([kread], [kwrite]: the accesses the kernel makes to page tables and to pages
    it has allocated).  Any virtual address goes through the page table in use
    ([translate], as the processor walks it from [cr3]; [vload8], [vstore8]:
    the accesses to user memory the kernel makes through user pointers). *)

From S2P Require Import Prelude CString Headers.

(** ** Through the kernel's mapping of physical memory *)

Definition kaddr_ok (va : Z) : bool :=
  (KERNBASE <=? va) && (va <? KERNBASE + PHYSTOP) && (va mod 4 =? 0).

Definition word (m : gmap Z Z) (pa : Z) : Z := default 0 (m !! pa).

Definition kread (va : Z) : K Z :=
  if kaddr_ok va then gets (fun k => word (pmem k) (V2P va)) else fault.

Definition kwrite (va w : Z) : K unit :=
  if kaddr_ok va then modify (fun k => k <| pmem ::= <[V2P va := w]> |>) else fault.

(** The words of the page at a physical address. *)
Definition page_words (pa : Z) : list Z := (fun i => pa + 4 * i) <$> seqZ 0 1024.

Definition fill_page (pa w : Z) (m : gmap Z Z) : gmap Z Z :=
  foldr (fun a m => <[a := w]> m) m (page_words pa).

(** [memset(v, c, PGSIZE)] on a page of the kernel. *)
Definition memset_page (v c : Z) : K unit :=
  if kaddr_ok v && (v mod PGSIZE =? 0) then
    let c := Z.land c 0xFF in
    let w := Z.lor (Z.lor (Z.lor (Z.shiftl c 24) (Z.shiftl c 16)) (Z.shiftl c 8)) c in
    modify (fun k => k <| pmem ::= fill_page (V2P v) w |>)
  else fault.

(** [memmove(dst, src, PGSIZE)] between pages of the kernel. *)
Definition copy_page (dst src : Z) (m : gmap Z Z) : gmap Z Z :=
  foldr (fun i m' => <[dst + 4 * i := word m (src + 4 * i)]> m') m (seqZ 0 1024).

Definition memmove_page (dst src : Z) : K unit :=
  if kaddr_ok dst && kaddr_ok src then
    modify (fun k => k <| pmem ::= copy_page (V2P dst) (V2P src) |>)
  else fault.

(** ** Through a page table *)

(** The processor's walk: the physical address and the flags both levels grant. *)
Definition translate (m : gmap Z Z) (dir va : Z) : option (Z * Z) :=
  let pde := word m (dir + 4 * PDX va) in
  if Z.land pde PTE_P =? 0 then None
  else
    let pte := word m (PTE_ADDR pde + 4 * PTX va) in
    if Z.land pte PTE_P =? 0 then None
    else Some (PTE_ADDR pte + va mod PGSIZE, Z.land (PTE_FLAGS pde) (PTE_FLAGS pte)).

(** Byte [pa mod 4] of the word that holds it. *)
Definition byte_of (w pa : Z) : Z := Z.land (Z.shiftr w (8 * (pa mod 4))) 0xFF.
Definition set_byte (w pa b : Z) : Z :=
  Z.lor (Z.ldiff w (Z.shiftl 0xFF (8 * (pa mod 4)))) (Z.shiftl (u8 b) (8 * (pa mod 4))).
Definition aligned (pa : Z) : Z := pa - pa mod 4.

Definition pload8 (m : gmap Z Z) (pa : Z) : Z := byte_of (word m (aligned pa)) pa.
Definition pstore8 (m : gmap Z Z) (pa b : Z) : gmap Z Z :=
  <[aligned pa := set_byte (word m (aligned pa)) pa b]> m.

(** A kernel-mode access: any present page can be read; a store needs a
    writable one ([entry.S] sets [CR0_WP]). *)
Definition vload8 (va : Z) : K Z :=
  let! k := gets id in
  match translate (pmem k) (cr3 k) (u32 va) with
  | Some (pa, _) => ret (pload8 (pmem k) pa)
  | None => fault
  end.

Definition vstore8 (va b : Z) : K unit :=
  let! k := gets id in
  match translate (pmem k) (cr3 k) (u32 va) with
  | Some (pa, fl) =>
      if Z.land fl PTE_W =? 0 then fault
      else modify (fun k => k <| pmem := pstore8 (pmem k) pa b |>)
  | None => fault
  end.

#[export] Instance kernel_mem : ByteMem kernel := { load8 := vload8; store8 := vstore8 }.

(** Word access through the page table, for aligned user addresses. *)
Definition vload32 (va : Z) : K Z :=
  let! b0 := vload8 va in
  let! b1 := vload8 (va + 1) in
  let! b2 := vload8 (va + 2) in
  let! b3 := vload8 (va + 3) in
  ret (b0 + 256 * b1 + 65536 * b2 + 16777216 * b3).

(** Reading and writing a run of bytes. *)
Fixpoint vload (va : Z) (n : nat) : K (list Z) :=
  match n with
  | O => ret []
  | S n' => let! b := vload8 va in let! l := vload (va + 1) n' in ret (b :: l)
  end.

Fixpoint vstore (va : Z) (l : list Z) : K unit :=
  match l with
  | [] => ret tt
  | b :: l' => do! vstore8 va b in vstore (va + 1) l'
  end.
