(* ===== verification/Kalloc.v ===== *)
(** * Physical page allocator

    [src/kalloc.c].  The free pages are linked through their first word:
    [kernel.freelist] holds the address of the first, and each page the address
    of the next.  [free_pages k l] says that the chain in memory is exactly the
    list [l]; the theorems show that [kalloc] and [kfree] are pop and push on that
    list, and that [freerange] makes it of every whole page of a range. *)

From S2P Require Import Prelude CString Headers Spinlock Mem.

(** ** Operations *)

Definition kfree (v : Z) : K unit :=
  let! kend := gets kernel_end in
  if negb (v mod PGSIZE =? 0) || (v <? kend) || (PHYSTOP <=? V2P v) then panic "kfree"
  else
    do! memset_page v 1 in
    let! ul := gets use_lock in
    do! when (negb (ul =? 0)) (acquire Lkmem) in
    let! fl := gets freelist in
    do! kwrite v fl in
    do! modify (fun k => k <| freelist := v |>) in
    let! ul := gets use_lock in
    when (negb (ul =? 0)) (release Lkmem).

Definition kalloc : K Z :=
  let! ul := gets use_lock in
  do! when (negb (ul =? 0)) (acquire Lkmem) in
  let! r := gets freelist in
  do! when (negb (r =? 0)) (
    let! next := kread r in
    modify (fun k => k <| freelist := next |>)) in
  let! ul := gets use_lock in
  do! when (negb (ul =? 0)) (release Lkmem) in
  ret r.

(** [for (; p + PGSIZE <= vend; p += PGSIZE) kfree(p)] visits these pages. *)
Definition range_pages (vstart vend : Z) : list Z :=
  let p := PGROUNDUP vstart in
  (fun i => p + PGSIZE * i) <$> seqZ 0 (if p <=? vend then (vend - p) / PGSIZE else 0).

Definition freerange (vstart vend : Z) : K unit := foreach (range_pages vstart vend) kfree.

Definition kinit1 (vstart vend : Z) : K unit :=
  do! modify (fun k => k <| use_lock := 0 |>) in
  freerange vstart vend.

Definition kinit2 (vstart vend : Z) : K unit :=
  do! freerange vstart vend in
  modify (fun k => k <| use_lock := 1 |>).

(** ** The free list *)

Definition page_ok (k : kernel) (p : Z) : Prop :=
  p mod PGSIZE = 0 /\ kernel_end k <= p /\ KERNBASE <= p < KERNBASE + PHYSTOP.

(** From address [v] on, the chain of [next] pointers in memory is [l]. *)
Fixpoint chain (m : gmap Z Z) (v : Z) (l : list Z) : Prop :=
  match l with
  | [] => v = 0
  | p :: l' => v = p /\ chain m (word m (V2P p)) l'
  end.

Record free_pages (k : kernel) (l : list Z) : Prop := {
  fp_chain : chain (pmem k) (freelist k) l;
  fp_nodup : NoDup l;
  fp_ok : Forall (page_ok k) l }.

(** [a] is an address of the page at virtual address [p]. *)
Definition in_page (p a : Z) : Prop := V2P p <= a < V2P p + PGSIZE.

Lemma V2P_small p : KERNBASE <= p < KERNBASE + PHYSTOP -> V2P p = p - KERNBASE.
Proof. unfold V2P, KERNBASE, PHYSTOP. intros. apply u32_small. lia. Qed.

Lemma page_kaddr_ok k p : page_ok k p -> kaddr_ok p = true.
Proof.
  intros (Ha & _ & Hb & Hc). unfold kaddr_ok.
  rewrite (proj2 (Z.leb_le _ _) Hb), (proj2 (Z.ltb_lt _ _) Hc). cbn. apply Z.eqb_eq.
  unfold PGSIZE in Ha. apply Z.mod_divide in Ha as [q ->]; [|lia].
  replace (q * 4096) with (q * 1024 * 4) by lia. by rewrite Z.mod_mul.
Qed.

Lemma pages_apart k p q a : page_ok k p -> page_ok k q -> p <> q -> in_page p a -> ~ in_page q a.
Proof.
  intros (Hp & _ & Hp') (Hq & _ & Hq') Hne. unfold in_page. rewrite !V2P_small by done.
  unfold PGSIZE in *. apply Z.mod_divide in Hp as [x ->]; [|lia]. apply Z.mod_divide in Hq as [y ->]; [|lia].
  intros ? ?. lia.
Qed.

Lemma elem_of_page_words pa a :
  a ∈ page_words pa <-> exists i, 0 <= i < 1024 /\ a = pa + 4 * i.
Proof.
  unfold page_words. rewrite list_elem_of_fmap. split.
  - intros (i & -> & Hi%elem_of_seqZ). exists i. split; [lia|done].
  - intros (i & Hi & ->). exists i. split; [done|]. apply elem_of_seqZ. lia.
Qed.

Lemma fill_page_lookup pa w m a :
  fill_page pa w m !! a = if decide (a ∈ page_words pa) then Some w else m !! a.
Proof.
  unfold fill_page. induction (page_words pa) as [|x l IH]; [done|]. cbn [foldr].
  destruct (decide (a = x)) as [->|Hne].
  - rewrite lookup_insert_eq, decide_True by (by left). done.
  - rewrite lookup_insert_ne by done. rewrite IH.
    destruct (decide (a ∈ l)); [rewrite decide_True by (by right)|rewrite decide_False by set_solver]; done.
Qed.

Lemma fill_page_out p w m a : ~ in_page p a -> fill_page (V2P p) w m !! a = m !! a.
Proof.
  intros Ha. rewrite fill_page_lookup, decide_False; [done|].
  intros (i & Hi & ->)%elem_of_page_words. apply Ha. unfold in_page, PGSIZE. lia.
Qed.

(** The chain only depends on the first words of its pages. *)
Lemma chain_ext m m' v l :
  (forall p, p ∈ l -> m !! V2P p = m' !! V2P p) -> chain m v l -> chain m' v l.
Proof.
  revert v. induction l as [|p l IH]; intros v Hm; [done|]. intros [-> Hc]. split; [done|].
  unfold word. rewrite <- Hm by (by left). apply IH; [|done]. intros q ?. apply Hm. by right.
Qed.

(** Both entry points take the lock when [use_lock] says so. *)
Definition kmem_locked (k : kernel) : list lock :=
  if use_lock k =? 0 then held k else Lkmem :: held k.

Lemma wp_kmem_acquire (Q : unit -> kernel -> Prop) k :
  Lkmem ∉ held k -> Q tt (k <| held := kmem_locked k |>) ->
  wp (when (negb (use_lock k =? 0)) (acquire Lkmem)) Q k.
Proof.
  unfold kmem_locked. intros Hh HQ. apply wp_when; intros E; destruct (use_lock k =? 0); try done.
  - by apply wp_acquire.
  - replace k with (k <| held := held k |>); [done|]. by kernel_eq.
Qed.

Lemma wp_kmem_release (Q : unit -> kernel -> Prop) k k0 :
  held k = kmem_locked k0 -> use_lock k = use_lock k0 -> Q tt (k <| held := held k0 |>) ->
  wp (when (negb (use_lock k =? 0)) (release Lkmem)) Q k.
Proof.
  unfold kmem_locked. intros Hh Hu HQ. rewrite Hu in *. apply wp_when; intros E; destruct (use_lock k0 =? 0); try done.
  - apply wp_release; [rewrite Hh; by left|].
    replace (k <| held ::= remove_lock Lkmem |>) with (k <| held := held k0 |>); [done|].
    kernel_eq. by rewrite Hh, remove_lock_head.
  - replace k with (k <| held := held k0 |>); [done|]. by kernel_eq.
Qed.

Lemma wp_kread va (Q : Z -> kernel -> Prop) k :
  kaddr_ok va = true -> Q (word (pmem k) (V2P va)) k -> wp (kread va) Q k.
Proof. unfold kread. by intros ->. Qed.

Lemma wp_kwrite va w (Q : unit -> kernel -> Prop) k :
  kaddr_ok va = true -> Q tt (k <| pmem ::= <[V2P va := w]> |>) -> wp (kwrite va w) Q k.
Proof. unfold kwrite. by intros ->. Qed.

Lemma page_ok_ext k k' p : kernel_end k' = kernel_end k -> page_ok k p -> page_ok k' p.
Proof. unfold page_ok. by intros ->. Qed.

(** [kalloc] pops the free list.  It returns 0 exactly when no page is free,
    and otherwise the first free page, which leaves the list; memory is not
    touched. *)
Lemma kalloc_pops k l :
  free_pages k l -> Lkmem ∉ held k ->
  match l with
  | [] => kalloc k = Ret 0 k
  | p :: l' => exists k', kalloc k = Ret p k' /\ k' = k <| freelist := freelist k' |> /\
      free_pages k' l' /\ page_ok k p /\ p ∉ l'
  end.
Proof.
  intros [Hc Hn Hok] Hh.
  enough (wp kalloc (fun r k' => k' = k <| freelist := freelist k' |> /\ r = freelist k /\
     freelist k' = if freelist k =? 0 then 0 else word (pmem k) (V2P (freelist k))) k) as (r & k' & Hr & Hk & -> & Hf)%wp_run.
  { destruct l as [|p l'].
    - cbn in Hc. rewrite Hc in Hr, Hf. rewrite Hr, Hk, Hf. f_equal. kernel_eq. done.
    - destruct Hc as [Hp Hc]. apply NoDup_cons in Hn as [Hn1 Hn2]. apply Forall_cons in Hok as [Ho1 Ho2].
      rewrite Hp in *. exists k'. split_and!; try done. rewrite Hk. split; cbn; try done.
      rewrite Hf. destruct (Z.eqb_spec p 0) as [->|]; [|done]. destruct Ho1 as (_ & _ & ? & _). by unfold KERNBASE in *. }
  unfold kalloc. apply wp_bind, wp_gets, wp_bind, wp_kmem_acquire; [done|]. set (k1 := k <| held := _ |>).
  apply wp_bind, wp_gets, wp_bind, wp_when; intros E; change (freelist k1) with (freelist k) in *.
  - apply wp_bind, wp_kread.
    { destruct l as [|p l']; cbn in Hc; [rewrite Hc in E; done|]. destruct Hc as [-> _].
      apply Forall_cons in Hok as [Ho1 _]. by eapply page_kaddr_ok. }
    apply wp_modify, wp_bind, wp_gets. apply wp_bind, (wp_kmem_release _ _ k); [done..|]. apply wp_ret.
    destruct (freelist k =? 0); [done|]. split_and!; [by kernel_eq|done..].
  - apply wp_bind, wp_gets. apply wp_bind, (wp_kmem_release _ _ k); [done..|]. apply wp_ret.
    destruct (Z.eqb_spec (freelist k) 0) as [E0|]; [|done]. split_and!; [by kernel_eq|done..].
Qed.

(** [kfree] pushes on the free list.  Given a page of the allocator that is not
    free already, it becomes the first free page; memory changes only within
    that page, whose other words are overwritten with the junk pattern. *)
Lemma kfree_pushes k l p :
  free_pages k l -> Lkmem ∉ held k -> page_ok k p -> p ∉ l ->
  exists k', kfree p k = Ret tt k' /\ k' = k <| freelist := p |> <| pmem := pmem k' |> /\
    free_pages k' (p :: l) /\ (forall a, ~ in_page p a -> pmem k' !! a = pmem k !! a) /\
    (forall i, 0 < i < 1024 -> pmem k' !! (V2P p + 4 * i) = Some 0x01010101).
Proof.
  intros [Hc Hn Hok] Hh Hp Hpl. set (m' := <[V2P p := freelist k]> (fill_page (V2P p) 0x01010101 (pmem k))).
  enough (wp (kfree p) (fun _ k' => k' = k <| freelist := p |> <| pmem := m' |>) k)
    as ([] & k' & Hr & ->)%wp_run.
  { eexists. split; [done|]. split; [done|].
    assert (Hout : forall a, ~ in_page p a -> m' !! a = pmem k !! a).
    { intros a Ha. unfold m'. rewrite lookup_insert_ne, fill_page_out; [done..|].
      intros <-. apply Ha. unfold in_page, PGSIZE. lia. }
    split; [split|split]; cbn.
    - split; [done|]. unfold word, m'. rewrite lookup_insert_eq. fold m'. cbn.
      eapply chain_ext; [|done]. intros q Hq. symmetry. apply Hout.
      assert (Hq' : page_ok k q) by (by eapply Forall_forall in Hok).
      eapply (pages_apart k q p); try done; [by intros ->|]. unfold in_page, PGSIZE. lia.
    - by apply NoDup_cons.
    - apply Forall_cons. split; [by eapply page_ok_ext|]. eapply Forall_impl; [done|]. intros q. by apply page_ok_ext.
    - done.
    - intros i Hi. unfold m'. rewrite lookup_insert_ne by lia. rewrite fill_page_lookup, decide_True; [done|].
      apply elem_of_page_words. exists i. split; [lia|done]. }
  unfold kfree. apply wp_bind, wp_gets.
  assert (Hka := page_kaddr_ok _ _ Hp). destruct Hp as (Ha & He & Hb).
  rewrite Ha, (proj2 (Z.ltb_ge _ _) He), V2P_small, (proj2 (Z.leb_gt _ _)) by lia. cbn [negb orb Z.eqb].
  apply wp_bind. unfold memset_page. rewrite Hka, Ha. cbn [andb Z.eqb]. apply wp_modify.
  apply wp_bind, wp_gets, wp_bind, wp_kmem_acquire; [done|]. apply wp_bind, wp_gets, wp_bind, wp_kwrite; [done|].
  apply wp_bind, wp_modify, wp_bind, wp_gets. apply (wp_kmem_release _ _ k); [done..|].
  by kernel_eq.
Qed.

(** Any other address is refused. *)
Lemma kfree_refuses k p :
  KERNBASE <= kernel_end k -> 0 <= p < 2 ^ 32 -> ~ page_ok k p -> kfree p k = Panic "kfree" k.
Proof.
  intros Hend Hr Hp. unfold kfree. rewrite bind_gets.
  destruct (negb _ || _ || _) eqn:E; [done|]. exfalso. apply Hp.
  apply orb_false_iff in E as [[E1%negb_false_iff E2]%orb_false_iff E3].
  unfold page_ok. split; [lia|]. split; [lia|]. split; [lia|].
  destruct (decide (p < KERNBASE + PHYSTOP)); [done|]. unfold V2P in E3.
  rewrite u32_small in E3; unfold KERNBASE, PHYSTOP in *; lia.
Qed.

(** ** The allocator as a stack of pages *)

Inductive alloc_op := OpAlloc | OpFree (p : Z).

(** What the operations mean on the list of free pages. *)
Definition spec_op (o : alloc_op) (l : list Z) : Z * list Z :=
  match o, l with
  | OpAlloc, [] => (0, [])
  | OpAlloc, p :: l' => (p, l')
  | OpFree p, _ => (0, p :: l)
  end.

Definition run_op (o : alloc_op) : K Z :=
  match o with OpAlloc => kalloc | OpFree p => do! kfree p in ret 0 end.

(** What a client may do: free only pages of the allocator that are in use. *)
Definition op_ok (k : kernel) (o : alloc_op) (l : list Z) : Prop :=
  match o with OpAlloc => True | OpFree p => page_ok k p /\ p ∉ l end.

Fixpoint spec_ops (os : list alloc_op) (l : list Z) : list Z * list Z :=
  match os with
  | [] => ([], l)
  | o :: os' => let '(r, l') := spec_op o l in
                let '(rs, l'') := spec_ops os' l' in (r :: rs, l'')
  end.

Fixpoint ops_ok (k : kernel) (os : list alloc_op) (l : list Z) : Prop :=
  match os with
  | [] => True
  | o :: os' => op_ok k o l /\ ops_ok k os' (spec_op o l).2
  end.

Fixpoint run_ops (os : list alloc_op) : K (list Z) :=
  match os with
  | [] => ret []
  | o :: os' => let! r := run_op o in let! rs := run_ops os' in ret (r :: rs)
  end.

(** One operation, in the form the simulation needs. *)
Lemma run_op_simulates o k l :
  free_pages k l -> Lkmem ∉ held k -> op_ok k o l ->
  exists k', run_op o k = Ret (spec_op o l).1 k' /\ free_pages k' (spec_op o l).2 /\
    held k' = held k /\ kernel_end k' = kernel_end k.
Proof.
  intros Hf Hh Ho. destruct o as [|p]; cbn [run_op spec_op].
  - pose proof (kalloc_pops k l Hf Hh) as Hp. destruct l as [|p l'].
    + by exists k.
    + destruct Hp as (k' & ? & Hk & ? & _). exists k'. split_and!; [done..|by rewrite Hk|by rewrite Hk].
  - destruct Ho as [Hok Hnl]. destruct (kfree_pushes k l p Hf Hh Hok Hnl) as (k' & Hr & Hk & Hf' & _).
    exists k'. rewrite (bind_run _ _ _ _ _ Hr). split_and!; [done..|by rewrite Hk|by rewrite Hk].
Qed.

Lemma ops_ok_ext k k' os : forall l, kernel_end k' = kernel_end k -> ops_ok k os l -> ops_ok k' os l.
Proof.
  induction os as [|o os IH]; intros l He; [done|]. cbn. intros [Ho Hos]. split; [|by apply IH].
  destruct o as [|p]; [done|]. destruct Ho. split; [by eapply page_ok_ext|done].
Qed.

(** C9: the page allocator implements a stack of free pages.  Any sequence of
    [kalloc] and [kfree] calls in which only pages in use are freed returns
    exactly what the stack would return (0 when it is empty), and ends with the
    chain of free pages in memory equal to the stack: no page is lost, handed
    out twice, or linked twice. *)
Theorem allocator_refines_stack k l os :
  free_pages k l -> Lkmem ∉ held k -> ops_ok k os l ->
  exists k', run_ops os k = Ret (spec_ops os l).1 k' /\ free_pages k' (spec_ops os l).2.
Proof.
  revert k l. induction os as [|o os IH]; intros k l Hf Hh Hos; [by exists k|].
  destruct Hos as [Ho Hos]. destruct (run_op_simulates o k l Hf Hh Ho) as (k1 & Hr & Hf1 & Hh1 & He1).
  destruct (IH k1 (spec_op o l).2) as (k' & Hr' & Hf'); [done|by rewrite Hh1|by eapply ops_ok_ext|].
  exists k'. cbn [run_ops spec_ops]. rewrite (bind_run _ _ _ _ _ Hr), (bind_run _ _ _ _ _ Hr').
  destruct (spec_op o l), (spec_ops os _). done.
Qed.

(** ** Initialisation *)

Lemma freerange_loop k l ps :
  free_pages k l -> Lkmem ∉ held k -> Forall (page_ok k) ps -> NoDup ps -> (forall p, p ∈ ps -> p ∉ l) ->
  exists k', foreach ps kfree k = Ret tt k' /\ free_pages k' (reverse ps ++ l) /\ held k' = held k /\
    kernel_end k' = kernel_end k /\ k' = k <| freelist := freelist k' |> <| pmem := pmem k' |>.
Proof.
  revert k l. induction ps as [|p ps IH]; intros k l Hf Hh Hok Hnd Hd; [exists k; split_and!; try done; by kernel_eq|].
  apply Forall_cons in Hok as [Ho Hok]. apply NoDup_cons in Hnd as [Hn Hnd].
  destruct (kfree_pushes k l p Hf Hh Ho) as (k1 & Hr & Hk1 & Hf1 & _); [apply Hd; by left|].
  assert (He : kernel_end k1 = kernel_end k) by (by rewrite Hk1).
  assert (Hhe : held k1 = held k) by (by rewrite Hk1).
  destruct (IH k1 (p :: l)) as (k' & Hr' & Hf' & Hh' & He' & Hk'); try done.
  - by rewrite Hhe.
  - eapply Forall_impl; [done|]. intros q. by apply page_ok_ext.
  - intros q Hq. rewrite elem_of_cons. intros [->|]; [done|]. by eapply Hd; [right|].
  - exists k'. cbn [foreach]. rewrite (bind_run _ _ _ _ _ Hr), Hr', reverse_cons, <- app_assoc. split_and!; [done..|by rewrite Hh'|by rewrite He'|].
    rewrite Hk', Hk1. by kernel_eq.
Qed.

Lemma PGROUNDUP_spec v : 0 <= v <= 2 ^ 32 - PGSIZE ->
  PGROUNDUP v mod PGSIZE = 0 /\ v <= PGROUNDUP v < v + PGSIZE.
Proof.
  intros Hv. unfold PGROUNDUP, PGSIZE in *.
  assert (E : Z.land (u32 (v + 4096 - 1)) (u32 (Z.lnot (4096 - 1))) = (v + 4095) / 4096 * 4096).
  { rewrite u32_small by lia. change (u32 (Z.lnot (4096 - 1))) with (Z.ldiff (Z.ones 32) (Z.ones 12)).
    replace (v + 4096 - 1) with (v + 4095) by lia.
    trans (Z.ldiff (v + 4095) (Z.ones 12)).
    2: { by rewrite Z.ldiff_ones_r, Z.shiftl_mul_pow2, Z.shiftr_div_pow2 by lia. }
    apply Z.bits_inj'. intros n Hn.
    rewrite Z.land_spec, !Z.ldiff_spec, !Z.testbit_ones_nonneg by lia.
    destruct (Z.ltb_spec n 32); cbn; [done|].
    destruct (Z.ltb_spec n 12); cbn; rewrite ?andb_false_r, ?andb_true_r; [done|].
    destruct (decide (v + 4095 = 0)); [lia|]. symmetry. apply Z.bits_above_log2; [lia|].
    apply Z.log2_lt_pow2; [lia|]. apply Z.lt_le_trans with (2 ^ 32); [lia|]. apply Z.pow_le_mono_r; lia. }
  rewrite E. split; [by apply Z.mod_mul|]. pose proof (Z.div_mod (v + 4095) 4096 ltac:(lia)).
  pose proof (Z.mod_pos_bound (v + 4095) 4096 ltac:(lia)). lia.
Qed.

(** Initialisation frees every whole page of its range, once.  From an
    empty free list, [freerange] over a range of the kernel's map of physical memory
    above the kernel image leaves free exactly the aligned pages that lie
    wholly inside the range. *)
Theorem freerange_frees_range k vstart vend :
  free_pages k [] -> Lkmem ∉ held k ->
  KERNBASE <= vstart -> kernel_end k <= vstart -> vstart <= vend <= KERNBASE + PHYSTOP ->
  exists k' l, freerange vstart vend k = Ret tt k' /\ free_pages k' l /\
    forall p, p ∈ l <-> p mod PGSIZE = 0 /\ vstart <= p /\ p + PGSIZE <= vend.
Proof.
  intros Hf Hh Hs He Hv.
  destruct (PGROUNDUP_spec vstart) as [Hal Hup]; [unfold KERNBASE, PHYSTOP, PGSIZE in *; lia|].
  assert (Hmem : forall p, p ∈ range_pages vstart vend <->
    p mod PGSIZE = 0 /\ vstart <= p /\ p + PGSIZE <= vend).
  { intros p. unfold range_pages. rewrite list_elem_of_fmap. setoid_rewrite elem_of_seqZ.
    revert Hal Hup. generalize (PGROUNDUP vstart). unfold PGSIZE. intros u Hal Hup.
    apply Z.mod_divide in Hal as [x ->]; [|lia]. split.
    - intros (i & -> & Hi). destruct (Z.leb_spec (x * 4096) vend); [|lia].
      pose proof (Z.mul_div_le (vend - x * 4096) 4096 ltac:(lia)).
      replace (x * 4096 + 4096 * i) with ((x + i) * 4096) by lia. rewrite Z.mod_mul by lia. lia.
    - intros (Hp & Hlo & Hhi). apply Z.mod_divide in Hp as [y ->]; [|lia]. exists (y - x).
      destruct (Z.leb_spec (x * 4096) vend); [|lia]. split; [lia|]. split; [lia|].
      apply Z.lt_le_trans with (y - x + 1); [lia|]. rewrite Z.add_0_l. apply Z.div_le_lower_bound; lia. }
  destruct (freerange_loop k [] (range_pages vstart vend)) as (k' & Hr & Hf' & _); try done.
  - apply Forall_forall. intros p (H1 & H2 & H3)%Hmem. unfold page_ok, PGSIZE in *. lia.
  - apply NoDup_fmap_2; [intros i j; unfold PGSIZE; lia|]. apply NoDup_seqZ.
  - intros p _. by apply not_elem_of_nil.
  - exists k', (reverse (range_pages vstart vend) ++ []). split_and!; [done..|].
    intros p. rewrite app_nil_r, <- Hmem. apply elem_of_reverse.
Qed.

(** ** Three pages of a small machine *)

Definition demo_pages : list Z := [0x80400000; 0x80401000; 0x80402000].

Definition demo_alloc : kernel :=
  zero_kernel <| freelist := 0x80400000 |>
    <| pmem := {[ 0x400000 := 0x80401000; 0x401000 := 0x80402000 ]} |>.

Lemma demo_alloc_free : free_pages demo_alloc demo_pages.
Proof.
  split; [done|apply (bool_decide_unpack _); by vm_compute|].
  repeat (apply Forall_cons; split; [unfold page_ok; by vm_compute|]). by apply Forall_nil.
Qed.

Lemma allocator_refines_stack_witness :
  exists k', run_ops [OpAlloc; OpAlloc; OpFree 0x80400000; OpAlloc] demo_alloc
    = Ret [0x80400000; 0x80401000; 0; 0x80400000] k' /\ free_pages k' [0x80402000].
Proof.
  apply (allocator_refines_stack demo_alloc demo_pages [OpAlloc; OpAlloc; OpFree 0x80400000; OpAlloc]);
    [apply demo_alloc_free|by apply not_elem_of_nil|].
  cbn. split; [done|]. split; [done|]. split; [|by split].
  split; [unfold page_ok; by vm_compute|]. apply (bool_decide_unpack _). by vm_compute.
Defined.

Lemma freerange_frees_range_witness :
  exists k' l, freerange 0x80400010 0x80403fff zero_kernel = Ret tt k' /\ free_pages k' l /\
    0x80401000 ∈ l /\ 0x80400000 ∉ l.
Proof.
  destruct (freerange_frees_range zero_kernel 0x80400010 0x80403fff) as (k' & l & Hr & Hf & Hl).
  - split; [done|by apply NoDup_nil|by apply Forall_nil].
  - by apply not_elem_of_nil.
  - done.
  - done.
  - done.
  - exists k', l. split_and!; [done..|apply Hl; split_and!; by vm_compute|].
    intros (_ & H & _)%Hl. lia.
Defined.
