(* ===== verification/Mutex.v ===== *)
(** * Mutexes and condition variables

    Module 3 of [src/proc.c]: the table of [MUX_MAXNUM] user mutexes, each with a
    condition variable whose waiters are kept in an array in arrival order.
    [pid] and [proc_mutexes] are unsigned in the source and are compared with
    ints: [-1] is stored as [u32 (-1)]. *)

From S2P Require Import Prelude CString Headers Spinlock Ring Sched Mem.

(** ** Operations *)

Definition mutex_at (i : Z) : K mutex := let! ms := gets mutexes in ofopt (zget ms i).
Definition upd_mutex (i : Z) (f : mutex -> mutex) : K unit :=
  let! m := mutex_at i in
  modify (fun k => k <| mutexes ::= <[Z.to_nat i := f m]> |>).

Definition mutex_init : K unit :=
  do! initlock Lmutex_table in
  foreach (Z.of_nat <$> seq 0 MUX_MAXNUM) (fun i =>
    do! upd_mutex i (fun m => m <| locked := 0 |> <| used := 0 |> <| muxid := i |>
      <| mpid := u32 (-1) |> <| nameSpace := 0 |> <| num_waiters := 0 |>) in
    do! upd_mutex i (fun m => m <| waiters := replicate MUX_MAXNUM (-1) |>) in
    do! initlock (Lmutex (Z.to_nat i)) in
    initlock (Lcv (Z.to_nat i))).

(** [name] is a pointer: [sizeof(name)] is 4. *)
Definition mutex_create (name : Z) : K Z :=
  do! acquire Lmutex_table in
  let! r := first_of (seq 0 MUX_MAXNUM) (fun n =>
    let i := Z.of_nat n in
    let! m := mutex_at i in
    if used m =? 0 then
      do! upd_mutex i (fun m => m <| used := 1 |>) in
      let! _ := strncpy (mux_name m) name 4 in
      let! me := mycur in
      let! p := proc_at me in
      do! upd_mutex i (fun m => m <| nameSpace := namespace p |>) in
      do! release Lmutex_table in
      ret (Some i)
    else ret None) in
  match r with
  | Some i => ret i
  | None => do! release Lmutex_table in ret (-1)
  end.

Definition mutex_delete (muxid : Z) : K Z :=
  if (Z.of_nat MUX_MAXNUM <? muxid) || (muxid <? 0) then ret (-2)
  else
    do! acquire Lmutex_table in
    let! m := mutex_at muxid in
    if used m =? 0 then do! release Lmutex_table in ret (-1)
    else if negb (locked m =? 0) then do! release Lmutex_table in ret (-3)
    else if 0 <? num_waiters m then ret (-4)
    else
      do! upd_mutex muxid (fun m => m <| locked := 0 |>) in
      do! upd_mutex muxid (fun m => m <| used := 0 |>) in
      do! release Lmutex_table in
      ret 1.

(** The loops over [proc_mutexes]: the first entry equal to [x] becomes [y]. *)
Fixpoint replace_first (x y : Z) (l : list Z) : list Z :=
  match l with
  | [] => []
  | a :: l' => if a =? x then y :: l' else a :: replace_first x y l'
  end.

(** What a process does once it has the mutex. *)
Definition mutex_own (muxid : Z) (me : nat) (pid : Z) : K unit :=
  do! upd_mutex muxid (fun m => m <| locked := 1 |>) in
  do! upd_mutex muxid (fun m => m <| mpid := u32 pid |>) in
  upd_proc me (fun p => p <| proc_mutexes ::= replace_first (u32 (-1)) (u32 muxid) |>).

(** [while (mutex->locked != 0) sleep(mutex, &mutex->lock)], [fuel] bounding the
    number of times the process can be woken and find the mutex taken. *)
Definition mutex_wait (fuel : nat) (muxid : Z) : K unit :=
  loop fuel (fun _ : unit =>
    let! m := mutex_at muxid in
    if negb (locked m =? 0) then
      do! sleep (Cmutex (Z.to_nat muxid)) (Lmutex (Z.to_nat muxid)) in ret (inl tt)
    else ret (inr tt)) tt.

Definition mutex_lock (fuel : nat) (muxid : Z) : K Z :=
  if (muxid <? 0) || (Z.of_nat MUX_MAXNUM <? muxid) then ret (-1)
  else
    let! m := mutex_at muxid in
    let! me := mycur in
    if used m =? 0 then ret (-1)
    else
      let! p := proc_at me in
      if negb (nameSpace m =? namespace p) then ret (-2)
      else if mpid m =? u32 (pid p) then ret (-3)
      else
        do! acquire (Lmutex (Z.to_nat muxid)) in
        do! mutex_wait fuel muxid in
        let! p := proc_at me in
        do! mutex_own muxid me (pid p) in
        do! release (Lmutex (Z.to_nat muxid)) in
        ret 1.

Definition mutex_unlock (muxid : Z) : K Z :=
  if (muxid <? 0) || (Z.of_nat MUX_MAXNUM <? muxid) then ret (-1)
  else
    do! acquire (Lmutex (Z.to_nat muxid)) in
    let! m := mutex_at muxid in
    if used m =? 0 then do! release (Lmutex (Z.to_nat muxid)) in ret (-1)
    else
      let! me := mycur in
      let! p := proc_at me in
      if negb (mpid m =? u32 (pid p)) then do! release (Lmutex (Z.to_nat muxid)) in ret (-1)
      else
        do! upd_proc me (fun p => p <| proc_mutexes ::= replace_first (u32 muxid) (u32 (-1)) |>) in
        do! upd_mutex muxid (fun m => m <| locked := 0 |>) in
        do! upd_mutex muxid (fun m => m <| mpid := u32 (-1) |>) in
        do! release (Lmutex (Z.to_nat muxid)) in
        do! wakeup (Cmutex (Z.to_nat muxid)) in
        ret 1.

Definition cv_wait (muxid : Z) : K Z :=
  if (muxid <? 0) || (Z.of_nat MUX_MAXNUM <? muxid) then ret (-1)
  else
    let! me := mycur in
    let! p := proc_at me in
    do! acquire (Lmutex (Z.to_nat muxid)) in
    do! acquire Lptable in
    let! m := mutex_at muxid in
    if used m =? 0 then
      do! release Lptable in
      do! release (Lmutex (Z.to_nat muxid)) in
      ret (-1)
    else if mpid m =? u32 (pid p) then
      do! release Lptable in
      do! release (Lmutex (Z.to_nat muxid)) in
      ret (-3)
    else if num_waiters m =? Z.of_nat MUX_MAXNUM then ret (-1)
    else
      let! w := ofopt (zset (waiters m) (num_waiters m) (pid p)) in
      do! upd_mutex muxid (fun m => m <| num_waiters := num_waiters m + 1 |> <| waiters := w |>) in
      do! upd_proc me (fun p => p <| state := SLEEPING |>) in
      do! release (Lmutex (Z.to_nat muxid)) in
      do! sched in
      do! acquire (Lmutex (Z.to_nat muxid)) in
      do! mutex_own muxid me (pid p) in
      do! release (Lmutex (Z.to_nat muxid)) in
      do! release Lptable in
      ret 1.

(** [for (i = 0; i < num_waiters-1; i++) waiters[i] = waiters[i+1]] *)
Definition shift_waiters (muxid : Z) (n : Z) : K unit :=
  foreach (seq 0 (Z.to_nat n)) (fun i =>
    let! m := mutex_at muxid in
    let! x := ofopt (zget (waiters m) (Z.of_nat i + 1)) in
    let! w := ofopt (zset (waiters m) (Z.of_nat i) x) in
    upd_mutex muxid (fun m => m <| waiters := w |>)).

Definition cv_signal (muxid : Z) : K Z :=
  if (muxid <? 0) || (Z.of_nat MUX_MAXNUM <? muxid) then ret (-1)
  else
    do! acquire (Lcv (Z.to_nat muxid)) in
    do! acquire Lptable in
    let! m := mutex_at muxid in
    if num_waiters m =? 0 then
      do! release Lptable in
      do! release (Lcv (Z.to_nat muxid)) in
      ret 0
    else
      let! wseq_wakeup := ofopt (zget (waiters m) 0) in
      do! shift_waiters muxid (num_waiters m - 1) in
      do! upd_mutex muxid (fun m => m <| num_waiters := num_waiters m - 1 |>) in
      let! _ := first_of (seq 0 NPROC) (fun i =>
        let! p := proc_at i in
        if (pid p =? wseq_wakeup) && bool_decide (state p = SLEEPING) then
          do! upd_proc i (fun p => p <| state := RUNNABLE |>) in
          let! _ := fp_enqueue i in
          ret (Some tt)
        else ret None) in
      do! release Lptable in
      do! release (Lcv (Z.to_nat muxid)) in
      ret 1.

(** The loop bounds are read anew at each test: the inner body decrements
    [num_waiters]. *)
Definition wseq_shift (muxid i : Z) : K unit :=
  loop (MUX_MAXNUM + 1) (fun j =>
    let! m := mutex_at muxid in
    if j <? num_waiters m - i - 1 then
      let! x := ofopt (zget (waiters m) (j + 1)) in
      let! w := ofopt (zset (waiters m) j x) in
      do! upd_mutex muxid (fun m => m <| waiters := w |>) in
      do! upd_mutex muxid (fun m => m <| num_waiters := num_waiters m - 1 |>) in
      ret (inl (j + 1))
    else ret (inr tt)) 0.

Definition wseq_remove (muxid pid : Z) : K Z :=
  let! _ := mutex_at muxid in
  do! acquire (Lcv (Z.to_nat muxid)) in
  do! acquire Lptable in
  let! m := mutex_at muxid in
  if num_waiters m =? 0 then
    do! release Lptable in
    do! release (Lcv (Z.to_nat muxid)) in
    ret 0
  else
    do! loop (MUX_MAXNUM + 1) (fun i =>
      let! m := mutex_at muxid in
      if i <? num_waiters m then
        let! x := ofopt (zget (waiters m) i) in
        do! when (x =? pid) (wseq_shift muxid i) in
        ret (inl (i + 1))
      else ret (inr tt)) 0 in
    do! release Lptable in
    do! release (Lcv (Z.to_nat muxid)) in
    ret 1.

(** ** Ownership across context switches *)

(** Mutex [i] is locked by the process whose pid is [o], and the code running is
    that of process [p], whose pid is [q]. *)
Record held_by (i : nat) (o : Z) (p : nat) (q : Z) (k : kernel) : Prop := {
  hb_cur : curproc k = Some p;
  hb_pid : exists pr, procs k !! p = Some pr /\ pid pr = q;
  hb_mux : exists m, mutexes k !! i = Some m /\ used m <> 0 /\ locked m <> 0 /\ mpid m = o }.

Section ownership.
Context (i : nat) (o : Z) (p : nat) (q : Z).
Local Abbreviation I := (held_by i o p q).

Lemma held_by_ext k k' :
  I k -> curproc k' = curproc k -> procs k' = procs k -> mutexes k' = mutexes k -> I k'.
Proof. intros [H1 H2 H3] E1 E2 E3. split; by rewrite ?E1, ?E2, ?E3. Qed.

Lemma pres_modify_ext g :
  (forall k, curproc (g k) = curproc k /\ procs (g k) = procs k /\ mutexes (g k) = mutexes k) ->
  pres I (modify g).
Proof. intros H. apply pres_modify. intros k Hk. destruct (H k) as (? & ? & ?). by eapply held_by_ext. Qed.

Lemma pres_proc_at j : pres I (proc_at j).
Proof. unfold proc_at. pres_tac. Qed.

Lemma pres_upd_proc j f : (forall pr, pid (f pr) = pid pr) -> pres I (upd_proc j f).
Proof.
  intros Hf k [H1 (pr & H2 & H3) H4]. unfold upd_proc, proc_at, keeps, bind, gets. cbn.
  destruct (procs k !! j) as [pj|] eqn:Ej; cbn; [|by split; eauto]. split; cbn; [done| |done].
  destruct (decide (j = p)) as [->|Hne].
  - rewrite list_lookup_insert_eq by (by eapply lookup_lt_Some). exists (f pj). rewrite Hf. by simplify_eq.
  - rewrite list_lookup_insert_ne by done. eauto.
Qed.

Lemma pres_mutex_at j : pres I (mutex_at j).
Proof. unfold mutex_at. pres_tac. Qed.

(** Updates of another mutex, and updates that leave the ownership fields alone. *)
Lemma pres_upd_mutex j f :
  Z.to_nat j <> i \/ (forall m, used (f m) = used m /\ locked (f m) = locked m /\ mpid (f m) = mpid m) ->
  pres I (upd_mutex j f).
Proof.
  intros Hf k Hk. unfold upd_mutex, mutex_at, keeps, bind, gets. cbn.
  destruct (zget (mutexes k) j) as [mj|] eqn:Ej; cbn; [|done]. destruct Hk as [H1 H2 (m & H3 & H4)].
  split; cbn; [done..|]. destruct (decide (Z.to_nat j = i)) as [<-|Hne].
  - apply zget_Some in Ej as [? Ej]. destruct Hf as [|Hf]; [done|]. destruct (Hf mj) as (E1 & E2 & E3).
    rewrite list_lookup_insert_eq by (by eapply lookup_lt_Some). exists (f mj). simplify_eq. by rewrite E1, E2, E3.
  - rewrite list_lookup_insert_ne by done. eauto.
Qed.

Lemma pres_acquire l : pres I (acquire l).
Proof. unfold acquire, holding. pres_tac. by apply pres_modify_ext. Qed.

Lemma pres_release l : pres I (release l).
Proof. unfold release, holding. pres_tac. by apply pres_modify_ext. Qed.

Lemma pres_swtch : pres I swtch.
Proof. intros k Hk. split; [done|]. by intros k'. Qed.
#[local] Hint Resolve pres_proc_at pres_mutex_at pres_acquire pres_release pres_swtch : pres.
#[local] Hint Extern 1 (pres _ (upd_proc _ _)) => (apply pres_upd_proc; done) : pres.
#[local] Hint Extern 1 (pres _ (modify _)) => (apply pres_modify_ext; done) : pres.
#[local] Hint Extern 1 (pres _ (upd_mutex _ _)) => (apply pres_upd_mutex; right; done) : pres.

Lemma pres_mycur : pres I mycur.
Proof. unfold mycur, myproc. pres_tac. Qed.

Lemma pres_sched : pres I sched.
Proof. unfold sched, holding, mycur, myproc. pres_tac. Qed.

Lemma pres_enqueue_at pr x : pres I (enqueue_at pr x).
Proof. unfold enqueue_at. pres_tac. Qed.
#[local] Hint Resolve pres_mycur pres_sched pres_enqueue_at : pres.

Lemma pres_fp_enqueue x : pres I (fp_enqueue x).
Proof. unfold fp_enqueue. pres_tac. Qed.

Lemma pres_hfs_enqueue x : pres I (hfs_enqueue x).
Proof. unfold hfs_enqueue. pres_tac. Qed.
#[local] Hint Resolve pres_fp_enqueue pres_hfs_enqueue : pres.

Lemma pres_sleep ch lk : pres I (sleep ch lk).
Proof. unfold sleep, myproc. pres_tac. Qed.

Lemma pres_wakeup ch : pres I (wakeup ch).
Proof. unfold wakeup, wakeup1. pres_tac. Qed.

Lemma pres_strncpy s t n : pres I (strncpy s t n).
Proof.
  assert (Hl : forall a, pres I (load8 a)) by (intros a; cbn; unfold vload8; pres_tac).
  assert (Hs : forall a b, pres I (store8 a b)) by (intros a b; cbn; unfold vstore8; pres_tac).
  assert (Hf : forall n s c, pres I (stosb s c n)).
  { clear s t n. intros n. induction n as [|n IH]; intros s c; cbn [stosb]; [apply pres_ret|].
    by apply pres_bind. }
  unfold strncpy. apply pres_bind; [|intros; apply pres_ret]. revert s t.
  induction (Z.to_nat n) as [|n' IH]; intros s t; cbn [strncpy_loop]; [apply pres_ret|].
  apply pres_bind; [done|]. intros b. apply pres_bind; [done|]. intros _.
  by destruct (b =? 0).
Qed.

Lemma pres_cv_signal j : pres I (cv_signal j).
Proof. unfold cv_signal, shift_waiters. pres_tac. Qed.

Lemma pres_wseq_remove j x : pres I (wseq_remove j x).
Proof. unfold wseq_remove, wseq_shift. pres_tac. Qed.

#[local] Hint Resolve pres_sleep pres_wakeup pres_strncpy pres_cv_signal pres_wseq_remove : pres.

(** Reading an entry of the table or of the process table. *)
Lemma keeps_mutex_at {B} j (f : mutex -> K B) Q k :
  I k -> (forall m, zget (mutexes k) j = Some m -> keeps I (f m) Q k) ->
  keeps I (bind (mutex_at j) f) Q k.
Proof.
  intros Hk Hf. unfold mutex_at, keeps, bind, gets. cbn.
  destruct (zget (mutexes k) j) eqn:E; cbn; [by apply Hf|done].
Qed.

Lemma keeps_proc_at {B} (f : proc -> K B) Q k :
  I k -> (forall pr, pid pr = q -> keeps I (f pr) Q k) -> keeps I (bind (proc_at p) f) Q k.
Proof.
  intros Hk Hf. destruct Hk as [? (pr & Hp & Hq) ?]. unfold keeps.
  rewrite (bind_run _ _ _ _ _ (proc_at_run _ _ _ Hp)). by apply Hf.
Qed.

Lemma keeps_mycur {B} (f : nat -> K B) Q k :
  I k -> keeps I (f p) Q k -> keeps I (bind mycur f) Q k.
Proof. intros Hk Hf. unfold keeps. by rewrite (bind_run _ _ _ _ _ (mycur_run _ _ (hb_cur _ _ _ _ _ Hk))). Qed.

(** The entry of the mutex itself says that it is taken. *)
Lemma held_by_entry k j m : I k -> zget (mutexes k) j = Some m -> Z.to_nat j = i ->
  used m <> 0 /\ locked m <> 0 /\ mpid m = o.
Proof. intros [_ _ (m' & Hm & H)] [_ Hz]%zget_Some <-. by simplify_eq. Qed.

Lemma pres_mutex_create name : pres I (mutex_create name).
Proof.
  unfold mutex_create. apply pres_bind; [auto with pres|]. intros _. apply pres_bind; [|intros [j|]; pres_tac].
  apply pres_first_of. intros n k Hk. set (j := Z.of_nat n). apply keeps_mutex_at; [done|]. intros m Hm.
  destruct (Z.eqb_spec (used m) 0) as [E|E]; [|done].
  assert (Z.to_nat j <> i) by (intros Hj; by destruct (held_by_entry _ _ _ Hk Hm Hj)).
  revert k Hk Hm. enough (Hp : pres I
    (do! upd_mutex j (fun m => m <| used := 1 |>) in
     let! _ := strncpy (mux_name m) name 4 in
     let! me := mycur in
     let! pr := proc_at me in
     do! upd_mutex j (fun m => m <| nameSpace := namespace pr |>) in
     do! release Lmutex_table in
     ret (Some j))) by (intros; by apply Hp).
  pres_tac; apply pres_upd_mutex; by left.
Qed.

Lemma pres_mutex_delete j : pres I (mutex_delete j).
Proof.
  unfold mutex_delete. destruct (_ || _); [apply pres_ret|]. apply pres_bind; [auto with pres|]. intros _ k Hk.
  apply keeps_mutex_at; [done|]. intros m Hm. destruct (Z.eqb_spec (used m) 0); [apply pres_bind; auto with pres|].
  destruct (Z.eqb_spec (locked m) 0) as [E|E]; cbn [negb]; [|apply pres_bind; auto with pres].
  assert (Z.to_nat j <> i) by (intros Hj; by destruct (held_by_entry _ _ _ Hk Hm Hj) as (_ & ? & _)).
  destruct (0 <? num_waiters m); [done|]. revert k Hk Hm.
  enough (Hp : pres I (do! upd_mutex j (fun m => m <| locked := 0 |>) in
     do! upd_mutex j (fun m => m <| used := 0 |>) in
     do! release Lmutex_table in ret 1)) by (intros; by apply Hp).
  pres_tac; apply pres_upd_mutex; by left.
Qed.

Lemma pres_mutex_own j me x : Z.to_nat j <> i -> pres I (mutex_own j me x).
Proof. intros Hj. unfold mutex_own. pres_tac; apply pres_upd_mutex; by left. Qed.

(** Waiting on the condition variable of another mutex takes only that one. *)
Lemma pres_cv_wait j : Z.to_nat j <> i -> pres I (cv_wait j).
Proof.
  intros Hj. unfold cv_wait. pres_tac; first [by apply pres_mutex_own|apply pres_upd_mutex; by left|auto with pres].
Qed.

Hypothesis Hoq : o <> u32 q.

Lemma pres_mutex_unlock j : pres I (mutex_unlock j).
Proof.
  unfold mutex_unlock. destruct (_ || _); [apply pres_ret|]. apply pres_bind; [auto with pres|]. intros _ k Hk.
  apply keeps_mutex_at; [done|]. intros m Hm. destruct (Z.eqb_spec (used m) 0); [apply pres_bind; auto with pres|].
  apply keeps_mycur; [done|]. apply keeps_proc_at; [done|]. intros pr Hpr. rewrite Hpr.
  destruct (Z.eqb_spec (mpid m) (u32 q)) as [E|E]; cbn [negb]; [|apply pres_bind; auto with pres].
  assert (Z.to_nat j <> i).
  { intros Hj. destruct (held_by_entry _ _ _ Hk Hm Hj) as (_ & _ & ?). congruence. }
  apply keeps_pres; [auto with pres|done|]. intros _ k1 Hk1.
  apply keeps_pres; [apply pres_upd_mutex; by left|done|]. intros _ k2 Hk2.
  apply keeps_pres; [apply pres_upd_mutex; by left|done|]. intros _ k3 Hk3.
  revert k3 Hk3. change (pres I (do! release (Lmutex (Z.to_nat j)) in do! wakeup (Cmutex (Z.to_nat j)) in ret 1)).
  pres_tac.
Qed.

(** Whatever mutex it is about, a lock that returns 1 took another one. *)
Lemma keeps_mutex_lock fuel j k :
  I k -> keeps I (mutex_lock fuel j) (fun r k' => I k' /\ (r = 1 -> Z.to_nat j <> i)) k.
Proof.
  intros Hk. unfold mutex_lock. destruct (_ || _); [done|]. apply keeps_mutex_at; [done|]. intros m Hm.
  apply keeps_mycur; [done|]. destruct (used m =? 0); [done|]. apply keeps_proc_at; [done|]. intros pr Hpr.
  destruct (negb _); [done|]. destruct (mpid m =? _); [done|]. apply keeps_pres; [auto with pres|done|].
  intros _ k1 Hk1. apply keeps_bind.
  eapply (keeps_mono _ _ (fun _ k' => I k' /\ Z.to_nat j <> i)).
  { unfold mutex_wait. clear m Hm Hk. revert k1 Hk1. induction fuel as [|n IH]; intros k1 Hk1; [done|].
    cbn [loop]. apply keeps_bind. apply keeps_mutex_at; [done|]. intros m Hm.
    destruct (Z.eqb_spec (locked m) 0) as [E|E]; cbn [negb].
    - split; [done|]. intros Hj. by destruct (held_by_entry _ _ _ Hk1 Hm Hj) as (_ & ? & _).
    - apply keeps_pres; [auto with pres|done|]. intros _ k2 Hk2. by apply IH. }
  intros _ k2 [Hk2 Hj]. apply keeps_proc_at; [done|]. intros pr' _. apply keeps_pres; [by apply pres_mutex_own|done|]. intros _ k3 Hk3. apply keeps_pres; [auto with pres|done|]. intros _ k4 Hk4. done.
Qed.
End ownership.

(** C11: a locked mutex stays with its holder.  While process [o] holds mutex [i],
    none of these operations of another process [q], on any mutex, takes it away, also
    across context switches, resumed in whatever state in which [o] still has it:
    [mutex_create],
    [mutex_delete], [mutex_unlock], [cv_signal], [wseq_remove], [mutex_lock], and
    [cv_wait] on another mutex; in particular [mutex_lock] of [i] does not return 1.
    Two operations are left out because they do take it: [cv_wait] on [i] itself, which
    becomes the owner when it is resumed ([cv_wait_takes_mutex]), and [mutex_init],
    which empties the table. *)
Theorem mutex_exclusive i o p q fuel j name x k :
  held_by i o p q k -> o <> u32 q ->
  let I := held_by i o p q in
  keeps I (mutex_create name) (fun _ => I) k /\
  keeps I (mutex_delete j) (fun _ => I) k /\
  keeps I (mutex_unlock j) (fun _ => I) k /\
  keeps I (cv_signal j) (fun _ => I) k /\
  keeps I (wseq_remove j x) (fun _ => I) k /\
  (Z.to_nat j <> i -> keeps I (cv_wait j) (fun _ => I) k) /\
  keeps I (mutex_lock fuel j) (fun r k' => I k' /\ (r = 1 -> Z.to_nat j <> i)) k.
Proof.
  intros Hk Ho I. split_and!.
  - by apply pres_mutex_create.
  - by apply pres_mutex_delete.
  - by apply pres_mutex_unlock.
  - by apply pres_cv_signal.
  - by apply pres_wseq_remove.
  - intros Hj. by apply pres_cv_wait.
  - by apply keeps_mutex_lock.
Qed.

(** ** What each operation does *)

Lemma mutex_at_run (i : nat) m k : mutexes k !! i = Some m -> mutex_at (Z.of_nat i) k = Ret m k.
Proof. intros Hm. unfold mutex_at, bind, gets. cbn -[zget]. by rewrite zget_nat, Hm. Qed.

Lemma upd_mutex_run (i : nat) m f k :
  mutexes k !! i = Some m ->
  upd_mutex (Z.of_nat i) f k = Ret tt (k <| mutexes ::= <[i := f m]> |>).
Proof. intros Hm. unfold upd_mutex. run (mutex_at_run _ _ _ Hm). by rewrite Nat2Z.id. Qed.

(** Mutex [i] is in the possession of process [p]. *)
Definition owned (i p : nat) (m : mutex) (pr : proc) (k : kernel) : kernel :=
  k <| mutexes ::= <[i := m <| locked := 1 |> <| mpid := u32 (pid pr) |>]> |>
    <| procs ::= <[p := pr <| proc_mutexes ::= replace_first (u32 (-1)) (u32 (Z.of_nat i)) |>]> |>.

Lemma mutex_own_run (i p : nat) m pr k :
  mutexes k !! i = Some m -> procs k !! p = Some pr ->
  mutex_own (Z.of_nat i) p (pid pr) k = Ret tt (owned i p m pr k).
Proof.
  intros Hm Hp. assert (Hl := lookup_lt_Some _ _ _ Hm). unfold mutex_own.
  run (upd_mutex_run i m (fun m => m <| locked := 1 |>) k Hm).
  erewrite bind_run; [|apply upd_mutex_run; cbn; by apply list_lookup_insert_eq].
  erewrite upd_proc_run; [|done]. f_equal. kernel_eq. by rewrite list_insert_insert_eq.
Qed.

Lemma mux_range (i : nat) : (i < MUX_MAXNUM)%nat ->
  (Z.of_nat i <? 0) || (Z.of_nat MUX_MAXNUM <? Z.of_nat i) = false.
Proof. unfold MUX_MAXNUM. intros. apply orb_false_iff. split; apply Z.ltb_ge; lia. Qed.

(** The loop of [mutex_lock] when the mutex is free, and when it is taken. *)
Lemma mutex_wait_free n (i : nat) m k :
  mutexes k !! i = Some m -> locked m = 0 -> mutex_wait (S n) (Z.of_nat i) k = Ret tt k.
Proof.
  intros Hm Hl. unfold mutex_wait. cbn [loop]. unfold bind at 1.
  run (mutex_at_run _ _ _ Hm). by rewrite Hl.
Qed.

(** Taking the mutex once it is free, with [mutex->lock] held. *)
Lemma mutex_lock_tail n (i p : nat) m pr k h :
  mutexes k !! i = Some m -> locked m = 0 -> procs k !! p = Some pr -> held k = Lmutex i :: h ->
  (do! mutex_wait (S n) (Z.of_nat i) in
   let! pr := proc_at p in
   do! mutex_own (Z.of_nat i) p (pid pr) in
   do! release (Lmutex i) in
   ret 1) k = Ret 1 (owned i p m pr k <| held := h |>).
Proof.
  intros Hm Hl Hp Hh. run (mutex_wait_free n i m k Hm Hl). run (proc_at_run _ _ _ Hp).
  run (mutex_own_run i p m pr k Hm Hp). erewrite bind_run; [|apply release_run; cbn; rewrite Hh; by left].
  unfold ret. f_equal. kernel_eq. by rewrite Hh, remove_lock_head.
Qed.

Lemma mutex_wait_taken n (i p : nat) m pr k :
  curproc k = Some p -> procs k !! p = Some pr -> mutexes k !! i = Some m -> locked m <> 0 ->
  held k = [Lmutex i] ->
  exists resume,
    mutex_wait (S (S n)) (Z.of_nat i) k =
      Switch (k <| procs ::= <[p := pr <| chan := Some (Cmutex i) |> <| state := SLEEPING |>]> |>
                <| held := [Lptable] |>) resume /\
    forall k2 pr2, held k2 = [Lptable] -> procs k2 !! p = Some pr2 ->
      resume k2 = mutex_wait (S n) (Z.of_nat i)
        (k2 <| procs ::= <[p := pr2 <| chan := None |>]> |> <| held := [Lmutex i] |>).
Proof.
  intros Hc Hp Hm Hl Hh. unfold mutex_wait. cbn [loop]. unfold bind at 1.
  run (mutex_at_run _ _ _ Hm). rewrite (proj2 (Z.eqb_neq _ _) Hl). cbn [negb].
  rewrite Nat2Z.id. unfold bind at 1.
  rewrite (sleep_enter (Cmutex i) (Lmutex i) [] k p pr Hc Hp Hh ltac:(set_solver)).
  unfold bind at 1. rewrite (sched_switches _ p (pr <| chan := Some (Cmutex i) |> <| state := SLEEPING |>));
    [|done|done|cbn; apply list_lookup_insert_eq; by eapply lookup_lt_Some|done].
  cbn [bindO]. eexists. split; [done|]. intros k2 pr2 Hh2 Hp2.
  cbn [bindO ret]. rewrite (sleep_leave (Lmutex i) p k2 pr2 Hh2 Hp2). done.
Qed.

Lemma mutex_lock_enter fuel (i p : nat) m pr k :
  curproc k = Some p -> procs k !! p = Some pr -> mutexes k !! i = Some m -> (i < MUX_MAXNUM)%nat ->
  used m <> 0 -> nameSpace m = namespace pr -> mpid m <> u32 (pid pr) -> Lmutex i ∉ held k ->
  mutex_lock fuel (Z.of_nat i) k =
  (do! mutex_wait fuel (Z.of_nat i) in
   let! pr := proc_at p in
   do! mutex_own (Z.of_nat i) p (pid pr) in
   do! release (Lmutex i) in
   ret 1) (k <| held ::= cons (Lmutex i) |>).
Proof.
  intros Hc Hp Hm Hi Hu Hn Ho Hh. unfold mutex_lock. rewrite mux_range by done.
  run (mutex_at_run _ _ _ Hm). run (mycur_run _ _ Hc). rewrite (proj2 (Z.eqb_neq _ _) Hu).
  run (proc_at_run _ _ _ Hp). rewrite Hn, Z.eqb_refl. cbn [negb]. rewrite (proj2 (Z.eqb_neq _ _) Ho).
  rewrite Nat2Z.id. by run (acquire_run _ _ Hh).
Qed.

(** [mutex_lock] on every path.  An unused mutex, one of another container
    and one the caller has already locked are refused with -1, -2 and -3 and
    change nothing; a free one is taken at once; for one that is taken the
    caller sleeps on it, and takes it if it is woken when it is free. *)
Theorem mutex_lock_outcomes n (i p : nat) m pr k :
  curproc k = Some p -> procs k !! p = Some pr -> mutexes k !! i = Some m -> (i < MUX_MAXNUM)%nat ->
  held k = [] ->
  let lock := mutex_lock (S (S n)) (Z.of_nat i) in
  (used m = 0 -> lock k = Ret (-1) k) /\
  (used m <> 0 -> nameSpace m <> namespace pr -> lock k = Ret (-2) k) /\
  (used m <> 0 -> nameSpace m = namespace pr -> mpid m = u32 (pid pr) -> lock k = Ret (-3) k) /\
  (used m <> 0 -> nameSpace m = namespace pr -> mpid m <> u32 (pid pr) -> locked m = 0 ->
    lock k = Ret 1 (owned i p m pr k)) /\
  (used m <> 0 -> nameSpace m = namespace pr -> mpid m <> u32 (pid pr) -> locked m <> 0 ->
    exists resume,
      lock k = Switch (k <| procs ::= <[p := pr <| chan := Some (Cmutex i) |> <| state := SLEEPING |>]> |>
                         <| held := [Lptable] |>) resume /\
      forall k2 pr2 m2, held k2 = [Lptable] -> procs k2 !! p = Some pr2 -> mutexes k2 !! i = Some m2 ->
        locked m2 = 0 ->
        resume k2 = Ret 1 (owned i p m2 (pr2 <| chan := None |>) k2 <| held := [] |>)).
Proof.
  intros Hc Hp Hm Hi Hh lock.
  assert (Hpre : forall A, (used m = 0 -> lock k = Ret (-1) k) /\
    (used m <> 0 -> nameSpace m <> namespace pr -> lock k = Ret (-2) k) /\
    (used m <> 0 -> nameSpace m = namespace pr -> mpid m = u32 (pid pr) -> lock k = Ret (-3) k) /\ A <-> A).
  { intros A. split; [by intros (_ & _ & _ & ?)|]. intros HA. unfold lock, mutex_lock. rewrite mux_range by done.
    run (mutex_at_run _ _ _ Hm). run (mycur_run _ _ Hc).
    split_and!; [by intros ->|intros Hu Hn|intros Hu Hn Ho|done]; rewrite (proj2 (Z.eqb_neq _ _) Hu);
      run (proc_at_run _ _ _ Hp).
    - by rewrite (proj2 (Z.eqb_neq _ _) Hn).
    - rewrite Hn, Z.eqb_refl. cbn [negb]. by rewrite Ho, Z.eqb_refl. }
  apply Hpre. split; intros Hu Hn Ho Hl; unfold lock;
    rewrite (mutex_lock_enter _ i p m pr k) by (rewrite ?Hh; set_solver).
  - erewrite mutex_lock_tail; [|done..]. f_equal.
  - destruct (mutex_wait_taken n i p m pr (k <| held ::= cons (Lmutex i) |>)) as (resume & Hw & Hr);
      [done..|cbn; by rewrite Hh|].
    unfold bind at 1. rewrite Hw. cbn [bindO]. eexists. split; [done|]. intros k2 pr2 m2 Hh2 Hp2 Hm2 Hl2.
    cbv beta. rewrite (Hr k2 pr2 Hh2 Hp2). set (k3 := k2 <| procs ::= _ |> <| held := _ |>).
    change (bindO (mutex_wait (S n) (Z.of_nat i) k3) ?f) with (bind (mutex_wait (S n) (Z.of_nat i)) f k3).
    erewrite (mutex_lock_tail n i p m2 (pr2 <| chan := None |>) k3 []); [|done|done| |done].
    + f_equal. kernel_eq. by rewrite list_insert_insert_eq.
    + cbn. apply list_lookup_insert_eq. by eapply lookup_lt_Some.
Qed.

(** Unlocking.  Only the holder can unlock: anyone else gets -1 and changes
    nothing.  For the holder the mutex becomes free with no owner, leaves the
    list of mutexes of the process, and exactly the processes asleep on it
    become runnable. *)
Theorem mutex_unlock_releases (i p : nat) m pr k :
  curproc k = Some p -> procs k !! p = Some pr -> mutexes k !! i = Some m -> (i < MUX_MAXNUM)%nat ->
  held k = [] -> queues_wf k -> length (procs k) = NPROC -> Forall prio_ok (procs k) ->
  (used m = 0 \/ mpid m <> u32 (pid pr) -> mutex_unlock (Z.of_nat i) k = Ret (-1) k) /\
  (used m <> 0 -> mpid m = u32 (pid pr) ->
    exists k', mutex_unlock (Z.of_nat i) k = Ret 1 k' /\ held k' = [] /\
      mutexes k' = <[i := m <| locked := 0 |> <| mpid := u32 (-1) |>]> (mutexes k) /\
      procs k' = woken (Some (Cmutex i)) <$>
        <[p := pr <| proc_mutexes ::= replace_first (u32 (Z.of_nat i)) (u32 (-1)) |>]> (procs k)).
Proof.
  intros Hc Hp Hm Hi Hh Hwf Hlen Hok. assert (Hli := lookup_lt_Some _ _ _ Hm). unfold mutex_unlock.
  rewrite mux_range, Nat2Z.id by done. set (k1 := k <| held ::= cons (Lmutex i) |>).
  run (acquire_run (Lmutex i) k ltac:(rewrite Hh; set_solver)). fold k1. run (mutex_at_run i m k1 Hm).
  assert (Hrel : (do! release (Lmutex i) in ret (-1)) k1 = Ret (-1) k).
  { erewrite bind_run; [|apply release_run; cbn; by left]. unfold ret. f_equal. kernel_eq. by rewrite remove_lock_head. }
  split.
  - intros [->|Ho]; [done|]. destruct (used m =? 0); [done|]. run (mycur_run p k1 Hc). run (proc_at_run p pr k1 Hp).
    by rewrite (proj2 (Z.eqb_neq _ _) Ho).
  - intros Hu Ho. rewrite (proj2 (Z.eqb_neq _ _) Hu). run (mycur_run p k1 Hc). run (proc_at_run p pr k1 Hp).
    rewrite Ho, Z.eqb_refl. cbn [negb].
    run (upd_proc_run p pr (fun p => p <| proc_mutexes ::= replace_first (u32 (Z.of_nat i)) (u32 (-1)) |>) k1 Hp).
    erewrite bind_run; [|by apply upd_mutex_run]. erewrite bind_run; [|apply upd_mutex_run; cbn; by apply list_lookup_insert_eq].
    erewrite bind_run; [|apply release_run; cbn; by left].
    set (k2 := _ <| held ::= _ |>).
    destruct (wakeup_run (Cmutex i) k2) as (k' & Hr & _ & Hs & Hps).
    + destruct Hwf. by split.
    + cbn. by rewrite length_insert.
    + cbn. apply Forall_insert; [done|]. exact (Forall_lookup_1 _ _ _ _ Hok Hp).
    + cbn. rewrite remove_lock_head, Hh. set_solver.
    + run Hr. exists k'. split; [done|]. rewrite Hs, Hps. cbn. rewrite remove_lock_head, list_insert_insert_eq. done.
Qed.

(** ** Condition variables *)

Lemma wp_mutex_at (i : nat) m (Q : mutex -> kernel -> Prop) k :
  mutexes k !! i = Some m -> Q m k -> wp (mutex_at (Z.of_nat i)) Q k.
Proof. intros Hm HQ. unfold wp. by rewrite (mutex_at_run _ _ _ Hm). Qed.

Lemma wp_upd_mutex (i : nat) m f (Q : unit -> kernel -> Prop) k :
  mutexes k !! i = Some m -> Q tt (k <| mutexes ::= <[i := f m]> |>) -> wp (upd_mutex (Z.of_nat i) f) Q k.
Proof. intros Hm HQ. unfold wp. by rewrite (upd_mutex_run _ _ _ _ Hm). Qed.

(** The first [n] entries each take the value of the next. *)
Lemma shift_waiters_spec (i : nat) m k n :
  mutexes k !! i = Some m -> 0 <= n < Z.of_nat (length (waiters m)) ->
  wp (shift_waiters (Z.of_nat i) n) (fun _ k' => exists w', length w' = length (waiters m) /\
       (forall j, w' !! j = waiters m !! (if decide (j < Z.to_nat n)%nat then S j else j)) /\
       k' = k <| mutexes ::= <[i := m <| waiters := w' |>]> |>) k.
Proof.
  intros Hm Hn. assert (Hl := lookup_lt_Some _ _ _ Hm). unfold shift_waiters.
  eapply (wp_foreach_seq _ _ (fun c k' => exists w', length w' = length (waiters m) /\
    (forall j, w' !! j = waiters m !! (if decide (j < c)%nat then S j else j)) /\
    k' = k <| mutexes ::= <[i := m <| waiters := w' |>]> |>)).
  - exists (waiters m). split_and!; [done|done|]. kernel_eq. symmetry. rewrite list_insert_id; [done|].
    rewrite Hm. f_equal. by destruct m.
  - intros c s Hc (w' & Hlen & Hw & ->). apply wp_bind. eapply wp_mutex_at; [cbn; by apply list_lookup_insert_eq|].
    cbn [waiters]. destruct (lookup_lt_is_Some_2 w' (S c)) as [x Hx]; [lia|].
    apply wp_bind. apply (wp_ofopt _ x).
    { cbn. replace (Z.of_nat c + 1) with (Z.of_nat (S c)) by lia. by rewrite zget_nat. }
    apply wp_bind. apply (wp_ofopt _ (<[c := x]> w')).
    { cbn. rewrite zset_in by lia. by rewrite Nat2Z.id. }
    eapply wp_upd_mutex; [cbn; by apply list_lookup_insert_eq|].
    exists (<[c := x]> w'). rewrite length_insert. split_and!; [done| |].
    + intros j. destruct (decide (j = c)) as [->|Hne].
      * rewrite list_lookup_insert_eq, decide_True by lia. rewrite <- Hx, Hw, decide_False by lia. done.
      * rewrite list_lookup_insert_ne, Hw by done. do 2 case_decide; try lia; done.
    + kernel_eq. rewrite list_insert_insert_eq. done.
  - done.
Qed.

(** The process a signal for pid [w] wakes: the first one asleep with that pid. *)
Definition sleeper (w : Z) (p : proc) : Prop := pid p = w /\ state p = SLEEPING.

#[export] Instance sleeper_dec w p : Decision (sleeper w p).
Proof. unfold sleeper. apply _. Defined.

Definition signalled (w : Z) (ps : list proc) : list proc :=
  match list_find (sleeper w) ps with
  | Some (j, p) => <[j := p <| state := RUNNABLE |>]> ps
  | None => ps
  end.

Lemma signal_scan w k :
  queues_wf k -> length (procs k) = NPROC -> Forall (fun p => 0 <= fp_priority p < PRIO_MAX) (procs k) ->
  exists r k', first_of (seq 0 NPROC) (fun i =>
      let! p := proc_at i in
      if (pid p =? w) && bool_decide (state p = SLEEPING) then
        do! upd_proc i (fun p => p <| state := RUNNABLE |>) in
        let! _ := fp_enqueue i in
        ret (Some tt)
      else ret None) k = Ret r k' /\
    same_but_sched k k' /\ procs k' = signalled w (procs k).
Proof.
  intros Hwf Hlen Hok. unfold signalled. rewrite <- Hlen.
  match goal with |- context [first_of _ ?b] => set (body := b) end.
  assert (Hno : forall i p, procs k !! i = Some p -> ~ sleeper w p -> body i k = Ret None k).
  { intros i p Hp Hs. unfold body. run (proc_at_run _ _ _ Hp).
    destruct (Z.eqb_spec (pid p) w); [|done]. rewrite bool_decide_false; [done|]. intros ?. by apply Hs. }
  pose proof (first_of_scan (sleeper w) (procs k) body k Hno) as Hscan.
  destruct (list_find (sleeper w) (procs k)) as [[i p]|] eqn:Hf.
  - apply list_find_Some in Hf as (Hp & [Hw Hs] & _).
    assert (wp (body i) (fun r k' => r = Some tt /\ same_but_sched k k' /\
      procs k' = <[i := p <| state := RUNNABLE |>]> (procs k)) k) as (r & k' & Hr & -> & ? & ?)%wp_run.
    { unfold body. apply wp_bind, (wp_proc_at _ p); [done|]. rewrite (proj2 (Z.eqb_eq _ _) Hw), bool_decide_true by done.
      cbn [andb]. apply wp_bind. eapply wp_upd_proc; [done|]. apply wp_bind. eapply wp_fp_enqueue.
      - destruct Hwf. by split.
      - cbn. apply list_lookup_insert_eq. by eapply lookup_lt_Some.
      - exact (Forall_lookup_1 _ _ _ _ Hok Hp).
      - intros r k' Hs' _. apply wp_ret. split_and!; [done| |by rewrite Hs'].
        rewrite Hs'. unfold same_but_sched. by kernel_eq. }
    exists (Some tt), k'. split_and!; [by apply Hscan|done..].
  - exists None, k. split_and!; [done| |done]. unfold same_but_sched. by kernel_eq.
Qed.

(** Signals are delivered in the order of waiting.  [cv_signal] with no waiter
    returns 0 and changes nothing; otherwise it takes the first waiter off the
    queue, keeping the others in order, makes that process (and only it)
    runnable if it is asleep, and returns 1 with the locks as they were. *)
Theorem cv_signal_fifo (i : nat) m k w ws :
  mutexes k !! i = Some m -> (i < MUX_MAXNUM)%nat -> held k = [] ->
  length (waiters m) = MUX_MAXNUM -> 0 <= num_waiters m <= Z.of_nat MUX_MAXNUM ->
  queues_wf k -> length (procs k) = NPROC -> Forall (fun p => 0 <= fp_priority p < PRIO_MAX) (procs k) ->
  (num_waiters m = 0 -> cv_signal (Z.of_nat i) k = Ret 0 k) /\
  (take (Z.to_nat (num_waiters m)) (waiters m) = w :: ws ->
    exists k' m', cv_signal (Z.of_nat i) k = Ret 1 k' /\ held k' = [] /\
      mutexes k' = <[i := m']> (mutexes k) /\ num_waiters m' = num_waiters m - 1 /\
      take (Z.to_nat (num_waiters m')) (waiters m') = ws /\
      m' = m <| waiters := waiters m' |> <| num_waiters := num_waiters m' |> /\
      procs k' = signalled w (procs k)).
Proof.
  intros Hm Hi Hh Hlen Hn Hwf Hnp Hok. assert (Hli := lookup_lt_Some _ _ _ Hm).
  unfold cv_signal. rewrite mux_range, Nat2Z.id by done. set (k2 := k <| held := [Lptable; Lcv i] |>).
  assert (Hin : forall A (f : unit -> K A),
    (do! acquire (Lcv i) in let! u := acquire Lptable in f u) k = f tt k2).
  { intros A f. run (acquire_run (Lcv i) k ltac:(rewrite Hh; set_solver)).
    erewrite bind_run; [|apply acquire_run; cbn; rewrite Hh; set_solver]. f_equal. kernel_eq. by rewrite Hh. }
  assert (Hout : forall s (r : Z), held s = [Lptable; Lcv i] ->
    (do! release Lptable in do! release (Lcv i) in ret r) s = Ret r (s <| held := [] |>)).
  { intros s r Hs. erewrite bind_run; [|apply release_run; rewrite Hs; by left].
    erewrite bind_run; [|apply release_run; cbn; rewrite Hs, remove_lock_head; by left].
    unfold ret. f_equal. kernel_eq. by rewrite Hs, remove_lock_head, remove_lock_head. }
  rewrite Hin. run (mutex_at_run i m k2 Hm). split.
  { intros ->. cbn [Z.eqb]. rewrite Hout by done. f_equal. by kernel_eq. }
  intros Hw. assert (Hn0 : 0 < num_waiters m).
  { destruct (decide (num_waiters m = 0)) as [E|]; [|lia]. by rewrite E in Hw. }
  rewrite (proj2 (Z.eqb_neq _ _)) by lia.
  assert (Hw0 : waiters m !! 0%nat = Some w) 
    by (rewrite <- (lookup_take_lt _ (Z.to_nat (num_waiters m))) by lia; by rewrite Hw).
  replace (zget (waiters m) 0) with (Some w) by (symmetry; exact Hw0).
  change (bind (ofopt (Some w)) ?f k2) with (f w k2). cbv beta.
  destruct (proj1 (wp_run _ _ _) (shift_waiters_spec i m k2 (num_waiters m - 1) Hm ltac:(lia)))
    as ([] & k3 & Hr & w' & Hlw & Hw' & ->). run Hr.
  erewrite bind_run; [|apply upd_mutex_run; cbn; by apply list_lookup_insert_eq]. cbn [num_waiters].
  set (k4 := _ <| mutexes ::= _ |>).
  destruct (signal_scan w k4) as (r & k5 & Hs & Hss & Hps); [destruct Hwf; by split|done..|].
  run Hs. rewrite Hout by (by rewrite Hss). eexists _, _. split; [done|]. split; [done|]. split.
  { cbn. rewrite Hss. cbn. by rewrite list_insert_insert_eq. }
  split; [done|]. split; [|split; [done|by cbn]].
  change (take (Z.to_nat (num_waiters m - 1)) w' = ws). apply list_eq. intros j.
  assert (Hj : (w :: ws) !! S j = if decide (S j < Z.to_nat (num_waiters m))%nat then waiters m !! S j else None).
  { rewrite <- Hw. case_decide; [by apply lookup_take_lt|apply lookup_take_ge; lia]. }
  change ((w :: ws) !! S j) with (ws !! j) in Hj. rewrite Hj. case_decide.
  - rewrite lookup_take_lt, Hw', decide_True by lia. done.
  - apply lookup_take_ge. lia.
Qed.

(** C32: waiting on a condition variable.  [cv_wait] appends the caller to the
    waiters, marks it asleep and switches away with only [ptable.lock] held;
    when it is resumed it makes itself the owner of the mutex, whoever owns it
    then ([m2] is arbitrary), and returns 1 with no lock held. *)
Theorem cv_wait_takes_mutex (i p : nat) m pr k :
  curproc k = Some p -> procs k !! p = Some pr -> mutexes k !! i = Some m -> (i < MUX_MAXNUM)%nat ->
  held k = [] -> used m <> 0 -> mpid m <> u32 (pid pr) ->
  length (waiters m) = MUX_MAXNUM -> 0 <= num_waiters m < Z.of_nat MUX_MAXNUM ->
  exists resume,
    cv_wait (Z.of_nat i) k =
      Switch (k <| mutexes ::= <[i := m <| num_waiters := num_waiters m + 1 |>
                   <| waiters := <[Z.to_nat (num_waiters m) := pid pr]> (waiters m) |>]> |>
                <| procs ::= <[p := pr <| state := SLEEPING |>]> |> <| held := [Lptable] |>) resume /\
    forall k2 m2 pr2, held k2 = [Lptable] -> mutexes k2 !! i = Some m2 -> procs k2 !! p = Some pr2 ->
      pid pr2 = pid pr -> resume k2 = Ret 1 (owned i p m2 pr2 k2 <| held := [] |>).
Proof.
  intros Hc Hp Hm Hi Hh Hu Ho Hlw Hn. unfold cv_wait. rewrite mux_range, Nat2Z.id by done.
  run (mycur_run _ _ Hc). run (proc_at_run _ _ _ Hp).
  run (acquire_run (Lmutex i) k ltac:(rewrite Hh; set_solver)).
  erewrite bind_run; [|apply acquire_run; cbn; rewrite Hh; set_solver].
  set (k1 := _ <| held ::= cons Lptable |>). run (mutex_at_run i m k1 Hm).
  rewrite (proj2 (Z.eqb_neq _ _) Hu), (proj2 (Z.eqb_neq _ _) Ho), (proj2 (Z.eqb_neq _ _)) by lia.
  rewrite zset_in by lia. change (bind (ofopt (Some ?w)) ?f k1) with (f w k1). cbv beta.
  erewrite bind_run; [|by apply upd_mutex_run]. erewrite bind_run; [|by apply upd_proc_run].
  erewrite bind_run; [|apply release_run; cbn; rewrite Hh; set_solver]. set (k2 := _ <| held ::= _ |>).
  unfold bind at 1. rewrite (sched_switches k2 p (pr <| state := SLEEPING |>));
    [|cbn; by rewrite Hh, remove_lock_second|done|cbn; apply list_lookup_insert_eq; by eapply lookup_lt_Some|done].
  cbn [bindO]. eexists. split.
  { f_equal. kernel_eq. by rewrite Hh, remove_lock_second. }
  clear k1 k2. intros k2 m2 pr2 Hh2 Hm2 Hp2 Hpid. cbn [bindO].
  run (acquire_run (Lmutex i) k2 ltac:(rewrite Hh2; set_solver)). rewrite <- Hpid.
  erewrite bind_run; [|by apply mutex_own_run]. erewrite bind_run; [|apply release_run; cbn; by left].
  erewrite bind_run; [|apply release_run; cbn; rewrite Hh2, remove_lock_head; by left].
  unfold ret. f_equal. kernel_eq. by rewrite Hh2, remove_lock_head, remove_lock_head.
Qed.

(** C33: deleting a mutex with waiters.  [mutex_delete] of an unlocked mutex with
    processes in its waiter queue returns -4 without releasing the table's
    lock, so the next [mutex_create] on this processor panics. *)
Theorem mutex_delete_leaks_lock (i : nat) m k name :
  mutexes k !! i = Some m -> (i < MUX_MAXNUM)%nat -> held k = [] ->
  used m <> 0 -> locked m = 0 -> 0 < num_waiters m ->
  exists k', mutex_delete (Z.of_nat i) k = Ret (-4) k' /\ held k' = [Lmutex_table] /\
    mutex_create name k' = Panic "acquire" k'.
Proof.
  intros Hm Hi Hh Hu Hl Hn. exists (k <| held := [Lmutex_table] |>). unfold mutex_delete.
  rewrite orb_comm, mux_range by done. run (acquire_run Lmutex_table k ltac:(rewrite Hh; set_solver)).
  erewrite bind_run; [|by apply mutex_at_run]. rewrite (proj2 (Z.eqb_neq _ _) Hu), Hl. cbn [negb Z.eqb].
  rewrite (proj2 (Z.ltb_lt _ _) Hn). split_and!; [|done|done]. unfold ret. f_equal. kernel_eq. by rewrite Hh.
Qed.

(** Removing pid 2 from the waiters 1, 2, 3 should leave 1, 3; [wseq_remove]
    shifts the entries before the one it found and leaves 2, 2. *)
Example wseq_remove_corrupts :
  let m := zero_mutex <| used := 1 |> <| waiters := [1; 2; 3] ++ replicate 13 (-1) |> <| num_waiters := 3 |> in
  match wseq_remove 0 2 (zero_kernel <| mutexes ::= <[0%nat := m]> |>) with
  | Ret r k' => option_map (fun m => (r, take (Z.to_nat (num_waiters m)) (waiters m))) (mutexes k' !! 0%nat)
  | _ => None
  end = Some (1, [2; 2]).
Proof. by vm_compute. Qed.

(** ** Three mutexes of the machine of [Sched]: 0 is free, 1 is held by pid 4, 2 by
    the running process, and pid 3 waits on 0. *)
Definition demo_mux : kernel :=
  demo <| mutexes ::= fun ms =>
    <[0%nat := zero_mutex <| used := 1 |> <| mpid := u32 (-1) |>
                          <| waiters := 3 :: replicate 15 (-1) |> <| num_waiters := 1 |>]>
   (<[1%nat := zero_mutex <| used := 1 |> <| locked := 1 |> <| mpid := 4 |>]>
   (<[2%nat := zero_mutex <| used := 1 |> <| locked := 1 |> <| mpid := 2 |>]> ms)) |>.

Lemma demo_mux_wf : queues_wf demo_mux.
Proof. apply queues_wf_intro; [done..| |]; apply (bool_decide_unpack _); by vm_compute. Qed.

Lemma demo_mux_prios : Forall (fun p => 0 <= fp_priority p < PRIO_MAX) (procs demo_mux).
Proof. apply (bool_decide_unpack _). by vm_compute. Qed.

Lemma mutex_exclusive_witness :
  keeps (held_by 1 4 1 2) (mutex_lock 3 1) (fun r k' => held_by 1 4 1 2 k' /\ (r = 1 -> Z.to_nat 1 <> 1%nat)) demo_mux.
Proof.
  apply (mutex_exclusive 1 4 1 2 3 1 0 0 demo_mux); [|done].
  split; [done|by eexists|]. by eexists.
Defined.

Lemma mutex_lock_outcomes_witness :
  mutex_lock 2 0 demo_mux = Ret 1 (owned 0 1 (zero_mutex <| used := 1 |> <| mpid := u32 (-1) |>
    <| waiters := 3 :: replicate 15 (-1) |> <| num_waiters := 1 |>)
    (zero_proc <| pid := 2 |> <| state := RUNNING |> <| parent := Some 0%nat |>
               <| queueType := FP_POLICY |> <| fp_priority := 3 |>) demo_mux).
Proof.
  by apply (mutex_lock_outcomes 0 0 1 _ _ demo_mux eq_refl eq_refl eq_refl ltac:(unfold MUX_MAXNUM; lia) eq_refl).
Defined.

Lemma mutex_unlock_releases_witness :
  exists k', mutex_unlock 2 demo_mux = Ret 1 k' /\ held k' = [].
Proof.
  destruct (mutex_unlock_releases 2 1 _ _ demo_mux eq_refl eq_refl eq_refl ltac:(unfold MUX_MAXNUM; lia) eq_refl
    demo_mux_wf eq_refl) as [_ H].
  - eapply Forall_impl; [apply demo_mux_prios|]. intros p Hp _. exact Hp.
  - destruct (H ltac:(done) eq_refl) as (k' & ? & ? & _). by exists k'.
Defined.

Lemma cv_signal_fifo_witness :
  exists k', cv_signal 0 demo_mux = Ret 1 k' /\ procs k' = signalled 3 (procs demo_mux).
Proof.
  destruct (cv_signal_fifo 0 _ demo_mux 3 [] eq_refl ltac:(unfold MUX_MAXNUM; lia) eq_refl eq_refl ltac:(done)
    demo_mux_wf eq_refl demo_mux_prios) as [_ H].
  destruct (H eq_refl) as (k' & m' & ? & _ & _ & _ & _ & _ & ?). by exists k'.
Defined.

Lemma cv_wait_takes_mutex_witness :
  exists k1 resume, cv_wait 1 demo_mux = Switch k1 resume /\ held k1 = [Lptable].
Proof.
  destruct (cv_wait_takes_mutex 1 1 _ _ demo_mux eq_refl eq_refl eq_refl ltac:(unfold MUX_MAXNUM; lia) eq_refl
    ltac:(done) ltac:(done) eq_refl ltac:(done)) as (resume & H & _).
  by eexists _, resume.
Defined.

Lemma mutex_delete_leaks_lock_witness :
  exists k', mutex_delete 0 demo_mux = Ret (-4) k' /\ mutex_create 0 k' = Panic "acquire" k'.
Proof.
  destruct (mutex_delete_leaks_lock 0 _ demo_mux 0 eq_refl ltac:(unfold MUX_MAXNUM; lia) eq_refl
    ltac:(done) eq_refl ltac:(done)) as (k' & ? & _ & ?). by exists k'.
Defined.
