(* ===== verification/Container.v ===== *)
(** * Container management

    The parts of [src/proc.c] behind [cm_maxproc] and [cm_create_and_enter]:
    [do_maxproc] walks the ancestors of the caller, [do_ce] searches for a
    namespace id that no live process uses.  ([do_setroot] is in [Proc].) *)

From S2P Require Import Prelude Headers Spinlock.

(** ** Operations *)

(** The loop ends at the root of the process tree; [NPROC] processes bound its
    length ([do_maxproc_once]). *)
Definition do_maxproc (nproc : Z) : K Z :=
  let! me := mycur in
  let! found := loop (S NPROC) (fun p =>
    match p with
    | None => ret (inr false)
    | Some i =>
        let! pr := proc_at i in
        if negb (maxprocset pr =? 0) then ret (inr true) else ret (inl (parent pr))
    end) (Some me) in
  if (found : bool) then ret (-1)
  else
    do! acquire Lptable in
    do! upd_proc me (fun p => p <| maxproc := nproc |>) in
    do! upd_proc me (fun p => p <| maxprocset := 1 |>) in
    do! release Lptable in
    ret 0.

(** One pass of the [do ... while (!found)] of [do_ce]: is [namespace_id] unused? *)
Definition namespace_free : K bool :=
  let! r := first_of (seq 0 NPROC) (fun i =>
    let! p := proc_at i in
    let! n := gets namespace_id in
    if negb (bool_decide (state p = UNUSED)) && (namespace p =? n) then ret (Some tt) else ret None) in
  ret (match r with Some _ => false | None => true end).

Definition ce_pass (_ : unit) : K (unit + unit) :=
  let! found := namespace_free in
  if (found : bool) then ret (inr tt)
  else do! modify (fun k => k <| namespace_id ::= fun n => i32 (n + 1) |>) in ret (inl tt).

(** At most [NPROC] ids can be in use: one more pass finds a free one
    ([do_ce_fresh]). *)
Definition do_ce : K Z :=
  let! me := mycur in
  let! p := proc_at me in
  if negb (in_container p =? 0) then ret (-1)
  else
    do! acquire Lptable in
    do! loop (S NPROC) ce_pass tt in
    do! upd_proc me (fun p => p <| in_container := 1 |>) in
    let! n := gets namespace_id in
    do! upd_proc me (fun p => p <| namespace := n |>) in
    do! modify (fun k => k <| namespace_id := i32 (n + 1) |>) in
    do! release Lptable in
    ret 0.

(** ** Ancestors *)

(** [l] are the process [p] and its ancestors, ending at a process with no parent. *)
Inductive lineage (ps : list proc) : option nat -> list nat -> Prop :=
| lineage_nil : lineage ps None []
| lineage_cons i pr l : ps !! i = Some pr -> lineage ps (parent pr) l -> lineage ps (Some i) (i :: l).

(** Some process of the lineage has set [maxproc]. *)
Definition maxproc_used (ps : list proc) (l : list nat) : Prop :=
  exists i pr, i ∈ l /\ ps !! i = Some pr /\ maxprocset pr <> 0.

Lemma ancestor_walk k o l : forall fuel,
  lineage (procs k) o l -> (length l < fuel)%nat ->
  exists found : bool, loop fuel (fun p =>
    match p with
    | None => ret (inr false)
    | Some i =>
        let! pr := proc_at i in
        if negb (maxprocset pr =? 0) then ret (inr true) else ret (inl (parent pr))
    end) o k = Ret found k /\ (found = true <-> maxproc_used (procs k) l).
Proof.
  intros fuel Hl. revert fuel. induction Hl as [|i pr l Hp Hl IH]; intros [|n] Hf; cbn [length] in Hf; try lia.
  - exists false. split; [done|]. split; [done|]. intros (i & _ & Hi & _). by apply elem_of_nil in Hi.
  - cbn [loop]. unfold bind at 1. run (proc_at_run _ _ _ Hp).
    destruct (Z.eqb_spec (maxprocset pr) 0) as [E|E]; cbn [negb].
    + destruct (IH n) as (found & Hr & Hi); [lia|]. exists found. split; [exact Hr|]. rewrite Hi.
      split; intros (j & pj & Hj & Hpj & ?); exists j, pj; (split; [|done]); [by right|].
      apply elem_of_cons in Hj as [->|]; [simplify_eq|done].
    + exists true. split; [done|]. split; [|done]. intros _. exists i, pr. split; [by left|done].
Qed.

(** If children have larger pids than their parents, every process has a
    lineage, no longer than the table. *)
Lemma lineage_exists ps i :
  (forall i pr j, ps !! i = Some pr -> parent pr = Some j ->
     exists pj, ps !! j = Some pj /\ 0 <= pid pj < pid pr) ->
  is_Some (ps !! i) -> exists l, lineage ps (Some i) l /\ (length l <= length ps)%nat.
Proof.
  intros Hpar [pr Hp].
  enough (forall n i pr, ps !! i = Some pr -> pid pr < Z.of_nat n ->
    exists l, lineage ps (Some i) l /\ NoDup l /\
      Forall (fun j => exists pj, ps !! j = Some pj /\ pid pj <= pid pr) l) as H.
  { destruct (H (Z.to_nat (pid pr + 1)) i pr Hp ltac:(lia)) as (l & Hl & Hnd & Hall).
    exists l. split; [done|]. rewrite <- (length_seq (length ps) 0).
    apply submseteq_length, NoDup_submseteq; [done|]. intros j Hj.
    eapply Forall_forall in Hall as (pj & Hpj & _); [|done]. apply elem_of_seq.
    apply lookup_lt_Some in Hpj. lia. }
  clear i pr Hp. induction n as [|n IH]; intros i pr Hp Hlt.
  { destruct (parent pr) as [j|] eqn:Epar.
    - destruct (Hpar _ _ _ Hp Epar) as (? & ? & ?). lia.
    - exists [i]. split_and!; [econstructor; [done|]; rewrite Epar; constructor|apply NoDup_singleton|].
      apply Forall_singleton. exists pr. done. }
  destruct (parent pr) as [j|] eqn:Epar.
  - destruct (Hpar _ _ _ Hp Epar) as (pj & Hj & Hlt').
    destruct (IH j pj Hj ltac:(lia)) as (l & Hl & Hnd & Hall).
    exists (i :: l). split_and!; [econstructor; [done|]; by rewrite Epar|apply NoDup_cons; split; [|done]|].
    + intros Hi. eapply Forall_forall in Hall as (pi & Hpi & ?); [|done]. simplify_eq. lia.
    + apply Forall_cons. split; [exists pr; done|]. eapply Forall_impl; [done|].
      intros x (px & ? & ?). exists px. split; [done|lia].
  - exists [i]. split_and!; [econstructor; [done|]; rewrite Epar; constructor|apply NoDup_singleton|].
    apply Forall_singleton. exists pr. done.
Qed.

(** A process limit can be set once in a lineage.  [do_maxproc] fails with -1
    and changes nothing exactly when the caller or one of its ancestors has
    already set it; otherwise it records the limit and the flag in the caller
    and returns 0. *)
Theorem do_maxproc_once nproc k me pr l :
  curproc k = Some me -> procs k !! me = Some pr -> Lptable ∉ held k -> length (procs k) = NPROC ->
  (forall i p j, procs k !! i = Some p -> parent p = Some j ->
     exists pj, procs k !! j = Some pj /\ 0 <= pid pj < pid p) ->
  lineage (procs k) (Some me) l ->
  (maxproc_used (procs k) l -> do_maxproc nproc k = Ret (-1) k) /\
  (~ maxproc_used (procs k) l ->
    do_maxproc nproc k = Ret 0 (k <| procs ::= <[me := pr <| maxproc := nproc |> <| maxprocset := 1 |>]> |>)).
Proof.
  intros Hc Hp Hh Hlen Hpar Hl.
  assert (Hf : (length l < S NPROC)%nat).
  { destruct (lineage_exists _ me Hpar) as (l' & Hl' & ?); [by eexists|].
    assert (l' = l) as ->; [|lia]. clear -Hl Hl'. revert l' Hl'.
    induction Hl as [|i q l Hq Hl IH]; intros l' Hl'; inversion Hl'; simplify_eq; [done|]. f_equal. by apply IH. }
  destruct (ancestor_walk k (Some me) l _ Hl Hf) as (found & Hr & Hi).
  unfold do_maxproc. run (mycur_run _ _ Hc). run Hr. destruct found; (split; [|]).
  - done.
  - intros []. by apply Hi.
  - intros Hu. by apply Hi in Hu.
  - intros _. run (acquire_run _ _ Hh). erewrite bind_run; [|by apply upd_proc_run].
    erewrite bind_run; [|apply upd_proc_run; cbn; apply list_lookup_insert_eq; by eapply lookup_lt_Some].
    erewrite bind_run; [|apply release_run; cbn; by left]. unfold ret. f_equal. kernel_eq.
    by rewrite list_insert_insert_eq.
Qed.

(** ** Namespace ids *)

Definition in_use (ps : list proc) (n : Z) : Prop :=
  exists i p, ps !! i = Some p /\ state p <> UNUSED /\ namespace p = n.

Definition uses (n : Z) (p : proc) : Prop := state p <> UNUSED /\ namespace p = n.

#[export] Instance uses_dec n p : Decision (uses n p).
Proof. unfold uses. apply _. Defined.

Lemma namespace_free_run k :
  length (procs k) = NPROC ->
  exists b : bool, namespace_free k = Ret b k /\ (b = true <-> ~ in_use (procs k) (namespace_id k)).
Proof.
  intros Hlen. unfold namespace_free. rewrite <- Hlen.
  match goal with |- context [first_of _ ?b] => set (body := b) end.
  assert (Hbody : forall i p, procs k !! i = Some p ->
    body i k = Ret (if decide (uses (namespace_id k) p) then Some tt else None) k).
  { intros i p Hp. unfold body. run (proc_at_run _ _ _ Hp). rewrite bind_gets.
    destruct (Z.eqb_spec (namespace p) (namespace_id k)) as [E|E]; case_decide as Hd.
    - by rewrite bool_decide_false by apply Hd.
    - rewrite bool_decide_true; [done|]. apply dec_stable. intros Hs. by apply Hd.
    - by destruct Hd.
    - by rewrite andb_false_r. }
  pose proof (first_of_scan (uses (namespace_id k)) (procs k) body k) as Hscan.
  destruct (list_find (uses (namespace_id k)) (procs k)) as [[i p]|] eqn:Hf.
  - apply list_find_Some in Hf as (Hp & Hu & _). exists false.
    erewrite bind_run; [|apply Hscan; [|rewrite (Hbody i p Hp), decide_True by done; done]].
    + split; [done|]. split; [done|]. intros Hno. exfalso. apply Hno. by exists i, p.
    + intros j q Hq Hn. by rewrite (Hbody j q Hq), decide_False.
  - exists true. erewrite bind_run; [|apply Hscan].
    + split; [done|]. split; [|done]. intros _ (i & p & Hp & Hu).
      apply list_find_None in Hf. eapply Forall_lookup_1 in Hf; [|done]. by apply Hf.
    + intros j q Hq Hn. by rewrite (Hbody j q Hq), decide_False.
Qed.

(** Ids in use are namespaces of processes, so [NPROC + 1] consecutive ids
    cannot all be in use. *)
Lemma ids_in_use_bound ps n c :
  (forall i, 0 <= i < Z.of_nat c -> in_use ps (n + i)) -> (c <= length ps)%nat.
Proof.
  intros H.
  assert (Hs : seqZ n (Z.of_nat c) ⊆+ namespace <$> ps).
  { apply NoDup_submseteq; [apply NoDup_seqZ|]. intros x Hx%elem_of_seqZ.
    destruct (H (x - n)) as (i & p & Hp & _ & Hn); [lia|]. apply list_elem_of_fmap. exists p.
    split; [lia|]. by eapply list_elem_of_lookup_2. }
  apply submseteq_length in Hs. rewrite length_fmap, length_seqZ in Hs. lia.
Qed.

Lemma do_ce_search : forall fuel c k,
  length (procs k) = NPROC -> (fuel + c = S NPROC)%nat ->
  0 <= namespace_id k - Z.of_nat c -> namespace_id k - Z.of_nat c + Z.of_nat NPROC < 2 ^ 31 ->
  (forall i, 0 <= i < Z.of_nat c -> in_use (procs k) (namespace_id k - Z.of_nat c + i)) ->
  exists n, loop fuel ce_pass tt k = Ret tt (k <| namespace_id := n |>) /\
    ~ in_use (procs k) n /\ namespace_id k <= n < 2 ^ 31.
Proof.
  induction fuel as [|fuel IH]; intros c k Hlen Hf Hlo Hhi Hc.
  { exfalso. pose proof (ids_in_use_bound _ _ _ Hc). lia. }
  cbn [loop]. unfold bind at 1. unfold ce_pass at 1.
  destruct (namespace_free_run k Hlen) as (b & Hr & Hb). run Hr. destruct b.
  - exists (namespace_id k). split; [|split; [by apply Hb|]].
    + cbn. unfold ret. f_equal. by kernel_eq.
    + assert (Z.of_nat c <= Z.of_nat NPROC); [|lia].
      pose proof (ids_in_use_bound _ _ _ Hc). lia.
  - assert (Hu : in_use (procs k) (namespace_id k)).
    { destruct (decide (Exists (uses (namespace_id k)) (procs k))) as [He|Hne].
      - apply Exists_exists in He as (p & [i Hi]%list_elem_of_lookup & Hu). by exists i, p.
      - assert (false = true); [|done]. apply Hb. intros (i & p & Hp & Hu). apply Hne, Exists_exists.
        exists p. split; [by eapply list_elem_of_lookup_2|done]. }
    pose proof (ids_in_use_bound (procs k) (namespace_id k - Z.of_nat c) (S c)) as Hle.
    assert (HcS : forall i, 0 <= i < Z.of_nat (S c) -> in_use (procs k) (namespace_id k - Z.of_nat c + i)).
    { intros i Hi. destruct (decide (i = Z.of_nat c)) as [->|]; [by rewrite Z.sub_add|]. apply Hc. lia. }
    specialize (Hle HcS). rewrite Hlen in Hle.
    assert (Hi : i32 (namespace_id k + 1) = namespace_id k + 1) by (apply i32_small; lia).
    cbn -[loop]. change (bindO (ret ?x ?s) ?f) with (f x s).
    destruct (IH (S c) (k <| namespace_id ::= fun n => i32 (n + 1) |>)) as (n & Hn & Hfree & Hbd); cbn; rewrite ?Hi; try lia; try done.
    + intros i Hi'. replace (namespace_id k + 1 - Z.of_nat (S c) + i) with (namespace_id k - Z.of_nat c + i) by lia.
      by apply HcS.
    + exists n. cbn in Hbd. rewrite Hi in Hbd. split; [|split; [done|lia]]. cbn in Hn. rewrite Hn. f_equal.
Qed.

(** C36: entering a container gives a fresh namespace.  [do_ce] fails with -1 in a
    process already in a container.  Otherwise its search ends (within
    [NPROC + 1] passes), and the process is put in a namespace that no live
    process uses, not smaller than any id tried before; the next search starts
    after it. *)
Theorem do_ce_fresh k me pr :
  curproc k = Some me -> procs k !! me = Some pr -> Lptable ∉ held k -> length (procs k) = NPROC ->
  0 <= namespace_id k -> namespace_id k + Z.of_nat NPROC < 2 ^ 31 - 1 ->
  (in_container pr <> 0 -> do_ce k = Ret (-1) k) /\
  (in_container pr = 0 ->
    exists n, ~ in_use (procs k) n /\ namespace_id k <= n /\
      do_ce k = Ret 0 (k <| procs ::= <[me := pr <| in_container := 1 |> <| namespace := n |>]> |>
                         <| namespace_id := i32 (n + 1) |>)).
Proof.
  intros Hc Hp Hh Hlen Hlo Hhi. unfold do_ce. run (mycur_run _ _ Hc). run (proc_at_run _ _ _ Hp). split.
  - intros Hi. by rewrite (proj2 (Z.eqb_neq _ _) Hi).
  - intros ->. cbn [negb Z.eqb]. run (acquire_run _ _ Hh).
    destruct (do_ce_search (S NPROC) 0 (k <| held ::= cons Lptable |>)) as (n & Hr & Hn & Hb);
      [done|done|cbn; lia|cbn -[Z.of_nat]; lia|cbn; lia|].
    exists n. cbn in Hb. split; [done|]. split; [lia|]. run Hr.
    erewrite bind_run; [|by apply upd_proc_run]. rewrite bind_gets. cbn [namespace_id].
    erewrite bind_run; [|apply upd_proc_run; cbn; apply list_lookup_insert_eq; by eapply lookup_lt_Some].
    erewrite bind_run; [|done]. erewrite bind_run; [|apply release_run; cbn; by left].
    unfold ret. f_equal. kernel_eq. by rewrite list_insert_insert_eq.
Qed.

(** ** A small machine *)

(** Process 0 is init, in namespace 1; process 1 its child. *)
Definition demo_ce : kernel :=
  zero_kernel <| curproc := Some 1%nat |> <| procs ::= fun ps =>
       <[0%nat := zero_proc <| pid := 1 |> <| state := SLEEPING |> <| namespace := 1 |>]>
      (<[1%nat := zero_proc <| pid := 2 |> <| state := RUNNING |> <| parent := Some 0%nat |>]> ps) |>.

Lemma demo_ce_parents : forall i p j, procs demo_ce !! i = Some p -> parent p = Some j ->
  exists pj, procs demo_ce !! j = Some pj /\ 0 <= pid pj < pid p.
Proof.
  intros i p j Hp Hj. destruct i as [|[|i]].
  - by injection Hp as <-.
  - injection Hp as <-. injection Hj as <-. by eexists.
  - change (replicate 62 zero_proc !! i = Some p) in Hp. apply lookup_replicate in Hp as [-> _]. done.
Qed.

Lemma do_maxproc_once_witness :
  exists k', do_maxproc 5 demo_ce = Ret 0 k'.
Proof.
  eexists. eapply (do_maxproc_once 5 demo_ce 1 _ [1%nat; 0%nat] eq_refl eq_refl).
  - by apply not_elem_of_nil.
  - done.
  - apply demo_ce_parents.
  - econstructor; [done|]. cbn. econstructor; [done|]. constructor.
  - intros (i & p & Hi & Hp & Hn). repeat (apply elem_of_cons in Hi as [->|Hi]; [by injection Hp as <-|]).
    by apply elem_of_nil in Hi.
Defined.

Lemma do_ce_fresh_witness : exists n k', ~ in_use (procs demo_ce) n /\ do_ce demo_ce = Ret 0 k'.
Proof.
  destruct (do_ce_fresh demo_ce 1 _ eq_refl eq_refl) as [_ H]; [by apply not_elem_of_nil|done..|].
  destruct (H eq_refl) as (n & ? & _ & ?). by eexists n, _.
Defined.
