(* ===== verification/Sleeplock.v ===== *)
(** * Sleep locks

    [src/sleeplock.c].  A sleep lock lives in a buffer or in an in-memory inode
    ([slock] says which); its fields are protected by a spinlock of its own and
    waiters sleep on its address.  The wait loop is bounded by [WAITS], the
    number of times a waiter can be woken and find the lock taken again; a run
    that finds the lock free does not wait at all. *)

From S2P Require Import Prelude CString Headers Spinlock Ring Sched.

(** ** Where sleep locks live *)

Inductive slock := SLbuf (i : nat) | SLinode (i : nat).

Definition buf_at (i : nat) : K buf := let! bs := gets bufs in ofopt (bs !! i).
Definition upd_buf (i : nat) (f : buf -> buf) : K unit :=
  let! b := buf_at i in modify (fun k => k <| bufs ::= <[i := f b]> |>).
Definition inode_at (i : nat) : K inode := let! l := gets icache in ofopt (l !! i).
Definition upd_inode (i : nat) (f : inode -> inode) : K unit :=
  let! ip := inode_at i in modify (fun k => k <| icache ::= <[i := f ip]> |>).

Definition sl_get (s : slock) : K sleeplock :=
  match s with
  | SLbuf i => let! b := buf_at i in ret (b_lock b)
  | SLinode i => let! ip := inode_at i in ret (i_lock ip)
  end.
Definition sl_set (s : slock) (v : sleeplock) : K unit :=
  match s with
  | SLbuf i => upd_buf i (fun b => b <| b_lock := v |>)
  | SLinode i => upd_inode i (fun ip => ip <| i_lock := v |>)
  end.

(** The spinlock [lk->lk] and the address waiters sleep on. *)
Definition sl_spin (s : slock) : lock :=
  match s with SLbuf i => Lbuf i | SLinode i => Linode i end.
Definition sl_chan (s : slock) : channel :=
  match s with SLbuf i => Cbuflock i | SLinode i => Cinodelock i end.

(** ** Operations *)

Definition WAITS : nat := 64.

Definition initsleeplock (s : slock) : K unit :=
  do! initlock (sl_spin s) in
  sl_set s (mk_sleeplock 0 0).

Definition acquiresleep (s : slock) : K unit :=
  do! acquire (sl_spin s) in
  do! loop WAITS (fun _ : unit =>
    let! l := sl_get s in
    if negb (sl_locked l =? 0) then do! sleep (sl_chan s) (sl_spin s) in ret (inl tt)
    else ret (inr tt)) tt in
  let! me := mycur in
  let! p := proc_at me in
  do! sl_set s (mk_sleeplock 1 (pid p)) in
  release (sl_spin s).

Definition releasesleep (s : slock) : K unit :=
  do! acquire (sl_spin s) in
  do! sl_set s (mk_sleeplock 0 0) in
  do! wakeup (sl_chan s) in
  release (sl_spin s).

Definition holdingsleep (s : slock) : K Z :=
  do! acquire (sl_spin s) in
  let! l := sl_get s in
  do! release (sl_spin s) in
  ret (sl_locked l).

(** ** What the operations do when they do not have to wait *)

Definition sl_val (k : kernel) (s : slock) : option sleeplock :=
  match s with
  | SLbuf i => b_lock <$> bufs k !! i
  | SLinode i => i_lock <$> icache k !! i
  end.

Definition sl_upd (s : slock) (v : sleeplock) (k : kernel) : kernel :=
  match s with
  | SLbuf i => k <| bufs ::= alter (fun b => b <| b_lock := v |>) i |>
  | SLinode i => k <| icache ::= alter (fun ip => ip <| i_lock := v |>) i |>
  end.

Lemma buf_at_run i b k : bufs k !! i = Some b -> buf_at i k = Ret b k.
Proof. unfold buf_at, bind, gets. cbn. by intros ->. Qed.

Lemma upd_buf_run i b f k :
  bufs k !! i = Some b -> upd_buf i f k = Ret tt (k <| bufs ::= <[i := f b]> |>).
Proof. intros Hb. unfold upd_buf. by run (buf_at_run _ _ _ Hb). Qed.

Lemma inode_at_run i ip k : icache k !! i = Some ip -> inode_at i k = Ret ip k.
Proof. unfold inode_at, bind, gets. cbn. by intros ->. Qed.

Lemma upd_inode_run i ip f k :
  icache k !! i = Some ip -> upd_inode i f k = Ret tt (k <| icache ::= <[i := f ip]> |>).
Proof. intros Hb. unfold upd_inode. by run (inode_at_run _ _ _ Hb). Qed.

Lemma sl_get_run s v k : sl_val k s = Some v -> sl_get s k = Ret v k.
Proof.
  destruct s as [i|i]; cbn [sl_val sl_get]; intros (x & Hx & ->)%fmap_Some_1.
  - by run (buf_at_run _ _ _ Hx).
  - by run (inode_at_run _ _ _ Hx).
Qed.

Lemma sl_set_run s v w k : sl_val k s = Some v -> sl_set s w k = Ret tt (sl_upd s w k).
Proof.
  destruct s as [i|i]; cbn [sl_val sl_set sl_upd]; intros (x & Hx & ->)%fmap_Some_1.
  - rewrite (upd_buf_run _ _ _ _ Hx). f_equal. kernel_eq. by rewrite (alter_insert_id _ _ _ _ Hx).
  - rewrite (upd_inode_run _ _ _ _ Hx). f_equal. kernel_eq. by rewrite (alter_insert_id _ _ _ _ Hx).
Qed.

Lemma holdingsleep_run s v k :
  sl_val k s = Some v -> sl_spin s ∉ held k -> holdingsleep s k = Ret (sl_locked v) k.
Proof.
  intros Hv Hh. unfold holdingsleep. run (acquire_run _ _ Hh).
  erewrite bind_run; [|apply sl_get_run; by destruct s].
  erewrite bind_run; [|apply release_run; cbn; by left]. unfold ret. f_equal. kernel_eq. by rewrite remove_lock_head.
Qed.

Lemma acquiresleep_run s v k me p :
  sl_val k s = Some v -> sl_locked v = 0 -> sl_spin s ∉ held k ->
  curproc k = Some me -> procs k !! me = Some p ->
  acquiresleep s k = Ret tt (sl_upd s (mk_sleeplock 1 (pid p)) k).
Proof.
  intros Hv Hl Hh Hc Hp. unfold acquiresleep. run (acquire_run _ _ Hh). set (k1 := k <| held ::= _ |>).
  assert (Hv1 : sl_val k1 s = Some v) by (by destruct s).
  change WAITS with (S 63). cbn [loop].
  erewrite bind_run; [|unfold bind at 1; run (sl_get_run _ _ _ Hv1); rewrite Hl; done].
  run (mycur_run me k1 Hc). run (proc_at_run me p k1 Hp). run (sl_set_run s v (mk_sleeplock 1 (pid p)) k1 Hv1).
  rewrite release_run by (destruct s; cbn; by left). f_equal.
  destruct s; kernel_eq; by rewrite remove_lock_head.
Qed.

(** The scheduler's data are well-formed; what every operation that may call
    [wakeup] needs. *)
Record sched_ok (k : kernel) : Prop := {
  so_queues : queues_wf k;
  so_len : length (procs k) = NPROC;
  so_prio : Forall prio_ok (procs k) }.

Lemma sched_ok_ext k k' :
  procs k' = procs k -> pqueues k' = pqueues k -> htindex k' = htindex k -> sched_ok k -> sched_ok k'.
Proof. intros E1 E2 E3 [[H1 H2 H3 H4] H5 H6]. split; [split|..]; by rewrite ?E1, ?E2, ?E3. Qed.

(** [k'] is [k] after some wake-ups: only the scheduler's data differ, and no
    process has another identity. *)
Record woke (k k' : kernel) : Prop := {
  wk_same : same_but_sched k k';
  wk_ok : sched_ok k -> sched_ok k';
  wk_pid : forall i p, procs k !! i = Some p -> exists p', procs k' !! i = Some p' /\ pid p' = pid p }.

Lemma woke_refl k : woke k k.
Proof. split; [apply same_but_sched_refl|done|eauto]. Qed.

Lemma woke_trans k1 k2 k3 : woke k1 k2 -> woke k2 k3 -> woke k1 k3.
Proof.
  intros [H1 H2 H3] [H4 H5 H6]. split; [by eapply same_but_sched_trans|auto|].
  intros i p Hp. destruct (H3 i p Hp) as (p' & Hp' & <-). by apply H6.
Qed.

Lemma wakeup_woke ch k :
  sched_ok k -> Lptable ∉ held k -> exists k', wakeup ch k = Ret tt k' /\ woke k k'.
Proof.
  intros [Hq Hl Hp] Hh. destruct (wakeup_run ch k Hq Hl Hp Hh) as (k' & Hr & Hw & Hs & Hps).
  exists k'. split; [done|]. split; [done| |].
  - intros _. split; [done|by rewrite Hps, length_fmap|]. rewrite Hps. apply Forall_fmap.
    eapply Forall_impl; [done|]. intros p Hok. unfold prio_ok. cbn. rewrite woken_queueType.
    intros Hqt. specialize (Hok Hqt). unfold woken. by repeat case_match.
  - intros i p Hi. exists (woken (Some ch) p). rewrite Hps, list_lookup_fmap, Hi. split; [done|].
    unfold woken. by repeat case_match.
Qed.

Lemma releasesleep_run s v k :
  sl_val k s = Some v -> sl_spin s ∉ held k -> Lptable ∉ held k -> sched_ok k ->
  exists k', releasesleep s k = Ret tt k' /\ woke (sl_upd s (mk_sleeplock 0 0) k) k'.
Proof.
  intros Hv Hh Hpt Hs. unfold releasesleep. run (acquire_run _ _ Hh). set (k1 := k <| held ::= _ |>).
  assert (Hv1 : sl_val k1 s = Some v) by (by destruct s).
  run (sl_set_run s v (mk_sleeplock 0 0) k1 Hv1). set (k2 := sl_upd _ _ k1).
  destruct (wakeup_woke (sl_chan s) k2) as (k3 & Hr & Hw).
  - eapply sched_ok_ext; [..|done]; by destruct s.
  - assert (held k2 = sl_spin s :: held k) as -> by (by destruct s). apply not_elem_of_cons.
    split; [by destruct s|done].
  - run Hr. assert (Hh3 : held k3 = sl_spin s :: held k).
    { destruct Hw as [-> _ _]. by destruct s. }
    rewrite release_run by (rewrite Hh3; by left). eexists. split; [done|]. destruct Hw as [Hw1 Hw2 Hw3]. split.
    + unfold same_but_sched. destruct s; kernel_eq; first [by rewrite Hh3, remove_lock_head|by rewrite Hw1].
    + intros Hok. eapply sched_ok_ext; [..|apply Hw2; eapply sched_ok_ext; [..|done]]; by destruct s.
    + intros i p Hi. apply Hw3. by destruct s.
Qed.
