(* ===== verification/Dll.v ===== *)
(** * Doubly linked lists

    The shape of a doubly linked list threaded through a table: [seg nx pv a l z]
    says that following [nx] from [a] visits the entries [l] in order and then
    [z], and that [pv] leads back the same way.  A circular list with head [h]
    is a segment from [h] to [h]. *)

From S2P Require Import Prelude.

Fixpoint seg (nx pv : nat -> nat) (a : nat) (l : list nat) (z : nat) : Prop :=
  match l with
  | [] => nx a = z /\ pv z = a
  | x :: l' => nx a = x /\ pv x = a /\ seg nx pv x l' z
  end.

(** One direction of it. *)
Fixpoint path (f : nat -> nat) (a : nat) (l : list nat) (z : nat) : Prop :=
  match l with
  | [] => f a = z
  | x :: l' => f a = x /\ path f x l' z
  end.

Definition upd (f : nat -> nat) (a b : nat) : nat -> nat := fun x => if decide (x = a) then b else f x.

Lemma upd_eq f a b : upd f a b a = b.
Proof. unfold upd. by rewrite decide_True. Qed.

Lemma upd_ne f a b x : x <> a -> upd f a b x = f x.
Proof. unfold upd. intros. by rewrite decide_False. Qed.

(** A segment depends on [nx] before its end and on [pv] after its start. *)
Lemma seg_ext nx pv nx' pv' a l z :
  (forall x, x ∈ a :: l -> nx' x = nx x) -> (forall x, x ∈ l ++ [z] -> pv' x = pv x) ->
  seg nx pv a l z -> seg nx' pv' a l z.
Proof.
  revert a. induction l as [|y l IH]; intros a Hn Hp; cbn.
  - intros [E1 E2]. rewrite Hn, Hp by set_solver. done.
  - intros (E1 & E2 & Hs). rewrite Hn, Hp by set_solver. split_and!; [done..|].
    apply IH; [intros; apply Hn; set_solver|intros; apply Hp; set_solver|done].
Qed.

Lemma seg_app nx pv a l1 x l2 z :
  seg nx pv a (l1 ++ x :: l2) z <-> seg nx pv a l1 x /\ seg nx pv x l2 z.
Proof. revert a. induction l1 as [|y l1 IH]; intros a; cbn; [tauto|]. rewrite IH. tauto. Qed.

Lemma seg_path_next nx pv a l z : seg nx pv a l z -> path nx a l z.
Proof. revert a. induction l as [|x l IH]; intros a; cbn; [tauto|]. intros (? & _ & ?). auto. Qed.

Lemma path_snoc f a l x z : path f a (l ++ [x]) z <-> path f a l x /\ f x = z.
Proof. revert a. induction l as [|y l IH]; intros a; cbn; [tauto|]. rewrite IH. tauto. Qed.

Lemma seg_path_prev nx pv a l z : seg nx pv a l z -> path pv z (reverse l) a.
Proof.
  revert a. induction l as [|x l IH]; intros a; cbn [seg]; [cbn; tauto|]. intros (_ & Hp & Hs).
  rewrite reverse_cons. apply path_snoc. auto.
Qed.

(** The ends of the neighbours of an entry. *)
Lemma seg_next nx pv a l z : seg nx pv a l z -> nx a = default z (head l).
Proof. destruct l; cbn; tauto. Qed.

Lemma seg_prev nx pv a l z : seg nx pv a l z -> pv z = default a (last l).
Proof.
  revert a. induction l as [|x l IH]; intros a; [cbn; tauto|]. intros (_ & _ & Hs). cbn [seg] in Hs.
  rewrite (IH x Hs). destruct l as [|y l]; [done|]. rewrite last_cons_cons.
  destruct (last (y :: l)) eqn:E; [done|]. by apply last_None in E.
Qed.

(** Taking an entry out. *)
Lemma seg_unlink nx pv a l1 i l2 z :
  seg nx pv a (l1 ++ i :: l2) z -> NoDup (a :: l1 ++ i :: l2) -> z ∉ l1 ++ i :: l2 ->
  seg (upd nx (pv i) (nx i)) (upd pv (nx i) (pv i)) a (l1 ++ l2) z.
Proof.
  revert a. induction l1 as [|b l1 IH]; intros a Hs Hnd Hz; cbn in Hs |- *.
  - destruct Hs as (Hna & Hpi & Hs). rewrite Hpi. apply NoDup_cons in Hnd as [Ha Hnd].
    apply NoDup_cons in Hnd as [Hi Hnd]. destruct l2 as [|y l2]; cbn in Hs |- *.
    + destruct Hs as [-> _]. by rewrite !upd_eq.
    + destruct Hs as (-> & _ & Hs). rewrite !upd_eq. split_and!; [done..|].
      eapply seg_ext; [| |exact Hs]; intros x Hx; apply upd_ne; [set_solver|].
      apply NoDup_cons in Hnd as [Hy _]. intros ->. apply elem_of_app in Hx as [Hx|Hx]; set_solver.
  - destruct Hs as (Hna & Hpb & Hs). apply NoDup_cons in Hnd as [Ha Hnd].
    apply seg_app in Hs as Hs2. destruct Hs2 as [Hs1 Hs2].
    assert (Hpi : pv i ∈ b :: l1).
    { rewrite (seg_prev _ _ _ _ _ Hs1). destruct (last l1) eqn:El; cbn; [right; by apply last_Some_elem_of|by left]. }
    assert (Hni : nx i ∈ l2 ++ [z]).
    { rewrite (seg_next _ _ _ _ _ Hs2). destruct l2; set_solver. }
    rewrite !upd_ne.
    + split_and!; [done..|]. apply IH; [done|done|set_solver].
    + intros Hb. rewrite <- Hb in Hni. apply NoDup_cons in Hnd as [Hnb _]. set_solver.
    + intros Hb. rewrite <- Hb in Hpi. set_solver.
Qed.

(** Putting an entry first in a circular list: the four assignments of
    [brelse] and [binit], in order. *)
Lemma seg_link_first nx pv h l i :
  seg nx pv h l h -> i ∉ h :: l -> NoDup (h :: l) ->
  let nx1 := upd nx i (nx h) in
  let pv1 := upd pv i h in
  seg (upd nx1 h i) (upd pv1 (nx1 h) i) h (i :: l) h.
Proof.
  intros Hs Hi Hnd nx1 pv1. assert (Hih : i <> h) by set_solver.
  assert (E : nx1 h = nx h) by (apply upd_ne; congruence). rewrite E.
  assert (Hi1 : nx1 i = nx h) by apply upd_eq. assert (Hi2 : pv1 i = h) by apply upd_eq.
  cbn [seg]. rewrite upd_eq. destruct l as [|x l]; cbn [seg] in Hs |- *.
  - destruct Hs as [Hn Hp]. rewrite Hn in *. rewrite (upd_ne _ h i i), (upd_ne nx1), upd_eq by done. done.
  - destruct Hs as (Hn & Hp & Hs). rewrite Hn in *. assert (i <> x) by set_solver.
    rewrite (upd_ne _ x i i), (upd_ne nx1), upd_eq by done. split_and!; [done..|].
    eapply seg_ext; [| |exact Hs]; intros y Hy; unfold nx1, pv1.
    + rewrite !upd_ne; [done|set_solver|]. apply NoDup_cons in Hnd as [Hh _]. set_solver.
    + apply NoDup_cons in Hnd as [Hh Hnd]. apply NoDup_cons in Hnd as [Hx _].
      rewrite !upd_ne; [done|set_solver|]. intros ->. apply elem_of_app in Hy as [Hy|Hy]; set_solver.
Qed.
