(* ===== verification/Bio.v ===== *)
(** * Block cache and disk

    [src/bio.c] over the synchronous disk of [src/memide.c].  The [NBUF] buffers
    are entries 0 to [NBUF - 1] of [kernel.bufs] and the list head is entry
    [NBUF]; the list is doubly linked through [b_prev] and [b_next] as in the
    source.  The disk holds a block for every valid block number; every write
    is also recorded in [disk_writes], so that theorems can speak of the disk
    after a crash between any two writes. *)

From S2P Require Import Prelude CString Headers Spinlock Ring Sched Sleeplock Dll.

(** ** memide.c *)

Definition iderw (i : nat) : K unit :=
  let! h := holdingsleep (SLbuf i) in
  if h =? 0 then panic "iderw: buf not locked"
  else
    let! b := buf_at i in
    if Z.land (b_flags b) (Z.lor B_VALID B_DIRTY) =? B_VALID then panic "iderw: nothing to do"
    else if negb (b_dev b =? 1) then panic "iderw: request not for disk 1"
    else
      let! d := gets disk in
      match d !! b_blockno b with
      | None => panic "iderw: block out of range"
      | Some p =>
          do! (if negb (Z.land (b_flags b) B_DIRTY =? 0) then
                 do! upd_buf i (fun b => b <| b_flags := Z.land (b_flags b) (Z.lnot B_DIRTY) |>) in
                 modify (fun k => k <| disk ::= <[b_blockno b := b_data b]> |>
                                    <| disk_writes ::= cons (b_blockno b, b_data b) |>)
               else upd_buf i (fun b => b <| b_data := p |>)) in
          upd_buf i (fun b => b <| b_flags := Z.lor (b_flags b) B_VALID |>)
      end.

(** ** bio.c *)

(** The index of [bcache.head]. *)
Definition HEAD : nat := NBUF.

(** Insert buffer [i] after the head. *)
Definition link_first (i : nat) : K unit :=
  let! h := buf_at HEAD in
  do! upd_buf i (fun b => b <| b_next := b_next h |>) in
  do! upd_buf i (fun b => b <| b_prev := HEAD |>) in
  let! h := buf_at HEAD in
  do! upd_buf (b_next h) (fun b => b <| b_prev := i |>) in
  upd_buf HEAD (fun b => b <| b_next := i |>).

Definition binit : K unit :=
  do! initlock Lbcache in
  do! upd_buf HEAD (fun b => b <| b_prev := HEAD |>) in
  do! upd_buf HEAD (fun b => b <| b_next := HEAD |>) in
  foreach (seq 0 NBUF) (fun i =>
    let! h := buf_at HEAD in
    do! upd_buf i (fun b => b <| b_next := b_next h |>) in
    do! upd_buf i (fun b => b <| b_prev := HEAD |>) in
    do! initsleeplock (SLbuf i) in
    let! h := buf_at HEAD in
    do! upd_buf (b_next h) (fun b => b <| b_prev := i |>) in
    upd_buf HEAD (fun b => b <| b_next := i |>)).

(** [for (b = head.next; b != &head; b = b->next)], stopping at the first buffer
    [test] accepts; [dir] is [b_next] or [b_prev].  [NBUF + 1] steps reach the
    head again. *)
Definition walk (dir : buf -> nat) (test : buf -> bool) : K (option nat) :=
  let! h := buf_at HEAD in
  loop (S NBUF) (fun i =>
    if (i =? HEAD)%nat then ret (inr None)
    else
      let! b := buf_at i in
      if test b then ret (inr (Some i)) else ret (inl (dir b))) (dir h).

Definition bget (dev blockno : Z) : K nat :=
  do! acquire Lbcache in
  let! r := walk b_next (fun b => (b_dev b =? dev) && (b_blockno b =? blockno)) in
  match r with
  | Some i =>
      do! upd_buf i (fun b => b <| b_refcnt ::= fun n => u32 (n + 1) |>) in
      do! release Lbcache in
      do! acquiresleep (SLbuf i) in
      ret i
  | None =>
      let! r := walk b_prev (fun b => (b_refcnt b =? 0) && (Z.land (b_flags b) B_DIRTY =? 0)) in
      match r with
      | Some i =>
          do! upd_buf i (fun b => b <| b_dev := dev |> <| b_blockno := blockno |>
                                    <| b_flags := 0 |> <| b_refcnt := 1 |>) in
          do! release Lbcache in
          do! acquiresleep (SLbuf i) in
          ret i
      | None => panic "bget: no buffers"
      end
  end.

Definition bread (dev blockno : Z) : K nat :=
  let! i := bget dev blockno in
  let! b := buf_at i in
  do! when (Z.land (b_flags b) B_VALID =? 0) (iderw i) in
  ret i.

Definition bwrite (i : nat) : K unit :=
  let! h := holdingsleep (SLbuf i) in
  if h =? 0 then panic "bwrite"
  else
    do! upd_buf i (fun b => b <| b_flags := Z.lor (b_flags b) B_DIRTY |>) in
    iderw i.

Definition brelse (i : nat) : K unit :=
  let! h := holdingsleep (SLbuf i) in
  if h =? 0 then panic "brelse"
  else
    do! releasesleep (SLbuf i) in
    do! acquire Lbcache in
    do! upd_buf i (fun b => b <| b_refcnt ::= fun n => u32 (n - 1) |>) in
    let! b := buf_at i in
    do! when (b_refcnt b =? 0) (
      do! upd_buf (b_next b) (fun x => x <| b_prev := b_prev b |>) in
      let! b := buf_at i in
      do! upd_buf (b_prev b) (fun x => x <| b_next := b_next b |>) in
      link_first i) in
    release Lbcache.

(** ** The cache's invariant *)

(** The process running file system code: it holds no spinlock. *)
Record env (me : nat) (pd : Z) (k : kernel) : Prop := {
  ev_cur : curproc k = Some me;
  ev_pid : exists p, procs k !! me = Some p /\ pid p = pd;
  ev_held : held k = [];
  ev_sched : sched_ok k }.

Definition nx (bs : list buf) (a : nat) : nat := match bs !! a with Some b => b_next b | None => 0%nat end.
Definition pv (bs : list buf) (a : nat) : nat := match bs !! a with Some b => b_prev b | None => 0%nat end.

(** One buffer: it is unused, or holds a block of the disk; it is locked exactly
    when it is referenced; when it is neither locked nor dirty its data are
    those of the disk.  2 is [B_VALID] and 6 is [B_VALID|B_DIRTY]. *)
Record buf_ok (d : gmap Z (list Z)) (b : buf) : Prop := {
  bo_lock : sl_locked (b_lock b) = b_refcnt b /\ (b_refcnt b = 0 \/ b_refcnt b = 1);
  bo_state : (b_dev b = 0 /\ b_flags b = 0 /\ b_refcnt b = 0) \/
    (b_dev b = 1 /\ (b_flags b = 2 \/ b_flags b = 6) /\ is_Some (d !! b_blockno b) /\
     length (b_data b) = Z.to_nat BSIZE /\
     (b_refcnt b = 0 -> b_flags b = 2 -> d !! b_blockno b = Some (b_data b))) }.

(** No two buffers hold the same block. *)
Definition uniq (bs : list buf) : Prop :=
  forall i j bi bj, (i < NBUF)%nat -> (j < NBUF)%nat -> bs !! i = Some bi -> bs !! j = Some bj ->
    b_dev bi = 1 -> b_dev bj = 1 -> b_blockno bi = b_blockno bj -> i = j.

(** [l] is the order of the list, most recently used first. *)
Record bc_inv (k : kernel) (l : list nat) : Prop := {
  bc_len : length (bufs k) = S NBUF;
  bc_perm : l ≡ₚ seq 0 NBUF;
  bc_dll : seg (nx (bufs k)) (pv (bufs k)) HEAD l HEAD;
  bc_uniq : uniq (bufs k);
  bc_ok : forall i b, (i < NBUF)%nat -> bufs k !! i = Some b -> buf_ok (disk k) b;
  bc_disk : forall n d, disk k !! n = Some d -> length d = Z.to_nat BSIZE }.

(** The first buffer of [l] that passes a test. *)
Fixpoint find_buf (test : buf -> bool) (bs : list buf) (l : list nat) : option nat :=
  match l with
  | [] => None
  | i :: l' => if match bs !! i with Some b => test b | None => false end then Some i else find_buf test bs l'
  end.

Definition holds (n : Z) (b : buf) : bool := (b_dev b =? 1) && (b_blockno b =? n).
Definition recyclable (b : buf) : bool := (b_refcnt b =? 0) && (Z.land (b_flags b) B_DIRTY =? 0).

(** The buffer of a block, and the contents of a block as the file system sees it. *)
Definition buf_of (bs : list buf) (n : Z) : option nat := find_buf (holds n) bs (seq 0 NBUF).
Definition blk (k : kernel) (n : Z) : option (list Z) :=
  match buf_of (bufs k) n with
  | Some i => b_data <$> bufs k !! i
  | None => disk k !! n
  end.

Lemma find_buf_Some test bs l i :
  find_buf test bs l = Some i -> i ∈ l /\ exists b, bs !! i = Some b /\ test b = true.
Proof.
  induction l as [|j l IH]; [done|]. cbn. destruct (bs !! j) as [b|] eqn:Ej; [destruct (test b) eqn:Et|].
  - intros [= <-]. split; [by left|]. eauto.
  - intros [? ?]%IH. split; [by right|done].
  - intros [? ?]%IH. split; [by right|done].
Qed.

Lemma find_buf_None test bs l :
  find_buf test bs l = None <-> forall i b, i ∈ l -> bs !! i = Some b -> test b = false.
Proof.
  induction l as [|j l IH]; cbn.
  - split; [|done]. intros _ i b Hi. by apply elem_of_nil in Hi.
  - destruct (bs !! j) as [b|] eqn:Ej; [destruct (test b) eqn:Et|].
    + split; [done|]. intros H. specialize (H j b ltac:(by left) Ej). congruence.
    + rewrite IH. split; intros H i b' Hi Hb'; [|eapply H; [by right|done]].
      apply elem_of_cons in Hi as [->|Hi]; [congruence|by eapply H].
    + rewrite IH. split; intros H i b' Hi Hb'; [|eapply H; [by right|done]].
      apply elem_of_cons in Hi as [->|Hi]; [congruence|by eapply H].
Qed.

Lemma holds_true n b : holds n b = true <-> b_dev b = 1 /\ b_blockno b = n.
Proof. unfold holds. rewrite andb_true_iff, !Z.eqb_eq. done. Qed.

Lemma buf_of_Some bs n i b :
  uniq bs -> length bs = S NBUF ->
  (i < NBUF)%nat -> bs !! i = Some b -> b_dev b = 1 -> b_blockno b = n -> buf_of bs n = Some i.
Proof.
  intros Hu Hlen Hi Hb Hd Hn. unfold buf_of. destruct (find_buf (holds n) bs (seq 0 NBUF)) as [j|] eqn:Hf.
  - apply find_buf_Some in Hf as (Hj%elem_of_seq & b' & Hb' & [? ?]%holds_true).
    f_equal. eapply Hu; try done; [lia|congruence].
  - rewrite find_buf_None in Hf. assert (holds n b = false); [|rewrite (proj2 (holds_true n b)) in *; done].
    apply (Hf i); [apply elem_of_seq; lia|done].
Qed.

Lemma buf_of_inv bs n i :
  buf_of bs n = Some i -> (i < NBUF)%nat /\ exists b, bs !! i = Some b /\ b_dev b = 1 /\ b_blockno b = n.
Proof.
  intros (Hi%elem_of_seq & b & Hb & ?%holds_true)%find_buf_Some. split; [lia|]. eauto.
Qed.

Lemma buf_of_None bs n i b :
  buf_of bs n = None -> (i < NBUF)%nat -> bs !! i = Some b -> b_dev b = 1 -> b_blockno b <> n.
Proof.
  intros Hf Hi Hb Hd Hn. unfold buf_of in Hf. rewrite find_buf_None in Hf.
  assert (holds n b = false); [apply (Hf i); [apply elem_of_seq; lia|done]|].
  rewrite (proj2 (holds_true n b)) in *; done.
Qed.

(** Whatever the order of the list, the search finds the buffer of the block. *)
Lemma find_holds k l n : bc_inv k l -> find_buf (holds n) (bufs k) l = buf_of (bufs k) n.
Proof.
  intros Hbc. destruct (find_buf (holds n) (bufs k) l) as [i|] eqn:Hf.
  - apply find_buf_Some in Hf as (Hi & b & Hb & [? ?]%holds_true). rewrite (bc_perm _ _ Hbc) in Hi.
    apply elem_of_seq in Hi. symmetry. eapply buf_of_Some; try done; [apply Hbc|apply Hbc|lia].
  - symmetry. apply find_buf_None. intros i b Hi. rewrite find_buf_None in Hf. apply Hf.
    by rewrite (bc_perm _ _ Hbc).
Qed.

(** ** Walking the list *)

Lemma walk_run dir test k l :
  path (fun a => match bufs k !! a with Some b => dir b | None => 0%nat end) HEAD l HEAD ->
  length (bufs k) = S NBUF -> l ≡ₚ seq 0 NBUF ->
  walk dir test k = Ret (find_buf test (bufs k) l) k.
Proof.
  intros Hp Hlen Hl. unfold walk.
  destruct (lookup_lt_is_Some_2 (bufs k) HEAD) as [h Hh]; [unfold HEAD; lia|].
  run (buf_at_run _ _ _ Hh).
  assert (Hin : forall i, i ∈ l -> (i < NBUF)%nat) by (intros i Hi; rewrite Hl in Hi; apply elem_of_seq in Hi; lia).
  assert (Hll : length l = NBUF) by (by rewrite Hl, length_seq).
  assert (Hst : dir h = default HEAD (head l)).
  { destruct l as [|x l]; cbn in Hp |- *; rewrite Hh in Hp; tauto. }
  rewrite Hst. clear Hst Hl.
  assert (Hgen : forall fuel a, path (fun a => match bufs k !! a with Some b => dir b | None => 0%nat end) a l HEAD ->
    (length l < fuel)%nat -> loop fuel (fun i => if (i =? HEAD)%nat then ret (inr None)
      else let! b := buf_at i in if test b then ret (inr (Some i)) else ret (inl (dir b)))
      (default HEAD (head l)) k = Ret (find_buf test (bufs k) l) k).
  2: { by eapply Hgen; [|rewrite Hll; lia]. }
  clear Hp Hll h Hh. induction l as [|x l IH]; intros [|fuel] a Hp Hf; cbn [length] in Hf; try lia.
  - done.
  - cbn [head default loop find_buf]. unfold id. assert (Hx : (x < NBUF)%nat) by (apply Hin; by left).
    assert ((x =? HEAD)%nat = false) as -> by (apply Nat.eqb_neq; unfold HEAD; lia).
    destruct (lookup_lt_is_Some_2 (bufs k) x) as [b Hb]; [lia|].
    unfold bind at 1. run (buf_at_run _ _ _ Hb). rewrite Hb.
    destruct (test b); [done|]. cbn [bindO ret].
    destruct Hp as [_ Hp].
    assert (dir b = default HEAD (head l)) as ->.
    { destruct l as [|y l]; cbn in Hp |- *; rewrite Hb in Hp; tauto. }
    eapply IH; [intros i Hi; apply Hin; by right|exact Hp|lia].
Qed.

(** ** Replacing one buffer *)

Definition put_buf (i : nat) (b : buf) (k : kernel) : kernel := k <| bufs ::= <[i := b]> |>.

Lemma put_buf_put i b b' k : put_buf i b' (put_buf i b k) = put_buf i b' k.
Proof. unfold put_buf. kernel_eq. apply list_insert_insert_eq. Qed.

Lemma sl_upd_put i v b k :
  (i < length (bufs k))%nat -> sl_upd (SLbuf i) v (put_buf i b k) = put_buf i (b <| b_lock := v |>) k.
Proof.
  intros Hi. unfold put_buf. kernel_eq. erewrite alter_insert_id; [|by apply list_lookup_insert_eq].
  apply list_insert_insert_eq.
Qed.

Lemma put_buf_lookup i b k : (i < length (bufs k))%nat -> bufs (put_buf i b k) !! i = Some b.
Proof. apply list_lookup_insert_eq. Qed.

Lemma links_put (f : buf -> nat) i b b' (bs : list buf) a :
  bs !! i = Some b -> f b' = f b ->
  match <[i := b']> bs !! a with Some x => f x | None => 0%nat end =
  match bs !! a with Some x => f x | None => 0%nat end.
Proof.
  intros Hb Hf. destruct (decide (i = a)) as [<-|Hne].
  - rewrite list_lookup_insert_eq by (by eapply lookup_lt_Some). by rewrite Hb.
  - by rewrite list_lookup_insert_ne.
Qed.

Lemma bc_inv_put k l i b b' :
  bc_inv k l -> (i < NBUF)%nat -> bufs k !! i = Some b -> b_next b' = b_next b -> b_prev b' = b_prev b ->
  buf_ok (disk k) b' ->
  (b_dev b' = 1 -> forall j bj, (j < NBUF)%nat -> j <> i -> bufs k !! j = Some bj -> b_dev bj = 1 ->
     b_blockno bj <> b_blockno b') ->
  bc_inv (put_buf i b' k) l.
Proof.
  intros [H1 H2 H3 H4 H5 H6] Hi Hb Hn Hp Hok Hu. split; cbn; [by rewrite length_insert|done| | | |done].
  - eapply seg_ext; [| |exact H3]; intros x _; by eapply links_put.
  - intros x y bx b_y Hx Hy Hbx Hby.
    apply list_lookup_insert_Some in Hbx as [(<- & <- & _)|[Hnx Hbx]];
      apply list_lookup_insert_Some in Hby as [(<- & <- & _)|[Hny Hby]]; intros Dx Dy E.
    + done.
    + exfalso. by eapply (Hu Dx y b_y).
    + exfalso. by eapply (Hu Dy x bx).
    + by eapply (H4 x y).
  - intros x bx Hx Hbx. apply list_lookup_insert_Some in Hbx as [(<- & <- & _)|[_ Hbx]]; [done|by eapply H5].
Qed.

(** How the contents of the blocks change. *)
Lemma blk_put k l i b b' n :
  bc_inv k l -> (i < NBUF)%nat -> bufs k !! i = Some b -> bc_inv (put_buf i b' k) l ->
  blk (put_buf i b' k) n =
    if decide (b_dev b' = 1 /\ b_blockno b' = n) then Some (b_data b')
    else if decide (b_dev b = 1 /\ b_blockno b = n) then disk k !! n
    else blk k n.
Proof.
  intros Hbc Hi Hb Hbc'. assert (Hlt : (i < length (bufs k))%nat) by (by eapply lookup_lt_Some).
  unfold blk. change (disk (put_buf i b' k)) with (disk k). destruct (decide (b_dev b' = 1 /\ _)) as [[Hd Hn]|Hno].
  - rewrite (buf_of_Some _ n i b'); try done; try apply Hbc'; [|by apply put_buf_lookup].
    by rewrite put_buf_lookup.
  - destruct (buf_of (bufs (put_buf i b' k)) n) as [j|] eqn:Ej.
    + apply buf_of_inv in Ej as (Hj & bj & Hbj & Hdj & Hnj). rewrite Hbj. cbn in Hbj.
      apply list_lookup_insert_Some in Hbj as [(-> & -> & _)|[Hne Hbj]]; [exfalso; by apply Hno|].
      rewrite decide_False; [rewrite (buf_of_Some _ n j bj); try done; try apply Hbc; by rewrite Hbj|].
      intros [Hd Hn]. apply Hne. eapply (bc_uniq _ _ Hbc); try done. congruence.
    + case_decide as Hd; [done|]. destruct (buf_of (bufs k) n) as [j|] eqn:Ej'; [|done]. exfalso.
      apply buf_of_inv in Ej' as (Hj & bj & Hbj & Hdj & Hnj).
      eapply (buf_of_None _ _ j bj Ej); try done. cbn. rewrite list_lookup_insert_ne; [done|].
      intros <-. simplify_eq. by apply Hd.
Qed.

(** ** Reading a block *)

Lemma in_env me pd k : env me pd k -> exists p, curproc k = Some me /\ procs k !! me = Some p /\ pid p = pd.
Proof. intros [Hc (p & Hp & Hd) _ _]. eauto. Qed.

Lemma env_put me pd k i b : env me pd k -> env me pd (put_buf i b k).
Proof. intros [H1 H2 H3 H4]. split; try done. by eapply sched_ok_ext; [..|done]. Qed.

(** Common end of both branches of [bget]: buffer [i] is made [b'], the cache's lock
    released and the buffer's sleep lock taken. *)
Lemma bget_finish me pd k i b f :
  env me pd k -> bufs k !! i = Some b -> sl_locked (b_lock (f b)) = 0 ->
  (do! upd_buf i f in do! release Lbcache in do! acquiresleep (SLbuf i) in ret i)
    (k <| held ::= cons Lbcache |>) =
  Ret i (put_buf i ((f b) <| b_lock := mk_sleeplock 1 pd |>) k).
Proof.
  intros Hev Hb Hl. destruct (in_env _ _ _ Hev) as (p & Hc & Hp & <-). assert (Hh := ev_held _ _ _ Hev).
  assert (Hlt := lookup_lt_Some _ _ _ Hb).
  erewrite bind_run; [|by apply upd_buf_run]. erewrite bind_run; [|apply release_run; cbn; by left].
  set (k2 := _ <| held ::= remove_lock _ |>).
  assert (k2 = put_buf i (f b) k) as -> by (unfold k2, put_buf; kernel_eq; by rewrite remove_lock_head).
  erewrite bind_run; [|eapply acquiresleep_run; [cbn; by rewrite list_lookup_insert_eq|done|cbn; rewrite Hh; set_solver|done|done]].
  unfold ret. by rewrite sl_upd_put by done.
Qed.

(** The searches of [bget]: first for the block, then backwards for a free buffer. *)
Lemma bget_search me pd k l n :
  env me pd k -> bc_inv k l ->
  bget 1 n k =
  (match buf_of (bufs k) n with
   | Some i =>
       do! upd_buf i (fun b => b <| b_refcnt ::= fun n => u32 (n + 1) |>) in
       do! release Lbcache in
       do! acquiresleep (SLbuf i) in
       ret i
   | None =>
       match find_buf recyclable (bufs k) (reverse l) with
       | Some i =>
           do! upd_buf i (fun b => b <| b_dev := 1 |> <| b_blockno := n |> <| b_flags := 0 |> <| b_refcnt := 1 |>) in
           do! release Lbcache in
           do! acquiresleep (SLbuf i) in
           ret i
       | None => panic "bget: no buffers"
       end
   end) (k <| held ::= cons Lbcache |>).
Proof.
  intros Hev Hbc. assert (Hh := ev_held _ _ _ Hev). unfold bget.
  run (acquire_run Lbcache k ltac:(rewrite Hh; set_solver)).
  erewrite bind_run; [|apply walk_run; [exact (seg_path_next _ _ _ _ _ (bc_dll _ _ Hbc))|apply Hbc|apply Hbc]].
  change (fun b => (b_dev b =? 1) && (b_blockno b =? n)) with (holds n).
  change (bufs (k <| held ::= _ |>)) with (bufs k). rewrite (find_holds _ _ _ Hbc).
  destruct (buf_of (bufs k) n); [done|].
  erewrite bind_run; [|apply walk_run; [exact (seg_path_prev _ _ _ _ _ (bc_dll _ _ Hbc))|apply Hbc|]].
  2: { rewrite reverse_Permutation. apply Hbc. }
  change (fun b => (b_refcnt b =? 0) && (Z.land (b_flags b) B_DIRTY =? 0)) with recyclable.
  change (bufs (k <| held ::= _ |>)) with (bufs k). by destruct (find_buf _ _ _).
Qed.

Lemma bget_cached me pd k l n i b :
  env me pd k -> bc_inv k l -> buf_of (bufs k) n = Some i -> bufs k !! i = Some b -> b_refcnt b = 0 ->
  bget 1 n k = Ret i (put_buf i (b <| b_refcnt := 1 |> <| b_lock := mk_sleeplock 1 pd |>) k).
Proof.
  intros Hev Hbc Hf Hb Hr. rewrite (bget_search me pd k l n Hev Hbc), Hf.
  destruct (buf_of_inv _ _ _ Hf) as (Hi & _). destruct (bc_ok _ _ Hbc i b Hi Hb) as [[Hlk _] _].
  rewrite (bget_finish me pd k i b); [|done|done|cbn; congruence].
  assert (b <| b_refcnt ::= fun n => u32 (n + 1) |> = b <| b_refcnt := 1 |>) as ->; [|done].
  destruct b; cbn in Hr; by subst.
Qed.

Lemma bget_recycles me pd k l n i b :
  env me pd k -> bc_inv k l -> buf_of (bufs k) n = None ->
  find_buf recyclable (bufs k) (reverse l) = Some i -> bufs k !! i = Some b ->
  bget 1 n k = Ret i (put_buf i (b <| b_dev := 1 |> <| b_blockno := n |> <| b_flags := 0 |>
                                   <| b_refcnt := 1 |> <| b_lock := mk_sleeplock 1 pd |>) k).
Proof.
  intros Hev Hbc Hf Hr Hb. rewrite (bget_search me pd k l n Hev Hbc), Hf, Hr.
  apply find_buf_Some in Hr as (Hi & b' & Hb' & Hrec). rewrite elem_of_reverse, (bc_perm _ _ Hbc) in Hi.
  apply elem_of_seq in Hi. rewrite Hb in Hb'. injection Hb' as <-. destruct (bc_ok _ _ Hbc i b ltac:(lia) Hb) as [[Hlk _] _].
  apply andb_true_iff in Hrec as [Hrc%Z.eqb_eq _].
  by rewrite (bget_finish me pd k i b); [|done|done|cbn; congruence].
Qed.

Lemma iderw_read me pd k i b d :
  env me pd k -> bufs k !! i = Some b -> sl_locked (b_lock b) <> 0 -> b_flags b = 0 -> b_dev b = 1 ->
  disk k !! b_blockno b = Some d ->
  iderw i k = Ret tt (put_buf i (b <| b_data := d |> <| b_flags := 2 |>) k).
Proof.
  intros Hev Hb Hl Hf Hd Hdisk. assert (Hh := ev_held _ _ _ Hev). unfold iderw.
  run (holdingsleep_run (SLbuf i) (b_lock b) k ltac:(cbn; by rewrite Hb) ltac:(rewrite Hh; set_solver)).
  rewrite (proj2 (Z.eqb_neq _ _) Hl). run (buf_at_run _ _ _ Hb). rewrite Hf, Hd.
  change (Z.land 0 (Z.lor B_VALID B_DIRTY) =? B_VALID) with false. change (negb (1 =? 1)) with false.
  change (negb (Z.land 0 B_DIRTY =? 0)) with false. cbv iota.
  rewrite bind_gets, Hdisk. erewrite bind_run; [|by apply upd_buf_run].
  erewrite upd_buf_run; [|cbn; apply list_lookup_insert_eq; by eapply lookup_lt_Some].
  f_equal. unfold put_buf. kernel_eq. rewrite list_insert_insert_eq. f_equal. cbn. by rewrite Hf.
Qed.

Lemma iderw_write me pd k i b d :
  env me pd k -> bufs k !! i = Some b -> sl_locked (b_lock b) <> 0 -> b_flags b = 6 -> b_dev b = 1 ->
  disk k !! b_blockno b = Some d ->
  iderw i k = Ret tt (put_buf i (b <| b_flags := 2 |>) k
    <| disk ::= <[b_blockno b := b_data b]> |> <| disk_writes ::= cons (b_blockno b, b_data b) |>).
Proof.
  intros Hev Hb Hl Hf Hd Hdisk. assert (Hh := ev_held _ _ _ Hev). unfold iderw.
  run (holdingsleep_run (SLbuf i) (b_lock b) k ltac:(cbn; by rewrite Hb) ltac:(rewrite Hh; set_solver)).
  rewrite (proj2 (Z.eqb_neq _ _) Hl). run (buf_at_run _ _ _ Hb). rewrite Hf, Hd.
  change (Z.land 6 (Z.lor B_VALID B_DIRTY) =? B_VALID) with false. change (negb (1 =? 1)) with false.
  change (negb (Z.land 6 B_DIRTY =? 0)) with true. cbv iota.
  rewrite bind_gets, Hdisk. erewrite bind_run.
  2: { erewrite bind_run; [|by apply upd_buf_run]. done. }
  erewrite upd_buf_run; [|cbn; apply list_lookup_insert_eq; by eapply lookup_lt_Some].
  f_equal. unfold put_buf. kernel_eq. rewrite list_insert_insert_eq. f_equal. cbn. by rewrite Hf.
Qed.

(** Blocks whose buffer is pinned by the log, and blocks in use by a process. *)
Definition dirty (k : kernel) (n : Z) : Prop :=
  exists i b, (i < NBUF)%nat /\ bufs k !! i = Some b /\ b_dev b = 1 /\ b_blockno b = n /\ b_flags b = 6.
Definition busy (k : kernel) (n : Z) : Prop :=
  exists i b, (i < NBUF)%nat /\ bufs k !! i = Some b /\ b_dev b = 1 /\ b_blockno b = n /\ b_refcnt b = 1.

(** There is a buffer for block [n]. *)
Definition room (k : kernel) (l : list nat) (n : Z) : Prop :=
  is_Some (buf_of (bufs k) n) \/ is_Some (find_buf recyclable (bufs k) (reverse l)).

(** What [bread(1, n)] establishes: buffer [i] becomes [b], which holds the contents of
    block [n], in use by the caller; nothing else changes. *)
Record bread_done (k : kernel) (l : list nat) (n : Z) (i : nat) (b : buf) : Prop := {
  bd_i : (i < NBUF)%nat;
  bd_dev : b_dev b = 1;
  bd_no : b_blockno b = n;
  bd_ref : b_refcnt b = 1;
  bd_blk : blk k n = Some (b_data b);
  bd_inv : bc_inv (put_buf i b k) l;
  bd_same : forall m, blk (put_buf i b k) m = blk k m;
  bd_dirty : forall m, dirty (put_buf i b k) m <-> dirty k m;
  bd_busy : forall m, busy (put_buf i b k) m <-> busy k m \/ m = n;
  bd_old : forall b0, bufs k !! i = Some b0 -> b_refcnt b0 = 0 }.

(** The effect on predicates of the form "some buffer of block [m] satisfies [P]". *)
Definition some_buf (P : buf -> Prop) (k : kernel) (m : Z) : Prop :=
  exists i b, (i < NBUF)%nat /\ bufs k !! i = Some b /\ b_dev b = 1 /\ b_blockno b = m /\ P b.

Lemma some_buf_put P k l i b b' m :
  bc_inv k l -> (i < NBUF)%nat -> bufs k !! i = Some b -> bc_inv (put_buf i b' k) l ->
  some_buf P (put_buf i b' k) m <->
    (b_dev b' = 1 /\ b_blockno b' = m /\ P b') \/
    (~ (b_dev b = 1 /\ b_blockno b = m) /\ some_buf P k m).
Proof.
  intros Hbc Hi Hb Hbc'. split.
  - intros (j & bj & Hj & Hbj & Hd & Hn & HP). cbn in Hbj.
    apply list_lookup_insert_Some in Hbj as [(<- & <- & _)|[Hne Hbj]]; [by left|right].
    split; [|by exists j, bj]. intros [Hd' Hn']. apply Hne. eapply (bc_uniq _ _ Hbc); try done. congruence.
  - intros [(Hd & Hn & HP)|[Hno (j & bj & Hj & Hbj & Hd & Hn & HP)]].
    + exists i, b'. split_and!; try done. apply put_buf_lookup. by eapply lookup_lt_Some.
    + exists j, bj. split_and!; try done. cbn. rewrite list_lookup_insert_ne; [done|]. intros <-. simplify_eq. by apply Hno.
Qed.

(** The two ways: the block is cached, or a buffer is recycled and filled. *)
Lemma bread_hit me pd k l n i b :
  env me pd k -> bc_inv k l -> buf_of (bufs k) n = Some i -> bufs k !! i = Some b -> b_refcnt b = 0 ->
  let b' := b <| b_refcnt := 1 |> <| b_lock := mk_sleeplock 1 pd |> in
  bread 1 n k = Ret i (put_buf i b' k) /\ bread_done k l n i b'.
Proof.
  intros Hev Hbc Hf Hb Hr0 b'. destruct (buf_of_inv _ _ _ Hf) as (Hi & b0 & Hb0 & Hdev & Hno).
  rewrite Hb in Hb0. injection Hb0 as <-. assert (Hlt : (i < length (bufs k))%nat) by (by eapply lookup_lt_Some).
  destruct (bc_ok _ _ Hbc i b Hi Hb) as [[Hlk Hrc] [(? & _)|(_ & Hfl & Hsd & Hlen & Hco)]]; [congruence|].
  assert (Hsame : forall j bj m, (j < NBUF)%nat -> bufs k !! j = Some bj -> b_dev bj = 1 -> b_blockno bj = m ->
    b_blockno b = m -> j = i) by (intros; eapply (bc_uniq _ _ Hbc); try done; congruence).
  assert (Hbc' : bc_inv (put_buf i b' k) l).
  { eapply bc_inv_put; try done; [|intros _ j bj Hj Hne Hbj Hdj E; by eapply Hne, Hsame].
    split; cbn; [by split; [|right]|]. right. by split_and!. }
  split.
  { unfold bread. rewrite (bind_run _ _ _ _ _ (bget_cached me pd k l n i b Hev Hbc Hf Hb Hr0)).
    run (buf_at_run i b' _ (put_buf_lookup i b' k Hlt)).
    assert (Z.land (b_flags b') B_VALID =? 0 = false) as -> by (by cbn; destruct Hfl as [-> | ->]). done. }
  split; try done.
  - unfold blk. by rewrite Hf, Hb.
  - intros m. rewrite (blk_put k l i b b' m Hbc Hi Hb Hbc'). case_decide as E1; [|by rewrite decide_False].
    destruct E1 as [_ <-]. unfold blk. rewrite (buf_of_Some (bufs k) _ i b); try done; try apply Hbc. by rewrite Hb.
  - intros m. change (dirty ?k m) with (some_buf (fun b => b_flags b = 6) k m).
    rewrite (some_buf_put _ k l i b b') by done. cbn. split; [intros [(? & ? & ?)|[_ ?]]; [by exists i, b|done]|].
    intros (j & bj & Hj & Hbj & ? & Hm & ?). destruct (decide (b_blockno b = m)) as [E|E].
    + left. assert (j = i) as -> by (by eapply Hsame). by simplify_eq.
    + right. split; [by intros [_ ?]|by exists j, bj].
  - intros m. change (busy ?k m) with (some_buf (fun b => b_refcnt b = 1) k m).
    rewrite (some_buf_put _ k l i b b') by done. cbn. rewrite Hno.
    split; [intros [(_ & <- & _)|[_ ?]]; [by right|by left]|].
    intros [(j & bj & Hj & Hbj & ? & Hm & ?)| ->]; [|by left].
    destruct (decide (n = m)) as [E|E]; [by left|right]. split; [by intros [_ ?]|by exists j, bj].
  - intros b0 Hb0. by simplify_eq.
Qed.

Lemma bread_miss me pd k l n i b d :
  env me pd k -> bc_inv k l -> buf_of (bufs k) n = None -> disk k !! n = Some d ->
  find_buf recyclable (bufs k) (reverse l) = Some i -> bufs k !! i = Some b ->
  let b' := b <| b_dev := 1 |> <| b_blockno := n |> <| b_flags := 0 |> <| b_refcnt := 1 |>
              <| b_lock := mk_sleeplock 1 pd |> <| b_data := d |> <| b_flags := 2 |> in
  bread 1 n k = Ret i (put_buf i b' k) /\ bread_done k l n i b'.
Proof.
  intros Hev Hbc Hf Hd Hr Hb b'. apply find_buf_Some in Hr as Hr'. destruct Hr' as (Hi & b0 & Hb0 & Hrec).
  rewrite Hb in Hb0. injection Hb0 as <-. rewrite elem_of_reverse, (bc_perm _ _ Hbc) in Hi.
  apply elem_of_seq in Hi as [_ Hi']. cbn [Nat.add] in Hi'.
  destruct (bc_ok _ _ Hbc i b Hi' Hb) as [[Hlk Hrc] Hst]. apply andb_true_iff in Hrec as [Hrc0%Z.eqb_eq Hfl0%Z.eqb_eq].
  assert (Hlt : (i < length (bufs k))%nat) by (by eapply lookup_lt_Some).
  assert (Hbc' : bc_inv (put_buf i b' k) l).
  { eapply bc_inv_put; try done; [|intros _ j bj Hj Hne Hbj Hdj; by eapply buf_of_None].
    split; cbn; [by split; [|right]|]. right. split_and!; try done; [by left|by eapply (bc_disk _ _ Hbc)]. }
  assert (Hother : forall (P : buf -> Prop) m j bj, ~ P b -> (j < NBUF)%nat -> bufs k !! j = Some bj -> b_dev bj = 1 ->
    b_blockno bj = m -> P bj -> ~ (b_dev b = 1 /\ b_blockno b = m)).
  { intros P m j bj HnP Hj Hbj ? Hm HP [? ?]. assert (j = i) as -> by (eapply (bc_uniq _ _ Hbc); try done; congruence).
    by simplify_eq. }
  split.
  { unfold bread. rewrite (bind_run _ _ _ _ _ (bget_recycles me pd k l n i b Hev Hbc Hf Hr Hb)). set (b1 := b <| b_dev := 1 |> <| b_blockno := n |> <| b_flags := 0 |> <| b_refcnt := 1 |> <| b_lock := _ |>).
    run (buf_at_run i b1 _ (put_buf_lookup i b1 k Hlt)). change (Z.land (b_flags b1) B_VALID =? 0) with true. cbn [when].
    rewrite (bind_run _ _ _ _ _ (iderw_read me pd (put_buf i b1 k) i b1 d (env_put _ _ _ _ _ Hev)
      (put_buf_lookup i b1 k Hlt) ltac:(done) eq_refl eq_refl Hd)). by rewrite put_buf_put. }
  split; try done.
  - unfold blk. by rewrite Hf.
  - intros m. rewrite (blk_put k l i b b' m Hbc Hi' Hb Hbc'). case_decide as E1.
    + destruct E1 as [_ <-]. cbn. unfold blk. by rewrite Hf.
    + case_decide as E2; [|done]. destruct E2 as [E2 <-]. unfold blk.
      rewrite (buf_of_Some (bufs k) _ i b); try done; try apply Hbc. rewrite Hb. cbn.
      destruct Hst as [(? & _)|(_ & Hfl & _ & _ & Hco)]; [congruence|]. apply Hco; [done|].
      destruct Hfl as [|Hfl]; [done|]. by rewrite Hfl in Hfl0.
  - intros m. change (dirty ?k m) with (some_buf (fun b => b_flags b = 6) k m).
    rewrite (some_buf_put _ k l i b b') by done. cbn. split; [by intros [(_ & _ & ?)|[_ ?]]|].
    intros (j & bj & Hj & Hbj & ? & Hm & Hfj). right. split; [|by exists j, bj].
    eapply (Hother (fun b => b_flags b = 6)); try done. cbn. intros Hx. by rewrite Hx in Hfl0.
  - intros m. change (busy ?k m) with (some_buf (fun b => b_refcnt b = 1) k m).
    rewrite (some_buf_put _ k l i b b') by done. cbn. split; [intros [(_ & <- & _)|[_ ?]]; [by right|by left]|].
    intros [(j & bj & Hj & Hbj & ? & Hm & ?)| ->]; [right|by left]. split; [|by exists j, bj].
    eapply (Hother (fun b => b_refcnt b = 1)); try done. cbn. lia.
  - intros b0 Hb0. by simplify_eq.
Qed.

Lemma bread_run me pd k l n :
  env me pd k -> bc_inv k l -> is_Some (disk k !! n) -> ~ busy k n -> room k l n ->
  exists i b, bread 1 n k = Ret i (put_buf i b k) /\ bread_done k l n i b.
Proof.
  intros Hev Hbc [d Hd] Hnb Hroom. destruct (buf_of (bufs k) n) as [i|] eqn:Hf.
  - destruct (buf_of_inv _ _ _ Hf) as (Hi & b & Hb & Hdev & Hno).
    destruct (bc_ok _ _ Hbc i b Hi Hb) as [[_ [Hr0|Hr1]] _]; [|exfalso; apply Hnb; by exists i, b].
    eexists i, _. by eapply bread_hit.
  - destruct Hroom as [[? ?]|[i Hr]]; [congruence|].
    apply find_buf_Some in Hr as Hr'. destruct Hr' as (Hi & b & Hb & Hrec). eexists i, _. by eapply bread_miss.
Qed.

(** ** Writing a block *)

Definition wrote (n : Z) (d : list Z) (k : kernel) : kernel :=
  k <| disk ::= <[n := d]> |> <| disk_writes ::= cons (n, d) |>.

Lemma bc_inv_wrote k l i b :
  bc_inv k l -> (i < NBUF)%nat -> bufs k !! i = Some b -> b_dev b = 1 -> b_refcnt b = 1 ->
  bc_inv (wrote (b_blockno b) (b_data b) (put_buf i (b <| b_flags := 2 |>) k)) l.
Proof.
  intros Hbc Hi Hb Hd Hr. pose proof (bc_ok _ _ Hbc i b Hi Hb) as [Hlk [(? & _)|(_ & Hfl & Hs & Hlen & _)]]; [congruence|].
  assert (Hbc' : bc_inv (put_buf i (b <| b_flags := 2 |>) k) l).
  { eapply bc_inv_put; try done.
    - split; cbn; [done|]. right. split_and!; try done; [by left|lia].
    - intros _ j bj Hj Hne Hbj Hdj E. apply Hne. eapply (bc_uniq _ _ Hbc); done. }
  destruct Hbc' as [H1 H2 H3 H4 H5 H6]. split; try done.
  - intros j bj Hj Hbj. destruct (H5 j bj Hj Hbj) as [Hl Hst]. split; [done|].
    destruct Hst as [?|(Hdj & Hfj & [dj Hsj] & Hlj & Hcj)]; [by left|right]. cbn. cbn in Hsj.
    destruct (decide (b_blockno bj = b_blockno b)) as [E|E].
    + rewrite E, lookup_insert_eq. split_and!; try done.
      assert (j = i) as ->.
      { eapply (H4 j i bj (b <| b_flags := 2 |>)); try done. cbn. apply list_lookup_insert_eq. by eapply lookup_lt_Some. }
      cbn in Hbj. rewrite list_lookup_insert_eq in Hbj by (by eapply lookup_lt_Some). injection Hbj as <-. cbn. lia.
    + rewrite lookup_insert_ne by done. split_and!; try done.
  - intros n d. cbn. intros [[<- <-]|[_ Hn]]%lookup_insert_Some; [done|by eapply H6].
Qed.

Lemma bwrite_run me pd k l i b :
  env me pd k -> bc_inv k l -> (i < NBUF)%nat -> bufs k !! i = Some b -> b_dev b = 1 -> b_refcnt b = 1 ->
  bwrite i k = Ret tt (wrote (b_blockno b) (b_data b) (put_buf i (b <| b_flags := 2 |>) k)).
Proof.
  intros Hev Hbc Hi Hb Hd Hr. assert (Hh := ev_held _ _ _ Hev). assert (Hlt := lookup_lt_Some _ _ _ Hb).
  destruct (bc_ok _ _ Hbc i b Hi Hb) as [[Hlk _] [(? & _)|(_ & Hfl & [d Hs] & _)]]; [congruence|].
  unfold bwrite.
  run (holdingsleep_run (SLbuf i) (b_lock b) k ltac:(cbn; by rewrite Hb) ltac:(rewrite Hh; set_solver)).
  rewrite Hlk, Hr. cbn [Z.eqb]. erewrite bind_run; [|by apply upd_buf_run].
  cbv beta. change (k <| bufs ::= <[i := ?x]> |>) with (put_buf i x k).
  assert (b <| b_flags := Z.lor (b_flags b) B_DIRTY |> = b <| b_flags := 6 |>) as ->
    by (by destruct Hfl as [-> | ->]).
  rewrite (iderw_write me pd _ i (b <| b_flags := 6 |>) d); try done.
  - f_equal. unfold wrote, put_buf. kernel_eq. by rewrite list_insert_insert_eq.
  - by apply env_put.
  - by apply put_buf_lookup.
  - cbn. lia.
Qed.

(** ** Releasing a buffer *)

Definition relink (f g : nat -> nat) (bs : list buf) : list buf :=
  imap (fun j b => b <| b_next := f j |> <| b_prev := g j |>) bs.

Lemma relink_lookup f g bs j :
  relink f g bs !! j = (fun b => b <| b_next := f j |> <| b_prev := g j |>) <$> bs !! j.
Proof. apply list_lookup_imap. Qed.

Lemma relink_length f g bs : length (relink f g bs) = length bs.
Proof. apply length_imap. Qed.

Lemma relink_relink f g f' g' bs : relink f g (relink f' g' bs) = relink f g bs.
Proof. apply list_eq. intros j. rewrite !relink_lookup. by destruct (bs !! j). Qed.

Lemma relink_ext f g f' g' bs :
  (forall j, (j < length bs)%nat -> f j = f' j) -> (forall j, (j < length bs)%nat -> g j = g' j) ->
  relink f g bs = relink f' g' bs.
Proof.
  intros Hf Hg. apply list_eq. intros j. rewrite !relink_lookup.
  destruct (bs !! j) eqn:E; [|done]. apply lookup_lt_Some in E. cbn. by rewrite Hf, Hg.
Qed.

Lemma relink_nx f g bs j : (j < length bs)%nat -> nx (relink f g bs) j = f j.
Proof. intros [b Hb]%lookup_lt_is_Some_2. unfold nx. by rewrite relink_lookup, Hb. Qed.

Lemma relink_pv f g bs j : (j < length bs)%nat -> pv (relink f g bs) j = g j.
Proof. intros [b Hb]%lookup_lt_is_Some_2. unfold pv. by rewrite relink_lookup, Hb. Qed.

Lemma relink_id bs : relink (nx bs) (pv bs) bs = bs.
Proof.
  apply list_eq. intros j. rewrite relink_lookup. unfold nx, pv. destruct (bs !! j) as [[]|]; done.
Qed.

(** Assigning one link field. *)
Lemma set_next_run f g bs k a x :
  bufs k = relink f g bs -> (a < length bs)%nat ->
  upd_buf a (fun b => b <| b_next := x |>) k = Ret tt (k <| bufs := relink (upd f a x) g bs |>).
Proof.
  intros Hk Ha. destruct (lookup_lt_is_Some_2 bs a Ha) as [b Hb].
  erewrite upd_buf_run; [|rewrite Hk, relink_lookup, Hb; done]. f_equal. kernel_eq. rewrite Hk.
  apply list_eq. intros j. rewrite relink_lookup. destruct (decide (j = a)) as [->|Hne].
  - rewrite list_lookup_insert_eq by (by rewrite relink_length). rewrite Hb, upd_eq. done.
  - rewrite list_lookup_insert_ne, relink_lookup by done. destruct (bs !! j); cbn; [|done]. by rewrite upd_ne.
Qed.

Lemma set_prev_run f g bs k a x :
  bufs k = relink f g bs -> (a < length bs)%nat ->
  upd_buf a (fun b => b <| b_prev := x |>) k = Ret tt (k <| bufs := relink f (upd g a x) bs |>).
Proof.
  intros Hk Ha. destruct (lookup_lt_is_Some_2 bs a Ha) as [b Hb].
  erewrite upd_buf_run; [|rewrite Hk, relink_lookup, Hb; done]. f_equal. kernel_eq. rewrite Hk.
  apply list_eq. intros j. rewrite relink_lookup. destruct (decide (j = a)) as [->|Hne].
  - rewrite list_lookup_insert_eq by (by rewrite relink_length). rewrite Hb, upd_eq. done.
  - rewrite list_lookup_insert_ne, relink_lookup by done. destruct (bs !! j); cbn; [|done]. by rewrite upd_ne.
Qed.

Lemma get_links_run f g bs k a :
  bufs k = relink f g bs -> (a < length bs)%nat ->
  exists b, buf_at a k = Ret b k /\ b_next b = f a /\ b_prev b = g a.
Proof.
  intros Hk Ha. destruct (lookup_lt_is_Some_2 bs a Ha) as [b Hb].
  eexists. split; [apply buf_at_run; rewrite Hk, relink_lookup, Hb; done|]. done.
Qed.

Lemma move_first_run f g bs k i l1 l2 b :
  bufs k = relink f g bs -> length bs = S NBUF -> seg f g HEAD (l1 ++ i :: l2) HEAD ->
  l1 ++ i :: l2 ≡ₚ seq 0 NBUF -> b_next b = f i -> b_prev b = g i ->
  exists f' g',
    (do! upd_buf (b_next b) (fun x => x <| b_prev := b_prev b |>) in
     let! b := buf_at i in
     do! upd_buf (b_prev b) (fun x => x <| b_next := b_next b |>) in
     link_first i) k = Ret tt (k <| bufs := relink f' g' bs |>) /\
    seg f' g' HEAD (i :: l1 ++ l2) HEAD.
Proof.
  intros Hk Hlen Hseg Hperm Hbn Hbp.
  assert (Hmem : forall x, x ∈ l1 ++ i :: l2 <-> (x < NBUF)%nat) by (intros x; rewrite Hperm, elem_of_seq; lia).
  assert (Hnd : NoDup (HEAD :: l1 ++ i :: l2)).
  { apply NoDup_cons. split; [rewrite Hmem; unfold HEAD; lia|]. rewrite Hperm. apply NoDup_seq. }
  assert (Hi : (i < NBUF)%nat) by (apply Hmem; set_solver). assert (Hih : i <> HEAD) by (unfold HEAD; lia).
  apply seg_app in Hseg as Hseg2. destruct Hseg2 as [Hs1 Hs2].
  assert (Hfi : f i ∈ l2 ++ [HEAD]) by (rewrite (seg_next _ _ _ _ _ Hs2); destruct l2; set_solver).
  assert (Hgi : g i ∈ HEAD :: l1).
  { rewrite (seg_prev _ _ _ _ _ Hs1). destruct (last l1) eqn:El; cbn; [right; by apply last_Some_elem_of|by left]. }
  assert (Hin : forall x, x ∈ HEAD :: l1 ++ l2 -> (x < length bs)%nat).
  { intros x [->|Hx]%elem_of_cons; [unfold HEAD; lia|]. assert (x < NBUF)%nat; [apply Hmem; set_solver|lia]. }
  assert (Hfn : f i <> i) by (intros E; rewrite E in Hfi; apply NoDup_cons in Hnd as [_ Hnd];
    apply NoDup_app in Hnd as (_ & _ & Hnd); apply NoDup_cons in Hnd as [Hnd _]; set_solver).
  set (f1 := upd f (g i) (f i)). set (g1 := upd g (f i) (g i)).
  pose proof (seg_unlink f g HEAD l1 i l2 HEAD Hseg Hnd ltac:(rewrite Hmem; unfold HEAD; lia)) as Hun. fold f1 g1 in Hun.
  assert (Hnd' : NoDup (HEAD :: l1 ++ l2)).
  { apply NoDup_cons in Hnd as [Hh Hnd]. apply NoDup_cons. split; [set_solver|].
    apply (NoDup_cons i). by rewrite Permutation_middle. }
  assert (Hil : i ∉ HEAD :: l1 ++ l2).
  { apply not_elem_of_cons. split; [done|]. apply NoDup_cons in Hnd as [_ Hnd].
    rewrite <- Permutation_middle in Hnd. by apply NoDup_cons in Hnd as [? _]. }
  pose proof (seg_link_first f1 g1 HEAD (l1 ++ l2) i Hun Hil Hnd') as Hlk.
  set (f2 := upd f1 i (f1 HEAD)) in Hlk. set (g2 := upd g1 i HEAD) in Hlk.
  exists (upd f2 HEAD i), (upd g2 (f2 HEAD) i). split; [|exact Hlk].
  rewrite Hbn, Hbp. run (set_prev_run f g bs k (f i) (g i) Hk ltac:(apply Hin; set_solver)).
  destruct (get_links_run f g1 bs (k <| bufs := relink f g1 bs |>) i) as (b1 & Hb1 & Hn1 & Hp1); [done|lia|].
  run Hb1. rewrite Hn1, Hp1. assert (g1 i = g i) as -> by (by apply upd_ne).
  erewrite bind_run; [|eapply (set_next_run f g1); [done|apply Hin; set_solver]]. fold f1. unfold link_first.
  match goal with |- _ ?s = _ => destruct (get_links_run f1 g1 bs s HEAD) as (h & Hh & Hnh & _); [done|unfold HEAD; lia|] end.
  run Hh. rewrite Hnh. erewrite bind_run; [|eapply (set_next_run f1 g1); [done|lia]]. fold f2.
  erewrite bind_run; [|eapply (set_prev_run f2 g1); [done|lia]]. fold g2.
  match goal with |- _ ?s = _ => destruct (get_links_run f2 g2 bs s HEAD) as (h' & Hh' & Hnh' & _); [done|unfold HEAD; lia|] end.
  run Hh'. rewrite Hnh'. erewrite bind_run; [|eapply (set_prev_run f2 g2); [done|]].
  - erewrite (set_next_run f2); [|done|unfold HEAD; lia]. f_equal. 
  - unfold f2. rewrite upd_ne by done. apply Hin. rewrite (seg_next _ _ _ _ _ Hun). destruct (l1 ++ l2); set_solver.
Qed.

(** Only the links differ. *)
Lemma bc_inv_relink k f g l :
  (forall i b, (i < NBUF)%nat -> bufs k !! i = Some b -> buf_ok (disk k) b) ->
  length (bufs k) = S NBUF -> uniq (bufs k) ->
  (forall n d, disk k !! n = Some d -> length d = Z.to_nat BSIZE) ->
  l ≡ₚ seq 0 NBUF -> seg f g HEAD l HEAD ->
  bc_inv (k <| bufs ::= relink f g |>) l.
Proof.
  intros Hok Hlen Hu Hd Hperm Hseg.
  assert (Hmem : forall x, x ∈ l <-> (x < NBUF)%nat) by (intros x; rewrite Hperm, elem_of_seq; lia).
  split; cbn; [by rewrite relink_length|done| | | |done].
  - eapply seg_ext; [| |exact Hseg]; intros x Hx; [apply relink_nx|apply relink_pv]; rewrite Hlen.
    + apply elem_of_cons in Hx as [->|Hx%Hmem]; [unfold HEAD; lia|lia].
    + apply elem_of_app in Hx as [Hx%Hmem|Hx%list_elem_of_singleton]; [lia|subst; unfold HEAD; lia].
  - intros i j bi bj Hi Hj. rewrite !relink_lookup.
    intros (b1 & Hb1 & ->)%fmap_Some_1 (b2 & Hb2 & ->)%fmap_Some_1. cbn. by eapply Hu.
  - intros i b Hi. rewrite relink_lookup. intros (b1 & Hb1 & ->)%fmap_Some_1. destruct (Hok i b1 Hi Hb1). by split.
Qed.

Lemma find_buf_relink test f g bs l :
  (forall b x y, test (b <| b_next := x |> <| b_prev := y |>) = test b) ->
  find_buf test (relink f g bs) l = find_buf test bs l.
Proof.
  intros Ht. induction l as [|i l IH]; [done|]. cbn. rewrite relink_lookup, IH.
  destruct (bs !! i); cbn; [by rewrite Ht|done].
Qed.

Lemma blk_relink k f g n : blk (k <| bufs ::= relink f g |>) n = blk k n.
Proof.
  unfold blk. replace (buf_of (bufs (k <| bufs ::= relink f g |>)) n) with (buf_of (bufs k) n)
    by (symmetry; by apply find_buf_relink).
  destruct (buf_of (bufs k) n) as [i|]; [|done]. cbn. rewrite relink_lookup. by destruct (bufs k !! i).
Qed.

Lemma some_buf_relink P k f g n :
  (forall b x y, P (b <| b_next := x |> <| b_prev := y |>) <-> P b) ->
  some_buf P (k <| bufs ::= relink f g |>) n <-> some_buf P k n.
Proof.
  intros HP. unfold some_buf. cbn. split.
  - intros (i & b & Hi & Hb & Hd & Hn & Hp). rewrite relink_lookup in Hb. apply fmap_Some_1 in Hb as (b1 & Hb1 & ->).
    exists i, b1. rewrite HP in Hp. done.
  - intros (i & b & Hi & Hb & Hd & Hn & Hp). eexists i, _. split_and!; [done|rewrite relink_lookup, Hb; done|done|done|].
    by apply HP.
Qed.

Lemma bc_inv_ext k k' l : bufs k' = bufs k -> disk k' = disk k -> bc_inv k l -> bc_inv k' l.
Proof. intros E1 E2 [H1 H2 H3 H4 H5 H6]. split; rewrite ?E1, ?E2; done. Qed.

Lemma blk_ext k k' n : bufs k' = bufs k -> disk k' = disk k -> blk k' n = blk k n.
Proof. intros E1 E2. unfold blk. by rewrite E1, E2. Qed.

Lemma some_buf_ext P k k' n : bufs k' = bufs k -> some_buf P k' n <-> some_buf P k n.
Proof. intros E. unfold some_buf. by rewrite E. Qed.

(** What [brelse] leaves: the buffer is free and first in the list, the blocks are as they
    were, and processes waiting for the buffer have been woken. *)
Record brelse_done (me : nat) (pd : Z) (k : kernel) (l : list nat) (i : nat) (b : buf) (k' : kernel) : Prop := {
  br_env : env me pd k';
  br_inv : exists l1 l2, l = l1 ++ i :: l2 /\ bc_inv k' (i :: l1 ++ l2);
  br_same : forall n, blk k' n = blk k n;
  br_dirty : forall n, dirty k' n <-> dirty k n;
  br_busy : forall n, busy k' n <-> busy k n /\ n <> b_blockno b;
  br_frame : exists bs ps qs hs, k' = k <| bufs := bs |> <| procs := ps |> <| pqueues := qs |> <| htindex := hs |>;
  br_other : forall j bj, j <> i -> bufs k !! j = Some bj ->
    exists x y, bufs k' !! j = Some (bj <| b_next := x |> <| b_prev := y |>) }.

(** The effect of dropping the reference, before the list is changed. *)
Lemma unref_put k l i b :
  bc_inv k l -> (i < NBUF)%nat -> bufs k !! i = Some b -> b_dev b = 1 -> b_refcnt b = 1 ->
  (b_flags b = 2 -> disk k !! b_blockno b = Some (b_data b)) ->
  let k2 := put_buf i (b <| b_lock := mk_sleeplock 0 0 |> <| b_refcnt := 0 |>) k in
  bc_inv k2 l /\ (forall n, blk k2 n = blk k n) /\ (forall n, dirty k2 n <-> dirty k n) /\
  (forall n, busy k2 n <-> busy k n /\ n <> b_blockno b).
Proof.
  intros Hbc Hi Hb Hd Hr Hclean. set (b2 := b <| b_lock := _ |> <| b_refcnt := _ |>). intros k2.
  destruct (bc_ok _ _ Hbc i b Hi Hb) as [[Hlk _] [(? & _)|(_ & Hfl & Hs & Hlen & _)]]; [congruence|].
  assert (Hbc2 : bc_inv k2 l).
  { eapply bc_inv_put; try done; [|intros _ j bj Hj Hne Hbj Hdj E; apply Hne; by eapply (bc_uniq _ _ Hbc)].
    split; cbn; [by split; [|left]|]. right. by split_and!. }
  split_and!; [done|intros n..].
  - unfold k2. rewrite (blk_put k _ i b b2 n Hbc Hi Hb Hbc2).
    case_decide as E1; [|by rewrite decide_False]. destruct E1 as [_ <-]. unfold blk.
    rewrite (buf_of_Some (bufs k) _ i b); try done; try apply Hbc. by rewrite Hb.
  - change (dirty ?k n) with (some_buf (fun b => b_flags b = 6) k n). unfold k2.
    rewrite (some_buf_put _ k _ i b b2) by done. split; [intros [(? & ? & ?)|[_ ?]]; [by exists i, b|done]|].
    intros (j & bj & Hj & Hbj & ? & Hm' & ?). destruct (decide (b_blockno b = n)) as [E|E].
    + left. assert (j = i) as -> by (eapply (bc_uniq _ _ Hbc); try done; congruence). by simplify_eq.
    + right. split; [by intros [_ ?]|by exists j, bj].
  - change (busy ?k n) with (some_buf (fun b => b_refcnt b = 1) k n). unfold k2.
    rewrite (some_buf_put _ k _ i b b2) by done. split; [intros [(? & ? & ?)|[Hno ?]]; [done|]|].
    + split; [done|]. intros ->. by apply Hno.
    + intros [? Hne]. right. split; [by intros [_ ?]|done].
Qed.

Lemma brelse_run me pd k l i b :
  env me pd k -> bc_inv k l -> (i < NBUF)%nat -> bufs k !! i = Some b -> b_dev b = 1 -> b_refcnt b = 1 ->
  (b_flags b = 2 -> disk k !! b_blockno b = Some (b_data b)) ->
  exists k', brelse i k = Ret tt k' /\ brelse_done me pd k l i b k'.
Proof.
  intros Hev Hbc Hi Hb Hd Hr Hclean. assert (Hh := ev_held _ _ _ Hev). assert (Hlt := lookup_lt_Some _ _ _ Hb).
  destruct (bc_ok _ _ Hbc i b Hi Hb) as [[Hlk _] [(? & _)|(_ & Hfl & Hs & Hlen & _)]]; [congruence|].
  unfold brelse.
  run (holdingsleep_run (SLbuf i) (b_lock b) k ltac:(cbn; by rewrite Hb) ltac:(rewrite Hh; set_solver)).
  rewrite Hlk, Hr. cbn [Z.eqb].
  destruct (releasesleep_run (SLbuf i) (b_lock b) k) as (k1 & Hr1 & Hw);
    [cbn; by rewrite Hb|rewrite Hh; set_solver|rewrite Hh; set_solver|apply Hev|]. run Hr1.
  set (b1 := b <| b_lock := mk_sleeplock 0 0 |>). set (b2 := b1 <| b_refcnt := 0 |>).
  assert (Hk1 : k1 = put_buf i b1 k <| procs := procs k1 |> <| pqueues := pqueues k1 |> <| htindex := htindex k1 |>).
  { pose proof (wk_same _ _ Hw) as E. unfold same_but_sched in E. rewrite E at 1. unfold put_buf. kernel_eq.
    by apply alter_insert_id. }
  assert (Hb1 : bufs k1 !! i = Some b1) by (rewrite Hk1; by apply put_buf_lookup).
  assert (Hh1 : held k1 = []) by (by rewrite Hk1).
  run (acquire_run Lbcache k1 ltac:(rewrite Hh1; set_solver)).
  erewrite bind_run; [|by apply upd_buf_run]. cbv beta.
  assert (b1 <| b_refcnt ::= fun n => u32 (n - 1) |> = b2) as ->.
  { unfold b2, b1. destruct b. cbn in Hr. by subst. }
  set (k2 := _ <| bufs ::= _ |>). assert (Hb2 : bufs k2 !! i = Some b2).
  { cbn. apply list_lookup_insert_eq. by eapply lookup_lt_Some. }
  run (buf_at_run i b2 k2 Hb2). change (b_refcnt b2 =? 0) with true. cbn [when].
  assert (Hbs2 : bufs k2 = <[i := b2]> (bufs k)).
  { cbn. rewrite Hk1. cbn. by rewrite list_insert_insert_eq. }
  destruct (unref_put k l i b Hbc Hi Hb Hd Hr Hclean) as (Hbc2 & Hblk2 & Hdir2 & Hbusy2).
  assert (Hil : i ∈ l) by (rewrite (bc_perm _ _ Hbc), elem_of_seq; lia).
  apply list_elem_of_split in Hil as (l1 & l2 & ->).
  destruct (move_first_run (nx (bufs k2)) (pv (bufs k2)) (bufs k2) k2 i l1 l2 b2) as (f & g & Hm & Hseg').
  { by rewrite relink_id. }
  { rewrite Hbs2, length_insert. apply Hbc. }
  { rewrite Hbs2. apply Hbc2. }
  { apply Hbc. }
  { unfold nx. by rewrite Hb2. }
  { unfold pv. by rewrite Hb2. }
  run Hm. rewrite release_run by (cbn; by left). eexists. split; [done|].
  set (k4 := _ <| held ::= _ |>).
  set (k3 := (put_buf i b2 k) <| bufs ::= relink f g |>).
  assert (Ebs : bufs k4 = bufs k3).
  { change (relink f g (bufs k2) = relink f g (<[i := b2]> (bufs k))). by rewrite Hbs2. }
  assert (Edk : disk k4 = disk k3) by (unfold k3, k4; cbn; by rewrite Hk1).
  split.
  - split; cbn; [by rewrite Hk1; apply Hev| |by rewrite remove_lock_head|].
    + destruct (ev_pid _ _ _ Hev) as (p & Hp & <-). by apply (wk_pid _ _ Hw).
    + eapply sched_ok_ext; [..|apply (wk_ok _ _ Hw); eapply sched_ok_ext; [..|apply Hev]]; done.
  - exists l1, l2. split; [done|]. eapply bc_inv_ext; [done..|]. apply bc_inv_relink; try apply Hbc2; [|done].
    rewrite <- (bc_perm _ _ Hbc). apply Permutation_middle.
  - intros n. rewrite (blk_ext k3 k4) by done. unfold k3. by rewrite blk_relink.
  - intros n. rewrite <- Hdir2. change (dirty ?k n) with (some_buf (fun b => b_flags b = 6) k n).
    rewrite (some_buf_ext _ k3 k4) by done. by apply some_buf_relink.
  - intros n. rewrite <- Hbusy2. change (busy ?k n) with (some_buf (fun b => b_refcnt b = 1) k n).
    rewrite (some_buf_ext _ k3 k4) by done. by apply some_buf_relink.
  - exists (bufs k4), (procs k4), (pqueues k4), (htindex k4). kernel_eq;
      first [by rewrite remove_lock_head, Hh1, Hh|by rewrite Hk1].
  - intros j bj Hne Hbj. exists (f j), (g j). rewrite Ebs. unfold k3. cbn -[relink]. rewrite relink_lookup.
    by rewrite list_lookup_insert_ne, Hbj.
Qed.

(** ** Room in the cache *)

(** With fewer blocks pinned or in use than buffers, any block can be read. *)
Lemma room_count k l n (B : list Z) :
  bc_inv k l -> (forall m, dirty k m \/ busy k m -> m ∈ B) -> (length B < NBUF)%nat -> room k l n.
Proof.
  intros Hbc HB Hlen. right. destruct (find_buf recyclable (bufs k) (reverse l)) eqn:Hf; [done|]. exfalso.
  rewrite find_buf_None in Hf.
  assert (Hall : forall i b, (i < NBUF)%nat -> bufs k !! i = Some b -> b_dev b = 1 /\ b_blockno b ∈ B).
  { intros i b Hi Hb. assert (Hrec : recyclable b = false).
    { apply (Hf i); [|done]. rewrite elem_of_reverse, (bc_perm _ _ Hbc), elem_of_seq. lia. }
    destruct (bc_ok _ _ Hbc i b Hi Hb) as [[_ Hrc] [(_ & Hfl & Hr)|(Hd & Hfl & _)]].
    { unfold recyclable in Hrec. by rewrite Hfl, Hr in Hrec. }
    split; [done|]. apply HB. destruct Hrc as [Hr|Hr]; [left|right; by exists i, b].
    exists i, b. split_and!; try done. destruct Hfl as [Hfl|]; [|done]. unfold recyclable in Hrec. by rewrite Hr, Hfl in Hrec. }
  set (no := fun i => match bufs k !! i with Some b => b_blockno b | None => 0 end).
  assert (Hs : no <$> seq 0 NBUF ⊆+ B).
  { apply NoDup_submseteq.
    - apply NoDup_fmap_2_strong; [|apply NoDup_seq]. intros i j Hi%elem_of_seq Hj%elem_of_seq.
      destruct (lookup_lt_is_Some_2 (bufs k) i) as [bi Hbi]; [rewrite (bc_len _ _ Hbc); lia|].
      destruct (lookup_lt_is_Some_2 (bufs k) j) as [bj Hbj]; [rewrite (bc_len _ _ Hbc); lia|].
      unfold no. rewrite Hbi, Hbj. intros E. destruct (Hall i bi ltac:(lia) Hbi), (Hall j bj ltac:(lia) Hbj).
      eapply (bc_uniq _ _ Hbc i j); try done; lia.
    - intros x (i & -> & Hi%elem_of_seq)%list_elem_of_fmap.
      destruct (lookup_lt_is_Some_2 (bufs k) i) as [bi Hbi]; [rewrite (bc_len _ _ Hbc); lia|].
      unfold no. rewrite Hbi. apply (Hall i bi ltac:(lia) Hbi). }
  apply submseteq_length in Hs. rewrite length_fmap, length_seq in Hs. lia.
Qed.

(** ** The cache is transparent *)

(** The two ways the rest of the kernel uses a buffer outside transactions. *)
Definition read_block (n : Z) : K (list Z) :=
  let! i := bread 1 n in
  let! b := buf_at i in
  do! brelse i in
  ret (b_data b).

Definition write_block (n : Z) (d : list Z) : K unit :=
  let! i := bread 1 n in
  do! upd_buf i (fun b => b <| b_data := d |>) in
  do! bwrite i in
  brelse i.

(** No buffer is pinned or in use. *)
Record quiet (me : nat) (pd : Z) (k : kernel) (l : list nat) : Prop := {
  qt_env : env me pd k;
  qt_inv : bc_inv k l;
  qt_dirty : forall n, ~ dirty k n;
  qt_busy : forall n, ~ busy k n }.

Lemma env_wrote me pd k n d : env me pd k -> env me pd (wrote n d k).
Proof. intros [H1 H2 H3 H4]. split; try done. by eapply sched_ok_ext; [..|done]. Qed.

Lemma quiet_blk me pd k l n : quiet me pd k l -> blk k n = disk k !! n.
Proof.
  intros [_ Hbc Hnd Hnb]. unfold blk. destruct (buf_of (bufs k) n) as [i|] eqn:Hf; [|done].
  destruct (buf_of_inv _ _ _ Hf) as (Hi & b & Hb & Hd & Hn). rewrite Hb. cbn.
  destruct (bc_ok _ _ Hbc i b Hi Hb) as [[_ Hrc] [(? & _)|(_ & Hfl & _ & _ & Hco)]]; [congruence|].
  rewrite <- Hn. symmetry. apply Hco.
  - destruct Hrc; [done|]. exfalso. apply (Hnb n). by exists i, b.
  - destruct Hfl; [done|]. exfalso. apply (Hnd n). by exists i, b.
Qed.

Lemma quiet_room me pd k l n : quiet me pd k l -> room k l n.
Proof.
  intros [_ Hbc Hnd Hnb]. apply (room_count k l n []); [done| |cbn; unfold NBUF; lia].
  intros m [?|?]; exfalso; [by eapply Hnd|by eapply Hnb].
Qed.

Lemma read_block_run me pd k l n d :
  quiet me pd k l -> disk k !! n = Some d ->
  exists k' l', read_block n k = Ret d k' /\ quiet me pd k' l' /\ disk k' = disk k.
Proof.
  intros Hq Hd. destruct Hq as [Hev Hbc Hnd Hnb] eqn:Eq. clear Eq.
  destruct (bread_run me pd k l n Hev Hbc ltac:(by eexists) (Hnb n) (quiet_room _ _ _ _ _ Hq)) as (i & b & Hr & Hdone).
  destruct Hdone as [Hi Hdev Hno Href Hblk Hinv Hsame Hdir Hbu Hold].
  assert (Hlt : (i < length (bufs k))%nat) by (rewrite (bc_len _ _ Hbc); lia).
  assert (Hdata : b_data b = d) by (rewrite (quiet_blk _ _ _ _ _ Hq), Hd in Hblk; congruence).
  unfold read_block. run Hr. run (buf_at_run i b _ (put_buf_lookup i b k Hlt)).
  destruct (brelse_run me pd (put_buf i b k) l i b) as (k' & Hr' & Hdone'); try done;
    [by apply env_put|by apply put_buf_lookup|intros _; cbn; congruence|].
  destruct Hdone' as [He' (l1 & l2 & _ & Hi') Hs' Hd' Hb' (bs & ps & qs & hs & Hk') _].
  run Hr'. eexists k', _. rewrite Hdata. split; [done|]. split; [split; [done|exact Hi'|..]|by rewrite Hk'].
  - intros m. rewrite Hd', Hdir. apply Hnd.
  - intros m. rewrite Hb', Hbu. intros [[?|?] ?]; [by eapply Hnb|congruence].
Qed.

(** A buffer that keeps its block. *)
Lemma blk_put_same k l i b b' m :
  bc_inv k l -> (i < NBUF)%nat -> bufs k !! i = Some b -> bc_inv (put_buf i b' k) l ->
  b_dev b = 1 -> b_dev b' = 1 -> b_blockno b' = b_blockno b ->
  blk (put_buf i b' k) m = if decide (m = b_blockno b) then Some (b_data b') else blk k m.
Proof.
  intros Hbc Hi Hb Hbc' Hd Hd' Hn. rewrite (blk_put k l i b b') by done. rewrite Hn, Hd, Hd'.
  repeat case_decide; intuition congruence.
Qed.

Lemma some_buf_put_same P k l i b b' m :
  bc_inv k l -> (i < NBUF)%nat -> bufs k !! i = Some b -> bc_inv (put_buf i b' k) l ->
  b_dev b = 1 -> b_dev b' = 1 -> b_blockno b' = b_blockno b ->
  some_buf P (put_buf i b' k) m <-> if decide (m = b_blockno b) then P b' else some_buf P k m.
Proof.
  intros Hbc Hi Hb Hbc' Hd Hd' Hn. rewrite (some_buf_put P k l i b b') by done. rewrite Hn, Hd, Hd'.
  case_decide; intuition congruence.
Qed.

Lemma some_buf_at P k l i b :
  bc_inv k l -> (i < NBUF)%nat -> bufs k !! i = Some b -> b_dev b = 1 ->
  some_buf P k (b_blockno b) <-> P b.
Proof.
  intros Hbc Hi Hb Hd. split; [|intros HP; by exists i, b].
  intros (j & bj & Hj & Hbj & Hdj & Hnj & HP). assert (j = i) as -> by (by eapply (bc_uniq _ _ Hbc)). by simplify_eq.
Qed.

(** Storing into the data of a buffer in use. *)
Lemma set_data_put k l i b d :
  bc_inv k l -> (i < NBUF)%nat -> bufs k !! i = Some b -> b_dev b = 1 -> b_refcnt b = 1 ->
  length d = Z.to_nat BSIZE ->
  let k2 := put_buf i (b <| b_data := d |>) k in
  bc_inv k2 l /\ (forall m, blk k2 m = if decide (m = b_blockno b) then Some d else blk k m) /\
  (forall m, dirty k2 m <-> dirty k m) /\ (forall m, busy k2 m <-> busy k m).
Proof.
  intros Hbc Hi Hb Hd Hr Hld k2.
  destruct (bc_ok _ _ Hbc i b Hi Hb) as [Hlk [(? & _)|(_ & Hfl & Hs & Hlen & _)]]; [congruence|].
  assert (Hbc2 : bc_inv k2 l).
  { eapply bc_inv_put; try done; [|intros _ j bj Hj Hne Hbj Hdj E; apply Hne; by eapply (bc_uniq _ _ Hbc)].
    split; cbn; [done|]. right. split_and!; try done. lia. }
  split_and!; [done|intros m..].
  - unfold k2. by rewrite (blk_put_same k l i b) by done.
  - change (dirty ?k m) with (some_buf (fun b => b_flags b = 6) k m). unfold k2.
    rewrite (some_buf_put_same _ k l i b) by done. case_decide; [|done]. subst m. by rewrite (some_buf_at _ k l i b).
  - change (busy ?k m) with (some_buf (fun b => b_refcnt b = 1) k m). unfold k2.
    rewrite (some_buf_put_same _ k l i b) by done. case_decide; [|done]. subst m. by rewrite (some_buf_at _ k l i b).
Qed.

Lemma wrote_effect k l i b :
  bc_inv k l -> (i < NBUF)%nat -> bufs k !! i = Some b -> b_dev b = 1 -> b_refcnt b = 1 ->
  let k2 := wrote (b_blockno b) (b_data b) (put_buf i (b <| b_flags := 2 |>) k) in
  bc_inv k2 l /\ (forall m, blk k2 m = blk k m) /\
  (forall m, dirty k2 m <-> dirty k m /\ m <> b_blockno b) /\ (forall m, busy k2 m <-> busy k m).
Proof.
  intros Hbc Hi Hb Hd Hr k2. pose proof (bc_inv_wrote k l i b Hbc Hi Hb Hd Hr) as Hbc2. fold k2 in Hbc2.
  destruct (bc_ok _ _ Hbc i b Hi Hb) as [Hlk [(? & _)|(_ & Hfl & Hs & Hlen & _)]]; [congruence|].
  set (b' := b <| b_flags := 2 |>).
  assert (Hbc1 : bc_inv (put_buf i b' k) l).
  { eapply bc_inv_put; try done; [|intros _ j bj Hj Hne Hbj Hdj E; apply Hne; by eapply (bc_uniq _ _ Hbc)].
    split; cbn; [done|]. right. split_and!; try done; [by left|lia]. }
  assert (Hlt : (i < length (bufs k))%nat) by (by eapply lookup_lt_Some).
  split_and!; [done|intros m..].
  - destruct (decide (m = b_blockno b)) as [->|Hne].
    + unfold blk. rewrite (buf_of_Some (bufs k2) _ i b'); try done; try apply Hbc2; [|by apply put_buf_lookup].
      rewrite (buf_of_Some (bufs k) _ i b); try done; try apply Hbc. rewrite Hb. cbn.
      by rewrite list_lookup_insert_eq by done.
    + trans (blk (put_buf i b' k) m).
      * unfold blk. change (bufs k2) with (bufs (put_buf i b' k)). case_match; [done|]. cbn. by rewrite lookup_insert_ne.
      * by rewrite (blk_put_same k l i b), decide_False by done.
  - change (dirty ?k m) with (some_buf (fun b => b_flags b = 6) k m).
    rewrite (some_buf_ext _ (put_buf i b' k) k2) by done.
    rewrite (some_buf_put_same _ k l i b) by done. case_decide; [|intuition done]. cbn. intuition lia.
  - change (busy ?k m) with (some_buf (fun b => b_refcnt b = 1) k m).
    rewrite (some_buf_ext _ (put_buf i b' k) k2) by done.
    rewrite (some_buf_put_same _ k l i b) by done. case_decide; [|done]. subst m. by rewrite (some_buf_at _ k l i b).
Qed.

Lemma write_block_run me pd k l n d :
  quiet me pd k l -> is_Some (disk k !! n) -> length d = Z.to_nat BSIZE ->
  exists k' l', write_block n d k = Ret tt k' /\ quiet me pd k' l' /\ disk k' = <[n := d]> (disk k).
Proof.
  intros Hq Hd Hld. destruct Hq as [Hev Hbc Hnd Hnb] eqn:Eq. clear Eq.
  destruct (bread_run me pd k l n Hev Hbc Hd (Hnb n) (quiet_room _ _ _ _ _ Hq)) as (i & b & Hr & Hdone).
  destruct Hdone as [Hi Hdev Hno Href Hblk Hinv Hsame Hdir Hbu Hold].
  assert (Hlt : (i < length (bufs k))%nat) by (rewrite (bc_len _ _ Hbc); lia).
  set (b1 := b <| b_data := d |>). set (b2 := b1 <| b_flags := 2 |>). pose proof (put_buf_lookup i b k Hlt) as Hb0.
  destruct (set_data_put (put_buf i b k) l i b d Hinv Hi Hb0 Hdev Href Hld) as (Hinv1 & _ & Hdir1 & Hbu1).
  rewrite put_buf_put in Hinv1, Hdir1, Hbu1. fold b1 in Hinv1, Hdir1, Hbu1.
  destruct (wrote_effect (put_buf i b1 k) l i b1 Hinv1 Hi (put_buf_lookup i b1 k Hlt) Hdev Href) as (Hinv2 & _ & Hdir2 & Hbu2).
  unfold write_block. run Hr. run (upd_buf_run i b (fun b => b <| b_data := d |>) (put_buf i b k) Hb0).
  change (put_buf i b k <| bufs ::= <[i := b1]> |>) with (put_buf i b1 (put_buf i b k)).
  change ((put_buf i b k) <| bufs ::= <[i := ?x]> |>) with (put_buf i x (put_buf i b k)). rewrite put_buf_put.
  rewrite (bind_run _ _ _ _ _ (bwrite_run me pd (put_buf i b1 k) l i b1 (env_put _ _ _ _ _ Hev) Hinv1 Hi
    (put_buf_lookup i b1 k Hlt) Hdev Href)).
  destruct (brelse_run me pd _ l i b2 ltac:(by apply env_wrote, env_put, env_put) Hinv2 Hi) as (k' & Hr' & Hdone'); try done.
  { cbn. rewrite list_insert_insert_eq. by apply list_lookup_insert_eq. }
  { intros _. cbn. by rewrite lookup_insert_eq. }
  destruct Hdone' as [He' (l1 & l2 & _ & Hi') Hs' Hd' Hb' (bs & ps & qs & hs & Hk') _].
  rewrite Hr'. eexists k', _. split; [done|]. split; [split; [done|exact Hi'|..]|].
  - intros m. rewrite Hd', Hdir2, Hdir1, Hdir. intros [? _]. by eapply Hnd.
  - intros m. rewrite Hb', Hbu2, Hbu1, Hbu. cbn. intros [[?|?] ?]; [by eapply Hnb|congruence].
  - rewrite Hk'. cbn. by rewrite Hno.
Qed.

Inductive io_op := IoRead (n : Z) | IoWrite (n : Z) (d : list Z).

(** The same operations on a plain disk. *)
Definition spec_io (o : io_op) (m : gmap Z (list Z)) : list Z * gmap Z (list Z) :=
  match o with
  | IoRead n => (default [] (m !! n), m)
  | IoWrite n d => ([], <[n := d]> m)
  end.

Fixpoint spec_ios (os : list io_op) (m : gmap Z (list Z)) : list (list Z) * gmap Z (list Z) :=
  match os with
  | [] => ([], m)
  | o :: os' => let '(r, m') := spec_io o m in let '(rs, m'') := spec_ios os' m' in (r :: rs, m'')
  end.

Definition run_io (o : io_op) : K (list Z) :=
  match o with IoRead n => read_block n | IoWrite n d => do! write_block n d in ret [] end.

Fixpoint run_ios (os : list io_op) : K (list (list Z)) :=
  match os with
  | [] => ret []
  | o :: os' => let! r := run_io o in let! rs := run_ios os' in ret (r :: rs)
  end.

(** Block numbers that exist, and whole blocks. *)
Definition io_ok (m : gmap Z (list Z)) (o : io_op) : Prop :=
  match o with
  | IoRead n => is_Some (m !! n)
  | IoWrite n d => is_Some (m !! n) /\ length d = Z.to_nat BSIZE
  end.

Lemma run_io_simulates me pd k l o :
  quiet me pd k l -> io_ok (disk k) o ->
  exists k' l', run_io o k = Ret (spec_io o (disk k)).1 k' /\ quiet me pd k' l' /\
    disk k' = (spec_io o (disk k)).2.
Proof.
  intros Hq Ho. destruct o as [n|n d]; cbn [run_io spec_io fst snd].
  - destruct Ho as [d Hd]. rewrite Hd. by eapply read_block_run.
  - destruct Ho as [Hd Hl]. destruct (write_block_run me pd k l n d Hq Hd Hl) as (k' & l' & Hr & ? & ?).
    exists k', l'. by rewrite (bind_run _ _ _ _ _ Hr).
Qed.

Lemma io_ok_keeps m o o' : io_ok m o' -> io_ok m o -> io_ok (spec_io o' m).2 o.
Proof.
  assert (Hs : forall n n' (d : list Z), is_Some (m !! n) -> is_Some (<[n' := d]> m !! n)).
  { intros n n' d Hn. destruct (decide (n' = n)) as [->|Hne]; [by rewrite lookup_insert_eq|by rewrite lookup_insert_ne]. }
  destruct o' as [n'|n' d']; [done|]. destruct o as [n|n d]; cbn; [|intros _ [? ?]]; auto.
Qed.

(** C3: the block cache is transparent.  From a cache at rest, any sequence of
    reads and writes of whole blocks through [bread], [bwrite] and [brelse]
    returns what the same reads and writes of a plain disk return, whatever
    is cached and recycled on the way, and leaves the disk equal to the plain
    one and the cache at rest: no block is ever read stale or written to
    another block's place. *)
Theorem cache_transparent me pd k l os :
  quiet me pd k l -> Forall (io_ok (disk k)) os ->
  exists k' l', run_ios os k = Ret (spec_ios os (disk k)).1 k' /\ quiet me pd k' l' /\
    disk k' = (spec_ios os (disk k)).2.
Proof.
  revert k l. induction os as [|o os IH]; intros k l Hq Hok; [by exists k, l|].
  apply Forall_cons in Hok as [Ho Hok].
  destruct (run_io_simulates me pd k l o Hq Ho) as (k1 & l1 & Hr & Hq1 & Hd1).
  destruct (IH k1 l1 Hq1) as (k' & l' & Hr' & Hq' & Hd').
  { rewrite Hd1. eapply Forall_impl; [done|]. intros o'. by apply io_ok_keeps. }
  exists k', l'. cbn [run_ios spec_ios]. rewrite (bind_run _ _ _ _ _ Hr), (bind_run _ _ _ _ _ Hr').
  rewrite Hd1 in Hd' |- *. destruct (spec_io o (disk k)) as [r m]; cbn in *. by destruct (spec_ios os m).
Qed.

Lemma find_buf_app test bs l1 i l2 :
  match bs !! i with Some b => test b | None => false end = true ->
  (forall j bj, j ∈ l1 -> bs !! j = Some bj -> test bj = false) -> find_buf test bs (l1 ++ i :: l2) = Some i.
Proof.
  intros Hi. induction l1 as [|j l1 IH]; intros Hno; cbn; [by rewrite Hi|].
  destruct (bs !! j) as [bj|] eqn:Ej.
  - rewrite (Hno j bj) by (by left || done). apply IH. intros j' b' Hj'. apply Hno. by right.
  - apply IH. intros j' b' Hj'. apply Hno. by right.
Qed.

(** The buffer recycled is the one released longest ago.  When block [n] is not
    cached, [bget] takes the last buffer of the list that is neither in use
    nor pinned, and only if there is none does it panic; a buffer that is
    released becomes the first of the list and the order of the others is kept. *)
Theorem bcache_lru me pd k l n :
  env me pd k -> bc_inv k l -> buf_of (bufs k) n = None ->
  (forall l1 i l2 b, l = l1 ++ i :: l2 -> bufs k !! i = Some b -> recyclable b = true ->
     (forall j bj, j ∈ l2 -> bufs k !! j = Some bj -> recyclable bj = false) ->
     exists k', bget 1 n k = Ret i k' /\ seg (nx (bufs k')) (pv (bufs k')) HEAD l HEAD) /\
  ((forall i b, i ∈ l -> bufs k !! i = Some b -> recyclable b = false) ->
     exists k', bget 1 n k = Panic "bget: no buffers" k') /\
  (forall i b, (i < NBUF)%nat -> bufs k !! i = Some b -> b_dev b = 1 -> b_refcnt b = 1 ->
     (b_flags b = 2 -> disk k !! b_blockno b = Some (b_data b)) ->
     exists k' l1 l2, brelse i k = Ret tt k' /\ l = l1 ++ i :: l2 /\ bc_inv k' (i :: l1 ++ l2)).
Proof.
  intros Hev Hbc Hf. split_and!.
  - intros l1 i l2 b -> Hb Hrec Hlast.
    assert (Hfind : find_buf recyclable (bufs k) (reverse (l1 ++ i :: l2)) = Some i).
    { rewrite reverse_app, reverse_cons, <- app_assoc. apply find_buf_app; [by rewrite Hb|].
      intros j bj Hj. rewrite elem_of_reverse in Hj. by apply Hlast. }
    eexists. split; [by eapply bget_recycles|].
    eapply seg_ext; [| |exact (bc_dll _ _ Hbc)]; intros x _; by eapply links_put.
  - intros Hno. rewrite (bget_search me pd k l n Hev Hbc), Hf.
    rewrite (proj2 (find_buf_None _ _ _)); [by eexists|].
    intros i b Hi. rewrite elem_of_reverse in Hi. by apply Hno.
  - intros i b Hi Hb Hd Hr Hc. destruct (brelse_run me pd k l i b Hev Hbc Hi Hb Hd Hr Hc) as (k' & Hr' & Hdone).
    destruct (br_inv _ _ _ _ _ _ _ Hdone) as (l1 & l2 & ? & ?). by exists k', l1, l2.
Qed.

(** ** Initialisation *)

(** The buffers as they are in the kernel's zeroed data. *)
Definition fresh_bufs (k : kernel) : Prop :=
  length (bufs k) = S NBUF /\
  forall i b, bufs k !! i = Some b ->
    b_dev b = 0 /\ b_flags b = 0 /\ b_refcnt b = 0 /\ b_lock b = mk_sleeplock 0 0.

Lemma initsleeplock_noop k i b f g bs :
  bufs k = relink f g bs -> bs !! i = Some b -> b_lock b = mk_sleeplock 0 0 -> held k = [] ->
  initsleeplock (SLbuf i) k = Ret tt k.
Proof.
  intros Hk Hb Hl Hh. unfold initsleeplock, initlock.
  assert (Hb' : bufs k !! i = Some (b <| b_next := f i |> <| b_prev := g i |>)) by (by rewrite Hk, relink_lookup, Hb).
  erewrite bind_run; [|done].
  replace (k <| held ::= filter (fun x => x <> sl_spin (SLbuf i)) |>) with k by (kernel_eq; by rewrite Hh).
  rewrite (sl_set_run _ (b_lock b) _ k) by (cbn; by rewrite Hb'). f_equal. cbn. kernel_eq.
  erewrite alter_insert_id; [|done]. rewrite list_insert_id; [done|]. rewrite Hb'. f_equal. destruct b. cbn in *. by subst.
Qed.

Lemma binit_loop k bs :
  length bs = S NBUF -> (forall i b, bs !! i = Some b -> b_lock b = mk_sleeplock 0 0) -> held k = [] ->
  (exists f g, bufs k = relink f g bs /\ f HEAD = HEAD /\ g HEAD = HEAD) ->
  wp (foreach (seq 0 NBUF) (fun i =>
    let! h := buf_at HEAD in
    do! upd_buf i (fun b => b <| b_next := b_next h |>) in
    do! upd_buf i (fun b => b <| b_prev := HEAD |>) in
    do! initsleeplock (SLbuf i) in
    let! h := buf_at HEAD in
    do! upd_buf (b_next h) (fun b => b <| b_prev := i |>) in
    upd_buf HEAD (fun b => b <| b_next := i |>)))
   (fun _ k' => exists f g, k' = k <| bufs := relink f g bs |> /\ seg f g HEAD (reverse (seq 0 NBUF)) HEAD) k.
Proof.
  intros Hlen Hlock Hh (f0 & g0 & Hk0 & Hf0 & Hg0).
  eapply (wp_foreach_seq _ _ (fun i k' => exists f g, k' = k <| bufs := relink f g bs |> /\
    seg f g HEAD (reverse (seq 0 i)) HEAD)); [exists f0, g0; split; [by kernel_eq|done]| |done].
  intros i s Hi (f & g & -> & Hseg). apply wp_run. eexists tt, _.
  assert (Hmem : forall x, x ∈ reverse (seq 0 i) <-> (x < i)%nat).
  { intros x. rewrite elem_of_reverse, elem_of_seq. lia. }
  match goal with |- _ ?s = _ /\ _ => destruct (get_links_run f g bs s HEAD) as (h & Hh1 & Hn1 & _); [done|unfold HEAD; lia|] end.
  split.
  - run Hh1. rewrite Hn1. erewrite bind_run; [|eapply (set_next_run f g); [done|lia]].
    set (f1 := upd f i (f HEAD)). erewrite bind_run; [|eapply (set_prev_run f1 g); [done|lia]]. set (g1 := upd g i HEAD).
    destruct (lookup_lt_is_Some_2 bs i) as [b Hb]; [lia|].
    erewrite bind_run; [|eapply (initsleeplock_noop _ i b f1 g1); [done|done|by eapply Hlock|done]].
    match goal with |- _ ?s = _ => destruct (get_links_run f1 g1 bs s HEAD) as (h' & Hh2 & Hn2 & _); [done|unfold HEAD; lia|] end.
    run Hh2. rewrite Hn2. erewrite bind_run; [|eapply (set_prev_run f1 g1); [done|]].
    + erewrite (set_next_run f1); [|done|unfold HEAD; lia]. done.
    + unfold f1. rewrite upd_ne by (unfold HEAD; lia). rewrite (seg_next _ _ _ _ _ Hseg).
      destruct (reverse (seq 0 i)) as [|x r] eqn:E; cbn; [unfold HEAD; lia|]. assert (x < i)%nat; [|lia].
      apply Hmem. by left.
  - exists (upd (upd f i (f HEAD)) HEAD i), (upd (upd g i HEAD) (upd f i (f HEAD) HEAD) i). split; [by kernel_eq|].
    rewrite Nat.add_1_r, seq_S, reverse_app. cbn [reverse rev_append app].
    apply (seg_link_first f g HEAD); [done| |].
    + apply not_elem_of_cons. split; [unfold HEAD; lia|]. rewrite Hmem. lia.
    + apply NoDup_cons. split; [rewrite Hmem; unfold HEAD; lia|]. rewrite reverse_Permutation. apply NoDup_seq.
Qed.

(** [binit] puts every buffer in the list and establishes the invariant. *)
Lemma binit_run me pd k :
  env me pd k -> fresh_bufs k -> (forall n d, disk k !! n = Some d -> length d = Z.to_nat BSIZE) ->
  exists k', binit k = Ret tt k' /\ quiet me pd k' (reverse (seq 0 NBUF)) /\ disk k' = disk k /\
    forall i b, bufs k' !! i = Some b -> b_dev b = 0 /\ b_flags b = 0 /\ b_refcnt b = 0.
Proof.
  intros Hev [Hlen Hfr] Hd. assert (Hh := ev_held _ _ _ Hev). unfold binit, initlock. erewrite bind_run; [|done].
  replace (k <| held ::= filter (fun x => x <> Lbcache) |>) with k by (kernel_eq; by rewrite Hh).
  set (bs := bufs k). assert (Hk : bufs k = relink (nx bs) (pv bs) bs) by (by rewrite relink_id).
  erewrite bind_run; [|eapply set_prev_run; [exact Hk|fold bs in Hlen; rewrite Hlen; unfold HEAD; lia]].
  erewrite bind_run; [|eapply set_next_run; [done|fold bs in Hlen; rewrite Hlen; unfold HEAD; lia]].
  match goal with |- context [foreach _ _ ?s] => set (k1 := s) end.
  destruct (proj1 (wp_run _ _ _) (binit_loop k1 bs Hlen ltac:(intros i b Hb; by apply (Hfr i b)) Hh
    ltac:(eexists _, _; split_and!; [done|apply upd_eq|apply upd_eq]))) as ([] & k2 & Hr & f & g & -> & Hseg).
  rewrite Hr. eexists. split; [done|]. split; [|split; [done|]].
  2: { cbn. intros i b. rewrite relink_lookup. intros (b0 & Hb0 & ->)%fmap_Some_1.
       by destruct (Hfr i b0 Hb0) as (? & ? & ? & _). }
  assert (Hok : forall i b, bufs k !! i = Some b -> b_dev b = 0) by (intros i b Hb; by apply (Hfr i b)).
  assert (Hinv : bc_inv (k1 <| bufs := relink f g bs |>) (reverse (seq 0 NBUF))).
  { eapply (bc_inv_ext (k <| bufs ::= relink f g |>)); [done|done|].
    apply bc_inv_relink; try done; [| |by rewrite reverse_Permutation].
    - intros i b _ Hb. destruct (Hfr i b Hb) as (? & ? & Hr0 & Hl). split; [rewrite Hl, Hr0; cbn; auto|by left].
    - intros i j bi bj _ _ Hbi _ Hdi. rewrite (Hok i bi Hbi) in Hdi. lia. }
  assert (Hnone : forall P n, ~ some_buf P (k1 <| bufs := relink f g bs |>) n).
  { intros P n (i & b & _ & Hb & Hdv & _). cbn in Hb. rewrite relink_lookup in Hb.
    apply fmap_Some_1 in Hb as (b0 & Hb0 & ->). cbn in Hdv. rewrite (Hok i b0 Hb0) in Hdv. lia. }
  split; [|done|apply Hnone|apply Hnone]. destruct Hev as [H1 H2 H3 H4]. split; try done.
  by eapply sched_ok_ext; [..|done].
Qed.

(** ** A disk of eight blocks *)

Definition demo_block (c : Z) : list Z := replicate (Z.to_nat BSIZE) c.

Definition demo_fs : kernel :=
  demo <| disk := list_to_map ((fun n => (n, demo_block n)) <$> seqZ 0 8) |>.

Lemma demo_fs_env : env 1 2 demo_fs.
Proof.
  split; [done|by eexists|done|]. split; [|done|exact prio_ok_demo]. destruct demo_wf. by split.
Qed.

Lemma demo_fs_disk n d : disk demo_fs !! n = Some d -> length d = Z.to_nat BSIZE.
Proof.
  cbn. intros H%elem_of_list_to_map_2. apply list_elem_of_fmap in H as (x & [= -> ->] & _).
  apply length_replicate.
Qed.

Lemma demo_fs_fresh : fresh_bufs demo_fs.
Proof.
  split; [done|]. intros i b. change (bufs demo_fs) with (replicate 31 zero_buf).
  intros [-> _]%lookup_replicate. done.
Qed.

Lemma cache_transparent_witness :
  exists kb k', binit demo_fs = Ret tt kb /\
    run_ios [IoRead 3; IoWrite 3 (demo_block 9); IoRead 3; IoRead 4] kb
      = Ret [demo_block 3; []; demo_block 9; demo_block 4] k'.
Proof.
  destruct (binit_run 1 2 demo_fs demo_fs_env demo_fs_fresh demo_fs_disk) as (kb & Hb & Hq & Hd & _).
  destruct (cache_transparent 1 2 kb _ [IoRead 3; IoWrite 3 (demo_block 9); IoRead 3; IoRead 4] Hq)
    as (k' & l' & Hr & _).
  - rewrite Hd. assert (Hs : forall n, n = 3 \/ n = 4 -> is_Some (disk demo_fs !! n)).
    { intros n [-> | ->]; vm_compute; by eexists. }
    repeat (apply Forall_cons; split); [apply Hs; lia|split; [apply Hs; lia|apply length_replicate]|apply Hs; lia..|].
    by apply Forall_nil.
  - exists kb, k'. split; [done|]. rewrite Hr, Hd. by vm_compute.
Defined.

Lemma bcache_lru_witness :
  exists kb k', binit demo_fs = Ret tt kb /\ bget 1 3 kb = Ret 0%nat k'.
Proof.
  destruct (binit_run 1 2 demo_fs demo_fs_env demo_fs_fresh demo_fs_disk) as (kb & Hb & [He Hi Hnd Hnb] & _ & Hfr).
  destruct (lookup_lt_is_Some_2 (bufs kb) 0) as [b0 Hb0]; [rewrite (bc_len _ _ Hi); lia|].
  destruct (bcache_lru 1 2 kb _ 3 He Hi) as [H _].
  - apply find_buf_None. intros i b _ Hbi. destruct (Hfr i b Hbi) as (E & _). unfold holds. by rewrite E.
  - destruct (H (reverse (seq 1 29)) 0%nat [] b0 eq_refl Hb0) as (k' & Hr & _).
    + destruct (Hfr 0%nat b0 Hb0) as (_ & E1 & E2). unfold recyclable. by rewrite E1, E2.
    + intros j bj Hj. destruct (not_elem_of_nil j Hj).
    + exists kb, k'. split; assumption.
Defined.
