(* ===== verification/Bcache.v ===== *)
(** * The contract of the block cache

    What [bread], [bwrite] and [brelse] promise to the log and the file system,
    in terms of blocks rather than buffers: [blk k n] is the contents of block
    [n] as the running process sees it, [cst me pd k D H] says that the cache is
    well-formed, that the blocks in [D] are pinned by the log and that the
    blocks in [H] are held by the process, and [hb k i n d] that buffer [i] is
    held, holds block [n] and contains [d]. *)

From S2P Require Import Prelude CString Headers Spinlock Ring Sched Sleeplock Dll Bio.

Record cst (me : nat) (pd : Z) (k : kernel) (D H : list Z) : Prop := {
  cs_env : env me pd k;
  cs_inv : exists l, bc_inv k l;
  cs_dirty : forall n, dirty k n <-> n ∈ D;
  cs_busy : forall n, busy k n <-> n ∈ H }.

Definition hb (k : kernel) (i : nat) (n : Z) (d : list Z) : Prop :=
  (i < NBUF)%nat /\ exists b, bufs k !! i = Some b /\ b_dev b = 1 /\ b_blockno b = n /\ b_refcnt b = 1 /\ b_data b = d.

(** Only the cache, the disk and the scheduler's data differ. *)
Definition cframe (k k' : kernel) : Prop :=
  k' = k <| bufs := bufs k' |> <| procs := procs k' |> <| pqueues := pqueues k' |> <| htindex := htindex k' |>
         <| disk := disk k' |> <| disk_writes := disk_writes k' |>.

Lemma cframe_refl k : cframe k k.
Proof. unfold cframe. by kernel_eq. Qed.

Lemma cframe_trans k1 k2 k3 : cframe k1 k2 -> cframe k2 k3 -> cframe k1 k3.
Proof. unfold cframe. intros E1 E2. rewrite E2, E1. by kernel_eq. Qed.

Lemma hb_blk me pd k D H i n d : cst me pd k D H -> hb k i n d -> blk k n = Some d.
Proof.
  intros [_ [l Hbc] _ _] (Hi & b & Hb & Hd & Hn & _ & <-). unfold blk.
  rewrite (buf_of_Some (bufs k) n i b) by (done || apply Hbc). by rewrite Hb.
Qed.

Lemma hb_held me pd k D H i n d : cst me pd k D H -> hb k i n d -> n ∈ H.
Proof. intros Hc (Hi & b & Hb & ?). apply (cs_busy _ _ _ _ _ Hc). exists i, b. tauto. Qed.

Lemma cst_proper me pd k D H D' H' :
  (forall n, n ∈ D <-> n ∈ D') -> (forall n, n ∈ H <-> n ∈ H') -> cst me pd k D H -> cst me pd k D' H'.
Proof. intros ED EH [H1 H2 H3 H4]. split; [done|done|..]; intros n; [by rewrite H3|by rewrite H4]. Qed.

(** [bread]: needs the block to exist, not to be held already, and a buffer for it. *)
Lemma bread_c me pd k D H n :
  cst me pd k D H -> n ∉ H -> is_Some (disk k !! n) -> n ∈ D \/ (length D + length H < NBUF)%nat ->
  exists i d k', bread 1 n k = Ret i k' /\ cst me pd k' D (n :: H) /\ hb k' i n d /\ blk k n = Some d /\
    (forall m, blk k' m = blk k m) /\ (forall j m e, hb k j m e -> hb k' j m e) /\
    disk k' = disk k /\ disk_writes k' = disk_writes k /\ cframe k k'.
Proof.
  intros [Hev [l Hbc] Hdir Hbu] HnH Hd Hroom.
  destruct (bread_run me pd k l n Hev Hbc Hd) as (i & b & Hr & Hdone).
  - by rewrite Hbu.
  - destruct Hroom as [HD|Hc].
    + left. apply Hdir in HD as (j & bj & Hj & Hbj & Hdj & Hnj & _). exists j. eapply buf_of_Some; try done; apply Hbc.
    + apply (room_count k l n (D ++ H)); [done| |by rewrite length_app]. intros m [?%Hdir|?%Hbu]; set_solver.
  - destruct Hdone as [Hi Hdev Hno Href Hblk Hinv Hsame Hdir' Hbu' Hold].
    assert (Hlt : (i < length (bufs k))%nat) by (rewrite (bc_len _ _ Hbc); lia).
    exists i, (b_data b), (put_buf i b k). split_and!; try done.
    + split; [by apply env_put|by exists l|intros m; by rewrite Hdir', Hdir|].
      intros m. rewrite Hbu', Hbu, elem_of_cons. tauto.
    + split; [done|]. exists b. split_and!; try done. by apply put_buf_lookup.
    + intros j m e (Hj & bj & Hbj & ? & ? & Hrj & ?). split; [done|]. exists bj. split_and!; try done.
      cbn. rewrite list_lookup_insert_ne; [done|]. intros <-. rewrite (Hold bj Hbj) in Hrj. lia.
Qed.

(** Storing into a held buffer. *)
Lemma set_data_c me pd k D H i n d d' :
  cst me pd k D H -> hb k i n d -> length d' = Z.to_nat BSIZE ->
  exists k', upd_buf i (fun b => b <| b_data := d' |>) k = Ret tt k' /\ cst me pd k' D H /\ hb k' i n d' /\
    (forall m, blk k' m = if decide (m = n) then Some d' else blk k m) /\
    (forall j m e, j <> i -> hb k j m e -> hb k' j m e) /\
    disk k' = disk k /\ disk_writes k' = disk_writes k /\ cframe k k'.
Proof.
  intros [Hev [l Hbc] Hdir Hbu] (Hi & b & Hb & Hdev & <- & Href & <-) Hl.
  destruct (set_data_put k l i b d' Hbc Hi Hb Hdev Href Hl) as (Hinv & Hblk & Hd & Hbs).
  exists (put_buf i (b <| b_data := d' |>) k). split_and!; try done.
  - by rewrite (upd_buf_run _ _ _ _ Hb).
  - split; [by apply env_put|by exists l|intros m; by rewrite Hd|intros m; by rewrite Hbs].
  - split; [done|]. eexists. split_and!; [apply put_buf_lookup; by eapply lookup_lt_Some|done..].
  - intros j m e Hne (Hj & bj & Hbj & Hrest). split; [done|]. exists bj. split; [|done].
    cbn. by rewrite list_lookup_insert_ne.
Qed.

(** [bwrite]: the disk gets the data; the block is no longer pinned. *)
Lemma bwrite_c me pd k D H i n d :
  cst me pd k D H -> hb k i n d ->
  exists k', bwrite i k = Ret tt k' /\ cst me pd k' (filter (fun m => m <> n) D) H /\ hb k' i n d /\
    (forall m, blk k' m = blk k m) /\ (forall j m e, j <> i -> hb k j m e -> hb k' j m e) /\
    disk k' = <[n := d]> (disk k) /\ disk_writes k' = (n, d) :: disk_writes k /\ cframe k k'.
Proof.
  intros [Hev [l Hbc] Hdir Hbu] (Hi & b & Hb & Hdev & <- & Href & <-).
  destruct (wrote_effect k l i b Hbc Hi Hb Hdev Href) as (Hinv & Hblk & Hd & Hbs).
  eexists. split_and!; [by eapply bwrite_run|..]; try done.
  - split; [by apply env_wrote, env_put|by exists l| |intros m; by rewrite Hbs].
    intros m. rewrite Hd, Hdir, list_elem_of_filter. tauto.
  - split; [done|]. eexists. split_and!; [apply put_buf_lookup; by eapply lookup_lt_Some|done..].
  - intros j m e Hne (Hj & bj & Hbj & Hrest). split; [done|]. exists bj. split; [|done].
    cbn. by rewrite list_lookup_insert_ne.
Qed.

(** [brelse]: the block must be pinned or agree with the disk. *)
Lemma brelse_c me pd k D H i n d :
  cst me pd k D H -> hb k i n d -> n ∈ D \/ disk k !! n = Some d ->
  exists k', brelse i k = Ret tt k' /\ cst me pd k' D (filter (fun m => m <> n) H) /\
    (forall m, blk k' m = blk k m) /\ (forall j m e, j <> i -> hb k j m e -> hb k' j m e) /\
    disk k' = disk k /\ disk_writes k' = disk_writes k /\ cframe k k'.
Proof.
  intros [Hev [l Hbc] Hdir Hbu] (Hi & b & Hb & Hdev & <- & Href & <-) Hcl.
  destruct (brelse_run me pd k l i b Hev Hbc Hi Hb Hdev Href) as (k' & Hr & Hdone).
  { intros Hf. destruct Hcl as [HD|]; [|done]. apply Hdir in HD. change (dirty k ?m) with (some_buf (fun b => b_flags b = 6) k m) in HD.
    rewrite (some_buf_at _ k l i b) in HD by done. lia. }
  destruct Hdone as [He (l1 & l2 & _ & Hinv) Hs Hd Hbs Hfr Hoth].
  exists k'. split_and!; try done.
  - split; [done|by eexists|intros m; by rewrite Hd|]. intros m. rewrite Hbs, Hbu, list_elem_of_filter. tauto.
  - intros j m e Hne (Hj & bj & Hbj & Hrest). split; [done|]. destruct (Hoth j bj Hne Hbj) as (x & y & Hbj').
    eexists. split; [done|done].
  - by destruct Hfr as (? & ? & ? & ? & ->).
  - by destruct Hfr as (? & ? & ? & ? & ->).
  - by destruct Hfr as (? & ? & ? & ? & ->).
Qed.

(** Setting [B_DIRTY] on a held buffer pins its block. *)
Lemma mark_dirty_c me pd k D H i n d :
  cst me pd k D H -> hb k i n d ->
  exists k', upd_buf i (fun b => b <| b_flags := Z.lor (b_flags b) B_DIRTY |>) k = Ret tt k' /\
    cst me pd k' (n :: D) H /\ (forall m, blk k' m = blk k m) /\
    (forall j m e, hb k j m e -> hb k' j m e) /\
    disk k' = disk k /\ disk_writes k' = disk_writes k /\ cframe k k'.
Proof.
  intros [Hev [l Hbc] Hdir Hbu] (Hi & b & Hb & Hdev & <- & Href & <-).
  set (b' := b <| b_flags := Z.lor (b_flags b) B_DIRTY |>).
  destruct (bc_ok _ _ Hbc i b Hi Hb) as [Hlk [(? & _)|(_ & Hfl & Hs & Hlen & _)]]; [congruence|].
  assert (Hfl' : b_flags b' = 6) by (unfold b'; cbn; by destruct Hfl as [-> | ->]).
  assert (Hbc' : bc_inv (put_buf i b' k) l).
  { eapply bc_inv_put; try done; [|intros _ j bj Hj Hne Hbj Hdj E; apply Hne; by eapply (bc_uniq _ _ Hbc)].
    split; [done|]. right. rewrite Hfl'. split_and!; try done; lia. }
  exists (put_buf i b' k). split_and!; try done.
  - by rewrite (upd_buf_run _ _ _ _ Hb).
  - split; [by apply env_put|by exists l|intros m..].
    + change (dirty ?k m) with (some_buf (fun b => b_flags b = 6) k m). rewrite (some_buf_put_same _ k l i b) by done.
      rewrite elem_of_cons. case_decide; [tauto|]. change (some_buf _ k m) with (dirty k m). rewrite Hdir. tauto.
    + rewrite <- Hbu. change (busy ?k m) with (some_buf (fun b => b_refcnt b = 1) k m).
      rewrite (some_buf_put_same _ k l i b) by done. case_decide; [|done]. subst m. by rewrite (some_buf_at _ k l i b).
  - intros m. rewrite (blk_put_same k l i b) by done. case_decide; [|done]. subst m. unfold blk.
    rewrite (buf_of_Some (bufs k) (b_blockno b) i b) by (done || apply Hbc). by rewrite Hb.
  - intros j m e (Hj & bj & Hbj & Hrest). split; [done|]. destruct (decide (i = j)) as [<-|Hne].
    + exists b'. split; [cbn; apply list_lookup_insert_eq; by eapply lookup_lt_Some|]. rewrite Hb in Hbj. by injection Hbj as <-.
    + exists bj. split; [|done]. cbn. by rewrite list_lookup_insert_ne.
Qed.
