(* ===== verification/Bytes.v ===== *)
(** * Structures inside blocks

    A disk block is a list of [BSIZE] bytes; the code accesses the structures in
    it ([struct logheader], [struct dinode], [struct superblock], [struct
    dirent], arrays of block numbers) through casts.  [get32]/[set32] and
    [get16]/[set16] read and write the little-endian integers at an offset. *)

From S2P Require Import Prelude.

Definition byte (d : list Z) (o : nat) : Z := default 0 (d !! o).

Definition get16 (d : list Z) (o : nat) : Z := byte d o + 256 * byte d (o + 1).
Definition get32 (d : list Z) (o : nat) : Z :=
  byte d o + 256 * byte d (o + 1) + 65536 * byte d (o + 2) + 16777216 * byte d (o + 3).

Definition set16 (d : list Z) (o : nat) (w : Z) : list Z :=
  <[(o + 1)%nat := u8 (w / 256)]> (<[o := u8 w]> d).
Definition set32 (d : list Z) (o : nat) (w : Z) : list Z :=
  <[(o + 3)%nat := u8 (w / 16777216)]> (<[(o + 2)%nat := u8 (w / 65536)]>
    (<[(o + 1)%nat := u8 (w / 256)]> (<[o := u8 w]> d))).

(** Copying [l] over the bytes from [o] on. *)
Fixpoint put_bytes (d : list Z) (o : nat) (l : list Z) : list Z :=
  match l with
  | [] => d
  | b :: l' => put_bytes (<[o := b]> d) (S o) l'
  end.

Definition get_bytes (d : list Z) (o n : nat) : list Z := take n (drop o d).

Lemma set32_length d o w : length (set32 d o w) = length d.
Proof. unfold set32. by rewrite !length_insert. Qed.

Lemma set16_length d o w : length (set16 d o w) = length d.
Proof. unfold set16. by rewrite !length_insert. Qed.

Lemma byte_insert_eq d o b : (o < length d)%nat -> byte (<[o := b]> d) o = b.
Proof. intros. unfold byte. by rewrite list_lookup_insert_eq. Qed.

Lemma byte_insert_ne d o o' b : o <> o' -> byte (<[o := b]> d) o' = byte d o'.
Proof. intros. unfold byte. by rewrite list_lookup_insert_ne. Qed.

Lemma split32 w : 0 <= w < 2 ^ 32 ->
  u8 w + 256 * u8 (w / 256) + 65536 * u8 (w / 65536) + 16777216 * u8 (w / 16777216) = w.
Proof. intros. unfold u8. change (2 ^ 8) with 256. Z.div_mod_to_equations. lia. Qed.

Lemma get32_set32 d o w :
  (o + 4 <= length d)%nat -> 0 <= w < 2 ^ 32 -> get32 (set32 d o w) o = w.
Proof.
  intros Ho Hw. unfold get32, set32.
  rewrite (byte_insert_eq _ (o + 3)) by (rewrite !length_insert; lia).
  rewrite !(byte_insert_ne _ (o + 3)) by lia.
  rewrite (byte_insert_eq _ (o + 2)) by (rewrite !length_insert; lia). rewrite !(byte_insert_ne _ (o + 2)) by lia.
  rewrite (byte_insert_eq _ (o + 1)) by (rewrite !length_insert; lia). rewrite !(byte_insert_ne _ (o + 1)) by lia.
  rewrite byte_insert_eq by lia. by apply split32.
Qed.

Lemma byte_set32_ne d o o' w : (o' < o \/ o + 4 <= o')%nat -> byte (set32 d o w) o' = byte d o'.
Proof. intros. unfold set32. by rewrite !byte_insert_ne by lia. Qed.

Lemma get32_set32_ne d o o' w : (o' + 4 <= o \/ o + 4 <= o')%nat -> get32 (set32 d o w) o' = get32 d o'.
Proof. intros. unfold get32. by rewrite !byte_set32_ne by lia. Qed.

Lemma get16_set16 d o w : (o + 2 <= length d)%nat -> 0 <= w < 2 ^ 16 -> get16 (set16 d o w) o = w.
Proof.
  intros Ho Hw. unfold get16, set16. rewrite (byte_insert_eq _ (o + 1)) by (rewrite !length_insert; lia).
  rewrite byte_insert_ne, byte_insert_eq by lia. unfold u8. change (2 ^ 8) with 256. Z.div_mod_to_equations. lia.
Qed.

Lemma byte_set16_ne d o o' w : (o' < o \/ o + 2 <= o')%nat -> byte (set16 d o w) o' = byte d o'.
Proof. intros. unfold set16. by rewrite !byte_insert_ne by lia. Qed.

Lemma get16_set16_ne d o o' w : (o' + 2 <= o \/ o + 2 <= o')%nat -> get16 (set16 d o w) o' = get16 d o'.
Proof. intros. unfold get16. by rewrite !byte_set16_ne by lia. Qed.

Lemma put_bytes_length d o l : length (put_bytes d o l) = length d.
Proof. revert d o. induction l as [|b l IH]; intros d o; [done|]. cbn. by rewrite IH, length_insert. Qed.

Lemma put_bytes_lookup d o l j :
  (o + length l <= length d)%nat ->
  put_bytes d o l !! j = if decide (o <= j < o + length l)%nat then l !! (j - o)%nat else d !! j.
Proof.
  revert d o. induction l as [|b l IH]; intros d o Hl; cbn in *.
  - rewrite decide_False by lia. done.
  - rewrite IH by (rewrite length_insert; lia). destruct (decide (j = o)) as [->|Hne].
    + rewrite decide_False, decide_True, Nat.sub_diag by lia. by rewrite list_lookup_insert_eq by lia.
    + rewrite list_lookup_insert_ne by done. repeat case_decide; try lia; [|done].
      replace (j - o)%nat with (S (j - S o)) by lia. done.
Qed.

Lemma get_put_bytes d o l : (o + length l <= length d)%nat -> get_bytes (put_bytes d o l) o (length l) = l.
Proof.
  intros Hl. apply list_eq. intros j. unfold get_bytes. destruct (decide (j < length l)%nat) as [Hj|Hj].
  - rewrite lookup_take_lt, lookup_drop, put_bytes_lookup, decide_True by lia. f_equal. lia.
  - rewrite lookup_take_ge by lia. symmetry. apply lookup_ge_None_2. lia.
Qed.
