(* ===== verification/Log.v ===== *)
(** * Write-ahead log

    [src/log.c].  File system calls bracket their updates with [begin_op] and
    [end_op]; [log_write] pins the blocks they change in the cache, and the last
    [end_op] of a group commits: the blocks are copied to the log area, the
    header naming them is written (the commit point), the blocks are installed
    at their home locations and the header is cleared. *)

From S2P Require Import Prelude CString Headers Spinlock Ring Sched Sleeplock Dll Bio Bcache Bytes.

(** ** Operations *)

Definition upd_log (f : log -> log) : K unit := modify (fun k => k <| the_log ::= f |>).

(** [readsb] (fs.c): the superblock is block 1. *)
Definition readsb (dev : Z) : K superblock :=
  let! i := bread dev 1 in
  let! b := buf_at i in
  let d := b_data b in
  let sb := mk_superblock (get32 d 0) (get32 d 4) (get32 d 8) (get32 d 12)
              (get32 d 16) (get32 d 20) (get32 d 24) in
  do! brelse i in
  ret sb.

(** [memmove(to->data, from->data, BSIZE)] between buffers. *)
Definition copy_buf (to from : nat) : K unit :=
  let! f := buf_at from in
  upd_buf to (fun b => b <| b_data := b_data f |>).

Definition install_one (tail : nat) : K unit :=
  let! lg := gets the_log in
  let! lbuf := bread (log_dev lg) (u32 (log_start lg + Z.of_nat tail + 1)) in
  let! dst := ofopt (lh_block lg !! tail) in
  let! dbuf := bread (log_dev lg) (u32 dst) in
  do! copy_buf dbuf lbuf in
  do! bwrite dbuf in
  do! brelse lbuf in
  brelse dbuf.

(** The loop bound [log.lh.n] does not change during the loop. *)
Definition install_trans : K unit :=
  let! lg := gets the_log in
  foreach (seq 0 (Z.to_nat (lh_n lg))) install_one.

Definition read_head : K unit :=
  let! lg := gets the_log in
  let! i := bread (log_dev lg) (u32 (log_start lg)) in
  let! b := buf_at i in
  let d := b_data b in
  do! upd_log (fun lg => lg <| lh_n := i32 (get32 d 0) |>) in
  do! foreach (seq 0 (Z.to_nat (i32 (get32 d 0)))) (fun j =>
    let! lg := gets the_log in
    let! bl := ofopt (zset (lh_block lg) (Z.of_nat j) (i32 (get32 d (4 + 4 * j)))) in
    upd_log (fun lg => lg <| lh_block := bl |>)) in
  brelse i.

(** The header as written: the count and the block numbers, over what the header
    block held before. *)
Definition write_head_data (lg : log) (d : list Z) : list Z :=
  fold_left (fun d j => set32 d (4 + 4 * j) (u32 (default 0 (lh_block lg !! j))))
    (seq 0 (Z.to_nat (lh_n lg))) (set32 d 0 (u32 (lh_n lg))).

Definition write_head : K unit :=
  let! lg := gets the_log in
  let! i := bread (log_dev lg) (u32 (log_start lg)) in
  do! when (Z.of_nat (length (lh_block lg)) <? lh_n lg) fault in
  do! upd_buf i (fun b => b <| b_data ::= write_head_data lg |>) in
  do! bwrite i in
  brelse i.

Definition recover_from_log : K unit :=
  do! read_head in
  do! install_trans in
  do! upd_log (fun lg => lg <| lh_n := 0 |>) in
  write_head.

Definition initlog (dev : Z) : K unit :=
  if BSIZE <=? 4 + 4 * LOGSIZE then panic "initlog: too big logheader"
  else
    do! initlock Llog in
    let! sb := readsb dev in
    do! upd_log (fun lg => lg <| log_start := i32 (s_logstart sb) |> <| log_size := i32 (s_nlog sb) |>
                              <| log_dev := dev |>) in
    recover_from_log.

Definition begin_op : K unit :=
  do! acquire Llog in
  loop WAITS (fun _ : unit =>
    let! lg := gets the_log in
    if negb (log_committing lg =? 0) then do! sleep Clog Llog in ret (inl tt)
    else if LOGSIZE <? lh_n lg + (log_outstanding lg + 1) * MAXOPBLOCKS then
      do! sleep Clog Llog in ret (inl tt)
    else
      do! upd_log (fun lg => lg <| log_outstanding ::= fun n => n + 1 |>) in
      do! release Llog in
      ret (inr tt)) tt.

Definition write_one (tail : nat) : K unit :=
  let! lg := gets the_log in
  let! to := bread (log_dev lg) (u32 (log_start lg + Z.of_nat tail + 1)) in
  let! src := ofopt (lh_block lg !! tail) in
  let! from := bread (log_dev lg) (u32 src) in
  do! copy_buf to from in
  do! bwrite to in
  do! brelse from in
  brelse to.

Definition write_log : K unit :=
  let! lg := gets the_log in
  foreach (seq 0 (Z.to_nat (lh_n lg))) write_one.

Definition commit : K unit :=
  let! lg := gets the_log in
  when (0 <? lh_n lg) (
    do! write_log in
    do! write_head in
    do! install_trans in
    do! upd_log (fun lg => lg <| lh_n := 0 |>) in
    write_head).

Definition end_op : K unit :=
  do! acquire Llog in
  do! upd_log (fun lg => lg <| log_outstanding ::= fun n => n - 1 |>) in
  let! lg := gets the_log in
  if negb (log_committing lg =? 0) then panic "log.committing"
  else
    let! do_commit := (if log_outstanding lg =? 0 then
                         do! upd_log (fun lg => lg <| log_committing := 1 |>) in ret true
                       else do! wakeup Clog in ret false) in
    do! release Llog in
    when do_commit (
      do! commit in
      do! acquire Llog in
      do! upd_log (fun lg => lg <| log_committing := 0 |>) in
      do! wakeup Clog in
      release Llog).

(** The index of the block in the header, or [lh.n]. *)
Fixpoint log_slot (l : list Z) (n : Z) (i : nat) : nat :=
  match l with
  | [] => i
  | x :: l' => if u32 x =? n then i else log_slot l' n (S i)
  end.

Definition log_write (i : nat) : K unit :=
  let! lg := gets the_log in
  if (LOGSIZE <=? lh_n lg) || (log_size lg - 1 <=? lh_n lg) then panic "too big a transaction"
  else if log_outstanding lg <? 1 then panic "log_write outside of trans"
  else
    do! acquire Llog in
    let! b := buf_at i in
    let s := log_slot (take (Z.to_nat (lh_n lg)) (lh_block lg)) (b_blockno b) 0 in
    let! bl := ofopt (zset (lh_block lg) (Z.of_nat s) (i32 (b_blockno b))) in
    do! upd_log (fun lg => lg <| lh_block := bl |>) in
    do! when (Z.of_nat s =? lh_n lg) (upd_log (fun lg => lg <| lh_n ::= fun n => n + 1 |>)) in
    do! upd_buf i (fun b => b <| b_flags := Z.lor (b_flags b) B_DIRTY |>) in
    release Llog.

(** ** Disks and sequences of writes *)

Definition apply_writes (l : list (Z * list Z)) (m : gmap Z (list Z)) : gmap Z (list Z) :=
  foldl (fun m w => <[w.1 := w.2]> m) m l.

Lemma apply_writes_cons x d l m : apply_writes ((x, d) :: l) m = apply_writes l (<[x := d]> m).
Proof. done. Qed.

Lemma apply_writes_app l1 l2 m : apply_writes (l1 ++ l2) m = apply_writes l2 (apply_writes l1 m).
Proof. apply foldl_app. Qed.

Lemma apply_writes_ne l m n : n ∉ l.*1 -> apply_writes l m !! n = m !! n.
Proof.
  revert m. induction l as [|[x d] l IH]; intros m Hn; [done|]. cbn [fmap list_fmap fst] in Hn. rewrite apply_writes_cons, IH by set_solver.
  apply lookup_insert_ne. set_solver.
Qed.

Lemma apply_writes_eq l m n d : NoDup l.*1 -> (n, d) ∈ l -> apply_writes l m !! n = Some d.
Proof.
  revert m. induction l as [|[x e] l IH]; intros m Hnd Hin; [by apply elem_of_nil in Hin|]. cbn [fmap list_fmap fst] in Hnd.
  rewrite apply_writes_cons. apply NoDup_cons in Hnd as [Hx Hnd]. apply elem_of_cons in Hin as [[= -> ->]|Hin]; [|by apply IH].
  rewrite apply_writes_ne by done. apply lookup_insert_eq.
Qed.

Lemma apply_writes_dom l m n : is_Some (m !! n) -> is_Some (apply_writes l m !! n).
Proof.
  revert m. induction l as [|[x d] l IH]; intros m Hn; [done|]. rewrite apply_writes_cons. apply IH.
  destruct (decide (x = n)) as [->|]; [by rewrite lookup_insert_eq|by rewrite lookup_insert_ne].
Qed.

(** The code from [k] to [k'] issued exactly the writes [l], in that order. *)
Definition issued (l : list (Z * list Z)) (k k' : kernel) : Prop :=
  disk_writes k' = reverse l ++ disk_writes k /\ disk k' = apply_writes l (disk k).

Lemma issued_nil k k' : disk_writes k' = disk_writes k -> disk k' = disk k -> issued [] k k'.
Proof. done. Qed.

Lemma issued_trans l1 l2 k1 k2 k3 : issued l1 k1 k2 -> issued l2 k2 k3 -> issued (l1 ++ l2) k1 k3.
Proof.
  intros [H1 H2] [H3 H4]. split; [by rewrite H3, H1, reverse_app, app_assoc|]. by rewrite H4, H2, apply_writes_app.
Qed.

(** ** The log's state *)

(** The in-memory log of a file system whose log area starts at block [s]: [B] are
    the blocks of the current transaction. *)
Record log_ok (lg : log) (s : Z) (B : list Z) : Prop := {
  lo_dev : log_dev lg = 1;
  lo_start : log_start lg = s;
  lo_s : 0 < s /\ s + LOGSIZE < 2 ^ 31;
  lo_n : lh_n lg = Z.of_nat (length B);
  lo_len : length (lh_block lg) = Z.to_nat LOGSIZE;
  lo_B : take (length B) (lh_block lg) = B;
  lo_range : Forall (fun b => 0 <= b < 2 ^ 31) B }.

Lemma log_ok_block lg s B tail b : log_ok lg s B -> B !! tail = Some b -> lh_block lg !! tail = Some b /\ u32 b = b.
Proof.
  intros Hl Hb. split.
  - rewrite <- (lo_B _ _ _ Hl) in Hb. by apply lookup_take_Some in Hb as [? _].
  - apply u32_small. pose proof (Forall_lookup_1 _ _ _ _ (lo_range _ _ _ Hl) Hb). cbn in *. lia.
Qed.

Lemma log_ok_length lg s B : log_ok lg s B -> (length B <= Z.to_nat LOGSIZE)%nat.
Proof.
  intros Hl. rewrite <- (lo_len _ _ _ Hl), <- (lo_B _ _ _ Hl) at 1. rewrite length_take. lia.
Qed.

Lemma log_addr lg s B tail :
  log_ok lg s B -> (tail < Z.to_nat LOGSIZE)%nat -> u32 (log_start lg + Z.of_nat tail + 1) = s + 1 + Z.of_nat tail.
Proof.
  intros Hl Ht. rewrite (lo_start _ _ _ Hl). pose proof (lo_s _ _ _ Hl). unfold LOGSIZE, MAXOPBLOCKS in *.
  rewrite u32_small; lia.
Qed.

(** Blocks that are neither pinned nor held are as on the disk. *)
Lemma cst_clean me pd k D H n : cst me pd k D H -> n ∉ D -> n ∉ H -> blk k n = disk k !! n.
Proof.
  intros [_ [l Hbc] Hdir Hbu] HD HH. unfold blk. destruct (buf_of (bufs k) n) as [i|] eqn:Hf; [|done].
  destruct (buf_of_inv _ _ _ Hf) as (Hi & b & Hb & Hd & Hn). rewrite Hb. cbn.
  destruct (bc_ok _ _ Hbc i b Hi Hb) as [[_ Hrc] [(? & _)|(_ & Hfl & _ & _ & Hco)]]; [congruence|].
  rewrite <- Hn. symmetry. apply Hco.
  - destruct Hrc; [done|]. exfalso. apply HH, Hbu. by exists i, b.
  - destruct Hfl; [done|]. exfalso. apply HD, Hdir. by exists i, b.
Qed.

Lemma cst_length me pd k D H n d : cst me pd k D H -> blk k n = Some d -> length d = Z.to_nat BSIZE.
Proof.
  intros [_ [l Hbc] _ _]. unfold blk. destruct (buf_of (bufs k) n) as [i|] eqn:Hf; [|apply Hbc].
  destruct (buf_of_inv _ _ _ Hf) as (Hi & b & Hb & Hd & Hn). rewrite Hb. intros [= <-].
  destruct (bc_ok _ _ Hbc i b Hi Hb) as [_ [(? & _)|(_ & _ & _ & ? & _)]]; [congruence|done].
Qed.

Lemma cframe_log k k' : cframe k k' -> the_log k' = the_log k.
Proof. intros E. by rewrite E. Qed.

Lemma hb_buf_at k i n d : hb k i n d -> exists b, buf_at i k = Ret b k /\ b_data b = d.
Proof. intros (_ & b & Hb & _ & _ & _ & Hd). exists b. split; [by apply buf_at_run|done]. Qed.

(** ** One block to the log *)

Lemma write_one_run me pd k s B D tail b d :
  cst me pd k D [] -> log_ok (the_log k) s B -> B !! tail = Some b -> b ∈ D -> blk k b = Some d ->
  is_Some (disk k !! b) -> is_Some (disk k !! (s + 1 + Z.of_nat tail)) ->
  (s + 1 + Z.of_nat tail) ∉ D -> (length D < NBUF)%nat ->
  exists k', write_one tail k = Ret tt k' /\ cst me pd k' D [] /\ cframe k k' /\
    issued [(s + 1 + Z.of_nat tail, d)] k k' /\
    forall m, blk k' m = if decide (m = s + 1 + Z.of_nat tail) then Some d else blk k m.
Proof.
  intros Hc Hl Hb HbD Hd Hdb Hdt HtD Hroom. set (t := s + 1 + Z.of_nat tail) in *.
  assert (Hbt : b <> t) by (intros ->; done).
  assert (Htl : (tail < Z.to_nat LOGSIZE)%nat) by (pose proof (log_ok_length _ _ _ Hl); apply lookup_lt_Some in Hb; lia).
  destruct (log_ok_block _ _ _ _ _ Hl Hb) as [Hlb Hub]. unfold write_one. rewrite bind_gets.
  rewrite (lo_dev _ _ _ Hl), (log_addr _ _ _ _ Hl Htl). fold t.
  destruct (bread_c me pd k D [] t Hc) as (i & e & k1 & Hr1 & Hc1 & Hh1 & He & Hb1 & _ & Hd1 & Hw1 & Hf1);
    [set_solver|done|right; cbn; lia|]. run Hr1. rewrite Hlb. change (bind (ofopt (Some b)) ?f k1) with (f b k1). cbv beta.
  rewrite Hub.
  destruct (bread_c me pd k1 D [t] b Hc1) as (j & e' & k2 & Hr2 & Hc2 & Hh2 & He' & Hb2 & Hk2 & Hd2 & Hw2 & Hf2);
    [set_solver|by rewrite Hd1|by left|]. run Hr2.
  rewrite Hb1, Hd in He'. injection He' as <-. pose proof (Hk2 _ _ _ Hh1) as Hh1'.
  assert (Hij : i <> j). { intros ->. destruct Hh1' as (_ & x & Hx & _ & Hx1 & _), Hh2 as (_ & y & Hy & _ & Hy1 & _). congruence. }
  unfold copy_buf. destruct (hb_buf_at _ _ _ _ Hh2) as (bj & Hbj & Edj).
  destruct (set_data_c me pd k2 D (b :: [t]) i t e d Hc2 Hh1') as (k3 & Hr3 & Hc3 & Hh3 & Hb3 & Hk3 & Hd3 & Hw3 & Hf3).
  { eapply cst_length; [exact Hc|done]. }
  erewrite bind_run; [|run Hbj; rewrite Edj; exact Hr3].
  destruct (bwrite_c me pd k3 D (b :: [t]) i t d Hc3 Hh3) as (k4 & Hr4 & Hc4 & Hh4 & Hb4 & Hk4 & Hd4 & Hw4 & Hf4). run Hr4.
  apply (cst_proper _ _ _ _ _ D (b :: [t])) in Hc4; [|intros n; rewrite list_elem_of_filter; split; [tauto|]; intros; split; [by intros ->|done]|done].
  destruct (brelse_c me pd k4 D (b :: [t]) j b d Hc4) as (k5 & Hr5 & Hc5 & Hb5 & Hk5 & Hd5 & Hw5 & Hf5);
    [apply Hk4, Hk3; congruence || done|by left|]. run Hr5.
  apply (cst_proper _ _ _ _ _ D [t]) in Hc5; [|done|intros n; rewrite list_elem_of_filter; set_solver].
  destruct (brelse_c me pd k5 D [t] i t d Hc5) as (k6 & Hr6 & Hc6 & Hb6 & _ & Hd6 & Hw6 & Hf6);
    [by apply Hk5|right; rewrite Hd5, Hd4; apply lookup_insert_eq|]. rewrite Hr6.
  apply (cst_proper _ _ _ _ _ D []) in Hc6; [|done|intros n; rewrite list_elem_of_filter; set_solver].
  exists k6. split_and!; [done|done| | |].
  - repeat (eapply cframe_trans; [eassumption|]). apply cframe_refl.
  - split; cbn; [by rewrite Hw6, Hw5, Hw4, Hw3, Hw2, Hw1|by rewrite Hd6, Hd5, Hd4, Hd3, Hd2, Hd1].
  - intros m. rewrite Hb6, Hb5, Hb4, Hb3. case_decide; [done|]. by rewrite Hb2, Hb1.
Qed.

(** ** One block from the log to its home *)

Lemma install_one_run me pd k s B D tail b d :
  cst me pd k D [] -> log_ok (the_log k) s B -> B !! tail = Some b ->
  is_Some (disk k !! b) -> disk k !! (s + 1 + Z.of_nat tail) = Some d ->
  (s + 1 + Z.of_nat tail) ∉ D -> b <> s + 1 + Z.of_nat tail ->
  (length D < NBUF)%nat -> b ∈ D \/ (length D + 1 < NBUF)%nat ->
  exists k', install_one tail k = Ret tt k' /\ cst me pd k' (filter (fun m => m <> b) D) [] /\ cframe k k' /\
    issued [(b, d)] k k'.
Proof.
  intros Hc Hl Hb Hdb Hdt HtD Hbt Hroom Hroom2. set (t := s + 1 + Z.of_nat tail) in *.
  assert (Htl : (tail < Z.to_nat LOGSIZE)%nat) by (pose proof (log_ok_length _ _ _ Hl); apply lookup_lt_Some in Hb; lia).
  destruct (log_ok_block _ _ _ _ _ Hl Hb) as [Hlb Hub]. unfold install_one. rewrite bind_gets.
  rewrite (lo_dev _ _ _ Hl), (log_addr _ _ _ _ Hl Htl). fold t.
  destruct (bread_c me pd k D [] t Hc) as (i & e & k1 & Hr1 & Hc1 & Hh1 & He & Hb1 & _ & Hd1 & Hw1 & Hf1);
    [set_solver|by eexists|right; cbn; lia|]. run Hr1. rewrite Hlb. change (bind (ofopt (Some b)) ?f k1) with (f b k1). cbv beta.
  rewrite Hub. rewrite (cst_clean me pd k D [] t Hc), Hdt in He by set_solver. injection He as <-.
  destruct (bread_c me pd k1 D [t] b Hc1) as (j & e' & k2 & Hr2 & Hc2 & Hh2 & He' & Hb2 & Hk2 & Hd2 & Hw2 & Hf2);
    [set_solver|by rewrite Hd1|cbn; tauto|]. run Hr2.
  pose proof (Hk2 _ _ _ Hh1) as Hh1'.
  assert (Hij : i <> j). { intros ->. destruct Hh1' as (_ & x & Hx & _ & Hx1 & _), Hh2 as (_ & y & Hy & _ & Hy1 & _). congruence. }
  unfold copy_buf. destruct (hb_buf_at _ _ _ _ Hh1') as (bi & Hbi & Edi).
  destruct (set_data_c me pd k2 D (b :: [t]) j b e' d Hc2 Hh2) as (k3 & Hr3 & Hc3 & Hh3 & Hb3 & Hk3 & Hd3 & Hw3 & Hf3).
  { eapply cst_length; [exact Hc1|]. rewrite Hb1. rewrite (cst_clean me pd k D [] t Hc); set_solver. }
  erewrite bind_run; [|run Hbi; rewrite Edi; exact Hr3].
  destruct (bwrite_c me pd k3 D (b :: [t]) j b d Hc3 Hh3) as (k4 & Hr4 & Hc4 & Hh4 & Hb4 & Hk4 & Hd4 & Hw4 & Hf4). run Hr4.
  set (D' := filter (fun m => m <> b) D) in *.
  assert (Hdt4 : disk k4 !! t = Some d) by (rewrite Hd4, lookup_insert_ne, Hd3, Hd2, Hd1; done).
  destruct (brelse_c me pd k4 D' (b :: [t]) i t d Hc4) as (k5 & Hr5 & Hc5 & Hb5 & Hk5 & Hd5 & Hw5 & Hf5);
    [by apply Hk4, Hk3|by right|]. run Hr5.
  apply (cst_proper _ _ _ _ _ D' [b]) in Hc5; [|done|intros n; rewrite list_elem_of_filter; set_solver].
  destruct (brelse_c me pd k5 D' [b] j b d Hc5) as (k6 & Hr6 & Hc6 & Hb6 & _ & Hd6 & Hw6 & Hf6);
    [apply Hk5; [done|by apply Hh4]|right; rewrite Hd5, Hd4; apply lookup_insert_eq|]. rewrite Hr6.
  apply (cst_proper _ _ _ _ _ D' []) in Hc6; [|done|intros n; rewrite list_elem_of_filter; set_solver].
  exists k6. split_and!; [done|done| |].
  - repeat (eapply cframe_trans; [eassumption|]). apply cframe_refl.
  - split; cbn; [by rewrite Hw6, Hw5, Hw4, Hw3, Hw2, Hw1|by rewrite Hd6, Hd5, Hd4, Hd3, Hd2, Hd1].
Qed.

(** ** The header *)

Lemma fold_set32_length lg l d :
  length (fold_left (fun d j => set32 d (4 + 4 * j) (u32 (default 0 (lh_block lg !! j)))) l d) = length d.
Proof. revert d. induction l as [|j l IH]; intros d; [done|]. cbn [fold_left]. by rewrite IH, set32_length. Qed.

Lemma write_head_data_length lg d : length (write_head_data lg d) = length d.
Proof. unfold write_head_data. by rewrite fold_set32_length, set32_length. Qed.

Lemma write_head_run me pd k s B D h :
  cst me pd k D [] -> log_ok (the_log k) s B -> disk k !! s = Some h -> s ∉ D -> (length D < NBUF)%nat ->
  exists k', write_head k = Ret tt k' /\ cst me pd k' D [] /\ cframe k k' /\
    issued [(s, write_head_data (the_log k) h)] k k' /\
    forall m, m <> s -> blk k' m = blk k m.
Proof.
  intros Hc Hl Hh HsD Hroom. unfold write_head. rewrite bind_gets.
  assert (Hs : u32 (log_start (the_log k)) = s).
  { rewrite (lo_start _ _ _ Hl). pose proof (lo_s _ _ _ Hl). unfold LOGSIZE, MAXOPBLOCKS in *. apply u32_small. lia. }
  rewrite (lo_dev _ _ _ Hl), Hs.
  destruct (bread_c me pd k D [] s Hc) as (i & e & k1 & Hr1 & Hc1 & Hh1 & He & Hb1 & _ & Hd1 & Hw1 & Hf1);
    [set_solver|by eexists|right; cbn; lia|]. run Hr1.
  rewrite (cst_clean me pd k D [] s Hc), Hh in He by set_solver. injection He as <-.
  assert ((Z.of_nat (length (lh_block (the_log k))) <? lh_n (the_log k)) = false) as ->.
  { apply Z.ltb_ge. rewrite (lo_n _ _ _ Hl), (lo_len _ _ _ Hl). pose proof (log_ok_length _ _ _ Hl). lia. }
  cbn [when]. change (bind (ret tt) ?f k1) with (f tt k1). cbv beta.
  set (h' := write_head_data (the_log k) h).
  destruct (set_data_c me pd k1 D [s] i s h h' Hc1 Hh1) as (k2 & Hr2 & Hc2 & Hh2 & Hb2 & _ & Hd2 & Hw2 & Hf2).
  { unfold h'. rewrite write_head_data_length. eapply cst_length; [exact Hc|].
    rewrite (cst_clean me pd k D [] s Hc); set_solver. }
  assert (Hr2' : upd_buf i (fun b => b <| b_data ::= write_head_data (the_log k) |>) k1 = Ret tt k2).
  { destruct Hh1 as (_ & b & Hb & _ & _ & _ & Hdb). rewrite (upd_buf_run _ _ _ _ Hb) in Hr2. rewrite (upd_buf_run _ _ _ _ Hb).
    rewrite <- Hr2. unfold h'. by rewrite <- Hdb. }
  run Hr2'.
  destruct (bwrite_c me pd k2 D [s] i s h' Hc2 Hh2) as (k3 & Hr3 & Hc3 & Hh3 & Hb3 & _ & Hd3 & Hw3 & Hf3). run Hr3.
  apply (cst_proper _ _ _ _ _ D [s]) in Hc3; [|intros n; rewrite list_elem_of_filter; split; [tauto|]; intros; split; [by intros ->|done]|done].
  destruct (brelse_c me pd k3 D [s] i s h' Hc3 Hh3) as (k4 & Hr4 & Hc4 & Hb4 & _ & Hd4 & Hw4 & Hf4);
    [right; rewrite Hd3; apply lookup_insert_eq|]. rewrite Hr4.
  apply (cst_proper _ _ _ _ _ D []) in Hc4; [|done|intros n; rewrite list_elem_of_filter; set_solver].
  exists k4. split_and!; [done|done| | |].
  - repeat (eapply cframe_trans; [eassumption|]). apply cframe_refl.
  - split; cbn; [by rewrite Hw4, Hw3, Hw2, Hw1|by rewrite Hd4, Hd3, Hd2, Hd1].
  - intros m Hm. rewrite Hb4, Hb3, Hb2, decide_False by done. apply Hb1.
Qed.

(** ** The loops *)

Definition log_writes (s : Z) (Ds : list (list Z)) : list (Z * list Z) :=
  imap (fun j d => (s + 1 + Z.of_nat j, d)) Ds.

Lemma log_writes_lookup s Ds j : log_writes s Ds !! j = (fun d => (s + 1 + Z.of_nat j, d)) <$> Ds !! j.
Proof. unfold log_writes. rewrite list_lookup_imap. by destruct (Ds !! j). Qed.

Lemma zip_lookup {A B} (l : list A) (l' : list B) j a b :
  l !! j = Some a -> l' !! j = Some b -> zip l l' !! j = Some (a, b).
Proof. intros Ha Hb. apply lookup_zip_with_Some. eauto. Qed.

(** The blocks of a transaction and the log area. *)
Record txn_ok (d : gmap Z (list Z)) (lg : log) (s : Z) (B : list Z) (Ds : list (list Z)) : Prop := {
  tx_log : log_ok lg s B;
  tx_nodup : NoDup B;
  tx_len : length Ds = length B;
  tx_size : (length B < NBUF)%nat;
  tx_home : forall b, b ∈ B -> is_Some (d !! b) /\ (b < s \/ s + LOGSIZE <= b);
  tx_area : forall j, 0 <= j < LOGSIZE -> is_Some (d !! (s + j)) }.

Lemma txn_lookup d lg s B Ds c : txn_ok d lg s B Ds -> (c < length B)%nat ->
  exists b x, B !! c = Some b /\ Ds !! c = Some x /\ b ∈ B /\ (S c < Z.to_nat LOGSIZE)%nat.
Proof.
  intros Ht Hc. destruct (lookup_lt_is_Some_2 B c Hc) as [b Hb].
  destruct (lookup_lt_is_Some_2 Ds c) as [x Hx]; [rewrite (tx_len _ _ _ _ _ Ht); lia|].
  exists b, x. split_and!; [done..|by eapply list_elem_of_lookup_2|].
  pose proof (tx_size _ _ _ _ _ Ht). unfold NBUF in *. change (Z.to_nat LOGSIZE) with 30%nat. lia.
Qed.

Lemma write_log_run me pd k s B Ds :
  cst me pd k B [] -> txn_ok (disk k) (the_log k) s B Ds ->
  (forall j b x, B !! j = Some b -> Ds !! j = Some x -> blk k b = Some x) ->
  exists k', write_log k = Ret tt k' /\ cst me pd k' B [] /\ cframe k k' /\ issued (log_writes s Ds) k k'.
Proof.
  intros Hc Ht Hblk. unfold write_log. rewrite bind_gets, (lo_n _ _ _ (tx_log _ _ _ _ _ Ht)), Nat2Z.id.
  enough (wp (foreach (seq 0 (length B)) write_one) (fun _ k' =>
    cst me pd k' B [] /\ cframe k k' /\ issued (log_writes s Ds) k k') k) as ([] & k' & ? & ?)%wp_run by eauto.
  eapply (wp_foreach_seq _ _ (fun c k' => cst me pd k' B [] /\ cframe k k' /\
    issued (take c (log_writes s Ds)) k k' /\ forall b, b ∈ B -> blk k' b = blk k b)).
  - split_and!; [done|apply cframe_refl|done|done].
  - intros c k1 Hcl (Hc1 & Hf1 & Hi1 & Hb1).
    destruct (txn_lookup _ _ _ _ _ c Ht Hcl) as (b & x & Hb & Hx & HbB & Hc30).
    destruct (tx_home _ _ _ _ _ Ht b HbB) as [Hdb Hbs]. pose proof Hi1 as [_ Hi2].
    assert (Hadd : forall j, 0 <= j < LOGSIZE -> (s + j) ∉ B).
    { intros j Hj Hin. apply (tx_home _ _ _ _ _ Ht) in Hin as [_ ?]. lia. }
    destruct (write_one_run me pd k1 s B B c b x) as (k2 & Hr2 & Hc2 & Hf2 & Hi3 & Hb2).
    + done.
    + rewrite (cframe_log _ _ Hf1). apply Ht.
    + done.
    + done.
    + rewrite Hb1 by done. by eapply Hblk.
    + rewrite Hi2. by apply apply_writes_dom.
    + rewrite Hi2. apply apply_writes_dom. rewrite <- Z.add_assoc. apply (tx_area _ _ _ _ _ Ht). lia.
    + rewrite <- Z.add_assoc. apply Hadd. lia.
    + apply Ht.
    + apply wp_run. exists tt, k2. split_and!; [done|done|by eapply cframe_trans| |].
      * rewrite Nat.add_1_r. rewrite (take_S_r _ _ (s + 1 + Z.of_nat c, x)) by (by rewrite log_writes_lookup, Hx).
        by eapply issued_trans.
      * intros b' Hb'. rewrite Hb2, decide_False by (intros ->; rewrite <- Z.add_assoc in Hb'; eapply Hadd; [|done]; lia).
        by apply Hb1.
  - intros k1 (Hc1 & Hf1 & Hi1 & _). rewrite firstn_all2 in Hi1; [done|].
    unfold log_writes. rewrite length_imap, (tx_len _ _ _ _ _ Ht). lia.
Qed.

Lemma install_trans_run me pd k s B Ds D :
  cst me pd k D [] -> txn_ok (disk k) (the_log k) s B Ds ->
  (forall j x, Ds !! j = Some x -> disk k !! (s + 1 + Z.of_nat j) = Some x) ->
  (forall j, 0 <= j < LOGSIZE -> (s + j) ∉ D) -> (length D < NBUF)%nat ->
  (forall b, b ∈ B -> b ∈ D) \/ (length D + 1 < NBUF)%nat ->
  exists k', install_trans k = Ret tt k' /\ cst me pd k' (filter (fun m => m ∉ B) D) [] /\ cframe k k' /\
    issued (zip B Ds) k k'.
Proof.
  intros Hc Ht Hlog HD Hroom Hroom2. unfold install_trans.
  rewrite bind_gets, (lo_n _ _ _ (tx_log _ _ _ _ _ Ht)), Nat2Z.id.
  enough (wp (foreach (seq 0 (length B)) install_one) (fun _ k' =>
    cst me pd k' (filter (fun m => m ∉ B) D) [] /\ cframe k k' /\ issued (zip B Ds) k k') k) as ([] & k' & ? & ?)%wp_run by eauto.
  eapply (wp_foreach_seq _ _ (fun c k' => cst me pd k' (filter (fun m => m ∉ take c B) D) [] /\ cframe k k' /\
    issued (take c (zip B Ds)) k k')).
  - split_and!; [|apply cframe_refl|done]. eapply cst_proper; [|done|exact Hc].
    intros n. rewrite list_elem_of_filter. cbn. set_solver.
  - intros c k1 Hcl (Hc1 & Hf1 & Hi1).
    destruct (txn_lookup _ _ _ _ _ c Ht Hcl) as (b & x & Hb & Hx & HbB & Hc30).
    destruct (tx_home _ _ _ _ _ Ht b HbB) as [Hdb Hbs]. pose proof Hi1 as [_ Hi2].
    assert (HlenD : (length (filter (fun m => m ∉ take c B) D) <= length D)%nat) by apply length_filter.
    assert (Hnt : b ∉ take c B).
    { intros Hin. apply elem_of_take in Hin as (j & Hj & Hlt). pose proof (tx_nodup _ _ _ _ _ Ht) as Hnd.
      pose proof (NoDup_lookup _ _ _ _ Hnd Hb Hj). lia. }
    destruct (install_one_run me pd k1 s B (filter (fun m => m ∉ take c B) D) c b x) as (k2 & Hr2 & Hc2 & Hf2 & Hi3).
    + done.
    + rewrite (cframe_log _ _ Hf1). apply Ht.
    + done.
    + rewrite Hi2. by apply apply_writes_dom.
    + rewrite Hi2, apply_writes_ne; [by apply Hlog|]. intros Hin. apply list_elem_of_fmap in Hin as ([b' y] & Eb & Hin).
      cbn in Eb. subst b'. apply list_elem_of_lookup in Hin as [j Hj]. apply lookup_take_Some in Hj as [Hj _].
      apply lookup_zip_with_Some in Hj as (? & ? & [= <- <-] & HB & _). apply list_elem_of_lookup_2 in HB.
      apply (tx_home _ _ _ _ _ Ht) in HB as [_ ?]. lia.
    + rewrite list_elem_of_filter, <- Z.add_assoc. intros [_ ?]. eapply HD; [|done]. lia.
    + lia.
    + lia.
    + destruct Hroom2 as [Hall|?]; [left|right; lia]. apply list_elem_of_filter. auto.
    + apply wp_run. exists tt, k2. split_and!; [done| |by eapply cframe_trans|].
      * eapply cst_proper; [|done|exact Hc2]. intros n. rewrite !list_elem_of_filter, Nat.add_1_r, (take_S_r _ _ b) by done.
        set_solver.
      * rewrite Nat.add_1_r, (take_S_r _ _ (b, x)) by (by apply zip_lookup). by eapply issued_trans.
  - intros k1 (Hc1 & Hf1 & Hi1). rewrite firstn_all in Hc1. split_and!; [done|done|].
    rewrite firstn_all2 in Hi1; [done|]. rewrite length_zip_with. lia.
Qed.

(** ** The commit *)

Lemma cst_log me pd k D H lg : cst me pd k D H -> cst me pd (k <| the_log := lg |>) D H.
Proof.
  intros [[H1 H2 H3 H4] [l [H5 H6 H7 H8 H9 H10]] H11 H12].
  split; [split; [done..|by eapply sched_ok_ext; [..|done]]| |exact H11|exact H12]. exists l. by split.
Qed.

Lemma log_ok_clear lg s B : log_ok lg s B -> log_ok (lg <| lh_n := 0 |>) s [].
Proof. intros [H1 H2 H3 H4 H5 H6 H7]. by split. Qed.

Lemma write_head_data_spec lg s B h :
  log_ok lg s B -> length h = Z.to_nat BSIZE ->
  get32 (write_head_data lg h) 0 = Z.of_nat (length B) /\
  forall j b, B !! j = Some b -> get32 (write_head_data lg h) (4 + 4 * j) = b.
Proof.
  intros Hl Hh. pose proof (log_ok_length _ _ _ Hl) as Hlen. unfold write_head_data. rewrite (lo_n _ _ _ Hl), Nat2Z.id.
  change (Z.to_nat BSIZE) with 1024%nat in Hh. change (Z.to_nat LOGSIZE) with 30%nat in Hlen.
  rewrite u32_small by lia.
  set (f := fun d j => set32 d (4 + 4 * j) (u32 (default 0 (lh_block lg !! j)))).
  assert (Hf : forall n, (n <= length B)%nat -> let d := fold_left f (seq 0 n) (set32 h 0 (Z.of_nat (length B))) in
    get32 d 0 = Z.of_nat (length B) /\ length d = 1024%nat /\ forall j b, (j < n)%nat -> B !! j = Some b -> get32 d (4 + 4 * j) = b).
  { induction n as [|n IH]; intros Hn.
    - cbn [seq fold_left]. split_and!; [apply get32_set32; lia|by rewrite set32_length|lia].
    - rewrite seq_S, fold_left_app. cbn [fold_left Nat.add]. destruct IH as (IH1 & IH2 & IH3); [lia|].
      unfold f at 1 3 5. split_and!; [rewrite get32_set32_ne by lia; done|by rewrite set32_length|].
      intros j b Hj Hb. destruct (decide (j = n)) as [->|].
      + destruct (log_ok_block _ _ _ _ _ Hl Hb) as [Hlb Hub]. rewrite Hlb. cbn [default from_option id]. rewrite Hub.
        apply get32_set32; [lia|]. pose proof (Forall_lookup_1 _ _ _ _ (lo_range _ _ _ Hl) Hb). cbn in *. lia.
      + rewrite get32_set32_ne by lia. apply IH3; [lia|done]. }
  destruct (Hf (length B)) as (H1 & _ & H3); [lia|]. split; [done|]. intros j b Hb. apply H3; [|done]. by eapply lookup_lt_Some.
Qed.

Lemma log_writes_fst s Ds n : n ∈ (log_writes s Ds).*1 -> exists j, (j < length Ds)%nat /\ n = s + 1 + Z.of_nat j.
Proof.
  intros ([m x] & -> & Hin)%list_elem_of_fmap. apply list_elem_of_lookup in Hin as [j Hj].
  rewrite log_writes_lookup in Hj. destruct (Ds !! j) eqn:Hd; [|done]. injection Hj as <- <-.
  exists j. split; [by eapply lookup_lt_Some|done].
Qed.

Lemma log_writes_nodup s Ds : NoDup (log_writes s Ds).*1.
Proof.
  apply NoDup_alt. intros i j x Hi Hj. rewrite !list_lookup_fmap, !log_writes_lookup in *.
  destruct (Ds !! i), (Ds !! j); cbn in *; simplify_eq. lia.
Qed.

Lemma log_writes_eq s Ds j x m : Ds !! j = Some x -> apply_writes (log_writes s Ds) m !! (s + 1 + Z.of_nat j) = Some x.
Proof.
  intros Hx. apply apply_writes_eq; [apply log_writes_nodup|]. apply (list_elem_of_lookup_2 _ j).
  by rewrite log_writes_lookup, Hx.
Qed.

Lemma zip_fst_in (B : list Z) (Ds : list (list Z)) n : n ∈ (zip B Ds).*1 -> n ∈ B.
Proof. intros ([m x] & -> & Hin)%list_elem_of_fmap. by apply elem_of_zip_l in Hin. Qed.

Definition commit_writes (lg : log) (s : Z) (B : list Z) (Ds : list (list Z)) (h : list Z) : list (Z * list Z) :=
  let h1 := write_head_data lg h in
  log_writes s Ds ++ [(s, h1)] ++ zip B Ds ++ [(s, write_head_data (lg <| lh_n := 0 |>) h1)].

Lemma txn_ok_disk d d' lg s B Ds :
  txn_ok d lg s B Ds -> (forall n, is_Some (d !! n) -> is_Some (d' !! n)) -> txn_ok d' lg s B Ds.
Proof.
  intros [H1 H2 H3 H4 H5 H6] Hd. split; try done.
  - intros b Hb. destruct (H5 b Hb). auto.
  - auto.
Qed.

Lemma commit_run me pd k s B Ds h :
  cst me pd k B [] -> txn_ok (disk k) (the_log k) s B Ds -> B <> [] -> disk k !! s = Some h ->
  (forall j b x, B !! j = Some b -> Ds !! j = Some x -> blk k b = Some x) ->
  exists k', commit k = Ret tt k' /\ cst me pd k' [] [] /\ issued (commit_writes (the_log k) s B Ds h) k k' /\
    cframe (k <| the_log ::= fun lg => lg <| lh_n := 0 |> |>) k'.
Proof.
  intros Hc Ht HB Hh Hblk. pose proof (tx_log _ _ _ _ _ Ht) as Hlog. unfold commit. rewrite bind_gets.
  assert ((0 <? lh_n (the_log k)) = true) as ->.
  { rewrite (lo_n _ _ _ Hlog). destruct B; [done|]. apply Z.ltb_lt. cbn. lia. }
  cbn [when].
  assert (HsB : forall j, 0 <= j < LOGSIZE -> (s + j) ∉ B).
  { intros j Hj Hin. apply (tx_home _ _ _ _ _ Ht) in Hin as [_ ?]. lia. }
  assert (HsB0 : s ∉ B) by (rewrite <- (Z.add_0_r s); apply HsB; unfold LOGSIZE, MAXOPBLOCKS; lia).
  destruct (write_log_run me pd k s B Ds Hc Ht Hblk) as (k1 & Hr1 & Hc1 & Hf1 & [Hw1 Hd1]). run Hr1.
  destruct (write_head_run me pd k1 s B B h) as (k2 & Hr2 & Hc2 & Hf2 & [Hw2 Hd2] & _);
    [done|by rewrite (cframe_log _ _ Hf1)| |done|apply Ht|].
  { rewrite Hd1, apply_writes_ne; [done|]. intros (j & _ & ?)%log_writes_fst. lia. }
  run Hr2. rewrite (cframe_log _ _ Hf1) in Hw2, Hd2. set (h1 := write_head_data (the_log k) h) in *.
  destruct (install_trans_run me pd k2 s B Ds B) as (k3 & Hr3 & Hc3 & Hf3 & [Hw3 Hd3]).
  { done. }
  { rewrite (cframe_log _ _ Hf2), (cframe_log _ _ Hf1). eapply txn_ok_disk; [exact Ht|]. intros n Hn.
    rewrite Hd2, Hd1. by do 2 apply apply_writes_dom. }
  { intros j x Hx. rewrite Hd2. cbn [apply_writes foldl fst snd]. rewrite lookup_insert_ne, Hd1 by lia. by apply log_writes_eq. }
  { done. } { apply Ht. } { by left. }
  run Hr3. change (bind (upd_log ?f) ?g k3) with (g tt (k3 <| the_log ::= f |>)). cbv beta.
  set (k3' := k3 <| the_log ::= _ |>).
  assert (Hl3 : the_log k3' = (the_log k) <| lh_n := 0 |>).
  { unfold k3'. change (the_log (k3 <| the_log ::= ?f |>)) with (f (the_log k3)). by rewrite <- (cframe_log _ _ Hf1), <- (cframe_log _ _ Hf2), <- (cframe_log _ _ Hf3). }
  destruct (write_head_run me pd k3' s [] [] h1) as (k4 & Hr4 & Hc4 & Hf4 & [Hw4 Hd4] & _).
  { apply cst_log. eapply cst_proper; [|done|exact Hc3]. intros n. rewrite list_elem_of_filter. set_solver. }
  { rewrite Hl3. by eapply log_ok_clear. }
  { change (disk k3') with (disk k3). rewrite Hd3, apply_writes_ne; [|intros ?%zip_fst_in; done].
    rewrite Hd2. apply lookup_insert_eq. }
  { set_solver. } { cbn. unfold NBUF. lia. }
  rewrite Hl3 in Hw4, Hd4. change (disk k3') with (disk k3) in Hd4. change (disk_writes k3') with (disk_writes k3) in Hw4.
  exists k4. split_and!; [done|done| |].
  - unfold commit_writes. fold h1. split.
    + rewrite Hw4, Hw3, Hw2, Hw1, !reverse_app, <- !app_assoc. done.
    + by rewrite Hd4, Hd3, Hd2, Hd1, !apply_writes_app.
  - eapply cframe_trans; [|exact Hf4]. unfold cframe in *. unfold k3'. rewrite Hf3, Hf2, Hf1. by kernel_eq.
Qed.

(** ** What a disk stands for *)

Definition outside (s n : Z) : Prop := n < s \/ s + LOGSIZE <= n.

(** The log area at [s] holds a header naming the blocks [B] and their contents [Ds]. *)
Record log_area (d : gmap Z (list Z)) (s : Z) (B : list Z) (Ds : list (list Z)) : Prop := {
  la_head : exists h, d !! s = Some h /\ get32 h 0 = Z.of_nat (length B) /\
    forall j b, B !! j = Some b -> get32 h (4 + 4 * j) = b;
  la_data : forall j x, Ds !! j = Some x -> d !! (s + 1 + Z.of_nat j) = Some x;
  la_nodup : NoDup B;
  la_len : length Ds = length B;
  la_size : (length B < NBUF)%nat;
  la_home : forall b, b ∈ B -> is_Some (d !! b) /\ outside s b /\ 0 <= b < 2 ^ 31;
  la_area : forall j, 0 <= j < LOGSIZE -> is_Some (d !! (s + j)) }.

(** Recovery makes the blocks outside the log area those of [T]. *)
Definition stands_for (s : Z) (d T : gmap Z (list Z)) : Prop :=
  exists B Ds, log_area d s B Ds /\ forall n, outside s n -> apply_writes (zip B Ds) d !! n = T !! n.

Lemma zip_fst_take (B : list Z) (Ds : list (list Z)) i n : n ∈ (take i (zip B Ds)).*1 -> n ∈ B.
Proof. intros Hin. eapply zip_fst_in. rewrite fmap_take in Hin. by apply elem_of_take in Hin as (? & ?%list_elem_of_lookup_2 & _). Qed.

Lemma zip_nodup (B : list Z) (Ds : list (list Z)) : NoDup B -> length Ds = length B -> NoDup (zip B Ds).*1.
Proof. intros Hn Hl. by rewrite fst_zip by lia. Qed.

(** Writing home again what is being written home changes nothing. *)
Lemma apply_again (B : list Z) (Ds : list (list Z)) i d n :
  NoDup B -> length Ds = length B ->
  apply_writes (zip B Ds) (apply_writes (take i (zip B Ds)) d) !! n = apply_writes (zip B Ds) d !! n.
Proof.
  intros Hn Hl. destruct (decide (n ∈ (zip B Ds).*1)) as [Hin|Hni].
  - apply list_elem_of_fmap in Hin as ([m x] & -> & Hin). by rewrite !(apply_writes_eq _ _ m x) by (done || by apply zip_nodup).
  - rewrite !(apply_writes_ne (zip B Ds)) by done. apply apply_writes_ne. rewrite fmap_take.
    intros (? & ?%list_elem_of_lookup_2 & _)%elem_of_take. done.
Qed.

Lemma log_area_installing d s B Ds i :
  log_area d s B Ds -> log_area (apply_writes (take i (zip B Ds)) d) s B Ds.
Proof.
  intros [(h & Hh & H1) H2 H3 H4 H5 H6 H7].
  assert (Hne : forall j, 0 <= j < LOGSIZE -> (s + j) ∉ (take i (zip B Ds)).*1).
  { intros j Hj Hin%zip_fst_take. apply H6 in Hin as (_ & [?|?] & _); lia. }
  split; try done.
  - exists h. split; [|done]. rewrite <- (Z.add_0_r s) at 1. rewrite apply_writes_ne, Z.add_0_r; [done|].
    apply Hne. unfold LOGSIZE, MAXOPBLOCKS. lia.
  - intros j x Hx. rewrite apply_writes_ne; [by apply H2|]. rewrite <- Z.add_assoc. apply Hne.
    apply lookup_lt_Some in Hx. unfold NBUF in *. unfold LOGSIZE, MAXOPBLOCKS. lia.
  - intros b Hb. destruct (H6 b Hb) as [? ?]. split; [by apply apply_writes_dom|done].
  - intros j Hj. apply apply_writes_dom. auto.
Qed.

Lemma stands_for_installing d s B Ds i T :
  log_area d s B Ds -> (forall n, outside s n -> apply_writes (zip B Ds) d !! n = T !! n) ->
  stands_for s (apply_writes (take i (zip B Ds)) d) T.
Proof.
  intros Ha HT. exists B, Ds. split; [by apply log_area_installing|]. intros n Hn.
  rewrite apply_again by apply Ha. auto.
Qed.

(** An empty header: the disk stands for itself. *)
Lemma stands_for_clear d s h T :
  d !! s = Some h -> get32 h 0 = 0 -> (forall j, 0 <= j < LOGSIZE -> is_Some (d !! (s + j))) ->
  (forall n, outside s n -> d !! n = T !! n) -> stands_for s d T.
Proof.
  intros Hh H0 Ha HT. exists [], []. split; [|done]. split; try done.
  - exists h. split_and!; [done|done|]. intros j b. by rewrite lookup_nil.
  - by apply NoDup_nil.
  - cbn. unfold NBUF. lia.
  - intros b Hb. by apply elem_of_nil in Hb.
Qed.

(** ** Reading the header *)

Lemma take_insert_next {A} (l B : list A) c x :
  take c l = take c B -> (c < length l)%nat -> B !! c = Some x -> take (c + 1) (<[c := x]> l) = take (c + 1) B.
Proof.
  intros E Hc Hx. rewrite Nat.add_1_r, (take_S_r _ _ x Hx), <- E.
  rewrite (take_S_r _ _ x) by (by apply list_lookup_insert_eq). by rewrite take_insert_ge.
Qed.

Lemma read_head_run me pd k s B Ds :
  cst me pd k [] [] -> log_dev (the_log k) = 1 -> log_start (the_log k) = s -> 0 < s /\ s + LOGSIZE < 2 ^ 31 ->
  length (lh_block (the_log k)) = Z.to_nat LOGSIZE -> log_area (disk k) s B Ds ->
  exists k', read_head k = Ret tt k' /\ cst me pd k' [] [] /\ log_ok (the_log k') s B /\ issued [] k k'.
Proof.
  intros Hc Hdev Hst Hs Hlen Ha. destruct (la_head _ _ _ _ Ha) as (h & Hh & Hn & Hb). pose proof (la_size _ _ _ _ Ha) as Hsz.
  unfold NBUF in Hsz. unfold read_head. rewrite bind_gets, Hdev, Hst.
  unfold LOGSIZE, MAXOPBLOCKS in Hs. rewrite u32_small by lia.
  destruct (bread_c me pd k [] [] s Hc) as (i & e & k1 & Hr1 & Hc1 & Hh1 & He & Hb1 & _ & Hd1 & Hw1 & Hf1);
    [set_solver|by eexists|right; cbn; unfold NBUF; lia|]. run Hr1.
  rewrite (cst_clean me pd k [] [] s Hc), Hh in He by set_solver. injection He as <-.
  destruct (hb_buf_at _ _ _ _ Hh1) as (b & Hbuf & Hbd). run Hbuf. rewrite Hbd.
  change (bind (upd_log ?f) ?g k1) with (g tt (k1 <| the_log ::= f |>)). cbv beta.
  rewrite Hn, i32_small by lia. rewrite Nat2Z.id.
  set (lgc := fun bl => (the_log k1) <| lh_n := Z.of_nat (length B) |> <| lh_block := bl |>).
  match goal with |- context [foreach _ ?f] => set (body := f) end.
  enough (Hl : wp (foreach (seq 0 (length B)) body) (fun _ k2 => exists bl, k2 = k1 <| the_log := lgc bl |> /\
    length bl = 30%nat /\ take (length B) bl = take (length B) B) (k1 <| the_log ::= fun lg => lg <| lh_n := Z.of_nat (length B) |> |>)).
  { apply wp_run in Hl as ([] & k2 & Hr2 & bl & -> & Hbl & Hbt). run Hr2. rewrite firstn_all in Hbt.
    destruct (brelse_c me pd (k1 <| the_log := lgc bl |>) [] [s] i s h) as (k3 & Hr3 & Hc3 & _ & _ & Hd3 & Hw3 & Hf3);
      [by apply cst_log|exact Hh1|right; cbn; by rewrite Hd1|].
    exists k3. split_and!; [done| | |].
    - eapply cst_proper; [| |exact Hc3]; [done|]. intros n. rewrite list_elem_of_filter. set_solver.
    - rewrite (cframe_log _ _ Hf3). split; cbn; rewrite ?(cframe_log _ _ Hf1); try done.
      apply Forall_forall. intros x Hx. by apply (la_home _ _ _ _ Ha).
    - split; [by rewrite Hw3; cbn; rewrite Hw1|by rewrite Hd3; cbn; rewrite Hd1]. }
  apply (wp_foreach_seq _ _ (fun c k2 => exists bl, k2 = k1 <| the_log := lgc bl |> /\ length bl = 30%nat /\ take c bl = take c B)).
  - exists (lh_block (the_log k)). split_and!; [|by rewrite Hlen|done]. unfold lgc. rewrite <- (cframe_log _ _ Hf1). by kernel_eq.
  - intros c k2 Hcl (bl & -> & Hbl & Hbt). unfold body. apply wp_run.
    destruct (lookup_lt_is_Some_2 B c Hcl) as [x Hx].
    rewrite bind_gets, (Hb c x Hx). change (lh_block (the_log (k1 <| the_log := lgc bl |>))) with bl.
    rewrite i32_small by (apply list_elem_of_lookup_2, (la_home _ _ _ _ Ha) in Hx as (_ & _ & ?); lia).
    rewrite zset_in by lia. rewrite Nat2Z.id. eexists tt, _. split; [reflexivity|].
    exists (<[c := x]> bl). split_and!; [done|by rewrite length_insert|]. apply take_insert_next; [done|lia|done].
  - intros k2 (bl & -> & ?). by exists bl.
Qed.

(** ** Recovery *)

Record log_static (lg : log) (s : Z) : Prop := {
  ls_dev : log_dev lg = 1;
  ls_start : log_start lg = s;
  ls_s : 0 < s /\ s + LOGSIZE < 2 ^ 31;
  ls_len : length (lh_block lg) = Z.to_nat LOGSIZE }.

Lemma recover_run me pd k s B Ds :
  cst me pd k [] [] -> log_static (the_log k) s -> log_area (disk k) s B Ds ->
  exists h k', recover_from_log k = Ret tt k' /\ cst me pd k' [] [] /\ get32 h 0 = 0 /\
    log_ok (the_log k') s [] /\ issued (zip B Ds ++ [(s, h)]) k k'.
Proof.
  intros Hc [Hs1 Hs2 Hs3 Hs4] Ha. unfold recover_from_log.
  destruct (read_head_run me pd k s B Ds) as (k1 & Hr1 & Hc1 & Hl1 & [Hw1 Hd1]); try done. run Hr1.
  destruct (install_trans_run me pd k1 s B Ds []) as (k2 & Hr2 & Hc2 & Hf2 & [Hw2 Hd2]).
  { done. }
  { rewrite Hd1. split; try apply Ha; [done|]. intros b (? & ? & ?)%(la_home _ _ _ _ Ha). done. }
  { rewrite Hd1. apply Ha. }
  { set_solver. } { cbn. unfold NBUF. lia. } { right. cbn. unfold NBUF. lia. }
  run Hr2. change (bind (upd_log ?f) ?g k2) with (g tt (k2 <| the_log ::= f |>)). cbv beta.
  set (k2' := k2 <| the_log ::= _ |>).
  assert (Hl2 : the_log k2' = (the_log k1) <| lh_n := 0 |>).
  { unfold k2'. change (the_log (k2 <| the_log ::= ?f |>)) with (f (the_log k2)). by rewrite <- (cframe_log _ _ Hf2). }
  destruct (la_head _ _ _ _ Ha) as (h & Hh & _).
  assert (Hs2' : disk k2' !! s = Some h).
  { change (disk k2') with (disk k2). rewrite Hd2, Hd1. change (apply_writes [] ?x) with x. rewrite apply_writes_ne; [done|].
    intros Hin%zip_fst_in. apply (la_home _ _ _ _ Ha) in Hin as (_ & [?|?] & _); [lia|]. unfold LOGSIZE, MAXOPBLOCKS in *. lia. }
  destruct (write_head_run me pd k2' s [] [] h) as (k3 & Hr3 & Hc3 & Hf3 & [Hw3 Hd3] & _).
  { apply cst_log. eapply cst_proper; [|done|exact Hc2]. intros n. rewrite list_elem_of_filter. set_solver. }
  { rewrite Hl2. by eapply log_ok_clear. }
  { done. } { set_solver. } { cbn. unfold NBUF. lia. }
  exists (write_head_data (the_log k2') h), k3. split_and!; [done|done| | |].
  - rewrite Hl2. eapply (write_head_data_spec _ s []); [by eapply log_ok_clear|].
    destruct (cs_inv _ _ _ _ _ Hc) as [l Hbc]. by eapply (bc_disk _ _ Hbc).
  - rewrite (cframe_log _ _ Hf3), Hl2. by eapply log_ok_clear.
  - split.
    + rewrite Hw3. change (disk_writes k2') with (disk_writes k2). by rewrite Hw2, Hw1, reverse_app, <- !app_assoc.
    + rewrite Hd3. change (disk k2') with (disk k2). by rewrite Hd2, Hd1, apply_writes_app.
Qed.

(** ** Crashes *)

Lemma issued_inj W W' k k' : issued W k k' -> issued W' k k' -> W = W'.
Proof. intros [H _] [H' _]. rewrite H in H'. apply app_inv_tail in H'. by apply (inj reverse). Qed.

Lemma recover_stands me pd k s T :
  cst me pd k [] [] -> log_static (the_log k) s -> stands_for s (disk k) T ->
  exists W k', recover_from_log k = Ret tt k' /\ cst me pd k' [] [] /\ log_ok (the_log k') s [] /\ issued W k k' /\
    (forall n, outside s n -> disk k' !! n = T !! n) /\
    (exists h, disk k' !! s = Some h /\ get32 h 0 = 0) /\
    (forall j, stands_for s (apply_writes (take j W) (disk k)) T).
Proof.
  intros Hc Hs (B & Ds & Ha & HT). destruct (recover_run me pd k s B Ds Hc Hs Ha) as (h & k' & Hr & Hc' & Hh & Hl & Hi).
  pose proof (ls_s _ _ Hs). assert (Hfin : forall n, outside s n -> apply_writes (zip B Ds ++ [(s, h)]) (disk k) !! n = T !! n).
  { intros n Hn. rewrite apply_writes_app. cbn [apply_writes foldl fst snd]. rewrite lookup_insert_ne; [by apply HT|].
    destruct Hn; unfold LOGSIZE, MAXOPBLOCKS in *; lia. }
  exists (zip B Ds ++ [(s, h)]), k'. split_and!; [done..| | |].
  - intros n Hn. destruct Hi as [_ ->]. auto.
  - exists h. split; [|done]. destruct Hi as [_ ->]. rewrite apply_writes_app. apply lookup_insert_eq.
  - intros j. destruct (decide (j <= length (zip B Ds))%nat) as [Hj|Hj].
    + rewrite take_app_le by done. by apply stands_for_installing.
    + rewrite firstn_all2 by (rewrite length_app; cbn; lia). apply (stands_for_clear _ _ h); [|done| |done].
      * rewrite apply_writes_app. apply lookup_insert_eq.
      * intros i Hi'. apply apply_writes_dom, (la_area _ _ _ _ Ha). lia.
Qed.

(** One boot that crashes during recovery, with the disk's contents before and after. *)
Inductive failed_recovery (s : Z) (d d' : gmap Z (list Z)) : Prop :=
| failed_recovery_intro me pd k k' W j :
    cst me pd k [] [] -> log_static (the_log k) s -> disk k = d ->
    recover_from_log k = Ret tt k' -> issued W k k' -> d' = apply_writes (take j W) d ->
    failed_recovery s d d'.

Lemma failed_recovery_stands s T d d' : failed_recovery s d d' -> stands_for s d T -> stands_for s d' T.
Proof.
  intros [me pd k k' W j Hc Hs <- Hr Hi ->] HT.
  destruct (recover_stands me pd k s T Hc Hs HT) as (W' & k1 & Hr' & _ & _ & Hi' & _ & _ & Hall).
  rewrite Hr in Hr'. injection Hr' as <-. by rewrite (issued_inj _ _ _ _ Hi Hi').
Qed.

Definition transaction_at (k : kernel) (s : Z) (B : list Z) (Ds : list (list Z)) : Prop :=
  txn_ok (disk k) (the_log k) s B Ds /\ B <> [] /\
  (exists h, disk k !! s = Some h /\ get32 h 0 = 0) /\
  (forall j b x, B !! j = Some b -> Ds !! j = Some x -> blk k b = Some x).

Lemma log_area_written d lg s B Ds h :
  txn_ok d lg s B Ds -> d !! s = Some h -> length h = Z.to_nat BSIZE ->
  log_area (apply_writes (log_writes s Ds ++ [(s, write_head_data lg h)]) d) s B Ds.
Proof.
  intros Ht Hh Hl. pose proof (tx_log _ _ _ _ _ Ht) as Hlog. rewrite apply_writes_app. split; try apply Ht.
  - eexists. split; [apply lookup_insert_eq|]. by eapply write_head_data_spec.
  - intros j x Hx. cbn [apply_writes foldl fst snd]. rewrite lookup_insert_ne by lia. by apply log_writes_eq.
  - intros b Hb. destruct (tx_home _ _ _ _ _ Ht b Hb) as [? ?]. split_and!; [by do 2 apply apply_writes_dom|done|..];
      pose proof (proj1 (Forall_forall _ _) (lo_range _ _ _ Hlog) b Hb); cbn in *; lia.
  - intros j Hj. do 2 apply apply_writes_dom. apply (tx_area _ _ _ _ _ Ht). lia.
Qed.

Lemma outside_log_writes s Ds n m :
  outside s n -> (length Ds < Z.to_nat LOGSIZE)%nat -> apply_writes (log_writes s Ds) m !! n = m !! n.
Proof. intros Hn Hl. apply apply_writes_ne. intros (j & ? & ->)%log_writes_fst. destruct Hn; lia. Qed.

(** Every prefix of the writes of a commit leaves a disk that stands for the old
    contents or, from the header's write on, for the new ones. *)
Lemma commit_stands me pd k s B Ds :
  cst me pd k B [] -> transaction_at k s B Ds ->
  exists W k', commit k = Ret tt k' /\ cst me pd k' [] [] /\ issued W k k' /\
    (forall n, outside s n -> disk k' !! n = apply_writes (zip B Ds) (disk k) !! n) /\
    forall j, stands_for s (apply_writes (take j W) (disk k))
                (if decide (j <= length B)%nat then disk k else apply_writes (zip B Ds) (disk k)).
Proof.
  intros Hc (Ht & HB & (h & Hh & H0) & Hblk). pose proof (tx_log _ _ _ _ _ Ht) as Hlog. pose proof (lo_s _ _ _ Hlog) as Hs.
  destruct (commit_run me pd k s B Ds h Hc Ht HB Hh Hblk) as (k' & Hr & Hc' & Hi & Hf).
  assert (Hlh : length h = Z.to_nat BSIZE) by (destruct (cs_inv _ _ _ _ _ Hc) as [l Hbc]; by eapply (bc_disk _ _ Hbc)).
  unfold commit_writes in Hi. set (h1 := write_head_data (the_log k) h) in *. set (h2 := write_head_data _ h1) in *.
  assert (Hds : (length Ds < Z.to_nat LOGSIZE)%nat) by (rewrite (tx_len _ _ _ _ _ Ht); exact (tx_size _ _ _ _ _ Ht)).
  assert (Hns : forall n, outside s n -> s <> n) by (intros n [?|?]; unfold LOGSIZE, MAXOPBLOCKS in *; lia).
  assert (Hzip : forall n, outside s n -> apply_writes (zip B Ds) (apply_writes (log_writes s Ds ++ [(s, h1)]) (disk k)) !! n =
    apply_writes (zip B Ds) (disk k) !! n).
  { intros n Hn. destruct (decide (n ∈ (zip B Ds).*1)) as [Hin|Hni].
    - apply list_elem_of_fmap in Hin as ([m x] & -> & Hin).
      by rewrite !(apply_writes_eq _ _ m x) by (done || by apply zip_nodup; apply Ht).
    - rewrite !(apply_writes_ne (zip B Ds)) by done. rewrite apply_writes_app. cbn [apply_writes foldl fst snd].
      rewrite lookup_insert_ne by auto. by apply outside_log_writes. }
  pose proof (log_area_written _ _ _ _ _ _ Ht Hh Hlh) as Ha. fold h1 in Ha.
  eexists _, k'. split_and!; [done|done|exact Hi| |].
  - intros n Hn. destruct Hi as [_ ->]. rewrite (app_assoc (log_writes s Ds)), !apply_writes_app.
    rewrite <- (apply_writes_app (log_writes s Ds)). cbn [apply_writes foldl fst snd].
    rewrite lookup_insert_ne by auto. by apply Hzip.
  - intros j. case_decide as Hj.
    + rewrite take_app_le by (unfold log_writes; rewrite length_imap, (tx_len _ _ _ _ _ Ht); lia).
      apply (stands_for_clear _ _ h); [|done| |].
      * rewrite apply_writes_ne; [done|]. rewrite fmap_take. intros (? & Hin%list_elem_of_lookup_2 & _)%elem_of_take.
        apply log_writes_fst in Hin as (? & ? & ?). lia.
      * intros i ?. apply apply_writes_dom, (tx_area _ _ _ _ _ Ht). lia.
      * intros n Hn. apply apply_writes_ne. rewrite fmap_take. intros (? & Hin%list_elem_of_lookup_2 & _)%elem_of_take.
        apply log_writes_fst in Hin as (? & ? & ?). destruct Hn; lia.
    + rewrite (app_assoc (log_writes s Ds)). set (A := log_writes s Ds ++ [(s, h1)]) in *.
      assert (HA : length A = S (length B)).
      { unfold A, log_writes. rewrite length_app, length_imap, (tx_len _ _ _ _ _ Ht). cbn. lia. }
      rewrite take_app_ge by lia. rewrite apply_writes_app.
      destruct (decide (j - length A <= length (zip B Ds))%nat) as [Hj2|Hj2].
      * rewrite take_app_le by done. by apply stands_for_installing.
      * rewrite firstn_all2 by (rewrite length_app; cbn; lia). apply (stands_for_clear _ _ h2).
        -- rewrite apply_writes_app. apply lookup_insert_eq.
        -- eapply (write_head_data_spec _ s []); [by eapply log_ok_clear|]. unfold h1. by rewrite write_head_data_length.
        -- intros i ?. do 2 apply apply_writes_dom. apply (tx_area _ _ _ _ _ Ht). lia.
        -- intros n Hn. rewrite apply_writes_app. cbn [apply_writes foldl fst snd]. rewrite lookup_insert_ne by auto. by apply Hzip.
Qed.

(** C2: a crash at any point of a commit is atomic.  [commit] returns, having issued
    the writes [W]; if the machine crashes after the first [j] of them and the next
    boot runs [recover_from_log] on the disk that results, recovery returns and
    every block outside the log area has its old contents when [j] does not reach
    the write of the header, and otherwise every block of the transaction has
    its new contents, the others being unchanged. *)
Theorem log_crash_atomic me pd k s B Ds :
  cst me pd k B [] -> transaction_at k s B Ds ->
  exists W k', commit k = Ret tt k' /\ issued W k k' /\
    (forall n, outside s n -> disk k' !! n = apply_writes (zip B Ds) (disk k) !! n) /\
    forall j me' pd' kr,
      cst me' pd' kr [] [] -> log_static (the_log kr) s -> disk kr = apply_writes (take j W) (disk k) ->
      exists kf, recover_from_log kr = Ret tt kf /\
        forall n, outside s n -> disk kf !! n =
          (if decide (j <= length B)%nat then disk k else apply_writes (zip B Ds) (disk k)) !! n.
Proof.
  intros Hc Ht. destruct (commit_stands me pd k s B Ds Hc Ht) as (W & k' & Hr & _ & Hi & Hn & HW).
  exists W, k'. split_and!; [done..|]. intros j me' pd' kr Hc' Hs Hd. specialize (HW j). rewrite <- Hd in HW.
  destruct (recover_stands me' pd' kr s _ Hc' Hs HW) as (W' & kf & Hr' & _ & _ & _ & HT & _). by exists kf.
Qed.

(** C20: recovery may itself be interrupted, any number of times: after any sequence of
    boots that crash during [recover_from_log], a boot whose recovery runs to
    the end returns and leaves the contents that the first one would have left, with
    the log empty in memory and on the disk: the header block holds the count 0. *)
Theorem log_recovery_idempotent s T d me pd k :
  stands_for s d T -> rtc (failed_recovery s) d (disk k) ->
  cst me pd k [] [] -> log_static (the_log k) s ->
  exists k', recover_from_log k = Ret tt k' /\ log_ok (the_log k') s [] /\
    (exists h, disk k' !! s = Some h /\ get32 h 0 = 0) /\
    forall n, outside s n -> disk k' !! n = T !! n.
Proof.
  intros HT Hrtc Hc Hs. assert (HT' : stands_for s (disk k) T).
  { induction Hrtc as [|? ? ? Hf _ IH]; [done|]. by apply IH; eapply failed_recovery_stands. }
  destruct (recover_stands me pd k s T Hc Hs HT') as (W & k' & Hr & _ & Hl & _ & Hn & Hh & _). by exists k'.
Qed.

(** ** Adding a block to the transaction *)

Definition add_block (n : Z) (B : list Z) : list Z := if decide (n ∈ B) then B else B ++ [n].

Lemma log_slot_in B n i : Forall (fun b => 0 <= b < 2 ^ 31) B -> n ∈ B ->
  exists j, log_slot B n i = (i + j)%nat /\ B !! j = Some n.
Proof.
  revert i. induction B as [|b B IH]; intros i HB Hn; [by apply elem_of_nil in Hn|].
  apply Forall_cons in HB as [Hb HB]. cbn [log_slot]. rewrite u32_small by lia. destruct (Z.eqb_spec b n) as [->|Hne].
  - exists 0%nat. split; [lia|done].
  - apply elem_of_cons in Hn as [->|Hn]; [done|]. destruct (IH (S i) HB Hn) as (j & -> & Hj). exists (S j). split; [lia|done].
Qed.

Lemma log_slot_notin B n i : Forall (fun b => 0 <= b < 2 ^ 31) B -> n ∉ B -> log_slot B n i = (i + length B)%nat.
Proof.
  revert i. induction B as [|b B IH]; intros i HB Hn; cbn [log_slot length]; [lia|].
  apply Forall_cons in HB as [Hb HB]. rewrite u32_small by lia. apply not_elem_of_cons in Hn as [? ?].
  destruct (Z.eqb_spec b n); [congruence|]. rewrite IH by done. lia.
Qed.

(** [log_write] on a held buffer, with room in the log: the block joins the
    transaction unless it is already there (absorption), and is pinned. *)
Lemma log_write_run me pd k s B D H i n d :
  cst me pd k D H -> hb k i n d -> log_ok (the_log k) s B -> 0 <= n < 2 ^ 31 ->
  1 <= log_outstanding (the_log k) -> Z.of_nat (length B) < LOGSIZE -> Z.of_nat (length B) < log_size (the_log k) - 1 ->
  exists k', log_write i k = Ret tt k' /\ cst me pd k' (n :: D) H /\ log_ok (the_log k') s (add_block n B) /\
    (forall m, blk k' m = blk k m) /\ (forall j m e, hb k j m e -> hb k' j m e) /\
    disk k' = disk k /\ disk_writes k' = disk_writes k /\
    cframe (k <| the_log := the_log k' |>) k' /\
    (exists nn bl, the_log k' = (the_log k) <| lh_n := nn |> <| lh_block := bl |>).
Proof.
  intros Hc Hhb Hl Hn Hout Hlen Hsz. unfold log_write. rewrite bind_gets, (lo_n _ _ _ Hl).
  replace ((LOGSIZE <=? Z.of_nat (length B)) || (log_size (the_log k) - 1 <=? Z.of_nat (length B))) with false by lia.
  replace (log_outstanding (the_log k) <? 1) with false by lia. cbv iota.
  pose proof (ev_held _ _ _ (cs_env _ _ _ _ _ Hc)) as Hheld.
  run (acquire_run Llog k ltac:(rewrite Hheld; apply not_elem_of_nil)). set (k1 := k <| held ::= _ |>).
  assert (Hbuf : exists b, bufs k !! i = Some b /\ b_blockno b = n) by (destruct Hhb as (_ & b & ? & _ & ? & _); eauto).
  destruct Hbuf as (b & Hb & Hbn). assert (Hb1 : bufs k1 !! i = Some b) by done.
  run (buf_at_run i b k1 Hb1). rewrite Hbn, Nat2Z.id, (lo_B _ _ _ Hl), i32_small by lia.
  set (sl := log_slot B n 0). pose proof (lo_len _ _ _ Hl) as Hll.
  assert (Hsl : (sl <= length B)%nat /\ (Z.of_nat sl =? Z.of_nat (length B)) = bool_decide (n ∉ B) /\
    take (length (add_block n B)) (<[sl := n]> (lh_block (the_log k))) = add_block n B /\
    (length (add_block n B) = length B + if bool_decide (n ∉ B) then 1 else 0)%nat).
  { unfold add_block. destruct (decide (n ∈ B)) as [Hin|Hni].
    - destruct (log_slot_in B n 0 (lo_range _ _ _ Hl) Hin) as (j & Hj & HBj). unfold sl. rewrite Hj.
      pose proof (lookup_lt_Some _ _ _ HBj). rewrite bool_decide_false by tauto. split_and!; [lia|apply Z.eqb_neq; lia| |cbv iota; lia].
      rewrite list_insert_id; [by apply Hl|]. rewrite <- (lo_B _ _ _ Hl) in HBj. by apply lookup_take_Some in HBj as [? _].
    - unfold sl. rewrite (log_slot_notin B n 0 (lo_range _ _ _ Hl) Hni). rewrite bool_decide_true by done.
      split_and!; [lia|apply Z.eqb_eq; lia| |rewrite length_app; done]. rewrite length_app. cbn [length Nat.add].
      rewrite (take_insert_next _ (B ++ [n])); [by rewrite firstn_all2 by (rewrite length_app; cbn; lia)| |lia|].
      + by rewrite (lo_B _ _ _ Hl), take_app_length.
      + by rewrite lookup_app_r, Nat.sub_diag by lia. }
  destruct Hsl as (Hsl & Hslb & Htake & Hladd). rewrite zset_in by lia. rewrite Nat2Z.id.
  change (bind (ofopt (Some ?w)) ?f k1) with (f w k1). cbv beta.
  change (bind (upd_log ?f) ?g k1) with (g tt (k1 <| the_log ::= f |>)). cbv beta.
  rewrite Hslb. set (bl := <[sl := n]> (lh_block (the_log k))).
  set (lg' := (the_log k) <| lh_n := Z.of_nat (length (add_block n B)) |> <| lh_block := bl |>).
  assert (Hw : when (bool_decide (n ∉ B)) (upd_log (fun lg => lg <| lh_n ::= fun n => n + 1 |>))
    (k1 <| the_log ::= fun lg => lg <| lh_block := bl |> |>) = Ret tt (k1 <| the_log := lg' |>)).
  { unfold lg'. rewrite Hladd. destruct (bool_decide (n ∉ B)); cbn [when]; unfold upd_log, modify, ret; f_equal; kernel_eq.
    - rewrite Nat2Z.inj_add, <- (lo_n _ _ _ Hl). done.
    - rewrite Nat.add_0_r, <- (lo_n _ _ _ Hl). by destruct (the_log k). }
  run Hw. set (kl := k <| the_log := lg' |>).
  destruct (mark_dirty_c me pd kl D H i n d (cst_log _ _ _ _ _ _ Hc) Hhb) as (k2 & Hr2 & Hc2 & Hb2 & Hk2 & Hd2 & Hw2 & Hf2).
  assert (Hr2' : upd_buf i (fun b => b <| b_flags := Z.lor (b_flags b) B_DIRTY |>) (k1 <| the_log := lg' |>) = Ret tt (k2 <| held ::= cons Llog |>)).
  { assert (Hbl : bufs kl !! i = Some b) by done. rewrite (upd_buf_run _ _ _ _ Hbl) in Hr2. injection Hr2 as <-.
    etransitivity; [apply (upd_buf_run i b); exact Hb|done]. }
  run Hr2'. rewrite release_run by (by left).
  assert (Hh2 : held k2 = []) by (by rewrite Hf2).
  exists k2. split_and!; try done.
  - unfold ret. f_equal. by kernel_eq.
  - rewrite (cframe_log _ _ Hf2). change (the_log kl) with lg'. destruct Hl as [L1 L2 L3 L4 L5 L6 L7].
    split; try done; [by cbn; unfold bl; rewrite length_insert|]. unfold add_block. case_decide; [done|].
    apply Forall_app. by split; [|apply Forall_singleton].
  - rewrite (cframe_log _ _ Hf2). exact Hf2.
  - rewrite (cframe_log _ _ Hf2). by eexists _, _.
Qed.

(** ** Operations *)

Lemma cst_held me pd k D H : cst me pd k D H -> held k = [].
Proof. intros Hc. exact (ev_held _ _ _ (cs_env _ _ _ _ _ Hc)). Qed.

(** [begin_op] reserves [MAXOPBLOCKS] blocks of the log for each operation it admits. *)
Lemma begin_op_run k :
  held k = [] -> log_committing (the_log k) = 0 ->
  lh_n (the_log k) + (log_outstanding (the_log k) + 1) * MAXOPBLOCKS <= LOGSIZE ->
  begin_op k = Ret tt (k <| the_log ::= fun lg => lg <| log_outstanding ::= fun n => n + 1 |> |>).
Proof.
  intros Hh Hc Hn. unfold begin_op. run (acquire_run Llog k ltac:(rewrite Hh; apply not_elem_of_nil)).
  set (k1 := k <| held ::= _ |>). change WAITS with (S 63). cbn [loop].
  erewrite bind_run; [|rewrite bind_gets; change (the_log k1) with (the_log k); rewrite Hc;
    change (negb (0 =? 0)) with false; cbv iota;
    replace (LOGSIZE <? lh_n (the_log k) + (log_outstanding (the_log k) + 1) * MAXOPBLOCKS) with false by lia;
    cbv iota; unfold upd_log; change (bind (modify ?f) ?g k1) with (g tt (f k1)); cbv beta;
    erewrite bind_run; [|apply release_run; by left]; done].
  reflexivity.
Qed.

Lemma cst_woke me pd k k' D H : woke k k' -> cst me pd k D H -> cst me pd k' D H.
Proof.
  intros [Hs Hok Hpid] [[E1 (p & Ep & Epd) E3 E4] [l Hbc] Hd Hb]. destruct (Hpid me p Ep) as (p' & Ep' & Epd').
  split.
  - split; [by rewrite Hs|exists p'; by rewrite Epd'|by rewrite Hs|auto].
  - exists l. eapply bc_inv_ext; [..|done]; by rewrite Hs.
  - intros n. rewrite <- Hd. by rewrite Hs.
  - intros n. rewrite <- Hb. by rewrite Hs.
Qed.

Lemma committed_log lg : log_committing lg = 0 ->
  lg <| log_outstanding := 0 |> <| log_committing := 1 |> <| lh_n := 0 |> <| log_committing := 0 |> =
  lg <| log_outstanding := 0 |> <| lh_n := 0 |>.
Proof. destruct lg. cbn. by intros ->. Qed.

(** The last [end_op] of a group commits. *)
Lemma end_op_run me pd k s B Ds :
  cst me pd k B [] -> transaction_at k s B Ds ->
  log_outstanding (the_log k) = 1 -> log_committing (the_log k) = 0 ->
  exists k', end_op k = Ret tt k' /\ cst me pd k' [] [] /\
    the_log k' = (the_log k) <| log_outstanding := 0 |> <| lh_n := 0 |> /\
    forall n, outside s n -> disk k' !! n = apply_writes (zip B Ds) (disk k) !! n.
Proof.
  intros Hc Ht Ho Hcm. pose proof (cst_held _ _ _ _ _ Hc) as Hh. unfold end_op.
  run (acquire_run Llog k ltac:(rewrite Hh; apply not_elem_of_nil)).
  change (bind (upd_log ?f) ?g ?k1) with (g tt (k1 <| the_log ::= f |>)). cbv beta. rewrite bind_gets.
  set (k1 := (k <| held ::= _ |>) <| the_log ::= _ |>).
  change (log_committing (the_log k1)) with (log_committing (the_log k)). rewrite Hcm. change (negb (0 =? 0)) with false. cbv iota.
  change (log_outstanding (the_log k1)) with (log_outstanding (the_log k) - 1). rewrite Ho. change (1 - 1 =? 0) with true. cbv iota.
  set (lg1 := (the_log k) <| log_outstanding := 0 |> <| log_committing := 1 |>).
  erewrite bind_run; [|reflexivity]. erewrite bind_run; [|apply release_run; by left].
  match goal with |- context [when true _ ?s] => replace s with (k <| the_log := lg1 |>) end.
  2: { unfold k1, lg1. kernel_eq. unfold set, set_log_outstanding; cbn. by rewrite Ho. }
  cbn [when]. set (k2 := k <| the_log := lg1 |>).
  assert (Ht2 : transaction_at k2 s B Ds).
  { destruct Ht as ([[L1 L2 L3 L4 L5 L6 L7] T2 T3 T4 T5 T6] & H2 & H3 & H4). split_and!; try done. }
  destruct Ht2 as (Tt & TB & (h & Hh0 & H0) & Tb).
  destruct (commit_stands me pd k2 s B Ds) as (W & k3 & Hr3 & Hc3 & Hi3 & Hd3 & _); [by apply cst_log|split_and!; eauto|].
  destruct (commit_run me pd k2 s B Ds h) as (k3' & Hr3' & _ & _ & Hf3); [by apply cst_log|done..|].
  rewrite Hr3 in Hr3'. injection Hr3' as <-. run Hr3.
  pose proof (cst_held _ _ _ _ _ Hc3) as Hh3. run (acquire_run Llog k3 ltac:(rewrite Hh3; apply not_elem_of_nil)).
  change (bind (upd_log ?f) ?g ?k1) with (g tt (k1 <| the_log ::= f |>)). cbv beta.
  set (k4 := _ <| the_log ::= _ |>). set (k4' := k3 <| the_log ::= fun lg => lg <| log_committing := 0 |> |>).
  assert (Hc4 : cst me pd k4' [] []) by (by apply cst_log).
  destruct (wakeup_woke Clog k4) as (k5 & Hr5 & Hw5).
  { eapply sched_ok_ext; [..|exact (ev_sched _ _ _ (cs_env _ _ _ _ _ Hc4))]; done. }
  { change (held k4) with (Llog :: held k3). rewrite Hh3. set_solver. }
  run Hr5. assert (Hh5 : held k5 = [Llog]) by (rewrite (wk_same _ _ Hw5); cbn; by rewrite Hh3).
  rewrite release_run by (rewrite Hh5; by left). set (k6 := k5 <| held ::= _ |>).
  assert (Hw6 : woke k4' k6).
  { destruct Hw5 as [S1 S2 S3]. split; [|intros Hok|done].
    - unfold same_but_sched in *. unfold k6. rewrite S1. unfold k4, k4'. by kernel_eq.
    - eapply sched_ok_ext; [..|apply S2; eapply sched_ok_ext; [..|exact Hok]]; done. }
  exists k6. split_and!; [done|by eapply cst_woke| |].
  - assert (the_log k6 = (the_log k3) <| log_committing := 0 |>) as -> by (by rewrite (wk_same _ _ Hw6)).
    rewrite (cframe_log _ _ Hf3). by apply committed_log.
  - intros n Hn. rewrite (wk_same _ _ Hw6). exact (Hd3 n Hn).
Qed.

(** ** A disk with a log area *)

Definition demo_log : kernel :=
  demo <| disk := list_to_map ((fun n => (n, demo_block 0)) <$> seqZ 0 40) |>
       <| the_log := mk_log 2 30 0 0 1 0 (replicate 30 0) |>.

Lemma demo_log_env : env 1 2 demo_log.
Proof. split; [done|by eexists|done|]. split; [|done|exact prio_ok_demo]. destruct demo_wf. by split. Qed.

Lemma demo_log_disk n d : disk demo_log !! n = Some d -> d = demo_block 0.
Proof. cbn. intros H%elem_of_list_to_map_2. by apply list_elem_of_fmap in H as (x & [= -> ->] & _). Qed.

Lemma demo_log_dom n : 0 <= n < 40 -> disk demo_log !! n = Some (demo_block 0).
Proof.
  intros Hn. destruct (disk demo_log !! n) as [d|] eqn:E; [by rewrite (demo_log_disk n d E)|].
  cbn in E. apply not_elem_of_list_to_map in E. exfalso. apply E. apply list_elem_of_fmap.
  exists (n, demo_block 0). split; [done|]. apply list_elem_of_fmap. exists n. split; [done|]. apply elem_of_seqZ. lia.
Qed.

(** The cache after boot, with the log empty and one operation admitted. *)
Lemma demo_log_boot : exists k, cst 1 2 k [] [] /\ the_log k = mk_log 2 30 1 0 1 0 (replicate 30 0) /\
  forall n, 0 <= n < 40 -> disk k !! n = Some (demo_block 0).
Proof.
  destruct (binit_run 1 2 demo_log demo_log_env) as (kb & Hb & [He Hi Hnd Hnb] & Hd & _).
  - split; [done|]. intros i b. change (bufs demo_log) with (replicate 31 zero_buf). by intros [-> _]%lookup_replicate.
  - intros n d ->%demo_log_disk. apply length_replicate.
  - exists (kb <| the_log := mk_log 2 30 1 0 1 0 (replicate 30 0) |>). split_and!; [|reflexivity|intros n; change (disk kb !! n) with (disk kb !! n); cbn [disk set set_the_log]; rewrite Hd; apply demo_log_dom].
    apply cst_log. split; [exact He|by eexists|intros n; split; [intros []%Hnd|intros []%elem_of_nil]|].
    intros n; split; [intros []%Hnb|intros []%elem_of_nil].
Qed.

(** The operation writes block 35. *)
Lemma demo_log_txn : exists k, cst 1 2 k [35] [] /\ transaction_at k 2 [35] [demo_block 7] /\
  disk k !! 35 = Some (demo_block 0).
Proof.
  destruct demo_log_boot as (k & Hc & Hlg & Hd).
  destruct (bread_c 1 2 k [] [] 35 Hc) as (i & e & k1 & _ & Hc1 & Hh1 & _ & _ & _ & Hd1 & _ & Hf1);
    [apply not_elem_of_nil|rewrite Hd by lia; by eexists|right; cbn; unfold NBUF; lia|].
  destruct (set_data_c 1 2 k1 [] [35] i 35 e (demo_block 7) Hc1 Hh1) as (k2 & _ & Hc2 & Hh2 & Hb2 & _ & Hd2 & _ & Hf2);
    [apply length_replicate|].
  assert (Hl2 : the_log k2 = mk_log 2 30 1 0 1 0 (replicate 30 0)) by (by rewrite (cframe_log _ _ Hf2), (cframe_log _ _ Hf1)).
  destruct (log_write_run 1 2 k2 2 [] [] [35] i 35 (demo_block 7) Hc2 Hh2) as (k3 & _ & Hc3 & Hl3 & Hb3 & Hk3 & Hd3 & _).
  1: { rewrite Hl2. split; try reflexivity; [unfold LOGSIZE, MAXOPBLOCKS; lia|apply Forall_nil_2]. }
  1-4: rewrite ?Hl2; cbn; unfold LOGSIZE, MAXOPBLOCKS; lia.
  destruct (brelse_c 1 2 k3 [35] [35] i 35 (demo_block 7) Hc3) as (k4 & _ & Hc4 & Hb4 & _ & Hd4 & _ & Hf4);
    [by apply Hk3|left; set_solver|].
  assert (Hdisk : disk k4 = disk k) by congruence. assert (Hb35 : blk k4 35 = Some (demo_block 7)) by (by rewrite Hb4, Hb3, Hb2).
  exists k4. split_and!; [eapply cst_proper; [..|exact Hc4]; [done|intros n; rewrite list_elem_of_filter; set_solver]| |rewrite Hdisk; apply Hd; lia].
  unfold transaction_at. rewrite Hdisk, (cframe_log _ _ Hf4). split_and!; [|done|exists (demo_block 0); split; [apply Hd; lia|reflexivity]|].
  - split; [exact Hl3|apply NoDup_singleton|done|cbn; unfold NBUF; lia|..].
    + intros b ->%list_elem_of_singleton. rewrite Hd by lia. split; [by eexists|]. unfold LOGSIZE, MAXOPBLOCKS. lia.
    + intros j Hj. rewrite Hd; [by eexists|]. unfold LOGSIZE, MAXOPBLOCKS in *. lia.
  - intros [|j] b x; [|done]. cbn. by intros [= <-] [= <-].
Qed.

(** The crash just after the header's write: block 35 is new after recovery. *)
Lemma log_crash_atomic_witness :
  exists k W k', commit k = Ret tt k' /\ issued W k k' /\ disk k' !! 35 = Some (demo_block 7) /\ disk k !! 35 = Some (demo_block 0).
Proof.
  destruct demo_log_txn as (k & Hc & Ht & Hd).
  destruct (log_crash_atomic 1 2 k 2 [35] [demo_block 7] Hc Ht) as (W & k' & Hr & Hi & Hn & _).
  exists k, W, k'. split_and!; [exact Hr|exact Hi| |].
  - rewrite Hn by (right; unfold LOGSIZE, MAXOPBLOCKS; lia). apply lookup_insert_eq.
  - exact Hd.
Defined.

Lemma log_recovery_idempotent_witness :
  exists k k', recover_from_log k = Ret tt k' /\ disk k' !! 35 = Some (demo_block 0).
Proof.
  destruct demo_log_boot as (k & Hc & Hlg & Hd).
  destruct (log_recovery_idempotent 2 (disk k) (disk k) 1 2 k) as (k' & Hr & _ & _ & Hn).
  - apply (stands_for_clear _ _ (demo_block 0)); [apply Hd; lia|reflexivity| |reflexivity].
    intros j Hj. rewrite Hd; [by eexists|]. unfold LOGSIZE, MAXOPBLOCKS in *. lia.
  - constructor.
  - exact Hc.
  - rewrite Hlg. split; [reflexivity|reflexivity|unfold LOGSIZE, MAXOPBLOCKS; lia|reflexivity].
  - exists k, k'. split; [exact Hr|]. rewrite Hn by (right; unfold LOGSIZE, MAXOPBLOCKS; lia). apply Hd. lia.
Defined.
