(* ===== verification/Pipe.v ===== *)
(** * Pipes

    [src/pipe.c].  A pipe lives in a page of its own; [pipes k] holds the
    [struct pipe] of each such page, by the page's address.  The bytes in
    transit are those between the counters [nread] and [nwrite], which run modulo
    [2 ^ 32] and index the buffer modulo [PIPESIZE].  [pipealloc] needs the file
    table and is in [File]. *)

From S2P Require Import Prelude CString Headers Spinlock Ring Sched Mem Kalloc Sleeplock.

(** ** Operations *)

Definition pipe_at (p : Z) : K pipe := let! ps := gets pipes in ofopt (ps !! p).
Definition upd_pipe (p : Z) (f : pipe -> pipe) : K unit :=
  let! pp := pipe_at p in
  modify (fun k => k <| pipes ::= <[p := f pp]> |>).

(** [p->data[p->nwrite++ % PIPESIZE] = b] and [p->data[p->nread++ % PIPESIZE]]. *)
Definition pipe_put (b : Z) (pp : pipe) : pipe :=
  pp <| p_data ::= <[Z.to_nat (p_nwrite pp mod PIPESIZE) := b]> |> <| p_nwrite ::= fun n => u32 (n + 1) |>.
Definition pipe_get (pp : pipe) : option (Z * pipe) :=
  b ← p_data pp !! Z.to_nat (p_nread pp mod PIPESIZE);
  Some (b, pp <| p_nread ::= fun n => u32 (n + 1) |>).

Definition pipe_full (pp : pipe) : bool := p_nwrite pp =? u32 (p_nread pp + PIPESIZE).
Definition pipe_empty (pp : pipe) : bool := p_nread pp =? p_nwrite pp.

Definition pipeclose (p : Z) (writable : Z) : K unit :=
  do! acquire (Lpipe p) in
  do! (if negb (writable =? 0) then
         do! upd_pipe p (fun pp => pp <| p_writeopen := 0 |>) in wakeup (Cpipe_nread p)
       else
         do! upd_pipe p (fun pp => pp <| p_readopen := 0 |>) in wakeup (Cpipe_nwrite p)) in
  let! pp := pipe_at p in
  if (p_readopen pp =? 0) && (p_writeopen pp =? 0) then
    do! release (Lpipe p) in
    do! kfree p in            (* the page no longer holds a pipe *)
    modify (fun k => k <| pipes ::= delete p |>)
  else release (Lpipe p).

(** The [while] of [pipewrite]: [false] when the call must return -1 (the lock is
    then released). *)
Definition pipe_wait_room (p : Z) : K bool :=
  loop WAITS (fun _ : unit =>
    let! pp := pipe_at p in
    if pipe_full pp then
      let! dead := (if p_readopen pp =? 0 then ret true
                    else let! me := mycur in let! pr := proc_at me in ret (negb (killed pr =? 0))) in
      if (dead : bool) then do! release (Lpipe p) in ret (inr false)
      else
        do! wakeup (Cpipe_nread p) in
        do! sleep (Cpipe_nwrite p) (Lpipe p) in
        ret (inl tt)
    else ret (inr true)) tt.

Definition pipewrite (p addr n : Z) : K Z :=
  do! acquire (Lpipe p) in
  let! r := first_of (seq 0 (Z.to_nat n)) (fun i =>
    let! ok := pipe_wait_room p in
    if (ok : bool) then
      let! b := vload8 (addr + Z.of_nat i) in
      do! upd_pipe p (pipe_put b) in
      ret None
    else ret (Some (-1))) in
  match r with
  | Some e => ret e
  | None =>
      do! wakeup (Cpipe_nread p) in
      do! release (Lpipe p) in
      ret n
  end.

(** The [while] of [piperead]: [false] when the call must return -1. *)
Definition pipe_wait_data (p : Z) : K bool :=
  loop WAITS (fun _ : unit =>
    let! pp := pipe_at p in
    if pipe_empty pp && negb (p_writeopen pp =? 0) then
      let! me := mycur in
      let! pr := proc_at me in
      if negb (killed pr =? 0) then do! release (Lpipe p) in ret (inr false)
      else do! sleep (Cpipe_nread p) (Lpipe p) in ret (inl tt)
    else ret (inr true)) tt.

(** [for (i = 0; i < n; i++)]: the value of [i] at the end. *)
Fixpoint pipe_copyout (p addr : Z) (n : nat) (i : Z) : K Z :=
  match n with
  | O => ret i
  | S n' =>
      let! pp := pipe_at p in
      if pipe_empty pp then ret i
      else
        let! r := ofopt (pipe_get pp) in
        do! upd_pipe p (fun _ => r.2) in
        do! vstore8 (addr + i) r.1 in
        pipe_copyout p addr n' (i + 1)
  end.

Definition piperead (p addr n : Z) : K Z :=
  do! acquire (Lpipe p) in
  let! ok := pipe_wait_data p in
  if (ok : bool) then
    let! i := pipe_copyout p addr (Z.to_nat n) 0 in
    do! wakeup (Cpipe_nwrite p) in
    do! release (Lpipe p) in
    ret i
  else ret (-1).

(** ** The bytes in transit *)

(** How many, and which, first to be read first. *)
Definition pipe_count (pp : pipe) : Z := u32 (p_nwrite pp - p_nread pp).
Definition contents (pp : pipe) : list Z :=
  (fun i => default 0 (p_data pp !! Z.to_nat ((p_nread pp + i) mod PIPESIZE))) <$> seqZ 0 (pipe_count pp).

Record pipe_wf (pp : pipe) : Prop := {
  pw_len : length (p_data pp) = Z.to_nat PIPESIZE;
  pw_nread : 0 <= p_nread pp < 2 ^ 32;
  pw_nwrite : 0 <= p_nwrite pp < 2 ^ 32;
  pw_count : pipe_count pp <= PIPESIZE }.

Lemma contents_length pp : length (contents pp) = Z.to_nat (pipe_count pp).
Proof. unfold contents. by rewrite length_fmap, length_seqZ. Qed.

Lemma count_nonneg pp : 0 <= pipe_count pp.
Proof. unfold pipe_count, u32. pose proof (Z.mod_pos_bound (p_nwrite pp - p_nread pp) (2 ^ 32)). lia. Qed.

(** Counting modulo [2 ^ 32] is compatible with indexing modulo [PIPESIZE]. *)
Lemma u32_mod_pipe x : u32 x mod PIPESIZE = x mod PIPESIZE.
Proof. unfold u32, PIPESIZE. change (2 ^ 32) with 4294967296. Z.div_mod_to_equations. lia. Qed.

Lemma pipe_full_iff pp : pipe_wf pp -> pipe_full pp = true <-> pipe_count pp = PIPESIZE.
Proof.
  intros [_ Hr Hw _]. unfold pipe_full, pipe_count, u32, PIPESIZE. rewrite Z.eqb_eq. Z.div_mod_to_equations. lia.
Qed.

Lemma pipe_empty_iff pp : pipe_wf pp -> pipe_empty pp = true <-> contents pp = [].
Proof.
  intros [_ Hr Hw _]. rewrite <- length_zero_iff_nil, contents_length. pose proof (count_nonneg pp).
  unfold pipe_empty, pipe_count, u32 in *. rewrite Z.eqb_eq. Z.div_mod_to_equations. lia.
Qed.

Lemma put_count pp b : pipe_wf pp -> pipe_full pp = false -> pipe_count (pipe_put b pp) = pipe_count pp + 1.
Proof.
  intros Hw Hf. pose proof (pipe_full_iff pp Hw) as Hi. rewrite Hf in Hi. destruct Hw as [_ Hr Hw Hc].
  unfold pipe_put, pipe_count, u32, PIPESIZE in *. cbn in *. Z.div_mod_to_equations. lia.
Qed.

(** A byte written goes behind those in transit. *)
Lemma put_appends pp b :
  pipe_wf pp -> pipe_full pp = false -> pipe_wf (pipe_put b pp) /\ contents (pipe_put b pp) = contents pp ++ [b].
Proof.
  intros Hw Hf. pose proof (put_count pp b Hw Hf) as Hc. pose proof (count_nonneg pp) as H0.
  pose proof (pipe_full_iff pp Hw) as Hi. rewrite Hf in Hi. destruct Hw as [Hl Hr Hw Hcp].
  assert (Hnf : pipe_count pp <> PIPESIZE) by (intros E; by apply Hi in E). split.
  - split; [by cbn; rewrite length_insert|done| |rewrite Hc; lia].
    cbn. unfold u32. apply Z.mod_pos_bound. lia.
  - unfold contents. rewrite Hc, seqZ_app, fmap_app by lia. cbn [p_nread pipe_put set]. f_equal.
    + apply list_fmap_ext. intros i x Hx. apply lookup_seqZ in Hx as [-> Hx]. cbn.
      rewrite list_lookup_insert_ne; [done|]. intros E. apply Z2Nat.inj in E; [|apply Z.mod_pos_bound; done..].
      unfold pipe_count, u32, PIPESIZE in *. Z.div_mod_to_equations. lia.
    + change (seqZ (0 + pipe_count pp) 1) with [0 + pipe_count pp]. cbn. f_equal.
      rewrite <- (u32_mod_pipe (p_nread pp + _)). replace (u32 (p_nread pp + (0 + pipe_count pp))) with (p_nwrite pp).
      * rewrite list_lookup_insert_eq; [done|]. rewrite Hl. apply Z2Nat.inj_lt; [apply Z.mod_pos_bound; done|done|apply Z.mod_pos_bound; done].
      * unfold pipe_count, u32. Z.div_mod_to_equations. lia.
Qed.

(** The byte read is the first in transit. *)
Lemma get_takes pp : pipe_wf pp -> pipe_empty pp = false ->
  exists b pp', pipe_get pp = Some (b, pp') /\ pipe_wf pp' /\ contents pp = b :: contents pp' /\
    p_readopen pp' = p_readopen pp /\ p_writeopen pp' = p_writeopen pp.
Proof.
  intros Hw He. pose proof (pipe_empty_iff pp Hw) as Hi. rewrite He in Hi. destruct Hw as [Hl Hr Hw Hc].
  assert (Hlt : (Z.to_nat (p_nread pp mod PIPESIZE) < length (p_data pp))%nat).
  { rewrite Hl. apply Z2Nat.inj_lt; [apply Z.mod_pos_bound; done|done|apply Z.mod_pos_bound; done]. }
  destruct (lookup_lt_is_Some_2 _ _ Hlt) as [b Hb]. unfold pipe_get. rewrite Hb. cbn.
  set (pp' := pp <| p_nread ::= _ |>). exists b, pp'. pose proof (count_nonneg pp) as H0.
  assert (Hne : pipe_count pp <> 0).
  { intros E. assert (false = true); [|done]. apply Hi. apply length_zero_iff_nil. rewrite contents_length, E. done. }
  assert (Hc' : pipe_count pp = 1 + pipe_count pp').
  { unfold pp', pipe_count, u32 in *. cbn in *. Z.div_mod_to_equations. lia. }
  split_and!; [done| | |done|done].
  - split; [done| |done|lia]. cbn. unfold u32. apply Z.mod_pos_bound. lia.
  - unfold contents. rewrite Hc', seqZ_app, fmap_app by (lia || apply count_nonneg). change (seqZ 0 1) with [0]. cbn [fmap list_fmap app].
    rewrite Z.add_0_r, Hb. cbn [default from_option id]. f_equal. rewrite <- (fmap_add_seqZ 1 0), <- list_fmap_compose.
    apply list_fmap_ext. intros i x Hx. cbn. do 3 f_equal. rewrite <- (u32_mod_pipe (p_nread pp + _)), <- (u32_mod_pipe (u32 _ + x)).
    f_equal. unfold u32. Z.div_mod_to_equations. lia.
Qed.

(** ** The stream *)

(** Writers and readers of one pipe in any order: [W] are the bytes written so far,
    [R] those read.  Each step is one iteration of a copying loop, made with the
    pipe's lock held. *)
Inductive pipe_step : pipe * list Z * list Z -> pipe * list Z * list Z -> Prop :=
| step_put b pp W R : pipe_full pp = false -> pipe_step (pp, W, R) (pipe_put b pp, W ++ [b], R)
| step_get b pp pp' W R : pipe_empty pp = false -> pipe_get pp = Some (b, pp') ->
    pipe_step (pp, W, R) (pp', W, R ++ [b]).

Definition pipe_new (data : list Z) : pipe := mk_pipe data 0 0 1 1.

Definition stream_ok (st : pipe * list Z * list Z) : Prop :=
  let '(pp, W, R) := st in pipe_wf pp /\ W = R ++ contents pp.

Lemma pipe_step_stream st st' : stream_ok st -> pipe_step st st' -> stream_ok st'.
Proof.
  intros Hok Hs. destruct Hs as [b pp W R Hf|b pp pp' W R He Hg]; destruct Hok as [Hw ->]; cbn.
  - destruct (put_appends pp b Hw Hf) as [Hw' ->]. by rewrite app_assoc.
  - destruct (get_takes pp Hw He) as (b1 & pp1 & Hg1 & Hw1 & -> & _). rewrite Hg in Hg1. injection Hg1 as <- <-.
    by rewrite <- app_assoc.
Qed.

(** C21: a pipe is a first-in first-out stream.  However writers and readers
    interleave, and however often the counters wrap around, the bytes read are a
    prefix of the bytes written, the rest are in the buffer in order, and
    there are never more than [PIPESIZE] of them. *)
Theorem pipe_fifo data pp W R :
  length data = Z.to_nat PIPESIZE -> rtc pipe_step (pipe_new data, [], []) (pp, W, R) ->
  W = R ++ contents pp /\ (length (contents pp) <= Z.to_nat PIPESIZE)%nat.
Proof.
  intros Hd Hr. assert (Hok : stream_ok (pp, W, R)).
  { eapply (rtc_invariant pipe_step); [apply pipe_step_stream|done|]. split; [|done]. by split. }
  destruct Hok as [[_ _ _ Hc] HW]. split; [done|]. rewrite contents_length. lia.
Qed.

Lemma pipe_fifo_witness : exists pp, [7; 8] = [7] ++ contents pp.
Proof.
  set (p0 := pipe_new (replicate 512 0)). set (p2 := pipe_put 8 (pipe_put 7 p0)).
  exists (p2 <| p_nread := 1 |>). apply (pipe_fifo (replicate 512 0) _ [7; 8] [7]); [reflexivity|].
  eapply rtc_l; [apply (step_put 7 p0 [] []); reflexivity|].
  eapply rtc_l; [apply (step_put 8 _ [7] []); reflexivity|].
  eapply rtc_l; [apply (step_get 7 p2 (p2 <| p_nread := 1 |>) [7; 8] []); reflexivity|]. apply rtc_refl.
Defined.

(** ** Copying to and from user memory *)

Lemma vload8_ext a b k k' :
  pmem k' = pmem k -> cr3 k' = cr3 k -> vload8 a k = Ret b k -> vload8 a k' = Ret b k'.
Proof.
  intros Em Ec. unfold vload8. rewrite !bind_gets. unfold id. rewrite Em, Ec.
  destruct (translate _ _ _) as [[pa fl]|]; [|done]. unfold ret. by intros [= ->].
Qed.

Lemma vstore8_ext a b k k1 k' :
  pmem k' = pmem k -> cr3 k' = cr3 k -> vstore8 a b k = Ret tt k1 ->
  k1 = k <| pmem := pmem k1 |> /\ vstore8 a b k' = Ret tt (k' <| pmem := pmem k1 |>).
Proof.
  intros Em Ec. unfold vstore8. rewrite !bind_gets. unfold id. rewrite Em, Ec.
  destruct (translate _ _ _) as [[pa fl]|]; [|done]. destruct (_ =? 0); [done|]. unfold modify. intros [= <-].
  split; [by kernel_eq|]. f_equal. kernel_eq. by rewrite Em.
Qed.

Lemma vstore_ext a l k k1 k' :
  pmem k' = pmem k -> cr3 k' = cr3 k -> vstore a l k = Ret tt k1 -> vstore a l k' = Ret tt (k' <| pmem := pmem k1 |>).
Proof.
  revert a k k'. induction l as [|b l IH]; intros a k k' Em Ec Hv; cbn [vstore] in *.
  - injection Hv as <-. unfold ret. f_equal. by kernel_eq.
  - destruct (vstore8 a b k) as [[] ks| | | |] eqn:Hs; unfold bind at 1 in Hv; rewrite Hs in Hv; try done. cbn [bindO] in Hv.
    destruct (vstore8_ext a b k ks k' Em Ec Hs) as [Eks Hs']. erewrite bind_run; [|exact Hs'].
    rewrite (IH (a + 1) ks (k' <| pmem := pmem ks |>)); [f_equal; by kernel_eq|done|by rewrite Eks|done].
Qed.

Lemma pipe_at_run p pp k : pipes k !! p = Some pp -> pipe_at p k = Ret pp k.
Proof. intros H. unfold pipe_at. rewrite bind_gets, H. done. Qed.

Lemma upd_pipe_run p pp f k :
  pipes k !! p = Some pp -> upd_pipe p f k = Ret tt (k <| pipes ::= <[p := f pp]> |>).
Proof. intros H. unfold upd_pipe. by run (pipe_at_run p pp k H). Qed.

Lemma pipe_wait_room_run p pp k : pipes k !! p = Some pp -> pipe_full pp = false -> pipe_wait_room p k = Ret true k.
Proof.
  intros Hp Hf. unfold pipe_wait_room. change WAITS with (S 63). cbn [loop].
  erewrite bind_run; [|run (pipe_at_run p pp k Hp); rewrite Hf; done]. done.
Qed.

Lemma count_room pp : pipe_wf pp -> (length (contents pp) < Z.to_nat PIPESIZE)%nat -> pipe_full pp = false.
Proof.
  intros Hw Hl. destruct (pipe_full pp) eqn:E; [|done]. apply pipe_full_iff in E; [|done].
  rewrite contents_length, E in Hl. lia.
Qed.

(** The copying loop of [pipewrite] when there is room. *)
Lemma pipewrite_loop p addr bs pp k :
  pipes k !! p = Some pp -> pipe_wf pp -> (length (contents pp) + length bs <= Z.to_nat PIPESIZE)%nat ->
  (forall i b, bs !! i = Some b -> vload8 (addr + Z.of_nat i) k = Ret b k) ->
  wp (first_of (seq 0 (length bs)) (fun i =>
    let! ok := pipe_wait_room p in
    if (ok : bool) then
      let! b := vload8 (addr + Z.of_nat i) in
      do! upd_pipe p (pipe_put b) in
      ret None
    else ret (Some (-1)))) (fun r k' => r = None /\ exists pp', k' = k <| pipes ::= <[p := pp']> |> /\
      pipe_wf pp' /\ contents pp' = contents pp ++ bs) k.
Proof.
  intros Hp Hw Hl Hb. apply (wp_first_of_seq _ _ (fun c k' => exists pp', k' = k <| pipes ::= <[p := pp']> |> /\
    pipe_wf pp' /\ contents pp' = contents pp ++ take c bs)).
  - exists pp. split_and!; [|done|by rewrite app_nil_r]. kernel_eq. by rewrite insert_id.
  - intros c k' Hc (pp' & -> & Hw' & Hcon). destruct (lookup_lt_is_Some_2 bs c Hc) as [b Hbc].
    assert (Hp' : pipes (k <| pipes ::= <[p := pp']> |>) !! p = Some pp') by apply lookup_insert_eq.
    assert (Hf' : pipe_full pp' = false).
    { apply (count_room pp' Hw'). rewrite Hcon, length_app, length_take. lia. }
    apply wp_run. eexists None, _. split.
    + run (pipe_wait_room_run p pp' _ Hp' Hf'). cbv iota.
      erewrite bind_run; [|apply (vload8_ext _ b k); [done|done|exact (Hb c b Hbc)]].
      run (upd_pipe_run p pp' (pipe_put b) _ Hp'). done.
    + destruct (put_appends pp' b Hw' Hf') as [Hw2 Hc2]. exists (pipe_put b pp'). split_and!; [|done|].
      * kernel_eq. by rewrite insert_insert_eq.
      * rewrite Hc2, Hcon, Nat.add_1_r, (take_S_r _ _ b Hbc). by rewrite app_assoc.
  - intros k' (pp' & -> & Hw' & Hcon). split; [done|]. exists pp'. rewrite firstn_all in Hcon. done.
Qed.

(** The end of both operations: the other side is woken and the lock released. *)
Lemma pipe_finish {A} p ch (r : A) k k0 :
  k = k0 <| held ::= cons (Lpipe p) |> -> Lptable ∉ held k0 -> sched_ok k0 ->
  exists k', (do! wakeup ch in do! release (Lpipe p) in ret r) k = Ret r k' /\ woke k0 k'.
Proof.
  intros -> Hh Hok. set (k1 := k0 <| held ::= _ |>). destruct (wakeup_woke ch k1) as (k2 & Hr & [Hs Hok2 Hpid]).
  - eapply sched_ok_ext; [..|exact Hok]; done.
  - cbn. set_solver.
  - run Hr. assert (Hh2 : held k2 = Lpipe p :: held k0) by (by rewrite Hs).
    erewrite bind_run; [|apply release_run; rewrite Hh2; by left]. eexists. split; [done|]. split; [|intros _|exact Hpid].
    + unfold same_but_sched in *. rewrite Hs. unfold k1. kernel_eq. by rewrite remove_lock_head.
    + eapply sched_ok_ext; [..|apply Hok2; eapply sched_ok_ext; [..|exact Hok]]; done.
Qed.

(** A call of [sleep] that is not the last thing its caller does. *)
Lemma sleep_switches {A} ch lk (f : unit -> K A) k p pr :
  curproc k = Some p -> procs k !! p = Some pr -> held k = [lk] ->
  exists resume, bind (sleep ch lk) f k =
    Switch (k <| procs := <[p := pr <| chan := Some ch |> <| state := SLEEPING |>]> (procs k) |>
              <| held := [Lptable] |>) resume.
Proof.
  intros Hc Hp Hh. unfold bind at 1. rewrite (sleep_enter ch lk [] k p pr Hc Hp Hh ltac:(set_solver)).
  unfold bind at 1. rewrite (sched_switches _ p (pr <| chan := Some ch |> <| state := SLEEPING |>)); cbn; [by eexists|done|done| |done].
  apply list_lookup_insert_eq. by eapply lookup_lt_Some.
Qed.

(** The copying loop of [piperead]. *)
Lemma pipe_copyout_run p addr n : forall i pp k k1,
  pipes k !! p = Some pp -> pipe_wf pp -> vstore (addr + i) (take n (contents pp)) k = Ret tt k1 ->
  exists pp', pipe_copyout p addr n i k = Ret (i + Z.of_nat (length (take n (contents pp))))
      (k <| pipes ::= <[p := pp']> |> <| pmem := pmem k1 |>) /\
    pipe_wf pp' /\ contents pp' = drop n (contents pp).
Proof.
  induction n as [|n IH]; intros i pp k k1 Hp Hw Hv; cbn [pipe_copyout take length].
  - injection Hv as <-. exists pp. split_and!; [|done|done]. rewrite Z.add_0_r. unfold ret. f_equal.
    kernel_eq. by rewrite insert_id.
  - run (pipe_at_run p pp k Hp). destruct (pipe_empty pp) eqn:He.
    + pose proof (proj1 (pipe_empty_iff pp Hw) He) as Hnil. rewrite Hnil in *. injection Hv as <-.
      exists pp. split_and!; [|done|done]. rewrite Z.add_0_r. unfold ret. f_equal. kernel_eq. by rewrite insert_id.
    + destruct (get_takes pp Hw He) as (b & pp1 & Hg & Hw1 & Hcon & _). rewrite Hg, Hcon in *. cbn [take drop length] in *.
      change (bind (ofopt (Some ?w)) ?f k) with (f w k). cbv beta. cbn [fst snd].
      erewrite bind_run; [|by apply (upd_pipe_run p pp)]. set (k2 := k <| pipes ::= _ |>).
      cbn [vstore] in Hv. unfold bind at 1 in Hv.
      destruct (vstore8 (addr + i) b k) as [[] ks| | | |] eqn:Hs; try done. cbn [bindO] in Hv.
      destruct (vstore8_ext (addr + i) b k ks k2 eq_refl eq_refl Hs) as [Eks Hs2].
      erewrite bind_run; [|exact Hs2]. set (k3 := k2 <| pmem := pmem ks |>).
      assert (Hv3 : vstore (addr + i + 1) (take n (contents pp1)) k3 = Ret tt (k3 <| pmem := pmem k1 |>)).
      { apply (vstore_ext _ _ ks); [done|by rewrite Eks|exact Hv]. }
      destruct (IH (i + 1) pp1 k3 (k3 <| pmem := pmem k1 |>)) as (pp' & Hr & Hw' & Hc');
        [apply lookup_insert_eq|done|by rewrite Z.add_assoc|].
      exists pp'. split_and!; [|done|done]. rewrite Hr. f_equal; [lia|]. kernel_eq. by rewrite insert_insert_eq.
Qed.

(** [pipewrite] on every path that does not resume.  With room for all [n] bytes
    it returns [n] with the bytes at [addr] behind those in transit and the
    readers woken.  When the pipe is full at its first byte it returns -1 without any
    change if the read end is closed or the caller is killed, and otherwise
    wakes the readers and sleeps on [nwrite], with the pipe's lock given up. *)
Theorem pipewrite_outcomes p addr bs pp me pr k :
  pipes k !! p = Some pp -> pipe_wf pp -> held k = [] -> sched_ok k ->
  curproc k = Some me -> procs k !! me = Some pr ->
  (forall i b, bs !! i = Some b -> vload8 (addr + Z.of_nat i) k = Ret b k) -> bs <> [] ->
  let n := Z.of_nat (length bs) in
  ((length (contents pp) + length bs <= Z.to_nat PIPESIZE)%nat ->
    exists k' pp', pipewrite p addr n k = Ret n k' /\ woke (k <| pipes ::= <[p := pp']> |>) k' /\
      contents pp' = contents pp ++ bs /\ pipe_wf pp') /\
  (length (contents pp) = Z.to_nat PIPESIZE -> p_readopen pp = 0 \/ killed pr <> 0 -> pipewrite p addr n k = Ret (-1) k) /\
  (length (contents pp) = Z.to_nat PIPESIZE -> p_readopen pp <> 0 -> killed pr = 0 ->
    exists k1 pr1 resume, woke k k1 /\ procs k1 !! me = Some pr1 /\
      pipewrite p addr n k = Switch (k1 <| procs ::= <[me := pr1 <| chan := Some (Cpipe_nwrite p) |> <| state := SLEEPING |>]> |>
        <| held := [Lptable] |>) resume).
Proof.
  intros Hp Hw Hh Hok Hcur Hpr Hld Hne n. unfold pipewrite. subst n. rewrite Nat2Z.id.
  assert (Hacq : acquire (Lpipe p) k = Ret tt (k <| held ::= cons (Lpipe p) |>)) by (apply acquire_run; rewrite Hh; apply not_elem_of_nil).
  run Hacq. set (k0 := k <| held ::= _ |>). assert (Hp0 : pipes k0 !! p = Some pp) by done.
  assert (Hfull : length (contents pp) = Z.to_nat PIPESIZE -> pipe_full pp = true).
  { intros E. apply pipe_full_iff; [done|]. rewrite contents_length in E. pose proof (count_nonneg pp). unfold PIPESIZE in *. lia. }
  split_and!.
  - intros Hroom. pose proof (pipewrite_loop p addr bs pp k0 Hp0 Hw Hroom) as Hl.
    apply wp_run in Hl as (r & k1 & Hr & -> & pp' & -> & Hw' & Hc').
    2: { intros i b Hb. eapply (vload8_ext _ b k); [done|done|auto]. }
    run Hr. destruct (pipe_finish p (Cpipe_nread p) (Z.of_nat (length bs)) (k0 <| pipes ::= <[p := pp']> |>) (k <| pipes ::= <[p := pp']> |>)) as (k2 & Hr2 & Hw2).
    { done. } { cbn. rewrite Hh. apply not_elem_of_nil. } { eapply sched_ok_ext; [..|exact Hok]; done. }
    exists k2, pp'. done.
  - intros Hf%Hfull Hd. destruct bs as [|b0 bs]; [done|]. cbn [length seq first_of].
    assert (Hw0 : pipe_wait_room p k0 = Ret false k).
    { unfold pipe_wait_room. change WAITS with (S 63). cbn [loop].
      erewrite bind_run with (a := inr false) (s' := k); [done|]. run (pipe_at_run p pp k0 Hp0). rewrite Hf.
      erewrite bind_run with (a := true) (s' := k0); [|].
      + erewrite bind_run; [|apply release_run; by left]. unfold ret. f_equal. kernel_eq. by rewrite remove_lock_head.
      + destruct (Z.eqb_spec (p_readopen pp) 0); [done|]. run (mycur_run me k0 Hcur). run (proc_at_run me pr k0 Hpr).
        unfold ret. f_equal. destruct (Z.eqb_spec (killed pr) 0); [tauto|done]. }
    unfold bind at 1. unfold bind at 1. run Hw0. done.
  - intros Hf%Hfull Hro Hk. destruct bs as [|b0 bs]; [done|].
    destruct (wakeup_woke (Cpipe_nread p) k0) as (k1 & Hr1 & Hwk).
    { eapply sched_ok_ext; [..|exact Hok]; done. } { cbn. rewrite Hh. set_solver. }
    destruct (wk_pid _ _ Hwk me pr Hpr) as (pr1 & Hpr1 & _).
    destruct (sleep_switches (A := unit + bool) (Cpipe_nwrite p) (Lpipe p) (fun _ => ret (inl tt)) k1 me pr1) as (resume & Hsl).
    { rewrite (wk_same _ _ Hwk). exact Hcur. } { exact Hpr1. } { rewrite (wk_same _ _ Hwk). cbn. by rewrite Hh. }
    exists (k1 <| held := [] |>), pr1. eexists. split_and!.
    + destruct Hwk as [S1 S2 S3]. split; [|intros _|exact S3].
      * unfold same_but_sched in *. rewrite S1. unfold k0. kernel_eq. by rewrite Hh.
      * eapply sched_ok_ext; [..|apply S2; eapply sched_ok_ext; [..|exact Hok]]; done.
    + done.
    + cbn [length seq first_of]. unfold pipe_wait_room at 1. change WAITS with (S 63). cbn [loop].
      unfold bind at 1 2 3 4. run (pipe_at_run p pp k0 Hp0). rewrite Hf.
      erewrite bind_run with (a := false) (s' := k0).
      * run Hr1. rewrite Hsl. cbn [bindO]. reflexivity.
      * destruct (Z.eqb_spec (p_readopen pp) 0); [done|]. run (mycur_run me k0 Hcur). run (proc_at_run me pr k0 Hpr).
        unfold ret. f_equal. by rewrite Hk.
Qed.

(** [piperead] on every path that does not resume.  When there are bytes in
    transit, or the write end is closed, it takes the first [n] of them (or as
    many as there are), stores them in order at [addr], wakes the writers and
    returns their number, 0 at end of file.  On an empty open pipe it returns
    -1 without any change if the caller is killed and otherwise sleeps on
    [nread] with the pipe's lock given up. *)
Theorem piperead_outcomes p addr n pp me pr k :
  pipes k !! p = Some pp -> pipe_wf pp -> held k = [] -> sched_ok k ->
  curproc k = Some me -> procs k !! me = Some pr ->
  (contents pp <> [] \/ p_writeopen pp = 0 -> forall k1, vstore addr (take (Z.to_nat n) (contents pp)) k = Ret tt k1 ->
    exists k' pp', piperead p addr n k = Ret (Z.of_nat (length (take (Z.to_nat n) (contents pp)))) k' /\
      woke (k <| pipes ::= <[p := pp']> |> <| pmem := pmem k1 |>) k' /\
      contents pp' = drop (Z.to_nat n) (contents pp) /\ pipe_wf pp') /\
  (contents pp = [] -> p_writeopen pp <> 0 -> killed pr <> 0 -> piperead p addr n k = Ret (-1) k) /\
  (contents pp = [] -> p_writeopen pp <> 0 -> killed pr = 0 ->
    exists resume, piperead p addr n k =
      Switch (k <| procs := <[me := pr <| chan := Some (Cpipe_nread p) |> <| state := SLEEPING |>]> (procs k) |>
                <| held := [Lptable] |>) resume).
Proof.
  intros Hp Hw Hh Hok Hcur Hpr. unfold piperead.
  run (acquire_run (Lpipe p) k ltac:(rewrite Hh; apply not_elem_of_nil)). set (k0 := k <| held ::= _ |>).
  assert (Hp0 : pipes k0 !! p = Some pp) by done. pose proof (pipe_empty_iff pp Hw) as He. split_and!.
  - intros Hd k1 Hv.
    assert (Hw0 : pipe_wait_data p k0 = Ret true k0).
    { unfold pipe_wait_data. change WAITS with (S 63). cbn [loop].
      erewrite bind_run; [|run (pipe_at_run p pp k0 Hp0); instantiate (1 := k0); instantiate (1 := inr true)]; [done|].
      destruct Hd as [Hd|Hd].
      - destruct (pipe_empty pp); [by destruct Hd; apply He|done].
      - rewrite Hd. cbn. by rewrite andb_false_r. }
    run Hw0. cbv iota.
    destruct (pipe_copyout_run p addr (Z.to_nat n) 0 pp k0 (k0 <| pmem := pmem k1 |>)) as (pp' & Hr & Hw' & Hc'); [done|done| |].
    { rewrite Z.add_0_r. by apply (vstore_ext _ _ k). }
    run Hr. rewrite Z.add_0_l.
    match goal with |- context [bind (wakeup _) _ ?s] => set (k2 := s) end.
    destruct (pipe_finish p (Cpipe_nwrite p) (Z.of_nat (length (take (Z.to_nat n) (contents pp)))) k2
      (k <| pipes ::= <[p := pp']> |> <| pmem := pmem k1 |>)) as (k3 & Hr3 & Hw3).
    { done. } { cbn. rewrite Hh. apply not_elem_of_nil. } { eapply sched_ok_ext; [..|exact Hok]; done. }
    exists k3, pp'. done.
  - intros E Hwo Hk. erewrite bind_run with (a := false) (s' := k); [done|].
    unfold pipe_wait_data. change WAITS with (S 63). cbn [loop].
    erewrite bind_run with (a := inr false) (s' := k); [done|]. run (pipe_at_run p pp k0 Hp0).
    rewrite (proj2 He E), (proj2 (Z.eqb_neq _ _) Hwo). cbn [negb andb]. run (mycur_run me k0 Hcur). run (proc_at_run me pr k0 Hpr).
    rewrite (proj2 (Z.eqb_neq _ _) Hk). cbn [negb]. erewrite bind_run; [|apply release_run; by left].
    unfold ret. f_equal. kernel_eq. by rewrite remove_lock_head.
  - intros E Hwo Hk.
    destruct (sleep_switches (A := unit + bool) (Cpipe_nread p) (Lpipe p) (fun _ => ret (inl tt)) k0 me pr Hcur Hpr) as (resume & Hsl);
      [cbn; by rewrite Hh|]. eexists. unfold pipe_wait_data at 1. change WAITS with (S 63). cbn [loop].
    unfold bind at 1 2. run (pipe_at_run p pp k0 Hp0). rewrite (proj2 He E), (proj2 (Z.eqb_neq _ _) Hwo). cbn [negb andb].
    run (mycur_run me k0 Hcur). run (proc_at_run me pr k0 Hpr). rewrite Hk. change (negb (0 =? 0)) with false. cbv iota.
    rewrite Hsl. cbn [bindO]. reflexivity.
Qed.

(** A kernel with one pipe and one page of user memory at address 0. *)
Definition demo_pipe (pp : pipe) : kernel :=
  demo <| pipes := {[0x80200000 := pp]} |> <| cr3 := 0x1000 |>
       <| pmem := {[0x1000 := 0x2007; 0x2000 := 0x3007; 0x3000 := 0x0807]} |>.

(** The running process of [demo]. *)
Definition demo_me : proc :=
  zero_proc <| pid := 2 |> <| state := RUNNING |> <| parent := Some 0%nat |> <| queueType := FP_POLICY |> <| fp_priority := 3 |>.

Lemma demo_pipe_sched pp : sched_ok (demo_pipe pp).
Proof. split; [|done|exact prio_ok_demo]. destruct demo_wf. by split. Qed.

Lemma pipe_wf_example data : length data = 512%nat -> pipe_wf (mk_pipe data 0 2 1 1).
Proof. intros Hl. split; [exact Hl|cbn; lia..|by vm_compute]. Qed.

Lemma pipewrite_outcomes_witness :
  exists k' pp', pipewrite 0x80200000 0 2 (demo_pipe (pipe_new (replicate 512 0))) = Ret 2 k' /\ contents pp' = [7; 8].
Proof.
  set (pp := pipe_new (replicate 512 0)).
  edestruct (pipewrite_outcomes 0x80200000 0 [7; 8] pp 1 demo_me (demo_pipe pp)) as [H _].
  - apply lookup_singleton_eq.
  - by split.
  - reflexivity.
  - apply demo_pipe_sched.
  - reflexivity.
  - reflexivity.
  - intros [|[|i]] b; [intros [= <-]; by vm_compute..|done].
  - done.
  - destruct H as (k' & pp' & Hr & _ & Hc & _); [apply Nat.leb_le; by vm_compute|]. exists k', pp'. split; [exact Hr|exact Hc].
Defined.

Lemma piperead_outcomes_witness :
  exists k' pp', piperead 0x80200000 0 1 (demo_pipe (mk_pipe (7 :: 8 :: replicate 510 0) 0 2 1 1)) = Ret 1 k' /\ contents pp' = [8].
Proof.
  set (pp := mk_pipe (7 :: 8 :: replicate 510 0) 0 2 1 1).
  edestruct (piperead_outcomes 0x80200000 0 1 pp 1 demo_me (demo_pipe pp)) as [H _].
  - apply lookup_singleton_eq.
  - by apply pipe_wf_example.
  - reflexivity.
  - apply demo_pipe_sched.
  - reflexivity.
  - reflexivity.
  - edestruct H as (k' & pp' & Hr & _ & Hc & _); [by left|reflexivity|]. exists k', pp'. split; [exact Hr|exact Hc].
Defined.
