(* ===== verification/Vm.v ===== *)
(** * Page tables

    [src/vm.c] without the shared-memory calls (see [Shm]).  Page directories and
    page tables are pages of physical memory read and written word by word.
    [pt_ok k pgdir tabs] says that the tree rooted at [pgdir] is well-formed, with
    the page table of each present directory entry in [tabs]; [pte_at] is the
    entry of a virtual page.  The theorems describe the operations as changes
    of that mapping. *)

From S2P Require Import Prelude CString Headers Spinlock Ring Sched Mem Kalloc Sleeplock.

(** ** Operations *)

Definition walkpgdir (pgdir va alloc : Z) : K Z :=
  let pde := pgdir + 4 * PDX va in
  let! e := kread pde in
  if negb (Z.land e PTE_P =? 0) then ret (P2V (PTE_ADDR e) + 4 * PTX va)
  else if alloc =? 0 then ret 0
  else
    let! pgtab := kalloc in
    if pgtab =? 0 then ret 0
    else
      do! memset_page pgtab 0 in
      do! kwrite pde (Z.lor (V2P pgtab) (Z.lor PTE_P (Z.lor PTE_W PTE_U))) in
      ret (pgtab + 4 * PTX va).

(** The [for (;;)] of [mappages]; [n] bounds the pages still to map after this one. *)
Fixpoint mappages_loop (pgdir a last pa perm : Z) (n : nat) : K Z :=
  let! pte := walkpgdir pgdir a 1 in
  if pte =? 0 then ret (-1)
  else
    let! e := kread pte in
    if negb (Z.land e PTE_P =? 0) then panic "remap"
    else
      do! kwrite pte (Z.lor pa (Z.lor perm PTE_P)) in
      if a =? last then ret 0
      else
        match n with
        | O => fun s => Spin s
        | S n' => mappages_loop pgdir (u32 (a + PGSIZE)) last (u32 (pa + PGSIZE)) perm n'
        end.

Definition mappages (pgdir va size pa perm : Z) : K Z :=
  let a := PGROUNDDOWN va in
  let last := PGROUNDDOWN (u32 (va + size - 1)) in
  mappages_loop pgdir a last pa perm (Z.to_nat (u32 (last - a) / PGSIZE)).

(** [deallocuvm]: [a] increases by at least a page every time round. *)
Definition deallocuvm (pgdir oldsz newsz : Z) : K Z :=
  if oldsz <=? newsz then ret oldsz
  else
    do! loop (Z.to_nat (oldsz / PGSIZE + 2)) (fun a =>
      if oldsz <=? a then ret (inr tt)
      else
        let! pte := walkpgdir pgdir a 0 in
        if pte =? 0 then ret (inl (u32 (u32 (PGADDR (PDX a + 1) 0 0 - PGSIZE) + PGSIZE)))
        else
          let! e := kread pte in
          do! when (negb (Z.land e PTE_P =? 0)) (
            let pa := PTE_ADDR e in
            if pa =? 0 then panic "kfree"
            else do! kfree (P2V pa) in kwrite pte 0) in
          ret (inl (u32 (a + PGSIZE)))) (PGROUNDUP newsz) in
    ret newsz.

Definition allocuvm (pgdir oldsz newsz : Z) : K Z :=
  if KERNBASE <=? newsz then ret 0
  else if newsz <? oldsz then ret oldsz
  else
    loop (Z.to_nat (newsz / PGSIZE + 2)) (fun a =>
      if newsz <=? a then ret (inr newsz)
      else
        let! mem := kalloc in
        if mem =? 0 then
          do! cputs "allocuvm out of memory" in
          do! deallocuvm pgdir newsz oldsz in
          ret (inr 0)
        else
          do! memset_page mem 0 in
          let! r := mappages pgdir a PGSIZE (V2P mem) (Z.lor PTE_W PTE_U) in
          if r <? 0 then
            do! cputs "allocuvm out of memory (2)" in
            do! deallocuvm pgdir newsz oldsz in
            do! kfree mem in
            ret (inr 0)
          else ret (inl (u32 (a + PGSIZE)))) (PGROUNDUP oldsz).

Definition freevm (pgdir : Z) : K unit :=
  if pgdir =? 0 then panic "freevm: no pgdir"
  else
    do! deallocuvm pgdir KERNBASE 0 in
    do! foreach (seqZ 0 NPDENTRIES) (fun i =>
      let! e := kread (pgdir + 4 * i) in
      when (negb (Z.land e PTE_P =? 0)) (kfree (P2V (PTE_ADDR e)))) in
    kfree pgdir.

(** [kmap]: virtual address, physical start and end, permissions. *)
Definition kmap (data : Z) : list (Z * Z * Z * Z) :=
  [(KERNBASE, 0, EXTMEM, PTE_W);
   (KERNLINK, V2P KERNLINK, V2P data, 0);
   (data, V2P data, PHYSTOP, PTE_W);
   (DEVSPACE, DEVSPACE, 0, PTE_W)].

Definition setupkvm : K Z :=
  let! pgdir := kalloc in
  if pgdir =? 0 then ret 0
  else
    do! memset_page pgdir 0 in
    do! when (DEVSPACE <? P2V PHYSTOP) (panic "PHYSTOP too high") in
    let! data := gets kernel_data in
    let! r := first_of (kmap data) (fun '(virt, phys_start, phys_end, perm) =>
      let! r := mappages pgdir virt (u32 (phys_end - phys_start)) phys_start perm in
      if r <? 0 then do! freevm pgdir in ret (Some 0) else ret None) in
    ret (default pgdir r).

Definition kvmalloc : K unit :=
  let! d := setupkvm in
  do! modify (fun k => k <| kpgdir := d |>) in
  switchkvm.

(** Bytes stored through the kernel's mapping of physical memory. *)
Fixpoint kstore (va : Z) (l : list Z) : K unit :=
  match l with
  | [] => ret tt
  | b :: l' =>
      if (KERNBASE <=? va) && (va <? KERNBASE + PHYSTOP) then
        do! modify (fun k => k <| pmem := pstore8 (pmem k) (V2P va) b |>) in
        kstore (va + 1) l'
      else fault
  end.

(** [init] holds at least [sz] bytes. *)
Definition inituvm (pgdir : Z) (init : list Z) (sz : Z) : K unit :=
  if PGSIZE <=? sz then panic "inituvm: more than a page"
  else
    let! mem := kalloc in
    do! memset_page mem 0 in
    let! _ := mappages pgdir 0 PGSIZE (V2P mem) (Z.lor PTE_W PTE_U) in
    kstore mem (take (Z.to_nat sz) init).

Definition clearpteu (pgdir uva : Z) : K unit :=
  let! pte := walkpgdir pgdir uva 0 in
  if pte =? 0 then panic "clearpteu"
  else
    let! e := kread pte in
    kwrite pte (Z.land e (u32 (Z.lnot PTE_U))).

Definition uva2ka (pgdir uva : Z) : K Z :=
  let! pte := walkpgdir pgdir uva 0 in
  let! e := kread pte in            (* a null [pte] is not tested for *)
  if Z.land e PTE_P =? 0 then ret 0
  else if Z.land e PTE_U =? 0 then ret 0
  else ret (P2V (PTE_ADDR e)).

(** [copyout] of the bytes [buf], page by page; [len] is their number. *)
Definition copyout (pgdir va : Z) (buf : list Z) : K Z :=
  loop (S (length buf)) (fun '(va, buf) =>
    match buf with
    | [] => ret (inr 0)
    | _ =>
        let va0 := PGROUNDDOWN va in
        let! pa0 := uva2ka pgdir va0 in
        if pa0 =? 0 then ret (inr (-1))
        else
          let n := Z.min (PGSIZE - (va - va0)) (Z.of_nat (length buf)) in
          do! kstore (pa0 + (va - va0)) (take (Z.to_nat n) buf) in
          ret (inl (u32 (va0 + PGSIZE), drop (Z.to_nat n) buf))
    end) (va, buf).

(** ** Shared pages *)

(** [is_shm(pa)] is the address stored in the table, so [pa] or 0; [shm_index(pa)]
    is 0 also when there is no such entry. *)
Definition shm_find (pa : Z) (l : list shm_block) : option nat :=
  fst <$> list_find (fun b => sb_pa b = pa) (take SHM_MAXNUM l).
Definition is_shm (pa : Z) : K Z :=
  let! l := gets shm_mems in
  ret (match shm_find pa l with Some _ => pa | None => 0 end).
Definition shm_index (pa : Z) : K nat :=
  let! l := gets shm_mems in
  ret (default 0%nat (shm_find pa l)).

(** ** Copying an address space *)

(** One page of [copyuvm]'s loop; [Some tt] is [goto bad]. *)
Definition copy_one (pgdir d i : Z) : K (option unit) :=
  let! pte := walkpgdir pgdir i 0 in
  if pte =? 0 then panic "copyuvm: pte should exist"
  else
    let! e := kread pte in
    if Z.land e PTE_P =? 0 then ret None
    else
      let pa := PTE_ADDR e in
      let flags := PTE_FLAGS e in
      let! s := is_shm pa in
      if s =? pa then
        let mem := P2V pa in
        let! index := shm_index pa in
        let! r := mappages d i PGSIZE (V2P mem) flags in
        if r <? 0 then ret (Some tt)
        else
          let! l := gets shm_mems in
          let! b := ofopt (l !! index) in
          do! modify (fun k => k <| shm_mems ::= <[index := b <| sb_ref ::= fun n => n + 1 |>]> |>) in
          ret None
      else
        let! mem := kalloc in
        if mem =? 0 then ret (Some tt)
        else
          do! memmove_page mem (P2V pa) in
          let! r := mappages d i PGSIZE (V2P mem) flags in
          if r <? 0 then ret (Some tt) else ret None.

(** [for (i = 0; i < sz; i += PGSIZE)]: the pages that start below [sz]. *)
Definition user_pages (sz : Z) : list Z := (fun j => PGSIZE * j) <$> seqZ 0 ((sz + PGSIZE - 1) / PGSIZE).

Definition copyuvm (pgdir sz : Z) : K Z :=
  let! d := setupkvm in
  if d =? 0 then ret 0
  else
    let! r := first_of (user_pages sz) (copy_one pgdir d) in
    match r with
    | Some _ => do! freevm d in ret 0
    | None => ret d
    end.

(** [copy_page_table] is not called. *)
Definition copy_page_table (src dest : Z) : K Z :=
  let! r := first_of (seqZ 0 NPDENTRIES) (fun i =>
    let! e := kread (src + 4 * i) in
    if Z.land e PTE_P =? 0 then ret None
    else
      let src_pte := P2V (PTE_ADDR e) in
      let! dest_pte := kalloc in
      if dest_pte =? 0 then ret (Some (-1))
      else
        do! kwrite (dest + 4 * i) (Z.lor (V2P dest_pte) (PTE_FLAGS e)) in
        first_of (seqZ 0 1024) (fun j =>
          let! pe := kread (src_pte + 4 * j) in
          if Z.land pe PTE_P =? 0 then ret None
          else
            let! mem := kalloc in
            if mem =? 0 then ret (Some (-1))
            else
              do! memmove_page mem (P2V (PTE_ADDR pe)) in
              do! kwrite (dest_pte + 4 * j) (Z.lor (V2P mem) (PTE_FLAGS pe)) in
              ret None)) in
  ret (default 0 r).

(** ** Addresses and entries *)

Lemma lor_low x f : x mod PGSIZE = 0 -> 0 <= f < PGSIZE -> Z.lor x f = x + f.
Proof.
  intros Hx Hf. unfold PGSIZE in *. change 4096 with (2 ^ 12) in *.
  rewrite <- Z.lxor_lor, <- Z.add_nocarry_lxor; [done|..]; apply Z.bits_inj'; intros n Hn; rewrite Z.land_spec, Z.bits_0.
  all: apply andb_false_iff; destruct (Z.ltb_spec n 12);
    [left; rewrite <- (Z.mod_pow2_bits_low x 12) by lia; rewrite Hx; apply Z.bits_0
    |right; rewrite <- (Z.mod_small f (2 ^ 12)) by lia; apply Z.mod_pow2_bits_high; lia].
Qed.

Lemma land_page w : 0 <= w < 2 ^ 32 -> Z.land w (u32 (Z.lnot 0xFFF)) = w - w mod PGSIZE.
Proof.
  intros Hw. change (u32 (Z.lnot 0xFFF)) with (Z.shiftl (Z.ones 20) 12). unfold PGSIZE. change 4096 with (2 ^ 12).
  transitivity (Z.shiftl (Z.shiftr w 12) 12).
  - apply Z.bits_inj'. intros n Hn. rewrite Z.land_spec, !Z.shiftl_spec by lia. destruct (Z.ltb_spec n 12).
    + rewrite !(Z.testbit_neg_r _ (n - 12)) by lia. apply andb_false_r.
    + rewrite Z.shiftr_spec by lia. replace (n - 12 + 12) with n by lia. destruct (Z.ltb_spec n 32).
      * rewrite Z.ones_spec_low by lia. apply andb_true_r.
      * rewrite <- (Z.mod_small w (2 ^ 32)) by lia. rewrite Z.mod_pow2_bits_high by lia. done.
  - rewrite Z.shiftr_div_pow2, Z.shiftl_mul_pow2 by lia. pose proof (Z.div_mod w (2 ^ 12)). lia.
Qed.

Lemma PTE_ADDR_spec w : 0 <= w < 2 ^ 32 -> PTE_ADDR w = w - w mod PGSIZE.
Proof. apply land_page. Qed.

Lemma PGROUNDDOWN_spec a : 0 <= a < 2 ^ 32 -> PGROUNDDOWN a = a - a mod PGSIZE.
Proof. intros Ha. unfold PGROUNDDOWN. rewrite u32_small by lia. by apply land_page. Qed.

Lemma PTE_FLAGS_spec w : PTE_FLAGS w = w mod PGSIZE.
Proof. unfold PTE_FLAGS. change 0xFFF with (Z.ones 12). by rewrite Z.land_ones. Qed.

Lemma present_spec w : Z.land w PTE_P = w mod 2.
Proof. unfold PTE_P. change 1 with (Z.ones 1). by rewrite Z.land_ones. Qed.

Lemma PDX_spec va : 0 <= va < 2 ^ 32 -> PDX va = va / 4194304.
Proof.
  intros Hv. unfold PDX. change 0x3FF with (Z.ones 10). rewrite Z.land_ones, Z.shiftr_div_pow2 by lia.
  change (2 ^ 22) with 4194304. change (2 ^ 10) with 1024. rewrite Z.mod_small; [done|].
  change (2 ^ 32) with 4294967296 in Hv. Z.div_mod_to_equations. lia.
Qed.

Lemma PTX_spec va : PTX va = (va / PGSIZE) mod 1024.
Proof. unfold PTX. change 0x3FF with (Z.ones 10). by rewrite Z.land_ones, Z.shiftr_div_pow2 by lia. Qed.

Lemma PDX_range va : 0 <= PDX va < 1024.
Proof. unfold PDX. change 0x3FF with (Z.ones 10). rewrite Z.land_ones by lia. apply Z.mod_pos_bound. done. Qed.
Lemma PTX_range va : 0 <= PTX va < 1024.
Proof. rewrite PTX_spec. apply Z.mod_pos_bound. done. Qed.

(** Two addresses share a page exactly when both indices agree. *)
Lemma same_page a b : 0 <= a < 2 ^ 32 -> 0 <= b < 2 ^ 32 ->
  PDX a = PDX b /\ PTX a = PTX b <-> a / PGSIZE = b / PGSIZE.
Proof.
  intros Ha Hb. rewrite !PDX_spec, !PTX_spec by done. unfold PGSIZE. change (2 ^ 32) with 4294967296 in *.
  Z.div_mod_to_equations. lia.
Qed.

Lemma V2P_range k p : page_ok k p -> 0 <= V2P p < 2 ^ 32 /\ V2P p mod PGSIZE = 0 /\ V2P p = p - KERNBASE.
Proof.
  intros (Ha & _ & Hr). rewrite V2P_small by done. unfold KERNBASE, PHYSTOP, PGSIZE in *.
  split_and!; [lia..| |done]. Z.div_mod_to_equations. lia.
Qed.

Lemma P2V_V2P k p : page_ok k p -> P2V (V2P p) = p.
Proof.
  intros Hp. destruct (V2P_range k p Hp) as (_ & _ & ->). destruct Hp as (_ & _ & Hr).
  unfold P2V. unfold KERNBASE, PHYSTOP in *. rewrite u32_small; lia.
Qed.

Lemma PTE_ADDR_range e : 0 <= e < 2 ^ 32 -> 0 <= PTE_ADDR e < 2 ^ 32.
Proof. intros He. rewrite PTE_ADDR_spec by done. unfold PGSIZE. Z.div_mod_to_equations. lia. Qed.

Lemma V2P_P2V x : 0 <= x < 2 ^ 32 -> KERNBASE <= P2V x < KERNBASE + PHYSTOP -> V2P (P2V x) = x.
Proof.
  intros Hx Hr. rewrite V2P_small by done. revert Hr. unfold P2V, u32, KERNBASE, PHYSTOP. change (2 ^ 32) with 4294967296 in *.
  intros Hr. Z.div_mod_to_equations. lia.
Qed.

(** An entry made of a page and flags. *)
Lemma entry_parts x f : 0 <= x < 2 ^ 32 -> x mod PGSIZE = 0 -> 0 <= f < PGSIZE ->
  PTE_ADDR (Z.lor x f) = x /\ PTE_FLAGS (Z.lor x f) = f.
Proof.
  intros Hx Hm Hf. rewrite (lor_low x f), PTE_FLAGS_spec by done. unfold PGSIZE in *. change (2 ^ 32) with 4294967296 in *.
  rewrite PTE_ADDR_spec by (change (2 ^ 32) with 4294967296; Z.div_mod_to_equations; lia).
  unfold PGSIZE. Z.div_mod_to_equations. lia.
Qed.

(** ** Well-formed page tables *)

Record pt_ok (k : kernel) (pgdir : Z) (tabs : gmap Z Z) : Prop := {
  po_dir : page_ok k pgdir;
  po_none : forall i, 0 <= i < 1024 -> tabs !! i = None -> Z.land (word (pmem k) (V2P pgdir + 4 * i)) PTE_P = 0;
  po_some : forall i t, tabs !! i = Some t ->
    0 <= i < 1024 /\ page_ok k t /\ t <> pgdir /\ word (pmem k) (V2P pgdir + 4 * i) = Z.lor (V2P t) 7;
  po_inj : forall i j t, tabs !! i = Some t -> tabs !! j = Some t -> i = j }.

(** The pages of the tree. *)
Definition pt_page (pgdir : Z) (tabs : gmap Z Z) (p : Z) : Prop := p = pgdir \/ exists i, tabs !! i = Some p.

(** The free list and the tree have no page in common. *)
Definition pt_apart (pgdir : Z) (tabs : gmap Z Z) (l : list Z) : Prop := forall p, pt_page pgdir tabs p -> p ∉ l.

(** The entry of the page of [va]; 0 when there is no page table for it. *)
Definition pte_at (k : kernel) (tabs : gmap Z Z) (va : Z) : Z :=
  match tabs !! PDX va with Some t => word (pmem k) (V2P t + 4 * PTX va) | None => 0 end.

Lemma pte_page k tabs a b : 0 <= a < 2 ^ 32 -> 0 <= b < 2 ^ 32 -> a / PGSIZE = b / PGSIZE -> pte_at k tabs a = pte_at k tabs b.
Proof. intros Ha Hb E. apply same_page in E as [E1 E2]; [|done..]. unfold pte_at. by rewrite E1, E2. Qed.

(** Only memory and the free list differ. *)
Definition vm_frame (k k' : kernel) : Prop := k' = k <| freelist := freelist k' |> <| pmem := pmem k' |>.

Lemma vm_frame_refl k : vm_frame k k.
Proof. unfold vm_frame. by kernel_eq. Qed.
Lemma vm_frame_trans k1 k2 k3 : vm_frame k1 k2 -> vm_frame k2 k3 -> vm_frame k1 k3.
Proof. unfold vm_frame. intros E1 E2. rewrite E2, E1. by kernel_eq. Qed.
Lemma vm_frame_pmem k k' f : vm_frame k k' -> vm_frame k (k' <| pmem ::= f |>).
Proof. unfold vm_frame. intros E. rewrite E. by kernel_eq. Qed.
Lemma vm_frame_freelist k k' : k' = k <| freelist := freelist k' |> -> vm_frame k k'.
Proof. unfold vm_frame. intros E. rewrite E. by kernel_eq. Qed.
Lemma vm_frame_held k k' : vm_frame k k' -> held k' = held k.
Proof. intros ->. done. Qed.
Lemma vm_frame_page_ok k k' p : vm_frame k k' -> page_ok k p <-> page_ok k' p.
Proof. intros E. assert (kernel_end k' = kernel_end k) by (by rewrite E). unfold page_ok. by rewrite H. Qed.

Lemma word_in_page k p i : page_ok k p -> 0 <= i < 1024 -> in_page p (V2P p + 4 * i).
Proof. intros _ Hi. unfold in_page, PGSIZE. lia. Qed.

Lemma word_kaddr k p i : page_ok k p -> 0 <= i < 1024 -> kaddr_ok (p + 4 * i) = true /\ V2P (p + 4 * i) = V2P p + 4 * i.
Proof.
  intros (Hm & _ & Hr) Hi. unfold kaddr_ok. rewrite !V2P_small by (unfold PGSIZE, KERNBASE, PHYSTOP in *; Z.div_mod_to_equations; lia).
  split; [|lia]. unfold PGSIZE, KERNBASE, PHYSTOP in *.
  assert ((p + 4 * i) mod 4 = 0) as -> by (Z.div_mod_to_equations; lia).
  assert (p + 4 * i < 0x80000000 + 0xE000000) by (Z.div_mod_to_equations; lia). lia.
Qed.

Lemma kread_page k p i : page_ok k p -> 0 <= i < 1024 -> kread (p + 4 * i) k = Ret (word (pmem k) (V2P p + 4 * i)) k.
Proof. intros Hp Hi. destruct (word_kaddr k p i Hp Hi) as [H1 H2]. unfold kread. by rewrite H1, H2. Qed.

Lemma kwrite_page k p i w : page_ok k p -> 0 <= i < 1024 ->
  kwrite (p + 4 * i) w k = Ret tt (k <| pmem ::= <[V2P p + 4 * i := w]> |>).
Proof. intros Hp Hi. destruct (word_kaddr k p i Hp Hi) as [H1 H2]. unfold kwrite. by rewrite H1, H2. Qed.

Lemma memset_page_run k p : page_ok k p -> memset_page p 0 k = Ret tt (k <| pmem ::= fill_page (V2P p) 0 |>).
Proof.
  intros Hp. unfold memset_page. rewrite (page_kaddr_ok k p Hp). destruct Hp as (-> & _). done.
Qed.

Lemma tab_entry k t : page_ok k t -> PTE_ADDR (Z.lor (V2P t) 7) = V2P t /\ PTE_FLAGS (Z.lor (V2P t) 7) = 7 /\
  Z.land (Z.lor (V2P t) 7) PTE_P = 1.
Proof.
  intros Ht. destruct (V2P_range k t Ht) as (Hr & Hm & _).
  destruct (entry_parts (V2P t) 7 Hr Hm) as [-> ->]; [unfold PGSIZE; lia|]. split_and!; [done..|].
  rewrite present_spec, lor_low by (done || unfold PGSIZE; lia). unfold PGSIZE in *. Z.div_mod_to_equations. lia.
Qed.

Lemma page_words_apart k p q i j : page_ok k p -> page_ok k q -> p <> q -> 0 <= i < 1024 -> 0 <= j < 1024 ->
  V2P p + 4 * i <> V2P q + 4 * j.
Proof.
  intros Hp Hq Hne Hi Hj E. eapply (pages_apart k p q); [done|done|done|by apply (word_in_page k p i)|].
  rewrite E. by apply (word_in_page k).
Qed.

Lemma free_pages_ext k k' l :
  free_pages k l -> freelist k' = freelist k -> kernel_end k' = kernel_end k ->
  (forall p, p ∈ l -> pmem k' !! V2P p = pmem k !! V2P p) -> free_pages k' l.
Proof.
  intros [Hc Hn Ho] Ef Ee Hm. split; [|done|].
  - rewrite Ef. eapply chain_ext; [|exact Hc]. intros p Hp. symmetry. auto.
  - eapply Forall_impl; [exact Ho|]. intros p. unfold page_ok. by rewrite Ee.
Qed.

(** Writing to a page that is not free. *)
Lemma free_pages_write k l p i w : free_pages k l -> page_ok k p -> p ∉ l -> 0 <= i < 1024 ->
  free_pages (k <| pmem ::= <[V2P p + 4 * i := w]> |>) l.
Proof.
  intros Hf Hp Hl Hi. eapply free_pages_ext; [exact Hf|done|done|]. intros q Hq. cbn. apply lookup_insert_ne.
  assert (Hqo : page_ok k q) by (eapply Forall_forall; [apply Hf|done]).
  pose proof (page_words_apart k p q i 0 Hp Hqo). intros E. apply H; [by intros ->|done|lia|lia].
Qed.

Lemma word_insert m a b w : word (<[a := w]> m) b = if decide (a = b) then w else word m b.
Proof. unfold word. destruct (decide (a = b)) as [->|]; [by rewrite lookup_insert_eq|by rewrite lookup_insert_ne]. Qed.

Lemma word_fill k p w m i q : page_ok k p -> page_ok k q -> 0 <= i < 1024 ->
  word (fill_page (V2P p) w m) (V2P q + 4 * i) = if decide (p = q) then w else word m (V2P q + 4 * i).
Proof.
  intros Hp Hq Hi. unfold word. rewrite fill_page_lookup. destruct (decide (p = q)) as [->|Hne].
  - rewrite decide_True; [done|]. apply elem_of_page_words. eauto.
  - rewrite decide_False; [done|]. intros (j & Hj & E)%elem_of_page_words.
    by apply (page_words_apart k q p i j) in E.
Qed.

(** ** Walking *)

Lemma walk_hit k pgdir tabs va t alloc : pt_ok k pgdir tabs -> tabs !! PDX va = Some t ->
  walkpgdir pgdir va alloc k = Ret (t + 4 * PTX va) k.
Proof.
  intros Hpt Ht. destruct (po_some _ _ _ Hpt _ _ Ht) as (Hi & Hok & _ & Hw). unfold walkpgdir.
  run (kread_page k pgdir (PDX va) (po_dir _ _ _ Hpt) Hi). rewrite Hw.
  destruct (tab_entry k t Hok) as (-> & _ & ->). cbn [negb Z.eqb]. by rewrite (P2V_V2P k t Hok).
Qed.

Lemma walk_miss k pgdir tabs va : pt_ok k pgdir tabs -> tabs !! PDX va = None -> walkpgdir pgdir va 0 k = Ret 0 k.
Proof.
  intros Hpt Ht. unfold walkpgdir. run (kread_page k pgdir (PDX va) (po_dir _ _ _ Hpt) (PDX_range va)).
  by rewrite (po_none _ _ _ Hpt _ (PDX_range va) Ht).
Qed.

Lemma walk_full k pgdir tabs va : pt_ok k pgdir tabs -> tabs !! PDX va = None -> free_pages k [] -> Lkmem ∉ held k ->
  walkpgdir pgdir va 1 k = Ret 0 k.
Proof.
  intros Hpt Ht Hf Hh. unfold walkpgdir. run (kread_page k pgdir (PDX va) (po_dir _ _ _ Hpt) (PDX_range va)).
  rewrite (po_none _ _ _ Hpt _ (PDX_range va) Ht). cbn [negb Z.eqb]. by run (kalloc_pops k [] Hf Hh).
Qed.

(** A new page table: the first free page, cleared and entered in the directory. *)
Lemma walk_alloc k pgdir tabs va p l :
  pt_ok k pgdir tabs -> tabs !! PDX va = None -> free_pages k (p :: l) -> pt_apart pgdir tabs (p :: l) -> Lkmem ∉ held k ->
  exists k', walkpgdir pgdir va 1 k = Ret (p + 4 * PTX va) k' /\ vm_frame k k' /\
    pt_ok k' pgdir (<[PDX va := p]> tabs) /\ free_pages k' l /\ pt_apart pgdir (<[PDX va := p]> tabs) l /\
    (forall va', pte_at k' (<[PDX va := p]> tabs) va' = pte_at k tabs va') /\
    (forall a, ~ in_page pgdir a -> ~ in_page p a -> pmem k' !! a = pmem k !! a).
Proof.
  intros Hpt Ht Hf Hap Hh. pose proof (PDX_range va) as Hi. pose proof (po_dir _ _ _ Hpt) as Hd.
  unfold walkpgdir. run (kread_page k pgdir (PDX va) Hd Hi).
  rewrite (po_none _ _ _ Hpt _ Hi Ht). cbn [negb Z.eqb].
  destruct (kalloc_pops k (p :: l) Hf Hh) as (k1 & Hr & Hk1 & Hf1 & Hp & Hpl). run Hr.
  assert (p <> 0) by (destruct Hp as (_ & _ & ? & _); unfold KERNBASE in *; lia).
  rewrite (proj2 (Z.eqb_neq _ _)) by done.
  assert (Hp1 : page_ok k1 p) by (apply (page_ok_ext k); [by rewrite Hk1|done]). run (memset_page_run k1 p Hp1).
  set (k2 := k1 <| pmem ::= _ |>). assert (Hd2 : page_ok k2 pgdir) by (apply (page_ok_ext k); [unfold k2; by rewrite Hk1|exact Hd]).
  erewrite bind_run; [|by apply kwrite_page]. change (Z.lor PTE_P (Z.lor PTE_W PTE_U)) with 7.
  set (k3 := k2 <| pmem ::= _ |>). assert (Em : pmem k1 = pmem k) by (by rewrite Hk1).
  assert (Hpd : p <> pgdir) by (intros ->; apply (Hap pgdir); [by left|by left]).
  assert (Hw : forall q i, page_ok k q -> 0 <= i < 1024 -> word (pmem k3) (V2P q + 4 * i) =
    if decide (q = pgdir /\ i = PDX va) then Z.lor (V2P p) 7 else if decide (q = p) then 0 else word (pmem k) (V2P q + 4 * i)).
  { intros q i Hq Hi'. unfold k3, k2. cbn. rewrite word_insert. rewrite (word_fill k) by done. rewrite Em.
    destruct (decide (q = pgdir)) as [->|Hne].
    - destruct (decide (i = PDX va)) as [->|]; [by rewrite !decide_True|].
      rewrite decide_False by lia. rewrite (decide_False (P := pgdir = pgdir /\ i = PDX va)) by tauto. by rewrite !decide_False by done.
    - rewrite decide_False by (by apply (page_words_apart k)). rewrite (decide_False (P := q = pgdir /\ _)) by tauto.
      destruct (decide (p = q)), (decide (q = p)); congruence. }
  assert (Hpage : forall q, page_ok k q -> page_ok k3 q) by (intros q; apply page_ok_ext; unfold k3, k2; by rewrite Hk1).
  assert (Hnt : forall i t, tabs !! i = Some t -> t <> p) by (intros i t Hit ->; apply (Hap p); [right; eauto|by left]).
  exists k3. split_and!; [done| | | | | |].
  - by do 2 apply vm_frame_pmem; apply vm_frame_freelist.
  - split; [by apply Hpage| | |].
    + intros i Hi' Hn. rewrite lookup_insert_None in Hn. destruct Hn as [Hn Hne]. rewrite Hw by done.
      rewrite decide_False by (intros [_ ->]; done). rewrite decide_False by done. by apply Hpt.
    + intros i t Hit. apply lookup_insert_Some in Hit as [[<- <-]|[Hne Hit]].
      * split_and!; [lia..|by apply Hpage|done|]. rewrite Hw by done. by rewrite decide_True.
      * destruct (po_some _ _ _ Hpt _ _ Hit) as (? & ? & ? & ?). split_and!; [lia..|by apply Hpage|done|].
        rewrite Hw by done. rewrite decide_False by (intros [_ ->]; done). by rewrite decide_False.
    + intros i j t Hit Hjt. apply lookup_insert_Some in Hit as [[<- <-]|[Hne Hit]]; apply lookup_insert_Some in Hjt as [[<- Ep]|[Hne' Hjt]].
      * done.
      * by destruct (Hnt _ _ Hjt).
      * subst t. by destruct (Hnt _ _ Hit).
      * by eapply (po_inj _ _ _ Hpt).
  - apply (free_pages_write k2 l pgdir); [|done|intros ?; apply (Hap pgdir); [by left|by right]|done].
    eapply free_pages_ext; [exact Hf1|done|done|]. intros q Hq. unfold k2. cbn. apply fill_page_out.
    assert (Hqo : page_ok k1 q) by (eapply Forall_forall; [apply Hf1|done]).
    apply (pages_apart k1 q p); [done|done|by intros ->|]. unfold in_page, PGSIZE. lia.
  - intros q [->|[i Hit]] Hin; [apply (Hap pgdir); [by left|by right]|].
    apply lookup_insert_Some in Hit as [[_ <-]|[_ Hit]]; [done|]. apply (Hap q); [right; eauto|by right].
  - intros va'. unfold pte_at. destruct (decide (PDX va = PDX va')) as [E|E].
    + rewrite E, lookup_insert_eq, <- E, Ht. rewrite Hw by (done || apply PTX_range).
      rewrite decide_False by tauto. by rewrite decide_True.
    + rewrite lookup_insert_ne by done. destruct (tabs !! PDX va') as [t|] eqn:Et; [|done].
      destruct (po_some _ _ _ Hpt _ _ Et) as (_ & Hto & Htd & _). rewrite Hw by (done || apply PTX_range).
      rewrite decide_False by tauto. rewrite decide_False; [done|]. by eapply Hnt.
  - intros a Ha Hb. unfold k3, k2. cbn. rewrite lookup_insert_ne by (intros <-; apply Ha; by eapply (word_in_page k)).
    rewrite Em. by apply fill_page_out.
Qed.

(** ** Setting an entry *)

Lemma set_pte k pgdir tabs va t w l :
  pt_ok k pgdir tabs -> tabs !! PDX va = Some t -> free_pages k l -> pt_apart pgdir tabs l -> 0 <= va < 2 ^ 32 ->
  exists k', kwrite (t + 4 * PTX va) w k = Ret tt k' /\ vm_frame k k' /\ pt_ok k' pgdir tabs /\ free_pages k' l /\
    (forall va', 0 <= va' < 2 ^ 32 -> pte_at k' tabs va' = if decide (va' / PGSIZE = va / PGSIZE) then w else pte_at k tabs va') /\
    (forall a, ~ in_page t a -> pmem k' !! a = pmem k !! a).
Proof.
  intros Hpt Ht Hf Hap Hva. destruct (po_some _ _ _ Hpt _ _ Ht) as (Hi & Hok & Htd & Hw). pose proof (PTX_range va) as Hx.
  rewrite (kwrite_page k t (PTX va) w Hok Hx). set (k' := k <| pmem ::= _ |>).
  assert (Hother : forall q i, page_ok k q -> q <> t -> 0 <= i < 1024 -> word (pmem k') (V2P q + 4 * i) = word (pmem k) (V2P q + 4 * i)).
  { intros q i Hq Hne Hi'. unfold k'. cbn. rewrite word_insert, decide_False; [done|]. by apply (page_words_apart k). }
  exists k'. split_and!; [done|apply vm_frame_pmem, vm_frame_refl| | | |].
  - destruct Hpt as [P1 P2 P3 P4]. split; [done| | |done].
    + intros i Hi' Hn. rewrite Hother by done. auto.
    + intros i t' Hit. destruct (P3 i t' Hit) as (? & ? & ? & ?). split_and!; [lia..|done|done|]. by rewrite Hother by done.
  - apply free_pages_write; [done|done| |done]. apply Hap. right. eauto.
  - intros va' Hva'. unfold pte_at. case_decide as E.
    + apply same_page in E as [E1 E2]; [|done..]. rewrite E1, E2, Ht. unfold k'. cbn. by rewrite word_insert, decide_True.
    + destruct (tabs !! PDX va') as [t'|] eqn:Et; [|done]. destruct (decide (t' = t)) as [->|Hne].
      * assert (PDX va' = PDX va) by (by eapply (po_inj _ _ _ Hpt)). unfold k'. cbn. rewrite word_insert, decide_False; [done|].
        intros E'. apply E, same_page; [done..|]. split; [done|lia].
      * destruct (po_some _ _ _ Hpt _ _ Et) as (_ & ? & _ & _). apply Hother; [done..|apply PTX_range].
  - intros a Ha. unfold k'. cbn. apply lookup_insert_ne. intros <-. apply Ha. by eapply (word_in_page k).
Qed.

(** The state of an address space under construction: its tree, the free pages,
    and the memory outside the tree. *)
Record grows (pgdir : Z) (k : kernel) (tabs : gmap Z Z) (l : list Z) (k' : kernel) (tabs' : gmap Z Z) (l' : list Z) : Prop := {
  gr_frame : vm_frame k k';
  gr_pt : pt_ok k' pgdir tabs';
  gr_free : free_pages k' l';
  gr_apart : pt_apart pgdir tabs' l';
  gr_list : exists u, l = u ++ l';
  gr_pages : forall p, pt_page pgdir tabs' p -> pt_page pgdir tabs p \/ p ∈ l;
  gr_size : (length l' + size tabs' = length l + size tabs)%nat;
  gr_mem : forall a, (forall p, pt_page pgdir tabs' p -> ~ in_page p a) -> pmem k' !! a = pmem k !! a;
  gr_sub : tabs ⊆ tabs' }.

Lemma grows_refl pgdir k tabs l :
  pt_ok k pgdir tabs -> free_pages k l -> pt_apart pgdir tabs l -> grows pgdir k tabs l k tabs l.
Proof. intros H1 H2 H3. split; try done; [apply vm_frame_refl|by exists []|auto]. Qed.

Lemma grows_trans pgdir k1 t1 l1 k2 t2 l2 k3 t3 l3 :
  grows pgdir k1 t1 l1 k2 t2 l2 -> grows pgdir k2 t2 l2 k3 t3 l3 -> grows pgdir k1 t1 l1 k3 t3 l3.
Proof.
  intros [A1 A2 A3 A4 [u1 A5] A6 A7 A8 A9] [B1 B2 B3 B4 [u2 B5] B6 B7 B8 B9]. split; try done.
  - by eapply vm_frame_trans.
  - exists (u1 ++ u2). by rewrite A5, B5, app_assoc.
  - intros p [Hp|Hp]%B6; [auto|]. right. rewrite A5. set_solver.
  - lia.
  - intros a Ha. rewrite B8 by done. apply A8. intros p [->|[i Hi]]; apply Ha; [by left|].
    right. exists i. by eapply lookup_weaken.
  - by trans t2.
Qed.

Lemma grows_walk pgdir k tabs l va : pt_ok k pgdir tabs -> free_pages k l -> pt_apart pgdir tabs l -> Lkmem ∉ held k ->
  (l = [] /\ tabs !! PDX va = None /\ walkpgdir pgdir va 1 k = Ret 0 k) \/
  exists t k' tabs' l', walkpgdir pgdir va 1 k = Ret (t + 4 * PTX va) k' /\ grows pgdir k tabs l k' tabs' l' /\
    tabs' !! PDX va = Some t /\ (forall va', pte_at k' tabs' va' = pte_at k tabs va').
Proof.
  intros Hpt Hf Hap Hh. destruct (tabs !! PDX va) as [t|] eqn:Ht.
  - right. exists t, k, tabs, l. split_and!; [by eapply walk_hit|by apply grows_refl|done|done].
  - destruct l as [|p l].
    + left. split_and!; [done..|]. by eapply walk_full.
    + right. destruct (walk_alloc k pgdir tabs va p l Hpt Ht Hf Hap Hh) as (k' & Hr & Hfr & Hpt' & Hf' & Hap' & Hpte & Hm).
      exists p, k', (<[PDX va := p]> tabs), l. split_and!; [done| |by rewrite lookup_insert_eq|done]. split; try done.
      * by exists [p].
      * intros q [->|[i Hi]]; [by left; left|]. apply lookup_insert_Some in Hi as [[_ <-]|[_ Hi]]; [right; by left|]. left. right. eauto.
      * rewrite map_size_insert_None by done. cbn. lia.
      * intros a Ha. apply Hm; apply Ha; [by left|]. right. exists (PDX va). by rewrite lookup_insert_eq.
      * by apply insert_subseteq.
Qed.

(** One page of [mappages]. *)
Lemma grows_map pgdir k tabs l va w : pt_ok k pgdir tabs -> free_pages k l -> pt_apart pgdir tabs l -> Lkmem ∉ held k ->
  0 <= va < 2 ^ 32 -> Z.land (pte_at k tabs va) PTE_P = 0 ->
  (l = [] /\ tabs !! PDX va = None /\ walkpgdir pgdir va 1 k = Ret 0 k) \/
  exists t k1 k' tabs' l', walkpgdir pgdir va 1 k = Ret (t + 4 * PTX va) k1 /\ t + 4 * PTX va <> 0 /\
    kread (t + 4 * PTX va) k1 = Ret (pte_at k tabs va) k1 /\ kwrite (t + 4 * PTX va) w k1 = Ret tt k' /\
    grows pgdir k tabs l k' tabs' l' /\
    (forall va', 0 <= va' < 2 ^ 32 -> pte_at k' tabs' va' = if decide (va' / PGSIZE = va / PGSIZE) then w else pte_at k tabs va').
Proof.
  intros Hpt Hf Hap Hh Hva Hnp. destruct (grows_walk pgdir k tabs l va Hpt Hf Hap Hh) as [?|(t & k1 & tabs' & l' & Hr & Hg & Ht & Hpte)]; [by left|].
  right. destruct (po_some _ _ _ (gr_pt _ _ _ _ _ _ _ Hg) _ _ Ht) as (_ & Hok & _ & _).
  destruct (set_pte k1 pgdir tabs' va t w l') as (k2 & Hr2 & Hf2 & Hpt2 & Hfree2 & Hpte2 & Hm2); try done; [by apply Hg..|].
  exists t, k1, k2, tabs', l'. split_and!; [done| | |done| |].
  - destruct Hok as (_ & _ & ? & _). pose proof (PTX_range va). unfold KERNBASE in *. lia.
  - rewrite (kread_page k1 t (PTX va) Hok (PTX_range va)). rewrite <- Hpte. unfold pte_at. by rewrite Ht.
  - eapply grows_trans; [exact Hg|]. split; try done; [by apply Hg|by exists []|auto|].
    intros a Ha. apply Hm2, Ha. right. eauto.
  - intros va' Hva'. rewrite Hpte2 by done. case_decide; [done|]. by rewrite Hpte.
Qed.

(** The entries after the first [c] pages from [a] have been mapped to [pa] on. *)
Definition mapped (f : Z -> Z) (a pa perm : Z) (c : nat) (va : Z) : Z :=
  if decide (a <= va < a + PGSIZE * Z.of_nat c) then Z.lor (pa + PGSIZE * ((va - a) / PGSIZE)) (Z.lor perm PTE_P)
  else f va.

Lemma mapped_step f g a pa perm c va :
  a mod PGSIZE = 0 -> (g = fun va' => if decide (va' / PGSIZE = a / PGSIZE) then Z.lor pa (Z.lor perm PTE_P) else f va') ->
  mapped g (a + PGSIZE) (pa + PGSIZE) perm c va = mapped f a pa perm (S c) va.
Proof.
  intros Ha ->. unfold mapped, PGSIZE in *. destruct (decide (va / 4096 = a / 4096)) as [E|E].
  - rewrite decide_False by (Z.div_mod_to_equations; lia). rewrite decide_True by (Z.div_mod_to_equations; lia).
    replace ((va - a) / 4096) with 0 by (Z.div_mod_to_equations; lia). f_equal. lia.
  - destruct (decide (a + 4096 <= va < a + 4096 + 4096 * Z.of_nat c)).
    + rewrite decide_True by lia. f_equal. replace ((va - a) / 4096) with (1 + (va - (a + 4096)) / 4096) by (Z.div_mod_to_equations; lia). lia.
    + rewrite decide_False; [done|]. Z.div_mod_to_equations. lia.
Qed.

Lemma mapped_one f a pa perm va : a mod PGSIZE = 0 ->
  (if decide (va / PGSIZE = a / PGSIZE) then Z.lor pa (Z.lor perm PTE_P) else f va) = mapped f a pa perm 1 va.
Proof.
  intros Ha. unfold mapped, PGSIZE in *. destruct (decide (va / 4096 = a / 4096)) as [E|E].
  - rewrite decide_True by (Z.div_mod_to_equations; lia). replace ((va - a) / 4096) with 0 by (Z.div_mod_to_equations; lia). f_equal. lia.
  - rewrite decide_False; [done|]. Z.div_mod_to_equations. lia.
Qed.

Lemma pt_size k pgdir tabs va : pt_ok k pgdir tabs -> tabs !! PDX va = None -> (size tabs < 1024)%nat.
Proof.
  intros Hpt Hn. rewrite <- size_dom. assert (Hs : dom tabs ⊆ list_to_set (seqZ 0 1024) ∖ {[PDX va]}).
  { intros i [t Ht]%elem_of_dom. destruct (po_some _ _ _ Hpt _ _ Ht) as (Hi & _). rewrite elem_of_difference, elem_of_list_to_set, elem_of_seqZ.
    split; [lia|]. rewrite elem_of_singleton. congruence. }
  apply subseteq_size in Hs. rewrite size_difference in Hs.
  - rewrite size_list_to_set, length_seqZ, size_singleton in Hs by apply NoDup_seqZ. lia.
  - pose proof (PDX_range va). intros i ->%elem_of_singleton. rewrite elem_of_list_to_set, elem_of_seqZ. lia.
Qed.

Lemma mappages_loop_run pgdir perm n : forall a pa k tabs l,
  pt_ok k pgdir tabs -> free_pages k l -> pt_apart pgdir tabs l -> Lkmem ∉ held k ->
  0 <= a -> a mod PGSIZE = 0 -> a + PGSIZE * Z.of_nat n < 2 ^ 32 -> 0 <= pa -> pa + PGSIZE * Z.of_nat n < 2 ^ 32 ->
  (forall va, a <= va < a + PGSIZE * Z.of_nat (S n) -> Z.land (pte_at k tabs va) PTE_P = 0) ->
  exists c r k' tabs' l', mappages_loop pgdir a (a + PGSIZE * Z.of_nat n) pa perm n k = Ret r k' /\
    grows pgdir k tabs l k' tabs' l' /\ (c = S n /\ r = 0 \/ (c <= n)%nat /\ r = -1 /\ l' = [] /\ (size tabs' < 1024)%nat) /\
    (forall va, 0 <= va < 2 ^ 32 -> pte_at k' tabs' va = mapped (pte_at k tabs) a pa perm c va).
Proof.
  induction n as [|n IH]; intros a pa k tabs l Hpt Hf Hap Hh Ha Hal Hlim Hpa Hplim Hnp; cbn [mappages_loop].
  all: assert (H32 : 0 <= a < 2 ^ 32) by (unfold PGSIZE in *; lia).
  all: destruct (grows_map pgdir k tabs l a (Z.lor pa (Z.lor perm PTE_P)) Hpt Hf Hap Hh H32) as
    [(-> & Ht & Hr)|(t & k1 & k2 & tabs' & l' & Hr & Hne & Hrd & Hwr & Hg & Hpte)];
    [apply Hnp; unfold PGSIZE; lia|exists 0%nat, (-1), k, tabs, []; run Hr; split_and!; try done;
      [by apply grows_refl|right; split_and!; [lia|done|done|by eapply pt_size]|intros va _; unfold mapped; rewrite decide_False by lia; done]|].
  all: run Hr; rewrite (proj2 (Z.eqb_neq _ _) Hne); run Hrd; rewrite Hnp by (unfold PGSIZE; lia); cbn [negb Z.eqb]; run Hwr.
  - rewrite Z.mul_0_r, Z.add_0_r, Z.eqb_refl. exists 1%nat, 0, k2, tabs', l'. split_and!; [done|done|by left|].
    intros va Hva. rewrite Hpte by done. by apply mapped_one.
  - rewrite (proj2 (Z.eqb_neq _ _)) by (unfold PGSIZE; lia). rewrite !u32_small by (unfold PGSIZE in *; lia).
    replace (a + PGSIZE * Z.of_nat (S n)) with (a + PGSIZE + PGSIZE * Z.of_nat n) by lia.
    destruct Hg as [G1 G2 G3 G4 G5 G6 G7 G8 G9] eqn:Eg. clear Eg.
    destruct (IH (a + PGSIZE) (pa + PGSIZE) k2 tabs' l') as (c & r & k3 & tabs3 & l3 & Hr3 & Hg3 & Hc & Hp3); try done.
    + by rewrite (vm_frame_held _ _ G1).
    + unfold PGSIZE. lia.
    + unfold PGSIZE in *. Z.div_mod_to_equations. lia.
    + lia.
    + unfold PGSIZE. lia.
    + lia.
    + intros va Hva. rewrite Hpte by (unfold PGSIZE in *; change (2 ^ 32) with 4294967296 in *; Z.div_mod_to_equations; lia).
      rewrite decide_False by (unfold PGSIZE in *; Z.div_mod_to_equations; lia). apply Hnp. unfold PGSIZE in *. lia.
    + exists (S c), r, k3, tabs3, l3. split_and!; [done|by eapply grows_trans| |].
      * destruct Hc as [[-> ->]|(? & -> & -> & ?)]; [by left|right; split_and!; [lia|done|done|done]].
      * intros va Hva. rewrite Hp3 by done. unfold mapped at 1. rewrite Hpte by done.
        rewrite <- (mapped_step (pte_at k tabs) _ a pa perm c va Hal eq_refl). done.
Qed.

(** ** [mappages] *)

Lemma mappages_pages pgdir va len pa perm :
  0 <= va -> va mod PGSIZE = 0 -> 0 < len -> len mod PGSIZE = 0 -> va + len <= 2 ^ 32 ->
  exists n, len = PGSIZE * Z.of_nat (S n) /\ mappages pgdir va len pa perm = mappages_loop pgdir va (va + PGSIZE * Z.of_nat n) pa perm n.
Proof.
  intros Hva Hval Hsz Hszl Hlim. unfold mappages. set (n := Z.to_nat (len / PGSIZE - 1)). exists n.
  assert (Hn : len = PGSIZE * Z.of_nat (S n)) by (unfold n, PGSIZE in *; Z.div_mod_to_equations; lia). split; [done|].
  assert (PGROUNDDOWN va = va) as -> by (rewrite PGROUNDDOWN_spec by (unfold PGSIZE in *; lia); lia).
  rewrite (u32_small (va + len - 1)) by lia. rewrite PGROUNDDOWN_spec by lia.
  replace (va + len - 1 - (va + len - 1) mod PGSIZE) with (va + PGSIZE * Z.of_nat n) by (unfold PGSIZE in *; Z.div_mod_to_equations; lia).
  replace (va + PGSIZE * Z.of_nat n - va) with (PGSIZE * Z.of_nat n) by lia.
  rewrite u32_small by (unfold PGSIZE in *; lia).
  replace (PGSIZE * Z.of_nat n / PGSIZE) with (Z.of_nat n) by (unfold PGSIZE; Z.div_mod_to_equations; lia). by rewrite Nat2Z.id.
Qed.

Lemma mappages_run pgdir va len pa perm k tabs l :
  pt_ok k pgdir tabs -> free_pages k l -> pt_apart pgdir tabs l -> Lkmem ∉ held k ->
  0 <= va -> va mod PGSIZE = 0 -> 0 < len -> len mod PGSIZE = 0 -> va + len <= 2 ^ 32 -> 0 <= pa -> pa + len <= 2 ^ 32 ->
  (forall a, va <= a < va + len -> Z.land (pte_at k tabs a) PTE_P = 0) ->
  exists c r k' tabs' l', mappages pgdir va len pa perm k = Ret r k' /\
    grows pgdir k tabs l k' tabs' l' /\
    (PGSIZE * Z.of_nat c = len /\ r = 0 \/ PGSIZE * Z.of_nat c < len /\ r = -1 /\ l' = [] /\ (size tabs' < 1024)%nat) /\
    (forall a, 0 <= a < 2 ^ 32 -> pte_at k' tabs' a = mapped (pte_at k tabs) va pa perm c a).
Proof.
  intros Hpt Hf Hap Hh Hva Hval Hsz Hszl Hlim Hpa Hplim Hnp.
  destruct (mappages_pages pgdir va len pa perm Hva Hval Hsz Hszl Hlim) as (n & Hn & ->).
  destruct (mappages_loop_run pgdir perm n va pa k tabs l) as (c & r & k' & tabs' & l' & Hr & Hg & Hc & Hp); try done; [unfold PGSIZE in *; lia..| |].
  - intros a Ha. apply Hnp. lia.
  - exists c, r, k', tabs', l'. split_and!; [done|done| |done].
    destruct Hc as [[-> ->]|(? & -> & -> & ?)]; [left; lia|right]. split_and!; [unfold PGSIZE in *; lia|done..].
Qed.

(** ** What the processor sees *)

(** The processor's translation, from the entry of the page. *)
Lemma translate_pte k pgdir tabs va : pt_ok k pgdir tabs ->
  translate (pmem k) (V2P pgdir) va =
    if Z.land (pte_at k tabs va) PTE_P =? 0 then None
    else Some (PTE_ADDR (pte_at k tabs va) + va mod PGSIZE, Z.land 7 (PTE_FLAGS (pte_at k tabs va))).
Proof.
  intros Hpt. unfold translate, pte_at. destruct (tabs !! PDX va) as [t|] eqn:Ht.
  - destruct (po_some _ _ _ Hpt _ _ Ht) as (_ & Hok & _ & ->). destruct (tab_entry k t Hok) as (-> & -> & ->). done.
  - by rewrite (po_none _ _ _ Hpt _ (PDX_range va) Ht).
Qed.

(** The access bits granted by an entry with permissions [perm]. *)
Definition granted (perm : Z) : Z := Z.land 7 (Z.lor perm PTE_P).

Lemma perm_low perm : 0 <= perm < PGSIZE -> 0 <= Z.lor perm PTE_P < PGSIZE /\ Z.land (Z.lor perm PTE_P) PTE_P = 1.
Proof.
  intros Hp. unfold PTE_P, PGSIZE in *. split.
  - split; [apply Z.lor_nonneg; lia|]. destruct (Z.eq_dec (Z.lor perm 1) 0) as [->|Hne]; [lia|].
    apply (Z.log2_lt_pow2 _ 12); [assert (0 <= Z.lor perm 1) by (apply Z.lor_nonneg; lia); lia|].
    rewrite Z.log2_lor by lia. apply Z.max_lub_lt; [|cbn; lia].
    destruct (Z.eq_dec perm 0) as [->|]; [cbn; lia|]. apply Z.log2_lt_pow2; lia.
  - rewrite Z.land_lor_distr_l. change (Z.land 1 1) with (Z.ones 1). change 1 with (Z.ones 1) at 1. rewrite Z.land_ones by lia.
    change (2 ^ 1) with 2. assert (perm mod 2 = 0 \/ perm mod 2 = 1) as [-> | ->] by (Z.div_mod_to_equations; lia); done.
Qed.

Lemma entry_translate x perm : 0 <= x < 2 ^ 32 -> x mod PGSIZE = 0 -> 0 <= perm < PGSIZE ->
  (Z.land (Z.lor x (Z.lor perm PTE_P)) PTE_P =? 0) = false /\ PTE_ADDR (Z.lor x (Z.lor perm PTE_P)) = x /\
  Z.land 7 (PTE_FLAGS (Z.lor x (Z.lor perm PTE_P))) = granted perm.
Proof.
  intros Hx Hm Hp. destruct (perm_low perm Hp) as [Hl Hb]. destruct (entry_parts x _ Hx Hm Hl) as [-> ->]. split_and!; [|done|done].
  apply Z.eqb_neq. rewrite Z.land_lor_distr_l, Hb. intros E. apply Z.lor_eq_0_iff in E as [_ ?]. done.
Qed.

Lemma translate_mapped k k' pgdir tabs tabs' va pa perm len c a :
  pt_ok k pgdir tabs -> pt_ok k' pgdir tabs' -> va mod PGSIZE = 0 -> pa mod PGSIZE = 0 -> 0 <= perm < PGSIZE ->
  PGSIZE * Z.of_nat c = len -> 0 <= pa -> pa + len <= 2 ^ 32 ->
  pte_at k' tabs' a = mapped (pte_at k tabs) va pa perm c a ->
  translate (pmem k') (V2P pgdir) a =
    if decide (va <= a < va + len) then Some (pa + (a - va), granted perm) else translate (pmem k) (V2P pgdir) a.
Proof.
  intros Hpt Hpt' Hva Hpa Hperm Hlen H0 Hlim E. rewrite (translate_pte k' pgdir tabs') by done. rewrite E. unfold mapped.
  rewrite Hlen. case_decide as Hr; [|by rewrite (translate_pte k pgdir tabs)].
  destruct (entry_translate (pa + PGSIZE * ((a - va) / PGSIZE)) perm) as (-> & -> & ->); [..|done|].
  - unfold PGSIZE in *. change (2 ^ 32) with 4294967296 in *. Z.div_mod_to_equations. lia.
  - unfold PGSIZE in *. Z.div_mod_to_equations. lia.
  - do 2 f_equal. unfold PGSIZE in *. Z.div_mod_to_equations. lia.
Qed.

(** The pages of a range that need not start or end on a page boundary. *)
Definition range_lo (va : Z) : Z := va - va mod PGSIZE.
Definition range_hi (va len : Z) : Z := range_lo (va + len - 1) + PGSIZE.

Lemma range_aligned va len : 0 <= va -> 0 < len -> va + len <= 2 ^ 32 ->
  0 <= range_lo va /\ range_lo va mod PGSIZE = 0 /\ range_lo va <= va /\ va + len <= range_hi va len <= 2 ^ 32 /\
  0 < range_hi va len - range_lo va /\ (range_hi va len - range_lo va) mod PGSIZE = 0.
Proof.
  intros Hva Hlen Hlim. unfold range_hi, range_lo, PGSIZE. change (2 ^ 32) with (4096 * 1048576) in *. split_and!; Z.div_mod_to_equations; lia.
Qed.

(** [mappages] rounds the range to whole pages. *)
Lemma mappages_round pgdir va len pa perm : 0 <= va -> 0 < len -> va + len <= 2 ^ 32 ->
  mappages pgdir va len pa perm = mappages pgdir (range_lo va) (range_hi va len - range_lo va) pa perm.
Proof.
  intros Hva Hlen Hlim. destruct (range_aligned va len Hva Hlen Hlim) as (R1 & R2 & R3 & [R4 R5] & R6 & R7).
  unfold mappages. replace (range_lo va + (range_hi va len - range_lo va) - 1) with (range_hi va len - 1) by lia.
  assert (PGSIZE = 4096) by done. rewrite (u32_small (va + len - 1)), (u32_small (range_hi va len - 1)) by lia.
  rewrite (PGROUNDDOWN_spec va), (PGROUNDDOWN_spec (range_lo va)), (PGROUNDDOWN_spec (va + len - 1)), (PGROUNDDOWN_spec (range_hi va len - 1)) by lia.
  replace (range_lo va - range_lo va mod PGSIZE) with (va - va mod PGSIZE) by (unfold range_lo in *; lia).
  assert ((range_hi va len - 1) mod PGSIZE = PGSIZE - 1) as ->.
  { replace (range_hi va len - 1) with (PGSIZE - 1 + (va + len - 1) / PGSIZE * PGSIZE); [by rewrite Z.mod_add|]. unfold range_hi, range_lo, PGSIZE. Z.div_mod_to_equations. lia. }
  replace (range_hi va len - 1 - (PGSIZE - 1)) with (va + len - 1 - (va + len - 1) mod PGSIZE) by (unfold range_hi, range_lo; lia). done.
Qed.

(** A page that is mapped already. *)
Lemma mappages_loop_present pgdir perm n a last pa k tabs : pt_ok k pgdir tabs -> Z.land (pte_at k tabs a) PTE_P <> 0 ->
  mappages_loop pgdir a last pa perm n k = Panic "remap" k.
Proof.
  intros Hpt Hpa. destruct (tabs !! PDX a) as [t|] eqn:Ht; [|exfalso; apply Hpa; unfold pte_at; by rewrite Ht].
  destruct (po_some _ _ _ Hpt _ _ Ht) as (_ & Hok & _ & _).
  assert (E : forall f : Z -> K Z, bind (walkpgdir pgdir a 1) f k = f (t + 4 * PTX a) k) by (intros f; erewrite bind_run; [done|by eapply walk_hit]).
  assert (Hne : (t + 4 * PTX a =? 0) = false) by (apply Z.eqb_neq; destruct Hok as (_ & _ & ? & _); pose proof (PTX_range a); unfold KERNBASE in *; lia).
  assert (Hp : word (pmem k) (V2P t + 4 * PTX a) = pte_at k tabs a) by (unfold pte_at; by rewrite Ht).
  destruct n; cbn [mappages_loop]; rewrite E, Hne; run (kread_page k t (PTX a) Hok (PTX_range a)); rewrite Hp; by rewrite (proj2 (Z.eqb_neq _ _) Hpa).
Qed.

(** The same within the range. *)
Lemma mappages_loop_remap pgdir perm n : forall a pa k tabs l va,
  pt_ok k pgdir tabs -> free_pages k l -> pt_apart pgdir tabs l -> Lkmem ∉ held k ->
  0 <= a -> a mod PGSIZE = 0 -> a + PGSIZE * Z.of_nat n < 2 ^ 32 ->
  a <= va < a + PGSIZE * Z.of_nat (S n) -> va < 2 ^ 32 -> Z.land (pte_at k tabs va) PTE_P <> 0 -> exists k',
    mappages_loop pgdir a (a + PGSIZE * Z.of_nat n) pa perm n k = Panic "remap" k' \/
    mappages_loop pgdir a (a + PGSIZE * Z.of_nat n) pa perm n k = Ret (-1) k' /\ free_pages k' [].
Proof.
  induction n as [|n IH]; intros a pa k tabs l va Hpt Hf Hap Hh Ha Hal Hlim Hva H32 Hp.
  all: destruct (decide (Z.land (pte_at k tabs a) PTE_P = 0)) as [Hnp|Hpa]; [|exists k; left; by eapply mappages_loop_present].
  - exfalso. apply Hp. rewrite <- Hnp. f_equal. apply pte_page; [lia|unfold PGSIZE in *; lia|]. unfold PGSIZE in *. Z.div_mod_to_equations. lia.
  - destruct (grows_map pgdir k tabs l a (Z.lor pa (Z.lor perm PTE_P)) Hpt Hf Hap Hh ltac:(unfold PGSIZE in *; lia) Hnp) as
      [(-> & Ht & Hr)|(t & k1 & k2 & tabs' & l' & Hr & Hne & Hrd & Hwr & [G1 G2 G3 G4 G5 G6 G7 G8 G9] & Hpte)]; cbn [mappages_loop]; run Hr; [by exists k; right|].
    rewrite (proj2 (Z.eqb_neq _ _) Hne). run Hrd. rewrite Hnp. cbn [negb Z.eqb]. run Hwr.
    rewrite (proj2 (Z.eqb_neq _ _)) by (unfold PGSIZE; lia). rewrite (u32_small (a + PGSIZE)) by (unfold PGSIZE in *; lia).
    replace (a + PGSIZE * Z.of_nat (S n)) with (a + PGSIZE + PGSIZE * Z.of_nat n) by lia.
    assert (va / PGSIZE <> a / PGSIZE) by (intros E; apply Hp; rewrite <- Hnp; f_equal; apply pte_page; [lia|unfold PGSIZE in *; lia|done]).
    eapply (IH (a + PGSIZE) _ k2 tabs' l' va); try done; [by rewrite (vm_frame_held _ _ G1)|unfold PGSIZE; lia|unfold PGSIZE in *; Z.div_mod_to_equations; lia|unfold PGSIZE in *; lia|unfold PGSIZE in *; Z.div_mod_to_equations; lia|].
    rewrite Hpte by (unfold PGSIZE in *; lia). by rewrite decide_False.
Qed.

Lemma mappages_remap pgdir lo len pa perm k tabs l a :
  pt_ok k pgdir tabs -> free_pages k l -> pt_apart pgdir tabs l -> Lkmem ∉ held k ->
  0 <= lo -> lo mod PGSIZE = 0 -> 0 < len -> len mod PGSIZE = 0 -> lo + len <= 2 ^ 32 ->
  lo <= a < lo + len -> Z.land (pte_at k tabs a) PTE_P <> 0 -> exists k',
    mappages pgdir lo len pa perm k = Panic "remap" k' \/ mappages pgdir lo len pa perm k = Ret (-1) k' /\ free_pages k' [].
Proof.
  intros Hpt Hf Hap Hh Hlo Hal Hlen Hlal Hlim Ha Hp. destruct (mappages_pages pgdir lo len pa perm Hlo Hal Hlen Hlal Hlim) as (n & Hn & E).
  rewrite E. eapply (mappages_loop_remap pgdir perm n lo pa k tabs l a); try done; unfold PGSIZE in *; lia.
Qed.

(** C19: [mappages] extends the processor's translation by exactly the pages of the
    requested range, from the page that holds [va] to the one that holds its last
    byte; neither [va] nor [len] need be page-aligned.  Given a page-aligned [pa], a
    range that ends below 4G and no page of it mapped so far, it either maps all of
    them, to consecutive physical pages from [pa] on with the given permissions, and
    returns 0, or runs out of pages for the page tables, having mapped only the first
    [c] of them, and returns -1; either way every other address is translated as
    before.  It maps all of them if there were enough free pages for every possible
    page table.  If a page of the range is mapped already, it panics or runs out of
    pages. *)
Theorem mappages_maps pgdir va len pa perm k tabs l :
  pt_ok k pgdir tabs -> free_pages k l -> pt_apart pgdir tabs l -> Lkmem ∉ held k ->
  0 <= va -> 0 < len -> va + len <= 2 ^ 32 ->
  let lo := range_lo va in let hi := range_hi va len in
  0 <= pa -> pa mod PGSIZE = 0 -> pa + (hi - lo) <= 2 ^ 32 -> 0 <= perm < PGSIZE ->
  ((forall a, lo <= a < hi -> translate (pmem k) (V2P pgdir) a = None) ->
    exists r k' c, mappages pgdir va len pa perm k = Ret r k' /\
      (r = 0 /\ lo + PGSIZE * c = hi \/ r = -1 /\ 0 <= c /\ lo + PGSIZE * c < hi /\ free_pages k' []) /\
      (forall a, 0 <= a < 2 ^ 32 -> translate (pmem k') (V2P pgdir) a =
        if decide (lo <= a < lo + PGSIZE * c) then Some (pa + (a - lo), granted perm) else translate (pmem k) (V2P pgdir) a) /\
      ((1024 <= length l + size tabs)%nat -> r = 0)) /\
  (forall a, lo <= a < hi -> translate (pmem k) (V2P pgdir) a <> None ->
    exists k', mappages pgdir va len pa perm k = Panic "remap" k' \/ mappages pgdir va len pa perm k = Ret (-1) k' /\ free_pages k' []).
Proof.
  intros Hpt Hf Hap Hh Hva Hsz Hlim lo hi Hpa Hpal Hplim Hperm.
  destruct (range_aligned va len Hva Hsz Hlim) as (R1 & R2 & R3 & [R4 R5] & R6 & R7). subst lo hi.
  rewrite mappages_round by done. revert R1 R2 R3 R4 R5 R6 R7 Hplim. generalize (range_lo va), (range_hi va len). intros lo hi R1 R2 R3 R4 R5 R6 R7 Hplim. split.
  - intros Hnp. destruct (mappages_run pgdir lo (hi - lo) pa perm k tabs l) as (c & r & k' & tabs' & l' & Hr & Hg & Hc & Hp); try done; [lia| |].
    { intros a Ha. specialize (Hnp a ltac:(lia)). rewrite (translate_pte k pgdir tabs) in Hnp by done.
      destruct (Z.eqb_spec (Z.land (pte_at k tabs a) PTE_P) 0); done. }
    exists r, k', (Z.of_nat c). split_and!; [done| | |].
    + destruct Hc as [[Hc ->]|(? & -> & -> & _)]; [left; split; [done|lia]|right; split_and!; [done|lia|lia|apply Hg]].
    + intros a Ha. eapply (translate_mapped k k' pgdir tabs tabs' lo pa perm _ c); try done; [by apply Hg|lia|auto].
    + intros Hl. destruct Hc as [[_ ->]|(_ & -> & -> & Hs)]; [done|]. pose proof (gr_size _ _ _ _ _ _ _ Hg) as E. cbn in E. lia.
  - intros a Ha Hma. rewrite (translate_pte k pgdir tabs) in Hma by done.
    destruct (Z.eqb_spec (Z.land (pte_at k tabs a) PTE_P) 0) as [|Hp]; [done|]. eapply mappages_remap; try done; lia.
Qed.

(** ** The kernel's part of a page table *)

(** A cleared page is an empty page table. *)
Lemma pt_empty k p l :
  free_pages k (p :: l) -> Lkmem ∉ held k ->
  exists k1 k2, kalloc k = Ret p k1 /\ memset_page p 0 k1 = Ret tt k2 /\ vm_frame k k2 /\
    pt_ok k2 p ∅ /\ free_pages k2 l /\ pt_apart p ∅ l /\ p <> 0 /\ p ∉ l /\ page_ok k p /\
    (forall a, ~ in_page p a -> pmem k2 !! a = pmem k !! a).
Proof.
  intros Hf Hh. destruct (kalloc_pops k (p :: l) Hf Hh) as (k1 & Hr & Hk1 & Hf1 & Hp & Hpl).
  assert (Hp1 : page_ok k1 p) by (apply (page_ok_ext k); [by rewrite Hk1|done]). assert (Em : pmem k1 = pmem k) by (by rewrite Hk1).
  exists k1, (k1 <| pmem ::= fill_page (V2P p) 0 |>). split_and!; [done|by apply memset_page_run| | | | | |done|done|].
  - by apply vm_frame_pmem, vm_frame_freelist.
  - split; [done| |intros i t E; by rewrite lookup_empty in E|intros i j t E; by rewrite lookup_empty in E].
    intros i Hi _. cbn. rewrite (word_fill k1) by done. by rewrite decide_True.
  - eapply free_pages_ext; [exact Hf1|done|done|]. intros q Hq. cbn. apply fill_page_out.
    assert (Hqo : page_ok k1 q) by (eapply Forall_forall; [apply Hf1|done]).
    apply (pages_apart k1 q p); [done|done|by intros ->|]. unfold in_page, PGSIZE. lia.
  - intros q [->|[i E]]; [done|by rewrite lookup_empty in E].
  - destruct Hp as (_ & _ & ? & _). unfold KERNBASE in *. lia.
  - intros a Ha. cbn. rewrite fill_page_out by done. by rewrite Em.
Qed.

(** The kernel's image as the linker lays it out. *)
Definition data_ok (k : kernel) : Prop :=
  kernel_data k mod PGSIZE = 0 /\ KERNLINK < kernel_data k < KERNBASE + PHYSTOP /\ kernel_data k <= kernel_end k.

(** The kernel's mapping of [va]: the physical address and the access bits. *)
Definition kernel_map (data va : Z) : option (Z * Z) :=
  if decide (KERNBASE <= va < KERNBASE + PHYSTOP) then
    Some (va - KERNBASE, if decide (KERNLINK <= va < data) then 1 else 3)
  else if decide (DEVSPACE <= va) then Some (va, 3) else None.

(** Side conditions on the constants of the memory layout. *)
Ltac layout := unfold PTE_W, KERNBASE, KERNLINK, EXTMEM, PGSIZE, PHYSTOP, DEVSPACE in *; Z.div_mod_to_equations; lia.

(** A mapping step of [setupkvm]. *)
Lemma setupkvm_step d virt len ps perm k tabs l (f g : Z -> option (Z * Z)) :
  pt_ok k d tabs -> free_pages k l -> pt_apart d tabs l -> Lkmem ∉ held k -> (1024 <= length l + size tabs)%nat ->
  0 <= virt -> virt mod PGSIZE = 0 -> 0 < len -> len mod PGSIZE = 0 -> virt + len <= 2 ^ 32 ->
  0 <= ps -> ps mod PGSIZE = 0 -> ps + len <= 2 ^ 32 -> 0 <= perm < PGSIZE ->
  (forall a, 0 <= a < 2 ^ 32 -> translate (pmem k) (V2P d) a = f a) ->
  (forall a, virt <= a < virt + len -> f a = None) ->
  (forall a, 0 <= a < 2 ^ 32 -> g a = if decide (virt <= a < virt + len) then Some (ps + (a - virt), granted perm) else f a) ->
  exists k' tabs' l', (let! r := mappages d virt len ps perm in if r <? 0 then do! freevm d in ret (Some 0) else ret None) k = Ret None k' /\
    grows d k tabs l k' tabs' l' /\ (forall a, 0 <= a < 2 ^ 32 -> translate (pmem k') (V2P d) a = g a) /\
    (forall a, 0 <= a < virt -> pte_at k' tabs' a = pte_at k tabs a).
Proof.
  intros Hpt Hf Hap Hh Hl Hv Hvm Hs Hsm Hlim Hps Hpsm Hplim Hperm Ht Hnone Hg'.
  destruct (mappages_run d virt len ps perm k tabs l) as (c & r & k' & tabs' & l' & Hr & Hg & Hc & Hp); try done.
  { intros a Ha. specialize (Hnone a Ha). rewrite <- Ht, (translate_pte k d tabs) in Hnone by (done || lia).
    by destruct (Z.eqb_spec (Z.land (pte_at k tabs a) PTE_P) 0). }
  pose proof (gr_size _ _ _ _ _ _ _ Hg) as E. destruct Hc as [[Hc ->]|(_ & -> & -> & Hsz)]; [|cbn in E; lia].
  exists k', tabs', l'. split_and!; [by run Hr|done| |].
  - intros a Ha. rewrite Hg', <- Ht by done.
    eapply (translate_mapped k k' d tabs tabs' virt ps perm _ c); try done; [by apply Hg|auto].
  - intros a Ha. rewrite Hp by lia. unfold mapped. by rewrite decide_False by lia.
Qed.

Lemma pt_translate_empty k p a : pt_ok k p ∅ -> translate (pmem k) (V2P p) a = None.
Proof. intros Hpt. rewrite (translate_pte k p ∅) by done. unfold pte_at. by rewrite lookup_empty. Qed.

(** What [setupkvm] builds, in terms of the free list it takes its pages from. *)
Record fresh_space (k : kernel) (l : list Z) (d : Z) (k' : kernel) (tabs : gmap Z Z) (l' : list Z) : Prop := {
  fs_frame : vm_frame k k';
  fs_pt : pt_ok k' d tabs;
  fs_free : free_pages k' l';
  fs_apart : pt_apart d tabs l';
  fs_list : exists u, l = u ++ l';
  fs_pages : forall p, pt_page d tabs p -> p ∈ l;
  fs_size : (length l' + size tabs + 1 = length l)%nat;
  fs_mem : forall a, (forall p, p ∈ l -> ~ in_page p a) -> pmem k' !! a = pmem k !! a }.

Lemma fresh_grows k l d k1 tabs1 l1 k2 tabs2 l2 :
  fresh_space k l d k1 tabs1 l1 -> grows d k1 tabs1 l1 k2 tabs2 l2 -> fresh_space k l d k2 tabs2 l2.
Proof.
  intros [A1 A2 A3 A4 [u1 A5] A6 A7 A8] [B1 B2 B3 B4 [u2 B5] B6 B7 B8 B9]. split; try done.
  - by eapply vm_frame_trans.
  - exists (u1 ++ u2). by rewrite A5, B5, app_assoc.
  - intros p [Hp|Hp]%B6; [auto|]. rewrite A5. set_solver.
  - lia.
  - intros a Ha. rewrite B8; [by apply A8|]. intros p [Hp|Hp]%B6; apply Ha; [auto|]. rewrite A5. set_solver.
Qed.

Lemma setupkvm_run k l :
  free_pages k l -> Lkmem ∉ held k -> data_ok k -> (1025 <= length l)%nat ->
  exists d k' tabs l', setupkvm k = Ret d k' /\ d <> 0 /\ fresh_space k l d k' tabs l' /\
    (forall a, 0 <= a < 2 ^ 32 -> translate (pmem k') (V2P d) a = kernel_map (kernel_data k) a) /\
    (forall a, 0 <= a < KERNBASE -> pte_at k' tabs a = 0).
Proof.
  intros Hf Hh (Hdm & Hdr & _) Hlen. destruct l as [|d l]; [cbn in Hlen; lia|].
  destruct (pt_empty k d l Hf Hh) as (k1 & k2 & Hr1 & Hr2 & Hfr2 & Hpt2 & Hf2 & Hap2 & Hd0 & Hdl & Hdok & Hm2).
  assert (Hfs2 : fresh_space k (d :: l) d k2 ∅ l).
  { split; try done; [by exists [d]| | |].
    - intros p [->|[i E]]; [by left|by rewrite lookup_empty in E].
    - rewrite map_size_empty. cbn. lia.
    - intros a Ha. apply Hm2, Ha. by left. }
  unfold setupkvm. run Hr1. rewrite (proj2 (Z.eqb_neq _ _) Hd0). run Hr2.
  change (DEVSPACE <? P2V PHYSTOP) with false. cbn [when]. change (bind (ret tt) ?f k2) with (f tt k2). cbv beta.
  rewrite bind_gets. assert (Ed : kernel_data k2 = kernel_data k) by (by rewrite Hfr2). rewrite Ed.
  set (data := kernel_data k) in *. unfold kmap. cbn [first_of].
  assert (Hdv : V2P data = data - KERNBASE) by (apply V2P_small; unfold KERNLINK, KERNBASE, EXTMEM in *; lia). rewrite Hdv.
  change (V2P KERNLINK) with EXTMEM. change (u32 (EXTMEM - 0)) with EXTMEM. change (u32 (0 - DEVSPACE)) with (2 ^ 32 - DEVSPACE).
  assert (Hu : u32 (data - KERNBASE - EXTMEM) = data - KERNLINK /\ u32 (PHYSTOP - (data - KERNBASE)) = KERNBASE + PHYSTOP - data).
  { unfold KERNLINK, KERNBASE, EXTMEM, PHYSTOP in *. rewrite !u32_small; lia. }
  destruct Hu as [Hu1 Hu2]. rewrite Hu1, Hu2.
  assert (Hnext : forall k3 tabs3 l3, fresh_space k (d :: l) d k3 tabs3 l3 -> Lkmem ∉ held k3 /\ (1024 <= length l3 + size tabs3)%nat).
  { intros k3 tabs3 l3 [F1 _ _ _ _ _ F7 _]. split; [by rewrite (vm_frame_held _ _ F1)|]. cbn in *. lia. }
  destruct (Hnext _ _ _ Hfs2) as [Hh2 Hl2].
  set (f1 := fun a => if decide (KERNBASE <= a < KERNLINK) then Some (a - KERNBASE, 3) else None).
  set (f2 := fun a => if decide (KERNBASE <= a < data) then Some (a - KERNBASE, if decide (KERNLINK <= a < data) then 1 else 3) else None).
  set (f3 := fun a => if decide (KERNBASE <= a < KERNBASE + PHYSTOP) then Some (a - KERNBASE, if decide (KERNLINK <= a < data) then 1 else 3) else None).
  change KERNLINK with (KERNBASE + EXTMEM) in *.
  clear Hr1 Hr2 Hf.
  destruct (setupkvm_step d KERNBASE EXTMEM 0 PTE_W k2 ∅ l (fun _ => None) f1) as (k3 & t3 & l3 & Hr3 & Hg3 & Ht3 & He3);
    try assumption; try (clear -Hdm Hdr; layout).
  { intros a _. by apply pt_translate_empty. } { reflexivity. }
  { intros a Ha. unfold f1, granted, PTE_P, PTE_W. change (Z.land 7 (Z.lor 2 1)) with 3.
    unfold KERNBASE, EXTMEM in *. repeat case_decide; try lia; do 2 f_equal; lia. }
  pose proof (fresh_grows _ _ _ _ _ _ _ _ _ Hfs2 Hg3) as Hfs3. destruct (Hnext _ _ _ Hfs3) as [Hh3 Hl3].
  destruct (setupkvm_step d (KERNBASE + EXTMEM) (data - (KERNBASE + EXTMEM)) EXTMEM 0 k3 t3 l3 f1 f2) as (k4 & t4 & l4 & Hr4 & Hg4 & Ht4 & He4);
    try assumption; try (clear -Hdm Hdr; layout); try apply Hfs3.
  { intros a Ha. unfold f1. rewrite decide_False by lia. reflexivity. }
  { intros a Ha. unfold f1, f2, granted, PTE_P. change (Z.land 7 (Z.lor 0 1)) with 1. unfold KERNBASE, EXTMEM in *. repeat case_decide; try lia; do 2 f_equal; lia. }
  pose proof (fresh_grows _ _ _ _ _ _ _ _ _ Hfs3 Hg4) as Hfs4. destruct (Hnext _ _ _ Hfs4) as [Hh4 Hl4].
  destruct (setupkvm_step d data (KERNBASE + PHYSTOP - data) (data - KERNBASE) PTE_W k4 t4 l4 f2 f3) as (k5 & t5 & l5 & Hr5 & Hg5 & Ht5 & He5);
    try assumption; try (clear -Hdm Hdr; layout); try apply Hfs4.
  { intros a Ha. unfold f2. rewrite decide_False by lia. reflexivity. }
  { intros a Ha. unfold f2, f3, granted, PTE_P, PTE_W. change (Z.land 7 (Z.lor 2 1)) with 3.
    unfold KERNBASE, EXTMEM in *. repeat case_decide; try lia; do 2 f_equal; lia. }
  pose proof (fresh_grows _ _ _ _ _ _ _ _ _ Hfs4 Hg5) as Hfs5. destruct (Hnext _ _ _ Hfs5) as [Hh5 Hl5].
  destruct (setupkvm_step d DEVSPACE (2 ^ 32 - DEVSPACE) DEVSPACE PTE_W k5 t5 l5 f3 (kernel_map data)) as (k6 & t6 & l6 & Hr6 & Hg6 & Ht6 & He6);
    try assumption; try (clear -Hdm Hdr; layout); try apply Hfs5.
  { intros a Ha. unfold f3. rewrite decide_False; [reflexivity|]. unfold KERNBASE, PHYSTOP, DEVSPACE in *. lia. }
  { intros a Ha. unfold f3, kernel_map, granted, PTE_P, PTE_W. change (Z.land 7 (Z.lor 2 1)) with 3. change KERNLINK with (KERNBASE + EXTMEM).
    unfold KERNBASE, EXTMEM, PHYSTOP, DEVSPACE in *. repeat case_decide; try lia; do 2 f_equal; lia. }
  exists d, k6, t6, l6. split_and!; [|done|by eapply fresh_grows|done|].
  2: { intros a Ha. rewrite He6, He5, He4, He3 by (unfold KERNBASE, EXTMEM, DEVSPACE in *; lia). unfold pte_at. by rewrite lookup_empty. }
  erewrite bind_run with (a := None) (s' := k6); [done|]. run Hr3. run Hr4. run Hr5. run Hr6. done.
Qed.

(** ** Copying an address space *)

Definition ref_up (b : shm_block) : shm_block := b <| sb_ref ::= fun n => n + 1 |>.

(** One more mapping of the shared page at [pa]. *)
Definition bump_ref (l : list shm_block) (pa : Z) : list shm_block :=
  match shm_find pa l with Some i => alter ref_up i l | None => l end.

Lemma ref_up_pa (l : list shm_block) i : sb_pa <$> alter ref_up i l = sb_pa <$> l.
Proof.
  apply list_eq. intros j. rewrite !list_lookup_fmap. destruct (decide (i = j)) as [<-|Hne].
  - rewrite list_lookup_alter_eq. by destruct (l !! i).
  - by rewrite list_lookup_alter_ne.
Qed.

Lemma shm_find_ext (l l' : list shm_block) pa : sb_pa <$> l = sb_pa <$> l' -> shm_find pa l = shm_find pa l'.
Proof.
  unfold shm_find. revert l'. generalize SHM_MAXNUM. intros n. revert n.
  induction l as [|b l IH]; intros n [|b' l'] E; try done. injection E as Eb El.
  destruct n as [|n]; [done|]. cbn [take list_find]. rewrite Eb. destruct (decide (sb_pa b' = pa)); [done|].
  specialize (IH n l' El). destruct (list_find _ (take n l)) as [[i x]|], (list_find _ (take n l')) as [[i' x']|]; cbn in *; congruence.
Qed.

Lemma bump_ref_pa (l : list shm_block) pa : sb_pa <$> bump_ref l pa = sb_pa <$> l.
Proof. unfold bump_ref. destruct (shm_find pa l); [apply ref_up_pa|done]. Qed.

Lemma bump_refs_pa (l : list shm_block) pas : sb_pa <$> foldl bump_ref l pas = sb_pa <$> l.
Proof. revert l. induction pas as [|pa pas IH]; intros l; [done|]. cbn [foldl]. by rewrite IH, bump_ref_pa. Qed.

Lemma shm_find_lookup l pa i : shm_find pa l = Some i -> exists b, l !! i = Some b /\ sb_pa b = pa.
Proof.
  unfold shm_find. intros ([j b] & (Hb & E & _)%list_find_Some & ->)%fmap_Some. exists b.
  split; [|done]. by apply lookup_take_Some in Hb as [? _].
Qed.

(** Only memory, the free list and the shared-memory table differ. *)
Definition cp_frame (k k' : kernel) : Prop :=
  k' = k <| freelist := freelist k' |> <| pmem := pmem k' |> <| shm_mems := shm_mems k' |>.

Lemma cp_vm_frame k1 k2 k3 : cp_frame k1 k2 -> vm_frame k2 k3 -> cp_frame k1 k3.
Proof. unfold cp_frame, vm_frame. intros E1 E2. rewrite E2, E1. by kernel_eq. Qed.

Section copy.
Context (k0 : kernel) (pgdir : Z) (ptabs : gmap Z Z) (l0 : list Z) (sz0 : Z).

(** The parent's entry and the physical page of its present pages. *)
Abbreviation pte0 := (pte_at k0 ptabs).
Definition present (va : Z) : Prop := Z.land (pte0 va) PTE_P <> 0.
Definition shared (va : Z) : bool := if shm_find (PTE_ADDR (pte0 va)) (shm_mems k0) then true else false.

(** The parent: its pages are allocated, and there is a page table for each. *)
Record parent_ok : Prop := {
  pa_pt : pt_ok k0 pgdir ptabs;
  pa_free : free_pages k0 l0;
  pa_apart : pt_apart pgdir ptabs l0;
  pa_held : Lkmem ∉ held k0;
  pa_data : data_ok k0;
  pa_size : 0 <= sz0 <= KERNBASE;
  pa_tabs : forall va, 0 <= va < sz0 -> is_Some (ptabs !! PDX va);
  pa_user : forall va, 0 <= va < sz0 -> present va ->
    0 <= pte0 va < 2 ^ 32 /\ page_ok k0 (P2V (PTE_ADDR (pte0 va))) /\ P2V (PTE_ADDR (pte0 va)) ∉ l0 }.

Definition shared_pages (c : Z) : list Z :=
  omap (fun j => if decide (present (PGSIZE * j)) then if shared (PGSIZE * j) then Some (PTE_ADDR (pte0 (PGSIZE * j))) else None else None)
    (seqZ 0 c).

(** The child after [c] pages; [um] are the private pages made so far. *)
Record child (d : Z) (c : Z) (k : kernel) (tabs : gmap Z Z) (l : list Z) (um : gmap Z Z) : Prop := {
  ch_frame : cp_frame k0 k;
  ch_pt : pt_ok k d tabs;
  ch_free : free_pages k l;
  ch_apart : pt_apart d tabs l;
  ch_list : exists u, l0 = u ++ l;
  ch_pages : forall p, pt_page d tabs p -> p ∈ l0;
  ch_size : (length l + size tabs + 1 + size um = length l0)%nat;
  ch_mem : forall a, (forall p, p ∈ l0 -> ~ in_page p a) -> pmem k !! a = pmem k0 !! a;
  ch_um : forall j m, um !! j = Some m -> 0 <= j < c /\ m ∈ l0 /\ m ∉ l /\ ~ pt_page d tabs m /\ page_ok k0 m /\
    (forall i, 0 <= i < 1024 -> word (pmem k) (V2P m + 4 * i) = word (pmem k0) (PTE_ADDR (pte0 (PGSIZE * j)) + 4 * i));
  ch_inj : forall i j m, um !! i = Some m -> um !! j = Some m -> i = j;
  ch_pte : forall va, 0 <= va < KERNBASE -> pte_at k tabs va =
    if decide (va < PGSIZE * c) then
      match um !! (va / PGSIZE) with
      | Some m => Z.lor (V2P m) (PTE_FLAGS (pte0 va))
      | None => if decide (present va) then pte0 va else 0
      end
    else 0;
  ch_shared : forall j, 0 <= j < c -> is_Some (um !! j) <-> present (PGSIZE * j) /\ shared (PGSIZE * j) = false;
  ch_shm : shm_mems k = foldl bump_ref (shm_mems k0) (shared_pages c);
  ch_kern : forall a, KERNBASE <= a < 2 ^ 32 -> translate (pmem k) (V2P d) a = kernel_map (kernel_data k0) a }.

(** ** Lemmas for one page *)

Lemma pt_ok_ext k k' d tabs : pt_ok k d tabs -> kernel_end k' = kernel_end k ->
  (forall p i, pt_page d tabs p -> page_ok k p -> 0 <= i < 1024 -> word (pmem k') (V2P p + 4 * i) = word (pmem k) (V2P p + 4 * i)) ->
  pt_ok k' d tabs /\ forall va, pte_at k' tabs va = pte_at k tabs va.
Proof.
  intros [P1 P2 P3 P4] Ee Hw. assert (Hpo : forall p, page_ok k p -> page_ok k' p) by (intros p; by apply page_ok_ext).
  split; [split; [auto| | |done]|].
  - intros i Hi Hn. rewrite Hw by (done || by left). auto.
  - intros i t Ht. destruct (P3 i t Ht) as (? & ? & ? & E). split_and!; [lia..|auto|done|]. rewrite Hw by (done || by left). done.
  - intros va. unfold pte_at. destruct (tabs !! PDX va) as [t|] eqn:Ht; [|done].
    destruct (P3 _ t Ht) as (_ & ? & _). apply Hw; [right; eauto|done|apply PTX_range].
Qed.

Lemma word_eq m m' a : m' !! a = m !! a -> word m' a = word m a.
Proof. unfold word. by intros ->. Qed.

Lemma copy_page_out k p src m a : page_ok k p -> ~ in_page p a -> copy_page (V2P p) src m !! a = m !! a.
Proof.
  intros Hp Ha. unfold copy_page. assert (Hi : forall i, i ∈ seqZ 0 1024 -> 0 <= i < 1024) by (intros i Hi%elem_of_seqZ; lia).
  revert Hi. generalize (seqZ 0 1024). intros s Hi. induction s as [|i s IH]; [done|]. cbn [foldr].
  rewrite lookup_insert_ne; [apply IH; intros; apply Hi; by right|]. intros <-. apply Ha, (word_in_page k); [done|]. apply Hi. by left.
Qed.

Lemma copy_page_in p src m i : 0 <= i < 1024 -> word (copy_page p src m) (p + 4 * i) = word m (src + 4 * i).
Proof.
  intros Hi. unfold copy_page. assert (Hin : i ∈ seqZ 0 1024) by (apply elem_of_seqZ; lia).
  revert Hin. generalize (seqZ 0 1024). intros s. induction s as [|j s IH]; intros Hin; [by apply elem_of_nil in Hin|]. cbn [foldr].
  rewrite word_insert. case_decide as E; [do 2 f_equal; lia|]. apply IH. apply elem_of_cons in Hin as [->|]; done.
Qed.

Lemma entry_rebuild e : 0 <= e < 2 ^ 32 -> Z.land e PTE_P <> 0 ->
  Z.lor (PTE_FLAGS e) PTE_P = PTE_FLAGS e /\ Z.lor (PTE_ADDR e) (PTE_FLAGS e) = e.
Proof.
  intros He Hp. split.
  - rewrite present_spec in Hp. rewrite PTE_FLAGS_spec. set (x := e mod PGSIZE).
    assert (Hx : x = 2 * (x / 2) + 1) by (unfold x, PGSIZE in *; Z.div_mod_to_equations; lia).
    apply Z.bits_inj'. intros n Hn. unfold PTE_P. rewrite Z.lor_spec. destruct (Z.eq_dec n 0) as [->|].
    + rewrite Hx, Z.testbit_odd_0. done.
    + change 1 with (2 ^ 0). rewrite Z.pow2_bits_false by lia. apply orb_false_r.
  - rewrite PTE_ADDR_spec, PTE_FLAGS_spec by done. rewrite lor_low; [lia| |unfold PGSIZE; apply Z.mod_pos_bound; lia].
    unfold PGSIZE. Z.div_mod_to_equations. lia.
Qed.

Lemma seqZ_succ c : 0 <= c -> seqZ 0 (c + 1) = seqZ 0 c ++ [c].
Proof. intros Hc. by rewrite seqZ_app, Z.add_0_l by lia. Qed.

Lemma word_other_page k p m i : page_ok k p -> page_ok k m -> p <> m -> 0 <= i < 1024 -> ~ in_page p (V2P m + 4 * i).
Proof. intros Hp Hm Hne Hi Hin. eapply (pages_apart k p m); [done..|exact Hin|by apply (word_in_page k)]. Qed.

Lemma pt_size_le k p ts : pt_ok k p ts -> (size ts <= 1024)%nat.
Proof.
  intros Hpt. rewrite <- size_dom. assert (Hs : dom ts ⊆ list_to_set (seqZ 0 1024)).
  { intros i [t Ht]%elem_of_dom. destruct (po_some _ _ _ Hpt _ _ Ht) as (Hi & _). rewrite elem_of_list_to_set, elem_of_seqZ. lia. }
  apply subseteq_size in Hs. by rewrite size_list_to_set, length_seqZ in Hs by apply NoDup_seqZ.
Qed.

Lemma is_shm_run pa k : is_shm pa k = Ret (match shm_find pa (shm_mems k) with Some _ => pa | None => 0 end) k.
Proof. done. Qed.
Lemma shm_index_run pa k : shm_index pa k = Ret (default 0%nat (shm_find pa (shm_mems k))) k.
Proof. done. Qed.

Section copy_step.
Context (Hpar : parent_ok).
Context (d c : Z) (k : kernel) (tabs : gmap Z Z) (l : list Z) (um : gmap Z Z).
Context (Hch : child d c k tabs l um) (Hc : 0 <= c) (Hsz : PGSIZE * c < sz0).

(** Pages that were not free are as they were. *)
Lemma old_page p i : page_ok k0 p -> p ∉ l0 -> 0 <= i < 1024 -> word (pmem k) (V2P p + 4 * i) = word (pmem k0) (V2P p + 4 * i).
Proof.
  intros Hp Hl Hi. apply word_eq, (ch_mem _ _ _ _ _ _ Hch). intros q Hq.
  assert (Hqo : page_ok k0 q) by (eapply Forall_forall; [apply Hpar|done]).
  apply (pages_apart k0 p q); [done|done|by intros ->|by apply (word_in_page k0)].
Qed.

Lemma parent_kept : pt_ok k pgdir ptabs /\ forall va, pte_at k ptabs va = pte0 va.
Proof.
  apply (pt_ok_ext k0); [apply Hpar|by rewrite (ch_frame _ _ _ _ _ _ Hch)|].
  intros p i Hp Hpo Hi. apply old_page; [done| |done]. by apply (pa_apart Hpar).
Qed.

Lemma um_none : um !! c = None.
Proof. destruct (um !! c) as [m|] eqn:E; [|done]. apply (ch_um _ _ _ _ _ _ Hch) in E as (? & _). lia. Qed.

Lemma um_size : (Z.of_nat (size um) <= c).
Proof.
  rewrite <- size_dom. assert (Hs : dom um ⊆ list_to_set (seqZ 0 c)).
  { intros i [m Hm]%elem_of_dom. apply (ch_um _ _ _ _ _ _ Hch) in Hm as (? & _). rewrite elem_of_list_to_set, elem_of_seqZ. lia. }
  apply subseteq_size in Hs. rewrite size_list_to_set, length_seqZ in Hs by apply NoDup_seqZ. lia.
Qed.

Lemma shm_same pa : shm_find pa (shm_mems k) = shm_find pa (shm_mems k0).
Proof. apply shm_find_ext. rewrite (ch_shm _ _ _ _ _ _ Hch). apply bump_refs_pa. Qed.

Lemma new_page va : 0 <= va < 2 ^ 32 -> (va / PGSIZE = c <-> PGSIZE * c <= va < PGSIZE * (c + 1)).
Proof. intros Hva. unfold PGSIZE. Z.div_mod_to_equations. lia. Qed.

Abbreviation va := (PGSIZE * c).

Lemma va_range : 0 <= va < 2 ^ 32 /\ va < KERNBASE /\ va mod PGSIZE = 0.
Proof.
  pose proof (pa_size Hpar). unfold KERNBASE, PGSIZE in *. split_and!; [lia|lia|lia|]. rewrite Z.mul_comm. by apply Z.mod_mul.
Qed.

Lemma child_va : pte_at k tabs va = 0.
Proof. pose proof va_range. rewrite (ch_pte _ _ _ _ _ _ Hch) by lia. by rewrite decide_False by lia. Qed.

(** The new child's entries once page [c] has its entry [e]. *)
Lemma extend_pte k' tabs' (um' : gmap Z Z) e :
  (forall j, j <> c -> um' !! j = um !! j) ->
  e = match um' !! c with Some m => Z.lor (V2P m) (PTE_FLAGS (pte0 va)) | None => if decide (present va) then pte0 va else 0 end ->
  (forall a, 0 <= a < 2 ^ 32 -> pte_at k' tabs' a = if decide (a / PGSIZE = c) then e else pte_at k tabs a) ->
  forall a, 0 <= a < KERNBASE -> pte_at k' tabs' a =
    if decide (a < PGSIZE * (c + 1)) then
      match um' !! (a / PGSIZE) with
      | Some m => Z.lor (V2P m) (PTE_FLAGS (pte0 a))
      | None => if decide (present a) then pte0 a else 0
      end
    else 0.
Proof.
  intros Hum He Hp a Ha. assert (Ha32 : 0 <= a < 2 ^ 32) by (unfold KERNBASE in *; lia). rewrite Hp by done.
  pose proof (new_page a Ha32) as Hn. pose proof va_range as (Hv & _). destruct (decide (a / PGSIZE = c)) as [E|E].
  - pose proof (proj1 Hn E); rewrite decide_True by lia. rewrite E, He. assert (Ea : pte0 a = pte0 va).
    { apply pte_page; [done..|]. rewrite E. unfold PGSIZE. Z.div_mod_to_equations. lia. }
    unfold present. by rewrite Ea.
  - rewrite Hum by done. rewrite (ch_pte _ _ _ _ _ _ Hch) by done.
    destruct (decide (a < va)), (decide (a < PGSIZE * (c + 1))); try done; unfold PGSIZE in *; lia.
Qed.

Lemma extend_kern k' tabs' e : pt_ok k' d tabs' ->
  (forall a, 0 <= a < 2 ^ 32 -> pte_at k' tabs' a = if decide (a / PGSIZE = c) then e else pte_at k tabs a) ->
  forall a, KERNBASE <= a < 2 ^ 32 -> translate (pmem k') (V2P d) a = kernel_map (kernel_data k0) a.
Proof.
  intros Hpt Hp a Ha. rewrite <- (ch_kern _ _ _ _ _ _ Hch) by done.
  rewrite (translate_pte k' d tabs'), (translate_pte k d tabs) by (done || apply Hch).
  rewrite Hp by (unfold KERNBASE in *; lia). rewrite decide_False; [done|]. intros E.
  destruct va_range as (_ & Hv & _). unfold KERNBASE, PGSIZE in *. Z.div_mod_to_equations. lia.
Qed.

Lemma shared_pages_next x :
  (if decide (present va) then if shared va then Some (PTE_ADDR (pte0 va)) else None else None) = x ->
  shared_pages (c + 1) = shared_pages c ++ option_list x.
Proof. intros <-. unfold shared_pages. rewrite seqZ_succ, omap_app by done. cbn [omap list_omap]. by case_match. Qed.

(** A page that is not present is skipped. *)
Lemma child_skip : ~ present va -> child d (c + 1) k tabs l um.
Proof.
  intros Hnp. pose proof Hch as [C1 C2 C3 C4 C5 C6 C7 C8 C9 C10 C11 C12 C13 C14]. split; try done.
  - intros j m Hj. destruct (C9 j m Hj) as (? & ?). split; [lia|done].
  - apply (extend_pte k tabs um 0); [done| |].
    + rewrite um_none, decide_False by done. done.
    + intros a Ha. pose proof va_range as (Hv & _). case_decide as E; [|done]. rewrite <- child_va. apply pte_page; [done..|].
      rewrite E. unfold PGSIZE. Z.div_mod_to_equations. lia.
  - intros j Hj. destruct (decide (j = c)) as [->|]; [|apply C12; lia]. rewrite um_none. split; [by intros []|tauto].
  - rewrite C13, (shared_pages_next None), app_nil_r; [done|]. by rewrite decide_False.
Qed.

(** A shared page is mapped again. *)
Lemma child_share k' tabs' l' (Hp : present va) (Hs : shared va = true) :
  grows d k tabs l k' tabs' l' ->
  (forall a, 0 <= a < 2 ^ 32 -> pte_at k' tabs' a = if decide (a / PGSIZE = c) then pte0 va else pte_at k tabs a) ->
  child d (c + 1) (k' <| shm_mems := bump_ref (shm_mems k) (PTE_ADDR (pte0 va)) |>) tabs' l' um.
Proof.
  intros [G1 G2 G3 G4 [u2 G5] G6 G7 G8 G9] Hpte. pose proof Hch as [C1 C2 C3 C4 [u C5] C6 C7 C8 C9 C10 C11 C12 C13 C14].
  assert (Hpg : forall p, pt_page d tabs' p -> p ∈ l0) by (intros p [?|?]%G6; [auto|rewrite C5; set_solver]).
  split.
  - unfold cp_frame in *. rewrite G1, C1. by kernel_eq.
  - destruct G2 as [P1 P2 P3 P4]. by split.
  - destruct G3 as [F1 F2 F3]. by split.
  - done.
  - exists (u ++ u2). by rewrite C5, G5, app_assoc.
  - done.
  - lia.
  - intros a Ha. cbn. rewrite G8; [by apply C8|]. auto.
  - intros j m Hj. destruct (C9 j m Hj) as (? & Hml0 & Hml & Hmt & Hmo & Hmw).
    assert (Hmt' : ~ pt_page d tabs' m) by (by intros [?|?]%G6).
    split; [lia|]. split; [done|]. split; [rewrite G5 in Hml; set_solver|]. split; [done|]. split; [done|].
    intros i Hi. rewrite <- Hmw by done. apply word_eq, G8. intros p Hp' Hin.
    assert (Hpo : page_ok k0 p) by (eapply Forall_forall; [apply (fp_ok _ _ (pa_free Hpar))|auto]).
    eapply (word_other_page k0 p m i); [done|done|by intros ->|done|done].
  - done.
  - apply (extend_pte _ _ um (pte0 va)); [done| |exact Hpte]. by rewrite um_none, decide_True.
  - intros j Hj. destruct (decide (j = c)) as [->|]; [|apply C12; lia]. rewrite um_none, Hs. split; [by intros []|by intros []].
  - cbn. rewrite C13, (shared_pages_next (Some (PTE_ADDR (pte0 va)))); [by rewrite foldl_app|]. by rewrite decide_True, Hs.
  - exact (extend_kern k' tabs' _ G2 Hpte).
Qed.

(** The page of the parent that is copied. *)
Lemma parent_page : present va -> 0 <= pte0 va < 2 ^ 32 /\
  exists q, PTE_ADDR (pte0 va) = V2P q /\ P2V (PTE_ADDR (pte0 va)) = q /\ page_ok k0 q /\ q ∉ l0.
Proof.
  intros Hp. destruct (pa_user Hpar va) as (He & Hq & Hl); [pose proof va_range; lia|done|]. split; [done|].
  exists (P2V (PTE_ADDR (pte0 va))). split_and!; [|done..]. symmetry. apply V2P_P2V; [by apply PTE_ADDR_range|apply Hq].
Qed.

(** A private page gets a copy. *)
Lemma child_copy m l1 k1 q : present va -> shared va = false -> l = m :: l1 ->
  kalloc k = Ret m k1 -> k1 = k <| freelist := freelist k1 |> -> free_pages k1 l1 -> page_ok k m -> m ∉ l1 ->
  PTE_ADDR (pte0 va) = V2P q -> page_ok k0 q -> q ∉ l0 ->
  let k2 := k1 <| pmem ::= copy_page (V2P m) (V2P q) |> in
  pt_ok k2 d tabs /\ (forall a, pte_at k2 tabs a = pte_at k tabs a) /\ free_pages k2 l1 /\ pt_apart d tabs l1 /\
  forall k' tabs' l', grows d k2 tabs l1 k' tabs' l' ->
    (forall a, 0 <= a < 2 ^ 32 -> pte_at k' tabs' a = if decide (a / PGSIZE = c) then Z.lor (V2P m) (PTE_FLAGS (pte0 va)) else pte_at k tabs a) ->
    child d (c + 1) k' tabs' l' (<[c := m]> um).
Proof.
  intros Hp Hs El Hka Hk1 Hf1 Hmk Hml1 Hq Hqo Hql k2. pose proof Hch as [C1 C2 C3 C4 [u C5] C6 C7 C8 C9 C10 C11 C12 C13 C14].
  assert (Em : pmem k1 = pmem k) by (by rewrite Hk1). assert (Ee : kernel_end k2 = kernel_end k) by (unfold k2; by rewrite Hk1).
  assert (Ee0 : kernel_end k = kernel_end k0) by (by rewrite C1).
  assert (Hm0 : page_ok k0 m) by (apply (page_ok_ext k); [by rewrite Ee0|done]).
  assert (Hml : m ∈ l) by (rewrite El; by left). assert (Hml0 : m ∈ l0) by (rewrite C5; set_solver).
  assert (Hmt : ~ pt_page d tabs m) by (intros Hmt; by apply (C4 m Hmt)).
  assert (Hout : forall p i, page_ok k0 p -> p <> m -> 0 <= i < 1024 -> word (pmem k2) (V2P p + 4 * i) = word (pmem k) (V2P p + 4 * i)).
  { intros p i Hpo Hne Hi. apply word_eq. unfold k2. cbn. rewrite (copy_page_out k0), Em; [done|done|]. by apply (word_other_page k0). }
  destruct (pt_ok_ext k k2 d tabs C2 Ee) as [Hpt2 Hpte2].
  { intros p i Hpp Hpo Hi. apply Hout; [by apply (page_ok_ext k); [rewrite Ee0|]|by intros ->|done]. }
  assert (Hf2 : free_pages k2 l1).
  { eapply free_pages_ext; [exact Hf1|done|done|]. intros p Hpl. unfold k2. cbn. apply (copy_page_out k0); [done|].
    assert (Hpo : page_ok k0 p) by (eapply Forall_forall; [apply Hpar|rewrite C5, El; set_solver]).
    pose proof (word_other_page k0 m p 0 Hm0 Hpo) as Hw. rewrite Z.mul_0_r, Z.add_0_r in Hw. apply Hw; [by intros ->|lia]. }
  split_and!; [done|done|done|intros p Hpp Hin; apply (C4 p Hpp); rewrite El; by right|].
  intros k' tabs' l' [G1 G2 G3 G4 [u2 G5] G6 G7 G8 G9] Hpte.
  assert (Hpg : forall p, pt_page d tabs' p -> p ∈ l0) by (intros p [?|?]%G6; [auto|rewrite C5, El; set_solver]).
  assert (Hkeep : forall x, page_ok k0 x -> ~ pt_page d tabs' x -> forall i, 0 <= i < 1024 -> word (pmem k') (V2P x + 4 * i) = word (pmem k2) (V2P x + 4 * i)).
  { intros x Hxo Hxt i Hi. apply word_eq, G8. intros p Hpp.
    apply (word_other_page k0); [eapply Forall_forall; [apply Hpar|auto]|done|by intros ->|done]. }
  assert (Hmt' : ~ pt_page d tabs' m) by (by intros [?|?]%G6). pose proof um_none as Hun. split.
  - eapply cp_vm_frame; [exact C1|]. eapply vm_frame_trans; [|exact G1]. by apply vm_frame_pmem, vm_frame_freelist.
  - done.
  - done.
  - done.
  - exists (u ++ m :: u2). rewrite C5, El, G5, <- app_assoc. done.
  - done.
  - rewrite map_size_insert_None by done. rewrite El in C7. cbn in C7. lia.
  - intros a Ha. rewrite G8 by auto. unfold k2. cbn. rewrite (copy_page_out k0), Em by auto. by apply C8.
  - intros j x Hj. apply lookup_insert_Some in Hj as [[<- <-]|[Hne Hj]].
    + split; [lia|]. split; [done|]. split; [rewrite G5 in Hml1; set_solver|]. split; [done|]. split; [done|].
      intros i Hi. rewrite Hkeep by done. unfold k2. cbn. rewrite copy_page_in, Em, Hq by done. by apply old_page.
    + destruct (C9 j x Hj) as (? & Hxl0 & Hxl & Hxt & Hxo & Hxw).
      assert (Hxt' : ~ pt_page d tabs' x) by (intros [?|?]%G6; [done|apply Hxl; rewrite El; by right]).
      split; [lia|]. split; [done|]. split; [rewrite El, G5 in Hxl; set_solver|]. split; [done|]. split; [done|].
      intros i Hi. rewrite <- Hxw by done. rewrite Hkeep by done. apply Hout; [done|by intros ->|done].
  - intros i j x Hi Hj. apply lookup_insert_Some in Hi as [[<- <-]|[Hne Hi]]; apply lookup_insert_Some in Hj as [[<- Ej]|[Hne' Hj]].
    + done.
    + destruct (C9 j m Hj) as (_ & _ & Hx & _). done.
    + subst x. destruct (C9 i m Hi) as (_ & _ & Hx & _). done.
    + by eapply C10.
  - apply (extend_pte _ _ _ (Z.lor (V2P m) (PTE_FLAGS (pte0 va)))); [|by rewrite lookup_insert_eq|exact Hpte].
    intros j Hj. by rewrite lookup_insert_ne.
  - intros j Hj. destruct (decide (j = c)) as [->|]; [rewrite lookup_insert_eq; split; [done|by eexists]|].
    rewrite lookup_insert_ne by done. apply C12. lia.
  - assert (shm_mems k' = shm_mems k) as -> by (rewrite G1; unfold k2; by rewrite Hk1).
    rewrite C13, (shared_pages_next None), app_nil_r; [done|]. by rewrite decide_True, Hs.
  - exact (extend_kern k' tabs' _ G2 Hpte).
Qed.

Lemma va_page : va / PGSIZE = c.
Proof. unfold PGSIZE. rewrite Z.mul_comm. by apply Z.div_mul. Qed.

(** Mapping page [c] of the child, with room for every page table. *)
Lemma child_map k1 l1 pa fl : pt_ok k1 d tabs -> (forall a, pte_at k1 tabs a = pte_at k tabs a) -> free_pages k1 l1 ->
  pt_apart d tabs l1 -> Lkmem ∉ held k1 -> (1024 <= length l1 + size tabs)%nat ->
  0 <= pa < 2 ^ 32 -> pa mod PGSIZE = 0 ->
  exists k' tabs' l', mappages d va PGSIZE pa fl k1 = Ret 0 k' /\ grows d k1 tabs l1 k' tabs' l' /\
    forall a, 0 <= a < 2 ^ 32 -> pte_at k' tabs' a = if decide (a / PGSIZE = c) then Z.lor pa (Z.lor fl PTE_P) else pte_at k tabs a.
Proof.
  intros Hpt Hsame Hf Hap Hh Hroom Hpa Hpam. destruct va_range as (Hv & Hvk & Hvm).
  destruct (mappages_run d va PGSIZE pa fl k1 tabs l1) as (n & r & k' & tabs' & l' & Hr & Hg & Hn & Hpte); try done; [lia|unfold KERNBASE, PGSIZE in *; lia|lia| | |].
  - unfold PGSIZE in *. change (2 ^ 32) with 4294967296 in *. Z.div_mod_to_equations. lia.
  - intros a Ha. rewrite Hsame. rewrite (pte_page k tabs a va); [by rewrite child_va| |done|].
    + unfold KERNBASE, PGSIZE in *. lia.
    + rewrite va_page. apply new_page; unfold KERNBASE, PGSIZE in *; lia.
  - pose proof (gr_size _ _ _ _ _ _ _ Hg) as E. destruct Hn as [[Hn ->]|(_ & -> & -> & ?)]; [|cbn in E; lia].
    assert (n = 1%nat) as -> by (unfold PGSIZE in Hn; lia).
    exists k', tabs', l'. split_and!; [done|done|]. intros a Ha. rewrite Hpte by done. rewrite <- mapped_one by done. by rewrite va_page, Hsame.
Qed.

Lemma copy_one_run : (1026 + Z.to_nat c <= length l0)%nat ->
  exists k' tabs' l' um', copy_one pgdir d va k = Ret None k' /\ child d (c + 1) k' tabs' l' um'.
Proof.
  intros Hroom. pose proof um_size as Hus. pose proof (ch_size _ _ _ _ _ _ Hch) as Hsz'. destruct parent_kept as [Hppt Hppte].
  destruct va_range as (Hv & _). destruct (pa_tabs Hpar va) as [t Ht]; [lia|].
  destruct (po_some _ _ _ Hppt _ _ Ht) as (_ & Hto & _ & _). unfold copy_one. run (walk_hit k pgdir ptabs va t 0 Hppt Ht).
  rewrite (proj2 (Z.eqb_neq _ _)) by (destruct Hto as (_ & _ & ? & _); pose proof (PTX_range va); unfold KERNBASE in *; lia).
  run (kread_page k t (PTX va) Hto (PTX_range va)).
  assert (word (pmem k) (V2P t + 4 * PTX va) = pte0 va) as -> by (rewrite <- Hppte; unfold pte_at; by rewrite Ht).
  destruct (Z.eqb_spec (Z.land (pte0 va) PTE_P) 0) as [Hnp|Hp].
  { exists k, tabs, l, um. split; [done|]. apply child_skip. unfold present. lia. }
  destruct (parent_page Hp) as (He & q & Hq & Hqv & Hqo & Hql). destruct (entry_rebuild _ He Hp) as [Hfl Hent].
  destruct (V2P_range k0 q Hqo) as (Hqr & Hqm & _).
  assert (Hh : Lkmem ∉ held k) by (rewrite (ch_frame _ _ _ _ _ _ Hch); apply Hpar).
  run (is_shm_run (PTE_ADDR (pte0 va)) k). rewrite shm_same. destruct (shm_find (PTE_ADDR (pte0 va)) (shm_mems k0)) as [ix|] eqn:Hfind.
  - assert (Hs : shared va = true) by (unfold shared; by rewrite Hfind). rewrite Z.eqb_refl.
    run (shm_index_run (PTE_ADDR (pte0 va)) k). rewrite shm_same, Hfind. cbn [default from_option id].
    rewrite Hqv.
    destruct (child_map k l (V2P q) (PTE_FLAGS (pte0 va))) as (k' & tabs' & l' & Hr & Hg & Hpte);
      [apply Hch|done|apply Hch|apply Hch|done|lia|done|done|].
    run Hr. change (0 <? 0) with false. cbv iota. rewrite bind_gets.
    assert (Es : shm_mems k' = shm_mems k) by (by rewrite (gr_frame _ _ _ _ _ _ _ Hg)).
    pose proof Hfind as Hfind2. rewrite <- shm_same in Hfind2. destruct (shm_find_lookup _ _ _ Hfind2) as (b & Hb & _).
    rewrite Es, Hb. change (bind (ofopt (Some ?w)) ?f k') with (f w k'). cbv beta.
    eexists _, tabs', l', um. split; [reflexivity|].
    replace (k' <| shm_mems ::= <[ix := b <| sb_ref ::= fun n => n + 1 |>]> |>) with (k' <| shm_mems := bump_ref (shm_mems k) (PTE_ADDR (pte0 va)) |>).
    + apply child_share with (l' := l'); [done|done|done|]. rewrite Hfl, <- Hq, Hent in Hpte. exact Hpte.
    + kernel_eq. unfold bump_ref. rewrite Hfind2, Es. by erewrite alter_insert_id.
  - assert (Hs : shared va = false) by (unfold shared; by rewrite Hfind).
    assert (Hne : 0 <> PTE_ADDR (pte0 va)).
    { rewrite Hq, V2P_small by apply Hqo. destruct (pa_data Hpar) as (_ & Hd & Hd'). destruct Hqo as (_ & ? & _). unfold KERNLINK, EXTMEM in *. lia. }
    rewrite (proj2 (Z.eqb_neq _ _) Hne).
    pose proof (pt_size_le _ _ _ (ch_pt _ _ _ _ _ _ Hch)).
    assert (exists m l1, l = m :: l1) as (m & l1 & El) by (destruct l; [cbn in Hsz'; lia|eauto]).
    pose proof (ch_free _ _ _ _ _ _ Hch) as Hfk. pose proof (kalloc_pops k l Hfk Hh) as Hpop. rewrite El in Hpop.
    destruct Hpop as (k1 & Hr1 & Hk1 & Hf1 & Hmo & Hml). run Hr1.
    rewrite (proj2 (Z.eqb_neq _ _)) by (destruct Hmo as (_ & _ & ? & _); unfold KERNBASE in *; lia).
    destruct (child_copy m l1 k1 q) as (Hpt2 & Hpte2 & Hf2 & Hap2 & Hfin); try done. set (k2 := k1 <| pmem ::= _ |>) in *.
    assert (Hmv : memmove_page m (P2V (PTE_ADDR (pte0 va))) k1 = Ret tt k2).
    { unfold memmove_page. rewrite Hqv, (page_kaddr_ok k m Hmo), (page_kaddr_ok k0 q Hqo). done. }
    run Hmv. destruct (child_map k2 l1 (V2P m) (PTE_FLAGS (pte0 va))) as (k' & tabs' & l' & Hr & Hg & Hpte); try done.
    { unfold k2. by rewrite Hk1. } { rewrite El in Hsz'. cbn in Hsz'. lia. }
    { apply (V2P_range k m Hmo). } { apply (V2P_range k m Hmo). }
    run Hr. exists k', tabs', l', (<[c := m]> um). split; [done|]. apply Hfin; [done|]. by rewrite Hfl in Hpte.
Qed.
End copy_step.
End copy.

(** ** [copyuvm] *)

Lemma child_init k0 ptabs l0 d k tabs l :
  fresh_space k0 l0 d k tabs l -> (forall a, 0 <= a < KERNBASE -> pte_at k tabs a = 0) ->
  (forall a, 0 <= a < 2 ^ 32 -> translate (pmem k) (V2P d) a = kernel_map (kernel_data k0) a) ->
  child k0 ptabs l0 d 0 k tabs l ∅.
Proof.
  intros [F1 F2 F3 F4 F5 F6 F7 F8] Hp Hk. split; try done.
  - unfold cp_frame. unfold vm_frame in F1. rewrite F1. by kernel_eq.
  - rewrite map_size_empty. lia.
  - intros va Ha. rewrite Hp by done. by rewrite decide_False by lia.
  - intros j Hj. lia.
  - by rewrite F1.
  - intros a Ha. apply Hk. unfold KERNBASE in *. lia.
Qed.

Lemma copy_loop k0 pgdir ptabs l0 sz0 d n : parent_ok k0 pgdir ptabs l0 sz0 ->
  forall c k tabs l um, 0 <= c -> PGSIZE * (c + Z.of_nat n - 1) < sz0 -> (1026 + Z.to_nat c + n <= length l0)%nat ->
  child k0 ptabs l0 d c k tabs l um ->
  exists k' tabs' l' um', first_of ((fun j => PGSIZE * j) <$> seqZ c (Z.of_nat n)) (copy_one pgdir d) k = Ret None k' /\
    child k0 ptabs l0 d (c + Z.of_nat n) k' tabs' l' um'.
Proof.
  intros Hpar. induction n as [|n IH]; intros c k tabs l um Hc Hsz Hroom Hch.
  - exists k, tabs, l, um. rewrite Z.add_0_r. done.
  - destruct (copy_one_run k0 pgdir ptabs l0 sz0 Hpar d c k tabs l um Hch Hc) as (k1 & t1 & l1 & um1 & Hr1 & Hc1); [unfold PGSIZE in *; lia|lia|].
    destruct (IH (c + 1) k1 t1 l1 um1) as (k' & t' & l' & um' & Hr' & Hc'); [lia|unfold PGSIZE in *; lia|lia|done|].
    exists k', t', l', um'. split; [|by replace (c + Z.of_nat (S n)) with (c + 1 + Z.of_nat n) by lia].
    rewrite seqZ_cons by lia. cbn [fmap list_fmap first_of]. run Hr1.
    replace (Z.pred (Z.of_nat (S n))) with (Z.of_nat n) by lia. exact Hr'.
Qed.

Definition pages_of (sz : Z) : Z := (sz + PGSIZE - 1) / PGSIZE.

Lemma copyuvm_run k0 pgdir ptabs l0 sz0 :
  parent_ok k0 pgdir ptabs l0 sz0 -> (1026 + Z.to_nat (pages_of sz0) <= length l0)%nat ->
  exists d k' tabs l' um, copyuvm pgdir sz0 k0 = Ret d k' /\ d <> 0 /\ child k0 ptabs l0 d (pages_of sz0) k' tabs l' um.
Proof.
  intros Hpar Hroom. destruct (setupkvm_run k0 l0) as (d & k1 & t1 & l1 & Hr1 & Hd0 & Hfs & Hkern & Hlow); [apply Hpar..|lia|].
  pose proof (pa_size _ _ _ _ _ Hpar) as Hs.
  assert (Hn : 0 <= pages_of sz0) by (unfold pages_of, PGSIZE; Z.div_mod_to_equations; lia).
  destruct (copy_loop k0 pgdir ptabs l0 sz0 d (Z.to_nat (pages_of sz0)) Hpar 0 k1 t1 l1 ∅) as (k' & t' & l' & um & Hr & Hch).
  - lia.
  - rewrite Z2Nat.id by done. unfold pages_of, PGSIZE. Z.div_mod_to_equations. lia.
  - lia.
  - by apply child_init.
  - rewrite Z2Nat.id, Z.add_0_l in * by done. exists d, k', t', l', um. split_and!; [|done|done].
    unfold copyuvm. run Hr1. rewrite (proj2 (Z.eqb_neq _ _) Hd0). by run Hr.
Qed.

Lemma byte_copied k0 k q q' m x : page_ok k0 q -> page_ok k0 m -> 0 <= x < PGSIZE -> q' = V2P q ->
  (forall i, 0 <= i < 1024 -> word (pmem k) (V2P m + 4 * i) = word (pmem k0) (q' + 4 * i)) ->
  pload8 (pmem k) (V2P m + x) = pload8 (pmem k0) (q' + x).
Proof.
  intros Hq Hm Hx -> Hw. destruct (V2P_range k0 q Hq) as (Hqr & Hqm & _), (V2P_range k0 m Hm) as (Hmr & Hmm & _).
  assert (Hal : forall p, p mod PGSIZE = 0 -> aligned (p + x) = p + 4 * (x / 4) /\ (p + x) mod 4 = x mod 4).
  { intros p Hp. unfold aligned, PGSIZE in *. Z.div_mod_to_equations. lia. }
  unfold pload8, byte_of. destruct (Hal _ Hqm) as [-> ->], (Hal _ Hmm) as [-> ->]. rewrite Hw; [done|].
  unfold PGSIZE in *. Z.div_mod_to_equations. lia.
Qed.

(** What the child sees at one address. *)
Lemma copied_page k pgdir tabs l sz0 d k' t' l' um va :
  parent_ok k pgdir tabs l sz0 -> child k tabs l d (pages_of sz0) k' t' l' um -> 0 <= va < sz0 ->
  match translate (pmem k) (V2P pgdir) va with
  | None => translate (pmem k') (V2P d) va = None
  | Some (pa, fl) =>
      if shm_find (pa - pa mod PGSIZE) (shm_mems k) then translate (pmem k') (V2P d) va = Some (pa, fl)
      else exists pa' m, translate (pmem k') (V2P d) va = Some (pa', fl) /\ m ∈ l /\ in_page m pa' /\
             pload8 (pmem k') pa' = pload8 (pmem k) pa
  end.
Proof.
  intros Hpar Hch Hva. pose proof (pa_size _ _ _ _ _ Hpar) as Hs.
  assert (Hj : 0 <= va / PGSIZE < pages_of sz0) by (unfold pages_of, PGSIZE; Z.div_mod_to_equations; lia).
  assert (Hlt : va < PGSIZE * pages_of sz0) by (unfold pages_of, PGSIZE; Z.div_mod_to_equations; lia).
  assert (Hv32 : 0 <= va < 2 ^ 32 /\ 0 <= PGSIZE * (va / PGSIZE) < 2 ^ 32) by (unfold KERNBASE, PGSIZE in *; Z.div_mod_to_equations; lia).
  assert (Ep : pte_at k tabs (PGSIZE * (va / PGSIZE)) = pte_at k tabs va).
  { apply pte_page; [lia|lia|]. unfold PGSIZE. Z.div_mod_to_equations. lia. }
  pose proof (ch_shared _ _ _ _ _ _ _ _ _ Hch _ Hj) as Hsh. unfold present, shared in Hsh. rewrite Ep in Hsh.
  pose proof (ch_pte _ _ _ _ _ _ _ _ _ Hch va ltac:(unfold KERNBASE in *; lia)) as Hpte. rewrite decide_True in Hpte by done.
  rewrite (translate_pte k pgdir tabs), (translate_pte k' d t') by (apply Hpar || apply Hch). rewrite Hpte.
  destruct (Z.eqb_spec (Z.land (pte_at k tabs va) PTE_P) 0) as [Hnp|Hp].
  { destruct (um !! (va / PGSIZE)) as [m|]; [exfalso; by apply (proj1 Hsh)|]. rewrite decide_False by (unfold present; tauto). done. }
  destruct (pa_user _ _ _ _ _ Hpar va Hva Hp) as (He & Hqo & _). pose proof (entry_rebuild _ He Hp) as [Hfl Hent].
  set (e := pte_at k tabs va) in *.
  assert (Hpa : PTE_ADDR e + va mod PGSIZE - (PTE_ADDR e + va mod PGSIZE) mod PGSIZE = PTE_ADDR e).
  { rewrite PTE_ADDR_spec by done. unfold PGSIZE. Z.div_mod_to_equations. lia. }
  rewrite Hpa. destruct (shm_find (PTE_ADDR e) (shm_mems k)) as [ix|].
  - destruct (um !! (va / PGSIZE)) as [m|]; [exfalso; by destruct (proj1 Hsh) as [_ ?]|]. rewrite decide_True by done. fold e.
    by rewrite (proj2 (Z.eqb_neq _ _) Hp).
  - destruct (um !! (va / PGSIZE)) as [m|] eqn:Hm; [|by destruct (proj2 Hsh) as [? ?]].
    destruct (ch_um _ _ _ _ _ _ _ _ _ Hch _ _ Hm) as (_ & Hml & _ & _ & Hmo & Hmw). rewrite Ep in Hmw. fold e in Hmw.
    destruct (V2P_range k m Hmo) as (Hmr & Hmm & _). assert (Hfr : 0 <= PTE_FLAGS e < PGSIZE) by (rewrite PTE_FLAGS_spec; by apply Z.mod_pos_bound).
    destruct (entry_translate (V2P m) (PTE_FLAGS e) Hmr Hmm Hfr) as (E1 & E2 & E3). unfold granted in E3. rewrite Hfl in E1, E2, E3.
    rewrite E1, E2, E3. assert (Hx : 0 <= va mod PGSIZE < PGSIZE) by (by apply Z.mod_pos_bound).
    exists (V2P m + va mod PGSIZE), m. split_and!; [done|done|unfold in_page; lia..|].
    assert (Hq : PTE_ADDR e = V2P (P2V (PTE_ADDR e))) by (symmetry; apply V2P_P2V; [by apply PTE_ADDR_range|apply Hqo]).
    by apply (byte_copied k k' (P2V (PTE_ADDR e))).
Qed.

(** C10: [copyuvm] gives the child a copy of the parent's memory.  With enough free
    pages it returns a page directory in which every address below [sz] that the
    parent can reach is reachable with the same access bits: at the same physical
    address when the page is in the shared-memory table, whose reference count
    goes up, and otherwise at a page taken from the free list with the same
    contents.  What the parent cannot reach the child cannot either, the kernel
    is mapped as usual, and the parent's translation and all memory in use are
    unchanged. *)
Theorem copyuvm_copies k pgdir tabs l sz0 :
  parent_ok k pgdir tabs l sz0 -> (1026 + Z.to_nat (pages_of sz0) <= length l)%nat ->
  exists d k', copyuvm pgdir sz0 k = Ret d k' /\ d <> 0 /\
    (forall va, 0 <= va < sz0 ->
      match translate (pmem k) (V2P pgdir) va with
      | None => translate (pmem k') (V2P d) va = None
      | Some (pa, fl) =>
          if shm_find (pa - pa mod PGSIZE) (shm_mems k) then translate (pmem k') (V2P d) va = Some (pa, fl)
          else exists pa' m, translate (pmem k') (V2P d) va = Some (pa', fl) /\ m ∈ l /\ in_page m pa' /\
                 pload8 (pmem k') pa' = pload8 (pmem k) pa
      end) /\
    (forall va, KERNBASE <= va < 2 ^ 32 -> translate (pmem k') (V2P d) va = kernel_map (kernel_data k) va) /\
    (forall va, translate (pmem k') (V2P pgdir) va = translate (pmem k) (V2P pgdir) va) /\
    (forall a, (forall p, p ∈ l -> ~ in_page p a) -> pmem k' !! a = pmem k !! a) /\
    shm_mems k' = foldl bump_ref (shm_mems k) (shared_pages k tabs (pages_of sz0)).
Proof.
  intros Hpar Hroom. destruct (copyuvm_run k pgdir tabs l sz0 Hpar Hroom) as (d & k' & t' & l' & um & Hr & Hd0 & Hch).
  pose proof (pa_size _ _ _ _ _ Hpar) as Hs. exists d, k'.
  split_and!; [done|done| |apply Hch| |apply Hch|apply Hch].
  - intros va Hva. apply (copied_page k pgdir tabs l sz0 d k' t' l' um va Hpar Hch Hva).
  - intros va. assert (Hc : 0 <= pages_of sz0) by (unfold pages_of, PGSIZE; Z.div_mod_to_equations; lia).
    destruct (parent_kept k pgdir tabs l sz0 Hpar d _ k' t' l' um Hch) as [Hpt Hp].
    rewrite (translate_pte k' pgdir tabs), (translate_pte k pgdir tabs) by (done || apply Hpar). by rewrite Hp.
Qed.

(** ** A machine with 2,500 free pages and one process page *)

Definition demo_range : list Z := (fun i => 0x80400000 + PGSIZE * i) <$> seqZ 0 2500.

Lemma demo_range_free : exists k l, free_pages k l /\ length l = 2500%nat /\ held k = [] /\ data_ok k.
Proof.
  destruct (freerange_loop zero_kernel [] demo_range) as (k & _ & Hf & Hh & He & Hk).
  - split; [done|by apply NoDup_nil|by apply Forall_nil].
  - apply not_elem_of_nil.
  - apply Forall_forall. intros p (i & -> & Hi%elem_of_seqZ)%list_elem_of_fmap. unfold page_ok.
    change (kernel_end zero_kernel) with 0x80115000. unfold KERNBASE, PHYSTOP, PGSIZE. Z.div_mod_to_equations. lia.
  - apply NoDup_fmap_2; [intros i j; unfold PGSIZE; lia|apply NoDup_seqZ].
  - intros p _. apply not_elem_of_nil.
  - exists k, (reverse demo_range ++ []). split_and!; [done| |by rewrite Hh|].
    + rewrite length_app, length_reverse. unfold demo_range. by rewrite length_fmap, length_seqZ.
    + unfold data_ok. rewrite Hk. by vm_compute.
Qed.

(** A kernel page directory, and room for all page tables. *)
Lemma demo_kvm : exists k pgdir tabs l, pt_ok k pgdir tabs /\ free_pages k l /\ pt_apart pgdir tabs l /\ held k = [] /\ data_ok k /\
  (length l + size tabs = 2499)%nat /\ forall a, 0 <= a < KERNBASE -> pte_at k tabs a = 0.
Proof.
  destruct demo_range_free as (k & l & Hf & Hl & Hh & Hd).
  destruct (setupkvm_run k l Hf) as (d & k' & tabs & l' & _ & _ & [F1 F2 F3 F4 F5 F6 F7 F8] & _ & Hlow);
    [rewrite Hh; apply not_elem_of_nil|done|rewrite Hl; lia|].
  exists k', d, tabs, l'. split_and!; [done|done|done|by rewrite (vm_frame_held _ _ F1)| |lia|done].
  unfold data_ok in *. by rewrite F1.
Qed.

(** 0x1000 bytes from 0xF00 on: two pages, none of them aligned with the request. *)
Lemma mappages_maps_witness :
  exists pgdir k k', mappages pgdir 0xF00 PGSIZE 0x400000 6 k = Ret 0 k' /\
    translate (pmem k) (V2P pgdir) 0x1123 = None /\ translate (pmem k') (V2P pgdir) 0x1123 = Some (0x401123, 7).
Proof.
  destruct demo_kvm as (k & pgdir & tabs & l & Hpt & Hf & Hap & Hh & Hd & Hl & Hlow).
  assert (Hnone : forall a, 0 <= a < KERNBASE -> translate (pmem k) (V2P pgdir) a = None).
  { intros a Ha. rewrite (translate_pte k pgdir tabs) by exact Hpt. by rewrite Hlow. }
  assert (Elo : range_lo 0xF00 = 0) by reflexivity. assert (Ehi : range_hi 0xF00 PGSIZE = 0x2000) by reflexivity.
  destruct (mappages_maps pgdir 0xF00 PGSIZE 0x400000 6 k tabs l) as [Hm _]; try assumption; try lia; try reflexivity.
  - rewrite Hh. apply not_elem_of_nil.
  - unfold PGSIZE. lia.
  - unfold PGSIZE. lia.
  - rewrite Elo, Ehi in Hm. destruct Hm as (r & k' & c & Hr & Hcase & Ht & H0).
    + intros a Ha. apply Hnone. unfold KERNBASE. lia.
    + assert (Hr0 : r = 0) by (apply H0; lia). subst r. destruct Hcase as [[_ Hc]|(Hx & _)]; [|discriminate Hx].
      exists pgdir, k, k'. split; [exact Hr|]. split; [apply Hnone; unfold KERNBASE; lia|]. rewrite Ht by lia. rewrite decide_True by lia. reflexivity.
Defined.

(** A process with one page. *)
Lemma demo_parent : exists k pgdir tabs l, parent_ok k pgdir tabs l PGSIZE /\ (1027 <= length l)%nat /\
  (exists m, page_ok k m /\ ~ pt_page pgdir tabs m /\ m ∉ l /\ forall va, 0 <= va < PGSIZE -> pte_at k tabs va = Z.lor (V2P m) 7) /\
  forall va, PGSIZE <= va < KERNBASE -> pte_at k tabs va = 0.
Proof.
  destruct demo_kvm as (k & pgdir & tabs & l & Hpt & Hf & Hap & Hh & Hd & Hl & Hlow).
  pose proof (pt_size_le _ _ _ Hpt) as Hsz. destruct l as [|m l]; [cbn in Hl; lia|].
  destruct (kalloc_pops k (m :: l) Hf) as (k1 & _ & Hk1 & Hf1 & Hmo & Hml); [rewrite Hh; apply not_elem_of_nil|].
  destruct (pt_ok_ext k k1 pgdir tabs Hpt) as [Hpt1 Hp1]; [by rewrite Hk1|by rewrite Hk1|].
  assert (Hap1 : pt_apart pgdir tabs l) by (intros p Hp Hin; apply (Hap p Hp); by right).
  destruct (V2P_range k m Hmo) as (Hmr & Hmm & _).
  destruct (mappages_run pgdir 0 PGSIZE (V2P m) 6 k1 tabs l) as (c & r & k2 & tabs2 & l2 & _ & Hg & Hc & Hp2); try done.
  { rewrite Hk1. cbn. rewrite Hh. apply not_elem_of_nil. } { lia. }
  { unfold PGSIZE in *. change (2 ^ 32) with 4294967296 in *. Z.div_mod_to_equations. lia. }
  { intros a Ha. rewrite Hp1, Hlow; [done|]. unfold PGSIZE, KERNBASE in *. lia. }
  destruct Hg as [G1 G2 G3 G4 [u G5] G6 G7 G8 G9]. cbn in Hl. pose proof (pt_size_le _ _ _ G2).
  destruct Hc as [[Hc _]|(_ & _ & -> & ?)]; [|cbn in *; lia]. assert (c = 1%nat) as -> by (unfold PGSIZE in Hc; lia).
  assert (Hpte : forall va, 0 <= va < PGSIZE -> pte_at k2 tabs2 va = Z.lor (V2P m) 7).
  { intros va Hva. rewrite Hp2 by (unfold PGSIZE in *; lia). rewrite <- (mapped_one _ 0) by done.
    rewrite decide_True; [done|]. unfold PGSIZE in *. Z.div_mod_to_equations. lia. }
  assert (Ee : kernel_end k2 = kernel_end k) by (rewrite G1, Hk1; done).
  assert (Hm2 : page_ok k2 m) by (by apply (page_ok_ext k)).
  assert (Hml2 : m ∉ l2) by (intros Hin; apply Hml; rewrite G5; set_solver).
  exists k2, pgdir, tabs2, l2. split; [|split; [lia|split]].
  2: { exists m. split_and!; [done| |done|done]. intros [Hp|Hp]%G6; [|done]. apply (Hap m Hp). by left. }
  2: { intros va Hva. rewrite Hp2 by (unfold KERNBASE, PGSIZE in *; lia). unfold mapped. rewrite decide_False by (unfold PGSIZE in *; lia).
    rewrite Hp1. apply Hlow. unfold PGSIZE in *. lia. }
  split; try done.
  - rewrite (vm_frame_held _ _ G1), Hk1. cbn. rewrite Hh. apply not_elem_of_nil.
  - unfold data_ok in *. rewrite G1, Hk1. done.
  - intros va Hva. destruct (tabs2 !! PDX va) eqn:E; [by eexists|]. specialize (Hpte va Hva). unfold pte_at in Hpte. rewrite E in Hpte.
    rewrite lor_low in Hpte by (done || unfold PGSIZE; lia). lia.
  - intros va Hva _. rewrite Hpte by done. destruct (tab_entry k m Hmo) as (-> & _ & _). rewrite (P2V_V2P k m Hmo).
    split; [rewrite lor_low by (done || unfold PGSIZE; lia); unfold PGSIZE in *; change (2 ^ 32) with 4294967296 in *; Z.div_mod_to_equations; lia|].
    done.
Qed.

Lemma copyuvm_copies_witness : exists k pgdir d k', copyuvm pgdir PGSIZE k = Ret d k' /\ d <> 0.
Proof.
  destruct demo_parent as (k & pgdir & tabs & l & Hpar & Hl & _).
  destruct (copyuvm_copies k pgdir tabs l PGSIZE Hpar) as (d & k' & Hr & Hd & _).
  - change (Z.to_nat (pages_of PGSIZE)) with 1%nat. lia.
  - exists k, pgdir, d, k'. split; assumption.
Defined.
