(* ===== verification/Txn.v ===== *)
(** * What the cache and the log promise to the file system

    Inside a transaction, blocks are read and updated through [bread],
    [log_write] and [brelse].  [txn me pd k s B H]: process slot [me] is running
    inside a transaction that has logged the blocks [B] so far and holds the
    blocks [H].  [blk k n] is block [n] as the process sees it. *)

From S2P Require Import Prelude CString Headers Spinlock Ring Sched Sleeplock Dll Bio Bcache Bytes Log.

Record txn (me : nat) (pd : Z) (k : kernel) (s : Z) (B H : list Z) : Prop := {
  tx_cst : cst me pd k B H;
  tx_log : log_ok (the_log k) s B;
  tx_out : 1 <= log_outstanding (the_log k);
  tx_size : log_size (the_log k) = LOGSIZE }.

(** Only the buffers, the log and the scheduler's data differ. *)
Definition tframe (k k' : kernel) : Prop :=
  k' = k <| bufs := bufs k' |> <| procs := procs k' |> <| pqueues := pqueues k' |> <| htindex := htindex k' |>
         <| the_log := the_log k' |>.

Lemma tframe_refl k : tframe k k.
Proof. unfold tframe. by kernel_eq. Qed.

Lemma tframe_trans k1 k2 k3 : tframe k1 k2 -> tframe k2 k3 -> tframe k1 k3.
Proof. unfold tframe. intros E1 E2. rewrite E2, E1. by kernel_eq. Qed.

Lemma cframe_tframe k k' : cframe k k' -> disk k' = disk k -> disk_writes k' = disk_writes k -> tframe k k'.
Proof. unfold cframe, tframe. intros E E1 E2. rewrite E. rewrite E1, E2. by kernel_eq. Qed.

Lemma cframe_log_tframe k k' lg :
  cframe (k <| the_log := lg |>) k' -> disk k' = disk k -> disk_writes k' = disk_writes k -> tframe k k'.
Proof. unfold cframe, tframe. intros E E1 E2. rewrite E. rewrite E1, E2. by kernel_eq. Qed.

Lemma tframe_disk k k' : tframe k k' -> disk k' = disk k.
Proof. by intros ->. Qed.
Lemma tframe_sb k k' : tframe k k' -> the_sb k' = the_sb k.
Proof. by intros ->. Qed.
Lemma tframe_icache k k' : tframe k k' -> icache k' = icache k.
Proof. by intros ->. Qed.

(** Buffers of blocks other than [n] keep their contents. *)
Definition keep_but (n : Z) (k k' : kernel) : Prop := forall j m e, m <> n -> hb k j m e -> hb k' j m e.

Lemma keep_but_trans n k1 k2 k3 : keep_but n k1 k2 -> keep_but n k2 k3 -> keep_but n k1 k3.
Proof. intros H1 H2 j m e Hm Hb. apply H2; [done|]. by apply H1. Qed.

Lemma hb_ne k i j n m d e : hb k i n d -> hb k j m e -> m <> n -> j <> i.
Proof. intros (_ & b & Hb & _ & <- & _) (_ & b' & Hb' & _ & <- & _) Hne ->. rewrite Hb in Hb'. by injection Hb' as <-. Qed.

Lemma keep_but_of k k' i n d :
  hb k i n d -> (forall j m e, j <> i -> hb k j m e -> hb k' j m e) -> keep_but n k k'.
Proof. intros Hb Hk j m e Hm Hj. apply Hk; [by eapply hb_ne|done]. Qed.

Lemma hb_buf k i n d : hb k i n d -> exists b, buf_at i k = Ret b k /\ b_data b = d.
Proof. intros (_ & b & Hb & _ & _ & _ & <-). exists b. split; [by apply buf_at_run|done]. Qed.

Section steps.
Context (me : nat) (pd s : Z).
Implicit Types (k : kernel) (B H : list Z).

Lemma bread_x k B H n :
  txn me pd k s B H -> n ∉ H -> is_Some (disk k !! n) -> (length B + length H < NBUF)%nat ->
  exists i d k', bread 1 n k = Ret i k' /\ txn me pd k' s B (n :: H) /\ hb k' i n d /\ blk k n = Some d /\
    (forall m, blk k' m = blk k m) /\ (forall j m e, hb k j m e -> hb k' j m e) /\ tframe k k' /\
    (n ∈ B \/ disk k' !! n = Some d) /\ length d = Z.to_nat BSIZE.
Proof.
  intros [Hc Hl Ho Hs] Hn Hd Hr.
  destruct (bread_c me pd k B H n Hc Hn Hd) as (i & d & k' & Hrun & Hc' & Hhb & Hblk & Hsame & Hk & Hdk & Hdw & Hf); [by right|].
  exists i, d, k'. split_and!; try done.
  - split; [done|by rewrite (cframe_log _ _ Hf)..].
  - exact (cframe_tframe _ _ Hf Hdk Hdw).
  - destruct (decide (n ∈ B)) as [|HB]; [by left|right]. rewrite Hdk, <- Hblk. symmetry. by eapply cst_clean.
  - exact (cst_length _ _ _ _ _ _ _ Hc Hblk).
Qed.

Lemma upd_buf_x k B H i n d f :
  txn me pd k s B H -> hb k i n d -> length (f d) = Z.to_nat BSIZE ->
  exists k', upd_buf i (fun b => b <| b_data ::= f |>) k = Ret tt k' /\ txn me pd k' s B H /\ hb k' i n (f d) /\
    (forall m, blk k' m = if decide (m = n) then Some (f d) else blk k m) /\ keep_but n k k' /\ tframe k k'.
Proof.
  intros [Hc Hl Ho Hs] Hhb Hlen.
  destruct (set_data_c me pd k B H i n d (f d) Hc Hhb Hlen) as (k' & Hrun & Hc' & Hhb' & Hblk & Hk & Hdk & Hdw & Hf).
  exists k'. split_and!; try done.
  - destruct Hhb as (_ & b & Hb & _ & _ & _ & Hd). rewrite (upd_buf_run i b) in Hrun by done.
    rewrite (upd_buf_run i b) by done. rewrite <- Hrun. do 3 f_equal. by destruct b; cbn in *; subst.
  - split; [done|by rewrite (cframe_log _ _ Hf)..].
  - by eapply keep_but_of.
  - exact (cframe_tframe _ _ Hf Hdk Hdw).
Qed.

Lemma log_write_x k B H i n d :
  txn me pd k s B H -> hb k i n d -> 0 <= n < 2 ^ 31 -> (length B < 29)%nat ->
  exists k', log_write i k = Ret tt k' /\ txn me pd k' s (add_block n B) H /\ hb k' i n d /\
    (forall m, blk k' m = blk k m) /\ (forall j m e, hb k j m e -> hb k' j m e) /\ tframe k k'.
Proof.
  intros [Hc Hl Ho Hs] Hhb Hn HB.
  destruct (log_write_run me pd k s B B H i n d) as (k' & Hrun & Hc' & Hl' & Hblk & Hk & Hdk & Hdw & Hf & nn & bl & Elg); try done.
  { unfold LOGSIZE, MAXOPBLOCKS. lia. } { rewrite Hs. unfold LOGSIZE, MAXOPBLOCKS. lia. }
  exists k'. split_and!; try done.
  - split; [|done|by rewrite Elg|by rewrite Elg]. eapply cst_proper; [..|exact Hc']; [|done].
    intros m. unfold add_block. case_decide; rewrite ?elem_of_app, ?elem_of_cons, ?elem_of_nil; [|tauto].
    split; [intros [->|]|]; tauto.
  - by apply Hk.
  - exact (cframe_log_tframe _ _ _ Hf Hdk Hdw).
Qed.

Lemma brelse_x k B H i n d :
  txn me pd k s B (n :: H) -> n ∉ H -> hb k i n d -> n ∈ B \/ disk k !! n = Some d ->
  exists k', brelse i k = Ret tt k' /\ txn me pd k' s B H /\ (forall m, blk k' m = blk k m) /\ keep_but n k k' /\ tframe k k'.
Proof.
  intros [Hc Hl Ho Hs] Hn Hhb Hcl.
  destruct (brelse_c me pd k B (n :: H) i n d Hc Hhb Hcl) as (k' & Hrun & Hc' & Hblk & Hk & Hdk & Hdw & Hf).
  exists k'. split_and!; try done.
  - split; [|by rewrite (cframe_log _ _ Hf)..]. eapply cst_proper; [..|exact Hc']; [done|].
    intros m. rewrite list_elem_of_filter, elem_of_cons. split; [tauto|]. intros Hm. split; [by intros ->|tauto].
  - by eapply keep_but_of.
  - exact (cframe_tframe _ _ Hf Hdk Hdw).
Qed.

(** The usual end of an update: change the data of the held block, log it, release it. *)
Lemma commit_x k B H i n d f :
  txn me pd k s B (n :: H) -> n ∉ H -> hb k i n d -> length (f d) = Z.to_nat BSIZE ->
  0 <= n < 2 ^ 31 -> (length B < 29)%nat ->
  exists k1 k2 k', upd_buf i (fun b => b <| b_data ::= f |>) k = Ret tt k1 /\ log_write i k1 = Ret tt k2 /\
    brelse i k2 = Ret tt k' /\ txn me pd k' s (add_block n B) H /\
    (forall m, blk k' m = if decide (m = n) then Some (f d) else blk k m) /\ keep_but n k k' /\ tframe k k'.
Proof.
  intros Ht Hn Hhb Hlen Hr HB.
  destruct (upd_buf_x k B (n :: H) i n d f Ht Hhb Hlen) as (k1 & R1 & T1 & H1 & B1 & K1 & F1).
  destruct (log_write_x k1 B (n :: H) i n (f d) T1 H1 Hr HB) as (k2 & R2 & T2 & H2 & B2 & K2 & F2).
  destruct (brelse_x k2 (add_block n B) H i n (f d) T2 Hn H2) as (k3 & R3 & T3 & B3 & K3 & F3).
  { left. unfold add_block. case_decide; [done|]. apply elem_of_app. right. by left. }
  exists k1, k2, k3. split_and!; try done.
  - intros m. by rewrite B3, B2, B1.
  - eapply keep_but_trans; [exact K1|]. eapply keep_but_trans; [|exact K3]. intros j m e _. apply K2.
  - eapply tframe_trans; [exact F1|]. by eapply tframe_trans.
Qed.

(** Looking at a block without changing it. *)
Lemma peek_x k B H n :
  txn me pd k s B H -> n ∉ H -> is_Some (disk k !! n) -> (length B + length H < NBUF)%nat ->
  exists i d k1 k', bread 1 n k = Ret i k1 /\ hb k1 i n d /\ brelse i k1 = Ret tt k' /\ blk k n = Some d /\
    txn me pd k1 s B (n :: H) /\ txn me pd k' s B H /\ (forall m, blk k1 m = blk k m) /\ (forall m, blk k' m = blk k m) /\
    (forall j m e, hb k j m e -> hb k1 j m e) /\ keep_but n k k' /\ tframe k k1 /\ tframe k k'.
Proof.
  intros Ht Hn Hd Hr. destruct (bread_x k B H n Ht Hn Hd Hr) as (i & d & k1 & R1 & T1 & H1 & Hb & B1 & K1 & F1 & Hc & _).
  destruct (brelse_x k1 B H i n d T1 Hn H1 Hc) as (k2 & R2 & T2 & B2 & K2 & F2).
  exists i, d, k1, k2. split_and!; try done.
  - intros m. by rewrite B2, B1.
  - eapply keep_but_trans; [|exact K2]. intros j m e _. apply K1.
  - by eapply tframe_trans.
Qed.

End steps.

Lemma add_block_length n B : (length B <= length (add_block n B) <= S (length B))%nat.
Proof. unfold add_block. case_decide; rewrite ?length_app; cbn; lia. Qed.

Lemma add_block_in n m B : m ∈ add_block n B <-> m = n \/ m ∈ B.
Proof.
  unfold add_block. case_decide; rewrite ?elem_of_app, ?elem_of_cons, ?elem_of_nil; [|tauto].
  split; [tauto|]. intros [->|]; tauto.
Qed.
