(* ===== verification/Inode.v ===== *)
(** * Disk blocks and inodes

    The lower half of [src/fs.c]: the block allocator over the free-block bitmap,
    the inode cache ([iget], [idup], [ilock], [iunlock], [iput]), inodes on disk
    ([ialloc], [iupdate]) and the map from a file's blocks to disk blocks
    ([bmap], [itrunc]). *)

From S2P Require Import Prelude CString Headers Spinlock Ring Sched Sleeplock Dll Bio Bcache Bytes Log Txn.

(** ** Layout of the disk ([fs.h]) *)

(** Bitmap bits per block, and the bitmap block with the bit of block [b]. *)
Definition BPB : Z := BSIZE * 8.
Definition BBLOCK (b : Z) (sb : superblock) : Z := u32 (b / BPB + s_bmapstart sb).

(** [sizeof(struct dinode)], inodes per block and the block of inode [i]. *)
Definition DINODE : Z := 64.
Definition IPB : Z := BSIZE / DINODE.
Definition IBLOCK (i : Z) (sb : superblock) : Z := u32 (i / IPB + s_inodestart sb).

(** Where [struct dinode] number [inum] starts in its block. *)
Definition dinode_off (inum : Z) : nat := Z.to_nat (DINODE * (inum mod IPB)).

(** The fields of a [struct dinode], at offsets 0, 2, 4, 6, 8 and 12. *)
Record dinode := mk_dinode {
  di_type : Z; di_major : Z; di_minor : Z; di_nlink : Z; di_size : Z; di_addrs : list Z }.

Definition get_dinode (d : list Z) (o : nat) : dinode :=
  mk_dinode (i16 (get16 d o)) (i16 (get16 d (o + 2))) (i16 (get16 d (o + 4))) (i16 (get16 d (o + 6)))
    (get32 d (o + 8)) ((fun j => get32 d (o + 12 + 4 * j)) <$> seq 0 13).

(** [memmove(dip->addrs, addrs, sizeof(addrs))] *)
Fixpoint put_addrs (d : list Z) (o : nat) (l : list Z) : list Z :=
  match l with
  | [] => d
  | a :: l' => put_addrs (set32 d o a) (o + 4) l'
  end.

Definition put_dinode (d : list Z) (o : nat) (di : dinode) : list Z :=
  let d := set16 d o (di_type di) in
  let d := set16 d (o + 2) (di_major di) in
  let d := set16 d (o + 4) (di_minor di) in
  let d := set16 d (o + 6) (di_nlink di) in
  let d := set32 d (o + 8) (di_size di) in
  put_addrs d (o + 12) (di_addrs di).

(** Assigning to the data of a held buffer. *)
Definition upd_data (i : nat) (f : list Z -> list Z) : K unit :=
  upd_buf i (fun b => b <| b_data ::= f |>).

(** ** Blocks *)

Definition bzero (dev bno : Z) : K unit :=
  let! bp := bread dev bno in
  do! upd_data bp (fun _ => replicate (Z.to_nat BSIZE) 0) in
  do! log_write bp in
  brelse bp.

(** Bit [bi] of a bitmap block. *)
Definition bit_mask (bi : Z) : Z := Z.shiftl 1 (bi mod 8).
Definition bit_byte (bi : Z) : nat := Z.to_nat (bi / 8).

(** The body of [balloc]'s inner loop. *)
Definition balloc_try (dev b : Z) (bp : nat) (bi : Z) : K (option Z) :=
  let m := bit_mask bi in
  let! bf := buf_at bp in
  if Z.land (byte (b_data bf) (bit_byte bi)) m =? 0 then
    do! upd_data bp (fun d => <[bit_byte bi := u8 (Z.lor (byte d (bit_byte bi)) m)]> d) in
    do! log_write bp in
    do! brelse bp in
    do! bzero dev (b + bi) in
    ret (Some (b + bi))
  else ret None.

Definition balloc (dev : Z) : K Z :=
  let! sb := gets the_sb in
  let! r := first_of ((fun j => BPB * j) <$> seqZ 0 ((s_size sb + BPB - 1) / BPB)) (fun b =>
    let! bp := bread dev (BBLOCK b sb) in
    let! r := first_of (seqZ 0 (Z.min BPB (s_size sb - b))) (balloc_try dev b bp) in
    match r with
    | Some a => ret (Some a)
    | None => do! brelse bp in ret None
    end) in
  match r with
  | Some a => ret a
  | None => panic "balloc: out of blocks"
  end.

Definition bfree (dev b : Z) : K unit :=
  let! sb := readsb dev in
  do! modify (fun k => k <| the_sb := sb |>) in
  let! bp := bread dev (BBLOCK b sb) in
  let bi := b mod BPB in
  let m := bit_mask bi in
  let! bf := buf_at bp in
  if Z.land (byte (b_data bf) (bit_byte bi)) m =? 0 then panic "freeing free block"
  else
    do! upd_data bp (fun d => <[bit_byte bi := u8 (Z.land (byte d (bit_byte bi)) (Z.lnot m))]> d) in
    do! log_write bp in
    brelse bp.

(** ** The inode cache *)

Definition iinit (dev : Z) : K unit :=
  do! initlock Licache in
  do! foreach (seq 0 NINODE) (fun i => initsleeplock (SLinode i)) in
  let! sb := readsb dev in
  do! modify (fun k => k <| the_sb := sb |>) in
  cputs "sb: size nblocks ninodes nlog logstart inodestart bmap start".

(** [iget]'s loop over the cache: [inl i] for a hit, whose reference count has
    been raised, [inr empty] with the first free slot otherwise. *)
Fixpoint iget_scan (dev inum : Z) (l : list nat) (empty : option nat) : K (nat + option nat) :=
  match l with
  | [] => ret (inr empty)
  | i :: l' =>
      let! ip := inode_at i in
      if (0 <? i_ref ip) && (i_dev ip =? dev) && (i_inum ip =? inum) then
        do! upd_inode i (fun ip => ip <| i_ref ::= fun n => i32 (n + 1) |>) in
        do! release Licache in
        ret (inl i)
      else
        iget_scan dev inum l'
          (if bool_decide (empty = None) && (i_ref ip =? 0) then Some i else empty)
  end.

Definition iget (dev inum : Z) : K nat :=
  do! acquire Licache in
  let! r := iget_scan dev inum (seq 0 NINODE) None in
  match r with
  | inl i => ret i
  | inr None => panic "iget: no inodes"
  | inr (Some i) =>
      do! upd_inode i (fun ip => ip <| i_dev := dev |> <| i_inum := inum |> <| i_ref := 1 |> <| i_valid := 0 |>) in
      do! release Licache in
      ret i
  end.

Definition ialloc (dev type : Z) : K nat :=
  let! sb := gets the_sb in
  let! r := first_of (seqZ 1 (s_ninodes sb - 1)) (fun inum =>
    let! bp := bread dev (IBLOCK inum sb) in
    let! bf := buf_at bp in
    let o := dinode_off inum in
    if di_type (get_dinode (b_data bf) o) =? 0 then
      do! upd_data bp (fun d => put_bytes d o (replicate (Z.to_nat DINODE) 0)) in
      do! upd_data bp (fun d => set16 d o type) in
      do! log_write bp in
      do! brelse bp in
      let! i := iget dev inum in
      ret (Some i)
    else
      do! brelse bp in
      ret None) in
  match r with
  | Some i => ret i
  | None => panic "ialloc: no inodes"
  end.

(** The fields [iupdate] copies to disk. *)
Definition to_dinode (ip : inode) : dinode :=
  mk_dinode (i_type ip) (i_major ip) (i_minor ip) (i_nlink ip) (i_size ip) (i_addrs ip).

Definition iupdate (i : nat) : K unit :=
  let! ip := inode_at i in
  let! sb := gets the_sb in
  let! bp := bread (i_dev ip) (IBLOCK (i_inum ip) sb) in
  do! upd_data bp (fun d => put_dinode d (dinode_off (i_inum ip)) (to_dinode ip)) in
  do! log_write bp in
  brelse bp.

Definition idup (i : nat) : K nat :=
  do! acquire Licache in
  do! upd_inode i (fun ip => ip <| i_ref ::= fun n => i32 (n + 1) |>) in
  do! release Licache in
  ret i.

(** The fields [ilock] copies from disk. *)
Definition from_dinode (di : dinode) (ip : inode) : inode :=
  ip <| i_type := di_type di |> <| i_major := di_major di |> <| i_minor := di_minor di |>
     <| i_nlink := di_nlink di |> <| i_size := di_size di |> <| i_addrs := di_addrs di |>.

(** The argument is a pointer, [None] when null. *)
Definition ilock (p : option nat) : K unit :=
  match p with
  | None => panic "ilock"
  | Some i =>
      let! ip := inode_at i in
      if i_ref ip <? 1 then panic "ilock"
      else
        do! acquiresleep (SLinode i) in
        let! ip := inode_at i in
        when (i_valid ip =? 0)
          (let! sb := gets the_sb in
           let! bp := bread (i_dev ip) (IBLOCK (i_inum ip) sb) in
           let! bf := buf_at bp in
           do! upd_inode i (from_dinode (get_dinode (b_data bf) (dinode_off (i_inum ip)))) in
           do! brelse bp in
           do! upd_inode i (fun ip => ip <| i_valid := 1 |>) in
           let! ip := inode_at i in
           when (i_type ip =? 0) (panic "ilock: no type"))
  end.

Definition iunlock (p : option nat) : K unit :=
  match p with
  | None => panic "iunlock"
  | Some i =>
      let! h := holdingsleep (SLinode i) in
      let! ip := inode_at i in
      if (h =? 0) || (i_ref ip <? 1) then panic "iunlock"
      else releasesleep (SLinode i)
  end.

(** ** File blocks *)

(** [if ((addr = ip->addrs[n]) == 0) ip->addrs[n] = addr = balloc(ip->dev);] *)
Definition bmap_slot (i : nat) (n : Z) : K Z :=
  let! ip := inode_at i in
  let! addr := ofopt (zget (i_addrs ip) n) in
  if addr =? 0 then
    let! a := balloc (i_dev ip) in
    do! upd_inode i (fun ip => ip <| i_addrs ::= <[Z.to_nat n := a]> |>) in
    ret a
  else ret addr.

Definition bmap (i : nat) (bn : Z) : K Z :=
  if bn <? NDIRECT then bmap_slot i bn
  else
    let bn := bn - NDIRECT in
    if bn <? NINDIRECT then
      let! addr := bmap_slot i NDIRECT in
      let! ip := inode_at i in
      let! bp := bread (i_dev ip) addr in
      let! bf := buf_at bp in
      let o := Z.to_nat (4 * bn) in
      let addr := get32 (b_data bf) o in
      let! addr := (if addr =? 0 then
                      let! a := balloc (i_dev ip) in
                      do! upd_data bp (fun d => set32 d o a) in
                      do! log_write bp in
                      ret a
                    else ret addr) in
      do! brelse bp in
      ret addr
    else panic "bmap: out of range".

Definition itrunc (i : nat) : K unit :=
  do! foreach (seq 0 (Z.to_nat NDIRECT)) (fun n =>
    let! ip := inode_at i in
    let! a := ofopt (i_addrs ip !! n) in
    when (negb (a =? 0))
      (do! bfree (i_dev ip) a in
       upd_inode i (fun ip => ip <| i_addrs ::= <[n := 0]> |>))) in
  let! ip := inode_at i in
  let! a := ofopt (zget (i_addrs ip) NDIRECT) in
  do! when (negb (a =? 0))
    (let! bp := bread (i_dev ip) a in
     do! foreach (seq 0 (Z.to_nat NINDIRECT)) (fun j =>
       let! bf := buf_at bp in
       let e := get32 (b_data bf) (4 * j) in
       when (negb (e =? 0)) (bfree (i_dev ip) e)) in
     do! brelse bp in
     do! bfree (i_dev ip) a in
     upd_inode i (fun ip => ip <| i_addrs ::= <[Z.to_nat NDIRECT := 0]> |>)) in
  do! upd_inode i (fun ip => ip <| i_size := 0 |>) in
  iupdate i.

Definition iput (i : nat) : K unit :=
  do! acquiresleep (SLinode i) in
  let! ip := inode_at i in
  do! when (negb (i_valid ip =? 0) && (i_nlink ip =? 0))
    (do! acquire Licache in
     let! ip := inode_at i in
     let r := i_ref ip in
     do! release Licache in
     when (r =? 1)
       (do! itrunc i in
        do! upd_inode i (fun ip => ip <| i_type := 0 |>) in
        do! iupdate i in
        upd_inode i (fun ip => ip <| i_valid := 0 |>))) in
  do! releasesleep (SLinode i) in
  do! acquire Licache in
  do! upd_inode i (fun ip => ip <| i_ref ::= fun n => i32 (n - 1) |>) in
  release Licache.

Definition iunlockput (i : nat) : K unit :=
  do! iunlock (Some i) in
  iput i.

(** ** The free-block bitmap *)

Definition bit_of (d : list Z) (bi : Z) : bool := Z.testbit (byte d (bit_byte bi)) (bi mod 8).

Lemma bit_test x bi : (Z.land x (bit_mask bi) =? 0) = negb (Z.testbit x (bi mod 8)).
Proof.
  unfold bit_mask. pose proof (Z.mod_pos_bound bi 8). rewrite Z.shiftl_1_l.
  destruct (Z.testbit x (bi mod 8)) eqn:E; cbn.
  - apply Z.eqb_neq. intros E0. apply (f_equal (fun z => Z.testbit z (bi mod 8))) in E0.
    rewrite Z.land_spec, Z.pow2_bits_true, E, Z.bits_0 in E0 by lia. done.
  - apply Z.eqb_eq. apply Z.bits_inj'. intros n Hn. rewrite Z.land_spec, Z.bits_0, Z.pow2_bits_eqb by lia.
    destruct (Z.eqb_spec (bi mod 8) n) as [<-|]; [by rewrite E|apply andb_false_r].
Qed.

Lemma testbit_u8 x j : 0 <= j < 8 -> Z.testbit (u8 x) j = Z.testbit x j.
Proof. intros Hj. unfold u8. by rewrite Z.mod_pow2_bits_low by lia. Qed.

Lemma bit_same bi bj : 0 <= bi -> 0 <= bj -> bit_byte bi = bit_byte bj -> bi mod 8 = bj mod 8 -> bi = bj.
Proof.
  unfold bit_byte. intros Hi Hj E1 E2. pose proof (Z.div_mod bi 8). pose proof (Z.div_mod bj 8).
  pose proof (Z.div_pos bi 8). pose proof (Z.div_pos bj 8). lia.
Qed.

(** Marking and clearing a bit changes that bit only. *)
Lemma bit_set d bi bj :
  0 <= bi < BPB -> 0 <= bj -> length d = Z.to_nat BSIZE ->
  bit_of (<[bit_byte bi := u8 (Z.lor (byte d (bit_byte bi)) (bit_mask bi))]> d) bj = bit_of d bj || (bj =? bi).
Proof.
  intros Hi Hj Hl. unfold bit_of. pose proof (Z.mod_pos_bound bj 8). pose proof (Z.mod_pos_bound bi 8).
  destruct (decide (bit_byte bi = bit_byte bj)) as [E|E].
  - rewrite E, byte_insert_eq.
    2: { rewrite Hl, <- E. unfold bit_byte, BPB, BSIZE in *. pose proof (Z.div_lt_upper_bound bi 8 1024). lia. }
    rewrite testbit_u8, Z.lor_spec by lia. f_equal. unfold bit_mask. rewrite Z.shiftl_1_l, Z.pow2_bits_eqb by lia.
    destruct (Z.eqb_spec bj bi) as [->|Hne]; [apply Z.eqb_refl|]. apply Z.eqb_neq. intros E2. apply Hne. symmetry. apply bit_same; lia || done.
  - rewrite byte_insert_ne by done. destruct (Z.eqb_spec bj bi) as [->|]; [done|]. by rewrite orb_false_r.
Qed.

Lemma bit_clear d bi bj :
  0 <= bi < BPB -> 0 <= bj -> length d = Z.to_nat BSIZE ->
  bit_of (<[bit_byte bi := u8 (Z.land (byte d (bit_byte bi)) (Z.lnot (bit_mask bi)))]> d) bj = bit_of d bj && negb (bj =? bi).
Proof.
  intros Hi Hj Hl. unfold bit_of. pose proof (Z.mod_pos_bound bj 8). pose proof (Z.mod_pos_bound bi 8).
  destruct (decide (bit_byte bi = bit_byte bj)) as [E|E].
  - rewrite E, byte_insert_eq.
    2: { rewrite Hl, <- E. unfold bit_byte, BPB, BSIZE in *. pose proof (Z.div_lt_upper_bound bi 8 1024). lia. }
    rewrite testbit_u8, Z.land_spec, Z.lnot_spec by lia. f_equal. f_equal. unfold bit_mask. rewrite Z.shiftl_1_l, Z.pow2_bits_eqb by lia.
    destruct (Z.eqb_spec bj bi) as [->|Hne]; [apply Z.eqb_refl|]. apply Z.eqb_neq. intros E2. apply Hne. symmetry. apply bit_same; lia || done.
  - rewrite byte_insert_ne by done. destruct (Z.eqb_spec bj bi) as [->|]; [done|]. by rewrite andb_true_r.
Qed.

(** Whether block [b] is marked in use. *)
Definition used (k : kernel) (b : Z) : bool :=
  match blk k (BBLOCK b (the_sb k)) with
  | Some d => bit_of d (b mod BPB)
  | None => true
  end.

(** The first block after the bitmap: the blocks before it hold the boot block,
    the superblock, the log, the inodes and the bitmap. *)
Definition data_start (sb : superblock) : Z := s_bmapstart sb + s_size sb / BPB + 1.

(** The disk that the superblock in use describes. *)
Record fs_disk (k : kernel) : Prop := {
  fd_size : data_start (the_sb k) <= s_size (the_sb k) < 2 ^ 30;
  fd_bmap : 1 < s_bmapstart (the_sb k);
  fd_dom : forall n, 0 <= n < s_size (the_sb k) -> is_Some (disk k !! n);
  fd_meta : forall n, 0 <= n < data_start (the_sb k) -> used k n = true }.

Lemma BBLOCK_eq k b : fs_disk k -> 0 <= b < s_size (the_sb k) ->
  BBLOCK b (the_sb k) = b / BPB + s_bmapstart (the_sb k) /\ 1 < b / BPB + s_bmapstart (the_sb k) < data_start (the_sb k).
Proof.
  intros [H1 H2 _ _] Hb. unfold BBLOCK, data_start in *. set (sb := the_sb k) in *.
  assert (0 <= b / BPB <= s_size sb / BPB).
  { split; [apply Z.div_pos; unfold BPB, BSIZE; lia|apply Z.div_le_mono; unfold BPB, BSIZE; lia]. }
  rewrite u32_small by lia. lia.
Qed.

(** The same free blocks after a step that leaves the bitmap blocks alone. *)
Lemma used_ext k k' b : the_sb k' = the_sb k -> blk k' (BBLOCK b (the_sb k)) = blk k (BBLOCK b (the_sb k)) -> used k' b = used k b.
Proof. unfold used. by intros -> ->. Qed.

Lemma fs_disk_grow k k' : tframe k k' -> (forall n, 0 <= n < s_size (the_sb k) -> used k n = true -> used k' n = true) ->
  fs_disk k -> fs_disk k'.
Proof.
  intros Hf Hu [H1 H2 H3 H4]. pose proof (tframe_sb _ _ Hf) as Es. pose proof (tframe_disk _ _ Hf) as Ed.
  split; rewrite ?Es, ?Ed; try done. intros n Hn. apply Hu; [|by apply H4]. unfold data_start in *. lia.
Qed.

Section alloc.
Context (me : nat) (pd s : Z).
Implicit Types (k : kernel) (B H : list Z).

Lemma bzero_x k B H n :
  txn me pd k s B H -> n ∉ H -> is_Some (disk k !! n) -> 0 <= n < 2 ^ 31 ->
  (length B < 29)%nat -> (length B + length H < NBUF)%nat ->
  exists k', bzero 1 n k = Ret tt k' /\ txn me pd k' s (add_block n B) H /\
    (forall m, blk k' m = if decide (m = n) then Some (replicate (Z.to_nat BSIZE) 0) else blk k m) /\
    keep_but n k k' /\ tframe k k'.
Proof.
  intros Ht Hn Hd Hr HB HR. destruct (bread_x me pd s k B H n Ht Hn Hd HR) as (i & d & k1 & R1 & T1 & H1 & _ & B1 & K1 & F1 & _).
  destruct (commit_x me pd s k1 B H i n d (fun _ => replicate (Z.to_nat BSIZE) 0) T1 Hn H1) as (k2 & k3 & k4 & R2 & R3 & R4 & T4 & B4 & K4 & F4);
    [apply length_replicate|done..|].
  exists k4. split_and!.
  - unfold bzero. run R1. unfold upd_data. run R2. by run R3.
  - done.
  - intros m. rewrite B4. by case_decide.
  - intros j m e Hm Hj. apply K4; [done|]. by apply K1.
  - by eapply tframe_trans.
Qed.

(** What a successful [balloc] promises. *)
Record balloc_done (k : kernel) (B H : list Z) (b : Z) (k' : kernel) (B' : list Z) : Prop := {
  ba_range : data_start (the_sb k) <= b < s_size (the_sb k);
  ba_free : used k b = false;
  ba_first : forall c, 0 <= c < b -> used k c = true;
  ba_txn : txn me pd k' s B' H;
  ba_log : (length B <= length B' <= length B + 2)%nat;
  ba_zero : blk k' b = Some (replicate (Z.to_nat BSIZE) 0);
  ba_used : forall c, 0 <= c < s_size (the_sb k) -> used k' c = used k c || (c =? b);
  ba_blk : forall m, m <> b -> (m < s_bmapstart (the_sb k) \/ data_start (the_sb k) <= m) -> blk k' m = blk k m;
  ba_keep : forall j m e, m ∈ H -> hb k j m e -> hb k' j m e;
  ba_frame : tframe k k' }.

(** The bits of one bitmap block, as the inner loop scans them. *)
Lemma balloc_scan k i n d b m :
  hb k i n d ->
  match list_find (fun bi => bit_of d bi = false) (seqZ 0 m) with
  | None => first_of (seqZ 0 m) (balloc_try 1 b i) k = Ret None k
  | Some (_, bi) => forall a k', balloc_try 1 b i bi k = Ret (Some a) k' ->
      first_of (seqZ 0 m) (balloc_try 1 b i) k = Ret (Some a) k'
  end.
Proof.
  intros Hhb. apply first_of_find. intros bi _ Hset. destruct (hb_buf _ _ _ _ Hhb) as (bf & Hbf & Hd).
  unfold balloc_try. run Hbf. rewrite bit_test, Hd. change (Z.testbit (byte d (bit_byte bi)) (bi mod 8)) with (bit_of d bi).
  by destruct (bit_of d bi).
Qed.

(** The first free bit is marked and its block zeroed. *)
Lemma balloc_take k B H i n d b bi :
  txn me pd k s B (n :: H) -> hb k i n d -> n ∉ H -> n <> b + bi -> b + bi ∉ H ->
  0 <= n < 2 ^ 31 -> 0 <= b + bi < 2 ^ 31 -> is_Some (disk k !! (b + bi)) -> length d = Z.to_nat BSIZE ->
  (length B < 28)%nat -> (length B + length H + 1 < NBUF)%nat -> bit_of d bi = false ->
  exists k' B', balloc_try 1 b i bi k = Ret (Some (b + bi)) k' /\ txn me pd k' s B' H /\
    (length B <= length B' <= length B + 2)%nat /\
    (forall m, blk k' m = if decide (m = b + bi) then Some (replicate (Z.to_nat BSIZE) 0)
       else if decide (m = n) then Some (<[bit_byte bi := u8 (Z.lor (byte d (bit_byte bi)) (bit_mask bi))]> d) else blk k m) /\
    (forall j m e, m ∈ H -> hb k j m e -> hb k' j m e) /\ tframe k k'.
Proof.
  intros Ht Hhb HnH Hne HbH Hnr Hbr Hdk Hld HB HR Hbit.
  destruct (hb_buf _ _ _ _ Hhb) as (bf & Hbf & Hd).
  set (f := fun d => <[bit_byte bi := u8 (Z.lor (byte d (bit_byte bi)) (bit_mask bi))]> d).
  destruct (commit_x me pd s k B H i n d f Ht HnH Hhb) as (k1 & k2 & k3 & R1 & R2 & R3 & T3 & B3 & K3 & F3);
    [unfold f; by rewrite length_insert|done|lia|].
  pose proof (add_block_length n B) as Hl3.
  destruct (bzero_x k3 (add_block n B) H (b + bi) T3 HbH) as (k4 & R4 & T4 & B4 & K4 & F4);
    [by rewrite (tframe_disk _ _ F3)|done|lia|lia|].
  pose proof (add_block_length (b + bi) (add_block n B)) as Hl4.
  exists k4, (add_block (b + bi) (add_block n B)). split_and!; try done; try lia.
  - unfold balloc_try. run Hbf. rewrite bit_test, Hd. change (Z.testbit (byte d (bit_byte bi)) (bi mod 8)) with (bit_of d bi).
    rewrite Hbit. cbn [negb]. unfold upd_data. run R1. run R2. run R3. by run R4.
  - intros m. rewrite B4. case_decide; [done|]. by rewrite B3.
  - intros j m e Hm Hj. apply K4; [by intros ->|]. apply K3; [by intros ->|done].
  - by eapply tframe_trans.
Qed.

Lemma balloc_done_pre k k1 B H b k' B' :
  (forall m, blk k1 m = blk k m) -> tframe k k1 -> (forall j m e, m ∈ H -> hb k j m e -> hb k1 j m e) ->
  balloc_done k1 B H b k' B' -> balloc_done k B H b k' B'.
Proof.
  intros Hb Hf Hk [A1 A2 A3 A4 A5 A6 A7 A8 A9 A10].
  pose proof (tframe_sb _ _ Hf) as Es. assert (Hu : forall c, used k1 c = used k c) by (intros c; by apply used_ext).
  rewrite Es in *. split; try done.
  - by rewrite <- Hu.
  - intros c Hc. rewrite <- Hu. auto.
  - intros c Hc. rewrite <- Hu. auto.
  - intros m H1 H2. rewrite <- Hb. auto.
  - intros j m e Hm Hj. apply A9; [done|]. by apply Hk.
  - by eapply tframe_trans.
Qed.

(** The body of the outer loop at the bitmap block of [BPB * j]. *)
Lemma balloc_pass k B H j :
  txn me pd k s B H -> fs_disk k -> (forall n, n ∈ H -> data_start (the_sb k) <= n /\ used k n = true) ->
  (length B < 28)%nat -> (length B + length H + 1 < NBUF)%nat ->
  0 <= j -> BPB * j < s_size (the_sb k) -> (forall c, 0 <= c < BPB * j -> used k c = true) ->
  let m := Z.min BPB (s_size (the_sb k) - BPB * j) in
  let pass := (let! bp := bread 1 (BBLOCK (BPB * j) (the_sb k)) in
    let! r := first_of (seqZ 0 m) (balloc_try 1 (BPB * j) bp) in
    match r with Some a => ret (Some a) | None => do! brelse bp in ret None end) in
  (exists b k' B', pass k = Ret (Some b) k' /\ balloc_done k B H b k' B') \/
  (exists k', pass k = Ret None k' /\ txn me pd k' s B H /\ (forall n, blk k' n = blk k n) /\ tframe k k' /\
    (forall i n e, n ∈ H -> hb k i n e -> hb k' i n e) /\ forall c, 0 <= c < BPB * j + m -> used k c = true).
Proof.
  intros Ht Hfs HH HB HR Hj Hjs Hlow m pass. set (sz := s_size (the_sb k)) in *.
  destruct (BBLOCK_eq k (BPB * j) Hfs) as [En Hn]; [unfold BPB, BSIZE in *; lia|].
  rewrite (Z.mul_comm BPB j), Z.div_mul in En, Hn by done. rewrite (Z.mul_comm j BPB) in En. set (n := BBLOCK (BPB * j) (the_sb k)) in *.
  pose proof (fd_size _ Hfs) as Hsz. fold sz in Hsz.
  assert (HnH : n ∉ H) by (intros [? _]%HH; lia).
  assert (Hud : forall bi d, blk k n = Some d -> 0 <= bi < m -> used k (BPB * j + bi) = bit_of d bi /\ BBLOCK (BPB * j + bi) (the_sb k) = n).
  { intros bi d Hd Hbi. unfold used. assert (BBLOCK (BPB * j + bi) (the_sb k) = n) as ->.
    { unfold n, BBLOCK. do 2 f_equal. unfold m, BPB, BSIZE in *. Z.div_mod_to_equations. lia. }
    rewrite Hd. split; [|done]. f_equal. unfold m, BPB, BSIZE in *. Z.div_mod_to_equations. lia. }
  destruct (bread_x me pd s k B H n Ht HnH) as (i & d & k1 & R1 & T1 & H1 & Hd & B1 & K1 & F1 & Hcl & Hld);
    [apply (fd_dom _ Hfs); unfold data_start in *; fold sz; lia|lia|].
  pose proof (balloc_scan k1 i n d (BPB * j) m H1) as Hscan.
  destruct (list_find _ (seqZ 0 m)) as [[x bi]|] eqn:Efind.
  - left. apply list_find_Some in Efind as (Hx & Hbit & Hbefore). apply lookup_seqZ in Hx as [Ebi Hx]. rewrite Z.add_0_l in Ebi.
    assert (Hbi : 0 <= bi < m) by lia. destruct (Hud bi d Hd Hbi) as [Hub _].
    assert (Hb0 : used k (BPB * j + bi) = false) by (by rewrite Hub).
    assert (Hbd : data_start (the_sb k) <= BPB * j + bi < sz).
    { split; [|unfold m in *; lia]. destruct (Z.le_gt_cases (data_start (the_sb k)) (BPB * j + bi)) as [|Hlt]; [done|].
      rewrite (fd_meta _ Hfs) in Hb0; [done|]. unfold BPB, BSIZE in *. lia. }
    destruct (balloc_take k1 B H i n d (BPB * j) bi T1 H1 HnH) as (k2 & B2 & R2 & T2 & L2 & Bk2 & K2 & F2); try done; try lia.
    { intros Hin. apply HH in Hin as [_ Hu]. congruence. }
    { rewrite (tframe_disk _ _ F1). apply (fd_dom _ Hfs). fold sz. lia. }
    exists (BPB * j + bi), k2, B2. split.
    { unfold pass. run R1. run (Hscan _ _ R2). done. }
    assert (F02 : tframe k k2) by (by eapply tframe_trans).
    split; try done.
    + intros c Hc. destruct (Z.le_gt_cases (BPB * j) c) as [Hge|]; [|apply Hlow; lia].
      destruct (Hud (c - BPB * j) d Hd) as [E _]; [unfold m in *; lia|]. replace (BPB * j + (c - BPB * j)) with c in E by lia. rewrite E.
      destruct (bit_of d (c - BPB * j)) eqn:Eb; [done|]. exfalso.
      apply (Hbefore (Z.to_nat (c - BPB * j)) (c - BPB * j)); [|lia|done]. apply lookup_seqZ. unfold m in *. lia.
    + rewrite Bk2, decide_True by done. done.
    + intros c Hc. fold sz in Hc. unfold used at 1. rewrite (tframe_sb _ _ F02). rewrite Bk2.
      destruct (BBLOCK_eq k c Hfs) as [Ec Hcr]; [fold sz; lia|].
      rewrite decide_False by lia. destruct (decide (BBLOCK c (the_sb k) = n)) as [E|E].
      * assert (Ediv : c / BPB = j) by lia.
        rewrite bit_set; [|unfold m, BPB, BSIZE in *; lia|apply Z.mod_pos_bound; unfold BPB, BSIZE; lia|done].
        unfold used. rewrite E, Hd. f_equal. pose proof (Z.div_mod c BPB). unfold BPB, BSIZE in *.
        destruct (Z.eqb_spec (c mod (1024 * 8)) bi), (Z.eqb_spec c (1024 * 8 * j + bi)); lia.
      * rewrite B1. unfold used at 1. destruct (Z.eqb_spec c (BPB * j + bi)) as [->|]; [|by rewrite orb_false_r].
        exfalso. apply E. by eapply Hud.
    + intros x' Hx' Hr. rewrite Bk2, !decide_False, B1 by lia. done.
    + intros i' x' e Hin Hx'. apply K2; [done|]. by apply K1.
  - right. apply list_find_None in Efind.
    destruct (brelse_x me pd s k1 B H i n d T1 HnH H1 Hcl) as (k2 & R2 & T2 & B2 & K2 & F2).
    exists k2. split_and!; try done.
    + unfold pass. run R1. run Hscan. by run R2.
    + intros x. by rewrite B2, B1.
    + by eapply tframe_trans.
    + intros i' x e Hin Hx. apply K2; [by intros ->|]. by apply K1.
    + intros c Hc. destruct (Z.le_gt_cases (BPB * j) c) as [Hge|]; [|apply Hlow; lia].
      destruct (Hud (c - BPB * j) d Hd) as [E _]; [lia|]. replace (BPB * j + (c - BPB * j)) with c in E by lia. rewrite E.
      destruct (bit_of d (c - BPB * j)) eqn:Eb; [done|]. exfalso. rewrite Forall_forall in Efind.
      apply (Efind (c - BPB * j)); [|done]. apply elem_of_seqZ. lia.
Qed.

Lemma balloc_loop m k B H j :
  txn me pd k s B H -> fs_disk k -> (forall n, n ∈ H -> data_start (the_sb k) <= n /\ used k n = true) ->
  (length B < 28)%nat -> (length B + length H + 1 < NBUF)%nat -> 0 <= j ->
  (s_size (the_sb k) + BPB - 1) / BPB - j = Z.of_nat m ->
  (forall c, 0 <= c < BPB * j -> c < s_size (the_sb k) -> used k c = true) ->
  let body b := (let! bp := bread 1 (BBLOCK b (the_sb k)) in
    let! r := first_of (seqZ 0 (Z.min BPB (s_size (the_sb k) - b))) (balloc_try 1 b bp) in
    match r with Some a => ret (Some a) | None => do! brelse bp in ret None end) in
  (exists b k' B', first_of ((fun j => BPB * j) <$> seqZ j (Z.of_nat m)) body k = Ret (Some b) k' /\ balloc_done k B H b k' B') \/
  (exists k', first_of ((fun j => BPB * j) <$> seqZ j (Z.of_nat m)) body k = Ret None k' /\
     forall c, 0 <= c < s_size (the_sb k) -> used k c = true).
Proof.
  revert k j. induction m as [|m IH]; intros k j Ht Hfs HH HB HR Hj Hm Hlow body; set (sz := s_size (the_sb k)) in *.
  - right. exists k. split; [done|]. intros c Hc. apply Hlow; [|lia]. unfold BPB, BSIZE in *. Z.div_mod_to_equations. lia.
  - rewrite Nat2Z.inj_succ, seqZ_cons by lia. replace (Z.pred (Z.succ (Z.of_nat m))) with (Z.of_nat m) by lia. cbn [fmap list_fmap first_of].
    assert (Hjs : BPB * j < sz) by (unfold BPB, BSIZE in *; Z.div_mod_to_equations; lia).
    destruct (balloc_pass k B H j) as [(b & k' & B' & R & D)|(k1 & R1 & T1 & B1 & F1 & K1 & U1)]; try done.
    { intros c Hc. apply Hlow; fold sz; lia. }
    { left. exists b, k', B'. split; [|done]. fold sz in R. unfold body at 1. by run R. }
    pose proof (tframe_sb _ _ F1) as Es. assert (Hu : forall c, used k1 c = used k c) by (intros c; by apply used_ext).
    fold sz in R1, U1. destruct (IH k1 (Z.succ j)) as [(b & k' & B' & R & D)|(k' & R & D)]; try done; rewrite ?Es; fold sz; try lia.
    { apply (fs_disk_grow k k1); [done| |done]. intros n _. by rewrite Hu. }
    { intros n. rewrite Hu. apply HH. }
    { intros c Hc Hc2. rewrite Hu. apply U1. lia. }
    + left. exists b, k', B'. split; [|by eapply balloc_done_pre]. unfold body at 1. run R1. by rewrite <- R, Es.
    + right. exists k'. split; [unfold body at 1; run R1; by rewrite <- R, Es|]. rewrite Es in D.
      intros c Hc. rewrite <- Hu. by apply D.
Qed.

(** [balloc] takes the first free block, marks it and zeroes it; with no free
    block it panics. *)
Lemma balloc_run k B H :
  txn me pd k s B H -> fs_disk k -> (forall n, n ∈ H -> data_start (the_sb k) <= n /\ used k n = true) ->
  (length B < 28)%nat -> (length B + length H + 1 < NBUF)%nat ->
  (exists b k' B', balloc 1 k = Ret b k' /\ balloc_done k B H b k' B') \/
  (exists k', balloc 1 k = Panic "balloc: out of blocks" k' /\ forall c, 0 <= c < s_size (the_sb k) -> used k c = true).
Proof.
  intros Ht Hfs HH HB HR. assert (Hsz : 0 <= s_size (the_sb k)).
  { pose proof (fd_size _ Hfs). pose proof (fd_bmap _ Hfs). unfold data_start in *. change BPB with 8192 in *. Z.div_mod_to_equations. lia. }
  set (N := (s_size (the_sb k) + BPB - 1) / BPB). assert (HN : 0 <= N) by (apply Z.div_pos; unfold BPB, BSIZE; lia).
  destruct (balloc_loop (Z.to_nat N) k B H 0) as [(b & k' & B' & R & D)|(k' & R & D)]; try done.
  { fold N. lia. } { intros c Hc. unfold BPB in Hc. lia. }
  all: rewrite Z2Nat.id in R by lia; unfold balloc; rewrite bind_gets; fold N.
  - left. exists b, k', B'. by run R.
  - right. exists k'. by run R.
Qed.

(** [bfree] clears the block's bit. *)
Lemma bfree_run k B H b d1 :
  txn me pd k s B H -> fs_disk k -> (forall n, n ∈ H -> data_start (the_sb k) <= n) ->
  (length B < 29)%nat -> (length B + length H < NBUF)%nat ->
  blk k 1 = Some d1 -> the_sb k = mk_superblock (get32 d1 0) (get32 d1 4) (get32 d1 8) (get32 d1 12) (get32 d1 16) (get32 d1 20) (get32 d1 24) ->
  0 <= b < s_size (the_sb k) -> used k b = true ->
  exists k', bfree 1 b k = Ret tt k' /\ txn me pd k' s (add_block (BBLOCK b (the_sb k)) B) H /\
    (forall c, 0 <= c < s_size (the_sb k) -> used k' c = used k c && negb (c =? b)) /\
    (forall m, m <> BBLOCK b (the_sb k) -> blk k' m = blk k m) /\ (forall j m e, m ∈ H -> hb k j m e -> hb k' j m e) /\ tframe k k'.
Proof.
  intros Ht Hfs HH HB HR Hd1 Hsb Hb Hu. pose proof (fd_size _ Hfs) as Hsz. pose proof (fd_bmap _ Hfs) as Hbm.
  assert (Hds : 1 < data_start (the_sb k)).
  { unfold data_start in *. change BPB with 8192 in *. Z.div_mod_to_equations. lia. }
  destruct (peek_x me pd s k B H 1) as (i & d & k1 & k2 & R1 & H1 & R2 & Hd & T1 & T2 & B1 & B2 & K1 & K2 & F1 & F2); try done.
  { intros ?%HH. lia. } { apply (fd_dom _ Hfs). lia. }
  rewrite Hd1 in Hd. injection Hd as <-. destruct (hb_buf _ _ _ _ H1) as (bf & Hbf & Ebf).
  assert (Hrs : readsb 1 k = Ret (the_sb k) k2).
  { unfold readsb. run R1. run Hbf. rewrite Ebf. run R2. by rewrite Hsb. }
  assert (Ek2 : k2 <| the_sb := the_sb k |> = k2) by (rewrite F2; by kernel_eq).
  destruct (BBLOCK_eq k b Hfs Hb) as [En Hn]. set (n := BBLOCK b (the_sb k)) in *.
  assert (HnH : n ∉ H) by (intros ?%HH; lia).
  destruct (bread_x me pd s k2 B H n T2 HnH) as (i3 & d3 & k3 & R3 & T3 & H3 & Hd3 & B3 & K3 & F3 & _ & Hl3); [|lia|].
  { rewrite (tframe_disk _ _ F2). apply (fd_dom _ Hfs). unfold n. lia. }
  destruct (hb_buf _ _ _ _ H3) as (bf3 & Hbf3 & Ebf3). rewrite B2 in Hd3.
  assert (Hm : 0 <= b mod BPB < BPB) by (apply Z.mod_pos_bound; unfold BPB, BSIZE; lia).
  set (f := fun d => <[bit_byte (b mod BPB) := u8 (Z.land (byte d (bit_byte (b mod BPB))) (Z.lnot (bit_mask (b mod BPB))))]> d).
  destruct (commit_x me pd s k3 B H i3 n d3 f T3 HnH H3) as (k4 & k5 & k6 & R4 & R5 & R6 & T6 & B6 & K6 & F6);
    [unfold f; by rewrite length_insert|lia|done|].
  assert (F : tframe k k6) by (eapply tframe_trans; [exact F2|]; by eapply tframe_trans).
  exists k6. split_and!; try done.
  - unfold bfree. run Hrs. change (bind (modify ?g) ?h k2) with (h tt (g k2)). cbv beta. rewrite Ek2. run R3. run Hbf3.
    rewrite bit_test, Ebf3. unfold used in Hu. fold n in Hu. rewrite Hd3 in Hu. unfold bit_of in Hu. rewrite Hu.
    cbn [negb]. unfold upd_data. run R4. by run R5.
  - intros c Hc. unfold used. rewrite (tframe_sb _ _ F), B6. destruct (BBLOCK_eq k c Hfs Hc) as [Ec _]. case_decide as E.
    + rewrite E, Hd3. unfold f. rewrite bit_clear; [|done|apply Z.mod_pos_bound; unfold BPB, BSIZE; lia|done].
      f_equal. f_equal. pose proof (Z.div_mod c BPB). pose proof (Z.div_mod b BPB). unfold BPB, BSIZE in *.
      destruct (Z.eqb_spec (c mod (1024 * 8)) (b mod (1024 * 8))), (Z.eqb_spec c b); lia || congruence.
    + rewrite B3, B2. destruct (Z.eqb_spec c b) as [->|]; [done|]. by rewrite andb_true_r.
  - intros m Hm'. by rewrite B6, decide_False, B3, B2.
  - intros j m e Hin Hj. apply K6; [by intros ->|]. apply K3, K2; [intros ->; apply HH in Hin; lia|done].
Qed.
End alloc.
