(* ===== verification/Bmap.v ===== *)
(** * The blocks of a file

    Correctness of [bmap] ([src/fs.c]): the block map of an inode, with its direct
    entries and its indirect block, and what allocating a block for a file leaves
    alone. *)

From S2P Require Import Prelude CString Headers Spinlock Ring Sched Sleeplock Dll Bio Bcache Bytes Log Txn Inode.

(** ** The blocks of a file *)

(** The indirect block and block [n] of a file; 0 when there is none. *)
Definition ind (ip : inode) : Z := nth 12 (i_addrs ip) 0.
Definition fblock (k : kernel) (ip : inode) (n : Z) : Z :=
  if n <? NDIRECT then nth (Z.to_nat n) (i_addrs ip) 0
  else if ind ip =? 0 then 0
  else match blk k (ind ip) with
       | Some d => get32 d (Z.to_nat (4 * (n - NDIRECT)))
       | None => 0
       end.

(** A block that may belong to a file: past the bitmap and marked in use. *)
Definition data_block (k : kernel) (b : Z) : Prop :=
  data_start (the_sb k) <= b < s_size (the_sb k) /\ used k b = true.

(** The blocks of a file are in use, and no block occurs twice. *)
Record file_ok (k : kernel) (ip : inode) : Prop := {
  fo_dev : i_dev ip = 1;
  fo_len : length (i_addrs ip) = 13%nat;
  fo_blk : forall n, 0 <= n < MAXFILE -> fblock k ip n <> 0 -> data_block k (fblock k ip n);
  fo_ind : ind ip <> 0 -> data_block k (ind ip);
  fo_ind_ne : ind ip <> 0 -> forall n, 0 <= n < MAXFILE -> fblock k ip n <> ind ip;
  fo_inj : forall m n, 0 <= m < MAXFILE -> 0 <= n < MAXFILE -> fblock k ip m <> 0 -> fblock k ip m = fblock k ip n -> m = n }.

(** At least [n] blocks are free. *)
Definition free_blocks (k : kernel) (n : nat) : Prop :=
  exists l, NoDup l /\ (forall b, b ∈ l -> 0 <= b < s_size (the_sb k) /\ used k b = false) /\ (n <= length l)%nat.

Lemma txn_icache me pd k s B H l : txn me pd k s B H -> txn me pd (k <| icache := l |>) s B H.
Proof.
  intros [[[E1 E2 E3 E4] [l' Hbc] Hd Hb] Hl Ho Hs]. split; try done. split; try done.
  - split; try done. by eapply sched_ok_ext; [..|exact E4].
  - exists l'. by eapply bc_inv_ext; [..|exact Hbc].
Qed.

Lemma fs_disk_icache k l : fs_disk k -> fs_disk (k <| icache := l |>).
Proof. by intros [H1 H2 H3 H4]. Qed.

Lemma free_blocks_taken k k' n b :
  the_sb k' = the_sb k -> (forall c, 0 <= c < s_size (the_sb k) -> used k' c = used k c || (c =? b)) ->
  free_blocks k (S n) -> free_blocks k' n.
Proof.
  intros Es Hu (l & Hnd & Hl & Hn). exists (filter (fun c => c <> b) l). split_and!.
  - by apply NoDup_filter.
  - intros c [Hcb Hc]%list_elem_of_filter. destruct (Hl c Hc) as [Hr Hf]. rewrite Es. split; [done|].
    rewrite (Hu c Hr), Hf. cbn. by apply Z.eqb_neq.
  - assert (Hsub : l ⊆+ b :: filter (fun c => c <> b) l).
    { apply NoDup_submseteq; [done|]. intros c Hc. destruct (decide (c = b)) as [->|]; [by left|]. right. by apply list_elem_of_filter. }
    apply submseteq_length in Hsub. cbn in Hsub. lia.
Qed.

Section balloc_in.
Context (me : nat) (pd s : Z).

(** With a free block [balloc] returns. *)
Lemma balloc_ok k B H n :
  txn me pd k s B H -> fs_disk k -> (forall b, b ∈ H -> data_block k b) ->
  (length B < 28)%nat -> (length B + length H + 1 < NBUF)%nat -> free_blocks k (S n) ->
  exists b k' B', balloc 1 k = Ret b k' /\ balloc_done me pd s k B H b k' B' /\ fs_disk k' /\ free_blocks k' n /\
    (forall c, data_block k c -> data_block k' c /\ c <> b) /\ data_block k' b.
Proof.
  intros Ht Hfs HH HB HR Hfree. destruct (balloc_run me pd s k B H Ht Hfs) as [(b & k' & B' & R & D)|(k' & _ & Hall)]; try done.
  { intros c Hc. destruct (HH c Hc) as [? ?]. split; [lia|done]. }
  - pose proof (tframe_sb _ _ (ba_frame _ _ _ _ _ _ _ _ _ D)) as Es. pose proof (ba_used _ _ _ _ _ _ _ _ _ D) as Hu.
    pose proof (ba_range _ _ _ _ _ _ _ _ _ D) as Hr. pose proof (fd_bmap _ Hfs) as Hbm.
    assert (Hds : 0 < data_start (the_sb k)).
    { pose proof (fd_size _ Hfs). unfold data_start in *. change BPB with 8192 in *. Z.div_mod_to_equations. lia. }
    exists b, k', B'. split_and!; try done.
    + eapply fs_disk_grow; [apply D| |done]. intros c Hc E. by rewrite Hu, E.
    + eapply free_blocks_taken; try done.
    + intros c [Hc Huc]. split.
      * split; rewrite ?Es; [done|]. by rewrite Hu, Huc by lia.
      * intros ->. by rewrite (ba_free _ _ _ _ _ _ _ _ _ D) in Huc.
    + split; rewrite ?Es; [done|]. rewrite Hu by lia. by rewrite Z.eqb_refl, orb_true_r.
  - exfalso. destruct Hfree as (l & _ & Hl & Hn). destruct l as [|b l]; [cbn in Hn; lia|].
    destruct (Hl b ltac:(by left)) as [Hr Hu]. rewrite Hall in Hu by done. done.
Qed.

Context (i : nat).

Lemma bmap_slot_old k ip n a :
  icache k !! i = Some ip -> i_addrs ip !! Z.to_nat n = Some a -> 0 <= n -> a <> 0 -> bmap_slot i n k = Ret a k.
Proof.
  intros Hi Ha Hn H0. unfold bmap_slot. run (inode_at_run _ _ _ Hi). unfold zget. rewrite (proj2 (Z.leb_le 0 n)) by lia. rewrite Ha.
  change (bind (ofopt (Some a)) ?f k) with (f a k). cbv beta. by rewrite (proj2 (Z.eqb_neq a 0)).
Qed.

Lemma bmap_slot_new k k1 ip n b :
  icache k !! i = Some ip -> i_addrs ip !! Z.to_nat n = Some 0 -> 0 <= n -> i_dev ip = 1 -> balloc 1 k = Ret b k1 -> icache k1 = icache k ->
  bmap_slot i n k = Ret b (k1 <| icache := <[i := ip <| i_addrs ::= <[Z.to_nat n := b]> |>]> (icache k) |>).
Proof.
  intros Hi Ha Hn Hd R E. unfold bmap_slot. run (inode_at_run _ _ _ Hi). unfold zget. rewrite (proj2 (Z.leb_le 0 n)) by lia. rewrite Ha.
  change (bind (ofopt (Some ?a)) ?f k) with (f a k). cbv beta. cbn [Z.eqb]. rewrite Hd. run R.
  assert (Hi1 : icache k1 !! i = Some ip) by (by rewrite E). erewrite bind_run; [|by apply upd_inode_run].
  unfold ret. f_equal. kernel_eq. by rewrite E.
Qed.
End balloc_in.

(** What [bmap] promises: block [bn] of the file is now [a]; a new block is
    zeroed; nothing else changes but the file's indirect block and the bitmap. *)
Record bmap_done (me : nat) (pd s : Z) (i c f : nat) (k : kernel) (ip : inode) (B : list Z) (bn a : Z)
    (k' : kernel) (ip' : inode) (B' : list Z) : Prop := {
  bd_txn : txn me pd k' s B' [];
  bd_fs : fs_disk k';
  bd_log : (length B <= length B' <= length B + c)%nat;
  bd_ic : icache k' = <[i := ip']> (icache k);
  bd_same : ip' = ip <| i_addrs := i_addrs ip' |>;
  bd_ok : file_ok k' ip';
  bd_at : fblock k' ip' bn = a /\ a <> 0;
  bd_other : forall m, 0 <= m < MAXFILE -> m <> bn -> fblock k' ip' m = fblock k ip m;
  bd_old : fblock k ip bn <> 0 -> a = fblock k ip bn;
  bd_new : fblock k ip bn = 0 -> blk k' a = Some (replicate (Z.to_nat BSIZE) 0) /\ ~ data_block k a;
  bd_data : forall b, data_block k b -> data_block k' b;
  bd_blk : forall m, m < s_bmapstart (the_sb k) \/ data_block k m -> m <> ind ip -> blk k' m = blk k m;
  bd_ind : ind ip' = ind ip \/ (ind ip = 0 /\ ~ data_block k (ind ip'));
  bd_frame : tframe (k <| icache := icache k' |>) k';
  bd_free : forall n, free_blocks k (f + n) -> free_blocks k' n }.

Lemma free_blocks_le k m n : (m <= n)%nat -> free_blocks k n -> free_blocks k m.
Proof. intros Hm (l & H1 & H2 & H3). exists l. split_and!; [done..|lia]. Qed.

Lemma nth_insert (l : list Z) n m a : (n < length l)%nat -> nth m (<[n := a]> l) 0 = if decide (m = n) then a else nth m l 0.
Proof.
  intros Hn. rewrite !nth_lookup. case_decide as E.
  - subst. by rewrite list_lookup_insert_eq.
  - by rewrite list_lookup_insert_ne.
Qed.

Lemma nth_Some (l : list Z) n : (n < length l)%nat -> l !! n = Some (nth n l 0).
Proof. intros Hn. rewrite nth_lookup. destruct (lookup_lt_is_Some_2 l n Hn) as [x ->]. done. Qed.

Lemma bmap_data k : fs_disk k -> 1 < s_bmapstart (the_sb k) < data_start (the_sb k).
Proof.
  intros Hfs. pose proof (fd_size _ Hfs). pose proof (fd_bmap _ Hfs). unfold data_start in *. change BPB with 8192 in *.
  Z.div_mod_to_equations. lia.
Qed.

Lemma addr_range k : fs_disk k -> 0 < data_start (the_sb k).
Proof.
  intros Hfs. pose proof (fd_size _ Hfs). pose proof (fd_bmap _ Hfs). unfold data_start in *. change BPB with 8192 in *.
  Z.div_mod_to_equations. lia.
Qed.

(** A file whose blocks have moved on as told is well formed again. *)
Lemma file_ok_with k k' ip ip' bn a :
  file_ok k ip -> i_dev ip' = i_dev ip -> length (i_addrs ip') = 13%nat -> 0 <= bn < MAXFILE ->
  (forall c, data_block k c -> data_block k' c) ->
  (forall m, 0 <= m < MAXFILE -> fblock k' ip' m = if decide (m = bn) then a else fblock k ip m) ->
  a <> 0 -> data_block k' a -> a = fblock k ip bn \/ ~ data_block k a ->
  ind ip' = ind ip \/ (ind ip = 0 /\ data_block k' (ind ip') /\ ~ data_block k (ind ip')) -> a <> ind ip' ->
  file_ok k' ip'.
Proof.
  intros [O1 O2 O3 O4 O5 O6] Hd Hl Hbn Hmono Hfb Ha0 Ha Hfresh Hind Hai.
  split; [congruence|done| | | |].
  - intros n Hn. rewrite Hfb by done. case_decide; [done|]. auto.
  - destruct Hind as [->|(_ & ? & _)]; auto.
  - intros Hi n Hn. rewrite Hfb by done. case_decide; [done|]. destruct Hind as [E|(_ & _ & Hnd)].
    + rewrite E in *. auto.
    + intros E. destruct (decide (fblock k ip n = 0)); [congruence|]. apply Hnd. rewrite <- E. auto.
  - intros m n Hm Hn. rewrite !Hfb by done. assert (Hx : forall m, 0 <= m < MAXFILE -> m <> bn -> fblock k ip m <> 0 -> fblock k ip m <> a).
    { intros x Hx Hne Hx0 E. destruct Hfresh as [->|Hnd]; [apply Hne; by apply O6|]. apply Hnd. rewrite <- E. auto. }
    repeat case_decide; subst; try done; intros Hm0 E.
    + exfalso. apply (Hx n); [done..|congruence|done].
    + exfalso. apply (Hx m); done.
    + auto.
Qed.

Section bmap_runs.
Context (me : nat) (pd s : Z) (i : nat).

(** A block that is already there. *)
Lemma bmap_done_old k ip B bn k' :
  txn me pd k s B [] -> fs_disk k -> icache k !! i = Some ip -> file_ok k ip -> 0 <= bn < MAXFILE -> fblock k ip bn <> 0 ->
  txn me pd k' s B [] -> (forall m, blk k' m = blk k m) -> tframe k k' ->
  bmap_done me pd s i 0 0 k ip B bn (fblock k ip bn) k' ip B.
Proof.
  intros Ht Hfs Hi Hok Hbn H0 Ht' Hb Hf. pose proof (tframe_sb _ _ Hf) as Es.
  assert (Hu : forall c, used k' c = used k c) by (intros; by apply used_ext).
  assert (Hfb : forall m, fblock k' ip m = fblock k ip m) by (intros m; unfold fblock; by rewrite Hb).
  assert (Hd : forall c, data_block k c <-> data_block k' c) by (intros c; unfold data_block; by rewrite Es, Hu).
  split; try done; try (by left).
  - eapply fs_disk_grow; [done| |done]. intros n _. by rewrite Hu.
  - lia.
  - rewrite (tframe_icache _ _ Hf). by rewrite list_insert_id.
  - by destruct ip.
  - apply (file_ok_with k k' ip ip bn (fblock k ip bn)); try done; try by left.
    + apply Hok.
    + intros c. by apply Hd.
    + intros m _. rewrite Hfb. case_decide; by subst.
    + apply Hd. by apply Hok.
    + destruct (decide (ind ip = 0)) as [E|E]; [by rewrite E|]. by apply Hok.
  - intros c. by apply Hd.
  - rewrite (tframe_icache _ _ Hf). unfold tframe in *. rewrite Hf. by kernel_eq.
  - intros n Hfr. destruct Hfr as (l & H1 & H2 & H3). exists l. split_and!; [done| |lia]. intros b. rewrite Es, Hu. apply H2.
Qed.

(** A new direct block. *)
Lemma bmap_done_direct k ip B bn a k1 B1 :
  fs_disk k -> icache k !! i = Some ip -> file_ok k ip -> 0 <= bn < NDIRECT -> fblock k ip bn = 0 ->
  balloc_done me pd s k B [] a k1 B1 -> fs_disk k1 -> (forall n, free_blocks k (S n) -> free_blocks k1 n) ->
  (forall c, data_block k c -> data_block k1 c /\ c <> a) -> data_block k1 a ->
  let ip' := ip <| i_addrs ::= <[Z.to_nat bn := a]> |> in
  bmap_done me pd s i 2 1 k ip B bn a (k1 <| icache := <[i := ip']> (icache k) |>) ip' B1.
Proof.
  intros Hfs Hi Hok Hbn H0 D Hfs1 Hfr Hmono Ha ip'. set (k' := k1 <| icache := _ |>).
  destruct D as [D1 D2 D3 D4 D5 D6 D7 D8 D9 D10]. pose proof (addr_range k Hfs) as Hds. pose proof (fo_len _ _ Hok) as Hl.
  assert (Hbn' : (Z.to_nat bn < length (i_addrs ip))%nat) by (rewrite Hl; unfold NDIRECT in *; lia).
  assert (Hnd : ~ data_block k a) by (intros [_ E]; congruence).
  assert (Hind : ind ip' = ind ip).
  { unfold ind, ip'. cbn. rewrite nth_insert by done. rewrite decide_False; [done|]. unfold NDIRECT in *. lia. }
  assert (Hia : ind ip <> a) by (intros E; destruct (decide (ind ip = 0)); [lia|]; apply Hnd; rewrite <- E; by apply Hok).
  assert (Hfb : forall m, 0 <= m < MAXFILE -> fblock k' ip' m = if decide (m = bn) then a else fblock k ip m).
  { intros m Hm. unfold fblock. rewrite Hind. destruct (Z.ltb_spec m NDIRECT).
    - unfold ip'. cbn. rewrite nth_insert by done. repeat case_decide; lia || done.
    - rewrite decide_False by lia. destruct (Z.eqb_spec (ind ip) 0) as [|Hi0]; [done|]. change (blk k' (ind ip)) with (blk k1 (ind ip)).
      rewrite D8; [done|done|]. right. by destruct (fo_ind _ _ Hok Hi0) as [[? ?] _]. }
  assert (Hm' : forall c, data_block k c -> data_block k' c) by (intros c Hc; by destruct (Hmono c Hc)).
  split; try done; try (by left).
  - by apply txn_icache.
  - by apply fs_disk_icache.
  - apply (file_ok_with k k' ip ip' bn a); try done; try lia.
    + unfold ip'. cbn. by rewrite length_insert.
    + change MAXFILE with 268. unfold NDIRECT in *. lia.
    + by right.
  - split; [|lia]. rewrite Hfb, decide_True; [done|done|]. change MAXFILE with 268. unfold NDIRECT in *. lia.
  - intros m Hm Hne. by rewrite Hfb, decide_False.
  - intros m Hm _. change (blk k' m) with (blk k1 m). apply D8.
    + destruct Hm as [Hm|Hm]; [|by intros ->]. intros ->. pose proof (bmap_data _ Hfs). lia.
    + destruct Hm as [Hm|[[? ?] _]]; [by left|by right].
  - unfold tframe in *. unfold k'. rewrite D10. by kernel_eq.
Qed.

(** The slot of the indirect block, as [bmap_slot] leaves it. *)
Record slot_done (k : kernel) (ip : inode) (B : list Z) (X : Z) (k1 : kernel) (ip1 : inode) (B1 : list Z) : Prop := {
  sd_txn : txn me pd k1 s B1 [];
  sd_fs : fs_disk k1;
  sd_log : (length B <= length B1 <= length B + 2)%nat;
  sd_ic : icache k1 = <[i := ip1]> (icache k);
  sd_same : ip1 = ip <| i_addrs := i_addrs ip1 |>;
  sd_ok : file_ok k1 ip1;
  sd_ind : ind ip1 = X /\ X <> 0;
  sd_fb : forall m, 0 <= m < MAXFILE -> fblock k1 ip1 m = fblock k ip m;
  sd_data : forall b, data_block k b -> data_block k1 b;
  sd_blk : forall m, m < s_bmapstart (the_sb k) \/ data_block k m -> blk k1 m = blk k m;
  sd_frame : tframe (k <| icache := icache k1 |>) k1;
  sd_free : forall n, free_blocks k (S n) -> free_blocks k1 n;
  sd_fresh : ind ip = X \/ (ind ip = 0 /\ ~ data_block k X) }.

Lemma get32_zeros n o : get32 (replicate n 0) o = 0.
Proof.
  unfold get32, byte. assert (Hz : forall j, default 0 (replicate n 0 !! j) = 0).
  { intros j. destruct (replicate n 0 !! j) eqn:E; [|done]. by apply lookup_replicate in E as [-> _]. }
  by rewrite !Hz.
Qed.

(** A new indirect block has no entries. *)
Lemma slot_new k ip B X k1 B1 :
  fs_disk k -> icache k !! i = Some ip -> file_ok k ip -> ind ip = 0 ->
  balloc_done me pd s k B [] X k1 B1 -> fs_disk k1 -> (forall n, free_blocks k (S n) -> free_blocks k1 n) ->
  (forall c, data_block k c -> data_block k1 c /\ c <> X) -> data_block k1 X ->
  let ip1 := ip <| i_addrs ::= <[12%nat := X]> |> in
  slot_done k ip B X (k1 <| icache := <[i := ip1]> (icache k) |>) ip1 B1.
Proof.
  intros Hfs Hi Hok H0 D Hfs1 Hfr Hmono HX ip1. set (k' := k1 <| icache := _ |>).
  destruct D as [D1 D2 D3 D4 D5 D6 D7 D8 D9 D10]. pose proof (addr_range k Hfs) as Hds. pose proof (fo_len _ _ Hok) as Hl.
  assert (Hnd : ~ data_block k X) by (intros [_ E]; congruence).
  assert (Hind : ind ip1 = X) by (unfold ind, ip1; cbn; rewrite nth_insert by (rewrite Hl; lia); done).
  assert (Hfb : forall m, 0 <= m < MAXFILE -> fblock k' ip1 m = fblock k ip m).
  { intros m Hm. unfold fblock. rewrite Hind, H0. destruct (Z.ltb_spec m NDIRECT).
    - unfold ip1. cbn. rewrite nth_insert by (rewrite Hl; lia). rewrite decide_False; [done|]. unfold NDIRECT in *. lia.
    - rewrite (proj2 (Z.eqb_neq X 0)) by lia. change (blk k' X) with (blk k1 X). rewrite D6. apply get32_zeros. }
  assert (Hm' : forall c, data_block k c -> data_block k' c) by (intros c Hc; by destruct (Hmono c Hc)).
  split; try done; try (by right); try lia.
  - by apply txn_icache.
  - by apply fs_disk_icache.
  - destruct Hok as [O1 O2 O3 O4 O5 O6]. split; [done|unfold ip1; cbn; by rewrite length_insert|..].
    + intros n Hn. rewrite Hfb by done. auto.
    + intros _. by rewrite Hind.
    + intros _ n Hn. rewrite Hfb, Hind by done. intros E. destruct (decide (fblock k ip n = 0)); [lia|]. apply Hnd. rewrite <- E. auto.
    + intros m n Hm Hn. rewrite !Hfb by done. auto.
  - intros m Hm. change (blk k' m) with (blk k1 m). apply D8.
    + destruct Hm as [Hm|Hm]; [|by intros ->]. intros ->. pose proof (bmap_data _ Hfs). lia.
    + destruct Hm as [Hm|[[? ?] _]]; [by left|by right].
  - unfold tframe in *. unfold k'. rewrite D10. by kernel_eq.
Qed.

Lemma slot_run k ip B :
  txn me pd k s B [] -> fs_disk k -> icache k !! i = Some ip -> file_ok k ip -> (length B < 28)%nat -> free_blocks k 1 ->
  exists X k1 ip1 B1, bmap_slot i NDIRECT k = Ret X k1 /\ slot_done k ip B X k1 ip1 B1.
Proof.
  intros Ht Hfs Hi Hok HB Hfree. assert (Ha : i_addrs ip !! Z.to_nat NDIRECT = Some (ind ip)).
  { apply nth_Some. rewrite (fo_len _ _ Hok). unfold NDIRECT. lia. }
  destruct (decide (ind ip = 0)) as [E|E].
  - destruct (balloc_ok me pd s k B [] 0 Ht Hfs) as (X & k1 & B1 & R & D & Hfs1 & _ & Hmono & HX); try done; [by intros ? ?%elem_of_nil|cbn; unfold NBUF; lia|].
    pose proof (ba_frame _ _ _ _ _ _ _ _ _ D) as Hf. pose proof (tframe_sb _ _ Hf) as Es.
    eexists X, _, _, B1. split.
    + apply (bmap_slot_new _ k k1 ip); try done; [by rewrite <- E|apply Hok|by apply tframe_icache].
    + apply slot_new; try done. intros n. eapply free_blocks_taken; [done|]. apply D.
  - exists (ind ip), k, ip, B. split; [by apply (bmap_slot_old i k ip)|]. split; try done; try lia.
    + by rewrite list_insert_id.
    + by destruct ip.
    + unfold tframe. by kernel_eq.
    + intros n. apply free_blocks_le. lia.
Qed.

Lemma entry_range bn (d : list Z) : NDIRECT <= bn < MAXFILE -> length d = Z.to_nat BSIZE -> (Z.to_nat (4 * (bn - NDIRECT)) + 4 <= length d)%nat.
Proof. intros Hbn ->. change MAXFILE with 268 in *. unfold NDIRECT, BSIZE in *. lia. Qed.

(** A new entry in the indirect block: the block is allocated while the indirect
    block is held. *)
Lemma entry_new k ip B bn X :
  txn me pd k s B [] -> fs_disk k -> icache k !! i = Some ip -> file_ok k ip -> ind ip = X -> X <> 0 ->
  NDIRECT <= bn < MAXFILE -> fblock k ip bn = 0 -> (length B < 27)%nat -> free_blocks k 1 ->
  exists bp d k2 a k3 k4 k5 k' B', let o := Z.to_nat (4 * (bn - NDIRECT)) in
    bread 1 X k = Ret bp k2 /\ hb k2 bp X d /\ get32 d o = 0 /\ balloc 1 k2 = Ret a k3 /\
    upd_data bp (fun d => set32 d o a) k3 = Ret tt k4 /\ log_write bp k4 = Ret tt k5 /\ brelse bp k5 = Ret tt k' /\
    bmap_done me pd s i 3 1 k ip B bn a k' ip B'.
Proof.
  intros Ht Hfs Hi Hok EX HX Hbn H0 HB Hfree. destruct (fo_ind _ _ Hok) as [HXr HXu]; [congruence|]. rewrite EX in HXr, HXu.
  pose proof (addr_range k Hfs) as Hds. pose proof (fd_size _ Hfs) as Hsz.
  destruct (bread_x me pd s k B [] X Ht) as (bp & d & k2 & R2 & T2 & H2 & Hd & B2 & K2 & F2 & _ & Hld);
    [apply not_elem_of_nil|apply (fd_dom _ Hfs); lia|cbn; unfold NBUF; lia|].
  pose proof (entry_range bn d Hbn Hld) as Ho. set (o := Z.to_nat (4 * (bn - NDIRECT))) in *.
  assert (Hbn' : 0 <= bn < MAXFILE) by (unfold NDIRECT in *; lia).
  assert (Hfe : forall m, NDIRECT <= m -> fblock k ip m = get32 d (Z.to_nat (4 * (m - NDIRECT)))).
  { intros m Hm. unfold fblock. rewrite (proj2 (Z.ltb_ge m NDIRECT)), EX, (proj2 (Z.eqb_neq X 0)), Hd by lia. done. }
  pose proof (tframe_sb _ _ F2) as E2. assert (Hu2 : forall c, used k2 c = used k c) by (intros; by apply used_ext).
  assert (Hdb2 : forall c, data_block k2 c <-> data_block k c) by (intros c; unfold data_block; by rewrite E2, Hu2).
  assert (Hfs2 : fs_disk k2) by (eapply fs_disk_grow; [exact F2| |done]; intros n _; by rewrite Hu2).
  destruct (balloc_ok me pd s k2 B [X] 0 T2 Hfs2) as (a & k3 & B3 & R3 & D & Hfs3 & _ & Hmono & Ha); try lia.
  { intros b [->|[]%elem_of_nil]%elem_of_cons. by apply Hdb2. } { cbn. unfold NBUF. lia. }
  { destruct Hfree as (l & G1 & G2 & G3). exists l. split_and!; try done. intros b Hb. rewrite E2, Hu2. by apply G2. }
  destruct D as [D1 D2 D3 D4 D5 D6 D7 D8 D9 D10]. rewrite E2 in *.
  assert (HXa : X <> a) by (by apply Hmono, Hdb2).
  assert (H3 : hb k3 bp X d) by (apply D9; [by left|done]).
  destruct (commit_x me pd s k3 B3 [] bp X d (fun d => set32 d o a) D4) as (k4 & k5 & k6 & R4 & R5 & R6 & T6 & B6 & K6 & F6);
    [apply not_elem_of_nil|done|by rewrite set32_length|lia|lia|].
  pose proof (add_block_length X B3) as HL.
  assert (F : tframe k k6) by (eapply tframe_trans; [exact F2|]; by eapply tframe_trans).
  assert (Hbm : forall c, 0 <= c < s_size (the_sb k) -> used k6 c = used k3 c).
  { intros c Hc. apply used_ext; [by apply tframe_sb|]. rewrite B6, decide_False; [done|].
    rewrite (tframe_sb _ _ D10), E2. destruct (BBLOCK_eq k c Hfs Hc). lia. }
  assert (Hdb6 : forall c, data_block k3 c -> data_block k6 c).
  { intros c [Hc1 Hc2]. rewrite (tframe_sb _ _ D10), E2 in Hc1. split; [by rewrite (tframe_sb _ _ F)|]. rewrite Hbm by lia. done. }
  assert (Hmo : forall c, data_block k c -> data_block k6 c).
  { intros c Hc. by apply Hdb6, Hmono, Hdb2. }
  assert (Hfb : forall m, 0 <= m < MAXFILE -> fblock k6 ip m = if decide (m = bn) then a else fblock k ip m).
  { intros m Hm. destruct (Z.le_gt_cases NDIRECT m) as [Hge|Hlt].
    - rewrite (Hfe m Hge). unfold fblock. rewrite (proj2 (Z.ltb_ge m NDIRECT)), EX, (proj2 (Z.eqb_neq X 0)), B6, decide_True by lia || done.
      case_decide as E; [subst m; apply get32_set32; lia|]. apply get32_set32_ne. unfold o. lia.
    - rewrite decide_False by lia. unfold fblock. by rewrite (proj2 (Z.ltb_lt m NDIRECT)). }
  assert (Hnd : ~ data_block k a) by (intros Hc%Hdb2%Hmono; tauto).
  exists bp, d, k2, a, k3, k4, k5, k6, (add_block X B3). cbv zeta. split_and!; try done; [by rewrite <- H0, (Hfe bn) by lia|]. split; try done; try lia; try (by left).
  - apply (fs_disk_grow k3); [done| |done]. intros c Hc. rewrite (tframe_sb _ _ D10), E2 in Hc. by rewrite Hbm.
  - rewrite (tframe_icache _ _ F). by rewrite list_insert_id.
  - by destruct ip.
  - apply (file_ok_with k k6 ip ip bn a); try done; try lia; first [apply Hok|by left|by right|by apply Hdb6|auto].
  - split; [|lia]. by rewrite Hfb, decide_True.
  - intros m Hm Hne. by rewrite Hfb, decide_False.
  - intros _. split; [|done]. rewrite B6, decide_False by done. done.
  - intros m Hm Hne. rewrite B6, decide_False by congruence. rewrite D8, B2; [done|..].
    + destruct Hm as [Hm|Hm]; [pose proof (bmap_data _ Hfs); lia|by intros ->].
    + destruct Hm as [Hm|[[? ?] _]]; [by left|by right].
  - rewrite (tframe_icache _ _ F). unfold tframe in *. rewrite F. by kernel_eq.
  - intros n (l & G1 & G2 & G3). eapply (free_blocks_taken k); [by rewrite (tframe_sb _ _ F)| |by exists l].
    intros c Hc. by rewrite Hbm, D7, Hu2.
Qed.

(** The two halves of the indirect case. *)
Lemma slot_then_entry c f k ip B X k1 ip1 B1 bn a k' B' :
  fs_disk k -> file_ok k ip -> 0 <= bn < MAXFILE ->
  slot_done k ip B X k1 ip1 B1 -> bmap_done me pd s i c f k1 ip1 B1 bn a k' ip1 B' ->
  bmap_done me pd s i (2 + c) (1 + f) k ip B bn a k' ip1 B'.
Proof.
  intros Hfs Hok Hbn [S1 S2 S3 S4 S5 S6 [S7 S7'] S8 S9 S10 S11 S12 S13] [D1 D2 D3 D4 D5 D6 D7 D8 D9 D10 D11 D12 Di D13 D14].
  assert (Es : the_sb k1 = the_sb k) by (by rewrite S11).
  split; try done; try lia.
  - by rewrite D4, S4, list_insert_insert_eq.
  - intros m Hm Hne. rewrite D8, S8; done.
  - rewrite <- S8 by done. auto.
  - rewrite <- S8 by done. intros H0. destruct (D10 H0) as [? Hn]. split; [done|]. intros Hc. by apply Hn, S9.
  - auto.
  - intros m Hm Hne. rewrite D12, S10; [done|done| |].
    + rewrite Es. destruct Hm; [by left|right; auto].
    + rewrite S7. destruct S13 as [<-|[E Hn]]; [done|]. intros ->. destruct Hm as [Hm|]; [|done].
      destruct (fo_ind _ _ S6) as [[? ?] _]; [congruence|]. rewrite S7, Es in *. pose proof (bmap_data _ Hfs). lia.
  - rewrite S7. destruct S13 as [<-|[? ?]]; [by left|by right].
  - unfold tframe in *. rewrite D13. rewrite S11. by kernel_eq.
  - intros n Hn. apply D14, S12. exact Hn.
Qed.

Lemma bmap_done_le c c' f f' k ip B bn a k' ip' B' :
  (c <= c')%nat -> (f <= f')%nat -> bmap_done me pd s i c f k ip B bn a k' ip' B' -> bmap_done me pd s i c' f' k ip B bn a k' ip' B'.
Proof.
  intros Hc Hf [D1 D2 D3 D4 D5 D6 D7 D8 D9 D10 D11 D12 Di D13 D14]. split; try done; [lia|].
  intros n Hn. apply D14. eapply free_blocks_le; [|exact Hn]. lia.
Qed.

(** [bmap] on a block of the file that is there: nothing is allocated. *)
Lemma bmap_old k ip B bn :
  txn me pd k s B [] -> fs_disk k -> icache k !! i = Some ip -> file_ok k ip -> 0 <= bn < MAXFILE ->
  fblock k ip bn <> 0 -> (length B < NBUF)%nat ->
  exists k', bmap i bn k = Ret (fblock k ip bn) k' /\ txn me pd k' s B [] /\ (forall m, blk k' m = blk k m) /\ tframe k k'.
Proof.
  intros Ht Hfs Hi Hok Hbn H0 HB. pose proof (fo_len _ _ Hok) as Hl. unfold bmap. destruct (Z.ltb_spec bn NDIRECT) as [Hlt|Hge].
  - exists k. split_and!; try done; [|apply tframe_refl]. apply (bmap_slot_old i k ip); try done; try lia.
    unfold fblock. rewrite (proj2 (Z.ltb_lt _ _)) by done. apply nth_Some. rewrite Hl. unfold NDIRECT in *. lia.
  - rewrite (proj2 (Z.ltb_lt (bn - NDIRECT) NINDIRECT)) by (unfold MAXFILE in *; lia).
    assert (Hind : ind ip <> 0).
    { intros E. apply H0. unfold fblock. by rewrite (proj2 (Z.ltb_ge _ _)), E by done. }
    erewrite bind_run; [|apply (bmap_slot_old i k ip); [done| | |exact Hind]; [apply nth_Some; rewrite Hl|]; unfold NDIRECT; lia].
    run (inode_at_run _ _ _ Hi). rewrite (fo_dev _ _ Hok). destruct (fo_ind _ _ Hok Hind) as [HXr _].
    pose proof (addr_range k Hfs) as Hds. pose proof (fd_size _ Hfs) as Hsz.
    destruct (peek_x me pd s k B [] (ind ip) Ht) as (bp & d & k1 & k2 & R1 & H1 & R2 & Hd & _ & T2 & _ & B2 & _ & _ & _ & F2);
      [apply not_elem_of_nil|apply (fd_dom _ Hfs); lia|cbn; lia|].
    run R1. destruct (hb_buf _ _ _ _ H1) as (bf & Hbf & Ebf). run Hbf. rewrite Ebf.
    assert (Ee : get32 d (Z.to_nat (4 * (bn - NDIRECT))) = fblock k ip bn).
    { unfold fblock. by rewrite (proj2 (Z.ltb_ge bn NDIRECT)), (proj2 (Z.eqb_neq (ind ip) 0)), Hd. }
    rewrite Ee, (proj2 (Z.eqb_neq _ _) H0). change (bind (ret ?x) ?f k1) with (f x k1). cbv beta. run R2. by exists k2.
Qed.

(** [bmap] in general. *)
Lemma bmap_run k ip B bn :
  txn me pd k s B [] -> fs_disk k -> icache k !! i = Some ip -> file_ok k ip -> 0 <= bn < MAXFILE ->
  (length B < 25)%nat -> free_blocks k 2 ->
  exists a k' ip' B', bmap i bn k = Ret a k' /\ bmap_done me pd s i 5 2 k ip B bn a k' ip' B'.
Proof.
  intros Ht Hfs Hi Hok Hbn HB Hfree. pose proof (fo_len _ _ Hok) as Hl.
  destruct (decide (fblock k ip bn = 0)) as [H0|H0].
  2: { destruct (bmap_old k ip B bn) as (k' & R & T' & B' & F'); try done; [unfold NBUF; lia|]. eexists _, k', ip, B. split; [exact R|].
    eapply bmap_done_le; [..|by apply bmap_done_old]; lia. }
  destruct (Z.le_gt_cases NDIRECT bn) as [Hge|Hlt].
  - destruct (slot_run k ip B) as (X & k1 & ip1 & B1 & R1 & D1); try done; [lia|by eapply free_blocks_le; [|exact Hfree]; lia|].
    pose proof D1 as [S1 S2 S3 S4 S5 S6 [S7 S7'] S8 S9 S10 S11 S12 S13].
    assert (Hi1 : icache k1 !! i = Some ip1) by (rewrite S4; apply list_lookup_insert_eq; by eapply lookup_lt_Some).
    destruct (entry_new k1 ip1 B1 bn X) as (bp & d & k2 & a & k3 & k4 & k5 & k' & B' & R2 & H2 & E0 & R3 & R4 & R5 & R6 & D); try done; try lia; [by rewrite S8|auto|].
    exists a, k', ip1, B'. split; [|by eapply (slot_then_entry 3 1)].
    unfold bmap. rewrite (proj2 (Z.ltb_ge _ _)), (proj2 (Z.ltb_lt (bn - NDIRECT) NINDIRECT)) by (unfold MAXFILE in *; lia).
    run R1. run (inode_at_run _ _ _ Hi1). rewrite (fo_dev _ _ S6). run R2. destruct (hb_buf _ _ _ _ H2) as (bf & Hbf & Ebf). run Hbf. rewrite Ebf, E0.
    cbn [Z.eqb]. erewrite bind_run; [|run R3; run R4; run R5; reflexivity]. by run R6.
  - destruct (balloc_ok me pd s k B [] 1 Ht Hfs) as (a & k1 & B1 & R & D & Hfs1 & _ & Hmono & Ha); try done; [by intros ? ?%elem_of_nil|lia|cbn; unfold NBUF; lia|].
    pose proof (ba_frame _ _ _ _ _ _ _ _ _ D) as Hf.
    eexists a, _, _, B1. split.
    + unfold bmap. rewrite (proj2 (Z.ltb_lt _ _)) by done. apply (bmap_slot_new i k k1 ip); try done; try lia; [|apply Hok|by apply tframe_icache].
      rewrite <- H0. unfold fblock. rewrite (proj2 (Z.ltb_lt _ _)) by done. apply nth_Some. rewrite Hl. unfold NDIRECT in *. lia.
    + eapply bmap_done_le; [..|apply bmap_done_direct; try done; try lia]; [lia..|]. intros n. eapply free_blocks_taken; [by apply tframe_sb|]. apply D.
Qed.
End bmap_runs.
