(* ===== verification/Console.v ===== *)
(** * The console

    [src/console.c]: the line discipline ([consoleintr]), the device's read and
    write functions, the conversion of integers for printing and the cursor of
    the text screen.  The bytes sent to the serial port are recorded in
    [kernel.console]; the screen is the state of the separate functions of
    Module [Cga]. *)

From S2P Require Import Prelude CString Headers Spinlock Ring Sched Mem Sleeplock Dll Bio Bcache Bytes Log Inode.

(** ** Printing *)

(** [digits[x]] *)
Definition digit (x : Z) : Z := if x <? 10 then 48 + x else 97 + (x - 10).

(** The [do ... while ((x /= base) != 0)] loop of [printint]: the digits, least
    significant first, [buf[0]] to [buf[i - 1]].  With a base of at least 2 a
    32-bit [x] has at most 32 digits. *)
Fixpoint digits_of (fuel : nat) (x base : Z) : list Z :=
  match fuel with
  | O => []
  | S n => digit (x mod base) :: (if x / base =? 0 then [] else digits_of n (x / base) base)
  end.

(** What [printint] leaves in [buf], and the characters it prints. *)
Definition printint_buf (xx base sign : Z) : list Z :=
  let neg := negb (sign =? 0) && (xx <? 0) in
  let x := if neg then u32 (- xx) else u32 xx in
  digits_of 32 x base ++ (if neg then [45] else []).
Definition printint (xx base sign : Z) : list Z := rev (printint_buf xx base sign).

(** ** Output *)

Definition BACKSPACE : Z := 0x100.

Definition char_string (c : Z) : string := String (Ascii.ascii_of_nat (Z.to_nat (u8 c))) EmptyString.

(** The serial output of [consputc]. *)
Definition consputc (c : Z) : K unit :=
  if c =? BACKSPACE then
    do! cputs (char_string 8) in
    do! cputs (char_string 32) in
    cputs (char_string 8)
  else cputs (char_string c).

(** ** Input *)

Definition INPUT_BUF : Z := 128.
(** [C(x)] for the letters D, H, P and U. *)
Definition CTRL_D : Z := 4.
Definition CTRL_H : Z := 8.
Definition CTRL_P : Z := 16.
Definition CTRL_U : Z := 21.

(** [input.buf[i % INPUT_BUF]] *)
Definition input_at (k : kernel) (i : Z) : option Z := zget (input_buf k) (u32 i mod INPUT_BUF).

(** The loop of control-U; the line being edited has at most [INPUT_BUF] characters. *)
Definition kill_line : K unit :=
  loop (S (Z.to_nat INPUT_BUF)) (fun _ =>
    let! k := gets id in
    if input_e k =? input_w k then ret (inr tt)
    else
      let! c := ofopt (input_at k (input_e k - 1)) in
      if c =? 10 then ret (inr tt)
      else
        do! modify (fun k => k <| input_e ::= fun e => u32 (e - 1) |>) in
        do! consputc BACKSPACE in
        ret (inl tt)) tt.

(** One character from [getc]; the result says whether [procdump] is due. *)
Definition consoleintr_char (c : Z) : K bool :=
  if c =? CTRL_P then ret true
  else if c =? CTRL_U then do! kill_line in ret false
  else if (c =? CTRL_H) || (c =? 0x7f) then
    let! k := gets id in
    do! when (negb (input_e k =? input_w k))
      (do! modify (fun k => k <| input_e ::= fun e => u32 (e - 1) |>) in
       consputc BACKSPACE) in
    ret false
  else
    let! k := gets id in
    do! when (negb (c =? 0) && (u32 (input_e k - input_r k) <? INPUT_BUF))
      (let c := if c =? 13 then 10 else c in
       let! b := ofopt (zset (input_buf k) (input_e k mod INPUT_BUF) (u8 c)) in
       do! modify (fun k => k <| input_buf := b |> <| input_e ::= fun e => u32 (e + 1) |>) in
       do! consputc c in
       let! k := gets id in
       when ((c =? 10) || (c =? CTRL_D) || (input_e k =? u32 (input_r k + INPUT_BUF)))
         (do! modify (fun k => k <| input_w := input_e k |>) in
          wakeup Cinput_r)) in
    ret false.

(** [consoleintr] on the characters [getc] yields before its -1; the result says
    whether it ends with a call of [procdump]. *)
Fixpoint consoleintr_chars (cs : list Z) (dump : bool) : K bool :=
  match cs with
  | [] => ret dump
  | c :: cs' => let! d := consoleintr_char c in consoleintr_chars cs' (dump || d)
  end.

Definition consoleintr (cs : list Z) : K bool :=
  do! acquire Lcons in
  let! dump := consoleintr_chars cs false in
  do! release Lcons in
  ret dump.

(** ** The console device *)

(** Where a read puts its bytes: [put x o l] stores [l] at offset [o] of the
    destination; [x] is the destination itself when it is a variable of the
    kernel. *)
Section transfer.
Context {X : Type} (put : X -> Z -> list Z -> K X).

(** The wait of [consoleread] for input; [false] when the process was killed.
    Every wait switches to the scheduler; [WAITS] is the number of waits modelled. *)
Definition console_wait : K bool :=
  loop WAITS (fun _ =>
    let! k := gets id in
    if input_r k =? input_w k then
      let! me := mycur in
      let! p := proc_at me in
      if negb (killed p =? 0) then ret (inr false)
      else do! sleep Cinput_r Lcons in ret (inl tt)
    else ret (inr true)) tt.

(** [while (n > 0) ...]; the result is the number of bytes left, [None] when
    killed, and the destination. *)
Fixpoint consoleread_loop (target : Z) (n : nat) (x : X) : K (option Z * X) :=
  match n with
  | O => ret (Some 0, x)
  | S n' =>
      let! ok := console_wait in
      if negb ok then ret (None, x)
      else
        let! k := gets id in
        let! c := ofopt (input_at k (input_r k)) in
        do! modify (fun k => k <| input_r ::= fun r => u32 (r + 1) |>) in
        if c =? CTRL_D then
          do! when (Z.of_nat n <? target) (modify (fun k => k <| input_r ::= fun r => u32 (r - 1) |>)) in
          ret (Some (Z.of_nat n), x)
        else
          let! x := put x (target - Z.of_nat n) [c] in
          if c =? 10 then ret (Some (Z.of_nat n'), x)
          else consoleread_loop target n' x
  end.

Definition consoleread (i : nat) (x : X) (n : Z) : K (Z * X) :=
  do! iunlock (Some i) in
  do! acquire Lcons in
  let! r := (if 0 <? n then consoleread_loop n (Z.to_nat n) x else ret (Some n, x)) in
  do! release Lcons in
  do! ilock (Some i) in
  match r.1 with
  | None => ret (-1, r.2)
  | Some rest => ret (n - rest, r.2)
  end.
End transfer.

(** [get o m] are the [m] bytes at offset [o] of the source. *)
Definition consolewrite (get : Z -> nat -> K (list Z)) (i : nat) (n : Z) : K Z :=
  do! iunlock (Some i) in
  do! acquire Lcons in
  do! foreach (seqZ 0 n) (fun j =>
    let! c := get j 1%nat in
    let! c := ofopt (head c) in
    consputc (Z.land c 0xff)) in
  do! release Lcons in
  do! ilock (Some i) in
  ret n.

Definition consoleinit : K unit :=
  do! initlock Lcons in
  modify (fun k => k <| devsw ::= <[Z.to_nat CONSOLE := (Some FN_consoleread, Some FN_consolewrite)]> |>).

(** ** Formatted printing *)

(** The characters [cprintf] prints for a format and the words of the argument
    list; [str a] is the string at address [a].  [None]: a conversion without an
    argument, where the code reads whatever is on the stack. *)
Fixpoint cprintf_chars (str : Z -> list Z) (fmt args : list Z) : option (list Z) :=
  match fmt with
  | [] => Some []
  | c :: fmt =>
      if negb (c =? 37) then cons c <$> cprintf_chars str fmt args
      else
        match fmt with
        | [] => Some []
        | c :: fmt =>
            let take_arg (f : Z -> list Z) :=
              match args with
              | [] => None
              | a :: args => app (f a) <$> cprintf_chars str fmt args
              end in
            if c =? 100 then take_arg (fun a => printint (i32 a) 10 1)
            else if (c =? 120) || (c =? 112) then take_arg (fun a => printint (i32 a) 16 0)
            else if c =? 115 then
              take_arg (fun a => if a =? 0 then [40; 110; 117; 108; 108; 41] else str a)
            else if c =? 37 then cons 37 <$> cprintf_chars str fmt args
            else app [37; c] <$> cprintf_chars str fmt args
        end
  end.

(** ** The text screen *)

Module Cga.

(** The cursor register and the cells of the CGA memory. *)
Record screen := mk_screen { pos : Z; crt : list Z }.

(** [memmove(crt, crt + 80, 23 rows)], then [pos -= 80] and [memset(crt + pos, 0,
    24*80 - pos cells)]. *)
Definition scroll (s : screen) : screen :=
  let l := put_bytes (crt s) 0 (get_bytes (crt s) 80 (23 * 80)) in
  let p := pos s - 80 in
  mk_screen p (put_bytes l (Z.to_nat p) (replicate (Z.to_nat (24 * 80 - p)) 0)).

Definition cgaputc (c : Z) : M screen unit :=
  let! s := gets id in
  let! s := (if c =? 10 then ret (mk_screen (pos s + (80 - pos s mod 80)) (crt s))
             else if c =? BACKSPACE then ret (mk_screen (if 0 <? pos s then pos s - 1 else pos s) (crt s))
             else
               let! l := ofopt (zset (crt s) (pos s) (Z.lor (Z.land c 0xff) 0x0700)) in
               ret (mk_screen (pos s + 1) l)) in
  if (pos s <? 0) || (25 * 80 <? pos s) then panic "pos under/overflow"
  else
    let s := if 24 <=? pos s / 80 then scroll s else s in
    let! l := ofopt (zset (crt s) (pos s) (Z.lor 32 0x0700)) in
    modify (fun _ => mk_screen (pos s) l).

End Cga.

(** ** What [printint] prints *)

(** The number that digits stand for, least significant first. *)
Fixpoint value (base : Z) (l : list Z) : Z :=
  match l with
  | [] => 0
  | d :: l => (if d <? 58 then d - 48 else d - 97 + 10) + base * value base l
  end.

Lemma digit_value x : 0 <= x < 16 -> (if digit x <? 58 then digit x - 48 else digit x - 97 + 10) = x.
Proof. intros Hx. unfold digit. destruct (Z.ltb_spec x 10); [rewrite (proj2 (Z.ltb_lt _ _)) by lia|rewrite (proj2 (Z.ltb_ge _ _)) by lia]; lia. Qed.

Lemma digits_of_value fuel base : forall x, 2 <= base <= 16 -> 0 <= x < base ^ Z.of_nat fuel ->
  value base (digits_of fuel x base) = x /\ (0 < fuel -> digits_of fuel x base <> [])%nat.
Proof.
  induction fuel as [|n IH]; intros x Hb Hx; [cbn in *; split; [lia|lia]|]. rewrite Nat2Z.inj_succ, Z.pow_succ_r in Hx by lia.
  cbn [digits_of value]. pose proof (Z.mod_pos_bound x base). rewrite digit_value by lia.
  assert (Hq : 0 <= x / base < base ^ Z.of_nat n) by (split; [apply Z.div_pos; lia|apply Z.div_lt_upper_bound; lia]).
  destruct (IH (x / base) Hb Hq) as [Hv _]. pose proof (Z.div_mod x base). split; [|done].
  destruct (Z.eqb_spec (x / base) 0) as [E|E]; [cbn; lia|rewrite Hv; lia].
Qed.

Lemma digits_of_length n base : forall fuel x, 2 <= base -> 0 <= x < base ^ Z.of_nat (S n) -> (length (digits_of fuel x base) <= S n)%nat.
Proof.
  induction n as [|n IH]; intros [|fuel] x Hb Hx; cbn [digits_of length]; try lia.
  - change (base ^ Z.of_nat 1) with (base ^ 1) in Hx. rewrite Z.pow_1_r in Hx. rewrite Z.div_small by lia. cbn. lia.
  - destruct (x / base =? 0); [cbn; lia|]. apply le_n_S, IH; [done|]. rewrite Nat2Z.inj_succ, Z.pow_succ_r in Hx by lia.
    split; [apply Z.div_pos; lia|apply Z.div_lt_upper_bound; lia].
Qed.

Lemma digits_of_digit fuel base : forall x d, 2 <= base <= 16 -> 0 <= x -> d ∈ digits_of fuel x base -> d <> 45.
Proof.
  induction fuel as [|n IH]; intros x d Hb Hx Hd; cbn [digits_of] in Hd; [by apply elem_of_nil in Hd|].
  apply elem_of_cons in Hd as [->|Hd].
  - pose proof (Z.mod_pos_bound x base). unfold digit. destruct (x mod base <? 10); lia.
  - destruct (x / base =? 0); [by apply elem_of_nil in Hd|]. eapply IH; [done| |exact Hd]. apply Z.div_pos; lia.
Qed.

Lemma digits_32 base : base = 10 \/ base = 16 -> forall x, 0 <= x < 2 ^ 32 ->
  value base (digits_of 32 x base) = x /\ digits_of 32 x base <> [] /\ 45 ∉ digits_of 32 x base /\ (length (digits_of 32 x base) <= 10)%nat.
Proof.
  intros Hbase x Hx. assert (Hb : 2 <= base <= 16) by lia. assert (Hp : 2 ^ 32 <= base ^ 10) by (destruct Hbase as [-> | ->]; lia).
  destruct (digits_of_value 32 base x Hb) as [Hv Hne].
  - assert (base ^ 10 <= base ^ Z.of_nat 32) by (apply Z.pow_le_mono_r; lia). lia.
  - split_and!; [exact Hv|apply Hne; lia|intros H; by apply (digits_of_digit _ _ _ _ Hb (proj1 Hx)) in H|].
    apply (digits_of_length 9); [lia|]. change (Z.of_nat 10) with 10. lia.
Qed.

(** [printint] prints the number.  For every 32-bit value and the two bases
    [cprintf] uses, the characters fit in the 16 bytes of [buf]; signed, they are the
    digits of the absolute value after a minus sign exactly for negative numbers,
    also for the smallest one, whose negation overflows; unsigned, they are the
    digits of the value taken modulo 2^32. *)
Theorem printint_roundtrip xx base :
  - 2 ^ 31 <= xx < 2 ^ 31 -> base = 10 \/ base = 16 ->
  (forall sign, (length (printint_buf xx base sign) <= 11)%nat) /\
  (exists ds, printint xx base 1 = (if xx <? 0 then [45] else []) ++ rev ds /\ ds <> [] /\ 45 ∉ ds /\ value base ds = Z.abs xx) /\
  (exists ds, printint xx base 0 = rev ds /\ ds <> [] /\ 45 ∉ ds /\ value base ds = u32 xx).
Proof.
  intros Hxx Hbase. assert (Hb : 2 <= base <= 16) by lia.
  assert (Hneg : xx < 0 -> u32 (- xx) = - xx) by (intros; apply u32_small; lia).
  pose proof (digits_32 base Hbase) as Hx.
  pose proof (u32_range xx) as Hu. unfold printint, printint_buf. split_and!.
  - intros sign. destruct (negb (sign =? 0) && (xx <? 0)) eqn:E; rewrite length_app; cbn [length].
    + apply andb_true_iff in E as [_ E%Z.ltb_lt]. destruct (Hx (u32 (- xx)) (u32_range _)) as (_ & _ & _ & H). lia.
    + destruct (Hx (u32 xx) Hu) as (_ & _ & _ & H). lia.
  - change (negb (1 =? 0)) with true. cbn [andb]. destruct (Z.ltb_spec xx 0) as [Hlt|Hge].
    + destruct (Hx (u32 (- xx)) (u32_range _)) as (Hv & Hne & Hno & _). exists (digits_of 32 (u32 (- xx)) base). rewrite rev_app_distr.
      split_and!; [reflexivity|exact Hne|exact Hno|]. rewrite Hv, Hneg by done. lia.
    + destruct (Hx (u32 xx) Hu) as (Hv & Hne & Hno & _). exists (digits_of 32 (u32 xx) base). rewrite app_nil_r.
      split_and!; [reflexivity|exact Hne|exact Hno|]. rewrite Hv, u32_small by lia. lia.
  - change (negb (0 =? 0)) with false. cbn [andb]. destruct (Hx (u32 xx) Hu) as (Hv & Hne & Hno & _). exists (digits_of 32 (u32 xx) base).
    rewrite app_nil_r. split_and!; [reflexivity|exact Hne|exact Hno|exact Hv].
Qed.

Lemma printint_roundtrip_witness : exists ds, printint (- 2147483648) 10 1 = 45 :: rev ds /\ value 10 ds = 2147483648.
Proof.
  destruct (printint_roundtrip (- 2147483648) 10) as (_ & (ds & H1 & _ & _ & H2) & _); [lia|left; reflexivity|].
  exists ds. split; [exact H1|exact H2].
Defined.
