(* ===== verification/Tty.v ===== *)
(** * The line discipline of the console

    [consoleintr] ([src/console.c]) implements line editing on a ring buffer: what
    readers can have and the line being edited, stated on lists and proved of the
    code. *)

From S2P Require Import Prelude CString Headers Spinlock Ring Sched Mem Sleeplock Dll Bio Bcache Bytes Log Inode Console.

(** ** The abstract line discipline *)

(** The characters readers can have, and the line being edited. *)
Record tty := mk_tty { pending : list Z; line : list Z }.

Definition tty_char (t : tty) (c : Z) : tty :=
  if c =? CTRL_P then t
  else if c =? CTRL_U then mk_tty (pending t) []
  else if (c =? CTRL_H) || (c =? 0x7f) then mk_tty (pending t) (take (length (line t) - 1) (line t))
  else if negb (c =? 0) && (Z.of_nat (length (pending t) + length (line t)) <? INPUT_BUF) then
    let c := if c =? 13 then 10 else c in
    let l := line t ++ [c] in
    if (c =? 10) || (c =? CTRL_D) || (Z.of_nat (length (pending t) + length l) =? INPUT_BUF) then mk_tty (pending t ++ l) []
    else mk_tty (pending t) l
  else t.

(** The ring buffer holds the pending characters and the line, one after the other;
    its counters may have wrapped around. *)
Record tty_in (k : kernel) (t : tty) : Prop := {
  ti_buf : length (input_buf k) = Z.to_nat INPUT_BUF;
  ti_r : 0 <= input_r k < 2 ^ 32;
  ti_w : input_w k = u32 (input_r k + Z.of_nat (length (pending t)));
  ti_e : input_e k = u32 (input_r k + Z.of_nat (length (pending t) + length (line t)));
  ti_size : (length (pending t) + length (line t) <= Z.to_nat INPUT_BUF)%nat;
  ti_data : forall j c, (pending t ++ line t) !! j = Some c ->
    input_buf k !! Z.to_nat ((input_r k + Z.of_nat j) mod INPUT_BUF) = Some c;
  ti_line : Forall (fun c => c <> 10) (line t) }.

(** Besides the input buffer, only the output and the scheduler's data differ. *)
Definition cons_frame (k k' : kernel) : Prop :=
  k' = k <| input_buf := input_buf k' |> <| input_w := input_w k' |> <| input_e := input_e k' |> <| console := console k' |>
         <| procs := procs k' |> <| pqueues := pqueues k' |> <| htindex := htindex k' |>.

Lemma cons_frame_refl k : cons_frame k k.
Proof. unfold cons_frame. by kernel_eq. Qed.
Lemma cons_frame_trans k1 k2 k3 : cons_frame k1 k2 -> cons_frame k2 k3 -> cons_frame k1 k3.
Proof. unfold cons_frame. intros E1 E2. rewrite E2, E1. by kernel_eq. Qed.
Lemma cons_frame_held k k' : cons_frame k k' -> held k' = held k.
Proof. by intros ->. Qed.

(** What [consputc] does does not matter for the input. *)
Lemma consputc_run c k : exists l, consputc c k = Ret tt (k <| console := l |>).
Proof. unfold consputc, cputs. destruct (c =? BACKSPACE); eexists; reflexivity. Qed.

Lemma tty_in_console k t l : tty_in k t -> tty_in (k <| console := l |>) t.
Proof. intros [H1 H2 H3 H4 H5 H6 H7]. by split. Qed.

Lemma u32_mod_buf x : u32 x mod INPUT_BUF = x mod INPUT_BUF.
Proof. unfold u32, INPUT_BUF. Z.div_mod_to_equations. lia. Qed.

Lemma u32_ne r a b : a <> b -> Z.abs (a - b) < 2 ^ 32 -> u32 (r + a) <> u32 (r + b).
Proof. intros Hne Hlt. unfold u32. Z.div_mod_to_equations. lia. Qed.

(** Erasing the last character of the line. *)
Lemma tty_erase k t l c :
  tty_in k t -> line t = l ++ [c] ->
  input_at k (input_e k - 1) = Some c /\ input_e k <> input_w k /\
  tty_in (k <| input_e ::= fun e => u32 (e - 1) |>) (mk_tty (pending t) l).
Proof.
  intros [H1 H2 H3 H4 H5 H6 H7] El. rewrite El, length_app in *. cbn [length] in *. change (Z.to_nat INPUT_BUF) with 128%nat in *.
  assert (Hpos : forall x, u32 (u32 x - 1) = u32 (x - 1)) by (intros x; unfold u32; apply Zminus_mod_idemp_l).
  assert (Hlast : u32 (input_e k - 1) = u32 (input_r k + Z.of_nat (length (pending t) + length l))) by (rewrite H4, Hpos; f_equal; lia).
  split_and!.
  - unfold input_at, zget. rewrite u32_mod_buf. rewrite <- (u32_mod_buf (input_e k - 1)), Hlast, u32_mod_buf.
    rewrite (proj2 (Z.leb_le _ _)) by (apply Z.mod_pos_bound; unfold INPUT_BUF; lia).
    apply H6. rewrite app_assoc, lookup_app_r; rewrite length_app; [|lia]. rewrite Nat.sub_diag. done.
  - rewrite H3, H4. apply u32_ne; lia.
  - split; cbn; try done.
    + change (Z.to_nat INPUT_BUF) with 128%nat. lia.
    + intros j x Hj. apply H6. rewrite app_assoc. apply lookup_app_l_Some. exact Hj.
    + by apply Forall_app in H7 as [H7 _].
Qed.

(** Control-U erases the whole line. *)
Lemma kill_line_run l : forall fuel k t,
  tty_in k t -> line t = l -> (length l < fuel)%nat ->
  exists k', loop fuel (fun _ : unit =>
      let! k := gets id in
      if input_e k =? input_w k then ret (inr tt)
      else
        let! c := ofopt (input_at k (input_e k - 1)) in
        if c =? 10 then ret (inr tt)
        else
          do! modify (fun k => k <| input_e ::= fun e => u32 (e - 1) |>) in
          do! consputc BACKSPACE in
          ret (inl tt)) tt k = Ret tt k' /\ tty_in k' (mk_tty (pending t) []) /\
    k' = k <| input_e := input_e k' |> <| console := console k' |>.
Proof.
  induction l as [|c l IH] using rev_ind; intros fuel k t Ht El Hf; (destruct fuel as [|fuel]; [lia|]); cbn [loop].
  - exists k. split_and!; [|destruct t; cbn in El |- *; by subst|by kernel_eq]. erewrite bind_run with (a := inr tt) (s' := k); [done|].
    rewrite bind_gets. unfold id. by rewrite (ti_e _ _ Ht), (ti_w _ _ Ht), El, Nat.add_0_r, Z.eqb_refl.
  - destruct (tty_erase k t l c Ht El) as (Hc & Hne & Ht'). rewrite length_app in Hf. cbn in Hf.
    pose proof (ti_line _ _ Ht) as Hl. rewrite El in Hl. apply Forall_app in Hl as [_ Hl]. apply Forall_cons in Hl as [Hc10 _].
    destruct (consputc_run BACKSPACE (k <| input_e ::= fun e => u32 (e - 1) |>)) as [o Ho].
    destruct (IH fuel (k <| input_e ::= fun e => u32 (e - 1) |> <| console := o |>) (mk_tty (pending t) l)) as (k' & R & T & F); [by apply tty_in_console|done|lia|].
    exists k'. split_and!; [|done|rewrite F; by kernel_eq]. erewrite bind_run with (a := inl tt); [exact R|].
    rewrite bind_gets. unfold id. rewrite (proj2 (Z.eqb_neq _ _) Hne), Hc. change (bind (ofopt (Some c)) ?f) with (fun k => f c k). cbv beta.
    rewrite (proj2 (Z.eqb_neq _ _) Hc10). by erewrite bind_run; [|reflexivity]; erewrite bind_run; [|exact Ho].
Qed.

(** A character put at the end of the line. *)
Lemma tty_append k t c b :
  tty_in k t -> 0 <= c < 256 -> Z.of_nat (length (pending t) + length (line t)) < INPUT_BUF ->
  b = <[Z.to_nat (input_e k mod INPUT_BUF) := c]> (input_buf k) ->
  zset (input_buf k) (input_e k mod INPUT_BUF) (u8 c) = Some b /\
  let k' := k <| input_buf := b |> <| input_e ::= fun e => u32 (e + 1) |> in
  input_e k' = u32 (input_r k + Z.of_nat (length (pending t) + length (line t) + 1)) /\
  (c <> 10 -> tty_in k' (mk_tty (pending t) (line t ++ [c]))) /\
  tty_in (k' <| input_w := input_e k' |>) (mk_tty (pending t ++ line t ++ [c]) []).
Proof.
  intros [H1 H2 H3 H4 H5 H6 H7] Hc Hlt ->. unfold INPUT_BUF in Hlt. change (Z.to_nat INPUT_BUF) with 128%nat in *.
  set (n := (length (pending t) + length (line t))%nat) in *. set (pos := Z.to_nat (input_e k mod INPUT_BUF)).
  assert (Hm : 0 <= input_e k mod INPUT_BUF < 128) by (apply Z.mod_pos_bound; unfold INPUT_BUF; lia).
  assert (He : u32 (input_e k + 1) = u32 (input_r k + Z.of_nat (n + 1))).
  { rewrite H4. unfold u32. rewrite Zplus_mod_idemp_l. f_equal. lia. }
  assert (Hpos : input_e k mod INPUT_BUF = (input_r k + Z.of_nat n) mod INPUT_BUF) by (rewrite H4; apply u32_mod_buf).
  assert (Hdata : forall j x, ((pending t ++ line t) ++ [c]) !! j = Some x ->
    <[pos := c]> (input_buf k) !! Z.to_nat ((input_r k + Z.of_nat j) mod INPUT_BUF) = Some x).
  { intros j x Hj. apply lookup_app_Some in Hj as [Hj|[Hj Hx]].
    - pose proof (lookup_lt_Some _ _ _ Hj) as Hjn. rewrite length_app in Hjn. fold n in Hjn.
      rewrite list_lookup_insert_ne; [by apply H6|]. unfold pos. rewrite Hpos. unfold INPUT_BUF. intros E.
      apply Z2Nat.inj in E; [|apply Z.mod_pos_bound; lia..]. Z.div_mod_to_equations. lia.
    - rewrite length_app in Hj, Hx. fold n in Hj, Hx. destruct (j - n)%nat eqn:Ej; [|done]. injection Hx as <-.
      replace (Z.of_nat j) with (Z.of_nat n) by lia. rewrite <- Hpos. apply list_lookup_insert_eq. unfold pos. lia. }
  split; [|split_and!].
  - unfold zset, u8. rewrite (Z.mod_small c) by lia. rewrite (proj2 (Z.leb_le _ _)), (proj2 (Z.ltb_lt _ _)) by lia. done.
  - exact He.
  - intros Hc10. split; cbn; rewrite ?length_insert, ?length_app; cbn; try done; [|change (Z.to_nat INPUT_BUF) with 128%nat; lia|..].
    + rewrite He. do 2 f_equal. lia.
    + intros j x Hj. apply Hdata. by rewrite app_assoc in Hj.
    + apply Forall_app. split; [done|]. by apply Forall_singleton.
  - split; cbn; rewrite ?length_insert, ?length_app; cbn; try done; [..|change (Z.to_nat INPUT_BUF) with 128%nat; lia|].
    + rewrite He. do 2 f_equal. lia.
    + rewrite He. do 2 f_equal. lia.
    + intros j x Hj. apply Hdata. by rewrite app_nil_r, app_assoc in Hj.
Qed.

(** Committing the line wakes the readers. *)
Lemma commit_line k t : tty_in k t -> sched_ok k -> Lptable ∉ held k ->
  exists k', wakeup Cinput_r k = Ret tt k' /\ tty_in k' t /\ sched_ok k' /\ cons_frame k k'.
Proof.
  intros [H1 H2 H3 H4 H5 H6 H7] Hs Hh. destruct (wakeup_woke Cinput_r k Hs Hh) as (k' & R & [Hw Ho _]).
  exists k'. split_and!; [done| |auto|]; rewrite Hw; [by split|]. unfold cons_frame. by kernel_eq.
Qed.

Lemma consoleintr_char_run c k t :
  0 <= c < 256 -> tty_in k t -> sched_ok k -> Lptable ∉ held k ->
  exists k', consoleintr_char c k = Ret (c =? CTRL_P) k' /\ tty_in k' (tty_char t c) /\ sched_ok k' /\ cons_frame k k'.
Proof.
  intros Hc Ht Hs Hh. unfold consoleintr_char, tty_char.
  destruct (Z.eqb_spec c CTRL_P) as [->|HP]; [exists k; split_and!; [done..|apply cons_frame_refl]|].
  destruct (Z.eqb_spec c CTRL_U) as [->|HU].
  { destruct (kill_line_run (line t) (S (Z.to_nat INPUT_BUF)) k t Ht eq_refl) as (k' & R & T & F); [pose proof (ti_size _ _ Ht); lia|].
    exists k'. unfold kill_line. run R. split_and!; [done|done|rewrite F; by eapply sched_ok_ext; [..|exact Hs]|]. rewrite F. unfold cons_frame. by kernel_eq. }
  destruct ((c =? CTRL_H) || (c =? 127)) eqn:EH.
  { rewrite bind_gets. unfold id. destruct (line t) as [|x l _] eqn:El using rev_ind.
    - exists k. rewrite (ti_e _ _ Ht), (ti_w _ _ Ht), El, Nat.add_0_r, Z.eqb_refl. split_and!; [done| |done|apply cons_frame_refl]. destruct t; cbn in El |- *. by subst.
    - destruct (tty_erase k t l x Ht El) as (_ & Hne & Ht'). rewrite (proj2 (Z.eqb_neq _ _) Hne). cbn [negb when].
      destruct (consputc_run BACKSPACE (k <| input_e ::= fun e => u32 (e - 1) |>)) as [o Ho]. eexists. split; [|split_and!].
      + erewrite bind_run; [reflexivity|]. erewrite bind_run; [exact Ho|reflexivity].
      + rewrite length_app, Nat.add_sub, take_app_length. by apply tty_in_console.
      + by eapply sched_ok_ext; [..|exact Hs].
      + unfold cons_frame. by kernel_eq. }
  rewrite bind_gets. change (@id kernel k) with k. assert (Hlen : u32 (input_e k - input_r k) = Z.of_nat (length (pending t) + length (line t))).
  { pose proof (ti_size _ _ Ht) as Hz. change (Z.to_nat INPUT_BUF) with 128%nat in Hz. rewrite (ti_e _ _ Ht). unfold u32. rewrite Zminus_mod_idemp_l.
    rewrite Z.mod_small; lia. }
  rewrite Hlen. destruct (negb (c =? 0) && _) eqn:Eroom; cbn [when]; [|exists k; split_and!; [done..|apply cons_frame_refl]].
  apply andb_true_iff in Eroom as [_ Hroom%Z.ltb_lt]. set (c' := if c =? 13 then 10 else c).
  assert (Hc' : 0 <= c' < 256) by (unfold c'; destruct (c =? 13); lia).
  edestruct (tty_append k t c' _ Ht Hc' Hroom eq_refl) as (Hb & He & Hno & Hyes). set (k1 := k <| input_buf := _ |> <| input_e ::= _ |>) in *.
  destruct (consputc_run c' k1) as [o Ho]. set (k2 := k1 <| console := o |>) in *.
  assert (Hs2 : sched_ok k2) by (by eapply sched_ok_ext; [..|exact Hs]).
  assert (Hfull : (input_e k2 =? u32 (input_r k2 + INPUT_BUF)) = (Z.of_nat (length (pending t) + length (line t ++ [c'])) =? INPUT_BUF)).
  { change (input_e k2) with (input_e k1). change (input_r k2) with (input_r k). rewrite He, length_app. cbn [length].
    replace (length (pending t) + length (line t) + 1)%nat with (length (pending t) + (length (line t) + 1))%nat by lia. unfold INPUT_BUF in *.
    destruct (Z.eqb_spec (Z.of_nat (length (pending t) + (length (line t) + 1))) 128) as [->|Hne]; [apply Z.eqb_refl|].
    apply Z.eqb_neq. apply u32_ne; lia. }
  assert (Hrun : forall k', when ((c' =? 10) || (c' =? CTRL_D) || (input_e k2 =? u32 (input_r k2 + INPUT_BUF)))
      (do! modify (fun k => k <| input_w := input_e k |>) in wakeup Cinput_r) k2 = Ret tt k' ->
    (do! (let! b := ofopt (zset (input_buf k) (input_e k mod INPUT_BUF) (u8 c')) in
          do! modify (fun k => k <| input_buf := b |> <| input_e ::= fun e => u32 (e + 1) |>) in
          do! consputc c' in
          let! k := gets id in
          when ((c' =? 10) || (c' =? CTRL_D) || (input_e k =? u32 (input_r k + INPUT_BUF)))
            (do! modify (fun k => k <| input_w := input_e k |>) in wakeup Cinput_r)) in ret false) k = Ret false k').
  { intros k' R. erewrite bind_run; [reflexivity|]. rewrite Hb. change (bind (ofopt (Some ?w)) ?f k) with (f w k). cbv beta.
    erewrite bind_run; [|reflexivity]. erewrite bind_run; [|exact Ho]. rewrite bind_gets. exact R. }
  rewrite <- Hfull. destruct ((c' =? 10) || (c' =? CTRL_D) || _) eqn:Ec.
  - destruct (commit_line (k2 <| input_w := input_e k2 |>) (mk_tty (pending t ++ line t ++ [c']) [])) as (k' & R & T & S & F);
      [exact (tty_in_console _ _ o Hyes)|by eapply sched_ok_ext; [..|exact Hs]|done|].
    exists k'. split_and!; [|done|done|].
    + apply Hrun. cbn [when]. erewrite bind_run; [exact R|reflexivity].
    + eapply cons_frame_trans; [|exact F]. unfold cons_frame. by kernel_eq.
  - exists k2. split_and!; [by apply Hrun| |done|unfold cons_frame; by kernel_eq].
    apply tty_in_console, Hno. apply orb_false_iff in Ec as [Ec _]. apply orb_false_iff in Ec as [Ec _]. by apply Z.eqb_neq.
Qed.

(** C18: the console's line discipline.  Whatever the characters that arrive, the
    ring buffer holds the characters ready for readers followed by the line being
    edited, as the abstract [tty_char] says: a character is added unless the buffer
    is full, backspace takes the last one of the line, control-U the whole line, and
    a newline, control-D or a full buffer hands the line to the readers, waking
    them.  This holds when the 32-bit counters wrap around.  The only other effects
    are output and the scheduler's; control-P requests the process listing. *)
Theorem consoleintr_line_discipline cs k t :
  Forall (fun c => 0 <= c < 256) cs -> tty_in k t -> sched_ok k -> held k = [] ->
  exists k', consoleintr cs k = Ret (existsb (Z.eqb CTRL_P) cs) k' /\ tty_in k' (foldl tty_char t cs) /\ sched_ok k' /\ cons_frame k k'.
Proof.
  intros Hcs Ht Hs Hh. set (k0 := k <| held := [Lcons] |>).
  enough (Hgen : forall d k1 t, tty_in k1 t -> sched_ok k1 -> cons_frame k0 k1 ->
    exists k', consoleintr_chars cs d k1 = Ret (d || existsb (Z.eqb CTRL_P) cs) k' /\ tty_in k' (foldl tty_char t cs) /\ sched_ok k' /\ cons_frame k0 k').
  { destruct (Hgen false k0 t) as (k' & R & T & S & F); [destruct Ht; by split|by eapply sched_ok_ext; [..|exact Hs]|apply cons_frame_refl|].
    exists (k' <| held := [] |>). split_and!.
    - unfold consoleintr. erewrite bind_run; [|apply acquire_run; rewrite Hh; apply not_elem_of_nil]. assert (k <| held ::= cons Lcons |> = k0) as ->.
      { unfold k0. kernel_eq. by rewrite Hh. }
      run R. erewrite bind_run; [reflexivity|]. rewrite release_run by (rewrite (cons_frame_held _ _ F); by left).
      f_equal. kernel_eq. by rewrite (cons_frame_held _ _ F).
    - destruct T. by split.
    - by eapply sched_ok_ext; [..|exact S].
    - unfold cons_frame in *. rewrite F. unfold k0. kernel_eq. done. }
  clear Ht Hs t. induction Hcs as [|c cs Hc _ IH]; intros d k1 t Ht Hs F.
  - exists k1. cbn. rewrite orb_false_r. done.
  - destruct (consoleintr_char_run c k1 t Hc Ht Hs) as (k2 & R & T & S & F2).
    { rewrite (cons_frame_held _ _ F). apply (bool_decide_unpack _). exact I. }
    destruct (IH (d || (c =? CTRL_P)) k2 (tty_char t c) T S) as (k3 & R3 & T3 & S3 & F3); [by eapply cons_frame_trans|].
    exists k3. split_and!; try done. cbn [consoleintr_chars]. run R. rewrite R3. cbn. by rewrite Z.eqb_sym, orb_assoc.
Qed.

(** Typing [h], [x], backspace, [i] and return, with counters about to wrap around. *)
Lemma consoleintr_line_discipline_witness :
  exists k', consoleintr [104; 120; 8; 105; 13] (demo <| input_r := 2 ^ 32 - 1 |> <| input_w := 2 ^ 32 - 1 |> <| input_e := 2 ^ 32 - 1 |>) = Ret false k' /\
    tty_in k' (mk_tty [104; 105; 10] []).
Proof.
  destruct (consoleintr_line_discipline [104; 120; 8; 105; 13] (demo <| input_r := 2 ^ 32 - 1 |> <| input_w := 2 ^ 32 - 1 |> <| input_e := 2 ^ 32 - 1 |>) (mk_tty [] []))
    as (k' & R & T & _).
  - apply (bool_decide_unpack _). vm_compute. exact I.
  - split; try reflexivity; [vm_compute; split; [discriminate|reflexivity]|cbn; lia|intros j c H; discriminate H|apply Forall_nil_2].
  - destruct demo_wf. split; [split; assumption|reflexivity|exact prio_ok_demo].
  - reflexivity.
  - exists k'. split; [exact R|exact T].
Defined.
