(* ===== verification/Fs.v ===== *)
(** * Files, directories and path names

    The upper half of [src/fs.c]: reading and writing the contents of an inode,
    directories and path lookup, with the container's root check in [namex].

    A transfer is parameterised by its other end: [put x o l] stores the bytes
    [l] at offset [o] of the destination, [get o m] reads [m] bytes at offset [o]
    of the source.  The destination or source is user memory ([put_user],
    [get_user]: through the page table in use) or a variable of the kernel
    ([put_local], [get_local]).  A path is the list of its bytes before the
    terminating null. *)

From S2P Require Import Prelude CString Headers Spinlock Ring Sched Mem Sleeplock Dll Bio Bcache Bytes Log Inode Console.

Definition put_user (dst : Z) (_ : unit) (o : Z) (l : list Z) : K unit := vstore (dst + o) l.
Definition put_local (x : list Z) (o : Z) (l : list Z) : K (list Z) := ret (put_bytes x (Z.to_nat o) l).
Definition get_user (src o : Z) (m : nat) : K (list Z) := vload (src + o) m.
Definition get_local (l : list Z) (o : Z) (m : nat) : K (list Z) := ret (get_bytes l (Z.to_nat o) m).

(** ** Contents *)

(** The blocks of a transfer of [n] bytes: [tot] bytes are done, the next is at
    [off].  A transfer touches at most [n / BSIZE + 2] blocks. *)
Definition xfer_fuel (n : Z) : nat := Z.to_nat (n / BSIZE + 3).
Definition xfer_len (n tot off : Z) : Z := Z.min (n - tot) (BSIZE - off mod BSIZE).

(** The bytes of a [short] and of an [int], little-endian. *)
Definition le16 (w : Z) : list Z := [u8 w; u8 (w / 256)].
Definition le32 (w : Z) : list Z := [u8 w; u8 (w / 256); u8 (w / 65536); u8 (w / 16777216)].

(** [struct stat] has its fields at offsets 0, 4, 8, 12 and 16; [st] is a pointer
    to user memory. *)
Definition stati (i : nat) (st : Z) : K unit :=
  let! ip := inode_at i in
  do! vstore (st + 4) (le32 (i_dev ip)) in
  do! vstore (st + 8) (le32 (i_inum ip)) in
  do! vstore st (le16 (i_type ip)) in
  do! vstore (st + 12) (le16 (i_nlink ip)) in
  vstore (st + 16) (le32 (i_size ip)).

Section readi.
Context {X : Type} (put : X -> Z -> list Z -> K X).

(** One iteration of [readi]'s loop. *)
Definition readi_step (i : nat) (n : Z) (st : Z * Z * X) : K ((Z * Z * X) + X) :=
  let '(tot, off, x) := st in
  if tot <? n then
    let! a := bmap i (off / BSIZE) in
    let! ip := inode_at i in
    let! bp := bread (i_dev ip) a in
    let m := xfer_len n tot off in
    let! bf := buf_at bp in
    let! x := put x tot (get_bytes (b_data bf) (Z.to_nat (off mod BSIZE)) (Z.to_nat m)) in
    do! brelse bp in
    ret (inl (tot + m, off + m, x))
  else ret (inr x).

Definition readi (i : nat) (x : X) (off n : Z) : K (Z * X) :=
  let! ip := inode_at i in
  if i_type ip =? T_DEV then
    if (i_major ip <? 0) || (NDEV <=? i_major ip) then ret (-1, x)
    else
      let! sw := gets devsw in
      let! e := ofopt (zget sw (i_major ip)) in
      match e.1 with
      | None => ret (-1, x)
      | Some FN_consoleread => consoleread put i x (i32 n)
      | Some _ => fault
      end
  else if (i_size ip <? off) || (u32 (off + n) <? off) then ret (-1, x)
  else
    let n := if i_size ip <? u32 (off + n) then i_size ip - off else n in
    let! x := loop (xfer_fuel n) (readi_step i n) (0, off, x) in
    ret (i32 n, x).
End readi.

Section writei.
Context (get : Z -> nat -> K (list Z)).

(** One iteration of [writei]'s loop; at the end, the offset reached. *)
Definition writei_step (i : nat) (n : Z) (st : Z * Z) : K ((Z * Z) + Z) :=
  let '(tot, off) := st in
  if tot <? n then
    let! a := bmap i (off / BSIZE) in
    let! ip := inode_at i in
    let! bp := bread (i_dev ip) a in
    let m := xfer_len n tot off in
    let! l := get tot (Z.to_nat m) in
    do! upd_data bp (fun d => put_bytes d (Z.to_nat (off mod BSIZE)) l) in
    do! log_write bp in
    do! brelse bp in
    ret (inl (tot + m, off + m))
  else ret (inr off).

Definition writei (i : nat) (off n : Z) : K Z :=
  let! ip := inode_at i in
  if i_type ip =? T_DEV then
    if (i_major ip <? 0) || (NDEV <=? i_major ip) then ret (-1)
    else
      let! sw := gets devsw in
      let! e := ofopt (zget sw (i_major ip)) in
      match e.2 with
      | None => ret (-1)
      | Some FN_consolewrite => consolewrite get i (i32 n)
      | Some _ => fault
      end
  else if (i_size ip <? off) || (u32 (off + n) <? off) then ret (-1)
  else if MAXFILE * BSIZE <? u32 (off + n) then ret (-1)
  else
    let! off := loop (xfer_fuel n) (writei_step i n) (0, off) in
    let! ip := inode_at i in
    do! when ((0 <? n) && (i_size ip <? off))
      (do! upd_inode i (fun ip => ip <| i_size := off |>) in
       iupdate i) in
    ret (i32 n).
End writei.

(** ** Directories *)

(** [struct dirent]: a [ushort] and [DIRSIZ] characters. *)
Definition DIRENT : Z := 16.
Definition de_inum (de : list Z) : Z := get16 de 0.
Definition de_name (de : list Z) : list Z := drop 2 de.
Definition zero_dirent : list Z := replicate (Z.to_nat DIRENT) 0.

Definition namecmp (s t : list Z) : Z := strncmp_l s t DIRSIZ.

(** The offsets [0, sizeof(de), ...] below [dp->size]. *)
Definition dir_offsets (size : Z) : list Z := (fun j => DIRENT * j) <$> seqZ 0 ((size + DIRENT - 1) / DIRENT).

(** The inode found and the offset of its entry. *)
Definition dirlookup (dp : nat) (name : list Z) : K (option (nat * Z)) :=
  let! ip := inode_at dp in
  if negb (i_type ip =? T_DIR) then panic "dirlookup not DIR"
  else
    first_of (dir_offsets (i_size ip)) (fun off =>
      let! r := readi put_local dp zero_dirent off DIRENT in
      let '(n, de) := r in
      if negb (n =? DIRENT) then panic "dirlookup read"
      else if de_inum de =? 0 then ret None
      else if namecmp name (de_name de) =? 0 then
        let! ip := inode_at dp in
        let! i := iget (i_dev ip) (de_inum de) in
        ret (Some (i, off))
      else ret None).

(** The loop of [dirlink] that looks for a free entry. *)
Definition free_dirent (dp : nat) : K Z :=
  let! ip := inode_at dp in
  let! r := first_of (dir_offsets (i_size ip)) (fun off =>
    let! r := readi put_local dp zero_dirent off DIRENT in
    let '(n, de) := r in
    if negb (n =? DIRENT) then panic "dirlink read"
    else ret (if de_inum de =? 0 then Some off else None)) in
  ret (match r with
       | Some off => off
       | None => DIRENT * ((i_size ip + DIRENT - 1) / DIRENT)
       end).

Definition mk_dirent (name : list Z) (inum : Z) : list Z :=
  [u8 inum; u8 (inum / 256)] ++ strncpy_l name DIRSIZ.

Definition dirlink (dp : nat) (name : list Z) (inum : Z) : K Z :=
  let! r := dirlookup dp name in
  match r with
  | Some (i, _) => do! iput i in ret (-1)
  | None =>
      let! off := free_dirent dp in
      let! n := writei (get_local (mk_dirent name inum)) dp off DIRENT in
      if negb (n =? DIRENT) then panic "dirlink" else ret 0
  end.

(** ** Paths *)

Definition SLASH : Z := 47.

Fixpoint skip_slashes (path : list Z) : list Z :=
  match path with
  | c :: path' => if c =? SLASH then skip_slashes path' else path
  | [] => []
  end.

(** The characters up to the next slash or the end, and what follows. *)
Fixpoint path_elem (path : list Z) : list Z * list Z :=
  match path with
  | c :: path' => if c =? SLASH then ([], path) else let '(s, r) := path_elem path' in (c :: s, r)
  | [] => ([], [])
  end.

(** The remaining path and the new contents of [name], or [None] when no element
    is left. *)
Definition skipelem (path name : list Z) : option (list Z * list Z) :=
  let path := skip_slashes path in
  match path with
  | [] => None
  | _ =>
      let '(s, path) := path_elem path in
      let name := if (DIRSIZ <=? length s)%nat then put_bytes name 0 (take DIRSIZ s)
                  else put_bytes name 0 (s ++ [0]) in
      Some (skip_slashes path, name)
  end.

Definition dotdot : list Z := [46; 46; 0].

(** Where the walk starts. *)
Definition namex_start (path : list Z) : K nat :=
  let! cur := myproc in
  let! p := (match cur with Some me => let! p := proc_at me in ret (Some p) | None => ret None end) in
  let slash := bool_decide (head path = Some SLASH) in
  match p with
  | Some p =>
      let confined := in_newroot p =? 1 in
      if confined && slash then
        let! c := ofopt (cwd p) in
        let! ip := inode_at c in
        iget (i_dev ip) (i_inum ip)
      else if slash then iget ROOTDEV ROOTINO
      else let! c := ofopt (cwd p) in idup c
  | None => if slash then iget ROOTDEV ROOTINO else fault
  end.

(** One element of the path: [inl] the inode, path and name to go on with,
    [inr] the result. *)
Definition namex_step (parent : bool) (st : nat * list Z * list Z) :
    K ((nat * list Z * list Z) + (option nat * list Z)) :=
  let '(i, path, name) := st in
  match skipelem path name with
  | None =>
      if parent then do! iput i in ret (inr (None, name))
      else ret (inr (Some i, name))
  | Some (path, name) =>
      do! ilock (Some i) in
      let! ip := inode_at i in
      if negb (i_type ip =? T_DIR) then
        do! iunlockput i in
        ret (inr (None, name))
      else
        let! me := mycur in
        let! p := proc_at me in
        let last := bool_decide (path = []) in
        if negb (in_newroot p =? 0) && bool_decide (newroot_inode p = Some i) && (namecmp name dotdot =? 0) then
          if parent && last then
            do! iunlock (Some i) in
            ret (inr (Some i, name))
          else
            let! next := idup i in
            do! iunlockput i in
            ret (inl (next, path, name))
        else if parent && last then
          do! iunlock (Some i) in
          ret (inr (Some i, name))
        else
          let! r := dirlookup i name in
          match r with
          | None => do! iunlockput i in ret (inr (None, name))
          | Some (next, _) => do! iunlockput i in ret (inl (next, path, name))
          end
  end.

Definition namex (path : list Z) (parent : bool) (name : list Z) : K (option nat * list Z) :=
  let! i := namex_start path in
  loop (S (length path)) (namex_step parent) (i, path, name).

(** The local [name] of [namei] starts with unspecified contents, which no path
    element depends on; zeros here. *)
Definition zero_name : list Z := replicate DIRSIZ 0.

Definition namei (path : list Z) : K (option nat) :=
  let! r := namex path false zero_name in ret r.1.

Definition nameiparent (path name : list Z) : K (option nat * list Z) := namex path true name.

Definition is_inode_directory (i : nat) : K Z :=
  do! ilock (Some i) in
  let! ip := inode_at i in
  let is_dir := if i_type ip =? T_DIR then 1 else 0 in
  do! iunlock (Some i) in
  ret is_dir.
