(* ===== verification/Content.v ===== *)
(** * The contents of files

    Correctness of [readi] and [writei] ([src/fs.c]): a file is the sequence of its
    bytes, [readi] returns a slice of it and [writei] replaces one, growing the file
    when the slice ends past its end. *)

From S2P Require Import Prelude CString Headers Spinlock Ring Sched Mem Sleeplock Dll Bio Bcache Bytes Log Txn Inode Bmap Console Fs.

(** ** The contents of a file *)

(** The byte at offset [o], and the [n] bytes from [off] on. *)
Definition fbyte (k : kernel) (ip : inode) (o : Z) : Z :=
  byte (default [] (blk k (fblock k ip (o / BSIZE)))) (Z.to_nat (o mod BSIZE)).
Definition fbytes (k : kernel) (ip : inode) (off n : Z) : list Z := (fun j => fbyte k ip (off + j)) <$> seqZ 0 n.

(** A file with all the blocks its size calls for. *)
Record regular (k : kernel) (ip : inode) : Prop := {
  re_ok : file_ok k ip;
  re_type : i_type ip <> T_DEV;
  re_size : 0 <= i_size ip <= MAXFILE * BSIZE;
  re_full : forall n, 0 <= n -> n * BSIZE < i_size ip -> fblock k ip n <> 0 }.

(** ** The loop over blocks *)

(** The number of blocks that bytes [off + tot] to [off + n - 1] lie in. *)
Definition blocks_left (off n tot : Z) : Z :=
  if n <=? tot then 0 else (off + n - 1) / BSIZE - (off + tot) / BSIZE + 1.

Lemma xfer_step off n tot :
  0 <= off -> 0 <= tot < n -> let m := xfer_len n tot (off + tot) in
  0 < m /\ tot + m <= n /\ m <= BSIZE - (off + tot) mod BSIZE /\ blocks_left off n (tot + m) + 1 <= blocks_left off n tot.
Proof.
  intros Ho Ht m. unfold m, xfer_len, blocks_left. pose proof (Z.mod_pos_bound (off + tot) BSIZE) as Hb. unfold BSIZE in *.
  set (x := off + tot) in *. repeat split; try lia.
  destruct (Z.leb_spec n tot); [lia|]. destruct (Z.leb_spec n (tot + Z.min (n - tot) (1024 - x mod 1024))).
  - assert (x / 1024 <= (off + n - 1) / 1024) by (apply Z.div_le_mono; lia). lia.
  - replace (Z.min (n - tot) (1024 - x mod 1024)) with (1024 - x mod 1024) by lia.
    replace (off + (tot + (1024 - x mod 1024))) with (x + (1024 - x mod 1024)) by lia. Z.div_mod_to_equations. lia.
Qed.

Lemma blocks_left_fuel off n : 0 <= off -> 0 <= n -> blocks_left off n 0 < Z.of_nat (xfer_fuel n).
Proof.
  intros Ho Hn. unfold blocks_left, xfer_fuel, BSIZE. rewrite Z2Nat.id by (Z.div_mod_to_equations; lia).
  destruct (Z.leb_spec n 0); Z.div_mod_to_equations; lia.
Qed.

Lemma blocks_left_nonneg off n tot : 0 <= off -> 0 <= tot -> 0 <= blocks_left off n tot.
Proof.
  intros Ho Ht. unfold blocks_left. destruct (Z.leb_spec n tot); [lia|].
  assert ((off + tot) / BSIZE <= (off + n - 1) / BSIZE) by (apply Z.div_le_mono; unfold BSIZE; lia). lia.
Qed.

(** The bytes of a block, as bytes of the file. *)
Lemma get_bytes_fbytes k ip o m d :
  0 <= o -> 0 <= m <= BSIZE - o mod BSIZE -> blk k (fblock k ip (o / BSIZE)) = Some d -> length d = Z.to_nat BSIZE ->
  get_bytes d (Z.to_nat (o mod BSIZE)) (Z.to_nat m) = fbytes k ip o m.
Proof.
  intros Ho Hm Hd Hl. pose proof (Z.mod_pos_bound o BSIZE) as Hb. unfold BSIZE in *. apply list_eq. intros j. unfold get_bytes, fbytes.
  destruct (decide (j < Z.to_nat m)%nat) as [Hj|Hj].
  - rewrite lookup_take_lt, lookup_drop, list_lookup_fmap, lookup_seqZ_lt by lia. cbn.
    unfold fbyte. unfold BSIZE. assert (E : (o + (0 + Z.of_nat j)) / 1024 = o / 1024 /\ (o + (0 + Z.of_nat j)) mod 1024 = o mod 1024 + Z.of_nat j).
    { Z.div_mod_to_equations. lia. }
    destruct E as [-> ->]. rewrite Hd. cbn. unfold byte. replace (Z.to_nat (o mod 1024 + Z.of_nat j)) with (Z.to_nat (o mod 1024) + j)%nat by lia.
    destruct (lookup_lt_is_Some_2 d (Z.to_nat (o mod 1024) + j)) as [x ->]; [lia|]. done.
  - rewrite lookup_take_ge by lia. symmetry. rewrite list_lookup_fmap, lookup_seqZ_ge by lia. done.
Qed.

Lemma fbytes_app k ip off m n : 0 <= m -> 0 <= n -> fbytes k ip off (m + n) = fbytes k ip off m ++ fbytes k ip (off + m) n.
Proof.
  intros Hm Hn. unfold fbytes. rewrite seqZ_app, fmap_app by lia. f_equal.
  apply list_eq. intros j. rewrite !list_lookup_fmap. destruct (decide (Z.of_nat j < n)) as [Hj|Hj].
  - rewrite !lookup_seqZ_lt by lia. cbn. do 2 f_equal. lia.
  - by rewrite !lookup_seqZ_ge by lia.
Qed.

Lemma fbytes_length k ip off n : length (fbytes k ip off n) = Z.to_nat n.
Proof. unfold fbytes. by rewrite length_fmap, length_seqZ. Qed.

Lemma fblock_ext k k' ip n : (forall m, blk k' m = blk k m) -> fblock k' ip n = fblock k ip n.
Proof. intros Hb. unfold fblock. by rewrite Hb. Qed.

Lemma fbytes_ext k k' ip off n : (forall m, blk k' m = blk k m) -> fbytes k' ip off n = fbytes k ip off n.
Proof.
  intros Hb. unfold fbytes. apply list_fmap_ext. intros _ j _. unfold fbyte. by rewrite (fblock_ext k k') , Hb.
Qed.

(** ** Reading *)

(** As [tframe], with user memory changed. *)
Definition rframe (k k' : kernel) : Prop := tframe (k <| pmem := pmem k' |>) k'.

Lemma rframe_of_tframe k k' : tframe k k' -> rframe k k'.
Proof. unfold rframe, tframe. intros E. rewrite E. by kernel_eq. Qed.
Lemma rframe_of_pmem k k' : k' = k <| pmem := pmem k' |> -> rframe k k'.
Proof. unfold rframe, tframe. intros E. rewrite E. by kernel_eq. Qed.
Lemma rframe_trans k1 k2 k3 : rframe k1 k2 -> rframe k2 k3 -> rframe k1 k3.
Proof. unfold rframe, tframe. intros E1 E2. rewrite E2, E1. by kernel_eq. Qed.
Lemma rframe_fs k k' : rframe k k' -> the_sb k' = the_sb k /\ disk k' = disk k /\ icache k' = icache k.
Proof. intros E. by rewrite E. Qed.

Lemma txn_pmem me pd k s B H m : txn me pd k s B H -> txn me pd (k <| pmem := m |>) s B H.
Proof.
  intros [[[E1 E2 E3 E4] [l' Hbc] Hd Hb] Hl Ho Hs]. split; try done. split; try done.
  - split; try done. by eapply sched_ok_ext; [..|exact E4].
  - exists l'. by eapply bc_inv_ext; [..|exact Hbc].
Qed.

(** The same files after a step that changes no block. *)
Lemma fs_same k k' : rframe k k' -> (forall m, blk k' m = blk k m) ->
  (fs_disk k -> fs_disk k') /\ (forall ip, regular k ip -> regular k' ip) /\ (forall b, used k' b = used k b).
Proof.
  intros Hf Hb. destruct (rframe_fs _ _ Hf) as (Es & Ed & Ei).
  assert (Hu : forall b, used k' b = used k b) by (intros; by apply used_ext).
  split_and!; [| |done].
  - intros [H1 H2 H3 H4]. split; rewrite ?Es, ?Ed; try done. intros n Hn. rewrite Hu. auto.
  - intros ip [[O1 O2 O3 O4 O5 O6] H2 H3 H4]. assert (Hfb : forall n, fblock k' ip n = fblock k ip n) by (intros; by apply fblock_ext).
    assert (Hdb : forall c, data_block k c -> data_block k' c) by (intros c; unfold data_block; by rewrite Es, Hu).
    split; [split|..]; try done.
    + intros n Hn. rewrite Hfb. auto.
    + auto.
    + intros Hi n Hn. rewrite Hfb. auto.
    + intros m n Hm Hn. rewrite !Hfb. auto.
    + intros n Hn. rewrite Hfb. auto.
Qed.

Section readi_run.
Context {X : Type} (put : X -> Z -> list Z -> K X) (Inv : Z -> X -> kernel -> Prop) (dat : list Z).
Hypothesis put_ok : forall tot m x k, Inv tot x k -> 0 <= tot -> 0 < m -> tot + m <= Z.of_nat (length dat) ->
  exists x' k', put x tot (get_bytes dat (Z.to_nat tot) (Z.to_nat m)) k = Ret x' k' /\ Inv (tot + m) x' k' /\ k' = k <| pmem := pmem k' |>.
Hypothesis inv_stable : forall tot x k k', Inv tot x k -> pmem k' = pmem k -> cr3 k' = cr3 k -> Inv tot x k'.
Context (me : nat) (pd s : Z) (i : nat).

(** One block. *)
Lemma readi_step_run k ip B off n tot x :
  txn me pd k s B [] -> fs_disk k -> icache k !! i = Some ip -> regular k ip -> (length B < NBUF)%nat ->
  0 <= off -> off + n <= i_size ip -> 0 <= tot < n -> dat = fbytes k ip off n -> Inv tot x k ->
  let m := xfer_len n tot (off + tot) in
  exists x' k', readi_step put i n (tot, off + tot, x) k = Ret (inl (tot + m, off + tot + m, x')) k' /\ Inv (tot + m) x' k' /\
    txn me pd k' s B [] /\ (forall b, blk k' b = blk k b) /\ rframe k k'.
Proof.
  intros Ht Hfs Hi [Hok Hty Hsz Hfull] HB Ho Hn Htot Hdat HI m.
  destruct (xfer_step off n tot Ho Htot) as (M1 & M2 & M3 & _). fold m in M1, M2, M3.
  assert (Hbn : 0 <= (off + tot) / BSIZE < MAXFILE).
  { split; [apply Z.div_pos; unfold BSIZE; lia|]. apply Z.div_lt_upper_bound; unfold BSIZE in *; lia. }
  assert (H0 : fblock k ip ((off + tot) / BSIZE) <> 0).
  { apply Hfull; [lia|]. pose proof (Z.mul_div_le (off + tot) BSIZE). unfold BSIZE in *. lia. }
  destruct (bmap_old me pd s i k ip B _ Ht Hfs Hi Hok Hbn H0 HB) as (k1 & R1 & T1 & B1 & F1).
  set (b := fblock k ip ((off + tot) / BSIZE)) in *. destruct (fo_blk _ _ Hok _ Hbn H0) as [Hbr _]. fold b in Hbr.
  pose proof (addr_range k Hfs). pose proof (tframe_icache _ _ F1) as Ei1.
  destruct (bread_x me pd s k1 B [] b T1) as (bp & d & k2 & R2 & T2 & H2 & Hd & B2 & _ & F2 & Hcl & Hld);
    [apply not_elem_of_nil|rewrite (tframe_disk _ _ F1); apply (fd_dom _ Hfs); lia|cbn; lia|].
  destruct (hb_buf _ _ _ _ H2) as (bf & Hbf & Ebf).
  assert (Hslice : get_bytes d (Z.to_nat ((off + tot) mod BSIZE)) (Z.to_nat m) = get_bytes dat (Z.to_nat tot) (Z.to_nat m)).
  { rewrite (get_bytes_fbytes k ip (off + tot) m d); [|lia|lia|by rewrite <- B1|done].
    rewrite Hdat. replace n with (tot + (m + (n - tot - m))) by lia. rewrite !fbytes_app by lia. unfold get_bytes.
    rewrite drop_app_length' by (by rewrite fbytes_length). rewrite take_app_length' by (by rewrite fbytes_length). done. }
  destruct (put_ok tot m x k2) as (x' & k3 & R3 & I3 & F3); [|lia|lia|rewrite Hdat, fbytes_length; lia|].
  { eapply inv_stable; [exact HI|..]; rewrite F2, F1; done. }
  assert (T3 : txn me pd k3 s B [b]) by (rewrite F3; by apply txn_pmem).
  assert (H3 : hb k3 bp b d) by (rewrite F3; exact H2).
  assert (B3 : forall c, blk k3 c = blk k2 c) by (intros c; by rewrite F3).
  destruct (brelse_x me pd s k3 B [] bp b d T3) as (k4 & R4 & T4 & B4 & _ & F4);
    [apply not_elem_of_nil|done|by rewrite F3|].
  exists x', k4. split_and!; try done.
  - unfold readi_step. rewrite (proj2 (Z.ltb_lt tot n)) by lia. run R1.
    assert (Hi1 : icache k1 !! i = Some ip) by (by rewrite Ei1). run (inode_at_run _ _ _ Hi1). rewrite (fo_dev _ _ Hok).
    run R2. run Hbf. rewrite Ebf. fold m. rewrite Hslice. run R3. by run R4.
  - eapply inv_stable; [exact I3|..]; by rewrite F4.
  - intros c. by rewrite B4, B3, B2, B1.
  - eapply rframe_trans; [by apply rframe_of_tframe|]. eapply rframe_trans; [by apply rframe_of_tframe|].
    eapply rframe_trans; [by apply rframe_of_pmem|]. by apply rframe_of_tframe.
Qed.

Lemma readi_loop_run fuel k ip B off n tot x :
  txn me pd k s B [] -> fs_disk k -> icache k !! i = Some ip -> regular k ip -> (length B < NBUF)%nat ->
  0 <= off -> off + n <= i_size ip -> 0 <= tot <= n -> dat = fbytes k ip off n -> Inv tot x k ->
  blocks_left off n tot < Z.of_nat fuel ->
  exists x' k', loop fuel (readi_step put i n) (tot, off + tot, x) k = Ret x' k' /\ Inv n x' k' /\
    txn me pd k' s B [] /\ (forall b, blk k' b = blk k b) /\ rframe k k'.
Proof.
  revert k tot x. induction fuel as [|fuel IH]; intros k tot x Ht Hfs Hi Hre HB Ho Hn Htot Hdat HI Hfuel.
  { pose proof (blocks_left_nonneg off n tot). lia. }
  cbn [loop]. destruct (decide (tot = n)) as [->|Hne].
  - exists x, k. split_and!; try done; [|by apply rframe_of_tframe, tframe_refl].
    erewrite bind_run; [|unfold readi_step; rewrite Z.ltb_irrefl; reflexivity]. done.
  - destruct (readi_step_run k ip B off n tot x) as (x1 & k1 & R1 & I1 & T1 & B1 & F1); try done; [lia|].
    destruct (xfer_step off n tot Ho) as (M1 & M2 & M3 & M4); [lia|]. set (m := xfer_len n tot (off + tot)) in *.
    destruct (fs_same _ _ F1 B1) as (Hfs1 & Hre1 & _). destruct (rframe_fs _ _ F1) as (_ & _ & Ei).
    destruct (IH k1 (tot + m) x1) as (x2 & k2 & R2 & I2 & T2 & B2 & F2); try done; try lia.
    { auto. } { by rewrite Ei. } { auto. } { rewrite Hdat. symmetry. by apply fbytes_ext. }
    exists x2, k2. split_and!; try done.
    + run R1. by rewrite <- R2, Z.add_assoc.
    + intros b. by rewrite B2.
    + by eapply rframe_trans.
Qed.

(** [readi]: the count and the bytes of the file. *)
Lemma readi_run k ip B off n x :
  txn me pd k s B [] -> fs_disk k -> icache k !! i = Some ip -> regular k ip -> (length B < NBUF)%nat ->
  0 <= off <= i_size ip -> 0 <= n -> off + n < 2 ^ 32 -> dat = fbytes k ip off (Z.min n (i_size ip - off)) -> Inv 0 x k ->
  exists x' k', readi put i x off n k = Ret (Z.min n (i_size ip - off), x') k' /\ Inv (Z.min n (i_size ip - off)) x' k' /\
    txn me pd k' s B [] /\ (forall b, blk k' b = blk k b) /\ rframe k k'.
Proof.
  intros Ht Hfs Hi Hre HB Ho Hn Hlim Hdat HI. pose proof (re_size _ _ Hre) as Hsz. change (MAXFILE * BSIZE) with 274432 in Hsz.
  set (n' := Z.min n (i_size ip - off)) in *.
  destruct (readi_loop_run (xfer_fuel n') k ip B off n' 0 x) as (x' & k' & R & I' & T' & B' & F'); try done; try lia.
  { apply blocks_left_fuel; lia. }
  exists x', k'. split_and!; try done. unfold readi. run (inode_at_run _ _ _ Hi).
  rewrite (proj2 (Z.eqb_neq _ _) (re_type _ _ Hre)). rewrite (proj2 (Z.ltb_ge _ _)), u32_small, (proj2 (Z.ltb_ge (off + n) off)) by lia.
  cbn [orb]. replace (if i_size ip <? off + n then i_size ip - off else n) with n' by (unfold n'; destruct (Z.ltb_spec (i_size ip) (off + n)); lia).
  rewrite Z.add_0_r in R. run R. unfold ret. rewrite i32_small by lia. done.
Qed.
End readi_run.

(** Reading into a variable of the kernel. *)
Lemma put_bytes_app d o l1 l2 : put_bytes d o (l1 ++ l2) = put_bytes (put_bytes d o l1) (o + length l1) l2.
Proof.
  revert d o. induction l1 as [|b l1 IH]; intros d o; cbn; [by rewrite Nat.add_0_r|]. rewrite IH. f_equal. lia.
Qed.

Lemma readi_local me pd s i k ip B off n x :
  txn me pd k s B [] -> fs_disk k -> icache k !! i = Some ip -> regular k ip -> (length B < NBUF)%nat ->
  0 <= off <= i_size ip -> 0 <= n -> off + n < 2 ^ 32 ->
  let n' := Z.min n (i_size ip - off) in
  exists k', readi put_local i x off n k = Ret (n', put_bytes x 0 (fbytes k ip off n')) k' /\
    txn me pd k' s B [] /\ (forall b, blk k' b = blk k b) /\ tframe k k'.
Proof.
  intros Ht Hfs Hi Hre HB Ho Hn Hlim n'. set (dat := fbytes k ip off n').
  assert (Hld : Z.of_nat (length dat) = n') by (unfold dat; rewrite fbytes_length; lia).
  destruct (readi_run put_local (fun tot x' k' => x' = put_bytes x 0 (take (Z.to_nat tot) dat) /\ pmem k' = pmem k) dat) with
    (me := me) (pd := pd) (s := s) (i := i) (k := k) (ip := ip) (B := B) (off := off) (n := n) (x := x)
    as (x' & k' & R & [-> Hpm] & T & Hb & F); try done.
  - intros tot m x1 k1 [-> Hp] Htot Hm Hle. eexists _, k1. split; [reflexivity|]. split; [|by kernel_eq]. split; [|done].
    rewrite Z2Nat.inj_add by lia. rewrite <- (take_drop (Z.to_nat tot) (take (Z.to_nat tot + Z.to_nat m) dat)), put_bytes_app.
    rewrite take_take, skipn_firstn_comm. replace (Z.to_nat tot `min` (Z.to_nat tot + Z.to_nat m))%nat with (Z.to_nat tot) by lia.
    unfold get_bytes. rewrite Nat.add_0_l, length_take. f_equal; [lia|]. f_equal. lia.
  - intros tot x1 k1 k2 [-> Hp] E _. split; [done|congruence].
  - exists k'. split_and!; try done.
    + rewrite R. fold n'. do 2 f_equal. rewrite firstn_all2 by lia. done.
    + unfold rframe, tframe in *. rewrite F. rewrite Hpm. by kernel_eq.
Qed.

(** ** Writing *)

Lemma byte_put_bytes d o l j :
  (o + length l <= length d)%nat -> byte (put_bytes d o l) j = if decide (o <= j < o + length l)%nat then byte l (j - o) else byte d j.
Proof. intros Hl. unfold byte. rewrite put_bytes_lookup by done. by case_decide. Qed.

Lemma byte_get_bytes l o n j : (j < n)%nat -> byte (get_bytes l o n) j = byte l (o + j).
Proof. intros Hj. unfold byte, get_bytes. by rewrite lookup_take_lt, lookup_drop. Qed.

Lemma get_bytes_length l o n : (o + n <= length l)%nat -> length (get_bytes l o n) = n.
Proof. intros H. unfold get_bytes. rewrite length_take, length_drop. lia. Qed.

(** Changing the contents of one data block of a file leaves its block map alone. *)
Lemma data_write k k' ip n d' :
  fs_disk k -> file_ok k ip -> 0 <= n < MAXFILE -> fblock k ip n <> 0 -> tframe k k' ->
  (forall c, blk k' c = if decide (c = fblock k ip n) then Some d' else blk k c) ->
  fs_disk k' /\ file_ok k' ip /\ (forall m, fblock k' ip m = fblock k ip m) /\ (forall b, data_block k b <-> data_block k' b) /\
  (forall c, 0 <= c < s_size (the_sb k) -> used k' c = used k c).
Proof.
  intros Hfs Hok Hn H0 Hf Hb. pose proof (tframe_sb _ _ Hf) as Es. pose proof (bmap_data _ Hfs) as Hbm. pose proof (addr_range _ Hfs) as Hds.
  destruct (fo_blk _ _ Hok n Hn H0) as [Hr _].
  assert (Hu : forall c, 0 <= c < s_size (the_sb k) -> used k' c = used k c).
  { intros c Hc. apply used_ext; [done|]. destruct (BBLOCK_eq k c Hfs Hc). rewrite Hb, decide_False by lia. done. }
  assert (Hfb : forall m, fblock k' ip m = fblock k ip m).
  { intros m. unfold fblock at 1 2. destruct (m <? NDIRECT); [done|]. destruct (Z.eqb_spec (ind ip) 0) as [|Hi]; [done|].
    rewrite Hb, decide_False; [done|]. intros E. by apply (fo_ind_ne _ _ Hok Hi n Hn). }
  assert (Hdb : forall b, data_block k b <-> data_block k' b).
  { intros b. unfold data_block. rewrite Es. split; intros [? Hub]; (split; [done|]); [by rewrite Hu by lia|by rewrite Hu in Hub by lia]. }
  split_and!; try done.
  - eapply fs_disk_grow; [done| |done]. intros c Hc. by rewrite Hu.
  - destruct Hok as [O1 O2 O3 O4 O5 O6]. split; try done.
    + intros m Hm. rewrite Hfb, <- Hdb. auto.
    + rewrite <- Hdb. auto.
    + intros Hi m Hm. rewrite Hfb. auto.
    + intros m m' Hm Hm'. rewrite !Hfb. auto.
Qed.

(** The state of a write of [src] at [off] after [tot] bytes. *)
Record writing (me : nat) (pd s : Z) (i : nat) (k0 : kernel) (ip0 : inode) (src : list Z) (off tot : Z)
    (k : kernel) (ip : inode) (B : list Z) : Prop := {
  wr_txn : txn me pd k s B [];
  wr_fs : fs_disk k;
  wr_ic : icache k = <[i := ip]> (icache k0);
  wr_same : ip = ip0 <| i_addrs := i_addrs ip |>;
  wr_ok : file_ok k ip;
  wr_grow : forall m, 0 <= m < MAXFILE -> fblock k0 ip0 m <> 0 -> fblock k ip m = fblock k0 ip0 m;
  wr_have : forall o, off <= o < off + tot -> fblock k ip (o / BSIZE) <> 0;
  wr_data : forall b, data_block k0 b -> data_block k b;
  wr_new : forall o, off <= o < off + tot -> fbyte k ip o = byte src (Z.to_nat (o - off));
  wr_old : forall o, 0 <= o < MAXFILE * BSIZE -> ~ off <= o < off + tot -> fblock k0 ip0 (o / BSIZE) <> 0 -> fbyte k ip o = fbyte k0 ip0 o;
  wr_blk : forall b, b < s_bmapstart (the_sb k0) \/ data_block k0 b -> (forall n, 0 <= n < MAXFILE -> fblock k0 ip0 n <> b) ->
    b <> ind ip0 -> blk k b = blk k0 b;
  wr_fresh : forall n, 0 <= n < MAXFILE -> fblock k0 ip0 n = 0 -> fblock k ip n <> 0 -> ~ data_block k0 (fblock k ip n);
  wr_ind : ind ip = ind ip0 \/ (ind ip0 = 0 /\ ~ data_block k0 (ind ip));
  wr_frame : tframe (k0 <| icache := icache k |>) k }.

Lemma writing_start me pd s i k ip B src off :
  txn me pd k s B [] -> fs_disk k -> icache k !! i = Some ip -> file_ok k ip ->
  writing me pd s i k ip src off 0 k ip B.
Proof.
  intros Ht Hfs Hi Hok. split; try done; try (intros; lia).
  - by rewrite list_insert_id.
  - by destruct ip.
  - unfold tframe. by kernel_eq.
Qed.


Section writei_run.
Context (get : Z -> nat -> K (list Z)) (P : kernel -> Prop) (src : list Z).
Hypothesis get_ok : forall k tot m, P k -> 0 <= tot -> 0 <= m -> tot + m <= Z.of_nat (length src) ->
  get tot (Z.to_nat m) k = Ret (get_bytes src (Z.to_nat tot) (Z.to_nat m)) k.
Hypothesis P_stable : forall k k', P k -> pmem k' = pmem k -> cr3 k' = cr3 k -> P k'.
Context (me : nat) (pd s : Z) (i : nat) (k0 : kernel) (ip0 : inode).

(** Storing bytes in the block that [bmap] has found or made: the bytes of the file. *)
Lemma store_bytes k ip B o0 m bn a k1 ip1 B1 d l k4 :
  file_ok k ip -> 0 <= o0 -> bn = o0 / BSIZE -> 0 <= bn < MAXFILE -> m <= BSIZE - o0 mod BSIZE -> length l = Z.to_nat m -> 0 <= m ->
  bmap_done me pd s i 5 2 k ip B bn a k1 ip1 B1 -> blk k1 a = Some d -> length d = Z.to_nat BSIZE -> tframe k1 k4 ->
  (forall c, blk k4 c = if decide (c = a) then Some (put_bytes d (Z.to_nat (o0 mod BSIZE)) l) else blk k1 c) ->
  fs_disk k4 /\ file_ok k4 ip1 /\ (forall n, fblock k4 ip1 n = fblock k1 ip1 n) /\ (forall b, data_block k1 b -> data_block k4 b) /\
  (forall o, 0 <= o < MAXFILE * BSIZE -> o0 <= o < o0 + m -> fbyte k4 ip1 o = byte l (Z.to_nat (o - o0))) /\
  (forall o, 0 <= o < MAXFILE * BSIZE -> ~ o0 <= o < o0 + m -> fblock k ip (o / BSIZE) <> 0 -> fbyte k4 ip1 o = fbyte k ip o).
Proof.
  intros Hok Ho0 Ebn Hbn Hmle Hll Hm D Hd Hld F4 B4.
  pose proof D as [D1 D2 D3 D4 D5 D6 [D7 D7'] D8 D9 D10 D11 D12 Di D13 D14].
  assert (Ha0 : fblock k1 ip1 bn <> 0) by congruence. set (x := o0 mod BSIZE) in *.
  assert (Hx : 0 <= x < BSIZE) by (apply Z.mod_pos_bound; done).
  rewrite <- D7 in B4. destruct (data_write k1 k4 ip1 bn _ D2 D6 Hbn Ha0 F4 B4) as (Hfs4 & Hok4 & Hfb4 & Hdb4 & _). rewrite D7 in B4.
  assert (Hne_ind : forall n, 0 <= n < MAXFILE -> fblock k ip n <> 0 -> blk k1 (fblock k ip n) = blk k (fblock k ip n)).
  { intros n Hn H0. apply D12; [right; by apply Hok|]. destruct (decide (ind ip = 0)) as [E|E]; [by rewrite E|by apply Hok]. }
  (* the block written, byte by byte *)
  assert (Hsame : forall o, o / BSIZE = bn -> fbyte k4 ip1 o =
    if decide (o0 <= o < o0 + m) then byte l (Z.to_nat (o - o0)) else byte d (Z.to_nat (o mod BSIZE))).
  { intros o E. unfold fbyte. rewrite Hfb4, E, D7, B4, decide_True by done. cbn. rewrite byte_put_bytes by (rewrite Hld, Hll; unfold BSIZE in *; lia).
    pose proof (Z.div_mod o BSIZE). pose proof (Z.div_mod o0 BSIZE) as Hdm. fold x in Hdm. rewrite Ebn in E. unfold BSIZE in *.
    assert (Ex : o mod 1024 - x = o - o0) by lia. assert (Hmo := Z.mod_pos_bound o 1024).
    rewrite Hll. repeat case_decide; try lia. f_equal. lia. }
  split_and!; try done; [by intros b ?%Hdb4|..].
  - intros o Hor Hin. rewrite Hsame; [by rewrite decide_True|]. subst bn x. clear -Ho0 Hmle Hin. unfold BSIZE in *. Z.div_mod_to_equations. lia.
  - intros o Hor Hout H0. assert (Hr : 0 <= o / BSIZE < MAXFILE).
    { split; [apply Z.div_pos; unfold BSIZE; lia|apply Z.div_lt_upper_bound; unfold BSIZE in *; lia]. }
    destruct (decide (o / BSIZE = bn)) as [E|Hne].
    + rewrite Hsame, decide_False by done. unfold fbyte. rewrite E in *. rewrite <- (Hne_ind bn Hr H0), <- (D9 H0), Hd. done.
    + unfold fbyte. rewrite Hfb4, (D8 _ Hr Hne), B4, decide_False; [by rewrite Hne_ind|].
      intros E. apply Hne. apply (fo_inj _ _ D6); [done..| |]; rewrite D8 by done; [done|congruence].
Qed.

Lemma off_block off tot m o :
  0 <= off -> 0 <= tot -> 0 <= m <= BSIZE - (off + tot) mod BSIZE -> off <= o < off + (tot + m) -> (off + tot) / BSIZE < MAXFILE -> 0 <= o < MAXFILE * BSIZE.
Proof. intros. unfold BSIZE in *. change MAXFILE with 268 in *. Z.div_mod_to_equations. lia. Qed.

(** The write has advanced by one block. *)
Lemma writing_next k ip B off tot m bn a k1 ip1 B1 d k4 B4 :
  writing me pd s i k0 ip0 src off tot k ip B -> fs_disk k0 -> 0 <= off -> 0 <= tot -> 0 < m ->
  bn = (off + tot) / BSIZE -> 0 <= bn < MAXFILE -> m <= BSIZE - (off + tot) mod BSIZE -> tot + m <= Z.of_nat (length src) ->
  bmap_done me pd s i 5 2 k ip B bn a k1 ip1 B1 -> blk k1 a = Some d -> length d = Z.to_nat BSIZE ->
  txn me pd k4 s B4 [] -> tframe k1 k4 ->
  (forall c, blk k4 c = if decide (c = a) then Some (put_bytes d (Z.to_nat ((off + tot) mod BSIZE)) (get_bytes src (Z.to_nat tot) (Z.to_nat m))) else blk k1 c) ->
  writing me pd s i k0 ip0 src off (tot + m) k4 ip1 B4.
Proof.
  intros W Hfs0 Ho Htot Hm Ebn Hbn Hmle Hlen D Hd Hld T4 F4 B4'. destruct W as [W1 W2 W3 W4 W5 W6 W7 W8 W9 W10 W11 Wf Wi W12].
  destruct (store_bytes k ip B (off + tot) m bn a k1 ip1 B1 d (get_bytes src (Z.to_nat tot) (Z.to_nat m)) k4 W5 ltac:(lia) Ebn Hbn Hmle ltac:(apply get_bytes_length; lia) ltac:(lia) D Hd Hld F4 B4')
    as (Hfs4 & Hok4 & Hfb4 & Hdb4 & Hnew & Hold).
  destruct D as [D1 D2 D3 D4 D5 D6 [D7 D7'] D8 D9 D10 D11 D12 Di D13 D14].
  assert (Es : the_sb k = the_sb k0 /\ the_sb k1 = the_sb k0) by (rewrite D13; by rewrite W12). destruct Es as [Es Es1].
  assert (Hblk : forall o, off <= o < off + (tot + m) -> 0 <= o < MAXFILE * BSIZE) by (intros o Hor; eapply (off_block off tot m); lia).
  assert (Hgr : forall o, off <= o < off + tot -> fblock k ip (o / BSIZE) <> 0) by auto.
  (* a block that was not the file's before the write is new *)
  assert (Hfr : fblock k0 ip0 bn = 0 -> ~ data_block k0 a).
  { intros E. destruct (decide (fblock k ip bn = 0)) as [E1|E1]; [intros Hc; apply (D10 E1); auto|]. rewrite (D9 E1). auto. }
  split; try done.
  - rewrite (tframe_icache _ _ F4), D4, W3. by rewrite list_insert_insert_eq.
  - rewrite D5, W4. done.
  - intros n Hn H0. rewrite Hfb4. destruct (decide (n = bn)) as [->|Hne]; [|rewrite D8; auto].
    rewrite D7, <- (W6 bn Hn H0). apply D9. by rewrite W6.
  - intros o Hor. rewrite Hfb4. destruct (decide (o / BSIZE = bn)) as [->|Hne]; [congruence|].
    assert (Hot : off <= o < off + tot) by (subst bn; unfold BSIZE in *; Z.div_mod_to_equations; lia).
    specialize (Hblk o Hor). rewrite D8; [auto| |done]. split; [apply Z.div_pos; unfold BSIZE; lia|apply Z.div_lt_upper_bound; unfold BSIZE in *; lia].
  - auto.
  - intros o Hor. specialize (Hblk o Hor). destruct (decide (off + tot <= o < off + tot + m)) as [Hin|Hout].
    + rewrite Hnew, byte_get_bytes by lia. f_equal. lia.
    + rewrite Hold; [apply W9; lia|done..|apply Hgr; lia].
  - intros o Hor Hno H0. rewrite Hold; [apply W10; [done|lia|done]|done|lia|]. rewrite W6; [done| |done].
    split; [apply Z.div_pos; unfold BSIZE; lia|apply Z.div_lt_upper_bound; unfold BSIZE in *; lia].
  - intros b Hb Hnf Hni. rewrite B4', decide_False.
    + rewrite D12, W11; [done|done..| |].
      * rewrite Es. destruct Hb; [by left|right; auto].
      * destruct Wi as [->|[E Hnd]]; [done|]. destruct (decide (ind ip = 0)) as [E0|E0]; [congruence|]. intros ->.
        destruct (fo_ind _ _ W5 E0) as [[? _] _]. destruct Hb as [Hb|]; [|done]. pose proof (bmap_data _ Hfs0). rewrite Es in *. lia.
    + intros ->. destruct (decide (fblock k0 ip0 bn = 0)) as [E|E].
      * destruct Hb as [Hb|Hb]; [|by apply Hfr]. destruct (fo_blk _ _ D6 bn Hbn) as [[? _] _]; [congruence|]. rewrite D7 in *.
        pose proof (bmap_data _ Hfs0). rewrite Es1 in *. lia.
      * apply (Hnf bn Hbn). rewrite <- (W6 bn Hbn E). symmetry. apply D9. by rewrite W6.
  - intros n Hn E0 H1. rewrite Hfb4 in *. destruct (decide (n = bn)) as [->|Hne]; [rewrite D7; auto|]. rewrite D8 in * by done. auto.
  - destruct Di as [->|[E Hnd]]; [done|]. destruct Wi as [E1|[E1 _]]; right; (split; [congruence|]); intros Hc; apply Hnd; auto.
  - rewrite (tframe_icache _ _ F4). unfold tframe in *. rewrite F4, D13, W12. by kernel_eq.
Qed.

(** One block of [writei]. *)
Lemma writei_step_run k ip B off n tot :
  writing me pd s i k0 ip0 src off tot k ip B -> fs_disk k0 -> file_ok k0 ip0 -> icache k0 !! i = Some ip0 -> P k ->
  0 <= off -> 0 <= tot < n -> n = Z.of_nat (length src) -> off + n <= MAXFILE * BSIZE ->
  (length B < 23)%nat -> free_blocks k 2 ->
  let m := xfer_len n tot (off + tot) in
  exists k' ip' B', writei_step get i n (tot, off + tot) k = Ret (inl (tot + m, off + tot + m)) k' /\
    writing me pd s i k0 ip0 src off (tot + m) k' ip' B' /\ P k' /\ (length B' <= length B + 6)%nat /\
    forall f, free_blocks k (S (S f)) -> free_blocks k' f.
Proof.
  intros W Hfs0 Hok0 Hi0 HP Ho Htot Hn Hmax HB Hfree m. pose proof W as [W1 W2 W3 W4 W5 W6 W7 W8 W9 W10 W11 Wf Wi W12].
  destruct (xfer_step off n tot Ho Htot) as (M1 & M2 & M3 & _). fold m in M1, M2, M3.
  set (bn := (off + tot) / BSIZE). assert (Hbn : 0 <= bn < MAXFILE).
  { unfold bn. split; [apply Z.div_pos; unfold BSIZE; lia|]. apply Z.div_lt_upper_bound; unfold BSIZE in *; lia. }
  assert (Hi : icache k !! i = Some ip) by (rewrite W3; apply list_lookup_insert_eq; by eapply lookup_lt_Some).
  destruct (bmap_run me pd s i k ip B bn W1 W2 Hi W5 Hbn) as (a & k1 & ip1 & B1 & R1 & D); [lia|done|].
  pose proof D as [D1 D2 D3 D4 D5 D6 [D7 D7'] D8 D9 D10 D11 D12 Di D13 D14].
  assert (Hi1 : icache k1 !! i = Some ip1) by (rewrite D4; apply list_lookup_insert_eq; by eapply lookup_lt_Some).
  destruct (fo_blk _ _ D6 bn Hbn) as [Har _]; [by rewrite D7|]. rewrite D7 in Har. pose proof (addr_range _ D2). pose proof (fd_size _ D2).
  destruct (bread_x me pd s k1 B1 [] a D1) as (bp & d & k2 & R2 & T2 & H2 & Hd & B2 & _ & F2 & _ & Hld);
    [apply not_elem_of_nil|apply (fd_dom _ D2); lia|cbn; unfold NBUF; lia|].
  assert (HP2 : P k2) by (eapply P_stable; [exact HP|..]; rewrite F2, D13; done).
  pose proof (get_ok k2 tot m HP2 ltac:(lia) ltac:(lia) ltac:(lia)) as R3.
  set (l := get_bytes src (Z.to_nat tot) (Z.to_nat m)) in *.
  destruct (commit_x me pd s k2 B1 [] bp a d (fun d => put_bytes d (Z.to_nat ((off + tot) mod BSIZE)) l) T2) as (k3 & k4 & k5 & R4 & R5 & R6 & T5 & B5 & _ & F5);
    [apply not_elem_of_nil|done|by rewrite put_bytes_length|lia|lia|].
  pose proof (add_block_length a B1) as HL. assert (F : tframe k1 k5) by (by eapply tframe_trans).
  exists k5, ip1, (add_block a B1). split_and!.
  - unfold writei_step. rewrite (proj2 (Z.ltb_lt tot n)) by lia. fold bn. run R1. run (inode_at_run _ _ _ Hi1). rewrite (fo_dev _ _ D6).
    run R2. fold m. run R3. unfold upd_data. run R4. run R5. by run R6.
  - eapply writing_next; try done; try lia. intros c. rewrite B5. case_decide; [done|apply B2].
  - eapply P_stable; [exact HP2|..]; by rewrite F5.
  - lia.
  - intros f Hf. destruct (D14 f) as (fl & G1 & G2 & G3); [done|]. exists fl. split_and!; try done. intros b Hb. destruct (G2 b Hb) as [Hbr Hbu].
    rewrite (tframe_sb _ _ F). split; [done|]. rewrite <- Hbu. apply used_ext; [by apply tframe_sb|].
    destruct (BBLOCK_eq k1 b D2 Hbr). rewrite B5, decide_False by lia. apply B2.
Qed.

Lemma writei_loop_run fuel k ip B off n tot :
  writing me pd s i k0 ip0 src off tot k ip B -> fs_disk k0 -> file_ok k0 ip0 -> icache k0 !! i = Some ip0 -> P k ->
  0 <= off -> 0 <= tot <= n -> n = Z.of_nat (length src) -> off + n <= MAXFILE * BSIZE ->
  Z.of_nat (length B) + 6 * blocks_left off n tot <= 28 -> free_blocks k (Z.to_nat (2 * blocks_left off n tot)) ->
  blocks_left off n tot < Z.of_nat fuel ->
  exists k' ip' B', loop fuel (writei_step get i n) (tot, off + tot) k = Ret (off + n) k' /\
    writing me pd s i k0 ip0 src off n k' ip' B' /\ (length B' <= 28)%nat.
Proof.
  intros W Hfs0 Hok0 Hi0. revert k ip B tot W. induction fuel as [|fuel IH]; intros k ip B tot W HP Ho Htot Hn Hmax HB Hfree Hfuel.
  { pose proof (blocks_left_nonneg off n tot). lia. }
  cbn [loop]. destruct (decide (tot = n)) as [->|Hne].
  - exists k, ip, B. split_and!; try done; [|pose proof (blocks_left_nonneg off n n); lia].
    erewrite bind_run; [|unfold writei_step; rewrite Z.ltb_irrefl; reflexivity]. done.
  - destruct (xfer_step off n tot Ho) as (M1 & M2 & M3 & M4); [lia|]. set (m := xfer_len n tot (off + tot)) in *.
    pose proof (blocks_left_nonneg off n (tot + m)) as Hbl.
    destruct (writei_step_run k ip B off n tot) as (k1 & ip1 & B1 & R1 & W1 & HP1 & HB1 & Hf1); try done; try lia.
    { eapply free_blocks_le; [|exact Hfree]. lia. }
    destruct (IH k1 ip1 B1 (tot + m)) as (k2 & ip2 & B2 & R2 & W2 & HB2); try done; try lia.
    { apply Hf1. eapply free_blocks_le; [|exact Hfree]. lia. }
    exists k2, ip2, B2. split_and!; try done. fold m in R1. run R1. by rewrite <- R2, Z.add_assoc.
Qed.
End writei_run.

(** The inode's block on disk. *)
Definition inum_ok (k : kernel) (inum : Z) : Prop :=
  0 <= inum /\ 1 < inum / IPB + s_inodestart (the_sb k) < s_bmapstart (the_sb k).

Lemma IBLOCK_eq k inum : fs_disk k -> inum_ok k inum ->
  1 < IBLOCK inum (the_sb k) < s_bmapstart (the_sb k) /\ IBLOCK inum (the_sb k) = inum / IPB + s_inodestart (the_sb k).
Proof. intros Hfs [H1 H2]. pose proof (bmap_data _ Hfs). pose proof (fd_size _ Hfs). unfold IBLOCK. rewrite u32_small by lia. lia. Qed.

Lemma put_addrs_length d o l : length (put_addrs d o l) = length d.
Proof. revert d o. induction l as [|a l IH]; intros d o; [done|]. cbn. by rewrite IH, set32_length. Qed.

Lemma put_dinode_length d o di : length (put_dinode d o di) = length d.
Proof. unfold put_dinode. by rewrite put_addrs_length, set32_length, !set16_length. Qed.

Lemma iupdate_run me pd s i k ip B :
  txn me pd k s B [] -> fs_disk k -> icache k !! i = Some ip -> i_dev ip = 1 -> inum_ok k (i_inum ip) -> (length B < 29)%nat ->
  exists d k', blk k (IBLOCK (i_inum ip) (the_sb k)) = Some d /\ length d = Z.to_nat BSIZE /\ iupdate i k = Ret tt k' /\
    txn me pd k' s (add_block (IBLOCK (i_inum ip) (the_sb k)) B) [] /\ tframe k k' /\
    (forall c, blk k' c = if decide (c = IBLOCK (i_inum ip) (the_sb k))
       then Some (put_dinode d (dinode_off (i_inum ip)) (to_dinode ip)) else blk k c).
Proof.
  intros Ht Hfs Hi Hdev Hin HB. destruct (IBLOCK_eq k (i_inum ip) Hfs Hin) as [Hr _]. set (n := IBLOCK (i_inum ip) (the_sb k)) in *.
  pose proof (bmap_data _ Hfs). pose proof (fd_size _ Hfs).
  destruct (bread_x me pd s k B [] n Ht) as (bp & d & k1 & R1 & T1 & H1 & Hd & B1 & _ & F1 & _ & Hld);
    [apply not_elem_of_nil|apply (fd_dom _ Hfs); lia|cbn; unfold NBUF; lia|].
  destruct (commit_x me pd s k1 B [] bp n d (fun d => put_dinode d (dinode_off (i_inum ip)) (to_dinode ip)) T1) as (k2 & k3 & k4 & R2 & R3 & R4 & T4 & B4 & _ & F4);
    [apply not_elem_of_nil|done|by rewrite put_dinode_length|lia|done|].
  exists d, k4. split_and!; try done.
  - unfold iupdate. run (inode_at_run _ _ _ Hi). rewrite bind_gets, Hdev. fold n. run R1. unfold upd_data. run R2. by run R3.
  - by eapply tframe_trans.
  - intros c. rewrite B4. case_decide; [done|apply B1].
Qed.

(** Changing blocks below the bitmap changes no file. *)
Lemma meta_write k k' ip :
  fs_disk k -> file_ok k ip -> tframe k k' -> (forall c, s_bmapstart (the_sb k) <= c -> blk k' c = blk k c) ->
  fs_disk k' /\ file_ok k' ip /\ (forall m, 0 <= m < MAXFILE -> fblock k' ip m = fblock k ip m) /\
  (forall o, 0 <= o < MAXFILE * BSIZE -> fblock k ip (o / BSIZE) <> 0 -> fbyte k' ip o = fbyte k ip o).
Proof.
  intros Hfs Hok Hf Hb. pose proof (tframe_sb _ _ Hf) as Es. pose proof (bmap_data _ Hfs) as Hbm.
  assert (Hu : forall c, 0 <= c < s_size (the_sb k) -> used k' c = used k c).
  { intros c Hc. apply used_ext; [done|]. apply Hb. destruct (BBLOCK_eq k c Hfs Hc) as [-> _]. pose proof (Z.div_pos c BPB). unfold BPB, BSIZE in *. lia. }
  assert (Hfb : forall m, 0 <= m < MAXFILE -> fblock k' ip m = fblock k ip m).
  { intros m Hm. unfold fblock. destruct (m <? NDIRECT); [done|]. destruct (Z.eqb_spec (ind ip) 0) as [|Hi]; [done|].
    destruct (fo_ind _ _ Hok Hi) as [[? _] _]. rewrite Hb by lia. done. }
  assert (Hdb : forall b, data_block k b -> data_block k' b).
  { intros b [? Hub]. split; rewrite ?Es; [done|]. by rewrite Hu by lia. }
  split_and!; try done.
  - eapply fs_disk_grow; [done| |done]. intros c Hc. by rewrite Hu.
  - destruct Hok as [O1 O2 O3 O4 O5 O6]. split; try done.
    + intros m Hm. rewrite Hfb by done. auto.
    + auto.
    + intros Hi m Hm. rewrite Hfb by done. auto.
    + intros m m' Hm Hm'. rewrite !Hfb by done. auto.
  - intros o Hor H0. assert (Hr : 0 <= o / BSIZE < MAXFILE).
    { split; [apply Z.div_pos; unfold BSIZE; lia|apply Z.div_lt_upper_bound; unfold BSIZE in *; lia]. }
    unfold fbyte. rewrite Hfb by done. destruct (fo_blk _ _ Hok _ Hr H0) as [[? _] _]. rewrite Hb by lia. done.
Qed.

(** What a write promises. *)
Record written_file (me : nat) (pd s : Z) (i : nat) (k0 : kernel) (ip0 : inode) (src : list Z) (off : Z) (k : kernel) (ip : inode) (B : list Z) : Prop := {
  wf_txn : txn me pd k s B [];
  wf_fs : fs_disk k;
  wf_ic : icache k = <[i := ip]> (icache k0);
  wf_same : ip = ip0 <| i_addrs := i_addrs ip |> <| i_size := Z.max (i_size ip0) (off + Z.of_nat (length src)) |>;
  wf_regular : regular k ip;
  wf_bytes : forall o, 0 <= o < i_size ip ->
    fbyte k ip o = if decide (off <= o < off + Z.of_nat (length src)) then byte src (Z.to_nat (o - off)) else fbyte k0 ip0 o;
  wf_log : (length B <= 29)%nat;
  wf_data : forall b, data_block k0 b -> data_block k b;
  wf_blk : forall b, b < s_bmapstart (the_sb k0) \/ data_block k0 b -> b <> IBLOCK (i_inum ip0) (the_sb k0) ->
    (forall n, 0 <= n < MAXFILE -> fblock k0 ip0 n <> b) -> b <> ind ip0 -> blk k b = blk k0 b;
  wf_frame : tframe (k0 <| icache := icache k |>) k }.

Section writei_all.
Context (get : Z -> nat -> K (list Z)) (P : kernel -> Prop) (src : list Z).
Hypothesis get_ok : forall k tot m, P k -> 0 <= tot -> 0 <= m -> tot + m <= Z.of_nat (length src) ->
  get tot (Z.to_nat m) k = Ret (get_bytes src (Z.to_nat tot) (Z.to_nat m)) k.
Hypothesis P_stable : forall k k', P k -> pmem k' = pmem k -> cr3 k' = cr3 k -> P k'.
Context (me : nat) (pd s : Z) (i : nat) (k0 : kernel) (ip0 : inode).

(** All bytes are stored; the size is still the old one. *)
Lemma writing_regular off k ip B :
  regular k0 ip0 -> 0 <= off <= i_size ip0 -> off + Z.of_nat (length src) <= MAXFILE * BSIZE ->
  writing me pd s i k0 ip0 src off (Z.of_nat (length src)) k ip B ->
  let sz := Z.max (i_size ip0) (off + Z.of_nat (length src)) in
  (forall n, 0 <= n -> n * BSIZE < sz -> fblock k ip n <> 0) /\
  (forall o, 0 <= o < sz -> fbyte k ip o = if decide (off <= o < off + Z.of_nat (length src)) then byte src (Z.to_nat (o - off)) else fbyte k0 ip0 o).
Proof.
  intros [Hok Hty Hsz Hfull] Ho Hmax W sz. destruct W as [W1 W2 W3 W4 W5 W6 W7 W8 W9 W10 W11 Wf Wi W12]. split.
  - intros n Hn Hlt. destruct (Z.lt_ge_cases (n * BSIZE) (i_size ip0)) as [Hin|Hout].
    + rewrite W6; [auto|change MAXFILE with 268 in *; unfold BSIZE in *; lia|auto].
    + assert (E : n = (Z.max off (n * BSIZE)) / BSIZE).
      { replace (Z.max off (n * BSIZE)) with (n * BSIZE) by lia. by rewrite Z.div_mul. }
      rewrite E. apply W7. lia.
  - intros o Hor. case_decide; [auto|]. apply W10; [lia|done|]. apply Hfull; [apply Z.div_pos; unfold BSIZE; lia|].
    pose proof (Z.mul_div_le o BSIZE). unfold BSIZE in *. lia.
Qed.

(** Nothing was appended: the inode on disk is up to date. *)
Lemma writing_inside off k ip B :
  regular k0 ip0 -> (length B <= 28)%nat -> 0 <= off -> off + Z.of_nat (length src) <= i_size ip0 ->
  writing me pd s i k0 ip0 src off (Z.of_nat (length src)) k ip B -> written_file me pd s i k0 ip0 src off k ip B.
Proof.
  intros Hre HB Ho Hle W. pose proof (re_size _ _ Hre) as Hsz. destruct (writing_regular off k ip B Hre) as [Hfull Hbytes]; [lia|lia|done|].
  destruct W as [W1 W2 W3 W4 W5 W6 W7 W8 W9 W10 W11 Wf Wi W12]. assert (Es : i_size ip = i_size ip0) by (by rewrite W4).
  split; try done.
  - rewrite W4. rewrite Z.max_l by lia. by destruct ip0.
  - split; try done; [by rewrite W4; apply Hre|by rewrite Es|]. intros m Hm Hlt. apply Hfull; lia.
  - intros o Hor. apply Hbytes. lia.
  - lia.
  - auto.
Qed.

(** The file has grown: the new size goes to the inode and to the disk. *)
Lemma writing_grown off k ip B :
  regular k0 ip0 -> fs_disk k0 -> icache k0 !! i = Some ip0 -> inum_ok k0 (i_inum ip0) -> (length B <= 28)%nat ->
  0 <= off <= i_size ip0 -> i_size ip0 < off + Z.of_nat (length src) <= MAXFILE * BSIZE ->
  writing me pd s i k0 ip0 src off (Z.of_nat (length src)) k ip B ->
  exists k' ip' B', (do! upd_inode i (fun ip => ip <| i_size := off + Z.of_nat (length src) |>) in iupdate i) k = Ret tt k' /\
    written_file me pd s i k0 ip0 src off k' ip' B'.
Proof.
  intros Hre Hfs Hi0 Hin HB Ho Hgrow W. destruct (writing_regular off k ip B Hre Ho) as [Hfull Hbytes]; [lia|done|].
  pose proof W as [W1 W2 W3 W4 W5 W6 W7 W8 W9 W10 W11 Wf Wi W12]. set (n := Z.of_nat (length src)) in *.
  assert (Hi : icache k !! i = Some ip) by (rewrite W3; apply list_lookup_insert_eq; by eapply lookup_lt_Some).
  set (ip2 := ip <| i_size := off + n |>). set (k2 := k <| icache ::= <[i := ip2]> |>).
  assert (T2 : txn me pd k2 s B []) by (by apply txn_icache). assert (Hfs2 : fs_disk k2) by (by apply fs_disk_icache).
  assert (Hi2 : icache k2 !! i = Some ip2) by (cbn; apply list_lookup_insert_eq; by eapply lookup_lt_Some).
  assert (Esb : the_sb k2 = the_sb k0) by (cbn; by rewrite W12). assert (Ein : i_inum ip2 = i_inum ip0) by (unfold ip2; cbn; by rewrite W4).
  destruct (iupdate_run me pd s i k2 ip2 B) as (d & k3 & Hd & Hld & R3 & T3 & F3 & B3); try done; [by unfold ip2; cbn; apply W5| |lia|].
  { rewrite Ein. unfold inum_ok. by rewrite Esb. }
  rewrite Ein, Esb in *. destruct (IBLOCK_eq k0 (i_inum ip0) Hfs Hin) as [Hib _].
  destruct (meta_write k2 k3 ip2) as (Hfs3 & Hok3 & Hfb3 & Hby3); try done.
  { destruct W5 as [O1 O2 O3 O4 O5 O6]. by split. }
  { intros c Hc. rewrite Esb in Hc. rewrite B3, decide_False by lia. done. }
  exists k3, ip2, (add_block (IBLOCK (i_inum ip0) (the_sb k0)) B). split; [erewrite bind_run; [exact R3|by apply upd_inode_run]|].
  split; try done.
  - rewrite (tframe_icache _ _ F3). cbn. by rewrite W3, list_insert_insert_eq.
  - unfold ip2. rewrite W4. cbn. by rewrite Z.max_r by (fold n; lia).
  - split; try done; [cbn; rewrite W4; apply Hre|cbn; lia|]. intros m Hm Hlt. cbn in Hlt.
    rewrite Hfb3 by (change MAXFILE with 268 in *; unfold BSIZE in *; lia). apply Hfull; lia.
  - intros o Hor. cbn in Hor. rewrite Hby3; [apply Hbytes; lia|lia|].
    apply Hfull; [apply Z.div_pos; unfold BSIZE; lia|]. pose proof (Z.mul_div_le o BSIZE). unfold BSIZE in *. lia.
  - pose proof (add_block_length (IBLOCK (i_inum ip0) (the_sb k0)) B). lia.
  - intros b [Hb1 Hb2]%W8. assert (Esk : the_sb k = the_sb k0) by exact Esb. rewrite Esk in Hb1.
    split; [by rewrite (tframe_sb _ _ F3), Esb|]. rewrite <- Hb2. apply used_ext; [exact (tframe_sb _ _ F3)|].
    destruct (BBLOCK_eq k b W2) as [Eb Hbb]; [pose proof (addr_range _ W2); rewrite Esk in *; lia|]. rewrite B3, decide_False; [done|].
    rewrite Esk in *. rewrite Eb. pose proof (Z.div_pos b BPB). unfold BPB, BSIZE in *. pose proof (bmap_data _ Hfs). lia.
  - intros b Hb1 Hb2 Hb3 Hb4. rewrite B3, decide_False by done. change (blk k2 b) with (blk k b). auto.
  - rewrite (tframe_icache _ _ F3). unfold tframe in *. rewrite F3. unfold k2. rewrite W12. by kernel_eq.
Qed.

Lemma writei_run off B :
  txn me pd k0 s B [] -> fs_disk k0 -> icache k0 !! i = Some ip0 -> regular k0 ip0 -> inum_ok k0 (i_inum ip0) -> P k0 ->
  let n := Z.of_nat (length src) in
  0 <= off <= i_size ip0 -> off + n <= MAXFILE * BSIZE ->
  Z.of_nat (length B) + 6 * blocks_left off n 0 <= 28 -> free_blocks k0 (Z.to_nat (2 * blocks_left off n 0)) ->
  exists k' ip' B', writei get i off n k0 = Ret n k' /\ written_file me pd s i k0 ip0 src off k' ip' B'.
Proof.
  intros Ht Hfs Hi Hre Hin HP n Ho Hmax HB Hfree. pose proof (re_ok _ _ Hre) as Hok. pose proof (re_size _ _ Hre) as Hsz.
  destruct (writei_loop_run get P src get_ok P_stable me pd s i k0 ip0 (xfer_fuel n) k0 ip0 B off n 0) as (k1 & ip1 & B1 & R1 & W & HB1); try done; try lia.
  { by apply writing_start. } { apply blocks_left_fuel; lia. }
  assert (Hi1 : icache k1 !! i = Some ip1) by (rewrite (wr_ic _ _ _ _ _ _ _ _ _ _ _ _ W); apply list_lookup_insert_eq; by eapply lookup_lt_Some).
  assert (Es1 : i_size ip1 = i_size ip0) by (by rewrite (wr_same _ _ _ _ _ _ _ _ _ _ _ _ W)). rewrite Z.add_0_r in R1.
  assert (Hrun : forall k', when ((0 <? n) && (i_size ip1 <? off + n)) (do! upd_inode i (fun ip => ip <| i_size := off + n |>) in iupdate i) k1 = Ret tt k' ->
    writei get i off n k0 = Ret n k').
  { intros k' R. change (MAXFILE * BSIZE) with 274432 in Hmax, Hsz. unfold writei. run (inode_at_run _ _ _ Hi). rewrite (proj2 (Z.eqb_neq _ _) (re_type _ _ Hre)).
    rewrite (proj2 (Z.ltb_ge _ _)), u32_small, (proj2 (Z.ltb_ge (off + n) off)) by lia. cbn [orb].
    rewrite (proj2 (Z.ltb_ge (MAXFILE * BSIZE) (off + n))) by (change (MAXFILE * BSIZE) with 274432; lia). run R1. run (inode_at_run _ _ _ Hi1).
    run R. unfold ret. by rewrite i32_small by lia. }
  destruct ((0 <? n) && (i_size ip1 <? off + n)) eqn:E.
  - destruct (writing_grown off k1 ip1 B1) as (k2 & ip2 & B2 & R2 & W2); try done; [fold n; lia|]. exists k2, ip2, B2. split; [by apply Hrun|done].
  - exists k1, ip1, B1. split; [by apply Hrun|]. apply writing_inside; [done|done|lia|fold n; lia|done].
Qed.
End writei_all.

(** ** Reading what was written *)

Lemma get_local_ok src k tot m : 0 <= tot -> 0 <= m -> tot + m <= Z.of_nat (length src) ->
  get_local src tot (Z.to_nat m) k = Ret (get_bytes src (Z.to_nat tot) (Z.to_nat m)) k.
Proof. done. Qed.

Lemma byte_list_eq (l l' : list Z) : length l = length l' -> (forall j, (j < length l)%nat -> byte l j = byte l' j) -> l = l'.
Proof.
  intros Hl Hb. apply list_eq. intros j. destruct (decide (j < length l)%nat) as [Hj|Hj].
  - specialize (Hb j Hj). unfold byte in Hb. destruct (lookup_lt_is_Some_2 l j Hj) as [x Hx].
    destruct (lookup_lt_is_Some_2 l' j) as [y Hy]; [lia|]. rewrite Hx, Hy in *. cbn in Hb. by subst.
  - by rewrite !lookup_ge_None_2 by lia.
Qed.

Lemma written_fbytes me pd s i k0 ip0 src off k ip B :
  0 <= off -> written_file me pd s i k0 ip0 src off k ip B -> fbytes k ip off (Z.of_nat (length src)) = src.
Proof.
  intros Ho W. apply byte_list_eq; [by rewrite fbytes_length, Nat2Z.id|]. rewrite fbytes_length, Nat2Z.id. intros j Hj.
  unfold byte at 1, fbytes. rewrite list_lookup_fmap, lookup_seqZ_lt by lia. cbn.
  assert (Hsz : i_size ip = Z.max (i_size ip0) (off + Z.of_nat (length src))) by (by rewrite (wf_same _ _ _ _ _ _ _ _ _ _ _ W)).
  rewrite (wf_bytes _ _ _ _ _ _ _ _ _ _ _ W) by lia. rewrite decide_True by lia. f_equal. lia.
Qed.

(** C5: reading back what was written.  Inside a transaction with room in the log
    and on the disk, [writei] of [src] at an offset within the file (up to its
    end) stores every byte: it returns their number, the file's size becomes the
    larger of the old size and the end of the write, each byte of the file is the
    byte written there or the one that was there before, and a [readi] of the same
    range returns [src].  Blocks of other files, and inodes other than the ones
    sharing this inode's block, are as before. *)
Theorem write_then_read me pd s i k ip B src off x :
  txn me pd k s B [] -> fs_disk k -> icache k !! i = Some ip -> regular k ip -> inum_ok k (i_inum ip) ->
  let n := Z.of_nat (length src) in
  0 <= off <= i_size ip -> off + n <= MAXFILE * BSIZE -> length x = length src ->
  Z.of_nat (length B) + 6 * blocks_left off n 0 <= 28 -> free_blocks k (Z.to_nat (2 * blocks_left off n 0)) ->
  exists k1 ip1 k2, writei (get_local src) i off n k = Ret n k1 /\ icache k1 = <[i := ip1]> (icache k) /\
    i_size ip1 = Z.max (i_size ip) (off + n) /\ regular k1 ip1 /\
    (forall o, 0 <= o < i_size ip1 -> fbyte k1 ip1 o = if decide (off <= o < off + n) then byte src (Z.to_nat (o - off)) else fbyte k ip o) /\
    (forall b, b < s_bmapstart (the_sb k) \/ data_block k b -> b <> IBLOCK (i_inum ip) (the_sb k) ->
      (forall m, 0 <= m < MAXFILE -> fblock k ip m <> b) -> b <> ind ip -> blk k1 b = blk k b) /\
    readi put_local i x off n k1 = Ret (n, src) k2 /\ (forall b, blk k2 b = blk k1 b).
Proof.
  intros Ht Hfs Hi Hre Hin n Ho Hmax Hx HB Hfree.
  destruct (writei_run (get_local src) (fun _ => True) src (fun k tot m _ => get_local_ok src k tot m) (fun _ _ _ _ _ => I) me pd s i k ip off B)
    as (k1 & ip1 & B1 & R1 & W); try done.
  pose proof (written_fbytes _ _ _ _ _ _ _ _ _ _ _ (proj1 Ho) W) as Hsrc. destruct W as [W1 W2 W3 W4 W5 W6 W7 W8 W9 W10].
  assert (Hi1 : icache k1 !! i = Some ip1) by (rewrite W3; apply list_lookup_insert_eq; by eapply lookup_lt_Some).
  assert (Hsz : i_size ip1 = Z.max (i_size ip) (off + n)) by (by rewrite W4). change (MAXFILE * BSIZE) with 274432 in *.
  destruct (readi_local me pd s i k1 ip1 B1 off n x W1 W2 Hi1 W5) as (k2 & R2 & _ & B2 & _); [unfold NBUF; lia|lia|lia|lia|].
  exists k1, ip1, k2. split_and!; try done. rewrite R2. replace (Z.min n (i_size ip1 - off)) with n by lia. fold n in Hsrc. rewrite Hsrc. do 2 f_equal.
  apply list_eq. intros j. rewrite put_bytes_lookup by lia. case_decide; [by rewrite Nat.sub_0_r|].
  rewrite !lookup_ge_None_2 by lia. done.
Qed.

(** ** A disk with a file *)

Definition demo_bitmap : list Z := [255; 255; 255; 255; 7] ++ replicate 1019 0.
Definition demo_super : list Z := foldr (fun w d => le32 w ++ d) (replicate 996 0) [64; 30; 16; 30; 2; 32; 33].
Definition demo_fblock (n : Z) : list Z :=
  if n =? 33 then demo_bitmap else if n =? 1 then demo_super else demo_block 0.
Definition demo_fsk : kernel := demo <| disk := list_to_map ((fun n => (n, demo_fblock n)) <$> seqZ 0 64) |>.
Definition demo_sb : superblock := mk_superblock 64 30 16 30 2 32 33.
Definition demo_ip : inode :=
  mk_inode 1 2 1 (mk_sleeplock 1 2) 1 T_FILE 0 0 1 5 (34 :: replicate 12 0).

Lemma demo_fsk_env : env 1 2 demo_fsk.
Proof. split; [done|by eexists|done|]. split; [|done|exact prio_ok_demo]. destruct demo_wf. by split. Qed.

Lemma demo_fsk_disk n d : disk demo_fsk !! n = Some d -> 0 <= n < 64 /\ d = demo_fblock n.
Proof.
  cbn. intros H%elem_of_list_to_map_2. apply list_elem_of_fmap in H as (x & [= -> ->] & Hx). apply elem_of_seqZ in Hx. split; [lia|done].
Qed.

Lemma demo_fsk_dom n : 0 <= n < 64 -> disk demo_fsk !! n = Some (demo_fblock n).
Proof.
  intros Hn. destruct (disk demo_fsk !! n) as [d|] eqn:E; [by destruct (demo_fsk_disk n d E) as [_ ->]|].
  cbn in E. apply not_elem_of_list_to_map in E. exfalso. apply E. apply list_elem_of_fmap.
  exists (n, demo_fblock n). split; [done|]. apply list_elem_of_fmap. exists n. split; [done|]. apply elem_of_seqZ. lia.
Qed.

Lemma demo_fblock_length n : length (demo_fblock n) = Z.to_nat BSIZE.
Proof. unfold demo_fblock. destruct (n =? 33); [reflexivity|]. destruct (n =? 1); [reflexivity|apply length_replicate]. Qed.

Lemma demo_bits : forallb (fun b => Bool.eqb (bit_of demo_bitmap b) (b <? 35)) (seqZ 0 64) = true.
Proof. by vm_compute. Qed.

Lemma cst_sb me pd k D H sb : cst me pd k D H -> cst me pd (k <| the_sb := sb |>) D H.
Proof.
  intros [[E1 E2 E3 E4] [l' Hbc] Hd Hb]. split; try done.
  - split; try done. by eapply sched_ok_ext; [..|exact E4].
  - exists l'. by eapply bc_inv_ext; [..|exact Hbc].
Qed.

(** After boot, with an operation admitted and the file in slot 0 of the inode cache. *)
Lemma demo_fsk_boot : exists k, txn 1 2 k 2 [] [] /\ fs_disk k /\ icache k = demo_ip :: replicate 49 zero_inode /\
  regular k demo_ip /\ inum_ok k 2 /\ free_blocks k 29 /\ (forall n, 0 <= n < 64 -> blk k n = Some (demo_fblock n)) /\ the_sb k = demo_sb /\
  forall b, 0 <= b < 64 -> used k b = (b <? 35).
Proof.
  destruct (binit_run 1 2 demo_fsk demo_fsk_env) as (kb & Hb & [He Hi Hnd Hnb] & Hd & _).
  { split; [done|]. intros i b. change (bufs demo_fsk) with (replicate 31 zero_buf). by intros [-> _]%lookup_replicate. }
  { intros n d [_ ->]%demo_fsk_disk. apply demo_fblock_length. }
  set (k := kb <| the_log := mk_log 2 30 1 0 1 0 (replicate 30 0) |> <| the_sb := demo_sb |> <| icache := demo_ip :: replicate 49 zero_inode |>).
  assert (Hc : cst 1 2 kb [] []).
  { split; [exact He|by eexists|intros n; split; [intros []%Hnd|intros []%elem_of_nil]|intros n; split; [intros []%Hnb|intros []%elem_of_nil]]. }
  assert (Ht : txn 1 2 k 2 [] []).
  { apply txn_icache. split; [by apply cst_sb, cst_log| |cbn; lia|done]. split; try reflexivity; [unfold LOGSIZE, MAXOPBLOCKS; lia|apply Forall_nil_2]. }
  assert (Hblk : forall n, 0 <= n < 64 -> blk k n = Some (demo_fblock n)).
  { intros n Hn. rewrite (cst_clean _ _ _ _ _ n (tx_cst _ _ _ _ _ _ Ht)) by apply not_elem_of_nil. cbn. rewrite Hd. by apply demo_fsk_dom. }
  assert (Hu : forall b, 0 <= b < 64 -> used k b = (b <? 35)).
  { intros b Hbr. unfold used. assert (BBLOCK b (the_sb k) = 33) as ->.
    { unfold BBLOCK, u32. change BPB with 8192. change (s_bmapstart (the_sb k)) with 33. rewrite Z.div_small by lia. reflexivity. }
    rewrite Hblk by lia. change (demo_fblock 33) with demo_bitmap. change BPB with 8192. rewrite Z.mod_small by lia.
    pose proof demo_bits as Hall. rewrite forallb_forall in Hall. specialize (Hall b). apply eqb_prop, Hall. apply list_elem_of_In, elem_of_seqZ. lia. }
  assert (Hds : data_start (the_sb k) = 34) by reflexivity. assert (Hsz : s_size (the_sb k) = 64) by reflexivity.
  assert (Hfs : fs_disk k).
  { split; rewrite ?Hds, ?Hsz; [lia|reflexivity|intros n Hn; cbn; rewrite Hd, demo_fsk_dom by done; by eexists|].
    intros n Hn. rewrite Hu by lia. lia. }
  exists k. split_and!; [exact Ht|exact Hfs|reflexivity| | | |exact Hblk|reflexivity|exact Hu].
  - assert (Hfb : forall n, 0 <= n < MAXFILE -> fblock k demo_ip n = if decide (n = 0) then 34 else 0).
    { intros n Hn. unfold fblock. destruct (Z.ltb_spec n NDIRECT) as [Hlt|]; [|rewrite decide_False by (unfold NDIRECT in *; lia); reflexivity].
      case_decide as E; [by subst|]. destruct (Z.to_nat n) as [|j] eqn:Ej; [lia|]. cbn [demo_ip i_addrs nth].
      rewrite nth_lookup. destruct (replicate 12 0 !! j) as [z|] eqn:Ez; [by apply lookup_replicate in Ez as [-> _]|done]. }
    assert (Hind : ind demo_ip = 0) by reflexivity.
    split; [split; [reflexivity|reflexivity| |intros E; by destruct (E Hind)|intros E; by destruct (E Hind)|]|discriminate|change (MAXFILE * BSIZE) with 274432; cbn; lia|].
    + intros n Hn. rewrite Hfb by done. case_decide; [|intros E; by destruct E]. intros _. split; [rewrite Hds, Hsz; lia|]. rewrite Hu by lia. reflexivity.
    + intros m n Hm Hn. rewrite !Hfb by done. repeat case_decide; congruence.
    + intros n Hn Hlt. cbn in Hlt. unfold BSIZE in *. rewrite Hfb by (change MAXFILE with 268; lia). rewrite decide_True by lia. discriminate.
  - split; [lia|]. change (2 / IPB) with 0. cbn. lia.
  - exists (seqZ 35 29). split_and!; [apply NoDup_seqZ| |rewrite length_seqZ; lia].
    intros b Hb'%elem_of_seqZ. rewrite Hsz. split; [lia|]. rewrite Hu by lia. lia.
Qed.

Lemma write_then_read_witness :
  exists k k1 k2, writei (get_local [72; 105; 33]) 0 4 3 k = Ret 3 k1 /\ readi put_local 0 [0; 0; 0] 4 3 k1 = Ret (3, [72; 105; 33]) k2.
Proof.
  destruct demo_fsk_boot as (k & Ht & Hfs & Hic & Hre & Hin & Hfr & _).
  destruct (write_then_read 1 2 2 0 k demo_ip [] [72; 105; 33] 4 [0; 0; 0] Ht Hfs) as (k1 & ip1 & k2 & R1 & _ & _ & _ & _ & _ & R2 & _).
  - by rewrite Hic.
  - exact Hre.
  - exact Hin.
  - change (i_size demo_ip) with 5. lia.
  - change (MAXFILE * BSIZE) with 274432. cbn. lia.
  - reflexivity.
  - vm_compute. discriminate.
  - eapply free_blocks_le; [|exact Hfr]. vm_compute. lia.
  - exists k, k1, k2. split; [exact R1|exact R2].
Defined.

(** C38: allocation of disk blocks.  [balloc] returns the lowest free block of the
    data area, filled with zeros and marked in use, and changes no other block
    outside the bitmap; when every block is in use it panics.  Freeing the block with
    [bfree] makes the set of blocks in use what it was. *)
Theorem balloc_bfree me pd s k B d1 :
  txn me pd k s B [] -> fs_disk k -> (length B <= 26)%nat ->
  blk k 1 = Some d1 -> the_sb k = mk_superblock (get32 d1 0) (get32 d1 4) (get32 d1 8) (get32 d1 12) (get32 d1 16) (get32 d1 20) (get32 d1 24) ->
  1 < s_bmapstart (the_sb k) ->
  (exists b k1 k2, balloc 1 k = Ret b k1 /\ data_start (the_sb k) <= b < s_size (the_sb k) /\
    used k b = false /\ (forall c, 0 <= c < b -> used k c = true) /\ blk k1 b = Some (replicate (Z.to_nat BSIZE) 0) /\
    (forall c, 0 <= c < s_size (the_sb k) -> used k1 c = used k c || (c =? b)) /\
    (forall m, m <> b -> m < s_bmapstart (the_sb k) \/ data_start (the_sb k) <= m -> blk k1 m = blk k m) /\
    bfree 1 b k1 = Ret tt k2 /\ forall c, 0 <= c < s_size (the_sb k) -> used k2 c = used k c) \/
  (exists k1, balloc 1 k = Panic "balloc: out of blocks" k1 /\ forall c, 0 <= c < s_size (the_sb k) -> used k c = true).
Proof.
  intros Ht Hfs HB H1 Hsb Hbm. destruct (balloc_run me pd s k B [] Ht Hfs) as [(b & k1 & B1 & R & [D1 D2 D3 D4 D5 D6 D7 D8 D9 D10])|?];
    [by intros n ?%elem_of_nil|lia|cbn; unfold NBUF; lia| |by right]. left.
  pose proof (tframe_sb _ _ D10) as Es. assert (Hds : 1 < data_start (the_sb k)).
  { pose proof (fd_bmap _ Hfs). pose proof (fd_size _ Hfs). unfold data_start in *. change BPB with 8192 in *. Z.div_mod_to_equations. lia. }
  destruct (bfree_run me pd s k1 B1 [] b d1) as (k2 & R2 & _ & U2 & _); rewrite ?Es; try done.
  - apply (fs_disk_grow k k1); [done| |done]. intros n Hn Hu. by rewrite D7, Hu by done.
  - by intros n ?%elem_of_nil.
  - lia.
  - cbn. unfold NBUF. lia.
  - rewrite D8; [done|lia|lia].
  - lia.
  - rewrite D7 by lia. rewrite Z.eqb_refl. apply orb_true_r.
  - exists b, k1, k2. split_and!; try done; [lia..|]. intros c Hc. rewrite U2 by (by rewrite Es). rewrite D7 by done.
    destruct (Z.eqb_spec c b) as [->|]; [by rewrite D2|]. by destruct (used k c).
Qed.

Lemma balloc_bfree_witness : exists k k1 k2, balloc 1 k = Ret 35 k1 /\ bfree 1 35 k1 = Ret tt k2.
Proof.
  destruct demo_fsk_boot as (k & Ht & Hfs & _ & _ & _ & Hfr & Hblk & Hsb & Hused).
  destruct (balloc_bfree 1 2 2 k [] demo_super Ht Hfs) as [(b & k1 & k2 & R1 & Hb & Hu & Hlow & _ & _ & _ & R2 & _)|(k1 & _ & Hfull)].
  - cbn. lia.
  - exact (Hblk 1 ltac:(lia)).
  - rewrite Hsb. vm_compute. reflexivity.
  - rewrite Hsb. cbn. lia.
  - assert (b = 35) as ->; [|exists k, k1, k2; split; [exact R1|exact R2]].
    rewrite Hsb in Hb. change (s_size demo_sb) with 64 in Hb. change (data_start demo_sb) with 34 in Hb. rewrite Hused in Hu by lia.
    destruct (decide (b = 35)) as [E|E]; [exact E|]. specialize (Hlow 35 ltac:(lia)). rewrite Hused in Hlow by lia. discriminate Hlow.
  - destruct Hfr as (l & _ & Hl & Hlen). destruct l as [|c l]; [cbn in Hlen; lia|]. destruct (Hl c (list_elem_of_here _ _)) as [Hc Hu].
    assert (Hc' : 0 <= c < s_size (the_sb k)) by lia. rewrite (Hfull c Hc') in Hu. discriminate Hu.
Defined.
