(* ===== verification/Dir.v ===== *)
(** * The inode cache and directories

    Correctness of [iget], [dirlookup] and [dirlink] ([src/fs.c]): the cache has one
    slot per inode, and a directory is a map from names to inode numbers. *)

From S2P Require Import Prelude CString Headers Spinlock Ring Sched Mem Sleeplock Dll Bio Bcache Bytes Log Txn Inode Bmap Console Fs Content.

(** ** The inode cache *)

(** The slot is in use for this inode. *)
Definition holds_inode (dev inum : Z) (ip : inode) : Prop := 0 < i_ref ip /\ i_dev ip = dev /\ i_inum ip = inum.
#[export] Instance holds_inode_dec dev inum ip : Decision (holds_inode dev inum ip).
Proof. unfold holds_inode. apply _. Defined.

(** No inode is in two slots. *)
Record icache_ok (k : kernel) : Prop := {
  ic_len : length (icache k) = NINODE;
  ic_ref : forall i ip, icache k !! i = Some ip -> 0 <= i_ref ip < 2 ^ 31 - 1;
  ic_uniq : forall i j ip jp, icache k !! i = Some ip -> icache k !! j = Some jp -> 0 < i_ref ip ->
    holds_inode (i_dev ip) (i_inum ip) jp -> i = j }.

Lemma iget_test dev inum ip :
  (0 <? i_ref ip) && (i_dev ip =? dev) && (i_inum ip =? inum) = bool_decide (holds_inode dev inum ip).
Proof.
  unfold holds_inode. destruct (Z.ltb_spec 0 (i_ref ip)), (Z.eqb_spec (i_dev ip) dev), (Z.eqb_spec (i_inum ip) inum); cbn;
    symmetry; first [apply bool_decide_true|apply bool_decide_false]; tauto || lia.
Qed.

(** What [iget]'s loop finds: the slot that holds the inode, or else a free one. *)
Lemma iget_scan_run dev inum (l : list inode) j empty k :
  Licache ∈ held k -> (forall n ip, l !! n = Some ip -> icache k !! (j + n)%nat = Some ip) ->
  match list_find (holds_inode dev inum) l with
  | Some (n, ip) => iget_scan dev inum (seq j (length l)) empty k =
      Ret (inl (j + n)%nat) (k <| icache ::= <[(j + n)%nat := ip <| i_ref ::= fun r => i32 (r + 1) |>]> |> <| held ::= remove_lock Licache |>)
  | None => iget_scan dev inum (seq j (length l)) empty k =
      Ret (inr (match empty with Some e => Some e | None => (fun p => (j + p.1)%nat) <$> list_find (fun ip => i_ref ip = 0) l end)) k
  end.
Proof.
  intros Hh. revert j empty. induction l as [|ip l IH]; intros j empty Hl; [by destruct empty|]. cbn [list_find length seq].
  pose proof (Hl 0%nat ip eq_refl) as Hip. rewrite Nat.add_0_r in Hip.
  destruct (decide (holds_inode dev inum ip)) as [Hy|Hn].
  - cbn [iget_scan]. run (inode_at_run _ _ _ Hip). rewrite iget_test, bool_decide_true by done. erewrite bind_run; [|by apply upd_inode_run].
    erewrite bind_run; [|by apply release_run]. by rewrite Nat.add_0_r.
  - specialize (IH (S j)). assert (Hl' : forall n ip', l !! n = Some ip' -> icache k !! (S j + n)%nat = Some ip').
    { intros n ip' Hn'. rewrite <- (Hl (S n) ip' Hn'). f_equal. lia. }
    set (e' := if bool_decide (empty = None) && (i_ref ip =? 0) then Some j else empty).
    specialize (IH e' Hl'). assert (Estep : iget_scan dev inum (j :: seq (S j) (length l)) empty k = iget_scan dev inum (seq (S j) (length l)) e' k).
    { cbn [iget_scan]. run (inode_at_run _ _ _ Hip). by rewrite iget_test, bool_decide_false by done. }
    destruct (list_find (holds_inode dev inum) l) as [[n jp]|] eqn:Ef; cbn [fmap option_fmap option_map prod_map fst snd].
    + rewrite Estep, IH. by rewrite !Nat.add_succ_r, !Nat.add_succ_l.
    + rewrite Estep, IH. f_equal. f_equal. unfold e'. destruct empty as [e|]; [done|]. rewrite bool_decide_true by done. cbn [andb].
      destruct (decide (i_ref ip = 0)) as [E|E]; [rewrite E; cbn; by rewrite Nat.add_0_r|].
      rewrite (proj2 (Z.eqb_neq _ _) E). destruct (list_find (fun ip0 => i_ref ip0 = 0) l) as [[n0 ip0]|]; cbn; [|done]. f_equal. lia.
Qed.

(** [iget] raises the count of the slot that holds the inode, or takes the first
    free slot for it. *)
Definition iget_slot (dev inum : Z) (l : list inode) : option (nat * inode) :=
  match list_find (holds_inode dev inum) l with
  | Some (i, ip) => Some (i, ip <| i_ref ::= fun r => i32 (r + 1) |>)
  | None =>
      match list_find (fun ip => i_ref ip = 0) l with
      | Some (i, ip) => Some (i, ip <| i_dev := dev |> <| i_inum := inum |> <| i_ref := 1 |> <| i_valid := 0 |>)
      | None => None
      end
  end.

Lemma iget_run dev inum k : length (icache k) = NINODE -> Licache ∉ held k ->
  iget dev inum k = match iget_slot dev inum (icache k) with
                    | Some (i, ip) => Ret i (k <| icache ::= <[i := ip]> |>)
                    | None => Panic "iget: no inodes" (k <| held ::= cons Licache |>)
                    end.
Proof.
  intros Hlen Hh. unfold iget, iget_slot. run (acquire_run _ _ Hh). set (k1 := k <| held ::= _ |>).
  pose proof (iget_scan_run dev inum (icache k) 0 None k1 ltac:(by left) ltac:(done)) as Hscan. rewrite Hlen in Hscan.
  destruct (list_find (holds_inode dev inum) (icache k)) as [[i ip]|] eqn:Ef.
  - run Hscan. unfold ret. f_equal.
  - run Hscan. destruct (list_find (fun ip => i_ref ip = 0) (icache k)) as [[i ip]|] eqn:Ee; cbn [fmap option_fmap option_map fst]; [|done].
    apply list_find_Some in Ee as (Hi & _ & _). rewrite Nat.add_0_l. assert (Hi1 : icache k1 !! i = Some ip) by done.
    erewrite bind_run; [|by apply upd_inode_run]. erewrite bind_run; [|apply release_run; by left].
    unfold ret. f_equal.
Qed.

(** [iget] keeps the cache free of duplicates, and the slot it returns is the only
    one for the inode. *)
Lemma iget_slot_ok dev inum k i ip :
  icache_ok k -> iget_slot dev inum (icache k) = Some (i, ip) -> (forall j jp, icache k !! j = Some jp -> i_ref jp < 2 ^ 31 - 2) ->
  icache_ok (k <| icache ::= <[i := ip]> |>) /\ (i < NINODE)%nat /\ holds_inode dev inum ip /\
  forall j jp, icache k !! j = Some jp -> holds_inode dev inum jp -> j = i.
Proof.
  intros [Hlen Href Huniq] Hs Hmax. unfold iget_slot in Hs.
  destruct (list_find (holds_inode dev inum) (icache k)) as [[x xp]|] eqn:Ef.
  - injection Hs as -> <-. apply list_find_Some in Ef as (Hi & [Hr [Hd Hn]] & _). pose proof (lookup_lt_Some _ _ _ Hi) as Hlt.
    pose proof (Hmax _ _ Hi) as Hm. assert (Ei : i32 (i_ref xp + 1) = i_ref xp + 1) by (apply i32_small; lia).
    assert (Hone : forall j jp, icache k !! j = Some jp -> holds_inode dev inum jp -> j = i).
    { intros j jp Hj Hh. symmetry. eapply Huniq; [exact Hi|exact Hj|done|]. by rewrite Hd, Hn. }
    split_and!; [split| |split; [cbn; rewrite Ei; lia|done]|done].
    + cbn. by rewrite length_insert.
    + intros j jp Hj. cbn in Hj. apply list_lookup_insert_Some in Hj as [(<- & <- & _)|[_ Hj]]; [cbn; rewrite Ei; lia|eauto].
    + intros a b ap bp Ha Hb Hra Hhb. cbn in Ha, Hb.
      apply list_lookup_insert_Some in Ha as [(<- & <- & _)|[Hna Ha]]; apply list_lookup_insert_Some in Hb as [(<- & <- & _)|[Hnb Hb]]; try done.
      * cbn in Hhb. rewrite Hd, Hn in Hhb. by rewrite (Hone b bp).
      * eapply Huniq; [exact Ha|exact Hi|done|]. destruct Hhb as (_ & E1 & E2). cbn in E1, E2. by split.
      * by eapply Huniq.
    + lia.
  - apply list_find_None in Ef. rewrite Forall_forall in Ef.
    assert (Hno : forall j jp, icache k !! j = Some jp -> ~ holds_inode dev inum jp) by (intros j jp Hj; apply Ef; by eapply list_elem_of_lookup_2).
    destruct (list_find (fun ip => i_ref ip = 0) (icache k)) as [[x xp]|] eqn:Ee; [|done]. injection Hs as -> <-.
    apply list_find_Some in Ee as (Hi & Hr & _). pose proof (lookup_lt_Some _ _ _ Hi) as Hlt.
    split_and!; [split| |split; [cbn; lia|done]|].
    + cbn. by rewrite length_insert.
    + intros j jp Hj. cbn in Hj. apply list_lookup_insert_Some in Hj as [(<- & <- & _)|[_ Hj]]; [cbn; lia|eauto].
    + intros a b ap bp Ha Hb Hra Hhb. cbn in Ha, Hb.
      apply list_lookup_insert_Some in Ha as [(<- & <- & _)|[Hna Ha]]; apply list_lookup_insert_Some in Hb as [(<- & <- & _)|[Hnb Hb]]; try done.
      * cbn in Hhb. by destruct (Hno b bp Hb).
      * destruct (Hno a ap Ha). destruct Hhb as (_ & E1 & E2). cbn in E1, E2. by split.
      * by eapply Huniq.
    + lia.
    + intros j jp Hj Hh. by destruct (Hno j jp Hj).
Qed.

(** ** Directories *)

(** A loop that keeps [I] until it finds. *)
Lemma first_of_keep {S X A} (I : S -> Prop) (P : X -> Prop) `{forall x, Decision (P x)} (l : list X) (body : X -> M S (option A)) s :
  (forall x s, x ∈ l -> I s -> ~ P x -> exists s', body x s = Ret None s' /\ I s') -> I s ->
  match list_find P l with
  | None => exists s', first_of l body s = Ret None s' /\ I s'
  | Some (_, x) => exists s', I s' /\ forall a s'', body x s' = Ret (Some a) s'' -> first_of l body s = Ret (Some a) s''
  end.
Proof.
  intros Hno. revert s. induction l as [|x l IH]; intros s HI; [by exists s|]. cbn [list_find first_of].
  destruct (decide (P x)) as [Hx|Hx].
  - exists s. split; [done|]. intros a s' Hb. by rewrite (bind_run _ _ _ _ _ Hb).
  - destruct (Hno x s (list_elem_of_here _ _) HI Hx) as (s1 & Hb & HI1).
    destruct (list_find P l) as [[i y]|]; cbn.
    + destruct (IH (fun y s Hy => Hno y s (list_elem_of_further _ _ _ Hy)) s1 HI1) as (s2 & HI2 & Hf).
      exists s2. split; [done|]. intros a s' Ha. rewrite (bind_run _ _ _ _ _ Hb). by apply Hf.
    + destruct (IH (fun y s Hy => Hno y s (list_elem_of_further _ _ _ Hy)) s1 HI1) as (s2 & Hf & HI2).
      exists s2. split; [|done]. by rewrite (bind_run _ _ _ _ _ Hb).
Qed.

(** Names count up to [DIRSIZ] characters. *)
Definition same_name (s t : list Z) : Prop := take DIRSIZ (cstr s) = take DIRSIZ (cstr t).
#[export] Instance same_name_dec s t : Decision (same_name s t).
Proof. unfold same_name. apply _. Defined.

(** The entry is in use for the name. *)
Definition named (name de : list Z) : Prop := de_inum de <> 0 /\ same_name name (de_name de).
#[export] Instance named_dec name de : Decision (named name de).
Proof. unfold named. apply _. Defined.

Definition entries (k : kernel) (ip : inode) : list (list Z) :=
  (fun j => fbytes k ip (DIRENT * j) DIRENT) <$> seqZ 0 (i_size ip / DIRENT).

(** What the directory says of a name: the number of its inode. *)
Definition dir_get (k : kernel) (ip : inode) (name : list Z) : option Z :=
  (fun p => de_inum p.2) <$> list_find (named name) (entries k ip).

Record is_dir (k : kernel) (ip : inode) : Prop := {
  dr_file : regular k ip;
  dr_type : i_type ip = T_DIR;
  dr_size : i_size ip mod DIRENT = 0 }.

Lemma dir_offsets_eq size : 0 <= size -> size mod DIRENT = 0 -> dir_offsets size = (fun j => DIRENT * j) <$> seqZ 0 (size / DIRENT).
Proof. intros H1 H2. unfold dir_offsets. do 2 f_equal. unfold DIRENT in *. Z.div_mod_to_equations. lia. Qed.

(** The state between two reads of a directory. *)
Definition reading me pd s B (k k' : kernel) : Prop := txn me pd k' s B [] /\ (forall b, blk k' b = blk k b) /\ tframe k k'.

Section dir.
Context (me : nat) (pd s : Z) (i : nat).

Lemma readi_entry k k' ip B j :
  fs_disk k -> icache k !! i = Some ip -> is_dir k ip -> (length B < NBUF)%nat -> 0 <= j < i_size ip / DIRENT ->
  reading me pd s B k k' ->
  exists k'', readi put_local i zero_dirent (DIRENT * j) DIRENT k' = Ret (DIRENT, fbytes k ip (DIRENT * j) DIRENT) k'' /\ reading me pd s B k k''.
Proof.
  intros Hfs Hi [Hre Hty Hm] HB Hj (Ht & Hb & F). pose proof (re_size _ _ Hre) as Hsz. change (MAXFILE * BSIZE) with 274432 in Hsz.
  destruct (fs_same k k' (rframe_of_tframe _ _ F) Hb) as (Hfs' & Hre' & _).
  assert (Hj16 : 0 <= DIRENT * j /\ DIRENT * j + DIRENT <= i_size ip) by (unfold DIRENT in *; Z.div_mod_to_equations; lia).
  destruct (readi_local me pd s i k' ip B (DIRENT * j) DIRENT zero_dirent Ht (Hfs' Hfs)) as (k'' & R & T & Hb' & F');
    [by rewrite (tframe_icache _ _ F)|by apply Hre'|done|unfold DIRENT in *; lia..|].
  exists k''. unfold reading. split_and!.
  - rewrite R. rewrite Z.min_l by lia. rewrite (fbytes_ext k k') by done. do 2 f_equal.
  - exact T.
  - intros b. by rewrite Hb'.
  - by eapply tframe_trans.
Qed.

(** The loops over a directory's entries, for a test [P] of the entry read. *)
Lemma scan_entries {A} (P : list Z -> Prop) `{forall d, Decision (P d)} (found : Z -> list Z -> K (option A)) k ip B (msg : string) :
  txn me pd k s B [] -> fs_disk k -> icache k !! i = Some ip -> is_dir k ip -> (length B < NBUF)%nat ->
  (forall off d k', ~ P d -> found off d k' = Ret None k') ->
  let body := fun off => let! r := readi put_local i zero_dirent off DIRENT in
                         let '(n, de) := r in if negb (n =? DIRENT) then panic msg else found off de in
  match list_find P (entries k ip) with
  | None => exists k', first_of (dir_offsets (i_size ip)) body k = Ret None k' /\ reading me pd s B k k'
  | Some (j, d) => exists k', reading me pd s B k k' /\
      forall a k'', found (DIRENT * Z.of_nat j) d k' = Ret (Some a) k'' -> first_of (dir_offsets (i_size ip)) body k = Ret (Some a) k''
  end.
Proof.
  intros Ht Hfs Hi Hd HB Hno body. pose proof (re_size _ _ (dr_file _ _ Hd)) as Hsz. rewrite dir_offsets_eq; [|lia|exact (dr_size _ _ Hd)].
  set (n := i_size ip / DIRENT).
  assert (Hbody : forall j k', 0 <= j < n -> reading me pd s B k k' -> exists k'', reading me pd s B k k'' /\
    body (DIRENT * j) k' = found (DIRENT * j) (fbytes k ip (DIRENT * j) DIRENT) k'').
  { intros j k' Hj Hk'. destruct (readi_entry k k' ip B j Hfs Hi Hd HB Hj Hk') as (k'' & R & Hk''). exists k''. split; [done|].
    unfold body. run R. by rewrite Z.eqb_refl. }
  assert (Hk : reading me pd s B k k) by (split_and!; [done|done|apply tframe_refl]).
  pose proof (first_of_keep (reading me pd s B k) (fun off => P (fbytes k ip off DIRENT)) ((fun j => DIRENT * j) <$> seqZ 0 n) body k) as Hf.
  unfold entries. fold n. rewrite list_find_fmap. rewrite list_find_fmap in Hf.
  change ((fun off => P (fbytes k ip off DIRENT)) ∘ (fun j => DIRENT * j)) with (P ∘ (fun j => fbytes k ip (DIRENT * j) DIRENT)) in Hf.
  assert (Hkeep : forall x s0, x ∈ (fun j => DIRENT * j) <$> seqZ 0 n -> reading me pd s B k s0 -> ~ P (fbytes k ip x DIRENT) ->
    exists s', body x s0 = Ret None s' /\ reading me pd s B k s').
  { intros x k' (j & -> & Hj%elem_of_seqZ)%list_elem_of_fmap Hk' Hn. destruct (Hbody j k') as (k'' & Hk'' & E); [lia|done|].
    exists k''. split; [|done]. rewrite E. by apply Hno. }
  specialize (Hf Hkeep Hk). clear Hkeep.
  destruct (list_find (P ∘ (fun j => fbytes k ip (DIRENT * j) DIRENT)) (seqZ 0 n)) as [[x j]|] eqn:E; cbn in Hf |- *; [|exact Hf].
  apply list_find_Some in E as (Ej & _ & _). apply lookup_seqZ in Ej as [-> Hlt]. rewrite Z.add_0_l in Hf |- *. destruct Hf as (k1 & Hk1 & Hf).
  destruct (Hbody (Z.of_nat x) k1) as (k2 & Hk2 & E2); [lia|done|]. exists k2. split; [done|].
  intros a k3 Ha. apply Hf. etrans; [exact E2|exact Ha].
Qed.

Lemma namecmp_test name de : (namecmp name (de_name de) =? 0) = bool_decide (same_name name (de_name de)).
Proof.
  destruct (Z.eqb_spec (namecmp name (de_name de)) 0) as [E|E]; symmetry; [apply bool_decide_true|apply bool_decide_false].
  - by apply strncmp_l_eq.
  - intros H. apply E. by apply strncmp_l_eq.
Qed.

(** [dirlookup] finds the first entry in use for the name. *)
Lemma dirlookup_run k ip B name :
  txn me pd k s B [] -> fs_disk k -> icache k !! i = Some ip -> is_dir k ip -> (length B < NBUF)%nat -> length (icache k) = NINODE ->
  match list_find (named name) (entries k ip) with
  | None => exists k', dirlookup i name k = Ret None k' /\ reading me pd s B k k'
  | Some (j, d) => forall x xp, iget_slot 1 (de_inum d) (icache k) = Some (x, xp) ->
      exists k', dirlookup i name k = Ret (Some (x, DIRENT * Z.of_nat j)) (k' <| icache ::= <[x := xp]> |>) /\ reading me pd s B k k'
  end.
Proof.
  intros Ht Hfs Hi Hd HB Hlen. unfold dirlookup.
  pose proof (scan_entries (named name) (fun off de =>
    if de_inum de =? 0 then ret None
    else if namecmp name (de_name de) =? 0 then
      let! ip := inode_at i in let! x := iget (i_dev ip) (de_inum de) in ret (Some (x, off))
    else ret None) k ip B "dirlookup read" Ht Hfs Hi Hd HB) as Hs. cbv zeta in Hs.
  assert (Hno : forall (off : Z) d k', ~ named name d ->
    (if de_inum d =? 0 then ret None else if namecmp name (de_name d) =? 0
     then let! ip := inode_at i in let! x := iget (i_dev ip) (de_inum d) in ret (Some (x, off)) else ret None) k' = Ret None k').
  { intros off d k' Hn. rewrite namecmp_test. destruct (Z.eqb_spec (de_inum d) 0) as [E|E]; [done|].
    rewrite bool_decide_false; [done|]. intros H. apply Hn. by split. }
  specialize (Hs Hno). destruct (list_find (named name) (entries k ip)) as [[j d]|] eqn:Ef.
  - intros x xp Hx. destruct Hs as (k' & Hk' & Hs). exists k'. split; [|done]. destruct Hk' as (Ht' & Hb' & F').
    run (inode_at_run _ _ _ Hi). rewrite (dr_type _ _ Hd). apply Hs.
    apply list_find_Some in Ef as (_ & [Hn1 Hn2] & _). rewrite namecmp_test, (proj2 (Z.eqb_neq _ _) Hn1), bool_decide_true by done.
    assert (Hi' : icache k' !! i = Some ip) by (by rewrite (tframe_icache _ _ F')). run (inode_at_run _ _ _ Hi').
    rewrite (fo_dev _ _ (re_ok _ _ (dr_file _ _ Hd))). erewrite bind_run; [reflexivity|].
    rewrite iget_run, (tframe_icache _ _ F'), Hx; [done|by rewrite (tframe_icache _ _ F')|].
    rewrite (ev_held _ _ _ (cs_env _ _ _ _ _ (tx_cst _ _ _ _ _ _ Ht'))). apply not_elem_of_nil.
  - destruct Hs as (k' & R & Hk'). exists k'. split; [|done]. run (inode_at_run _ _ _ Hi). by rewrite (dr_type _ _ Hd).
Qed.

(** The index of the first free entry, or of the one past the last. *)
Definition free_index (l : list (list Z)) : nat :=
  match list_find (fun d => de_inum d = 0) l with Some (j, _) => j | None => length l end.

Lemma free_dirent_run k ip B :
  txn me pd k s B [] -> fs_disk k -> icache k !! i = Some ip -> is_dir k ip -> (length B < NBUF)%nat ->
  exists k', free_dirent i k = Ret (DIRENT * Z.of_nat (free_index (entries k ip))) k' /\ reading me pd s B k k'.
Proof.
  intros Ht Hfs Hi Hd HB. unfold free_dirent, free_index. pose proof (re_size _ _ (dr_file _ _ Hd)) as Hsz.
  pose proof (scan_entries (fun d => de_inum d = 0) (fun off de => ret (if de_inum de =? 0 then Some off else None)) k ip B "dirlink read" Ht Hfs Hi Hd HB) as Hs.
  cbv zeta in Hs. assert (Hno : forall (off : Z) d (k' : kernel), de_inum d <> 0 -> ret (if de_inum d =? 0 then Some off else None) k' = Ret None k').
  { intros off d k' Hn. by rewrite (proj2 (Z.eqb_neq _ _) Hn). }
  specialize (Hs Hno). run (inode_at_run _ _ _ Hi). destruct (list_find (fun d => de_inum d = 0) (entries k ip)) as [[j d]|] eqn:Ef.
  - destruct Hs as (k' & Hk' & Hs). exists k'. split; [|done]. apply list_find_Some in Ef as (_ & E & _).
    erewrite bind_run; [|apply Hs; rewrite E; reflexivity]. done.
  - destruct Hs as (k' & R & Hk'). exists k'. split; [|done]. run R. unfold ret. f_equal.
    unfold entries. rewrite length_fmap, length_seqZ. pose proof (dr_size _ _ Hd). unfold DIRENT in *. Z.div_mod_to_equations. lia.
Qed.

(** Putting an entry at an index of the list, or at its end. *)
Definition put_entry (j : nat) (de : list Z) (l : list (list Z)) : list (list Z) := if decide (j < length l)%nat then <[j := de]> l else l ++ [de].

Lemma free_index_le l : (free_index l <= length l)%nat.
Proof.
  unfold free_index. destruct (list_find _ l) as [[j d]|] eqn:E; [|done]. apply list_find_Some in E as (Hj & _).
  apply lookup_lt_Some in Hj. lia.
Qed.

Lemma entries_length k ip : length (entries k ip) = Z.to_nat (i_size ip / DIRENT).
Proof. unfold entries. by rewrite length_fmap, length_seqZ. Qed.

Lemma entries_lookup k ip j : (j < length (entries k ip))%nat -> entries k ip !! j = Some (fbytes k ip (DIRENT * Z.of_nat j) DIRENT).
Proof. rewrite entries_length. intros Hj. unfold entries. rewrite list_lookup_fmap, lookup_seqZ_lt by lia. done. Qed.

Lemma fbytes_eq k ip k' ip' o o' n : (forall j, 0 <= j < n -> fbyte k ip (o + j) = fbyte k' ip' (o' + j)) -> fbytes k ip o n = fbytes k' ip' o' n.
Proof. intros H. unfold fbytes. apply list_fmap_ext. intros x j Hj. apply lookup_seqZ in Hj as [-> Hlt]. apply H. lia. Qed.

Lemma mk_dirent_length name inum : length (mk_dirent name inum) = Z.to_nat DIRENT.
Proof. unfold mk_dirent. rewrite length_app, length_strncpy_l. done. Qed.

(** Writing a whole entry changes that entry. *)
Lemma entries_written k ip k1 ip1 B1 de j :
  is_dir k ip -> written_file me pd s i k ip de (DIRENT * Z.of_nat j) k1 ip1 B1 -> length de = Z.to_nat DIRENT ->
  (j <= length (entries k ip))%nat -> is_dir k1 ip1 /\ entries k1 ip1 = put_entry j de (entries k ip).
Proof.
  intros [Hre Hty Hm] W Hlen Hj. assert (Hj0 : 0 <= DIRENT * Z.of_nat j) by (unfold DIRENT; lia). pose proof (written_fbytes _ _ _ _ _ _ _ _ _ _ _ Hj0 W) as Hwr.
  destruct W as [W1 W2 W3 W4 W5 W6 W7 W8 W9 W10].
  pose proof (re_size _ _ Hre) as Hsz. rewrite entries_length in Hj.
  assert (Hs1 : i_size ip1 = Z.max (i_size ip) (DIRENT * Z.of_nat j + DIRENT)) by (rewrite W4, Hlen; cbn; unfold DIRENT; lia).
  assert (Hdiv : i_size ip1 mod DIRENT = 0 /\ i_size ip1 / DIRENT = Z.max (i_size ip / DIRENT) (Z.of_nat j + 1)).
  { rewrite Hs1. unfold DIRENT in *. Z.div_mod_to_equations. lia. }
  split; [split; [done|rewrite W4; exact Hty|apply Hdiv]|].
  assert (Hput : forall l : list (list Z), put_entry j de l !! j = Some de \/ (length l < j)%nat).
  { intros l. unfold put_entry. case_decide; [left; by apply list_lookup_insert_eq|].
    destruct (decide (length l = j)) as [<-|]; [left; by apply list_lookup_middle|right; lia]. }
  apply list_eq. intros x. assert (Hl : length (put_entry j de (entries k ip)) = length (entries k1 ip1)).
  { rewrite entries_length. unfold put_entry. case_decide as E; rewrite entries_length in E; rewrite ?length_insert, ?length_app, entries_length; cbn; lia. }
  destruct (decide (x < length (entries k1 ip1))%nat) as [Hx|Hx]; [|rewrite !lookup_ge_None_2; [done|lia..]].
  rewrite entries_lookup by done. rewrite entries_length in Hx. destruct (decide (x = j)) as [->|Hne].
  - destruct (Hput (entries k ip)) as [->|E]; [|rewrite entries_length in E; lia]. rewrite Hlen in Hwr. f_equal. exact Hwr.
  - assert (Hx' : (x < length (entries k ip))%nat) by (rewrite entries_length; lia).
    assert (put_entry j de (entries k ip) !! x = entries k ip !! x) as ->.
    { unfold put_entry. case_decide; [by rewrite list_lookup_insert_ne|by rewrite lookup_app_l]. }
    rewrite entries_lookup by done. f_equal. apply fbytes_eq. intros y Hy. rewrite W6.
    + rewrite decide_False; [done|]. rewrite Hlen. unfold DIRENT in *. lia.
    + rewrite entries_length in Hx'. unfold DIRENT in *. Z.div_mod_to_equations. lia.
Qed.

Lemma one_block j : blocks_left (DIRENT * Z.of_nat j) DIRENT 0 = 1.
Proof.
  unfold blocks_left, BSIZE. change DIRENT with 16. change (16 <=? 0) with false. cbv iota.
  enough ((16 * Z.of_nat j + 16 - 1) / 1024 = (16 * Z.of_nat j + 0) / 1024) by lia. Z.div_mod_to_equations. lia.
Qed.

(** A name that is not in the directory is put in the first free entry. *)
Lemma dirlink_run k ip B name inum :
  txn me pd k s B [] -> fs_disk k -> icache k !! i = Some ip -> is_dir k ip -> inum_ok k (i_inum ip) -> length (icache k) = NINODE ->
  (length B <= 22)%nat -> free_blocks k 2 -> i_size ip < MAXFILE * BSIZE -> dir_get k ip name = None ->
  let j := free_index (entries k ip) in
  exists k' k1 ip1 B1, dirlink i name inum k = Ret 0 k1 /\ reading me pd s B k k' /\
    written_file me pd s i k' ip (mk_dirent name inum) (DIRENT * Z.of_nat j) k1 ip1 B1 /\
    is_dir k1 ip1 /\ entries k1 ip1 = put_entry j (mk_dirent name inum) (entries k ip).
Proof.
  intros Ht Hfs Hi Hd Hin Hlen HB Hfree Hsz Hnone j. set (de := mk_dirent name inum).
  pose proof (dirlookup_run k ip B name Ht Hfs Hi Hd ltac:(unfold NBUF; lia) Hlen) as Hl.
  unfold dir_get in Hnone. destruct (list_find (named name) (entries k ip)) as [[]|]; [done|]. destruct Hl as (k2 & R2 & T2 & B2 & F2).
  destruct (fs_same k k2 (rframe_of_tframe _ _ F2) B2) as (Hfs2 & Hre2 & Hu2). pose proof (tframe_icache _ _ F2) as Ei2.
  assert (Hd2 : is_dir k2 ip) by (destruct Hd; split; auto).
  destruct (free_dirent_run k2 ip B T2 (Hfs2 Hfs) ltac:(by rewrite Ei2) Hd2 ltac:(unfold NBUF; lia)) as (k3 & R3 & T3 & B3 & F3).
  destruct (fs_same k2 k3 (rframe_of_tframe _ _ F3) B3) as (Hfs3 & Hre3 & Hu3). pose proof (tframe_icache _ _ F3) as Ei3.
  assert (He : forall k', (forall b, blk k' b = blk k b) -> entries k' ip = entries k ip).
  { intros k' Hb. unfold entries. apply list_fmap_ext. intros _ x _. by apply fbytes_ext. }
  rewrite (He k2) in R3 by done. fold j in R3. assert (Es3 : the_sb k3 = the_sb k) by (by rewrite (tframe_sb _ _ F3), (tframe_sb _ _ F2)).
  pose proof (free_index_le (entries k ip)) as Hj. fold j in Hj. pose proof Hj as Hj'. rewrite entries_length in Hj'.
  assert (Hd3 : is_dir k3 ip) by (destruct Hd2; split; auto).
  assert (Hld : Z.of_nat (length de) = DIRENT) by (unfold de; rewrite mk_dirent_length; done).
  change (MAXFILE * BSIZE) with 274432 in Hsz. pose proof (re_size _ _ (dr_file _ _ Hd)) as Hsz'.
  assert (Hoff : 0 <= DIRENT * Z.of_nat j <= i_size ip /\ DIRENT * Z.of_nat j + DIRENT <= 274432).
  { pose proof (dr_size _ _ Hd). unfold DIRENT in *. Z.div_mod_to_equations. lia. }
  destruct (writei_run (get_local de) (fun _ => True) de (fun k tot m _ => get_local_ok de k tot m) (fun _ _ _ _ _ => I) me pd s i k3 ip (DIRENT * Z.of_nat j) B)
    as (k4 & ip4 & B4 & R4 & W); rewrite ?Hld, ?one_block; try done.
  - by apply Hfs3, Hfs2.
  - by rewrite Ei3, Ei2.
  - apply Hd3.
  - unfold inum_ok in *. by rewrite Es3.
  - lia.
  - change (MAXFILE * BSIZE) with 274432. lia.
  - lia.
  - destruct Hfree as (l & Hnd & Hl & Hll). exists l. split_and!; [done| |done]. intros b Hb. rewrite Es3, Hu3, Hu2. by apply Hl.
  - rewrite Hld in R4. exists k3, k4, ip4, B4. assert (Hr : reading me pd s B k k3).
    { split_and!; [done|intros b; by rewrite B3, B2|by eapply tframe_trans]. }
    split_and!; [|exact Hr|exact W|..].
    + unfold dirlink. run R2. run R3. fold de. run R4. by rewrite Z.eqb_refl.
    + eapply entries_written; [exact Hd3|exact W|apply mk_dirent_length|rewrite He; [done|apply Hr]].
    + rewrite <- (He k3); [|apply Hr]. eapply entries_written; [exact Hd3|exact W|apply mk_dirent_length|rewrite He; [done|apply Hr]].
Qed.
End dir.

(** ** A directory as a map from names to inode numbers *)

Lemma find_snd_app {X} (P : X -> Prop) `{forall x, Decision (P x)} (l1 l2 : list X) :
  snd <$> list_find P (l1 ++ l2) = match snd <$> list_find P l1 with Some x => Some x | None => snd <$> list_find P l2 end.
Proof.
  induction l1 as [|x l1 IH]; [done|]. cbn [app list_find]. destruct (decide (P x)); [done|].
  rewrite <- !option_fmap_compose. change (snd ∘ prod_map S id) with (@snd nat X). by rewrite IH.
Qed.

Lemma find_snd_cons {X} (P : X -> Prop) `{forall x, Decision (P x)} x (l : list X) :
  snd <$> list_find P (x :: l) = if decide (P x) then Some x else snd <$> list_find P l.
Proof. cbn [list_find]. destruct (decide (P x)); [done|]. by rewrite <- option_fmap_compose. Qed.

Lemma dir_get_snd k ip name : dir_get k ip name = de_inum <$> (snd <$> list_find (named name) (entries k ip)).
Proof. unfold dir_get. by rewrite <- option_fmap_compose. Qed.

Lemma de_inum_mk name inum : 0 <= inum < 2 ^ 16 -> de_inum (mk_dirent name inum) = inum.
Proof. intros H. unfold de_inum, get16, mk_dirent, byte, u8. cbn. Z.div_mod_to_equations. lia. Qed.

Lemma de_name_mk name' name inum : same_name name' (de_name (mk_dirent name inum)) <-> same_name name' name.
Proof.
  unfold same_name, de_name, mk_dirent. change (drop 2 _) with (strncpy_l name DIRSIZ). by rewrite cstr_strncpy_l, take_take, Nat.min_id.
Qed.

(** Where the new entry goes there was none in use. *)
Lemma find_put_entry name' l de (P := named name') :
  snd <$> list_find P (put_entry (free_index l) de l) =
    match snd <$> list_find P l with
    | Some d => if decide (P de) then snd <$> list_find P (take (free_index l) l ++ [de]) else Some d
    | None => if decide (P de) then Some de else None
    end.
Proof.
  set (j := free_index l). unfold put_entry. case_decide as Hj.
  - destruct (lookup_lt_is_Some_2 l j Hj) as [d Hd]. assert (Hz : ~ P d).
    { unfold j, free_index in *. destruct (list_find (fun d => de_inum d = 0) l) as [[x dx]|] eqn:E; [|lia].
      apply list_find_Some in E as (Hx & E & _). rewrite Hx in Hd. injection Hd as ->. intros [Hn _]. done. }
    rewrite insert_take_drop by done. rewrite <- (take_drop_middle l j d Hd) at 3. rewrite !find_snd_app, !find_snd_cons.
    rewrite (decide_False (P := P d)) by done. destruct (snd <$> list_find P (take j l)); [by case_decide|].
    destruct (snd <$> list_find P (drop (S j) l)); by case_decide.
  - pose proof (free_index_le l). fold j in H. rewrite (firstn_all2 l) by lia. rewrite !find_snd_app, find_snd_cons.
    destruct (snd <$> list_find P l); by case_decide.
Qed.

Lemma dir_get_put k ip k1 ip1 name inum name' :
  0 < inum < 2 ^ 16 -> dir_get k ip name = None -> entries k1 ip1 = put_entry (free_index (entries k ip)) (mk_dirent name inum) (entries k ip) ->
  dir_get k1 ip1 name' = if decide (same_name name' name) then Some inum else dir_get k ip name'.
Proof.
  intros Hin Hnone He. rewrite !dir_get_snd, He, find_put_entry. unfold dir_get in Hnone.
  assert (Hnew : named name' (mk_dirent name inum) <-> same_name name' name).
  { unfold named. rewrite de_inum_mk, de_name_mk by lia. split; [tauto|]. split; [lia|done]. }
  destruct (decide (same_name name' name)) as [Hs|Hs].
  - rewrite (decide_True (P := named name' _)) by (by apply Hnew).
    destruct (list_find (named name') (entries k ip)) as [[x d]|] eqn:E; cbn [fmap option_fmap option_map snd]; [|by rewrite de_inum_mk by lia].
    exfalso. apply list_find_Some in E as (Hx & [Hn1 Hn2] & _). apply fmap_None, list_find_None in Hnone.
    rewrite Forall_forall in Hnone. apply (Hnone d (list_elem_of_lookup_2 _ _ _ Hx)). split; [exact Hn1|]. unfold same_name in *. congruence.
  - assert (Hn : ~ named name' (mk_dirent name inum)) by (by rewrite Hnew).
    destruct (snd <$> list_find (named name') (entries k ip)); by rewrite decide_False.
Qed.

Lemma iget_slot_some dev inum k : (exists y yp, icache k !! y = Some yp /\ i_ref yp = 0) -> icache_ok k ->
  exists x xp, iget_slot dev inum (icache k) = Some (x, xp) /\ holds_inode dev inum xp /\ (x < NINODE)%nat.
Proof.
  intros (y & yp & Hy & Hr) [Hlen Href _]. unfold iget_slot.
  destruct (list_find (holds_inode dev inum) (icache k)) as [[x xp]|] eqn:E.
  - apply list_find_Some in E as (Hx & [H1 H2] & _). eexists _, _. split; [reflexivity|]. pose proof (Href _ _ Hx).
    split; [|apply lookup_lt_Some in Hx; lia]. split; [|exact H2]. cbn. rewrite i32_small by lia. lia.
  - destruct (list_find (fun ip => i_ref ip = 0) (icache k)) as [[x xp]|] eqn:E2.
    + apply list_find_Some in E2 as (Hx & _). eexists _, _. split; [reflexivity|]. split; [|apply lookup_lt_Some in Hx; lia]. split; [cbn; lia|done].
    + apply list_find_None in E2. rewrite Forall_forall in E2. destruct (E2 yp); [by eapply list_elem_of_lookup_2|done].
Qed.

(** C6: a directory is a map from names (their first [DIRSIZ] characters) to inode
    numbers, and [dirlink] inserts into it.  For a name that is not there, [dirlink]
    succeeds, the new name is bound to its inode number, every other name keeps its
    binding, and [dirlookup] of the name then returns the inode-cache slot that
    holds the inode.  Blocks of other files are unchanged. *)
Theorem dirlink_insert me pd s i k ip B name inum :
  txn me pd k s B [] -> fs_disk k -> icache_ok k -> icache k !! i = Some ip -> is_dir k ip -> inum_ok k (i_inum ip) ->
  (length B <= 22)%nat -> free_blocks k 2 -> i_size ip < MAXFILE * BSIZE -> (exists y yp, icache k !! y = Some yp /\ i_ref yp = 0) ->
  0 < inum < 2 ^ 16 -> dir_get k ip name = None ->
  exists k1 ip1, dirlink i name inum k = Ret 0 k1 /\ icache k1 = <[i := ip1]> (icache k) /\ is_dir k1 ip1 /\
    (forall name', dir_get k1 ip1 name' = if decide (same_name name' name) then Some inum else dir_get k ip name') /\
    (exists x xp off k2, dirlookup i name k1 = Ret (Some (x, off)) k2 /\ icache k2 !! x = Some xp /\ holds_inode 1 inum xp) /\
    (forall b, b < s_bmapstart (the_sb k) \/ data_block k b -> b <> IBLOCK (i_inum ip) (the_sb k) ->
      (forall m, 0 <= m < MAXFILE -> fblock k ip m <> b) -> b <> ind ip -> blk k1 b = blk k b).
Proof.
  intros Ht Hfs Hic Hi Hd Hin HB Hfree Hsz Hslot Hinum Hnone.
  destruct (dirlink_run me pd s i k ip B name inum Ht Hfs Hi Hd Hin (ic_len _ Hic) HB Hfree Hsz Hnone) as (k' & k1 & ip1 & B1 & R & (T' & B' & F') & W & Hd1 & He1).
  destruct W as [W1 W2 W3 W4 W5 W6 W7 W8 W9 W10]. pose proof (tframe_icache _ _ F') as Ei. pose proof (tframe_sb _ _ F') as Es. rewrite Ei in W3.
  assert (Hi1 : icache k1 !! i = Some ip1) by (rewrite W3; apply list_lookup_insert_eq; by eapply lookup_lt_Some).
  assert (Hkeep : forall x xp, icache k1 !! x = Some xp -> exists xp0, icache k !! x = Some xp0 /\ i_ref xp = i_ref xp0 /\ i_dev xp = i_dev xp0 /\ i_inum xp = i_inum xp0).
  { intros x xp Hx. rewrite W3 in Hx. apply list_lookup_insert_Some in Hx as [(<- & <- & _)|[_ Hx]]; [|by exists xp]. exists ip. rewrite W4. done. }
  assert (Hic1 : icache_ok k1).
  { destruct Hic as [I1 I2 I3]. split; [by rewrite W3, length_insert| |].
    - intros x xp Hx. destruct (Hkeep _ _ Hx) as (xp0 & Hx0 & -> & _). eauto.
    - intros x y xp yp Hx Hy Hr (H1 & H2 & H3). destruct (Hkeep _ _ Hx) as (xp0 & Hx0 & E1 & E2 & E3). destruct (Hkeep _ _ Hy) as (yp0 & Hy0 & E4 & E5 & E6).
      eapply I3; [exact Hx0|exact Hy0|congruence|]. split_and!; congruence. }
  pose proof (dir_get_put k ip k1 ip1 name inum) as Hget.
  exists k1, ip1. split_and!; [exact R|exact W3|exact Hd1|by intros; apply Hget| |].
  - destruct (iget_slot_some 1 inum k1) as (x & xp & Hx & Hxp & Hlt); [|done|].
    { destruct Hslot as (y & yp & Hy & Hr). destruct (decide (y = i)) as [->|Hne]; [exists i, ip1|exists y, yp; rewrite W3, list_lookup_insert_ne by done; done].
      split; [done|]. rewrite W4. cbn. congruence. }
    pose proof (dirlookup_run me pd s i k1 ip1 B1 name W1 W2 Hi1 Hd1 ltac:(unfold NBUF; lia) (ic_len _ Hic1)) as Hl.
    specialize (Hget name Hinum Hnone He1). rewrite decide_True in Hget by done. unfold dir_get in Hget.
    destruct (list_find (named name) (entries k1 ip1)) as [[j d]|]; [|done]. cbn in Hget. injection Hget as Hd'. rewrite Hd' in Hl.
    destruct (Hl x xp Hx) as (k2 & R2 & _ & _ & F2). exists x, xp, (DIRENT * Z.of_nat j), (k2 <| icache ::= <[x := xp]> |>).
    split_and!; [exact R2| |done..]. cbn. apply list_lookup_insert_eq. rewrite (tframe_icache _ _ F2), (ic_len _ Hic1). done.
  - intros b Hb1 Hb2 Hb3 Hb4. rewrite W9; [by rewrite B'|..]; rewrite ?Es; try done.
    + destruct Hb1 as [|[Hb1 Hb1']]; [by left|right]. split; [by rewrite Es|]. rewrite <- Hb1'. by apply used_ext.
    + intros m Hm. rewrite (fblock_ext k k') by done. by apply Hb3.
Qed.

Definition demo_dir : inode := demo_ip <| i_type := T_DIR |> <| i_size := 0 |>.

Lemma dirlink_insert_witness :
  exists k k1 ip1 x off k2, dirlink 0 [104; 105; 0] 5 k = Ret 0 k1 /\ dir_get k1 ip1 [104; 105; 0] = Some 5 /\
    dirlookup 0 [104; 105; 0] k1 = Ret (Some (x, off)) k2.
Proof.
  destruct demo_fsk_boot as (k & Ht & Hfs & Hic & Hre & Hin & Hfr & _). set (k' := k <| icache := demo_dir :: replicate 49 zero_inode |>).
  assert (Hre' : regular k' demo_dir).
  { destruct Hre as [[O1 O2 O3 O4 O5 O6] H2 H3 H4]. split; [split; assumption|discriminate|change (MAXFILE * BSIZE) with 274432; cbn; lia|].
    intros n Hn Hlt. cbn in Hlt. unfold BSIZE in Hlt. lia. }
  assert (Hcache : forall i ip, icache k' !! i = Some ip -> i = 0%nat /\ ip = demo_dir \/ ip = zero_inode).
  { intros [|i] ip H; [left; split; [reflexivity|]; cbn in H; injection H as H; symmetry; exact H|right]. exact (proj1 (proj1 (lookup_replicate 49 zero_inode ip i) H)). }
  destruct (dirlink_insert 1 2 2 0 k' demo_dir [] [104; 105; 0] 5) as (k1 & ip1 & R & _ & _ & Hget & (x & xp & off & k2 & R2 & _) & _).
  - exact (txn_icache _ _ _ _ _ _ _ Ht).
  - exact (fs_disk_icache _ _ Hfs).
  - split; [reflexivity| |].
    + intros i ip [[_ ->]| ->]%Hcache; cbn; lia.
    + intros i j ip jp Hi Hj Hr (Hjr & _). destruct (Hcache _ _ Hi) as [[-> ->]| ->]; [|cbn in Hr; lia]. destruct (Hcache _ _ Hj) as [[-> _]| ->]; [reflexivity|cbn in Hjr; lia].
  - reflexivity.
  - split; [exact Hre'|reflexivity|reflexivity].
  - exact Hin.
  - cbn. lia.
  - exact (free_blocks_le _ 2 29 ltac:(lia) Hfr).
  - change (MAXFILE * BSIZE) with 274432. cbn. lia.
  - exists 1%nat, zero_inode. split; reflexivity.
  - lia.
  - reflexivity.
  - exists k', k1, ip1, x, off, k2. split; [exact R|]. split; [|exact R2]. rewrite Hget. reflexivity.
Defined.

(** C37: one slot per inode.  In a cache without duplicates [iget] returns the one
    slot that holds the inode, with its count raised by one and nothing else of it
    changed when it was there already, and otherwise takes the first slot whose
    reference count is 0, which becomes the inode's with count 1, marked not yet read;
    no other slot changes and the cache still has no duplicates.  It panics only when
    all slots are in use for other inodes.  (Reference counts stay below 2^31 - 2.) *)
Theorem iget_unique dev inum k :
  icache_ok k -> Licache ∉ held k -> (forall j jp, icache k !! j = Some jp -> i_ref jp < 2 ^ 31 - 2) ->
  (exists i ip, iget dev inum k = Ret i (k <| icache ::= <[i := ip]> |>) /\ icache_ok (k <| icache ::= <[i := ip]> |>) /\
    (i < NINODE)%nat /\ holds_inode dev inum ip /\
    ((exists jp, icache k !! i = Some jp /\ i_ref jp = 0 /\
        ip = jp <| i_dev := dev |> <| i_inum := inum |> <| i_ref := 1 |> <| i_valid := 0 |> /\
        (forall j jp, icache k !! j = Some jp -> (j < i)%nat -> i_ref jp <> 0) /\
        forall j jp, icache k !! j = Some jp -> ~ holds_inode dev inum jp) \/
     exists jp, icache k !! i = Some jp /\ holds_inode dev inum jp /\ ip = jp <| i_ref ::= Z.add 1 |>)) \/
  (iget dev inum k = Panic "iget: no inodes" (k <| held ::= cons Licache |>) /\
    forall j jp, icache k !! j = Some jp -> 0 < i_ref jp /\ ~ holds_inode dev inum jp).
Proof.
  intros Hic Hh Hmax. rewrite iget_run by (done || apply Hic). destruct (iget_slot dev inum (icache k)) as [[i ip]|] eqn:Es.
  - left. destruct (iget_slot_ok dev inum k i ip Hic Es Hmax) as (Hok & Hi & Hhold & Huniq). exists i, ip. split_and!; try done.
    unfold iget_slot in Es. destruct (list_find (holds_inode dev inum) (icache k)) as [[x xp]|] eqn:Ef.
    + injection Es as -> <-. right. exists xp. apply list_find_Some in Ef as (Hx & Hxp & _). split_and!; [done..|].
      pose proof (Hmax _ _ Hx). pose proof (ic_ref _ Hic _ _ Hx). transitivity (xp <| i_ref := i32 (i_ref xp + 1) |>); [reflexivity|]. by rewrite i32_small, Z.add_comm by lia.
    + left. apply list_find_None in Ef. rewrite Forall_forall in Ef. destruct (list_find (fun ip => i_ref ip = 0) (icache k)) as [[x xp]|] eqn:Ee; [|done].
      apply list_find_Some in Ee as (Hx & Hr & Hfirst). injection Es as -> <-. exists xp. split_and!; [done..| |].
      * intros j jp Hj Hlt. exact (Hfirst _ _ Hj Hlt).
      * intros j jp Hj. apply Ef. exact (list_elem_of_lookup_2 _ _ _ Hj).
  - right. split; [done|]. intros j jp Hj. unfold iget_slot in Es.
    destruct (list_find (holds_inode dev inum) (icache k)) as [[x xp]|] eqn:Ef; [done|].
    destruct (list_find (fun ip => i_ref ip = 0) (icache k)) as [[x xp]|] eqn:Ee; [done|]. apply list_find_None in Ef, Ee. rewrite Forall_forall in Ef, Ee.
    pose proof (list_elem_of_lookup_2 _ _ _ Hj) as Hin. pose proof (ic_ref _ Hic _ _ Hj). specialize (Ee _ Hin). split; [lia|by apply Ef].
Qed.

Lemma iget_unique_witness : exists k', iget 1 7 zero_kernel = Ret 0%nat k' /\ icache_ok k'.
Proof.
  assert (Hz : forall i ip, icache zero_kernel !! i = Some ip -> ip = zero_inode).
  { intros i ip H. exact (proj1 (proj1 (lookup_replicate NINODE zero_inode ip i) H)). }
  destruct (iget_unique 1 7 zero_kernel) as [(i & ip & R & Hok & _ & _ & Hslot)|[_ H]].
  - split; [reflexivity| |].
    + intros i ip ->%Hz. cbn. lia.
    + intros i j ip jp ->%Hz _ Hr. cbn in Hr. lia.
  - apply not_elem_of_nil.
  - intros j jp ->%Hz. cbn. lia.
  - assert (Hi0 : i = 0%nat); [|subst i; eexists; split; [exact R|exact Hok]]. destruct Hslot as [(jp & _ & _ & _ & Hfirst & _)|(jp & Hj & [Hr _] & _)]; [|rewrite (Hz _ _ Hj) in Hr; cbn in Hr; lia].
    destruct i as [|i]; [reflexivity|]. exfalso. exact (Hfirst 0%nat zero_inode eq_refl ltac:(lia) eq_refl).
  - destruct (H 0%nat zero_inode eq_refl) as [Hr _]. cbn in Hr. lia.
Defined.
