(* ===== verification/Path.v ===== *)
(** * Paths and container roots

    Path resolution ([skipelem] and [namex] of [src/fs.c]): paths are split at
    slashes, and [..] at the root of a container stays there. *)

From S2P Require Import Prelude CString Headers Spinlock Ring Sched Mem Sleeplock Dll Bio Bcache Bytes Log Txn Inode Bmap Console Fs Content Dir.

(** ** What the file system's operations leave alone *)

(** The code running is that of process [me], of which [Q] holds. *)
Definition runs (me : nat) (Q : proc -> Prop) (k : kernel) : Prop :=
  curproc k = Some me /\ exists p, procs k !! me = Some p /\ Q p.

Section runs.
Context (me : nat) (Q : proc -> Prop).
Hypothesis Q_state : forall p s, Q p -> Q (p <| state := s |>).
Hypothesis Q_chan : forall p c, Q p -> Q (p <| chan := c |>).
Hypothesis Q_prio : forall p x, Q p -> Q (p <| hfs_priority := x |>).
Local Abbreviation I := (runs me Q).

Lemma runs_modify g : (forall k, curproc (g k) = curproc k /\ procs (g k) = procs k) -> pres I (modify g).
Proof. intros H. apply pres_modify. intros k [H1 H2]. destruct (H k) as [E1 E2]. split; by rewrite ?E1, ?E2. Qed.

Lemma runs_proc_at j : pres I (proc_at j).
Proof. unfold proc_at. pres_tac. Qed.

Lemma runs_upd_proc j f : (forall p, Q p -> Q (f p)) -> pres I (upd_proc j f).
Proof.
  intros Hf k [H1 (p & H2 & H3)]. unfold upd_proc, proc_at, keeps, bind, gets. cbn.
  destruct (procs k !! j) as [pj|] eqn:Ej; cbn; [|by split; eauto]. split; [done|]. cbn.
  destruct (decide (j = me)) as [->|Hne].
  - rewrite list_lookup_insert_eq by (by eapply lookup_lt_Some). exists (f pj). rewrite H2 in Ej. injection Ej as <-. auto.
  - rewrite list_lookup_insert_ne by done. eauto.
Qed.

Lemma runs_swtch : pres I swtch.
Proof. intros k Hk. split; [done|]. by intros k'. Qed.
#[local] Hint Resolve runs_proc_at runs_swtch : pres.
#[local] Hint Extern 1 (pres _ (modify _)) => (apply runs_modify; done) : pres.
#[local] Hint Extern 1 (pres _ (upd_proc _ _)) => (apply runs_upd_proc; intros; first [done|by auto]) : pres.

Lemma runs_acquire l : pres I (acquire l).
Proof. unfold acquire, holding. pres_tac. Qed.
Lemma runs_release l : pres I (release l).
Proof. unfold release, holding. pres_tac. Qed.
Lemma runs_mycur : pres I mycur.
Proof. unfold mycur, myproc. pres_tac. Qed.
Lemma runs_sched : pres I sched.
Proof. unfold sched, holding, mycur, myproc. pres_tac. Qed.
Lemma runs_enqueue_at x y : pres I (enqueue_at x y).
Proof. unfold enqueue_at. pres_tac. Qed.
#[local] Hint Resolve runs_acquire runs_release runs_mycur runs_sched runs_enqueue_at : pres.
Lemma runs_fp_enqueue x : pres I (fp_enqueue x).
Proof. unfold fp_enqueue. pres_tac. Qed.
Lemma runs_hfs_enqueue x : pres I (hfs_enqueue x).
Proof. unfold hfs_enqueue. pres_tac. Qed.
#[local] Hint Resolve runs_fp_enqueue runs_hfs_enqueue : pres.
Lemma runs_sleep ch lk : pres I (sleep ch lk).
Proof. unfold sleep, myproc. pres_tac. Qed.
Lemma runs_wakeup ch : pres I (wakeup ch).
Proof. unfold wakeup, wakeup1. pres_tac. Qed.

(** The sleep-locks and the buffer cache. *)
Lemma runs_buf_at i : pres I (buf_at i).
Proof. unfold buf_at. pres_tac. Qed.
Lemma runs_inode_at i : pres I (inode_at i).
Proof. unfold inode_at. pres_tac. Qed.
#[local] Hint Resolve runs_sleep runs_wakeup runs_buf_at runs_inode_at : pres.
Lemma runs_upd_buf i f : pres I (upd_buf i f).
Proof. unfold upd_buf. pres_tac. Qed.
Lemma runs_upd_inode i f : pres I (upd_inode i f).
Proof. unfold upd_inode. pres_tac. Qed.
#[local] Hint Resolve runs_upd_buf runs_upd_inode : pres.
Lemma runs_sl_get s : pres I (sl_get s).
Proof. unfold sl_get. pres_tac. Qed.
Lemma runs_sl_set s v : pres I (sl_set s v).
Proof. unfold sl_set. pres_tac. Qed.
#[local] Hint Resolve runs_sl_get runs_sl_set : pres.
Lemma runs_acquiresleep s : pres I (acquiresleep s).
Proof. unfold acquiresleep. pres_tac. Qed.
Lemma runs_releasesleep s : pres I (releasesleep s).
Proof. unfold releasesleep. pres_tac. Qed.
Lemma runs_holdingsleep s : pres I (holdingsleep s).
Proof. unfold holdingsleep. pres_tac. Qed.
#[local] Hint Resolve runs_acquiresleep runs_releasesleep runs_holdingsleep : pres.
Lemma runs_iderw i : pres I (iderw i).
Proof. unfold iderw. pres_tac. Qed.
Lemma runs_walk d t : pres I (walk d t).
Proof. unfold walk. pres_tac. Qed.
Lemma runs_link_first i : pres I (link_first i).
Proof. unfold link_first. pres_tac. Qed.
#[local] Hint Resolve runs_iderw runs_walk runs_link_first : pres.
Lemma runs_bget d n : pres I (bget d n).
Proof. unfold bget. pres_tac. Qed.
#[local] Hint Resolve runs_bget : pres.
Lemma runs_bread d n : pres I (bread d n).
Proof. unfold bread. pres_tac. Qed.
Lemma runs_brelse i : pres I (brelse i).
Proof. unfold brelse. pres_tac. Qed.
Lemma runs_log_write i : pres I (log_write i).
Proof. unfold log_write, upd_log. pres_tac. Qed.
#[local] Hint Resolve runs_bread runs_brelse runs_log_write : pres.

(** Inodes. *)
Lemma runs_iupdate i : pres I (iupdate i).
Proof. unfold iupdate, upd_data. pres_tac. Qed.
Lemma runs_bfree d b : pres I (bfree d b).
Proof. unfold bfree, readsb, upd_data. pres_tac. Qed.
#[local] Hint Resolve runs_iupdate runs_bfree : pres.
Lemma runs_itrunc i : pres I (itrunc i).
Proof. unfold itrunc. pres_tac. Qed.
#[local] Hint Resolve runs_itrunc : pres.
Lemma runs_iput i : pres I (iput i).
Proof. unfold iput. pres_tac. Qed.
Lemma runs_ilock i : pres I (ilock i).
Proof. unfold ilock. pres_tac. Qed.
Lemma runs_iunlock i : pres I (iunlock i).
Proof. unfold iunlock. pres_tac. Qed.
#[local] Hint Resolve runs_iput runs_ilock runs_iunlock : pres.
Lemma runs_iunlockput i : pres I (iunlockput i).
Proof. unfold iunlockput. pres_tac. Qed.
Lemma runs_idup i : pres I (idup i).
Proof. unfold idup. pres_tac. Qed.
Lemma runs_iget d n : pres I (iget d n).
Proof.
  unfold iget. pres_tac. generalize (seq 0 NINODE), (None : option nat). intros l. induction l as [|j l IH]; intros e; cbn [iget_scan]; pres_tac.
Qed.
End runs.

(** ** Paths *)

(** The path cut at every slash, and its non-empty parts. *)
Fixpoint cut (path : list Z) : list (list Z) :=
  match path with
  | [] => [[]]
  | c :: path' => if c =? SLASH then [] :: cut path'
                  else match cut path' with e :: es => (c :: e) :: es | [] => [[c]] end
  end.
Definition elements (path : list Z) : list (list Z) := filter (fun e => e <> []) (cut path).

Lemma cut_path_elem path s r : path_elem path = (s, r) ->
  path = s ++ r /\ SLASH ∉ s /\ (r = [] \/ head r = Some SLASH) /\ cut path = s :: match r with [] => [] | _ :: r' => cut r' end.
Proof.
  revert s r. induction path as [|c path IH]; intros s r; cbn [path_elem cut].
  - intros [= <- <-]. split_and!; [done|apply not_elem_of_nil|by left|done].
  - destruct (Z.eqb_spec c SLASH) as [->|Hc].
    + intros [= <- <-]. split_and!; [done|apply not_elem_of_nil|by right|done].
    + destruct (path_elem path) as [s' r'] eqn:E. intros [= <- <-]. destruct (IH s' r' eq_refl) as (-> & Hs & Hr & Hcut).
      split_and!; [done| |done|by rewrite Hcut]. apply not_elem_of_cons. done.
Qed.

Lemma elements_skip path : elements (skip_slashes path) = elements path.
Proof.
  induction path as [|c path IH]; [done|]. cbn [skip_slashes]. destruct (Z.eqb_spec c SLASH) as [->|]; [|done].
  rewrite IH. unfold elements. cbn [cut]. rewrite Z.eqb_refl, filter_cons_False by (intros H; by apply H). done.
Qed.

Lemma skip_slashes_spec path : head (skip_slashes path) <> Some SLASH /\ (length (skip_slashes path) <= length path)%nat /\
  (forall c, c ∈ skip_slashes path -> c ∈ path).
Proof.
  induction path as [|c path (IH1 & IH2 & IH3)]; [done|]. cbn [skip_slashes]. destruct (Z.eqb_spec c SLASH) as [->|Hc].
  - split_and!; [done|cbn; lia|]. intros x Hx. apply elem_of_cons. right. auto.
  - split_and!; [cbn; congruence|done|done].
Qed.

(** A path without leading slashes has an element unless it is empty. *)
Lemma elements_head path : path <> [] -> head path <> Some SLASH ->
  exists s r, path_elem path = (s, r) /\ s <> [] /\ elements path = s :: elements (skip_slashes r).
Proof.
  intros Hne Hh. destruct (path_elem path) as [s r] eqn:E. exists s, r. split; [done|].
  destruct (cut_path_elem _ _ _ E) as (Hp & _ & Hr & Hcut). assert (Hs : s <> []).
  { intros ->. cbn in Hp. subst. destruct Hr; congruence. }
  split; [done|]. rewrite elements_skip. unfold elements. rewrite Hcut, filter_cons_True by done. f_equal.
  destruct r as [|c r]; [done|]. destruct Hr as [|[= ->]]; [done|].
  cbn [cut]. by rewrite Z.eqb_refl, filter_cons_False by (intros H; by apply H).
Qed.

(** The next element in the name buffer. *)
Lemma name_of_elem name s : length name = DIRSIZ -> 0 ∉ s ->
  let name' := if (DIRSIZ <=? length s)%nat then put_bytes name 0 (take DIRSIZ s) else put_bytes name 0 (s ++ [0]) in
  length name' = DIRSIZ /\ take DIRSIZ (cstr name') = take DIRSIZ s.
Proof.
  intros Hl H0 name'. assert (Hput : forall l, (length l <= DIRSIZ)%nat -> put_bytes name 0 l = l ++ drop (length l) name).
  { intros l Hll. apply list_eq. intros j. rewrite put_bytes_lookup by lia. case_decide as Hj.
    - rewrite Nat.sub_0_r, lookup_app_l by lia. done.
    - rewrite lookup_app_r, lookup_drop by lia. f_equal. lia. }
  assert (Hcstr : forall l r, 0 ∉ l -> cstr (l ++ r) = l ++ cstr r).
  { clear. intros l r. induction l as [|c l IH]; intros Hl; [done|]. apply not_elem_of_cons in Hl as [Hc Hl].
    cbn. rewrite (proj2 (Z.eqb_neq c 0)) by congruence. by rewrite IH. }
  unfold name'. destruct (Nat.leb_spec DIRSIZ (length s)) as [Hle|Hlt].
  - rewrite Hput by (rewrite length_take; lia). rewrite length_take, Nat.min_l by lia. rewrite (skipn_all2 name) by lia.
    rewrite app_nil_r. split; [rewrite length_take; lia|]. rewrite <- (app_nil_r (take DIRSIZ s)), Hcstr.
    + cbn [cstr]. rewrite app_nil_r, take_take, Nat.min_id. done.
    + intros H. apply H0. by eapply elem_of_take in H as (? & ? & _); eapply list_elem_of_lookup_2.
  - rewrite Hput by (rewrite length_app; cbn; lia). split.
    + rewrite !length_app, length_drop. cbn. lia.
    + rewrite <- app_assoc, Hcstr by done. cbn [app cstr]. rewrite Z.eqb_refl. by rewrite app_nil_r.
Qed.

Lemma path_elem_shrinks path s r : path_elem path = (s, r) -> s <> [] -> (length r < length path)%nat.
Proof. intros E Hs. apply cut_path_elem in E as (-> & _). rewrite length_app. destruct s; [done|]. cbn. lia. Qed.

Lemma skipelem_run path name : 0 ∉ path -> length name = DIRSIZ ->
  match skipelem path name with
  | None => elements path = []
  | Some (rest, name') => exists e, elements path = e :: elements rest /\ take DIRSIZ (cstr name') = take DIRSIZ e /\
      length name' = DIRSIZ /\ head rest <> Some SLASH /\ (length rest < length path)%nat /\ 0 ∉ rest /\ (elements rest = [] -> rest = [])
  end.
Proof.
  intros H0 Hl. unfold skipelem. rewrite <- (elements_skip path). destruct (skip_slashes_spec path) as (Hh & Hlen & Hsub).
  destruct (skip_slashes path) as [|c p] eqn:Ep; [done|]. destruct (elements_head (c :: p)) as (s & r & E & Hs & He); [done..|].
  rewrite E. pose proof (path_elem_shrinks _ _ _ E Hs) as Hr. destruct (cut_path_elem _ _ _ E) as (Hcp & _).
  assert (H0' : forall x, x ∈ s \/ x ∈ r -> x <> 0).
  { intros x Hx ->. apply H0, Hsub. rewrite Hcp. by apply elem_of_app. }
  destruct (name_of_elem name s Hl) as [Hl' Hn']; [intros H; by apply (H0' 0); [left|]|].
  destruct (skip_slashes_spec r) as (Hhr & Hlr & Hsr).
  exists s. split_and!; [done|exact Hn'|exact Hl'|done|lia| |].
  - intros H. apply (H0' 0); [right; auto|done].
  - intros Hnil. destruct (skip_slashes r) as [|c' r'] eqn:Er; [done|]. destruct (elements_head (c' :: r')) as (? & ? & _ & _ & E'); [done..|].
    by rewrite E' in Hnil.
Qed.

(** The values that [name] takes in the loop [while((path = skipelem(path, name)) != 0)]
    of [namex]. *)
Fixpoint loop_names (fuel : nat) (path name : list Z) : option (list (list Z)) :=
  match fuel with
  | O => None
  | S fuel =>
      match skipelem path name with
      | None => Some []
      | Some (path, name) => cons name <$> loop_names fuel path name
      end
  end.

(** [skipelem] splits a path as the reference definition [elements] does: the
    loop of [namex] ends, within one round per character, and the names it goes
    through are the non-empty parts of the path between slashes, in order, each cut
    to [DIRSIZ] characters.  The rest returned with a name is empty exactly when the
    name is the last one. *)
Theorem skipelem_splits path name : 0 ∉ path -> length name = DIRSIZ ->
  (exists l, loop_names (S (length path)) path name = Some l /\ (fun n => take DIRSIZ (cstr n)) <$> l = take DIRSIZ <$> elements path) /\
  (forall rest name', skipelem path name = Some (rest, name') -> rest = [] <-> length (elements path) = 1%nat).
Proof.
  intros H0 Hl. split.
  - enough (Hgen : forall fuel, (length path < fuel)%nat ->
      exists l, loop_names fuel path name = Some l /\ (fun n => take DIRSIZ (cstr n)) <$> l = take DIRSIZ <$> elements path) by (apply Hgen; lia).
    intros fuel. revert path name H0 Hl. induction fuel as [|fuel IH]; intros path name H0 Hl Hf; [lia|]. cbn [loop_names].
    pose proof (skipelem_run path name H0 Hl) as Hs. destruct (skipelem path name) as [[rest name']|]; [|exists []; by rewrite Hs].
    destruct Hs as (e & He & Hn & Hl' & _ & Hlen & H0' & _). destruct (IH rest name' H0' Hl' ltac:(lia)) as (l & Hr & Hm).
    exists (name' :: l). rewrite Hr, He. split; [done|]. rewrite !fmap_cons, Hm. f_equal. exact Hn.
  - intros rest name' E. pose proof (skipelem_run path name H0 Hl) as Hs. rewrite E in Hs. destruct Hs as (e & He & _ & _ & _ & _ & _ & Hnil).
    rewrite He. split; [by intros ->|]. cbn. intros Hlen. apply Hnil, nil_length_inv. lia.
Qed.

(** [//ab/c]. *)
Lemma skipelem_splits_witness :
  exists l, loop_names 7 [47; 47; 97; 98; 47; 99] zero_name = Some l /\ (fun n => take DIRSIZ (cstr n)) <$> l = [[97; 98]; [99]].
Proof.
  destruct (skipelem_splits [47; 47; 97; 98; 47; 99] zero_name) as [(l & H1 & H2) _].
  - apply (bool_decide_unpack _). vm_compute. exact I.
  - reflexivity.
  - exists l. split; [exact H1|]. rewrite H2. reflexivity.
Defined.

(** ** The root of a container *)

(** The process is confined to the directory whose inode is in slot [r]. *)
Definition in_root (r : nat) (p : proc) : Prop := in_newroot p = 1 /\ newroot_inode p = Some r.

Section confined.
Context (me r : nat).
Local Abbreviation I := (runs me (in_root r)).

Lemma keeps_ret {A} (a : A) (Q : A -> kernel -> Prop) k : Q a k -> keeps I (ret a) Q k.
Proof. done. Qed.

Lemma keeps_cur_known {B} (f : nat -> K B) Q k : curproc k = Some me -> keeps I (f me) Q k -> keeps I (bind mycur f) Q k.
Proof. intros E H. unfold keeps, mycur, bind, myproc, gets. cbn [bindO]. rewrite E. exact H. Qed.
Lemma keeps_proc_known {B} j p (f : proc -> K B) Q k : procs k !! j = Some p -> keeps I (f p) Q k -> keeps I (bind (proc_at j) f) Q k.
Proof. intros E H. unfold keeps, proc_at, bind, gets. cbn [bindO]. rewrite E. exact H. Qed.

(** The step of the walk at the root for [..]. *)
Lemma root_step parent path name rest name' (is_dotdot : namecmp name' dotdot = 0) k :
  I k -> skipelem path name = Some (rest, name') ->
  keeps I (namex_step parent (r, path, name))
    (fun res k' => I k' /\ (res = inl (r, rest, name') \/ res = inr (Some r, name') \/ res = inr (None, name'))) k.
Proof.
  intros Hk Es.   unfold namex_step. rewrite Es. apply keeps_pres; [by apply runs_ilock|done|]. intros [] k1 H1.
  apply keeps_pres; [by apply runs_inode_at|done|]. intros ip k2 H2. destruct (negb (i_type ip =? T_DIR)).
  { apply keeps_pres; [by apply runs_iunlockput|done|]. intros [] k3 H3. apply keeps_ret. eauto. }
  destruct H2 as [Hc (p & Hpr & Hr)]. assert (H2 : I k2) by (split; eauto). destruct Hr as [Hr1 Hr2].
  apply keeps_cur_known; [done|]. eapply keeps_proc_known; [exact Hpr|]. cbv zeta.
  rewrite Hr1, Hr2, is_dotdot, (bool_decide_true (Some r = Some r)) by done. change (negb (1 =? 0) && true && (0 =? 0)) with true. cbv iota.
  destruct (parent && bool_decide (rest = [])).
  - apply keeps_pres; [by apply runs_iunlock|done|]. intros [] k3 H3. apply keeps_ret. eauto.
  - unfold idup. apply keeps_bind. apply keeps_pres; [by apply runs_acquire|done|]. intros [] k3 H3.
    apply keeps_pres; [by apply runs_upd_inode|done|]. intros [] k4 H4. apply keeps_pres; [by apply runs_release|done|]. intros [] k5 H5.
    apply keeps_ret. apply keeps_pres; [by apply runs_iunlockput|done|]. intros [] k6 H6. apply keeps_ret. eauto.
Qed.

Lemma dotdot_name name : take DIRSIZ (cstr name) = [46; 46] -> namecmp name dotdot = 0.
Proof. intros H. apply strncmp_l_eq. rewrite H. reflexivity. Qed.

(** The walk from the root along [..] only. *)
Lemma root_walk parent fuel : forall path name k,
  I k -> 0 ∉ path -> length name = DIRSIZ -> Forall (fun e => e = [46; 46]) (elements path) ->
  keeps I (loop fuel (namex_step parent) (r, path, name)) (fun res _ => res.1 = Some r \/ res.1 = None) k.
Proof.
  induction fuel as [|fuel IH]; intros path name k Hk H0 Hl Hd; [exact Hk|]. cbn [loop]. apply keeps_bind.
  pose proof (skipelem_run path name H0 Hl) as Hs. destruct (skipelem path name) as [[rest name']|] eqn:Es.
  - destruct Hs as (e & He & Hn & Hl' & _ & _ & H0' & _). rewrite He in Hd. apply Forall_cons in Hd as [-> Hd].
    eapply keeps_mono; [apply root_step; [by apply dotdot_name|done|exact Es]|].
    intros res k' [Hk' [->|[->| ->]]]; [by apply IH|left; reflexivity|right; reflexivity].
  - unfold namex_step. rewrite Es. destruct parent.
    + apply keeps_pres; [by apply runs_iput|done|]. intros [] k' _. right. reflexivity.
    + left. reflexivity.
Qed.

Lemma iget_cached dev inum k rp :
  icache_ok k -> icache k !! r = Some rp -> holds_inode dev inum rp ->
  iget_slot dev inum (icache k) = Some (r, rp <| i_ref ::= fun n => i32 (n + 1) |>).
Proof.
  intros Hic Hr Hh. unfold iget_slot. destruct (list_find (holds_inode dev inum) (icache k)) as [[x xp]|] eqn:E.
  - apply list_find_Some in E as (Hx & (H1 & H2 & H3) & _). assert (x = r) as ->; [|congruence].
    eapply (ic_uniq _ Hic); [exact Hx|exact Hr|done|]. by rewrite H2, H3.
  - apply list_find_None in E. rewrite Forall_forall in E. by destruct (E rp (list_elem_of_lookup_2 _ _ _ Hr)).
Qed.

(** The walk of a process whose current directory is the root starts there, for
    absolute paths too. *)
Lemma root_start path k p rp :
  curproc k = Some me -> procs k !! me = Some p -> in_root r p -> cwd p = Some r ->
  icache_ok k -> icache k !! r = Some rp -> 0 < i_ref rp -> Licache ∉ held k ->
  keeps I (namex_start path) (fun i k' => i = r /\ I k') k.
Proof.
  intros Hc Hp Hr Hcwd Hic Hrp Href Hh. assert (Hk : I k) by (split; eauto).
  unfold namex_start, myproc. apply keeps_gets. rewrite Hc. apply keeps_bind. eapply keeps_proc_known; [exact Hp|]. apply keeps_ret.
  rewrite (proj1 Hr), Hcwd. change (1 =? 1) with true. cbv zeta. cbn [andb]. destruct (bool_decide (head path = Some SLASH)).
  - change (bind (ofopt (Some r)) ?f) with (fun k => f r k). cbv beta. unfold keeps.
    rewrite (bind_run _ _ _ _ _ (inode_at_run _ _ _ Hrp)), iget_run by (done || apply Hic). rewrite (iget_cached _ _ _ rp) by done.
    split; [done|]. split; [done|]. exists p. by split.
  - change (bind (ofopt (Some r)) ?f) with (fun k => f r k). cbv beta. unfold idup.
    change (keeps I (do! acquire Licache in do! upd_inode r (fun ip => ip <| i_ref ::= fun n => i32 (n + 1) |>) in do! release Licache in ret r) (fun i k' => i = r /\ I k') k).
    apply keeps_pres; [by apply runs_acquire|done|]. intros [] k3 H3.
    apply keeps_pres; [by apply runs_upd_inode|done|]. intros [] k4 H4. apply keeps_pres; [by apply runs_release|done|]. intros [] k5 H5. by apply keeps_ret.
Qed.
End confined.

(** C8: [..] does not lead out of a container.  For a process confined to a root
    directory and standing in it, every path made of [..] only, absolute or not,
    resolves to that directory and never to its parent: [namex] returns the root's
    slot of the inode cache, or fails; so it is for [namei] and for [nameiparent],
    whatever other processes do while the walk sleeps, as long as they leave the
    confinement of this process alone. *)
Theorem container_root_confines me r k p rp path parent name :
  curproc k = Some me -> procs k !! me = Some p -> in_root r p -> cwd p = Some r ->
  icache_ok k -> icache k !! r = Some rp -> 0 < i_ref rp -> Licache ∉ held k ->
  0 ∉ path -> length name = DIRSIZ -> Forall (fun e => e = [46; 46]) (elements path) ->
  keeps (runs me (in_root r)) (namex path parent name) (fun res _ => res.1 = Some r \/ res.1 = None) k.
Proof.
  intros Hc Hp Hr Hcwd Hic Hrp Href Hh H0 Hl Hd. unfold namex. apply keeps_bind.
  eapply keeps_mono; [by eapply root_start|]. intros i k' [-> Hk']. by apply root_walk.
Qed.

(** A confined process standing in its root. *)
Definition demo_root : inode := demo_dir <| i_lock := mk_sleeplock 0 0 |> <| i_ref := 2 |>.
Definition demo_confined : kernel :=
  demo <| procs ::= alter (fun p => p <| in_newroot := 1 |> <| newroot_inode := Some 0%nat |> <| cwd := Some 0%nat |>) 1%nat |>
       <| icache := demo_root :: replicate 49 zero_inode |>.

Lemma container_root_confines_witness :
  keeps (runs 1 (in_root 0)) (namex [47; 46; 46; 47; 46; 46] false zero_name) (fun res _ => res.1 = Some 0%nat \/ res.1 = None) demo_confined /\
  exists n k', namex [47; 46; 46; 47; 46; 46] false zero_name demo_confined = Ret (Some 0%nat, n) k'.
Proof.
  assert (Hcache : forall i ip, icache demo_confined !! i = Some ip -> i = 0%nat /\ ip = demo_root \/ ip = zero_inode).
  { intros [|i] ip H; [left; split; [reflexivity|]; cbn in H; injection H as H; symmetry; exact H|right].
    exact (proj1 (proj1 (lookup_replicate 49 zero_inode ip i) H)). }
  split.
  - eapply (container_root_confines 1 0 demo_confined _ demo_root).
    + reflexivity.
    + reflexivity.
    + split; reflexivity.
    + reflexivity.
    + split; [reflexivity| |].
      * intros i ip [[_ ->]| ->]%Hcache; cbn; lia.
      * intros i j ip jp Hi Hj Hr (Hjr & _). destruct (Hcache _ _ Hi) as [[-> ->]| ->]; [|cbn in Hr; lia].
        destruct (Hcache _ _ Hj) as [[-> _]| ->]; [reflexivity|cbn in Hjr; lia].
    + reflexivity.
    + cbn. lia.
    + apply (bool_decide_unpack _). vm_compute. exact I.
    + apply (bool_decide_unpack _). vm_compute. exact I.
    + reflexivity.
    + apply (bool_decide_unpack _). vm_compute. exact I.
  - eexists _, _. vm_compute. reflexivity.
Defined.
