(* ===== verification/File.v ===== *)
(** * Open files

    [src/file.c] and [pipealloc] of [src/pipe.c].  A [struct file *] is an index
    in [kernel.ftable]. *)

From S2P Require Import Prelude CString Headers Spinlock Ring Sched Mem Kalloc Sleeplock Dll Bio Bcache Bytes Log Pipe Inode Console Fs.

Definition file_at (f : nat) : K file := let! l := gets ftable in ofopt (l !! f).
Definition upd_file (f : nat) (g : file -> file) : K unit :=
  let! fl := file_at f in
  modify (fun k => k <| ftable ::= <[f := g fl]> |>).

Definition fileinit : K unit := initlock Lftable.

Definition filealloc : K (option nat) :=
  do! acquire Lftable in
  let! r := first_of (seq 0 NFILE) (fun f =>
    let! fl := file_at f in
    if f_ref fl =? 0 then
      do! upd_file f (fun fl => fl <| f_ref := 1 |>) in
      do! release Lftable in
      ret (Some f)
    else ret None) in
  match r with
  | Some f => ret (Some f)
  | None => do! release Lftable in ret None
  end.

Definition filedup (f : nat) : K nat :=
  do! acquire Lftable in
  let! fl := file_at f in
  if f_ref fl <? 1 then panic "filedup"
  else
    do! upd_file f (fun fl => fl <| f_ref ::= fun n => i32 (n + 1) |>) in
    do! release Lftable in
    ret f.

Definition fileclose (f : nat) : K unit :=
  do! acquire Lftable in
  let! fl := file_at f in
  if f_ref fl <? 1 then panic "fileclose"
  else
    do! upd_file f (fun fl => fl <| f_ref ::= fun n => n - 1 |>) in
    if 0 <? f_ref fl - 1 then release Lftable
    else
      let! ff := file_at f in
      do! upd_file f (fun fl => fl <| f_ref := 0 |>) in
      do! upd_file f (fun fl => fl <| f_type := FD_NONE |>) in
      do! release Lftable in
      match f_type ff with
      | FD_PIPE => pipeclose (f_pipe ff) (f_writable ff)
      | FD_INODE =>
          do! begin_op in
          let! ip := ofopt (f_ip ff) in
          do! iput ip in
          end_op
      | FD_NONE => ret tt
      end.

(** The new pipe; its [data] array is not initialised (zeros here). *)
Definition new_pipe : pipe := mk_pipe (replicate (Z.to_nat PIPESIZE) 0) 0 0 1 1.

(** The two ends, or [None] for the result -1. *)
Definition pipealloc : K (option (nat * nat)) :=
  let! f0 := filealloc in
  match f0 with
  | None => ret None
  | Some a =>
      let! f1 := filealloc in
      match f1 with
      | None => do! fileclose a in ret None
      | Some b =>
          let! p := kalloc in
          if p =? 0 then
            do! fileclose a in
            do! fileclose b in
            ret None
          else
            do! modify (fun k => k <| pipes ::= <[p := new_pipe]> |>) in
            do! initlock (Lpipe p) in
            do! upd_file a (fun f => f <| f_type := FD_PIPE |> <| f_readable := 1 |> <| f_writable := 0 |> <| f_pipe := p |>) in
            do! upd_file b (fun f => f <| f_type := FD_PIPE |> <| f_readable := 0 |> <| f_writable := 1 |> <| f_pipe := p |>) in
            ret (Some (a, b))
      end
  end.

Definition filestat (f : nat) (st : Z) : K Z :=
  let! fl := file_at f in
  match f_type fl with
  | FD_INODE =>
      do! ilock (f_ip fl) in
      let! i := ofopt (f_ip fl) in
      do! stati i st in
      do! iunlock (f_ip fl) in
      ret 0
  | _ => ret (-1)
  end.

Definition fileread (f : nat) (addr n : Z) : K Z :=
  let! fl := file_at f in
  if f_readable fl =? 0 then ret (-1)
  else
    match f_type fl with
    | FD_PIPE => piperead (f_pipe fl) addr n
    | FD_INODE =>
        do! ilock (f_ip fl) in
        let! i := ofopt (f_ip fl) in
        let! fl' := file_at f in
        let! r := readi (put_user addr) i tt (f_off fl') (u32 n) in
        do! when (0 <? r.1) (upd_file f (fun fl => fl <| f_off ::= fun o => u32 (o + r.1) |>)) in
        do! iunlock (f_ip fl) in
        ret r.1
    | FD_NONE => panic "fileread"
    end.

Definition filewrite_max : Z := ((LOGSIZE - 1 - 1 - 2) / 2) * 512.

(** One transaction of [filewrite]: [inl] the new [i], [inr] the last [i]. *)
Definition filewrite_chunk (f : nat) (addr n i : Z) : K (Z + Z) :=
  if i <? n then
    let n1 := Z.min (n - i) filewrite_max in
    do! begin_op in
    let! fl := file_at f in
    do! ilock (f_ip fl) in
    let! ip := ofopt (f_ip fl) in
    let! fl := file_at f in
    let! r := writei (get_user (addr + i)) ip (f_off fl) n1 in
    do! when (0 <? r) (upd_file f (fun fl => fl <| f_off ::= fun o => u32 (o + r) |>)) in
    do! iunlock (f_ip fl) in
    do! end_op in
    if r <? 0 then ret (inr i)
    else if negb (r =? n1) then panic "short filewrite"
    else ret (inl (i + r))
  else ret (inr i).

(** Every chunk but the last has [filewrite_max] bytes. *)
Definition filewrite (f : nat) (addr n : Z) : K Z :=
  let! fl := file_at f in
  if f_writable fl =? 0 then ret (-1)
  else
    match f_type fl with
    | FD_PIPE => pipewrite (f_pipe fl) addr n
    | FD_INODE =>
        let! i := loop (Z.to_nat (n / filewrite_max + 2)) (filewrite_chunk f addr n) 0 in
        ret (if i =? n then n else -1)
    | FD_NONE => panic "filewrite"
    end.
