(* ===== verification/Shm.v ===== *)
(** * Shared memory

    [shm_get] and [shm_rem] of [src/vm.c].  The table [shared_memory] is
    [kernel.shm_mems] with the counter [kernel.shm_num]; a process keeps its
    mappings in [pshm].  A region's name is given by a pointer, to user memory or
    to a name in the process's own table: [get o m] reads [m] bytes at offset [o]
    of it, and a null pointer is [None]. *)

From S2P Require Import Prelude CString Headers Spinlock Ring Sched Mem Kalloc Mutex Sleeplock Vm.

(** [strncmp(name, q, n)] with [name] behind a pointer and [q] an array; [o]
    characters have been compared. *)
Fixpoint strncmp_at (get : Z -> nat -> K (list Z)) (o : Z) (q : list Z) (n : nat) : K Z :=
  match n with
  | O => ret 0
  | S n' =>
      let! l := get o 1%nat in
      let a := default 0 (head l) in
      let b := default 0 (head q) in
      if negb (a =? 0) && (a =? b) then strncmp_at get (o + 1) (tail q) n'
      else ret (a - b)
  end.

Definition shm_at (i : nat) : K shm_block := let! l := gets shm_mems in ofopt (l !! i).
Definition upd_shm (i : nat) (f : shm_block -> shm_block) : K unit :=
  let! b := shm_at i in
  modify (fun k => k <| shm_mems ::= <[i := f b]> |>).

(** The first loop of [shm_get]: the physical address of the region with this
    name, whose count is raised; 0 when there is none. *)
Definition shm_attach (name : Z -> nat -> K (list Z)) : K Z :=
  let! r := first_of (seq 0 SHM_MAXNUM) (fun i =>
    let! b := shm_at i in
    if 0 <? sb_ref b then
      let! c := strncmp_at name 0 (sb_name b) SHM_NAME_LEN in
      if c =? 0 then
        do! upd_shm i (fun b => b <| sb_ref ::= fun n => i32 (n + 1) |>) in
        ret (Some (sb_pa b))
      else ret None
    else ret None) in
  ret (default 0 r).

(** The loop that records a new region; [lit] is the address of the string
    literal ["shm_mutex"]. *)
Definition shm_record (name : Z -> nat -> K (list Z)) (mem lit : Z) : K unit :=
  let! _ := first_of (seq 0 SHM_MAXNUM) (fun i =>
    let! b := shm_at i in
    if sb_ref b =? 0 then
      let! nm := name 0 16%nat in
      do! upd_shm i (fun b => b <| sb_name := nm |>) in
      do! upd_shm i (fun b => b <| sb_ref := 1 |>) in
      do! upd_shm i (fun b => b <| sb_pa := mem |>) in
      let! id := mutex_create lit in
      do! (if id =? -1 then cputs "NO MUTEX ID"
           else upd_shm i (fun b => b <| shm_mutex_index := id |>)) in
      ret (Some tt)
    else ret None) in
  ret tt.

(** The branch for a new region: [inl] the physical address of its page, [inr]
    what [shm_get] returns early. *)
Definition shm_create (name : Z -> nat -> K (list Z)) (lit : Z) : K (Z + Z) :=
  let! num := gets shm_num in
  if Z.of_nat SHM_MAXNUM <=? num + 1 then
    do! cputs "MAX SHARED MEM" in
    ret (inr 0)
  else
    let! v := kalloc in
    let mem := V2P v in
    if mem =? 0 then
      do! cputs "MAX MEM" in
      ret (inr 0)
    else
      do! memset_page (P2V mem) 0 in
      do! mutex_init in
      do! shm_record name mem lit in
      do! modify (fun k => k <| shm_num ::= fun n => i32 (n + 1) |>) in
      ret (inl mem).

(** The last loop of [shm_get]: the mapping is entered in the process's table. *)
Definition shm_enter (me : nat) (name : Z -> nat -> K (list Z)) (va : Z) : K unit :=
  let! _ := first_of (seq 0 SHM_MAXNUM) (fun i =>
    let! p := proc_at me in
    let! m := ofopt (pshm p !! i) in
    if sm_va m =? 0 then
      do! upd_proc me (fun p => p <| pshm ::= alter (fun m => m <| sm_va := va |>) i |>) in
      let! nm := name 0 16%nat in
      do! upd_proc me (fun p => p <| pshm ::= alter (fun m => m <| sm_name := nm |>) i |>) in
      ret (Some tt)
    else ret None) in
  ret tt.

Definition shm_get (name : option (Z -> nat -> K (list Z))) (lit : Z) : K Z :=
  match name with
  | None => ret (-1)
  | Some name =>
      let! me := mycur in
      let! p := proc_at me in
      let sz0 := sz p in
      let a := PGROUNDUP sz0 in
      let newsz := u32 (sz0 + PGSIZE) in
      if KERNBASE <=? newsz then ret (-1)
      else
        let! mem := shm_attach name in
        let! r := (if mem =? 0 then shm_create name lit else ret (inl mem)) in
        match r with
        | inr v => ret v
        | inl mem =>
            let! r := mappages (pgdir p) a PGSIZE mem (Z.lor PTE_W PTE_U) in
            if r <? 0 then
              do! cputs "allocuvm out of memory (2)" in
              do! kfree (P2V mem) in
              ret 0
            else if negb (newsz =? 0) then
              do! upd_proc me (fun p => p <| sz := newsz |>) in
              do! switchuvm me in
              do! shm_enter me name sz0 in
              ret (i32 a)
            else ret (-1)
        end
  end.

(** The last loop of [shm_rem]: [Some v] is an early return. *)
Definition shm_unref (name : Z -> nat -> K (list Z)) : K (option Z) :=
  let! r := first_of (seq 0 SHM_MAXNUM) (fun i =>
    let! b := shm_at i in
    let! hit := (if 0 <? sb_ref b then
                   let! c := strncmp_at name 0 (sb_name b) SHM_NAME_LEN in ret (c =? 0)
                 else ret false) in
    if hit : bool then
      do! upd_shm i (fun b => b <| sb_ref ::= fun n => n - 1 |>) in
      let! b := shm_at i in
      if sb_ref b =? 0 then
        do! kfree (P2V (sb_pa b)) in
        do! upd_shm i (fun b => b <| sb_pa := 0 |>) in
        do! upd_shm i (fun b => b <| sb_name := replicate SHM_NAME_LEN 0 |>) in
        let! c := mutex_delete (shm_mutex_index b) in
        if negb (c =? 1) then
          do! cputs "Failed to delete mutex" in
          ret (Some (Some (-1)))
        else
          do! modify (fun k => k <| shm_num ::= fun n => i32 (n - 1) |>) in
          ret (Some None)
      else ret (Some None)
    else ret None) in
  ret (default None r).

(** [memset(curproc->shm[i].name, sizeof(char) * 16, 0)] sets no byte: its third
    argument, the count, is 0. *)
Definition shm_rem (name : option (Z -> nat -> K (list Z))) : K Z :=
  match name with
  | None => ret (-1)
  | Some name =>
      let! me := mycur in
      let! found := first_of (seq 0 SHM_MAXNUM) (fun i =>
        let! p := proc_at me in
        let! m := ofopt (pshm p !! i) in
        let! c := strncmp_at name 0 (sm_name m) SHM_NAME_LEN in
        ret (if c =? 0 then Some (i, sm_va m) else None)) in
      match found with
      | None => do! cputs "Name not found" in ret (-1)
      | Some (i, va) =>
          let! p := proc_at me in
          let! pte := walkpgdir (pgdir p) va 0 in
          let! e := (if pte =? 0 then ret 0 else kread pte) in
          do! (if negb (e =? 0) then kwrite pte 0 else cputs "PTE not found") in
          do! upd_proc me (fun p => p <| pshm ::= alter (fun m => m <| sm_va := 0 |>) i |>) in
          do! upd_proc me (fun p => p <| sz ::= fun s => u32 (s - PGSIZE) |>) in
          let! r := shm_unref name in
          ret (default 0 r)
      end
  end.
