(* ===== verification/Share.v ===== *)
(** * Sharing memory

    What [shm_get] ([src/vm.c]) does for a process that asks for an existing region
    by its name, which it passes as a pointer into its own memory. *)

From S2P Require Import Prelude CString Headers Spinlock Ring Sched Mem Kalloc Mutex Sleeplock Bytes Vm Console Fs Shm.

(** ** Names in user memory *)

(** The bytes that can be read at [q] in [k] are the same in [k']. *)
Definition same_user (q : Z) (n : nat) (k k' : kernel) : Prop :=
  forall j x, (j < n)%nat -> vload8 (q + Z.of_nat j) k = Ret x k -> vload8 (q + Z.of_nat j) k' = Ret x k'.

Lemma vload8_inv a k x k' : vload8 a k = Ret x k' -> k' = k.
Proof. unfold vload8. rewrite bind_gets. destruct (translate _ _ _) as [[]|]; unfold ret, fault; congruence. Qed.

Lemma vload_bytes n : forall q l k, vload q n k = Ret l k ->
  length l = n /\ forall j, (j < n)%nat -> vload8 (q + Z.of_nat j) k = Ret (byte l j) k.
Proof.
  induction n as [|n IH]; intros q l k E; cbn [vload] in E; [injection E as <-; split; [done|intros j Hj; lia]|].
  unfold bind at 1 in E. destruct (vload8 q k) as [b k1| | | |] eqn:Eb; try done. cbn in E. pose proof (vload8_inv _ _ _ _ Eb) as ->.
  unfold bind in E. destruct (vload (q + 1) n k) as [l' k2| | | |] eqn:El; try done. cbn in E. injection E as <- ->.
  destruct (IH _ _ _ El) as [Hl Hb]. split; [cbn; by rewrite Hl|]. intros [|j] Hj; [by rewrite Z.add_0_r|].
  replace (q + Z.of_nat (S j)) with (q + 1 + Z.of_nat j) by lia. apply Hb. lia.
Qed.

Lemma vload_of_bytes n : forall q l k, length l = n -> (forall j, (j < n)%nat -> vload8 (q + Z.of_nat j) k = Ret (byte l j) k) -> vload q n k = Ret l k.
Proof.
  induction n as [|n IH]; intros q [|b l] k Hl Hb; try done. cbn [vload]. pose proof (Hb 0%nat ltac:(lia)) as H0. rewrite Z.add_0_r in H0.
  erewrite bind_run; [|exact H0]. erewrite bind_run; [|apply (IH _ l); [cbn in Hl; lia|]]; [done|].
  intros j Hj. replace (q + 1 + Z.of_nat j) with (q + Z.of_nat (S j)) by lia. apply (Hb (S j)). lia.
Qed.

Lemma vload_same q n k k' l : vload q n k = Ret l k -> same_user q n k k' -> vload q n k' = Ret l k'.
Proof. intros E Hs. destruct (vload_bytes n q l k E) as [Hl Hb]. apply vload_of_bytes; [done|]. intros j Hj. by apply Hs, Hb. Qed.

(** [strncmp] with a name in user memory. *)
Lemma strncmp_at_run q nm k n : forall o s, vload q (o + n) k = Ret nm k ->
  strncmp_at (get_user q) (Z.of_nat o) s n k = Ret (strncmp_l (drop o nm) s n) k.
Proof.
  induction n as [|n IH]; intros o s E; [done|]. cbn [strncmp_at strncmp_l]. destruct (vload_bytes _ _ _ _ E) as [Hl Hb].
  assert (Ho : nm !! o = Some (byte nm o)).
  { unfold byte. destruct (lookup_lt_is_Some_2 nm o) as [x ->]; [lia|done]. }
  rewrite (drop_S _ _ _ Ho). cbn [head tail default]. erewrite bind_run.
  2: { unfold get_user. cbn [vload]. erewrite bind_run; [|apply Hb; lia]. reflexivity. }
  cbn [head default]. change (from_option id 0 (Some (byte nm o))) with (byte nm o).
  match goal with |- (if ?b then _ else _) _ = _ => destruct b end; [|done].
  replace (Z.of_nat o + 1) with (Z.of_nat (S o)) by lia. apply IH. by replace (S o + n)%nat with (o + S n)%nat by lia.
Qed.

(** ** The table of regions *)

Definition region (nm : list Z) (b : shm_block) : Prop := 0 < sb_ref b /\ strncmp_l nm (sb_name b) SHM_NAME_LEN = 0.
#[export] Instance region_dec nm b : Decision (region nm b).
Proof. unfold region. apply _. Defined.

Lemma shm_at_run i b k : shm_mems k !! i = Some b -> shm_at i k = Ret b k.
Proof. intros E. unfold shm_at. rewrite bind_gets. by rewrite E. Qed.

Lemma shm_attach_run q nm k i b :
  vload q SHM_NAME_LEN k = Ret nm k -> length (shm_mems k) = SHM_MAXNUM -> list_find (region nm) (shm_mems k) = Some (i, b) ->
  shm_attach (get_user q) k = Ret (sb_pa b) (k <| shm_mems ::= <[i := b <| sb_ref ::= fun n => i32 (n + 1) |>]> |>).
Proof.
  intros Hq Hlen Hf. unfold shm_attach.
  set (body := fun i => let! b := shm_at i in _).
  assert (Hcmp : forall s, strncmp_at (get_user q) 0 s SHM_NAME_LEN k = Ret (strncmp_l nm s SHM_NAME_LEN) k) by (intros s; by apply (strncmp_at_run q nm k SHM_NAME_LEN 0 s)).
  assert (Hbody : forall j c, shm_mems k !! j = Some c -> body j k =
    if decide (region nm c) then Ret (Some (sb_pa c)) (k <| shm_mems ::= <[j := c <| sb_ref ::= fun n => i32 (n + 1) |>]> |>) else Ret None k).
  { intros j c Hj. unfold body. rewrite (bind_run _ _ _ _ _ (shm_at_run _ _ _ Hj)). unfold region. destruct (Z.ltb_spec 0 (sb_ref c)).
    - rewrite (bind_run _ _ _ _ _ (Hcmp _)). destruct (Z.eqb_spec (strncmp_l nm (sb_name c) SHM_NAME_LEN) 0).
      + rewrite decide_True by done. erewrite bind_run; [reflexivity|]. unfold upd_shm. by rewrite (bind_run _ _ _ _ _ (shm_at_run _ _ _ Hj)).
      + by rewrite decide_False by tauto.
    - by rewrite decide_False by lia. }
  pose proof (first_of_scan (region nm) (shm_mems k) body k) as Hs. rewrite Hf, Hlen in Hs.
  apply list_find_Some in Hf as (Hi & Hr & _). erewrite bind_run with (a := Some (sb_pa b)); [reflexivity|].
  apply Hs; [intros j c Hj Hn; by rewrite (Hbody j c), decide_False|by rewrite (Hbody i b), decide_True].
Qed.

(** ** Attaching to a region *)

Lemma shm_enter_run me q nm k p j m va :
  procs k !! me = Some p -> length (pshm p) = SHM_MAXNUM -> list_find (fun m => sm_va m = 0) (pshm p) = Some (j, m) ->
  (forall k', pmem k' = pmem k -> cr3 k' = cr3 k -> vload q 16 k' = Ret nm k') ->
  shm_enter me (get_user q) va k =
    Ret tt (k <| procs ::= <[me := p <| pshm ::= <[j := m <| sm_va := va |> <| sm_name := nm |>]> |>]> |>).
Proof.
  intros Hp Hlen Hf Hq. unfold shm_enter. set (body := fun i => let! p := proc_at me in _).
  assert (Hno : forall i x, pshm p !! i = Some x -> sm_va x <> 0 -> body i k = Ret None k).
  { intros i x Hi Hx. unfold body. rewrite (bind_run _ _ _ _ _ (proc_at_run _ _ _ Hp)), Hi.
    change (bind (ofopt (Some x)) ?f k) with (f x k). cbv beta. by rewrite (proj2 (Z.eqb_neq _ _) Hx). }
  pose proof (first_of_scan (fun m => sm_va m = 0) (pshm p) body k Hno) as Hs. rewrite Hf, Hlen in Hs.
  apply list_find_Some in Hf as (Hj & Hm & _). pose proof (lookup_lt_Some _ _ _ Hp) as Hme. erewrite bind_run; [reflexivity|]. apply Hs.
  unfold body. rewrite (bind_run _ _ _ _ _ (proc_at_run _ _ _ Hp)), Hj. change (bind (ofopt (Some m)) ?f k) with (f m k). cbv beta. rewrite Hm.
  change (0 =? 0) with true. cbv iota. erewrite bind_run; [|by apply upd_proc_run]. unfold get_user. rewrite Z.add_0_r.
  erewrite bind_run; [|by apply Hq]. erewrite bind_run; [|apply upd_proc_run; cbn; by apply list_lookup_insert_eq].
  assert (E : alter (fun m => m <| sm_name := nm |>) j (alter (fun m => m <| sm_va := va |>) j (pshm p)) =
    <[j := m <| sm_va := va |> <| sm_name := nm |>]> (pshm p)).
  { apply list_eq. intros x. destruct (decide (x = j)) as [->|Hne].
    - rewrite !list_lookup_alter_eq, Hj. symmetry. apply list_lookup_insert_eq. by eapply lookup_lt_Some.
    - by rewrite !list_lookup_alter_ne, list_lookup_insert_ne by done. }
  unfold ret. f_equal. kernel_eq. rewrite list_insert_insert_eq. f_equal.
  transitivity (p <| pshm := alter (fun m => m <| sm_name := nm |>) j (alter (fun m => m <| sm_va := va |>) j (pshm p)) |>); [reflexivity|].
  by rewrite E.
Qed.

(** The running process [me], its page directory with page tables [tabs], and the
    free pages [l]. *)
Record user_space (k : kernel) (me : nat) (p : proc) (tabs : gmap Z Z) (l : list Z) : Prop := {
  us_cur : curproc k = Some me;
  us_proc : procs k !! me = Some p;
  us_pt : pt_ok k (pgdir p) tabs;
  us_free : free_pages k l;
  us_apart : pt_apart (pgdir p) tabs l;
  us_lock : Lkmem ∉ held k;
  us_cr3 : cr3 k = V2P (pgdir p);
  us_kstack : kstack p <> 0 }.

(** The address is mapped to memory that is neither free nor a page table. *)
Definition owned (k : kernel) (p : proc) (tabs : gmap Z Z) (l : list Z) (va : Z) : Prop :=
  forall pa fl, translate (pmem k) (cr3 k) va = Some (pa, fl) ->
  forall pg, pt_page (pgdir p) tabs pg \/ pg ∈ l -> ~ in_page pg (aligned pa).

(** Mapping a page above it leaves such memory as it was. *)
Lemma grows_user k k' p tabs l tabs' l' me q n a pa perm :
  user_space k me p tabs l -> grows (pgdir p) k tabs l k' tabs' l' -> cr3 k' = cr3 k ->
  (forall x, 0 <= x < 2 ^ 32 -> translate (pmem k') (cr3 k) x = if decide (a <= x < a + PGSIZE) then Some (pa + (x - a), perm) else translate (pmem k) (cr3 k) x) ->
  0 <= q -> q + Z.of_nat n <= a -> a < 2 ^ 32 -> (forall j, (j < n)%nat -> owned k p tabs l (q + Z.of_nat j)) ->
  same_user q n k k'.
Proof.
  intros Hu Hg Ecr Htr Hq Hqa Ha Hown j x Hj. unfold vload8. rewrite !bind_gets. unfold id. rewrite Ecr, u32_small by lia.
  rewrite Htr, decide_False by lia. destruct (translate (pmem k) (cr3 k) (q + Z.of_nat j)) as [[pa' fl]|] eqn:Et; [|done].
  unfold ret. intros E. injection E as <-. f_equal. unfold pload8. f_equal. unfold word. f_equal.
  apply (gr_mem _ _ _ _ _ _ _ Hg). intros pg Hpg. apply (Hown j Hj _ _ Et), (gr_pages _ _ _ _ _ _ _ Hg), Hpg.
Qed.

Lemma pt_ok_same k k' d tabs : pt_ok k d tabs -> kernel_end k' = kernel_end k -> pmem k' = pmem k ->
  pt_ok k' d tabs /\ forall va, pte_at k' tabs va = pte_at k tabs va.
Proof. intros H E1 E2. apply (pt_ok_ext k k'); [done|done|]. intros. by rewrite E2. Qed.

Lemma same_user_mem q n k k' : pmem k' = pmem k -> cr3 k' = cr3 k -> same_user q n k k'.
Proof.
  intros E1 E2 j x _. unfold vload8. rewrite !bind_gets. unfold id. rewrite E1, E2.
  destruct (translate _ _ _) as [[]|]; unfold ret; [congruence|done].
Qed.

(** Mapping the region's page above the process. *)
Lemma attach_map k me p tabs l q nm pa :
  user_space k me p tabs l -> (1024 <= length l + size tabs)%nat -> 0 <= sz p -> sz p + PGSIZE < KERNBASE ->
  (forall x, PGROUNDUP (sz p) <= x < PGROUNDUP (sz p) + PGSIZE -> translate (pmem k) (cr3 k) x = None) ->
  vload q SHM_NAME_LEN k = Ret nm k -> 0 <= q -> q + Z.of_nat SHM_NAME_LEN <= sz p ->
  (forall x, q <= x < q + Z.of_nat SHM_NAME_LEN -> owned k p tabs l x) ->
  0 < pa -> pa mod PGSIZE = 0 -> pa + PGSIZE <= 2 ^ 32 ->
  let a := PGROUNDUP (sz p) in
  exists k2, mappages (pgdir p) a PGSIZE pa (Z.lor PTE_W PTE_U) k = Ret 0 k2 /\ vm_frame k k2 /\
    (forall x, 0 <= x < 2 ^ 32 -> translate (pmem k2) (cr3 k) x =
      if decide (a <= x < a + PGSIZE) then Some (pa + (x - a), Z.lor PTE_P (Z.lor PTE_W PTE_U)) else translate (pmem k) (cr3 k) x) /\
    vload q SHM_NAME_LEN k2 = Ret nm k2.
Proof.
  intros Hu Hroom Hsz Hlim Hnone Hnm Hq0 Hq Hown Hpa Hpal Hpalim a. pose proof Hu as [U1 U2 U3 U4 U5 U6 U7 U8].
  destruct (PGROUNDUP_spec (sz p)) as [Hal Har]; [unfold KERNBASE, PGSIZE in *; lia|]. fold a in Hal, Har, Hnone.
  destruct (mappages_run (pgdir p) a PGSIZE pa (Z.lor PTE_W PTE_U) k tabs l U3 U4 U5 U6) as (c & r & k2 & tabs' & l' & Hr & Hg & Hc & Hp);
    try (unfold KERNBASE, PGSIZE in *; lia); try done.
  { intros x Hx. specialize (Hnone x Hx). rewrite U7, (translate_pte k (pgdir p) tabs) in Hnone by done.
    destruct (Z.eqb_spec (Z.land (pte_at k tabs x) PTE_P) 0); [done|done]. }
  destruct Hc as [[Hc ->]|(_ & -> & -> & Hs)]; [|pose proof (gr_size _ _ _ _ _ _ _ Hg) as E; cbn in E; lia].
  assert (Htr : forall x, 0 <= x < 2 ^ 32 -> translate (pmem k2) (cr3 k) x =
      if decide (a <= x < a + PGSIZE) then Some (pa + (x - a), Z.lor PTE_P (Z.lor PTE_W PTE_U)) else translate (pmem k) (cr3 k) x).
  { intros x Hx. rewrite U7. change (Z.lor PTE_P (Z.lor PTE_W PTE_U)) with (granted (Z.lor PTE_W PTE_U)).
    apply (translate_mapped k k2 (pgdir p) tabs tabs' a pa (Z.lor PTE_W PTE_U) PGSIZE c x); try done; [apply Hg|lia|auto]. }
  exists k2. split_and!; [exact Hr|apply Hg|exact Htr|].
  apply (vload_same q SHM_NAME_LEN k k2); [exact Hnm|].
  apply (grows_user k k2 p tabs l tabs' l' me q SHM_NAME_LEN a pa (Z.lor PTE_P (Z.lor PTE_W PTE_U)) Hu Hg); [by rewrite (gr_frame _ _ _ _ _ _ _ Hg)|exact Htr|lia|lia|unfold KERNBASE, PGSIZE in *; lia|].
  intros x Hx. apply Hown. lia.
Qed.

Lemma switchuvm_run i p k : procs k !! i = Some p -> kstack p <> 0 -> pgdir p <> 0 ->
  switchuvm i k = Ret tt (k <| esp0 := u32 (kstack p + KSTACKSIZE) |> <| cr3 := V2P (pgdir p) |>).
Proof.
  intros Hp H1 H2. unfold switchuvm. rewrite (bind_run _ _ _ _ _ (proc_at_run _ _ _ Hp)).
  by rewrite (proj2 (Z.eqb_neq _ _) H1), (proj2 (Z.eqb_neq _ _) H2).
Qed.

(** C28: processes that ask for a region by the same name share its page.  A process
    that calls [shm_get] with the name of an existing region gets that region's
    physical page mapped, writable, at the page boundary above its size; every
    other address is translated as before; the region's count goes up by one, the
    process grows by a page, and the mapping is entered in the first free slot of its
    table. *)
Theorem shm_get_attaches k me p tabs l q nm lit i b j m :
  user_space k me p tabs l -> (1024 <= length l + size tabs)%nat ->
  0 <= sz p -> sz p + PGSIZE < KERNBASE ->
  (forall x, PGROUNDUP (sz p) <= x < PGROUNDUP (sz p) + PGSIZE -> translate (pmem k) (cr3 k) x = None) ->
  vload q SHM_NAME_LEN k = Ret nm k -> 0 <= q -> q + Z.of_nat SHM_NAME_LEN <= sz p ->
  (forall x, q <= x < q + Z.of_nat SHM_NAME_LEN -> owned k p tabs l x) ->
  length (shm_mems k) = SHM_MAXNUM -> list_find (region nm) (shm_mems k) = Some (i, b) -> sb_ref b < 2 ^ 31 - 1 ->
  0 < sb_pa b -> sb_pa b mod PGSIZE = 0 -> sb_pa b + PGSIZE <= 2 ^ 32 ->
  length (pshm p) = SHM_MAXNUM -> list_find (fun m => sm_va m = 0) (pshm p) = Some (j, m) ->
  let a := PGROUNDUP (sz p) in
  exists k', shm_get (Some (get_user q)) lit k = Ret a k' /\
    (forall x, 0 <= x < 2 ^ 32 -> translate (pmem k') (cr3 k') x =
      if decide (a <= x < a + PGSIZE) then Some (sb_pa b + (x - a), Z.lor PTE_P (Z.lor PTE_W PTE_U)) else translate (pmem k) (cr3 k) x) /\
    shm_mems k' = <[i := b <| sb_ref := sb_ref b + 1 |>]> (shm_mems k) /\
    procs k' = <[me := p <| sz := sz p + PGSIZE |> <| pshm ::= <[j := m <| sm_va := sz p |> <| sm_name := nm |>]> |>]> (procs k).
Proof.
  intros Hu Hroom Hsz Hlim Hnone Hnm Hq0 Hq Hown Hlen Hfind Href Hpa Hpal Hpalim Hplen Hslot a.
  destruct (PGROUNDUP_spec (sz p)) as [_ Har]; [unfold KERNBASE, PGSIZE in *; lia|]. fold a in Har.
  pose proof (shm_attach_run q nm k i b Hnm Hlen Hfind) as Hatt. set (k1 := k <| shm_mems ::= _ |>) in Hatt.
  destruct Hu as [U1 U2 U3 U4 U5 U6 U7 U8].
  assert (Hu1 : user_space k1 me p tabs l) by (split; try done; [by apply (pt_ok_same k k1)|by apply (free_pages_ext k k1)]).
  destruct (attach_map k1 me p tabs l q nm (sb_pa b) Hu1) as (k2 & Hr & Hfr & Htr & Hnm2); try done.
  { apply (vload_same q SHM_NAME_LEN k k1); [done|by apply same_user_mem]. }
  fold a in Hr, Htr. unfold vm_frame in Hfr.
  assert (Hme : procs k2 !! me = Some p) by (by rewrite Hfr).
  set (p3 := p <| sz := sz p + PGSIZE |>). set (k3 := k2 <| procs ::= <[me := p3]> |>).
  set (k4 := k3 <| esp0 := u32 (kstack p + KSTACKSIZE) |> <| cr3 := V2P (pgdir p) |>).
  assert (Hp4 : procs k4 !! me = Some p3) by (cbn; apply list_lookup_insert_eq; by eapply lookup_lt_Some).
  assert (Hcr : cr3 k2 = V2P (pgdir p)) by (by rewrite Hfr).
  pose proof (shm_enter_run me q nm k4 p3 j m (sz p) Hp4 Hplen Hslot) as Hent.
  assert (Hnewsz : u32 (sz p + PGSIZE) = sz p + PGSIZE) by (apply u32_small; unfold KERNBASE, PGSIZE in *; lia).
  eexists. split_and!.
  - unfold shm_get. run (mycur_run _ _ U1). run (proc_at_run _ _ _ U2). fold a. rewrite Hnewsz. cbv zeta.
    rewrite (proj2 (Z.leb_gt _ _)) by lia. run Hatt. rewrite (proj2 (Z.eqb_neq (sb_pa b) 0)) by lia.
    erewrite bind_run with (a := inl (sb_pa b)) (s' := k1); [|reflexivity]. run Hr. change (0 <? 0) with false. cbv iota.
    rewrite (proj2 (Z.eqb_neq (sz p + PGSIZE) 0)) by (unfold PGSIZE; lia). cbn [negb].
    erewrite bind_run; [|by apply upd_proc_run]. fold p3 k3.
    erewrite bind_run; [|apply (switchuvm_run me p3); [cbn; apply list_lookup_insert_eq; by eapply lookup_lt_Some|exact U8|]].
    + fold k4. erewrite bind_run; [|apply Hent; intros k' E1 E2; apply (vload_same q SHM_NAME_LEN k2 k'); [done|]; apply same_user_mem; [done|by rewrite E2, Hcr]].
      unfold ret. rewrite i32_small by (unfold KERNBASE, PGSIZE in *; lia). reflexivity.
    + change (pgdir p3) with (pgdir p). destruct (po_dir _ _ _ U3) as (_ & _ & ? & _). unfold KERNBASE in *. lia.
  - intros x Hx. cbn. rewrite <- U7. by apply Htr.
  - cbn. rewrite Hfr. cbn. f_equal. transitivity (b <| sb_ref := i32 (sb_ref b + 1) |>); [reflexivity|].
    apply list_find_Some in Hfind as (_ & [? _] & _). by rewrite i32_small by lia.
  - cbn. rewrite list_insert_insert_eq, Hfr. done.
Qed.

(** A process of one page, with its name table empty, and the region it asks for. *)
Definition demo_shm_proc (pgdir0 : Z) : proc := zero_proc <| sz := PGSIZE |> <| pgdir := pgdir0 |> <| kstack := 0x80500000 |>.

Lemma shm_get_attaches_witness : exists k k' a, shm_get (Some (get_user 0)) 0 k = Ret a k' /\
  translate (pmem k') (cr3 k') (a + 5) = Some (0x700005, 7).
Proof.
  destruct demo_parent as (k0 & d & tabs & l & Hpar & Hl & (m & Hm & Hmpt & Hml & Hlow) & Hhigh).
  destruct (V2P_range k0 m Hm) as (Hmr & Hmm & _). destruct (tab_entry k0 m Hm) as (Ea & _ & Ep).
  assert (Htr : forall x, 0 <= x < PGSIZE -> translate (pmem k0) (V2P d) x = Some (V2P m + x mod PGSIZE, 7)).
  { intros x Hx. rewrite (translate_pte k0 d tabs x (pa_pt _ _ _ _ _ Hpar)), (Hlow x Hx), Ep, Ea. change (1 =? 0) with false. cbv iota.
    destruct (tab_entry k0 m Hm) as (_ & -> & _). reflexivity. }
  set (nm := (fun j => pload8 (pmem k0) (V2P m + Z.of_nat j mod PGSIZE)) <$> seq 0 16).
  set (k := k0 <| procs := [demo_shm_proc d] |> <| curproc := Some 0%nat |> <| cr3 := V2P d |>
               <| shm_mems := mk_shm_block nm 0x700000 1 0 :: replicate 15 zero_shm_block |>).
  destruct (pt_ok_same k0 k d tabs (pa_pt _ _ _ _ _ Hpar) eq_refl eq_refl) as [Hpt Hpte].
  assert (Hu : user_space k 0 (demo_shm_proc d) tabs l).
  { split; [reflexivity|reflexivity|exact Hpt| |exact (pa_apart _ _ _ _ _ Hpar)|exact (pa_held _ _ _ _ _ Hpar)|reflexivity|discriminate].
    apply (free_pages_ext k0 k); [exact (pa_free _ _ _ _ _ Hpar)|reflexivity|reflexivity|reflexivity]. }
  destruct (shm_get_attaches k 0 (demo_shm_proc d) tabs l 0 nm 0 0 (mk_shm_block nm 0x700000 1 0) 0 zero_mapping Hu)
    as (k' & Hr & Ht & _).
  - lia.
  - cbn. unfold PGSIZE. lia.
  - cbn. unfold PGSIZE, KERNBASE. lia.
  - change (PGROUNDUP (sz (demo_shm_proc d))) with 4096. intros x Hx. change (cr3 k) with (V2P d).
    rewrite (translate_pte k d tabs x Hpt), Hpte, Hhigh by (unfold PGSIZE, KERNBASE in *; lia). reflexivity.
  - apply vload_of_bytes; [reflexivity|]. intros j Hj. assert (Hj' : 0 <= Z.of_nat j < 4096) by (clear -Hj; unfold SHM_NAME_LEN in Hj; lia).
    unfold vload8. rewrite bind_gets. unfold id. rewrite Z.add_0_l, u32_small by lia.
    change (pmem k) with (pmem k0). change (cr3 k) with (V2P d). rewrite Htr by exact Hj'. unfold ret. f_equal. unfold byte, nm.
    rewrite list_lookup_fmap, lookup_seq_lt by exact Hj. reflexivity.
  - lia.
  - vm_compute. discriminate.
  - intros x Hx pa fl E pg Hpg. assert (Hx' : 0 <= x < 4096) by (clear -Hx; unfold SHM_NAME_LEN in Hx; lia). change (pmem k) with (pmem k0) in E. change (cr3 k) with (V2P d) in E.
    rewrite Htr in E by exact Hx'. injection E as <- <-. apply (pages_apart k0 m pg).
    + exact Hm.
    + destruct Hpg as [[->|[i Hi]]|Hin]; [exact (po_dir _ _ _ (pa_pt _ _ _ _ _ Hpar))|apply (po_some _ _ _ (pa_pt _ _ _ _ _ Hpar) _ _ Hi)|].
      pose proof (fp_ok _ _ (pa_free _ _ _ _ _ Hpar)) as Hok. rewrite Forall_forall in Hok. exact (Hok _ Hin).
    + intros ->. destruct Hpg as [Hpg|Hpg]; [exact (Hmpt Hpg)|exact (Hml Hpg)].
    + clear -Hx' Hmr Hmm. unfold in_page, aligned, PGSIZE in *. Z.div_mod_to_equations. lia.
  - reflexivity.
  - change (shm_mems k) with (mk_shm_block nm 0x700000 1 0 :: replicate 15 zero_shm_block). cbn [list_find].
    rewrite decide_True; [reflexivity|]. split; [cbn; lia|]. apply strncmp_l_eq. reflexivity.
  - cbn. lia.
  - cbn. lia.
  - reflexivity.
  - cbn. unfold PGSIZE. lia.
  - reflexivity.
  - reflexivity.
  - change (PGROUNDUP (sz (demo_shm_proc d))) with 4096 in Hr, Ht. exists k, k', 4096. split; [exact Hr|]. rewrite Ht by lia.
    rewrite decide_True by (unfold PGSIZE; lia). reflexivity.
Defined.
