(* ===== verification/Proc.v ===== *)
(** * Processes

    The life cycle of processes in [src/proc.c]: [allocproc], [userinit],
    [growproc], [fork], [exit], [wait], [forkret], and the container's root
    directory ([resolve_path_to_inode], [do_setroot]).

    The kernel stack of a process is the page [kstack]; the trap frame and the
    context that the code lays out on it are the fields [tf] and [context]. *)

From S2P Require Import Prelude CString Headers Spinlock Ring Sched Mem Kalloc Mutex Sleeplock Dll Bio Bcache Bytes Log Pipe Vm Inode Console Fs File Shm.

Definition pinit : K unit := initlock Lptable.

Definition allocproc : K (option nat) :=
  do! acquire Lptable in
  let! found := first_of (seq 0 NPROC) (fun i =>
    let! p := proc_at i in
    ret (if bool_decide (state p = UNUSED) then Some i else None)) in
  match found with
  | None => do! release Lptable in ret None
  | Some i =>
      do! upd_proc i (fun p => p <| state := EMBRYO |>) in
      let! n := gets nextpid in
      do! upd_proc i (fun p => p <| pid := n |>) in
      do! modify (fun k => k <| nextpid := i32 (n + 1) |>) in
      do! release Lptable in
      let! v := kalloc in
      do! upd_proc i (fun p => p <| kstack := v |>) in
      if v =? 0 then
        do! upd_proc i (fun p => p <| state := UNUSED |>) in
        ret None
      else
        do! upd_proc i (fun p => p <| context := RP_forkret |>) in
        do! upd_proc i (fun p => p <| maxproc := 0 |> <| maxprocset := 0 |> <| newroot_inode := None |>
          <| in_newroot := 0 |> <| in_container := 0 |> <| namespace := 0 |>) in
        (* memset(p->shm, sizeof(struct shm_mapping)*SHM_MAXNUM, 0) sets no byte *)
        ret (Some i)
  end.

(** [initcode] is the binary linked into the kernel. *)
Definition userinit (initcode : list Z) : K unit :=
  let! r := allocproc in
  do! modify (fun k => k <| initproc := r |>) in
  let! i := ofopt r in
  let! d := setupkvm in
  do! upd_proc i (fun p => p <| pgdir := d |>) in
  if d =? 0 then panic "userinit: out of memory?"
  else
    do! inituvm d initcode (Z.of_nat (length initcode)) in
    do! upd_proc i (fun p => p <| sz := PGSIZE |>) in
    let ds := Z.lor (Z.shiftl SEG_UDATA 3) DPL_USER in
    do! upd_proc i (fun p => p <| tf := zero_tf <| tf_cs := Z.lor (Z.shiftl SEG_UCODE 3) DPL_USER |>
      <| tf_ds := ds |> <| tf_es := ds |> <| tf_ss := ds |>
      <| tf_eflags := FL_IF |> <| tf_esp := PGSIZE |> <| tf_eip := 0 |> |>) in
    do! upd_proc i (fun p => p <| pname ::= fun old => safestrcpy_l old [105; 110; 105; 116; 99; 111; 100; 101] 16 |>) in
    let! c := namei [SLASH] in
    do! upd_proc i (fun p => p <| cwd := c |>) in
    do! acquire Lptable in
    do! upd_proc i (fun p => p <| queueType := HFS_POLICY |>) in
    do! upd_proc i (fun p => p <| hfs_priority := 0 |>) in
    let! _ := hfs_enqueue i in
    do! upd_proc i (fun p => p <| state := RUNNABLE |>) in
    release Lptable.

Definition growproc (n : Z) : K Z :=
  let! me := mycur in
  let! p := proc_at me in
  let sz0 := sz p in
  let! r := (if 0 <? n then
               let! s := allocuvm (pgdir p) sz0 (u32 (sz0 + n)) in ret (if s =? 0 then None else Some s)
             else if n <? 0 then
               let! s := deallocuvm (pgdir p) sz0 (u32 (sz0 + n)) in ret (if s =? 0 then None else Some s)
             else ret (Some sz0)) in
  match r with
  | None => ret (-1)
  | Some s =>
      do! upd_proc me (fun p => p <| sz := s |>) in
      do! switchuvm me in
      ret 0
  end.

(** [for (i = 0; i < NOFILE; i++) if (curproc->ofile[i]) np->ofile[i] = filedup(curproc->ofile[i]);] *)
Definition fork_files (me np : nat) : K unit :=
  foreach (seq 0 NOFILE) (fun i =>
    let! p := proc_at me in
    let! f := ofopt (ofile p !! i) in
    match f with
    | Some f =>
        let! f := filedup f in
        upd_proc np (fun p => p <| ofile ::= <[i := Some f]> |>)
    | None => ret tt
    end).

(** The end of [fork]: the child becomes runnable and is queued as its parent is. *)
Definition fork_start (np : nat) : K unit :=
  do! acquire Lptable in
  do! upd_proc np (fun p => p <| state := RUNNABLE |>) in
  let! q := proc_at np in
  let! par := ofopt (parent q) in
  let! pp := proc_at par in
  do! (if queueType pp =? FP_POLICY then
         do! upd_proc np (fun p => p <| fp_priority := fp_priority pp |>) in
         do! upd_proc np (fun p => p <| queueType := FP_POLICY |>) in
         do! fp_enqueue np in ret tt
       else if queueType pp =? HFS_POLICY then
         do! upd_proc np (fun p => p <| hfs_priority := hfs_priority pp |>) in
         do! upd_proc np (fun p => p <| queueType := HFS_POLICY |>) in
         do! hfs_enqueue np in ret tt
       else ret tt) in
  release Lptable.

Definition fork : K Z :=
  let! me := mycur in
  let! r := allocproc in
  match r with
  | None => ret (-1)
  | Some np =>
      let! p := proc_at me in
      do! upd_proc np (fun q => q <| maxprocset := maxprocset p |> <| maxproc := maxproc p |>
        <| in_newroot := in_newroot p |> <| in_container := in_container p |> <| namespace := namespace p |>) in
      do! (if negb (in_newroot p =? 0) then
             let! r := ofopt (newroot_inode p) in
             let! r := idup r in
             upd_proc np (fun q => q <| newroot_inode := Some r |>)
           else upd_proc np (fun q => q <| newroot_inode := None |>)) in
      let! d := copyuvm (pgdir p) (sz p) in
      do! upd_proc np (fun q => q <| pgdir := d |>) in
      if d =? 0 then
        let! q := proc_at np in
        do! kfree (kstack q) in
        do! upd_proc np (fun q => q <| kstack := 0 |>) in
        do! upd_proc np (fun q => q <| state := UNUSED |>) in
        ret (-1)
      else
        do! upd_proc np (fun q => q <| sz := sz p |> <| parent := Some me |>) in
        do! upd_proc np (fun q => q <| tf := tf p |>) in
        do! upd_proc np (fun q => q <| pshm := pshm p |>) in
        do! upd_proc np (fun q => q <| tf ::= fun t => t <| tf_eax := 0 |> |>) in
        do! fork_files me np in
        let! c := ofopt (cwd p) in
        let! c := idup c in
        do! upd_proc np (fun q => q <| cwd := Some c |>) in
        do! upd_proc np (fun q => q <| pname ::= fun old => safestrcpy_l old (pname p) 16 |>) in
        let! q := proc_at np in
        do! fork_start np in
        ret (pid q)
  end.

(** The first half of [exit]: files and shared memory are given up. *)
Definition exit_files (me : nat) : K unit :=
  foreach (seq 0 NOFILE) (fun fd =>
    let! p := proc_at me in
    let! f := ofopt (ofile p !! fd) in
    match f with
    | Some f =>
        do! fileclose f in
        upd_proc me (fun p => p <| ofile ::= <[fd := None]> |>)
    | None => ret tt
    end).

Definition exit_shm (me : nat) : K unit :=
  foreach (seq 0 SHM_MAXNUM) (fun i =>
    let! p := proc_at me in
    let! m := ofopt (pshm p !! i) in
    when (negb (sm_va m =? 0))
      (let! _ := shm_rem (Some (get_local (sm_name m))) in ret tt)).

(** The last part of [exit], with [ptable.lock] held: the parent is woken, the
    children are given to [initproc], and the process leaves the processor. *)
Definition exit_zombie (me : nat) : K unit :=
  let! p := proc_at me in
  do! wakeup1 (Cproc <$> parent p) in
  do! foreach (seq 0 NPROC) (fun i =>
    let! q := proc_at i in
    when (bool_decide (parent q = Some me))
      (let! ini := gets initproc in
       do! upd_proc i (fun q => q <| parent := ini |>) in
       let! q := proc_at i in
       when (bool_decide (state q = ZOMBIE)) (wakeup1 (Cproc <$> ini)))) in
  do! upd_proc me (fun p => p <| state := ZOMBIE |>) in
  do! sched in
  panic "zombie exit".

Definition exit : K unit :=
  let! me := mycur in
  let! ini := gets initproc in
  if bool_decide (ini = Some me) then panic "init exiting"
  else
    do! exit_files me in
    do! exit_shm me in
    (* memset(curproc->shm, ..., 0) sets no byte *)
    do! begin_op in
    let! p := proc_at me in
    let! c := ofopt (cwd p) in
    do! iput c in
    do! end_op in
    do! upd_proc me (fun p => p <| cwd := None |>) in
    do! acquire Lptable in
    exit_zombie me.

(** Reaping the zombie child [i]. *)
Definition reap (i : nat) : K Z :=
  let! p := proc_at i in
  do! kfree (kstack p) in
  do! upd_proc i (fun p => p <| kstack := 0 |>) in
  do! freevm (pgdir p) in
  do! upd_proc i (fun p => p <| pid := 0 |> <| parent := None |> <| pname ::= <[0%nat := 0]> |>
    <| killed := 0 |> <| state := UNUSED |>) in
  do! release Lptable in
  ret (pid p).

(** The scan of [wait]: [inr pid] when a child was reaped, [inl havekids] otherwise. *)
Fixpoint wait_scan (me : nat) (l : list nat) (havekids : bool) : K (bool + Z) :=
  match l with
  | [] => ret (inl havekids)
  | i :: l' =>
      let! p := proc_at i in
      if bool_decide (parent p = Some me) then
        if bool_decide (state p = ZOMBIE) then let! pid := reap i in ret (inr pid)
        else wait_scan me l' true
      else wait_scan me l' havekids
  end.

(** Each pass that finds no zombie sleeps; [WAITS] passes are modelled. *)
Definition wait : K Z :=
  let! me := mycur in
  do! acquire Lptable in
  loop WAITS (fun _ =>
    let! r := wait_scan me (seq 0 NPROC) false in
    match r with
    | inr pid => ret (inr pid)
    | inl havekids =>
        let! p := proc_at me in
        if negb havekids || negb (killed p =? 0) then
          do! release Lptable in
          ret (inr (-1))
        else
          do! sleep (Cproc me) Lptable in
          ret (inl tt)
    end) tt.

(** [first] is the static variable of [forkret]; the result is its new value. *)
Definition forkret (first : bool) : K bool :=
  do! release Lptable in
  do! when first
    (do! iinit ROOTDEV in
     initlog ROOTDEV) in
  ret false.

(** ** The root of a container *)

Definition resolve_path_to_inode (path : list Z) : K (option nat) :=
  do! begin_op in
  let! r := namei path in
  match r with
  | None => do! end_op in ret None
  | Some i => do! end_op in ret (Some i)
  end.

Definition do_setroot (path : list Z) (path_len : Z) : K Z :=
  let! me := mycur in
  let! p := proc_at me in
  if negb (in_newroot p =? 0) then ret (-1)
  else if negb (bool_decide (head path = Some SLASH)) || (MAXPATH <=? path_len) then ret (-1)
  else
    let! r := resolve_path_to_inode path in
    match r with
    | None => ret (-1)
    | Some i =>
        let! d := is_inode_directory i in
        if d =? 0 then ret (-1)
        else
          do! acquire Lptable in
          do! upd_proc me (fun p => p <| newroot_inode := Some i |>) in
          do! upd_proc me (fun p => p <| in_newroot := 1 |>) in
          do! release Lptable in
          ret 0
    end.
