(* ===== verification/Syscall.v ===== *)
(** * System call arguments

    [src/syscall.c]: fetching arguments from the user stack and checking user
    pointers against the size of the process, and the dispatch on the system call
    number.  An output parameter is returned: [None] stands for the result -1. *)

From S2P Require Import Prelude CString Headers Spinlock Mem.

(** [myproc()->sz] *)
Definition my_sz : K Z := let! me := mycur in let! p := proc_at me in ret (sz p).

Definition fetchint (addr : Z) : K (option Z) :=
  let! s := my_sz in
  if (s <=? addr) || (s <? u32 (addr + 4)) then ret None
  else let! w := vload32 addr in ret (Some (i32 w)).

(** The length of the string at [addr]. *)
Fixpoint fetchstr_scan (s : Z) (n : nat) : K (option Z) :=
  match n with
  | O => ret None
  | S n' =>
      let! c := vload8 s in
      if c =? 0 then ret (Some s) else fetchstr_scan (s + 1) n'
  end.

Definition fetchstr (addr : Z) : K (option Z) :=
  let! s := my_sz in
  if s <=? addr then ret None
  else
    let! e := fetchstr_scan addr (Z.to_nat (s - addr)) in
    ret ((fun e => e - addr) <$> e).

Definition argint (n : Z) : K (option Z) :=
  let! me := mycur in
  let! p := proc_at me in
  fetchint (u32 (tf_esp (tf p) + 4 + 4 * n)).

(** The pointer, an address of the user's memory. *)
Definition argptr (n size : Z) : K (option Z) :=
  let! r := argint n in
  match r with
  | None => ret None
  | Some i =>
      let! s := my_sz in
      if (size <? 0) || (s <=? u32 i) || (s <? u32 (u32 i + size)) then ret None
      else ret (Some (u32 i))
  end.

(** The pointer and the length. *)
Definition argstr (n : Z) : K (option (Z * Z)) :=
  let! r := argint n in
  match r with
  | None => ret None
  | Some a =>
      let! l := fetchstr (u32 a) in
      ret ((fun l => (u32 a, l)) <$> l)
  end.

(** The argument's characters: what the kernel finds behind the pointer when it
    uses the string later in the same call. *)
Definition argpath (n : Z) : K (option (list Z)) :=
  let! r := argstr n in
  match r with
  | None => ret None
  | Some (a, l) => let! s := vload a (Z.to_nat l) in ret (Some s)
  end.

(** ** Checked user pointers *)

(** Code that only looks at the state: it returns or faults, and leaves the state
    as it was. *)
Definition looks {A} (m : K A) : Prop := forall k, (exists a, m k = Ret a k) \/ m k = Fault k.

Lemma looks_ret {A} (a : A) : looks (ret a).
Proof. intros k. left. by exists a. Qed.
Lemma looks_gets {A} (g : kernel -> A) : looks (gets g).
Proof. intros k. left. by exists (g k). Qed.
Lemma looks_fault {A} : looks (fault (A := A)).
Proof. intros k. by right. Qed.
Lemma looks_ofopt {A} (o : option A) : looks (ofopt o).
Proof. destruct o; [apply looks_ret|apply looks_fault]. Qed.
Lemma looks_bind {A B} (m : K A) (f : A -> K B) : looks m -> (forall a, looks (f a)) -> looks (bind m f).
Proof.
  intros Hm Hf k. destruct (Hm k) as [[a E]|E]; [rewrite (bind_run _ _ _ _ _ E); apply Hf|].
  right. unfold bind. by rewrite E.
Qed.

Lemma looks_bind_inv {A B} (m : K A) (f : A -> K B) k b k' :
  looks m -> bind m f k = Ret b k' -> exists a, m k = Ret a k /\ f a k = Ret b k'.
Proof.
  intros Hm E. destruct (Hm k) as [[a Ea]|Ef]; [exists a; split; [done|]; by rewrite (bind_run _ _ _ _ _ Ea) in E|].
  unfold bind in E. by rewrite Ef in E.
Qed.

Create HintDb looks discriminated.
#[export] Hint Resolve looks_ret looks_gets looks_fault looks_ofopt looks_bind : looks.
Ltac looks_tac :=
  repeat lazymatch goal with
  | |- looks (bind _ _) => apply looks_bind; [|intros ?]
  | |- looks (if ?b then _ else _) => destruct b
  | |- looks (match ?x with _ => _ end) => destruct x
  | |- looks _ => solve [eauto with looks]
  end.

Lemma looks_vload8 a : looks (vload8 a).
Proof. unfold vload8. looks_tac. Qed.
#[export] Hint Resolve looks_vload8 : looks.
Lemma looks_my_sz : looks my_sz.
Proof. unfold my_sz, mycur, myproc, proc_at. looks_tac. Qed.
#[export] Hint Resolve looks_my_sz : looks.
Lemma looks_fetchint a : looks (fetchint a).
Proof. unfold fetchint, vload32. looks_tac. Qed.
#[export] Hint Resolve looks_fetchint : looks.
Lemma looks_argint n : looks (argint n).
Proof. unfold argint, mycur, myproc, proc_at. looks_tac. Qed.
Lemma looks_fetchstr_scan s n : looks (fetchstr_scan s n).
Proof. revert s. induction n as [|n IH]; intros s; cbn [fetchstr_scan]; looks_tac; apply IH. Qed.
#[export] Hint Resolve looks_argint looks_fetchstr_scan : looks.
Lemma looks_fetchstr a : looks (fetchstr a).
Proof. unfold fetchstr. looks_tac. Qed.
#[export] Hint Resolve looks_fetchstr : looks.

Section checked.
Context (k : kernel) (me : nat) (p : proc).
Hypothesis cur : curproc k = Some me.
Hypothesis pr : procs k !! me = Some p.
Hypothesis sz_user : 0 <= sz p <= KERNBASE.

Lemma my_sz_run : my_sz k = Ret (sz p) k.
Proof. unfold my_sz, mycur, myproc, proc_at, bind, gets. cbn. rewrite cur. cbn. by rewrite pr. Qed.

Lemma fetchstr_scan_run n : forall s e k', fetchstr_scan s n k = Ret (Some e) k' ->
  s <= e < s + Z.of_nat n /\ vload8 e k = Ret 0 k /\
  exists l, vload s (Z.to_nat (e - s)) k = Ret l k /\ length l = Z.to_nat (e - s) /\ 0 ∉ l.
Proof.
  induction n as [|n IH]; intros s e k' E; cbn [fetchstr_scan] in E; [done|].
  apply looks_bind_inv in E as (c & Ec & E); [|apply looks_vload8]. destruct (Z.eqb_spec c 0) as [->|Hc].
  - unfold ret in E. injection E as <- _. rewrite Z.sub_diag. split_and!; [lia|lia|done|]. exists []. split_and!; [done..|apply not_elem_of_nil].
  - apply IH in E as (Hr & H0 & l & Hl & Hlen & Hno). split_and!; [lia|lia|done|]. exists (c :: l).
    replace (Z.to_nat (e - s)) with (S (Z.to_nat (e - (s + 1)))) by lia. cbn [vload]. rewrite (bind_run _ _ _ _ _ Ec), (bind_run _ _ _ _ _ Hl).
    split_and!; [done|cbn; lia|]. apply not_elem_of_cons. done.
Qed.

Lemma argptr_some n size i : argint n k = Ret (Some i) k -> - 2 ^ 31 <= size < 2 ^ 31 ->
  argptr n size k = Ret (if decide (0 <= size /\ u32 i < sz p /\ u32 i + size <= sz p) then Some (u32 i) else None) k.
Proof.
  intros Ei Hs. unfold argptr. rewrite (bind_run _ _ _ _ _ Ei), (bind_run _ _ _ _ _ my_sz_run).
  pose proof (u32_range i) as Hi. unfold KERNBASE in *. destruct (Z.ltb_spec size 0); cbn [orb].
  { rewrite decide_False by lia. done. }
  destruct (Z.leb_spec (sz p) (u32 i)); cbn [orb]; [by rewrite decide_False by lia|]. rewrite (u32_small (u32 i + size)) by lia.
  destruct (Z.ltb_spec (sz p) (u32 i + size)); [by rewrite decide_False by lia|by rewrite decide_True by lia].
Qed.
End checked.

(** C27: system calls only get pointers into the process.  For a process whose size
    does not reach into the kernel's half of the address space, [argptr] hands out
    the pointer exactly when the whole block of [size] bytes lies below the process's
    size, with no overflow of the 32-bit addition; a string [argstr] hands out lies
    below the size up to and including its terminating zero, which is the first one.
    Neither changes anything. *)
Theorem user_pointers_checked k me p n size :
  curproc k = Some me -> procs k !! me = Some p -> 0 <= sz p <= KERNBASE -> - 2 ^ 31 <= size < 2 ^ 31 ->
  (forall i k', argint n k = Ret (Some i) k' ->
    argptr n size k = Ret (if decide (0 <= size /\ u32 i < sz p /\ u32 i + size <= sz p) then Some (u32 i) else None) k) /\
  (forall a l k', argstr n k = Ret (Some (a, l)) k' -> k' = k /\ 0 <= a /\ 0 <= l /\ a + l < sz p /\ vload8 (a + l) k = Ret 0 k /\
    exists s, vload a (Z.to_nat l) k = Ret s k /\ Z.of_nat (length s) = l /\ 0 ∉ s).
Proof.
  intros Hc Hp Hsz Hs. split.
  - intros i k' Ei. apply (argptr_some k me p Hc Hp Hsz n size i); [|done]. destruct (looks_argint n k) as [[x Ex]|Ef]; [congruence|]. by rewrite Ef in Ei.
  - intros a l k' E. unfold argstr in E. apply looks_bind_inv in E as ([i|] & Ei & E); [|done|apply looks_argint].
    apply looks_bind_inv in E as (o & Eo & E); [|apply looks_fetchstr]. unfold ret in E. injection E as E <-. destruct o as [l'|]; [|done].
    injection E as <- <-. unfold fetchstr in Eo. rewrite (bind_run _ _ _ _ _ (my_sz_run k me p Hc Hp)) in Eo. pose proof (u32_range i).
    destruct (Z.leb_spec (sz p) (u32 i)); [done|]. apply looks_bind_inv in Eo as (e & Ee & Eo); [|apply looks_fetchstr_scan].
    unfold ret in Eo. injection Eo as Eo. destruct e as [e|]; [|done]. injection Eo as <-.
    apply fetchstr_scan_run in Ee as (Hr & Hz & s & Hl & Hlen & Hno). replace (u32 i + (e - u32 i)) with e by lia.
    split_and!; [done|lia..|done|]. exists s. split_and!; [done|lia|done].
Qed.

(** A process of one page whose first argument points to the string [Hi]. *)
Definition demo_caller : proc := zero_proc <| sz := 4096 |>.
Definition demo_call : kernel :=
  zero_kernel <| procs := [demo_caller] |> <| curproc := Some 0%nat |> <| cr3 := 0x1000 |>
    <| pmem := {[0x1000 := 0x2007; 0x2000 := 0x3007; 0x3004 := 0x10; 0x3010 := 0x6948]} |>.

Lemma user_pointers_checked_witness :
  argptr 0 4080 demo_call = Ret (Some 16) demo_call /\ argptr 0 4081 demo_call = Ret None demo_call /\
  argstr 0 demo_call = Ret (Some (16, 2)) demo_call /\ 16 + 2 < 4096.
Proof.
  assert (Ei : argint 0 demo_call = Ret (Some 16) demo_call) by (vm_compute; reflexivity).
  assert (Es : argstr 0 demo_call = Ret (Some (16, 2)) demo_call) by (vm_compute; reflexivity).
  destruct (user_pointers_checked demo_call 0 demo_caller 0 4080) as [H1 H2]; [reflexivity|reflexivity|vm_compute; split; discriminate|lia|].
  destruct (user_pointers_checked demo_call 0 demo_caller 0 4081) as [H3 _]; [reflexivity|reflexivity|vm_compute; split; discriminate|lia|].
  split; [rewrite (H1 _ _ Ei); vm_compute; reflexivity|]. split; [rewrite (H3 _ _ Ei); vm_compute; reflexivity|].
  split; [exact Es|]. destruct (H2 _ _ _ Es) as (_ & _ & _ & Hlt & _). exact Hlt.
Defined.
