(* ===== verification/Exec.v ===== *)
(** * Loading a program

    [src/exec.c] and [loaduvm] of [src/vm.c].  The arguments are pointers to
    strings in the memory of the calling process. *)

From S2P Require Import Prelude CString Headers Spinlock Ring Sched Mem Kalloc Mutex Sleeplock Dll Bio Bcache Bytes Log Pipe Vm Inode Console Fs.

(** The destination of a [readi] into a page, through the kernel's mapping. *)
Definition put_kernel (dst : Z) (_ : unit) (o : Z) (l : list Z) : K unit := kstore (dst + o) l.

Definition loaduvm (pgdir addr : Z) (ip : nat) (offset sz : Z) : K Z :=
  if negb (addr mod PGSIZE =? 0) then panic "loaduvm: addr must be page aligned"
  else
    let! r := first_of (user_pages sz) (fun i =>
      let! pte := walkpgdir pgdir (u32 (addr + i)) 0 in
      if pte =? 0 then panic "loaduvm: address should exist"
      else
        let! e := kread pte in
        let pa := PTE_ADDR e in
        let n := if sz - i <? PGSIZE then sz - i else PGSIZE in
        let! r := readi (put_kernel (P2V pa)) ip tt (u32 (offset + i)) n in
        ret (if negb (r.1 =? n) then Some (-1) else None)) in
    ret (default 0 r).

(** [struct elfhdr] and [struct proghdr] (elf.h). *)
Definition ELF_MAGIC : Z := 0x464C457F.
Definition ELF_PROG_LOAD : Z := 1.
Definition ELFHDR : Z := 52.
Definition PROGHDR : Z := 32.
Definition elf_magic (d : list Z) : Z := get32 d 0.
Definition elf_entry (d : list Z) : Z := get32 d 24.
Definition elf_phoff (d : list Z) : Z := get32 d 28.
Definition elf_phnum (d : list Z) : Z := get16 d 44.
Definition ph_type (d : list Z) : Z := get32 d 0.
Definition ph_off (d : list Z) : Z := get32 d 4.
Definition ph_vaddr (d : list Z) : Z := get32 d 8.
Definition ph_filesz (d : list Z) : Z := get32 d 16.
Definition ph_memsz (d : list Z) : Z := get32 d 20.

(** The loop over the program headers; [None] is [goto bad]. *)
Fixpoint load_segments (d : Z) (ip : nat) (n : nat) (off sz : Z) : K (option Z) :=
  match n with
  | O => ret (Some sz)
  | S n' =>
      let! r := readi put_local ip (replicate (Z.to_nat PROGHDR) 0) (u32 off) PROGHDR in
      let ph := r.2 in
      if negb (r.1 =? PROGHDR) then ret None
      else if negb (ph_type ph =? ELF_PROG_LOAD) then load_segments d ip n' (off + PROGHDR) sz
      else if ph_memsz ph <? ph_filesz ph then ret None
      else if u32 (ph_vaddr ph + ph_memsz ph) <? ph_vaddr ph then ret None
      else
        let! sz := allocuvm d sz (u32 (ph_vaddr ph + ph_memsz ph)) in
        if sz =? 0 then ret None
        else if negb (ph_vaddr ph mod PGSIZE =? 0) then ret None
        else
          let! l := loaduvm d (ph_vaddr ph) ip (ph_off ph) (ph_filesz ph) in
          if l <? 0 then ret None else load_segments d ip n' (off + PROGHDR) sz
  end.

(** The string behind a pointer, with its terminating null; the caller has checked
    that one is there. *)
Fixpoint load_str (s : Z) (fuel : nat) : K (list Z) :=
  match fuel with
  | O => fun k => Spin k
  | S n => let! c := vload8 s in if c =? 0 then ret [0] else let! l := load_str (s + 1) n in ret (c :: l)
  end.

(** Pushing the argument strings; [us] are the entries of [ustack] from 3 on.
    The result is [None] for [goto bad]. *)
Fixpoint push_args (d : Z) (argv : list Z) (argc sp : Z) (us : list Z) : K (option (Z * list Z)) :=
  match argv with
  | [] => ret (Some (sp, us))
  | a :: argv' =>
      if Z.of_nat MAXARG <=? argc then ret None
      else
        let! s := load_str a (Z.to_nat KERNBASE) in
        let sp := Z.land (u32 (sp - Z.of_nat (length s))) (u32 (Z.lnot 3)) in
        let! r := copyout d sp s in
        if r <? 0 then ret None else push_args d argv' (argc + 1) sp (us ++ [sp])
  end.

(** The part of [path] after the last slash. *)
Fixpoint base_name (last path : list Z) : list Z :=
  match path with
  | [] => last
  | c :: path' => if c =? SLASH then base_name path' path' else base_name last path'
  end.

Definition bytes32 (l : list Z) : list Z := concat (le32 <$> l).

(** From the end of the program headers on: the stack, its arguments, and the
    switch to the new image.  [None] is [goto bad]. *)
Definition exec_stack (path : list Z) (argv : list Z) (elf : list Z) (d sz1 : Z) : K (option Z) :=
  let! me := mycur in
  let sz0 := PGROUNDUP sz1 in
  let! sz2 := allocuvm d sz0 (u32 (sz0 + 2 * PGSIZE)) in
  if sz2 =? 0 then ret None
  else
    do! clearpteu d (u32 (sz2 - 2 * PGSIZE)) in
    let! r := push_args d argv 0 sz2 [] in
    match r with
    | None => ret None
    | Some (sp, us) =>
        let argc := Z.of_nat (length us) in
        let ustack := [0xffffffff; argc; u32 (sp - (argc + 1) * 4)] ++ us ++ [0] in
        let sp := u32 (sp - (3 + argc + 1) * 4) in
        let! r := copyout d sp (bytes32 ustack) in
        if r <? 0 then ret None
        else
          do! upd_proc me (fun p => p <| pname ::= fun old => safestrcpy_l old (base_name path path) 16 |>) in
          do! upd_proc me (fun p => p <| proc_mutexes := replicate MUX_MAXNUM (u32 (-1)) |>) in
          let! p := proc_at me in
          let oldpgdir := pgdir p in
          do! upd_proc me (fun p => p <| pgdir := d |> <| sz := sz2 |>) in
          do! upd_proc me (fun p => p <| tf ::= fun t => t <| tf_eip := elf_entry elf |> <| tf_esp := sp |> |>) in
          do! switchuvm me in
          do! freevm oldpgdir in
          ret (Some 0)
    end.

(** [path] are the characters of the path, [argv] the argument pointers up to the
    null pointer. *)
Definition exec (path : list Z) (argv : list Z) : K Z :=
  do! begin_op in
  let! r := namei path in
  match r with
  | None =>
      do! end_op in
      do! cputs "exec: fail" in
      ret (-1)
  | Some ip =>
      let bad (d : Z) :=
        do! when (negb (d =? 0)) (freevm d) in
        do! iunlockput ip in
        do! end_op in
        ret (-1) in
      do! ilock (Some ip) in
      let! r := readi put_local ip (replicate (Z.to_nat ELFHDR) 0) 0 ELFHDR in
      let elf := r.2 in
      if negb (r.1 =? ELFHDR) then bad 0
      else if negb (elf_magic elf =? ELF_MAGIC) then bad 0
      else
        let! d := setupkvm in
        if d =? 0 then bad 0
        else
          let! s := load_segments d ip (Z.to_nat (elf_phnum elf)) (elf_phoff elf) 0 in
          match s with
          | None => bad d
          | Some sz1 =>
              do! iunlockput ip in
              do! end_op in
              let! r := exec_stack path argv elf d sz1 in
              match r with
              | Some v => ret v
              | None => do! freevm d in ret (-1)
              end
          end
  end.
