(* ===== verification/Sysfile.v ===== *)
(** * File system calls

    [src/sysfile.c].  System calls take their arguments from the user stack
    ([Syscall]); each returns the value left in [eax]. *)

From S2P Require Import Prelude CString Headers Spinlock Ring Sched Mem Kalloc Mutex Sleeplock Dll Bio Bcache Bytes Log Pipe Vm Inode Console Fs File Syscall Exec.

(** [sizeof(struct stat)] *)
Definition STAT : Z := 20.

(** The descriptor and its file. *)
Definition argfd (n : Z) : K (option (Z * nat)) :=
  let! r := argint n in
  match r with
  | None => ret None
  | Some fd =>
      if (fd <? 0) || (Z.of_nat NOFILE <=? fd) then ret None
      else
        let! me := mycur in
        let! p := proc_at me in
        let! f := ofopt (zget (ofile p) fd) in
        ret ((fun f => (fd, f)) <$> f)
  end.

Definition fdalloc (f : nat) : K Z :=
  let! me := mycur in
  let! r := first_of (seq 0 NOFILE) (fun fd =>
    let! p := proc_at me in
    let! o := ofopt (ofile p !! fd) in
    match o with
    | None =>
        do! upd_proc me (fun p => p <| ofile ::= <[fd := Some f]> |>) in
        ret (Some (Z.of_nat fd))
    | Some _ => ret None
    end) in
  ret (default (-1) r).

Definition sys_dup : K Z :=
  let! r := argfd 0 in
  match r with
  | None => ret (-1)
  | Some (_, f) =>
      let! fd := fdalloc f in
      if fd <? 0 then ret (-1)
      else
        let! _ := filedup f in
        ret fd
  end.

(** The arguments of [read] and [write]: file, buffer and count. *)
Definition rw_args : K (option (nat * Z * Z)) :=
  let! r := argfd 0 in
  match r with
  | None => ret None
  | Some (_, f) =>
      let! n := argint 2 in
      match n with
      | None => ret None
      | Some n =>
          let! p := argptr 1 n in
          ret ((fun p => (f, p, n)) <$> p)
      end
  end.

Definition sys_read : K Z :=
  let! r := rw_args in
  match r with
  | None => ret (-1)
  | Some (f, p, n) => fileread f p n
  end.

Definition sys_write : K Z :=
  let! r := rw_args in
  match r with
  | None => ret (-1)
  | Some (f, p, n) => filewrite f p n
  end.

Definition sys_close : K Z :=
  let! r := argfd 0 in
  match r with
  | None => ret (-1)
  | Some (fd, f) =>
      let! me := mycur in
      do! upd_proc me (fun p => p <| ofile ::= <[Z.to_nat fd := None]> |>) in
      do! fileclose f in
      ret 0
  end.

Definition sys_fstat : K Z :=
  let! r := argfd 0 in
  match r with
  | None => ret (-1)
  | Some (_, f) =>
      let! st := argptr 1 STAT in
      match st with
      | None => ret (-1)
      | Some st => filestat f st
      end
  end.

(** [ip->nlink++] and [ip->nlink--] on a [short]. *)
Definition add_nlink (i : nat) (d : Z) : K unit :=
  upd_inode i (fun ip => ip <| i_nlink ::= fun n => i16 (n + d) |>).

(** [bad:] of [sys_link]. *)
Definition link_bad (i : nat) : K Z :=
  do! ilock (Some i) in
  do! add_nlink i (-1) in
  do! iupdate i in
  do! iunlockput i in
  do! end_op in
  ret (-1).

Definition sys_link : K Z :=
  let! old := argpath 0 in
  let! new := (match old with None => ret None | Some _ => argpath 1 end) in
  match old, new with
  | Some old, Some new =>
      do! begin_op in
      let! r := namei old in
      match r with
      | None => do! end_op in ret (-1)
      | Some i =>
          do! ilock (Some i) in
          let! ip := inode_at i in
          if i_type ip =? T_DIR then
            do! iunlockput i in
            do! end_op in
            ret (-1)
          else
            do! add_nlink i 1 in
            do! iupdate i in
            do! iunlock (Some i) in
            let! r := nameiparent new zero_name in
            match r with
            | (None, _) => link_bad i
            | (Some dp, name) =>
                do! ilock (Some dp) in
                let! d := inode_at dp in
                let! ip := inode_at i in
                let! r := (if negb (i_dev d =? i_dev ip) then ret (-1) else dirlink dp name (i_inum ip)) in
                if r <? 0 then
                  do! iunlockput dp in
                  link_bad i
                else
                  do! iunlockput dp in
                  do! iput i in
                  do! end_op in
                  ret 0
            end
      end
  | _, _ => ret (-1)
  end.

(** The offsets [2 * sizeof(de), ...] below [dp->size]. *)
Definition isdirempty (dp : nat) : K Z :=
  let! ip := inode_at dp in
  let! r := first_of (drop 2 (dir_offsets (i_size ip))) (fun off =>
    let! r := readi put_local dp zero_dirent off DIRENT in
    if negb (r.1 =? DIRENT) then panic "isdirempty: readi"
    else ret (if negb (de_inum r.2 =? 0) then Some 0 else None)) in
  ret (default 1 r).

Definition dot : list Z := [46; 0].

(** [bad:] of [sys_unlink]. *)
Definition unlink_bad (dp : nat) : K Z :=
  do! iunlockput dp in
  do! end_op in
  ret (-1).

Definition sys_unlink : K Z :=
  let! path := argpath 0 in
  match path with
  | None => ret (-1)
  | Some path =>
      do! begin_op in
      let! r := nameiparent path zero_name in
      match r with
      | (None, _) => do! end_op in ret (-1)
      | (Some dp, name) =>
          do! ilock (Some dp) in
          if (namecmp name dot =? 0) || (namecmp name dotdot =? 0) then unlink_bad dp
          else
            let! r := dirlookup dp name in
            match r with
            | None => unlink_bad dp
            | Some (i, off) =>
                do! ilock (Some i) in
                let! ip := inode_at i in
                if i_nlink ip <? 1 then panic "unlink: nlink < 1"
                else
                  let! e := (if i_type ip =? T_DIR then isdirempty i else ret 1) in
                  if e =? 0 then
                    do! iunlockput i in
                    unlink_bad dp
                  else
                    let! n := writei (get_local zero_dirent) dp off DIRENT in
                    if negb (n =? DIRENT) then panic "unlink: writei"
                    else
                      let! ip := inode_at i in
                      do! when (i_type ip =? T_DIR) (do! add_nlink dp (-1) in iupdate dp) in
                      do! iunlockput dp in
                      do! add_nlink i (-1) in
                      do! iupdate i in
                      do! iunlockput i in
                      do! end_op in
                      ret 0
            end
      end
  end.

Definition create (path : list Z) (type major minor : Z) : K (option nat) :=
  let! r := nameiparent path zero_name in
  match r with
  | (None, _) => ret None
  | (Some dp, name) =>
      do! ilock (Some dp) in
      let! r := dirlookup dp name in
      match r with
      | Some (i, _) =>
          do! iunlockput dp in
          do! ilock (Some i) in
          let! ip := inode_at i in
          if (type =? T_FILE) && (i_type ip =? T_FILE) then ret (Some i)
          else
            do! iunlockput i in
            ret None
      | None =>
          let! d := inode_at dp in
          let! i := ialloc (i_dev d) type in
          do! ilock (Some i) in
          do! upd_inode i (fun ip => ip <| i_major := major |> <| i_minor := minor |> <| i_nlink := 1 |>) in
          do! iupdate i in
          do! when (type =? T_DIR)
            (do! add_nlink dp 1 in
             do! iupdate dp in
             let! ip := inode_at i in
             let! r := dirlink i dot (i_inum ip) in
             let! r := (if r <? 0 then ret r else let! d := inode_at dp in dirlink i dotdot (i_inum d)) in
             when (r <? 0) (panic "create dots")) in
          let! ip := inode_at i in
          let! r := dirlink dp name (i_inum ip) in
          if r <? 0 then panic "create: dirlink"
          else
            do! iunlockput dp in
            ret (Some i)
      end
  end.

(** The second half of [sys_open]: [i] is locked. *)
Definition open_file (i : nat) (omode : Z) : K Z :=
  let! f := filealloc in
  let! fd := (match f with None => ret (-1) | Some f => fdalloc f end) in
  match f with
  | Some f' =>
      if fd <? 0 then
        do! fileclose f' in
        do! iunlockput i in
        do! end_op in
        ret (-1)
      else
        do! iunlock (Some i) in
        do! end_op in
        do! upd_file f' (fun fl => fl <| f_type := FD_INODE |> <| f_ip := Some i |> <| f_off := 0 |>
          <| f_readable := if Z.land omode O_WRONLY =? 0 then 1 else 0 |>
          <| f_writable := if negb (Z.land omode O_WRONLY =? 0) || negb (Z.land omode O_RDWR =? 0) then 1 else 0 |>) in
        ret fd
  | None =>
      do! iunlockput i in
      do! end_op in
      ret (-1)
  end.

Definition sys_open : K Z :=
  let! path := argpath 0 in
  let! omode := (match path with None => ret None | Some _ => argint 1 end) in
  match path, omode with
  | Some path, Some omode =>
      do! begin_op in
      if negb (Z.land omode O_CREATE =? 0) then
        let! r := create path T_FILE 0 0 in
        match r with
        | None => do! end_op in ret (-1)
        | Some i => open_file i omode
        end
      else
        let! r := namei path in
        match r with
        | None => do! end_op in ret (-1)
        | Some i =>
            do! ilock (Some i) in
            let! ip := inode_at i in
            if (i_type ip =? T_DIR) && negb (omode =? O_RDONLY) then
              do! iunlockput i in
              do! end_op in
              ret (-1)
            else open_file i omode
        end
  | _, _ => ret (-1)
  end.

(** The end of [sys_mkdir] and [sys_mknod]. *)
Definition finish_create (r : option nat) : K Z :=
  match r with
  | None => do! end_op in ret (-1)
  | Some i =>
      do! iunlockput i in
      do! end_op in
      ret 0
  end.

Definition sys_mkdir : K Z :=
  do! begin_op in
  let! path := argpath 0 in
  let! r := (match path with None => ret None | Some path => create path T_DIR 0 0 end) in
  finish_create r.

Definition sys_mknod : K Z :=
  do! begin_op in
  let! path := argpath 0 in
  let! major := (match path with None => ret None | Some _ => argint 1 end) in
  let! minor := (match major with None => ret None | Some _ => argint 2 end) in
  let! r := (match path, major, minor with
             | Some path, Some major, Some minor => create path T_DEV (i16 major) (i16 minor)
             | _, _, _ => ret None
             end) in
  finish_create r.

Definition sys_chdir : K Z :=
  let! me := mycur in
  do! begin_op in
  let! path := argpath 0 in
  let! r := (match path with None => ret None | Some path => namei path end) in
  match r with
  | None => do! end_op in ret (-1)
  | Some i =>
      do! ilock (Some i) in
      let! ip := inode_at i in
      if negb (i_type ip =? T_DIR) then
        do! iunlockput i in
        do! end_op in
        ret (-1)
      else
        do! iunlock (Some i) in
        let! p := proc_at me in
        let! c := ofopt (cwd p) in
        do! iput c in
        do! end_op in
        do! upd_proc me (fun p => p <| cwd := Some i |>) in
        ret 0
  end.

(** The loop of [sys_exec] over the user's argument array, with room for [n] more
    pointers; [None] is the result -1. *)
Fixpoint exec_args (uargv : Z) (n : nat) (argv : list Z) : K (option (list Z)) :=
  match n with
  | O => ret None
  | S n' =>
      let! r := fetchint (u32 (uargv + 4 * Z.of_nat (length argv))) in
      match r with
      | None => ret None
      | Some uarg =>
          if uarg =? 0 then ret (Some argv)
          else
            let! l := fetchstr (u32 uarg) in
            match l with
            | None => ret None
            | Some _ => exec_args uargv n' (argv ++ [u32 uarg])
            end
      end
  end.

Definition sys_exec : K Z :=
  let! path := argpath 0 in
  let! uargv := (match path with None => ret None | Some _ => argint 1 end) in
  match path, uargv with
  | Some path, Some uargv =>
      let! argv := exec_args (u32 uargv) MAXARG [] in
      match argv with
      | None => ret (-1)
      | Some argv => exec path argv
      end
  | _, _ => ret (-1)
  end.

Definition sys_pipe : K Z :=
  let! fd := argptr 0 8 in
  match fd with
  | None => ret (-1)
  | Some fd =>
      let! r := pipealloc in
      match r with
      | None => ret (-1)
      | Some (rf, wf) =>
          let! me := mycur in
          let! fd0 := fdalloc rf in
          let! fd1 := (if fd0 <? 0 then ret (-1) else fdalloc wf) in
          if fd1 <? 0 then
            do! when (0 <=? fd0) (upd_proc me (fun p => p <| ofile ::= <[Z.to_nat fd0 := None]> |>)) in
            do! fileclose rf in
            do! fileclose wf in
            ret (-1)
          else
            do! vstore fd (le32 fd0) in
            do! vstore (fd + 4) (le32 fd1) in
            ret 0
      end
  end.
