(* ===== verification/Sysproc.v ===== *)
(** * Process system calls, dispatch and traps

    [src/sysproc.c], the table and [syscall] of [src/syscall.c], and [trap] of
    [src/trap.c]. *)

From S2P Require Import Prelude CString Headers Spinlock Ring Sched Mem Kalloc Mutex Container Sleeplock Dll Bio Bcache Bytes Log Pipe Vm Inode Console Fs File Shm Proc Syscall Exec Sysfile.

Definition sys_fork : K Z := fork.
Definition sys_exit : K Z := do! exit in ret 0.
Definition sys_wait : K Z := wait.

(** A call of a function of one [int]. *)
Definition with_int (f : Z -> K Z) : K Z :=
  let! r := argint 0 in
  match r with
  | None => ret (-1)
  | Some n => f n
  end.

Definition sys_kill : K Z := with_int kill.

Definition sys_getpid : K Z := let! me := mycur in let! p := proc_at me in ret (pid p).

Definition sys_sbrk : K Z :=
  with_int (fun n =>
    let! addr := my_sz in
    let! r := growproc n in
    ret (if r <? 0 then -1 else i32 addr)).

(** Each wait for the clock switches to the scheduler; [WAITS] waits are modelled. *)
Definition sys_sleep : K Z :=
  with_int (fun n =>
    do! acquire Ltickslock in
    let! ticks0 := gets ticks in
    loop WAITS (fun _ =>
      let! t := gets ticks in
      if u32 (t - ticks0) <? u32 n then
        let! me := mycur in
        let! p := proc_at me in
        if negb (killed p =? 0) then do! release Ltickslock in ret (inr (-1))
        else do! sleep Cticks Ltickslock in ret (inl tt)
      else
        do! release Ltickslock in
        ret (inr 0)) tt).

Definition sys_uptime : K Z :=
  do! acquire Ltickslock in
  let! xticks := gets ticks in
  do! release Ltickslock in
  ret (i32 xticks).

Definition sys_cm_maxproc : K Z := with_int do_maxproc.

(** A path and its length. *)
Definition with_path_int (f : list Z -> Z -> K Z) : K Z :=
  let! path := argpath 0 in
  let! n := (match path with None => ret None | Some _ => argint 1 end) in
  match path, n with
  | Some path, Some n => f path n
  | _, _ => ret (-1)
  end.

Definition sys_cm_setroot : K Z := with_path_int do_setroot.
Definition sys_cm_create_and_enter : K Z := do_ce.

Definition sys_test_newroot : K Z :=
  let! me := mycur in
  with_path_int (fun path _ =>
    let! r := resolve_path_to_inode path in
    match r with
    | None => ret (-1)
    | Some i =>
        let! p := proc_at me in
        if negb (bool_decide (newroot_inode p = Some i)) then
          do! iput i in
          ret (-1)
        else
          do! iput i in
          let! p := proc_at me in
          ret (if in_newroot p =? 0 then -1 else 0)
    end).

Definition sys_test_dotdot : K Z :=
  let! me := mycur in
  let! p := proc_at me in
  match newroot_inode p, cwd p with
  | Some r, Some c =>
      ret (if negb (in_newroot p =? 0) && (r =? c)%nat then 0 else -1)
  | _, _ => ret (-1)
  end.

(** A call with a string in user memory. *)
Definition with_str (f : Z -> K Z) : K Z :=
  let! r := argstr 0 in
  match r with
  | None => ret (-1)
  | Some (a, _) => f a
  end.

(** The pointer is null when the address is 0. *)
Definition name_ptr (a : Z) : option (Z -> nat -> K (list Z)) := if a =? 0 then None else Some (get_user a).

(** [lit] is the address of the literal ["shm_mutex"] in the kernel. *)
Definition sys_shm_get (lit : Z) : K Z := with_str (fun a => shm_get (name_ptr a) lit).
Definition sys_shm_rem : K Z := with_str (fun a => shm_rem (name_ptr a)).

Definition sys_mutex_init : K Z := do! mutex_init in ret 0.

(** The comparison with 0 is inside the call: the size is the comparison of [sizeof] with 0,
    that is 0, and any result but 0 is a failure. *)
Definition sys_mutex_create : K Z :=
  let! r := argptr 0 0 in
  match r with
  | None => ret (-1)
  | Some name => mutex_create name
  end.

Definition sys_mutex_delete : K Z := with_int mutex_delete.
Definition sys_mutex_lock : K Z := with_int (mutex_lock WAITS).
Definition sys_mutex_unlock : K Z := with_int mutex_unlock.
Definition sys_cv_wait : K Z := with_int cv_wait.
Definition sys_cv_signal : K Z := with_int cv_signal.

Definition sys_prio_set : K Z :=
  let! pid := argint 0 in
  let! priority := (match pid with None => ret None | Some _ => argint 1 end) in
  match pid, priority with
  | Some pid, Some priority => prio_set pid priority
  | _, _ => ret (-1)
  end.

(** ** Dispatch *)

(** [syscalls[]], indexed by the numbers of [syscall.h]; entry 0 is empty. *)
Definition syscalls (lit : Z) : list (option (K Z)) :=
  [ None; Some sys_fork; Some sys_exit; Some sys_wait; Some sys_pipe; Some sys_read; Some sys_kill;
    Some sys_exec; Some sys_fstat; Some sys_chdir; Some sys_dup; Some sys_getpid; Some sys_sbrk;
    Some sys_sleep; Some sys_uptime; Some sys_open; Some sys_write; Some sys_mknod; Some sys_unlink;
    Some sys_link; Some sys_mkdir; Some sys_close; Some sys_cm_maxproc; Some sys_cm_setroot;
    Some sys_test_newroot; Some sys_test_dotdot; Some sys_cm_create_and_enter; Some (sys_shm_get lit);
    Some sys_shm_rem; Some sys_mutex_create; Some sys_mutex_delete; Some sys_mutex_lock;
    Some sys_mutex_unlock; Some sys_cv_wait; Some sys_cv_signal; Some sys_mutex_init; Some sys_prio_set ].

(** [curproc->tf->eax = v] *)
Definition set_eax (me : nat) (v : Z) : K unit :=
  upd_proc me (fun p => p <| tf ::= fun t => t <| tf_eax := u32 v |> |>).

Definition syscall (lit : Z) : K unit :=
  let! me := mycur in
  let! p := proc_at me in
  let num := i32 (tf_eax (tf p)) in
  match (if 0 <? num then zget (syscalls lit) num else None) with
  | Some (Some f) =>
      let! v := f in
      set_eax me v
  | _ =>
      do! cputs "unknown sys call" in
      set_eax me (-1)
  end.

(** ** Traps *)

Definition T_SYSCALL : Z := 64.

(** [myproc() && myproc()->f] *)
Definition my_test (f : proc -> bool) : K bool :=
  let! cur := myproc in
  match cur with
  | None => ret false
  | Some me => let! p := proc_at me in ret (f p)
  end.

(** A process that misbehaves in user space is killed and gives up its mutexes. *)
Definition trap_kill : K unit :=
  do! cputs "trap: kill proc" in
  let! me := mycur in
  do! upd_proc me (fun p => p <| killed := 1 |>) in
  foreach (seq 0 MUX_MAXNUM) (fun i =>
    let! p := proc_at me in
    let! m := ofopt (proc_mutexes p !! i) in
    when (negb (m =? u32 (-1)))
      (let! _ := mutex_unlock (i32 m) in
       let! _ := wseq_remove (Z.of_nat i) (pid p) in
       ret tt)).

(** The interrupts; [cpu] is [cpuid()] and [chars] what the keyboard or the serial
    port delivers. *)
Definition trap_irq (tf : trapframe) (cpu : Z) (chars : list Z) : K unit :=
  let n := tf_trapno tf in
  if n =? T_IRQ0 + IRQ_TIMER then
    when (cpu =? 0)
      (do! acquire Ltickslock in
       do! modify (fun k => k <| ticks ::= fun t => u32 (t + 1) |>) in
       do! wakeup Cticks in
       release Ltickslock)
  else if (n =? T_IRQ0 + IRQ_IDE) || (n =? T_IRQ0 + IRQ_IDE + 1) then ret tt
  else if (n =? T_IRQ0 + IRQ_KBD) || (n =? T_IRQ0 + IRQ_COM1) then
    let! _ := consoleintr chars in ret tt
  else if (n =? T_IRQ0 + 7) || (n =? T_IRQ0 + IRQ_SPURIOUS) then cputs "spurious interrupt"
  else
    let! cur := myproc in
    if bool_decide (cur = None) || (Z.land (tf_cs tf) 3 =? 0) then
      do! cputs "unexpected trap" in
      panic "trap"
    else trap_kill.

Definition trap (lit : Z) (tframe : trapframe) (cpu : Z) (chars : list Z) : K unit :=
  if tf_trapno tframe =? T_SYSCALL then
    let! me := mycur in
    let! p := proc_at me in
    do! when (negb (killed p =? 0)) exit in
    do! upd_proc me (fun p => p <| tf := tframe |>) in
    do! syscall lit in
    let! p := proc_at me in
    when (negb (killed p =? 0)) exit
  else
    let user := Z.land (tf_cs tframe) 3 =? DPL_USER in
    do! trap_irq tframe cpu chars in
    let! dead := my_test (fun p => negb (killed p =? 0)) in
    do! when (dead && user) exit in
    let! run := my_test (fun p => bool_decide (state p = RUNNING)) in
    do! when (run && (tf_trapno tframe =? T_IRQ0 + IRQ_TIMER)) yield in
    let! dead := my_test (fun p => negb (killed p =? 0)) in
    when (dead && user) exit.
