(* ===== verification/Grep.v ===== *)
(** * grep

    [src/grep.c]: the matcher for patterns with [^], [.], [*] and [$], and the loop
    that reads a file through a buffer of 1023 bytes.  Strings are the lists of
    their characters before the terminating zero. *)

From S2P Require Import Prelude CString.

(** ** The matcher *)

Definition STAR : Z := 42.
Definition DOT : Z := 46.
Definition CARET : Z := 94.
Definition DOLLAR : Z := 36.

(** [matchstar(c, re, text)], with [here] for [matchhere(re, .)]. *)
Fixpoint matchstar (c : Z) (here : list Z -> bool) (text : list Z) : bool :=
  here text ||
  match text with
  | x :: text => ((x =? c) || (c =? DOT)) && matchstar c here text
  | [] => false
  end.

Fixpoint matchhere (re : list Z) : list Z -> bool :=
  match re with
  | [] => fun _ => true
  | c :: re1 =>
      match re1 with
      | s :: re2 =>
          if s =? STAR then matchstar c (matchhere re2)
          else fun text =>
            match text with
            | x :: text => ((c =? DOT) || (c =? x)) && matchhere re1 text
            | [] => false
            end
      | [] => fun text =>
          if c =? DOLLAR then bool_decide (text = [])
          else match text with
               | x :: text => ((c =? DOT) || (c =? x)) && matchhere re1 text
               | [] => false
               end
      end
  end.

(** The [do] loop of [match]. *)
Fixpoint match_any (re text : list Z) : bool :=
  matchhere re text ||
  match text with
  | _ :: text => match_any re text
  | [] => false
  end.

Definition match_ (re text : list Z) : bool :=
  match re with
  | c :: re' => if c =? CARET then matchhere re' text else match_any re text
  | [] => match_any re text
  end.

(** ** The loop over a file *)

Definition NEWLINE : Z := 10.
Definition GREP_BUF : nat := 1023.

(** [strchr(p, '\n')]: the characters before the newline and those after it; the
    search ends at a zero byte. *)
Fixpoint cut_line (p : list Z) : option (list Z * list Z) :=
  match p with
  | [] => None
  | c :: p =>
      if c =? 0 then None
      else if c =? NEWLINE then Some ([], p)
      else (fun r => (c :: r.1, r.2)) <$> cut_line p
  end.

(** The inner loop: what is written, and the pointer [p] at its end. *)
Fixpoint grep_lines (fuel : nat) (pattern p : list Z) : list Z * list Z :=
  match fuel with
  | O => ([], p)
  | S fuel =>
      match cut_line p with
      | None => ([], p)
      | Some (line, rest) =>
          let '(out, p) := grep_lines fuel pattern rest in
          ((if match_ pattern line then line ++ [NEWLINE] else []) ++ out, p)
      end
  end.

(** The outer loop: [m] are the bytes kept in the buffer and [reads] what the calls of
    [read] deliver, however they split the input; an empty one stands for 0 or an
    error, and so does the end of the list. *)
Fixpoint grep (pattern m : list Z) (reads : list (list Z)) : list Z :=
  match reads with
  | [] => []
  | chunk :: reads =>
      if (length chunk =? 0)%nat then []
      else
        let buf := m ++ chunk in
        let '(out, p) := grep_lines (length buf) pattern buf in
        let m := if bool_decide (length p = length buf) then [] else p in
        out ++ grep pattern m reads
  end.

(** ** What patterns mean *)

Inductive item := One (c : Z) | Star (c : Z).

(** The items of a pattern, and whether it ends in [$]. *)
Fixpoint parse (re : list Z) : list item * bool :=
  match re with
  | [] => ([], false)
  | c :: re1 =>
      match re1 with
      | s :: re2 =>
          if s =? STAR then let '(l, d) := parse re2 in (Star c :: l, d)
          else let '(l, d) := parse re1 in (One c :: l, d)
      | [] => if c =? DOLLAR then ([], true) else ([One c], false)
      end
  end.

Definition fits (c x : Z) : Prop := c = DOT \/ x = c.

Inductive denotes : list item -> list Z -> Prop :=
| d_nil : denotes [] []
| d_one c l x u : fits c x -> denotes l u -> denotes (One c :: l) (x :: u)
| d_skip c l u : denotes l u -> denotes (Star c :: l) u
| d_star c l x u : fits c x -> denotes (Star c :: l) u -> denotes (Star c :: l) (x :: u).

(** A text that starts with a string the items denote, all of it with [$]. *)
Definition starts (p : list item * bool) (text : list Z) : Prop :=
  exists u rest, text = u ++ rest /\ denotes p.1 u /\ (p.2 = true -> rest = []).

(** What [grep] looks for: a part of the text that the pattern denotes, at the
    beginning with [^] and at the end with [$]. *)
Definition matches (re text : list Z) : Prop :=
  match re with
  | c :: re' => if c =? CARET then starts (parse re') text else exists pre post, text = pre ++ post /\ starts (parse re) post
  | [] => True
  end.

Lemma matchstar_spec c here P text : (forall t, here t = true <-> P t) ->
  matchstar c here text = true <-> exists u t, text = u ++ t /\ Forall (fits c) u /\ P t.
Proof.
  intros Hh. induction text as [|x text IH]; cbn [matchstar]; rewrite orb_true_iff.
  - rewrite Hh. split.
    + intros [H|[=]]. exists [], []. by split_and!; [|apply Forall_nil_2|].
    + intros (u & t & E & _ & H). left. destruct u, t; try done.
  - rewrite Hh, andb_true_iff, orb_true_iff, !Z.eqb_eq, IH. split.
    + intros [H|[Hc (u & t & -> & Hu & H)]]; [exists [], (x :: text); by split_and!; [|apply Forall_nil_2|]|].
      exists (x :: u), t. split_and!; [done| |done]. apply Forall_cons. split; [|done]. unfold fits. tauto.
    + intros ([|y u] & t & E & Hu & H); [left; by rewrite E|]. injection E as <- ->. apply Forall_cons in Hu as [Hx Hu]. right.
      split; [unfold fits in Hx; tauto|]. eauto.
Qed.

Lemma denotes_star c l text : denotes (Star c :: l) text <-> exists u t, text = u ++ t /\ Forall (fits c) u /\ denotes l t.
Proof.
  split.
  - intros H. remember (Star c :: l) as p eqn:E. induction H as [|? ? ? ? ? ? IH|? ? ? H IH|? ? x u Hx H IH]; try done.
    + injection E as -> ->. exists [], u. by split_and!; [|apply Forall_nil_2|].
    + injection E as -> ->. destruct (IH eq_refl) as (u1 & t & -> & Hu & Ht). exists (x :: u1), t. split_and!; [done|by apply Forall_cons|done].
  - intros (u & t & -> & Hu & Ht). induction Hu; [by apply d_skip|by apply d_star].
Qed.

Lemma denotes_one c l text : denotes (One c :: l) text <-> exists x u, text = x :: u /\ fits c x /\ denotes l u.
Proof. split; [inversion 1; subst; eauto|]. intros (x & u & -> & Hx & Hu). by apply d_one. Qed.

Lemma starts_one c p text : starts (One c :: p.1, p.2) text <-> exists x t, text = x :: t /\ fits c x /\ starts p t.
Proof.
  unfold starts. cbn. split.
  - intros (u & rest & -> & Hu & Hr). apply denotes_one in Hu as (x & u' & -> & Hx & Hu). exists x, (u' ++ rest). split_and!; [done..|eauto].
  - intros (x & t & -> & Hx & u & rest & -> & Hu & Hr). exists (x :: u), rest. split_and!; [done|by apply d_one|done].
Qed.

Lemma starts_star c p text : starts (Star c :: p.1, p.2) text <-> exists u t, text = u ++ t /\ Forall (fits c) u /\ starts p t.
Proof.
  unfold starts. cbn. split.
  - intros (u & rest & -> & Hu & Hr). apply denotes_star in Hu as (u1 & u2 & -> & Hu1 & Hu2). exists u1, (u2 ++ rest).
    split_and!; [by rewrite app_assoc|done|eauto].
  - intros (u1 & t & -> & Hu1 & u & rest & -> & Hu & Hr). exists (u1 ++ u), rest. split_and!; [by rewrite app_assoc| |done].
    apply denotes_star. eauto.
Qed.

Lemma step_spec c here P text : (forall t, here t = true <-> P t) ->
  match text with x :: t => ((c =? DOT) || (c =? x)) && here t | [] => false end = true <-> exists x t, text = x :: t /\ fits c x /\ P t.
Proof.
  intros Hh. destruct text as [|x t]; [split; [done|by intros (? & ? & ? & _)]|].
  rewrite andb_true_iff, orb_true_iff, !Z.eqb_eq, Hh. unfold fits. split.
  - intros [Hc H]. exists x, t. split_and!; [done| |done]. destruct Hc; [by left|by right].
  - intros (? & ? & [= <- <-] & Hc & H). split; [|done]. destruct Hc; [by left|by right].
Qed.

Lemma matchhere_spec re text : matchhere re text = true <-> starts (parse re) text.
Proof.
  remember (length re) as n eqn:En. revert re En text. induction (lt_wf n) as [n _ IH]. intros re -> text.
  destruct re as [|c [|s re2]].
  - cbn. split; [|done]. intros _. exists [], text. split_and!; [done|apply d_nil|done].
  - cbn [matchhere parse]. destruct (Z.eqb_spec c DOLLAR) as [->|Hc].
    + rewrite bool_decide_eq_true. split.
      * intros ->. exists [], []. split_and!; [done|apply d_nil|done].
      * intros (u & rest & -> & Hu & Hr). inversion Hu; subst. by rewrite Hr.
    + rewrite (step_spec c (fun _ => true) (starts ([], false))).
      * symmetry. apply (starts_one c ([], false)).
      * intros t. split; [|done]. intros _. exists [], t. split_and!; [done|apply d_nil|done].
  - cbn [matchhere parse]. destruct (Z.eqb_spec s STAR) as [->|Hs].
    + rewrite (matchstar_spec c (matchhere re2) (starts (parse re2))) by (intros t; apply (IH (length re2)); cbn; lia).
      destruct (parse re2) as [l d] eqn:E. symmetry. apply (starts_star c (l, d)).
    + etrans; [apply (step_spec c (matchhere (s :: re2)) (starts (parse (s :: re2)))); intros t; apply (IH (length (s :: re2))); cbn; lia|].
      destruct (parse (s :: re2)) as [l d] eqn:E. cbn [parse] in E. rewrite E. symmetry. apply (starts_one c (l, d)).
Qed.

Lemma match_any_spec re text : match_any re text = true <-> exists pre post, text = pre ++ post /\ starts (parse re) post.
Proof.
  induction text as [|x text IH]; cbn [match_any]; rewrite orb_true_iff, matchhere_spec.
  - split.
    + intros [H|[=]]. by exists [], [].
    + intros (pre & post & E & H). left. by destruct pre, post.
  - rewrite IH. split.
    + intros [H|(pre & post & -> & H)]; [by exists [], (x :: text)|by exists (x :: pre), post].
    + intros ([|y pre] & post & E & H); [left; by rewrite E|]. injection E as <- ->. right. eauto.
Qed.

Lemma match_spec re text : match_ re text = true <-> matches re text.
Proof.
  destruct re as [|c re]; cbn [match_ matches].
  - split; [done|]. intros _. apply match_any_spec. exists [], text. split; [done|]. exists [], text. split_and!; [done|apply d_nil|done].
  - destruct (c =? CARET); [apply matchhere_spec|apply match_any_spec].
Qed.

(** ** The lines of a file *)

(** The lines that end in a newline. *)
Fixpoint lines (l : list Z) : list (list Z) * list Z :=
  match l with
  | [] => ([], [])
  | c :: l =>
      let '(ls, r) := lines l in
      if c =? NEWLINE then ([] :: ls, r)
      else match ls with x :: ls => ((c :: x) :: ls, r) | [] => ([], c :: r) end
  end.

Definition printed (pattern : list Z) (ls : list (list Z)) : list Z :=
  mjoin ((fun x => if match_ pattern x then x ++ [NEWLINE] else []) <$> ls).

Lemma cut_line_lines p : 0 ∉ p -> match cut_line p with
  | None => lines p = ([], p)
  | Some (x, rest) => lines p = (x :: (lines rest).1, (lines rest).2) /\ length p = S (length x + length rest) /\ 0 ∉ rest
  end.
Proof.
  induction p as [|c p IH]; intros H0; [done|]. apply not_elem_of_cons in H0 as [Hc H0]. specialize (IH H0). cbn [cut_line lines].
  rewrite (proj2 (Z.eqb_neq c 0)) by congruence. destruct (c =? NEWLINE).
  - destruct (lines p) as [ls r]. split_and!; [done| |done]. cbn. lia.
  - destruct (cut_line p) as [[x rest]|]; cbn [fmap option_fmap option_map fst snd]; [|by rewrite IH].
    destruct IH as (-> & Hl & Hr). split_and!; [done| |done]. cbn. lia.
Qed.

Lemma grep_lines_spec fuel pattern p : 0 ∉ p -> (length p <= fuel)%nat -> grep_lines fuel pattern p = (printed pattern (lines p).1, (lines p).2).
Proof.
  revert p. induction fuel as [|fuel IH]; intros p H0 Hp; cbn [grep_lines].
  - destruct p; [done|cbn in Hp; lia].
  - pose proof (cut_line_lines p H0) as Hc. destruct (cut_line p) as [[x rest]|]; [|by rewrite Hc].
    destruct Hc as (-> & Hl & Hr). rewrite IH by (done || lia). done.
Qed.

Lemma lines_length p : ((length (lines p).2 <= length p) /\ (length (lines p).2 = length p <-> (lines p).1 = []))%nat.
Proof.
  induction p as [|c p [IH1 IH2]]; [done|]. cbn [lines]. destruct (lines p) as [ls r]. cbn in IH1, IH2.
  destruct (c =? NEWLINE); [cbn; split; [lia|split; [lia|done]]|]. destruct ls as [|x ls]; cbn.
  - split; [lia|]. split; [done|]. intros _. f_equal. by apply IH2.
  - split; [lia|]. split; [lia|done].
Qed.

(** Reading on after a partial line. *)
Lemma lines_app p q : lines (p ++ q) = ((lines p).1 ++ (lines ((lines p).2 ++ q)).1, (lines ((lines p).2 ++ q)).2).
Proof.
  induction p as [|c p IH]; [cbn; by destruct (lines q)|]. cbn [app lines]. rewrite IH. destruct (lines p) as [ls r]. cbn [fst snd].
  destruct (Z.eqb_spec c NEWLINE) as [->|Hc]; [done|]. destruct ls as [|x ls]; [|done]. cbn [app fst snd lines].
  destruct (lines (r ++ q)) as [ls' r']. rewrite (proj2 (Z.eqb_neq _ _) Hc). by destruct ls'.
Qed.

Lemma lines_none p : (lines p).1 = [] -> lines p = ([], p).
Proof.
  induction p as [|c p IH]; [done|]. cbn [lines]. destruct (lines p) as [ls r]. destruct (c =? NEWLINE); [done|].
  destruct ls; [|done]. intros _. injection (IH eq_refl) as ->. done.
Qed.

Lemma lines_rest p : lines (lines p).2 = ([], (lines p).2).
Proof.
  induction p as [|c p IH]; [done|]. cbn [lines]. destruct (lines p) as [ls r]. cbn [snd] in IH.
  destruct (Z.eqb_spec c NEWLINE) as [->|Hc]; [done|]. destruct ls; [|done]. cbn [snd lines]. by rewrite IH, (proj2 (Z.eqb_neq _ _) Hc).
Qed.

(** A line not yet complete is the beginning of the next one. *)
Lemma partial_line_short p q : Forall (fun x => length x < GREP_BUF)%nat ((lines (p ++ q)).2 :: (lines (p ++ q)).1) ->
  (length (lines p).2 < GREP_BUF)%nat.
Proof.
  rewrite lines_app. cbn [fst snd]. set (r := (lines p).2). intros H. apply Forall_cons in H as [H1 H2]. apply Forall_app in H2 as [_ H2].
  pose proof (lines_rest p) as Hr. fold r in Hr.
  enough (Hgen : forall r, lines r = ([], r) -> exists x, ((lines (r ++ q)).1 ++ [(lines (r ++ q)).2]) !! 0%nat = Some (r ++ x)).
  { destruct (Hgen r Hr) as [x Hx]. destruct ((lines (r ++ q)).1) as [|y ys] eqn:E.
    - cbn in Hx. injection Hx as Hx. rewrite Hx, length_app in H1. lia.
    - cbn in Hx. injection Hx as ->. apply Forall_cons in H2 as [H2 _]. rewrite length_app in H2. lia. }
  clear. intros r. induction r as [|c r IH]; intros Hr.
  - cbn. destruct (lines q) as [[|x ls] r]; cbn; eauto.
  - cbn [lines app] in *. destruct (lines r) as [ls r'] eqn:E. destruct (c =? NEWLINE) eqn:Ec; [done|]. destruct ls; [|done]. injection Hr as ->.
    destruct (IH eq_refl) as [x Hx]. exists x. destruct (lines (r ++ q)) as [[|y ys] r'']; cbn in Hx |- *; congruence.
Qed.

Lemma lines_join l : mjoin ((fun x => x ++ [NEWLINE]) <$> (lines l).1) ++ (lines l).2 = l /\ Forall (fun x => NEWLINE ∉ x) ((lines l).2 :: (lines l).1).
Proof.
  induction l as [|c l [IH1 IH2]]; [split; [done|]; apply Forall_singleton, not_elem_of_nil|].
  cbn [lines]. destruct (lines l) as [ls r]. cbn [fst snd] in *. apply Forall_cons in IH2 as [Hr Hls].
  destruct (Z.eqb_spec c NEWLINE) as [->|Hc].
  - cbn [fst snd]. split; [cbn; by f_equal|]. repeat apply Forall_cons_2; [done|apply not_elem_of_nil|done].
  - destruct ls as [|x ls]; cbn [fst snd]; (split; [cbn in *; by rewrite IH1|]).
    + apply Forall_singleton, not_elem_of_cons. done.
    + apply Forall_cons in Hls as [Hx Hls]. repeat apply Forall_cons_2; [done|apply not_elem_of_cons; done|done].
Qed.

Lemma printed_app pattern l1 l2 : printed pattern (l1 ++ l2) = printed pattern l1 ++ printed pattern l2.
Proof. unfold printed. by rewrite fmap_app, join_app. Qed.

Definition short_lines (l : list Z) : Prop := Forall (fun x => length x < GREP_BUF)%nat ((lines l).2 :: (lines l).1).

(** Reads that [grep] can follow: each delivers something and no more than the buffer
    has room for after the partial line [m], and each but the last completes a
    line. *)
Fixpoint reads_ok (m : list Z) (reads : list (list Z)) : Prop :=
  match reads with
  | [] => True
  | c :: reads => c <> [] /\ (length m + length c <= GREP_BUF)%nat /\ (reads = [] \/ NEWLINE ∈ c) /\ reads_ok (lines (m ++ c)).2 reads
  end.

(** What the reads of a regular file deliver: all that is asked for, while there is
    that much. *)
Fixpoint file_reads (fuel : nat) (m file : list Z) : list (list Z) :=
  match fuel with
  | O => []
  | S fuel =>
      match file with
      | [] => []
      | _ => let n := (GREP_BUF - length m)%nat in
             take n file :: file_reads fuel (lines (m ++ take n file)).2 (drop n file)
      end
  end.

Lemma newline_line p : NEWLINE ∈ p <-> (lines p).1 <> [].
Proof.
  destruct (lines_join p) as [Hj Hn]. apply Forall_cons in Hn as [Hr _]. split.
  - intros Hin E. rewrite <- Hj, E in Hin. by apply Hr.
  - intros Hne. rewrite <- Hj. destruct (lines p).1 as [|x ls]; [done|]. cbn. rewrite !elem_of_app. left. left. right. by left.
Qed.

Lemma rest_zero p : 0 ∉ p -> 0 ∉ (lines p).2.
Proof. intros H0 Hin. apply H0. destruct (lines_join p) as [<- _]. apply elem_of_app. by right. Qed.

(** One read: with a newline in the buffer its lines are printed and the rest is kept,
    without one all of it is lost. *)
Lemma grep_step pattern m c reads : c <> [] -> 0 ∉ m ++ c ->
  grep pattern m (c :: reads) = printed pattern (lines (m ++ c)).1 ++ grep pattern (if decide (NEWLINE ∈ m ++ c) then (lines (m ++ c)).2 else []) reads.
Proof.
  intros Hc H0. cbn [grep]. destruct (Nat.eqb_spec (length c) 0) as [E|_]; [by apply nil_length_inv in E|].
  rewrite grep_lines_spec by done. f_equal. destruct (lines_length (m ++ c)) as [_ Heq]. pose proof (newline_line (m ++ c)) as Hn.
  f_equal. case_bool_decide; case_decide; [|done|done|]; exfalso; tauto.
Qed.

Lemma grep_run pattern : forall reads m, lines m = ([], m) -> 0 ∉ m ++ mjoin reads -> reads_ok m reads ->
  grep pattern m reads = printed pattern (lines (m ++ mjoin reads)).1.
Proof.
  induction reads as [|c reads IH]; intros m Hm H0 Hr; [cbn; by rewrite app_nil_r, Hm|]. destruct Hr as (Hc & _ & Hnl & Hr).
  cbn [mjoin list_join] in *. rewrite app_assoc in *. apply not_elem_of_app in H0 as [H0 H0'].
  rewrite grep_step by done. rewrite (lines_app (m ++ c) (mjoin reads)). cbn [fst]. rewrite printed_app. f_equal. case_decide as Hin.
  - apply IH; [apply lines_rest| |done]. apply not_elem_of_app. split; [by apply rest_zero|done].
  - destruct Hnl as [->|Hnl]; [|destruct Hin; apply elem_of_app; by right]. cbn. by rewrite app_nil_r, lines_rest.
Qed.

Lemma file_reads_ok : forall fuel m file, (length file <= fuel)%nat -> lines m = ([], m) -> short_lines (m ++ file) ->
  mjoin (file_reads fuel m file) = file /\ reads_ok m (file_reads fuel m file).
Proof.
  induction fuel as [|fuel IH]; intros m file Hf Hm Hs; [by destruct file; [|cbn in Hf; lia]|].
  destruct file as [|x l]; [done|]. cbn [file_reads]. set (file := x :: l) in *. set (n := (GREP_BUF - length m)%nat).
  pose proof (partial_line_short m file Hs) as Hlm. rewrite Hm in Hlm. cbn [snd] in Hlm.
  set (c := take n file). set (rest := drop n file). assert (Efile : m ++ file = (m ++ c) ++ rest) by (unfold c, rest; by rewrite <- app_assoc, take_drop).
  assert (Hlc : length c = (n `min` length file)%nat) by apply length_take. assert (Hlr : length rest = (length file - n)%nat) by apply length_drop.
  assert (Hpos : (0 < length file)%nat) by (cbn; lia).
  destruct (IH (lines (m ++ c)).2 rest) as [Hj Hr]; [lia|apply lines_rest| |].
  { rewrite Efile in Hs. unfold short_lines in *. rewrite lines_app in Hs. cbn [fst snd] in Hs. apply Forall_cons in Hs as [Hs1 Hs2]. apply Forall_app in Hs2 as [_ Hs2]. by apply Forall_cons. }
  split; [transitivity (c ++ mjoin (file_reads fuel (lines (m ++ c)).2 rest)); [done|]; rewrite Hj; apply take_drop|]. cbn [reads_ok]. split_and!; [|lia| |done].
  - intros E. apply (f_equal length) in E. rewrite Hlc in E. cbn [length] in E. lia.
  - destruct (decide (rest = [])) as [Er|Er]; [left; rewrite Er; by destruct fuel|right].
    assert (Hrest : (0 < length rest)%nat) by (destruct rest; [done|cbn; lia]). assert (Hin : NEWLINE ∈ m ++ c).
    { apply newline_line. intros E. rewrite Efile in Hs. pose proof (partial_line_short _ _ Hs) as Hl. rewrite (lines_none _ E) in Hl. cbn [snd] in Hl. rewrite length_app in Hl. lia. }
    apply elem_of_app in Hin as [Hin|]; [|done]. apply newline_line in Hin. by rewrite Hm in Hin.
Qed.

(** C24: [grep] prints the matching lines.  For an input without zero bytes, and however
    the calls of [read] split it as long as each but the last completes a line (and
    gives no more than the buffer has room for), the output is the lines that end in a
    newline and match the pattern, in order; an unterminated last line is not printed.
    The reads of a regular file are such when all its lines are shorter than the
    buffer.  A read that completes no line loses all that is in the buffer, so the
    condition is needed.  A line matches when some part of it is a string the pattern
    denotes, at its beginning for a pattern that starts with [^] and at its end for one
    that ends in [$]. *)
Theorem grep_prints_matching pattern file : 0 ∉ file ->
  (forall reads, mjoin reads = file -> reads_ok [] reads ->
    grep pattern [] reads = mjoin ((fun x => if match_ pattern x then x ++ [NEWLINE] else []) <$> (lines file).1)) /\
  (short_lines file -> mjoin (file_reads (length file) [] file) = file /\ reads_ok [] (file_reads (length file) [] file)) /\
  (forall m c reads, c <> [] -> 0 ∉ m ++ c -> NEWLINE ∉ m ++ c -> grep pattern m (c :: reads) = grep pattern [] reads) /\
  mjoin ((fun x => x ++ [NEWLINE]) <$> (lines file).1) ++ (lines file).2 = file /\ Forall (fun x => NEWLINE ∉ x) ((lines file).2 :: (lines file).1) /\
  forall x, match_ pattern x = true <-> matches pattern x.
Proof.
  intros H0. destruct (lines_join file) as [Hj Hn]. split_and!; [| | |done|done|apply match_spec].
  - intros reads <- Hr. by apply (grep_run pattern reads []).
  - intros Hs. by apply file_reads_ok.
  - intros m c reads Hc H0' Hnl. rewrite grep_step, decide_False by done.
    destruct (lines (m ++ c)).1 eqn:E; [done|]. destruct Hnl. apply newline_line. by rewrite E.
Qed.

(** The pattern [^a.*c$] on three lines that arrive in two reads, the second line in
    two parts. *)
Lemma grep_prints_matching_witness :
  grep [94; 97; 46; 42; 99; 36] [] [[97; 98; 99; 10; 98]; [99; 10; 97; 99; 10; 97]] = [97; 98; 99; 10; 97; 99; 10] /\
  matches [94; 97; 46; 42; 99; 36] [97; 98; 99].
Proof.
  destruct (grep_prints_matching [94; 97; 46; 42; 99; 36] [97; 98; 99; 10; 98; 99; 10; 97; 99; 10; 97]) as (H1 & _ & _ & _ & _ & H2).
  - apply (bool_decide_unpack _). vm_compute. exact I.
  - split; [|apply H2; reflexivity]. rewrite H1; [reflexivity|reflexivity|]. cbn. unfold GREP_BUF, NEWLINE. split_and!; [discriminate|lia|right; set_solver|discriminate|lia|by left|exact I].
Defined.
