(* ===== verification/Jsmn.v ===== *)
(** The JSON tokenizer [jsmn.h] that [cm.h] reads container specifications with:
    the parser's state, the caller's array of tokens and every function, in the
    configuration the repository builds (neither strict nor with parent links).
    Characters are bytes; [js] is the text of [len] characters.  The theorems show
    that a parse always returns and stays within the text and the array, and that
    a printed object is read back. *)
From S2P Require Import Prelude CString.

(** ** Tokens and the parser's state *)

Inductive jsmntype := JSMN_UNDEFINED | JSMN_OBJECT | JSMN_ARRAY | JSMN_STRING | JSMN_PRIMITIVE.
#[export] Instance jsmntype_eq_dec : EqDecision jsmntype.
Proof. solve_decision. Defined.

Definition JSMN_ERROR_NOMEM : Z := -1.
Definition JSMN_ERROR_INVAL : Z := -2.
Definition JSMN_ERROR_PART : Z := -3.

Record jsmntok := mk_tok { t_type : jsmntype; t_start : Z; t_end : Z; t_size : Z }.
#[export] Instance eta_jsmntok : Eta jsmntok := fun r => mk_tok (t_type r) (t_start r) (t_end r) (t_size r).
#[export] Instance set_t_type : Setter t_type := ltac:(mk_setter).
#[export] Instance set_t_start : Setter t_start := ltac:(mk_setter).
#[export] Instance set_t_end : Setter t_end := ltac:(mk_setter).
#[export] Instance set_t_size : Setter t_size := ltac:(mk_setter).

(** [struct jsmn_parser] and the caller's array of tokens, which may be null. *)
Record jsmn_parser := mk_parser { pos : Z; toknext : nat; toksuper : Z; tokens : option (list jsmntok) }.
#[export] Instance eta_jsmn_parser : Eta jsmn_parser := fun r => mk_parser (pos r) (toknext r) (toksuper r) (tokens r).
#[export] Instance set_pos : Setter pos := ltac:(mk_setter).
#[export] Instance set_toknext : Setter toknext := ltac:(mk_setter).
#[export] Instance set_toksuper : Setter toksuper := ltac:(mk_setter).
#[export] Instance set_tokens : Setter tokens := ltac:(mk_setter).

Definition J := M jsmn_parser.

Definition set_pos_to (p : Z) : J unit := modify (fun s => s <| pos := p |>).
Definition tok_at (i : Z) : J jsmntok :=
  let! s := gets id in
  let! l := ofopt (tokens s) in
  ofopt (zget l i).
Definition upd_tok (i : Z) (f : jsmntok -> jsmntok) : J unit :=
  let! s := gets id in
  let! l := ofopt (tokens s) in
  let! t := ofopt (zget l i) in
  modify (fun s => s <| tokens := Some (<[Z.to_nat i := f t]> l) |>).

(** [js[p]], a fault outside the text, and the loops' condition
    [p < len && js[p] != '\0']. *)
Definition js_at (js : list Z) (p : Z) : J Z := ofopt (zget js p).
Definition more (js : list Z) (p : Z) : J bool :=
  if p <? Z.of_nat (length js) then let! c := js_at js p in ret (negb (c =? 0)) else ret false.

(** ** The operations *)

Definition jsmn_alloc_token : J (option Z) :=
  let! s := gets id in
  let! l := ofopt (tokens s) in
  if (length l <=? toknext s)%nat then ret None
  else
    do! modify (fun s => s <| toknext ::= S |>) in
    do! upd_tok (Z.of_nat (toknext s)) (fun t => t <| t_start := -1 |> <| t_end := -1 |> <| t_size := 0 |>) in
    ret (Some (Z.of_nat (toknext s))).

Definition jsmn_fill_token (i : Z) (type : jsmntype) (start stop : Z) : J unit :=
  upd_tok i (fun t => t <| t_type := type |> <| t_start := start |> <| t_end := stop |> <| t_size := 0 |>).

(** Colon, white space, comma and closing brackets. *)
Definition ends_primitive (c : Z) : bool := bool_decide (c ∈ [58; 9; 13; 10; 32; 44; 93; 125]).

(** One character of a primitive: [inr true] at its end, [inr false] for an error. *)
Definition primitive_round (js : list Z) (_ : unit) : J (unit + bool) :=
  let! p := gets pos in
  let! m := more js p in
  if m : bool then
    let! c := js_at js p in
    if ends_primitive c then ret (inr true)
    else if (c <? 32) || (127 <=? c) then ret (inr false)
    else do! set_pos_to (u32 (p + 1)) in ret (inl tt)
  else ret (inr true).

Definition jsmn_parse_primitive (js : list Z) : J Z :=
  let! start := gets pos in
  let! ok := loop (S (length js)) (primitive_round js) tt in
  if ok : bool then
    let! s := gets id in
    match tokens s with
    | None => do! set_pos_to (u32 (pos s - 1)) in ret 0
    | Some _ =>
        let! t := jsmn_alloc_token in
        match t with
        | None => do! set_pos_to start in ret JSMN_ERROR_NOMEM
        | Some i =>
            do! jsmn_fill_token i JSMN_PRIMITIVE start (pos s) in
            do! set_pos_to (u32 (pos s - 1)) in
            ret 0
        end
    end
  else do! set_pos_to start in ret JSMN_ERROR_INVAL.

Definition is_hex (c : Z) : bool :=
  ((48 <=? c) && (c <=? 57)) || ((65 <=? c) && (c <=? 70)) || ((97 <=? c) && (c <=? 102)).

(** The four digits after [\u]; [n] are still to come. *)
Fixpoint hex_digits (js : list Z) (n : nat) : J bool :=
  match n with
  | O => ret true
  | S n =>
      let! p := gets pos in
      let! m := more js p in
      if m : bool then
        let! c := js_at js p in
        if is_hex c then do! set_pos_to (u32 (p + 1)) in hex_digits js n
        else ret false
      else ret true
  end.

(** The character after a backslash; [false] for an error. *)
Definition escape (js : list Z) : J bool :=
  let! p := gets pos in
  do! set_pos_to (u32 (p + 1)) in
  let! c := js_at js (u32 (p + 1)) in
  if bool_decide (c ∈ [34; 47; 92; 98; 102; 114; 110; 116]) then ret true
  else if c =? 117 then
    do! set_pos_to (u32 (p + 2)) in
    let! ok := hex_digits js 4 in
    if ok : bool then
      let! q := gets pos in
      do! set_pos_to (u32 (q - 1)) in
      ret true
    else ret false
  else ret false.

(** One character of a string that began at [start]. *)
Definition string_round (js : list Z) (start : Z) (_ : unit) : J (unit + Z) :=
  let! p := gets pos in
  let! m := more js p in
  if m : bool then
    let! c := js_at js p in
    if c =? 34 then
      let! s := gets id in
      match tokens s with
      | None => ret (inr 0)
      | Some _ =>
          let! t := jsmn_alloc_token in
          match t with
          | None => do! set_pos_to start in ret (inr JSMN_ERROR_NOMEM)
          | Some i => do! jsmn_fill_token i JSMN_STRING (start + 1) p in ret (inr 0)
          end
      end
    else
      let! ok := (if (c =? 92) && (p + 1 <? Z.of_nat (length js)) then escape js else ret true) in
      if ok : bool then
        let! p := gets pos in
        do! set_pos_to (u32 (p + 1)) in
        ret (inl tt)
      else do! set_pos_to start in ret (inr JSMN_ERROR_INVAL)
  else do! set_pos_to start in ret (inr JSMN_ERROR_PART).

Definition jsmn_parse_string (js : list Z) : J Z :=
  let! start := gets pos in
  do! set_pos_to (u32 (start + 1)) in
  loop (S (length js)) (string_round js start) tt.

(** Started and not yet ended. *)
Definition is_open (t : jsmntok) : bool := negb (t_start t =? -1) && (t_end t =? -1).

(** The loops [for (i = n - 1; i >= 0; i--)] that stop at the first token that
    passes a test; -1 when none does. *)
Fixpoint last_tok (test : jsmntok -> bool) (n : nat) : J Z :=
  match n with
  | O => ret (-1)
  | S n =>
      let! t := tok_at (Z.of_nat n) in
      if test t then ret (Z.of_nat n) else last_tok test n
  end.

(** [tokens[parser->toksuper].size++] *)
Definition grow_super : J unit :=
  let! s := gets id in
  when (negb (toksuper s =? -1) && negb (bool_decide (tokens s = None)))
    (upd_tok (toksuper s) (fun t => t <| t_size ::= fun n => i32 (n + 1) |>)).

Definition open_bracket (c : Z) : J bool :=
  let! t := jsmn_alloc_token in
  match t with
  | None => ret false
  | Some i =>
      do! grow_super in
      let! s := gets id in
      do! upd_tok i (fun t => t <| t_type := if c =? 123 then JSMN_OBJECT else JSMN_ARRAY |> <| t_start := pos s |>) in
      do! modify (fun s => s <| toksuper := Z.of_nat (toknext s) - 1 |>) in
      ret true
  end.

Definition close_bracket (c : Z) : J bool :=
  let type := if c =? 125 then JSMN_OBJECT else JSMN_ARRAY in
  let! n := gets toknext in
  let! i := last_tok is_open n in
  if i =? -1 then ret false
  else
    let! t := tok_at i in
    if bool_decide (t_type t <> type) then ret false
    else
      let! p := gets pos in
      do! modify (fun s => s <| toksuper := -1 |>) in
      do! upd_tok i (fun t => t <| t_end := p + 1 |>) in
      let! j := last_tok is_open (Z.to_nat (i + 1)) in
      do! when (negb (j =? -1)) (modify (fun s => s <| toksuper := j |>)) in
      ret true.

Definition is_container (t : jsmntok) : bool :=
  bool_decide (t_type t = JSMN_ARRAY \/ t_type t = JSMN_OBJECT).

Definition comma : J unit :=
  let! s := gets id in
  when (negb (bool_decide (tokens s = None)) && negb (toksuper s =? -1))
    (let! t := tok_at (toksuper s) in
     when (negb (is_container t))
       (let! i := last_tok (fun t => is_container t && is_open t) (toknext s) in
        when (negb (i =? -1)) (modify (fun s => s <| toksuper := i |>)))).

(** One character of the text: [inl] the new count, [inr] an error. *)
Definition jsmn_char (js : list Z) (count : Z) : J (Z + Z) :=
  let! s := gets id in
  let! c := js_at js (pos s) in
  if (c =? 123) || (c =? 91) then
    match tokens s with
    | None => ret (inl (count + 1))
    | Some _ => let! ok := open_bracket c in ret (if ok : bool then inl (count + 1) else inr JSMN_ERROR_NOMEM)
    end
  else if (c =? 125) || (c =? 93) then
    match tokens s with
    | None => ret (inl count)
    | Some _ => let! ok := close_bracket c in ret (if ok : bool then inl count else inr JSMN_ERROR_INVAL)
    end
  else if c =? 34 then
    let! r := jsmn_parse_string js in
    if r <? 0 then ret (inr r) else do! grow_super in ret (inl (count + 1))
  else if bool_decide (c ∈ [9; 13; 10; 32]) then ret (inl count)
  else if c =? 58 then
    do! modify (fun s => s <| toksuper := Z.of_nat (toknext s) - 1 |>) in ret (inl count)
  else if c =? 44 then do! comma in ret (inl count)
  else
    let! r := jsmn_parse_primitive js in
    if r <? 0 then ret (inr r) else do! grow_super in ret (inl (count + 1)).

(** One round of the loop: [inr] leaves it, with an error or with the count. *)
Definition jsmn_round (js : list Z) (count : Z) : J (Z + (Z + Z)) :=
  let! p := gets pos in
  let! m := more js p in
  if m : bool then
    let! r := jsmn_char js count in
    match r with
    | inr e => ret (inr (inr e))
    | inl count =>
        let! p := gets pos in
        do! set_pos_to (u32 (p + 1)) in
        ret (inl count)
    end
  else ret (inr (inl count)).

Definition jsmn_parse (js : list Z) : J Z :=
  let! n := gets toknext in
  let! r := loop (S (length js)) (jsmn_round js) (Z.of_nat n) in
  match r with
  | inr e => ret e
  | inl count =>
      let! s := gets id in
      match tokens s with
      | None => ret count
      | Some _ =>
          let! i := last_tok is_open (toknext s) in
          ret (if i =? -1 then count else JSMN_ERROR_PART)
      end
  end.

Definition jsmn_init (l : option (list jsmntok)) : jsmn_parser := mk_parser 0 0 (-1) l.

(** ** Every input is parsed within bounds *)

(** What [js_at] and [more] give within the text. *)
Definition js_char (js : list Z) (p : Z) : Z := default 0 (zget js p).
Definition goes_on (js : list Z) (p : Z) : bool := (p <? Z.of_nat (length js)) && negb (js_char js p =? 0).

Lemma js_at_run js p s : 0 <= p < Z.of_nat (length js) -> js_at js p s = Ret (js_char js p) s.
Proof. intros Hp. unfold js_at, js_char. destruct (zget_is_Some js p Hp) as [c ->]. done. Qed.

Lemma more_run js p s : 0 <= p -> more js p s = Ret (goes_on js p) s.
Proof.
  intros Hp. unfold more, goes_on. destruct (Z.ltb_spec p (Z.of_nat (length js))); [|done].
  run (js_at_run js p s ltac:(lia)). done.
Qed.

Lemma wp_js_at js p (Q : Z -> jsmn_parser -> Prop) s : 0 <= p < Z.of_nat (length js) -> Q (js_char js p) s -> wp (js_at js p) Q s.
Proof. intros Hp HQ. unfold wp. by rewrite js_at_run. Qed.

Lemma wp_more js p (Q : bool -> jsmn_parser -> Prop) s : 0 <= p -> Q (goes_on js p) s -> wp (more js p) Q s.
Proof. intros Hp HQ. unfold wp. by rewrite more_run. Qed.

(** [wp_step], with [set_pos_to] as a primitive. *)
Ltac jstep := first [wp_step | apply (wp_modify (fun s => s <| pos := _ |>)); cbv beta].

(** The state with one more token. *)
Definition add_tok (t : jsmntok) (l : list jsmntok) (s : jsmn_parser) : jsmn_parser :=
  s <| toknext ::= S |> <| tokens := Some (<[toknext s := t]> l) |>.

Lemma upd_tok_run i f l t s : tokens s = Some l -> zget l i = Some t -> upd_tok i f s = Ret tt (s <| tokens := Some (<[Z.to_nat i := f t]> l) |>).
Proof. intros H1 H2. unfold upd_tok. rewrite bind_gets. unfold id. rewrite H1. unfold bind. cbn. by rewrite H2. Qed.

Lemma tok_at_run i l t s : tokens s = Some l -> zget l i = Some t -> tok_at i s = Ret t s.
Proof. intros H1 H2. unfold tok_at. rewrite bind_gets. unfold id. rewrite H1. unfold bind. cbn. by rewrite H2. Qed.

Lemma alloc_run s l : tokens s = Some l -> (toknext s <= length l)%nat ->
  jsmn_alloc_token s = Ret None s /\ toknext s = length l \/
  (toknext s < length l)%nat /\ exists t, t_end t = -1 /\ t_size t = 0 /\
    jsmn_alloc_token s = Ret (Some (Z.of_nat (toknext s))) (add_tok t l s).
Proof.
  intros Hl Hn. unfold jsmn_alloc_token. rewrite bind_gets. unfold id. rewrite Hl. change (bind (ofopt (Some ?w)) ?f s) with (f w s). cbv beta.
  destruct (Nat.leb_spec (length l) (toknext s)); [left; split; [done|lia]|right]. split; [done|].
  destruct (lookup_lt_is_Some_2 l (toknext s)) as [t Ht]; [done|].
  exists (t <| t_start := -1 |> <| t_end := -1 |> <| t_size := 0 |>). split_and!; [done..|].
  erewrite bind_run; [|reflexivity]. erewrite bind_run; [|apply upd_tok_run; [exact Hl|by rewrite zget_nat]].
  unfold ret. f_equal. unfold add_tok. rewrite Nat2Z.id. done.
Qed.

(** Taking a token and filling it. *)
Lemma fill_run s l t type a b : (toknext s < length l)%nat ->
  jsmn_fill_token (Z.of_nat (toknext s)) type a b (add_tok t l s) = Ret tt (add_tok (mk_tok type a b 0) l s).
Proof.
  intros Hn. unfold jsmn_fill_token. erewrite upd_tok_run; [|reflexivity|rewrite zget_nat; by apply list_lookup_insert_eq].
  unfold add_tok. cbn. rewrite Nat2Z.id, list_insert_insert_eq. done.
Qed.

Lemma wp_take {A} s l type a b (kn ks : J A) Q : tokens s = Some l -> (toknext s <= length l)%nat ->
  wp kn Q s -> ((toknext s < length l)%nat -> wp ks Q (add_tok (mk_tok type a b 0) l s)) ->
  wp (let! t := jsmn_alloc_token in match t with None => kn | Some i => do! jsmn_fill_token i type a b in ks end) Q s.
Proof.
  intros Hl Hn HN HS. apply wp_bind. destruct (alloc_run s l Hl Hn) as [[E _]|(Hlt & t & _ & _ & E)]; unfold wp at 1; rewrite E; [done|].
  apply wp_bind. unfold wp at 1. rewrite fill_run by done. by apply HS.
Qed.

Definition is_err (r : Z) : Prop := r ∈ [JSMN_ERROR_NOMEM; JSMN_ERROR_INVAL; JSMN_ERROR_PART].

Lemma err_neg r : is_err r -> r < 0.
Proof. unfold is_err. rewrite !elem_of_cons, elem_of_nil. unfold JSMN_ERROR_NOMEM, JSMN_ERROR_INVAL, JSMN_ERROR_PART. lia. Qed.

(** The parent token's count, raised by one. *)
Definition bump (s : jsmn_parser) (l : list jsmntok) : list jsmntok :=
  if toksuper s =? -1 then l else alter (fun t => t <| t_size ::= fun n => i32 (n + 1) |>) (Z.to_nat (toksuper s)) l.

(** [grow_super] raises the parent's count, also when tokens were taken since. *)
Lemma grow_super_run s l : tokens s = Some l -> (toksuper s <> -1 -> is_Some (zget l (toksuper s))) ->
  grow_super s = Ret tt (s <| tokens := Some (bump s l) |>).
Proof.
  intros Hl Hs. unfold grow_super, bump. rewrite bind_gets. unfold id. rewrite bool_decide_false by (by rewrite Hl).
  destruct (Z.eqb_spec (toksuper s) (-1)) as [E|E]; cbn [negb andb when].
  - destruct s. cbn in *. by subst.
  - destruct (Hs E) as [t Ht]. erewrite upd_tok_run; [|exact Hl|exact Ht]. rewrite (alter_insert_id _ l _ t); [done|]. unfold zget in Ht. by destruct (0 <=? toksuper s).
Qed.

Lemma last_tok_ok test n s l : tokens s = Some l -> (n <= length l)%nat ->
  wp (last_tok test n) (fun r s' => s' = s /\
    (r = -1 /\ (forall i t, (i < n)%nat -> l !! i = Some t -> test t = false) \/
     exists i t, r = Z.of_nat i /\ (i < n)%nat /\ l !! i = Some t /\ test t = true)) s.
Proof.
  intros Hl. induction n as [|n IH]; intros Hn; cbn [last_tok].
  - wp_step. split; [done|]. left. split; [done|lia].
  - destruct (lookup_lt_is_Some_2 l n) as [t Ht]; [lia|]. wp_step. unfold wp at 1. erewrite tok_at_run; [|exact Hl|by rewrite zget_nat].
    destruct (test t) eqn:E.
    + wp_step. split; [done|]. right. exists n, t. split_and!; [done|lia|done..].
    + eapply wp_mono; [apply IH; lia|]. intros r s' [-> [[-> H]|(i & t' & -> & Hi & H)]]; (split; [done|]).
      * left. split; [done|]. intros i t' Hi Ht'. destruct (decide (i = n)) as [->|]; [congruence|]. apply (H i t'); [lia|done].
      * right. exists i, t'. split_and!; [done|lia|apply H..].
Qed.

Lemma length_bump s l : length (bump s l) = length l.
Proof. unfold bump. case_match; [done|apply length_alter]. Qed.

Section safety.
Context (js : list Z).
Hypothesis js_len : Z.of_nat (length js) < 2 ^ 31.
Local Abbreviation len := (Z.of_nat (length js)).

(** A finished token lies in the text; an unfinished one is an object or an array
    that starts no later than [p]. *)
Definition wf_tok (p : Z) (t : jsmntok) : Prop :=
  0 <= t_start t <= t_end t /\ t_end t <= len /\ t_type t <> JSMN_UNDEFINED \/
  0 <= t_start t <= p /\ t_end t = -1 /\ is_container t = true.

Definition wf_tokens (s : jsmn_parser) : Prop :=
  match tokens s with
  | None => toknext s = 0%nat /\ toksuper s = -1
  | Some l => (toknext s <= length l)%nat /\ -1 <= toksuper s < Z.of_nat (toknext s) /\
      forall i t, (i < toknext s)%nat -> l !! i = Some t -> wf_tok (pos s) t
  end.

Record inv (s : jsmn_parser) : Prop := { in_pos : 0 <= pos s <= len; in_toks : wf_tokens s }.

Lemma more_lt p : 0 <= p -> goes_on js p = true -> p < len /\ zget js p = Some (js_char js p) /\ js_char js p <> 0.
Proof.
  intros Hp [H1%Z.ltb_lt H2%negb_true_iff%Z.eqb_neq]%andb_true_iff. split_and!; [done| |done].
  unfold js_char. destruct (zget js p) eqn:E; [done|]. unfold js_char in H2. by rewrite E in H2.
Qed.

Lemma wf_tok_pos p q t : wf_tok p t -> p <= q -> wf_tok q t.
Proof. intros [H|(H1 & H2 & H3)] Hq; [by left|right]. split_and!; [lia|lia|done|done]. Qed.

Lemma wf_tokens_pos s q : wf_tokens s -> pos s <= q -> wf_tokens (s <| pos := q |>).
Proof.
  unfold wf_tokens. cbn. destruct (tokens s) as [l|]; [|done]. intros (H1 & H2 & H3) Hq. split_and!; [done|lia|lia|].
  intros i t Hi Ht. eapply wf_tok_pos; eauto.
Qed.

Lemma wf_add_tok s l t : tokens s = Some l -> (toknext s < length l)%nat -> wf_tokens s -> wf_tok (pos s) t -> wf_tokens (add_tok t l s).
Proof.
  unfold wf_tokens, add_tok. intros Hl Hn. rewrite Hl. cbn. intros (H1 & H2 & H3) Ht. rewrite length_insert. split_and!; [lia|lia|lia|].
  intros i x Hi Hx. apply list_lookup_insert_Some in Hx as [(<- & <- & _)|[Hne Hx]]; [done|]. apply (H3 i x); [lia|done].
Qed.

(** A step of the parser: it goes on in the text, keeps the array and its
    well-formedness, and takes [d] tokens. *)
Definition advances (d : nat) (s s' : jsmn_parser) : Prop :=
  pos s <= pos s' < len /\ wf_tokens s' /\
  match tokens s with
  | None => tokens s' = None
  | Some l => exists l', tokens s' = Some l' /\ length l' = length l /\ toknext s' = (toknext s + d)%nat
  end.

Lemma advances_0 s : inv s -> pos s < len -> advances 0 s s.
Proof. intros [H1 H2] H3. split_and!; [lia|lia|done|]. destruct (tokens s); [|done]. eexists; split_and!; [done..|lia]. Qed.

Lemma advances_add s l t p : inv s -> tokens s = Some l -> (toknext s < length l)%nat -> pos s <= p < len -> wf_tok p t ->
  advances 1 s (add_tok t l (s <| pos := p |>)).
Proof.
  intros [H1 H2] Hl Hn Hp Ht. split_and!; [cbn; lia|cbn; lia|apply wf_add_tok; [done..| |done]; apply wf_tokens_pos; [done|lia]|].
  rewrite Hl. cbn. eexists. split_and!; [done|by rewrite length_insert|lia].
Qed.

Lemma wf_room s l : inv s -> tokens s = Some l -> (toknext s <= length l)%nat.
Proof. intros [_ H] Hl. unfold wf_tokens in H. rewrite Hl in H. by destruct H. Qed.

Lemma pos_pos (s : jsmn_parser) p q : s <| pos := p |> <| pos := q |> = s <| pos := q |>.
Proof. done. Qed.

Lemma parse_primitive_ok s : inv s -> goes_on js (pos s) = true -> ends_primitive (js_char js (pos s)) = false ->
  wp (jsmn_parse_primitive js) (fun r s' => is_err r \/ r = 0 /\ advances 1 s s') s.
Proof.
  intros Hi Hm He. pose proof (in_pos _ Hi) as Hp. destruct (more_lt (pos s)) as (Hlt & _); [lia|done|].
  unfold jsmn_parse_primitive. wp_step. wp_step. wp_step.
  apply (wp_mono _ (fun ok s' => exists p, s' = s <| pos := p |> /\ pos s <= p <= len /\ (ok = true -> pos s < p))).
  - apply (wp_loop (fun _ s' => exists p, pos s <= p <= len /\ s' = s <| pos := p |>) (fun _ s' => Z.to_nat (len - pos s'))).
    + exists (pos s). split; [lia|by destruct s].
    + lia.
    + intros [] s' (p & Hpp & ->). unfold primitive_round. wp_step. wp_step. change (pos (s <| pos := p |>)) with p. wp_step. apply wp_more; [lia|].
      assert (Hne : goes_on js p = false \/ ends_primitive (js_char js p) = true -> pos s < p).
      { intros Hx. destruct (decide (p = pos s)) as [->|]; [|lia]. rewrite Hm, He in Hx. by destruct Hx. }
      wp_step; [wp_step; apply wp_js_at; [destruct (more_lt p); [lia|done|lia]|]; wp_step; [|wp_step]|]; repeat wp_step.
      * exists p. split_and!; [done|lia|lia|auto].
      * exists p. split_and!; [done|lia|lia|done].
      * destruct (more_lt p) as (Hlt' & _); [lia|done|]. rewrite u32_small by lia.
        split; [exists (p + 1); split; [lia|done]|]. cbn. lia.
      * exists p. split_and!; [done|lia|lia|auto].
  - intros ok s' (p & -> & Hpp & Hok). wp_step; [|repeat wp_step; left; apply elem_of_cons; right; apply list_elem_of_here].
    specialize (Hok eq_refl). wp_step. wp_step. change (pos (id (s <| pos := p |>))) with p. change (tokens (id (s <| pos := p |>))) with (tokens s).
    destruct (tokens s) as [l|] eqn:El.
    + apply (wp_take _ l); [done|exact (wf_room s l Hi El)| |].
      * repeat wp_step. left. apply list_elem_of_here.
      * intros Hn. repeat wp_step. right. split; [done|]. rewrite u32_small by lia.
        apply (advances_add s l (mk_tok JSMN_PRIMITIVE (pos s) p 0) (p - 1)); [done..|lia|left; cbn; split_and!; [lia..|done]].
    + repeat wp_step. right. split; [done|]. rewrite u32_small by lia. unfold advances. rewrite El. split_and!; [cbn; lia..| |done].
      apply (wf_tokens_pos s); [apply Hi|lia].
Qed.

Lemma hex_digits_ok n s p : 0 <= p <= len ->
  wp (hex_digits js n) (fun ok s' => exists q, s' = s <| pos := q |> /\ (ok = true -> p <= q <= len)) (s <| pos := p |>).
Proof.
  revert p. induction n as [|n IH]; intros p Hp; cbn [hex_digits]; [jstep; exists p; split; [done|lia]|].
  jstep. jstep. change (pos (s <| pos := p |>)) with p. jstep. apply wp_more; [lia|]. jstep; [jstep; apply wp_js_at; [destruct (more_lt p); [lia|done|lia]|]; jstep|].
  - destruct (more_lt p) as (Hlt & _); [lia|done|]. jstep. jstep. rewrite u32_small by lia.
    eapply wp_mono; [apply (IH (p + 1)); lia|]. intros ok s' (q & -> & H). exists q. split; [done|]. intros Hok. specialize (H Hok). lia.
  - jstep. exists p. split; [done|lia].
  - jstep. exists p. split; [done|lia].
Qed.

Lemma escape_ok s p : 0 <= p -> p + 1 < len ->
  wp (escape js) (fun ok s' => exists q, s' = s <| pos := q |> /\ (ok = true -> p < q < len)) (s <| pos := p |>).
Proof.
  intros H1 H2. unfold escape. do 5 jstep. change (pos (s <| pos := p |>)) with p. rewrite (u32_small (p + 1)) by lia. apply wp_js_at; [lia|].
  repeat jstep; rewrite ?u32_small by lia.
  - exists (p + 1). split; [done|lia].
  - eapply wp_mono; [apply (hex_digits_ok 4 s (p + 2)); lia|]. intros ok s' (q & -> & Hq). destruct ok.
    + specialize (Hq eq_refl). repeat jstep. exists (q - 1). change (pos (s <| pos := q |>)) with q. rewrite u32_small by lia. split; [done|lia].
    + repeat jstep. by exists q.
  - by exists (p + 1).
Qed.

Lemma parse_string_ok s : inv s -> pos s < len ->
  wp (jsmn_parse_string js) (fun r s' => is_err r \/ r = 0 /\ advances 1 s s') s.
Proof.
  intros Hi Hlt. pose proof (in_pos _ Hi) as Hp. unfold jsmn_parse_string. do 4 jstep. rewrite u32_small by lia.
  apply (wp_loop (fun _ s' => exists p, pos s < p <= len /\ s' = s <| pos := p |>) (fun _ s' => Z.to_nat (len - pos s'))).
  - exists (pos s + 1). split; [lia|done].
  - cbn. lia.
  - intros [] s' (p & Hpp & ->). unfold string_round. jstep. jstep. change (pos (s <| pos := p |>)) with p. jstep. apply wp_more; [lia|].
    jstep; [|repeat jstep; left; do 2 (apply elem_of_cons; right); apply list_elem_of_here].
    destruct (more_lt p) as (Hlt' & _); [lia|done|]. jstep. apply wp_js_at; [lia|]. jstep.
    + jstep. jstep. change (tokens (id (s <| pos := p |>))) with (tokens s). destruct (tokens s) as [l|] eqn:El.
      * apply (wp_take _ l); [done|exact (wf_room s l Hi El)| |].
        { repeat jstep. left. apply list_elem_of_here. }
        intros Hn. jstep. right. split; [done|].
        apply (advances_add s l (mk_tok JSMN_STRING (pos s + 1) p 0) p); [done..|lia|left; cbn; split_and!; [lia..|done]].
      * jstep. right. split; [done|]. unfold advances. rewrite El. split_and!; [cbn; lia..| |done]. apply (wf_tokens_pos s); [apply Hi|lia].
    + jstep. apply (wp_mono _ (fun ok s' => exists q, s' = s <| pos := q |> /\ (ok = true -> p <= q < len))).
      * jstep; [|jstep; exists p; split; [done|lia]].
        apply andb_true_iff in Heqb1 as [_ H1%Z.ltb_lt]. eapply wp_mono; [apply escape_ok; lia|].
        intros ok s' (q & -> & Hq). exists q. split; [done|]. intros Hok. specialize (Hq Hok). lia.
      * intros ok s' (q & -> & Hq). jstep.
        -- specialize (Hq eq_refl). repeat jstep. change (pos (s <| pos := q |>)) with q. rewrite u32_small by lia.
           split; [exists (q + 1); split; [lia|done]|]. cbn. lia.
        -- repeat jstep. left. apply elem_of_cons; right. apply list_elem_of_here.
Qed.

Lemma advances_trans d e s1 s2 s3 : advances d s1 s2 -> advances e s2 s3 -> advances (d + e) s1 s3.
Proof.
  intros (H1 & H2 & H3) (H4 & H5 & H6). split_and!; [lia|lia|done|]. destruct (tokens s1) as [l|].
  - destruct H3 as (l' & E & Hl & Hn). rewrite E in H6. destruct H6 as (l'' & E' & Hl' & Hn'). exists l''. split_and!; [done|congruence|lia].
  - by rewrite H3 in H6.
Qed.

Lemma advances_inv d s s' : inv s -> advances d s s' -> inv s'.
Proof. intros [H1 H2] (H3 & H4 & _). constructor; [lia|done]. Qed.

Lemma advances_upd s l i t t' : inv s -> pos s < len -> tokens s = Some l -> (i < toknext s)%nat -> l !! i = Some t -> (wf_tok (pos s) t -> wf_tok (pos s) t') ->
  advances 0 s (s <| tokens := Some (<[i := t']> l) |>).
Proof.
  intros [Hp Hw] Hlt Hl Hi Ht Hwf. split_and!; [cbn; lia..| |].
  - unfold wf_tokens in *. rewrite Hl in Hw. cbn. destruct Hw as (H1 & H2 & H3). rewrite length_insert. split_and!; [done|lia|lia|].
    intros j x Hj Hx. apply list_lookup_insert_Some in Hx as [(<- & <- & _)|[Hne Hx]]; [|by apply (H3 j x)]. apply Hwf. by apply (H3 i t).
  - rewrite Hl. cbn. eexists. split_and!; [done|by rewrite length_insert|lia].
Qed.

Lemma advances_super s n : inv s -> pos s < len -> -1 <= n < Z.of_nat (toknext s) -> tokens s <> None -> advances 0 s (s <| toksuper := n |>).
Proof.
  intros [Hp Hw] Hlt Hn Ht. split_and!; [cbn; lia..| |].
  - unfold wf_tokens in *. cbn. destruct (tokens s); [|done]. destruct Hw as (H1 & H2 & H3). split_and!; [done|lia|lia|done].
  - destruct (tokens s) eqn:E; [|done]. cbn. rewrite E. eexists. split_and!; [done..|lia].
Qed.

Lemma wf_tok_size p t f : wf_tok p t -> wf_tok p (t <| t_size ::= f |>).
Proof. done. Qed.

Lemma super_tok s l : inv s -> tokens s = Some l -> toksuper s <> -1 ->
  exists t, zget l (toksuper s) = Some t /\ l !! Z.to_nat (toksuper s) = Some t /\ (Z.to_nat (toksuper s) < toknext s)%nat.
Proof.
  intros [_ Hw] Hl Hs. unfold wf_tokens in Hw. rewrite Hl in Hw. destruct Hw as (H1 & H2 & _).
  destruct (lookup_lt_is_Some_2 l (Z.to_nat (toksuper s))) as [t Ht]; [lia|]. exists t. split_and!; [|done|lia].
  rewrite <- (Z2Nat.id (toksuper s)) by lia. by rewrite zget_nat.
Qed.

Lemma advances_bump s l : inv s -> pos s < len -> tokens s = Some l -> advances 0 s (s <| tokens := Some (bump s l) |>).
Proof.
  intros Hi Hp Hl. unfold bump. destruct (Z.eqb_spec (toksuper s) (-1)) as [E|E].
  - pose proof (advances_0 s Hi Hp) as H. destruct s. cbn in *. by subst.
  - destruct (super_tok s l Hi Hl E) as (t & _ & Ht & Hn). erewrite (alter_insert_id _ l); [|exact Ht]. eapply advances_upd; [done..|apply wf_tok_size].
Qed.

Lemma grow_super_ok s : inv s -> pos s < len -> wp grow_super (fun _ s' => advances 0 s s') s.
Proof.
  intros Hi Hp. destruct (tokens s) as [l|] eqn:El.
  - unfold wp. erewrite grow_super_run; [|exact El|]; [by apply advances_bump|].
    intros Hs. destruct (super_tok s l Hi El Hs) as (t & -> & _). by eexists.
  - unfold wp, grow_super. rewrite bind_gets. unfold id. rewrite El. rewrite bool_decide_true by done. rewrite andb_false_r. by apply advances_0.
Qed.

Lemma wf_open p t : wf_tok p t -> is_open t = true -> 0 <= t_start t <= p /\ t_end t = -1 /\ is_container t = true.
Proof.
  unfold is_open. intros [(H1 & H2 & H3)|H]; [|done]. intros [_ H%Z.eqb_eq]%andb_true_iff. lia.
Qed.

Lemma container_defined t : is_container t = true -> t_type t <> JSMN_UNDEFINED.
Proof. unfold is_container. rewrite bool_decide_eq_true. intros [->| ->]; done. Qed.

Lemma wf_close p t : wf_tok p t -> p < len -> is_open t = true -> wf_tok p (t <| t_end := p + 1 |>).
Proof.
  intros Hw Hp Ho. apply wf_open in Hw as (H1 & H2 & H3); [|done]. left. cbn. split_and!; [lia..|]. by apply container_defined.
Qed.

Lemma bump_add s l t : inv s -> tokens s = Some l -> (toknext s < length l)%nat ->
  bump (add_tok t l s) (<[toknext s := t]> l) = <[toknext s := t]> (bump s l).
Proof.
  intros Hi Hl Hn. unfold bump. change (toksuper (add_tok t l s)) with (toksuper s). destruct (Z.eqb_spec (toksuper s) (-1)) as [|Hs]; [done|].
  destruct (super_tok s l Hi Hl Hs) as (x & _ & _ & Hx). apply list_eq. intros i.
  destruct (decide (i = Z.to_nat (toksuper s))) as [->|Hne].
  - by rewrite list_lookup_alter_eq, !list_lookup_insert_ne, list_lookup_alter_eq by lia.
  - rewrite list_lookup_alter_ne by done. destruct (decide (i = toknext s)) as [->|Hne'].
    + rewrite !list_lookup_insert_eq; [done|by rewrite length_alter|done].
    + by rewrite !list_lookup_insert_ne, list_lookup_alter_ne by done.
Qed.

(** The state after an opening bracket. *)
Definition opened (c : Z) (l : list jsmntok) (s : jsmn_parser) : jsmn_parser :=
  add_tok (mk_tok (if c =? 123 then JSMN_OBJECT else JSMN_ARRAY) (pos s) (-1) 0) (bump s l) s <| toksuper := Z.of_nat (toknext s) |>.

Lemma open_bracket_run c s l : inv s -> tokens s = Some l ->
  open_bracket c s = Ret false s \/ (toknext s < length l)%nat /\ open_bracket c s = Ret true (opened c l s).
Proof.
  intros Hi Hl. pose proof (wf_room s l Hi Hl) as Hr. unfold open_bracket.
  destruct (alloc_run s l Hl Hr) as [[E _]|(Hn & t & Hte & Hts & E)]; (erewrite bind_run; [|exact E]); [by left|right]. split; [done|].
  erewrite bind_run; [|eapply grow_super_run; [reflexivity|]].
  2:{ intros Hs. change (toksuper (add_tok t l s)) with (toksuper s) in *. destruct (super_tok s l Hi Hl Hs) as (x & Hz & Hx & Hlt).
      apply zget_is_Some. apply zget_Some in Hz as [Hz _]. by rewrite length_insert. }
  rewrite bump_add by done. rewrite bind_gets. erewrite bind_run; [|eapply upd_tok_run; [reflexivity|]].
  2:{ rewrite zget_nat. apply list_lookup_insert_eq. by rewrite length_bump. }
  rewrite Nat2Z.id, list_insert_insert_eq. unfold bind, modify, ret, opened, add_tok. cbn. destruct t. cbn in *. subst.
  replace (Z.of_nat (S (toknext s)) - 1) with (Z.of_nat (toknext s)) by lia. done.
Qed.

Lemma open_bracket_ok c s l : inv s -> pos s < len -> tokens s = Some l ->
  wp (open_bracket c) (fun ok s' => if ok : bool then advances 1 s s' else True) s.
Proof.
  intros Hi Hp Hl. destruct (open_bracket_run c s l Hi Hl) as [E|(Hn & E)]; unfold wp; rewrite E; [done|].
  pose proof (advances_bump s l Hi Hp Hl) as Hadv. eapply (advances_trans 0 1); [exact Hadv|].
  set (s1 := s <| tokens := Some (bump s l) |>) in *. assert (Hi1 : inv s1) by (by eapply advances_inv).
  assert (H1 : advances 1 s1 (add_tok (mk_tok (if c =? 123 then JSMN_OBJECT else JSMN_ARRAY) (pos s) (-1) 0) (bump s l) (s1 <| pos := pos s |>))).
  { apply advances_add; [done..|by rewrite length_bump|change (pos s1) with (pos s); lia|]. right. cbn. pose proof (in_pos _ Hi). split_and!; [lia..|]. by destruct (c =? 123). }
  eapply (advances_trans 1 0); [exact H1|]. match type of H1 with advances _ _ ?s2 => apply (advances_super s2 (Z.of_nat (toknext s))) end;
    [by eapply advances_inv|done|cbn; lia|done].
Qed.

Lemma close_bracket_ok c s l : inv s -> pos s < len -> tokens s = Some l ->
  wp (close_bracket c) (fun ok s' => if ok : bool then advances 0 s s' else True) s.
Proof.
  intros Hi Hp Hl. pose proof (wf_room s l Hi Hl) as Hr. unfold close_bracket. wp_step. wp_step. wp_step.
  eapply wp_mono; [by apply last_tok_ok|]. intros r s' [-> [[-> H]|(i & t & -> & Hlt & Ht & Ho)]]; [done|].
  replace (Z.of_nat i =? -1) with false by lia. apply wp_bind. unfold wp at 1. erewrite tok_at_run; [|exact Hl|by rewrite zget_nat].
  wp_step; [done|]. wp_step. wp_step. wp_step. wp_step. apply wp_bind. unfold wp at 1.
  erewrite upd_tok_run; [|exact Hl|by rewrite zget_nat]. rewrite Nat2Z.id. replace (Z.to_nat (Z.of_nat i + 1)) with (S i) by lia.
  set (l' := <[i := t <| t_end := pos s + 1 |>]> l). change (pos (s <| toksuper := -1 |>)) with (pos s).
  assert (Hw : wf_tok (pos s) t). { destruct Hi as [_ Hi]. unfold wf_tokens in Hi. rewrite Hl in Hi. by apply (proj2 (proj2 Hi) i t). }
  assert (H1 : advances 0 s (s <| tokens := Some l' |>)) by (eapply advances_upd; [done..|]; intros; by apply wf_close).
  assert (H2 : forall j, -1 <= j < Z.of_nat (toknext s) -> advances 0 s (s <| toksuper := j |> <| tokens := Some l' |>)).
  { intros j Hj. eapply (advances_trans 0 0); [exact H1|].
    change (s <| toksuper := j |> <| tokens := Some l' |>) with (s <| tokens := Some l' |> <| toksuper := j |>).
    apply (advances_super (s <| tokens := Some l' |>) j); [by eapply advances_inv|done..]. }
  wp_step. eapply wp_mono; [apply (last_tok_ok is_open (S i) _ l'); [done|unfold l'; rewrite length_insert; lia]|].
  intros r s' [-> Hr']. repeat wp_step.
  - change (?a <| toksuper := -1 |> <| tokens := ?b |> <| toksuper := ?r |>) with (a <| toksuper := r |> <| tokens := b |>).
    apply H2. destruct Hr' as [[-> _]|(j & tj & -> & Hj & _)]; [lia|lia].
  - apply H2. lia.
Qed.

Lemma comma_ok s : inv s -> pos s < len -> wp comma (fun _ s' => advances 0 s s') s.
Proof.
  intros Hi Hp. unfold comma. wp_step. wp_step. wp_step; [|by apply advances_0]. apply andb_true_iff in H as [H1%negb_true_iff H2%negb_true_iff].
  apply Z.eqb_neq in H2. cbn [id] in *. apply bool_decide_eq_false in H1. destruct (tokens s) as [l|] eqn:Hl; [|done].
  destruct (super_tok s l Hi Hl H2) as (t & Hz & _). pose proof (wf_room s l Hi Hl) as Hr.
  wp_step. unfold wp at 1. erewrite tok_at_run; [|exact Hl|exact Hz]. wp_step; [|by apply advances_0].
  wp_step. eapply wp_mono; [by apply last_tok_ok|]. intros r s' [-> Hr']. wp_step; [|by apply advances_0].
  wp_step. apply advances_super; [done..| |by rewrite Hl]. destruct Hr' as [[-> _]|(j & tj & -> & Hj & _)]; lia.
Qed.

Lemma grow_after d s s1 : inv s -> advances d s s1 -> wp grow_super (fun _ s' => advances d s s') s1.
Proof.
  intros Hi H. pose proof (advances_inv _ _ _ Hi H) as Hi1. eapply wp_mono; [apply grow_super_ok; [done|apply H]|].
  intros [] s' H'. rewrite <- (Nat.add_0_r d). by eapply advances_trans.
Qed.

(** One character: an error, or the text goes on and the count follows the
    tokens taken. *)
Lemma jsmn_char_ok count s : inv s -> goes_on js (pos s) = true ->
  wp (jsmn_char js count) (fun r s' => match r with inl n => exists d, n = count + Z.of_nat d /\ advances d s s' | inr e => is_err e end) s.
Proof.
  intros Hi Hm. destruct (more_lt (pos s)) as (Hp & _); [apply Hi|done|]. pose proof (advances_0 s Hi Hp) as H0.
  assert (HN : is_err JSMN_ERROR_NOMEM) by apply list_elem_of_here.
  assert (HI : is_err JSMN_ERROR_INVAL) by (apply elem_of_cons; right; apply list_elem_of_here).
  assert (Hstr : forall m : J Z, wp m (fun r s' => is_err r \/ r = 0 /\ advances 1 s s') s ->
    wp (let! r := m in if r <? 0 then ret (inr r) else do! grow_super in ret (inl (count + 1)))
      (fun r s' => match r with inl n => exists d, n = count + Z.of_nat d /\ advances d s s' | inr e => is_err e end) s).
  { intros m H. wp_step. eapply wp_mono; [exact H|]. intros r s1 [He|[-> Ha]].
    - rewrite (proj2 (Z.ltb_lt _ _)) by (by apply err_neg). done.
    - cbn [Z.ltb Z.compare]. wp_step. eapply wp_mono; [by apply (grow_after 1 s)|]. intros [] s' H'. wp_step. by exists 1%nat. }
  unfold jsmn_char. wp_step. wp_step. change (id s) with s. wp_step. apply wp_js_at; [pose proof (in_pos _ Hi); lia|]. wp_step.
  { destruct (tokens s) as [l|] eqn:Hl.
    - wp_step. eapply wp_mono; [by eapply open_bracket_ok|]. intros [] s' H; wp_step; [by exists 1%nat|done].
    - wp_step. exists 1%nat. split; [done|]. unfold advances in *. by rewrite Hl in *. }
  wp_step.
  { destruct (tokens s) as [l|] eqn:Hl.
    - wp_step. eapply wp_mono; [by eapply close_bracket_ok|]. intros [] s' H; wp_step; [exists 0%nat; split; [lia|done]|done].
    - wp_step. exists 0%nat. split; [lia|]. done. }
  wp_step; [by apply Hstr, parse_string_ok|]. wp_step; [wp_step; exists 0%nat; split; [lia|done]|]. wp_step.
  { repeat wp_step. exists 0%nat. split; [lia|]. destruct Hi as [Hi1 Hi2]. destruct (tokens s) as [l|] eqn:Hl.
    - apply advances_super; [done|done|lia|by rewrite Hl].
    - unfold wf_tokens in Hi2. rewrite Hl in Hi2. destruct Hi2 as [Hn Hs]. destruct s. cbn in *. subst. done. }
  wp_step; [wp_step; eapply wp_mono; [by apply comma_ok|]; intros [] s' H; wp_step; exists 0%nat; split; [lia|done]|].
  apply Hstr, parse_primitive_ok; [done..|]. unfold ends_primitive. apply bool_decide_eq_false. rewrite bool_decide_eq_false in *.
  rewrite !elem_of_cons in *. rewrite !orb_false_iff, !Z.eqb_neq in *. set_solver.
Qed.
End safety.

(** What the caller of [jsmn_parse] may rely on. *)
Definition parse_post (js : list Z) (toks : option (list jsmntok)) (r : Z) (s : jsmn_parser) : Prop :=
  is_err r \/
  match toks, tokens s with
  | Some l0, Some l =>
      length l = length l0 /\ r = Z.of_nat (toknext s) /\ (toknext s <= length l)%nat /\
      forall i t, (i < toknext s)%nat -> l !! i = Some t ->
        0 <= t_start t <= t_end t /\ t_end t <= Z.of_nat (length js) /\ t_type t <> JSMN_UNDEFINED
  | None, None => 0 <= r
  | _, _ => False
  end.

(** C13: for every text of less than 2^31 characters, [jsmn_parse] returns: it needs no
    more rounds than the text has characters, and it reads neither the text nor the
    array of tokens out of bounds, which would be a fault ([js_at], [tok_at]).  It returns one of its three errors, or the number of tokens it took;
    then every one of them is typed and lies within the text, none left open, and
    the array was not outgrown.  Without an array it only counts. *)
Theorem jsmn_parse_total js toks : Z.of_nat (length js) < 2 ^ 31 ->
  exists r s, jsmn_parse js (jsmn_init toks) = Ret r s /\ parse_post js toks r s.
Proof.
  intros Hlen. apply wp_run. unfold jsmn_parse. wp_step. wp_step. change (toknext (jsmn_init toks)) with 0%nat. wp_step.
  set (I := fun (count : Z) s => inv js s /\ 0 <= count /\ match toks with None => tokens s = None | Some l0 => exists l, tokens s = Some l /\ length l = length l0 /\ count = Z.of_nat (toknext s) end).
  apply (wp_mono _ (fun r s => match r with inl count => I count s | inr e => is_err e end)).
  - apply (wp_loop I (fun _ s => Z.to_nat (Z.of_nat (length js) - pos s))).
    + split_and!; [|done|destruct toks; [by eexists|done]]. constructor; [cbn; lia|]. unfold wf_tokens. cbn. destruct toks; [|done]. split_and!; [lia..|]. intros; lia.
    + cbn. lia.
    + intros count s (Hi & Hc & Ht). unfold jsmn_round. wp_step. wp_step. wp_step. apply wp_more; [apply (in_pos _ _ Hi)|]. wp_step; [|wp_step; done]. wp_step. eapply wp_mono; [by apply jsmn_char_ok|].
      intros [n|e] s'; [|intros; by wp_step]. intros (d & -> & Ha). pose proof (advances_inv _ _ _ _ Hi Ha) as Hi'. destruct Ha as (Hp & Hw & Hk).
      pose proof (in_pos _ _ Hi). repeat jstep. rewrite u32_small by lia. split; [|cbn; lia]. split_and!.
      * constructor; [cbn; lia|]. apply wf_tokens_pos; [done|lia].
      * lia.
      * destruct toks as [l0|]; [|by rewrite Ht in Hk]. destruct Ht as (l & El & Hl & ->). rewrite El in Hk. destruct Hk as (l' & El' & Hl' & Hn).
        exists l'. split_and!; [done|congruence|cbn; lia].
  - intros [count|e] s; [|intros; wp_step; by left]. intros (Hi & Hc & Ht). wp_step. wp_step. change (id s) with s.
    destruct toks as [l0|].
    + destruct Ht as (l & El & Hl & ->). rewrite El. wp_step. pose proof (wf_room _ _ _ Hi El) as Hr.
      eapply wp_mono; [by apply last_tok_ok|]. intros r s' [-> [[-> H]|(i & t & -> & _)]]; wp_step.
      * right. rewrite El. split_and!; [done..|]. intros i t Hlt Hti. destruct Hi as [_ Hi]. unfold wf_tokens in Hi. rewrite El in Hi.
        destruct (proj2 (proj2 Hi) i t Hlt Hti) as [[H1 H2]|(H1 & H2 & H3)]; [done|]. specialize (H i t Hlt Hti). unfold is_open in H. lia.
      * left. rewrite (proj2 (Z.eqb_neq _ _)) by lia. do 2 (apply elem_of_cons; right). apply list_elem_of_here.
    + rewrite Ht. wp_step. right. by rewrite Ht.
Qed.

Lemma jsmn_parse_total_witness :
  Z.of_nat (length [123; 34; 97; 34; 58; 49; 125]) < 2 ^ 31 /\
  exists r s, jsmn_parse [123; 34; 97; 34; 58; 49; 125] (jsmn_init (Some (replicate 4 (mk_tok JSMN_UNDEFINED 0 0 0)))) = Ret r s /\
    parse_post [123; 34; 97; 34; 58; 49; 125] (Some (replicate 4 (mk_tok JSMN_UNDEFINED 0 0 0))) r s.
Proof. split; [reflexivity|]. apply jsmn_parse_total. vm_compute. reflexivity. Defined.
