(* ===== verification/Json.v ===== *)
(** A printed JSON object is read back by [jsmn_parse] (file [Jsmn]).  An object of
    [n] fields, each a quoted key and a quoted or bare value, is written with [": "]
    and [", "] between its parts, the way the repository's [cmspec.json] files are;
    the parse takes one token for the object and two for each field.  [rounds] is a
    number of iterations of the parser's loop; the lemmas give the iterations of
    each part of the text, and the theorem puts them together. *)
From S2P Require Import Prelude CString Jsmn.

(** ** A printed object is read back *)

Inductive jvalue := VStr (s : list Z) | VPrim (s : list Z).

Definition value_text (v : jvalue) : list Z := match v with VStr s => 34 :: s ++ [34] | VPrim s => s end.
Definition field_text (f : list Z * jvalue) : list Z := 34 :: f.1 ++ [34; 58; 32] ++ value_text f.2.

(** The fields after the first, each behind a comma and a space. *)
Definition fields_text (fs : list (list Z * jvalue)) : list Z := concat (map (fun f => [44; 32] ++ field_text f) fs).
Definition object_text (fs : list (list Z * jvalue)) : list Z :=
  123 :: match fs with [] => [] | f :: fs => field_text f ++ fields_text fs end ++ [125].

Definition value_token (o : Z) (v : jvalue) : jsmntok :=
  match v with
  | VStr s => mk_tok JSMN_STRING (o + 1) (o + 1 + Z.of_nat (length s)) 0
  | VPrim s => mk_tok JSMN_PRIMITIVE o (o + Z.of_nat (length s)) 0
  end.
Definition field_tokens (o : Z) (f : list Z * jvalue) : list jsmntok :=
  [mk_tok JSMN_STRING (o + 1) (o + 1 + Z.of_nat (length f.1)) 1; value_token (o + Z.of_nat (length f.1) + 4) f.2].
Fixpoint fields_tokens (o : Z) (fs : list (list Z * jvalue)) : list jsmntok :=
  match fs with
  | [] => []
  | f :: fs => field_tokens o f ++ fields_tokens (o + Z.of_nat (length (field_text f)) + 2) fs
  end.

(** The text a token stands for. *)
Definition slice (js : list Z) (t : jsmntok) : list Z := take (Z.to_nat (t_end t - t_start t)) (drop (Z.to_nat (t_start t)) js).

Definition str_ok (s : list Z) : Prop := Forall (fun c => c ∉ [0; 34; 92]) s.
Definition prim_ok (s : list Z) : Prop :=
  Forall (fun c => 32 < c < 127 /\ ends_primitive c = false) s /\
  match s with [] => False | c :: _ => c ∉ [34; 91; 123] end.
Definition value_ok (v : jvalue) : Prop := match v with VStr s => str_ok s | VPrim s => prim_ok s end.
Definition field_ok (f : list Z * jvalue) : Prop := str_ok f.1 /\ value_ok f.2.

Lemma js_at_app js pre x post p s : js = pre ++ x :: post -> p = Z.of_nat (length pre) -> js_at js p s = Ret x s.
Proof. intros -> ->. unfold js_at. by rewrite zget_nat, list_lookup_middle. Qed.

Lemma more_app js pre x post p s : js = pre ++ x :: post -> p = Z.of_nat (length pre) -> x <> 0 -> more js p s = Ret true s.
Proof.
  intros Hjs Hp Hx. unfold more. rewrite (proj2 (Z.ltb_lt _ _)) by (subst; rewrite length_app; cbn [length]; lia).
  run (js_at_app js pre x post p s Hjs Hp). by rewrite (proj2 (Z.eqb_neq _ _) Hx).
Qed.

Definition closed (t : jsmntok) : Prop := is_open t = false.

Lemma field_tokens_closed o f : 0 <= o -> Forall closed (field_tokens o f).
Proof.
  intros Ho. unfold field_tokens. rewrite !Forall_cons. unfold closed, is_open. split_and!; [..|constructor]; apply andb_false_iff; right; apply Z.eqb_neq; [cbn; lia|].
  destruct (snd f); cbn; lia.
Qed.

Lemma fields_text_length fs : (6 * length fs <= length (fields_text fs))%nat.
Proof.
  induction fs as [|f fs IH]; [done|]. change (fields_text (f :: fs)) with (44 :: 32 :: field_text f ++ fields_text fs).
  unfold field_text at 1. cbn [length app]. rewrite !length_app. cbn [length]. lia.
Qed.

Lemma fields_tokens_closed fs : forall o, 0 <= o -> Forall closed (fields_tokens o fs).
Proof. induction fs as [|f fs IH]; intros o Ho; [constructor|]. cbn [fields_tokens]. apply Forall_app. split; [by apply field_tokens_closed|]. apply IH. lia. Qed.

Lemma fields_tokens_length fs : forall o, length (fields_tokens o fs) = (2 * length fs)%nat.
Proof. induction fs as [|f fs IH]; intros o; [done|]. cbn [fields_tokens]. rewrite length_app, IH. cbn. lia. Qed.

Section reads.
Context (js : list Z).
Hypothesis js_len : Z.of_nat (length js) < 2 ^ 31.

(** [k] rounds of the parser's loop. *)
Definition rounds (k : nat) (c : Z) (s : jsmn_parser) (c' : Z) (s' : jsmn_parser) : Prop :=
  forall n, loop (k + n) (jsmn_round js) c s = loop n (jsmn_round js) c' s'.

Lemma rounds_trans k1 k2 c1 s1 c2 s2 c3 s3 : rounds k1 c1 s1 c2 s2 -> rounds k2 c2 s2 c3 s3 -> rounds (k1 + k2) c1 s1 c3 s3.
Proof. intros H1 H2 n. by rewrite <- Nat.add_assoc, H1, H2. Qed.

Lemma round_one c s c' s' x pre post : js = pre ++ x :: post -> pos s = Z.of_nat (length pre) -> x <> 0 ->
  jsmn_char js c s = Ret (inl c') s' -> 0 <= pos s' < Z.of_nat (length js) -> rounds 1 c s c' (s' <| pos := pos s' + 1 |>).
Proof.
  intros Hjs Hp Hx Hc Hp' n. cbn [loop Nat.add]. erewrite bind_run with (a := inl c') (s' := s' <| pos := pos s' + 1 |>); [reflexivity|]. unfold jsmn_round. rewrite bind_gets.
  erewrite bind_run; [|by apply (more_app js pre x post)]. cbv iota. erewrite bind_run; [|exact Hc]. cbv iota beta. rewrite bind_gets. unfold set_pos_to, bind, modify, ret.
  by rewrite u32_small by lia.
Qed.

(** The loop over a string's characters. *)
Lemma string_scan str : forall pre post l s start fuel, str_ok str -> js = pre ++ str ++ 34 :: post -> (length str < fuel)%nat ->
  tokens s = Some l -> (toknext s < length l)%nat ->
  loop fuel (string_round js start) tt (s <| pos := Z.of_nat (length pre) |>) =
  Ret 0 (add_tok (mk_tok JSMN_STRING (start + 1) (Z.of_nat (length pre + length str)) 0) l (s <| pos := Z.of_nat (length pre + length str) |>)).
Proof.
  induction str as [|c str IH]; intros pre post l s start [|fuel] Hok Hjs Hf Hl Hn; [cbn in Hf; lia| |cbn in Hf; lia|].
  - cbn [loop]. erewrite bind_run with (a := inr 0); [reflexivity|]. unfold string_round. rewrite bind_gets. change (pos (s <| pos := ?p |>)) with p.
    erewrite bind_run; [|by apply (more_app js pre 34 post)]. cbv iota. erewrite bind_run; [|by apply (js_at_app js pre 34 post)]. cbn [Z.eqb Pos.eqb].
    rewrite bind_gets. change (tokens (id (s <| pos := _ |>))) with (tokens s). rewrite Hl.
    destruct (alloc_run (s <| pos := Z.of_nat (length pre) |>) l) as [[_ E]|(_ & t & _ & _ & E)]; [done|cbn; lia|cbn in E; lia|].
    erewrite bind_run; [|exact E]. cbv iota beta. erewrite bind_run; [|by apply (fill_run (s <| pos := Z.of_nat (length pre) |>))]. unfold ret. cbn [length]. by rewrite Nat.add_0_r.
  - apply Forall_cons in Hok as [Hc Hok]. rewrite !not_elem_of_cons in Hc.
    cbn [loop]. erewrite bind_run with (a := inl tt) (s' := s <| pos := Z.of_nat (length (pre ++ [c])) |>).
    + rewrite (IH (pre ++ [c]) post l s start fuel Hok); [|rewrite Hjs, <- app_assoc; done|cbn in Hf; lia|done|done].
      rewrite length_app. cbn [length]. by rewrite <- Nat.add_assoc.
    + unfold string_round. rewrite bind_gets. change (pos (s <| pos := ?p |>)) with p.
      erewrite bind_run; [|apply (more_app js pre c (str ++ 34 :: post)); (done || lia)]. cbv iota. erewrite bind_run; [|by apply (js_at_app js pre c (str ++ 34 :: post))].
      rewrite (proj2 (Z.eqb_neq c 34)) by lia. rewrite (proj2 (Z.eqb_neq c 92)) by lia. cbn [andb].
      unfold bind, gets, ret, set_pos_to, modify. cbn. rewrite length_app. cbn [length]. subst js. rewrite !length_app in js_len. cbn in js_len. rewrite u32_small by lia.
      by replace (Z.of_nat (length pre + 1)) with (Z.of_nat (length pre) + 1) by lia.
Qed.

Lemma parse_string_run s l pre str post : str_ok str -> js = pre ++ 34 :: str ++ 34 :: post -> pos s = Z.of_nat (length pre) ->
  tokens s = Some l -> (toknext s < length l)%nat ->
  jsmn_parse_string js s = Ret 0 (add_tok (mk_tok JSMN_STRING (pos s + 1) (pos s + 1 + Z.of_nat (length str)) 0) l (s <| pos := pos s + 1 + Z.of_nat (length str) |>)).
Proof.
  intros Hok Hjs Hp Hl Hn. unfold jsmn_parse_string. rewrite bind_gets. unfold set_pos_to. erewrite bind_run; [|reflexivity].
  assert (Hlen : (length pre + length str + 2 <= length js)%nat) by (subst js; rewrite !length_app; cbn; rewrite length_app; cbn; lia).
  rewrite u32_small by lia.
  pose proof (string_scan str (pre ++ [34]) post l s (pos s) (S (length js)) Hok) as E. rewrite <- app_assoc, length_app in E. cbn [length app] in E.
  replace (Z.of_nat (length pre + 1)) with (pos s + 1) in E by lia.
  replace (Z.of_nat (length pre + 1 + length str)) with (pos s + 1 + Z.of_nat (length str)) in E by lia.
  apply E; [done|lia|done|done].
Qed.

(** The loop over a primitive's characters. *)
Lemma primitive_scan str : forall pre post s fuel x, Forall (fun c => 32 < c < 127 /\ ends_primitive c = false) str ->
  js = pre ++ str ++ x :: post -> ends_primitive x = true -> x <> 0 -> (length str < fuel)%nat ->
  loop fuel (primitive_round js) tt (s <| pos := Z.of_nat (length pre) |>) = Ret true (s <| pos := Z.of_nat (length pre + length str) |>).
Proof.
  induction str as [|c str IH]; intros pre post s [|fuel] x Hok Hjs Hx Hx0 Hf; [cbn in Hf; lia| |cbn in Hf; lia|].
  - cbn [loop]. erewrite bind_run with (a := inr true); [reflexivity|]. unfold primitive_round. rewrite bind_gets. change (pos (s <| pos := ?p |>)) with p.
    erewrite bind_run; [|by apply (more_app js pre x post)]. cbv iota. erewrite bind_run; [|by apply (js_at_app js pre x post)]. rewrite Hx. unfold ret. cbn [length]. by rewrite Nat.add_0_r.
  - apply Forall_cons in Hok as [[Hc He] Hok].
    cbn [loop]. erewrite bind_run with (a := inl tt) (s' := s <| pos := Z.of_nat (length (pre ++ [c])) |>).
    + rewrite (IH (pre ++ [c]) post s fuel x Hok); [|rewrite Hjs, <- app_assoc; done|done|done|cbn in Hf; lia].
      rewrite length_app. cbn [length]. by rewrite <- Nat.add_assoc.
    + unfold primitive_round. rewrite bind_gets. change (pos (s <| pos := ?p |>)) with p.
      erewrite bind_run; [|apply (more_app js pre c (str ++ x :: post)); (done || lia)]. cbv iota. erewrite bind_run; [|by apply (js_at_app js pre c (str ++ x :: post))]. rewrite He.
      rewrite (proj2 (Z.ltb_ge c 32)), (proj2 (Z.leb_gt 127 c)) by lia. cbn [orb].
      unfold bind, ret, set_pos_to, modify. rewrite length_app. cbn [length]. subst js. rewrite !length_app in js_len. cbn in js_len. rewrite u32_small by lia.
      by replace (Z.of_nat (length pre + 1)) with (Z.of_nat (length pre) + 1) by lia.
Qed.

Lemma parse_primitive_run s l pre str post x : prim_ok str -> js = pre ++ str ++ x :: post -> ends_primitive x = true -> x <> 0 ->
  pos s = Z.of_nat (length pre) -> tokens s = Some l -> (toknext s < length l)%nat ->
  jsmn_parse_primitive js s = Ret 0 (add_tok (mk_tok JSMN_PRIMITIVE (pos s) (pos s + Z.of_nat (length str)) 0) l (s <| pos := pos s + Z.of_nat (length str) - 1 |>)).
Proof.
  intros [Hok Hne] Hjs Hx Hx0 Hp Hl Hn. unfold jsmn_parse_primitive. rewrite bind_gets.
  assert (Hlen : (length pre + length str < length js)%nat) by (subst js; rewrite !length_app; cbn; lia).
  assert (Hs : (0 < length str)%nat) by (destruct str; [done|cbn; lia]).
  assert (Hs0 : s = s <| pos := Z.of_nat (length pre) |>) by (destruct s; cbn in *; by subst).
  assert (E0 : loop (S (length js)) (primitive_round js) tt s = Ret true (s <| pos := Z.of_nat (length pre + length str) |>)).
  { rewrite Hs0 at 1. apply (primitive_scan str pre post s _ x); [done..|lia]. }
  erewrite bind_run; [|exact E0]. cbv iota beta.
  rewrite bind_gets. change (tokens (id (s <| pos := _ |>))) with (tokens s). rewrite Hl.
  change (pos (id (s <| pos := ?p |>))) with p. set (s1 := s <| pos := Z.of_nat (length pre + length str) |>).
  destruct (alloc_run s1 l) as [[_ E]|(_ & t & _ & _ & E)]; [done|cbn; lia|cbn in E; lia|].
  erewrite bind_run; [|exact E]. cbv iota beta. erewrite bind_run; [|by apply (fill_run s1)]. unfold bind, set_pos_to, modify, ret, s1, add_tok. cbn.
  rewrite u32_small by lia. rewrite Hp. by replace (Z.of_nat (length pre + length str)) with (Z.of_nat (length pre) + Z.of_nat (length str)) by lia.
Qed.
(** The parser in the middle of a text: at [p], with the tokens [ts] taken. *)
Definition at_ (p : Z) (sup : Z) (ts rest : list jsmntok) : jsmn_parser := mk_parser p (length ts) sup (Some (ts ++ rest)).

Definition grown (t : jsmntok) : jsmntok := t <| t_size ::= fun n => i32 (n + 1) |>.

Lemma add_tok_at t p q sup ts x rest : add_tok t (ts ++ x :: rest) ((at_ p sup ts (x :: rest)) <| pos := q |>) = at_ q sup (ts ++ [t]) rest.
Proof.
  transitivity (mk_parser q (S (length ts)) sup (Some (<[length ts := t]> (ts ++ x :: rest)))); [reflexivity|]. unfold at_. f_equal.
  - rewrite length_app. cbn. lia.
  - f_equal. rewrite insert_app_r_alt by lia. rewrite Nat.sub_diag. cbn. by rewrite <- app_assoc.
Qed.

Lemma grow_at p a k b rest : grow_super (at_ p (Z.of_nat (length a)) (a ++ k :: b) rest) = Ret tt (at_ p (Z.of_nat (length a)) (a ++ grown k :: b) rest).
Proof.
  erewrite grow_super_run; [|reflexivity|]; unfold bump; cbn [toksuper at_].
  - rewrite (proj2 (Z.eqb_neq _ _)) by lia. rewrite Nat2Z.id. rewrite <- !app_assoc. cbn [app].
    rewrite (alter_insert_id _ (a ++ k :: b ++ rest) (length a) k) by apply list_lookup_middle, eq_refl.
    rewrite insert_app_r_alt, Nat.sub_diag by lia. unfold at_. cbn. rewrite <- !app_assoc, !length_app. done.
  - intros _. rewrite zget_nat, <- app_assoc. cbn. rewrite list_lookup_middle by done. by eexists.
Qed.

(** A token, counted in its parent. *)
Lemma take_grow (m : J Z) c s p a k b t x rest :
  m s = Ret 0 (add_tok t ((a ++ k :: b) ++ x :: rest) (at_ p (Z.of_nat (length a)) (a ++ k :: b) (x :: rest))) ->
  (let! r := m in if r <? 0 then ret (inr r) else do! grow_super in ret (inl (c + 1))) s =
  Ret (inl (c + 1) : Z + Z) (at_ p (Z.of_nat (length a)) (a ++ grown k :: b ++ [t]) rest).
Proof.
  intros E. erewrite bind_run; [|exact E]. cbn [Z.ltb Z.compare].
  pose proof (add_tok_at t p p (Z.of_nat (length a)) (a ++ k :: b) x rest) as E'. change ((at_ p ?u ?v ?w) <| pos := p |>) with (at_ p u v w) in E'. rewrite E'.
  rewrite <- app_assoc. cbn [app]. by erewrite bind_run; [|apply grow_at].
Qed.

Lemma at_pos p q sup ts rest : (at_ p sup ts rest) <| pos := q |> = at_ q sup ts rest.
Proof. done. Qed.

Lemma round_value c p a k b x rest pre v y post : value_ok v -> js = pre ++ value_text v ++ y :: post -> y ∈ [44; 58; 125] -> p = Z.of_nat (length pre) ->
  rounds 1 c (at_ p (Z.of_nat (length a)) (a ++ k :: b) (x :: rest)) (c + 1)
    (at_ (p + Z.of_nat (length (value_text v))) (Z.of_nat (length a)) (a ++ grown k :: b ++ [value_token p v]) rest).
Proof.
  intros Hok Hjs Hy Hp. assert (Hlen : (length pre + length (value_text v) < length js)%nat) by (subst js; rewrite !length_app; cbn; lia).
  destruct v as [str|str]; cbn [value_ok value_text] in *.
  - cbn [app] in Hjs. rewrite <- app_assoc in Hjs. cbn [app length] in *. rewrite length_app in *. cbn [length] in *.
    replace (p + Z.of_nat (S (length str + 1))) with (p + 1 + Z.of_nat (length str) + 1) by lia.
    eapply (round_one _ _ _ (at_ (p + 1 + Z.of_nat (length str)) _ _ _)); [exact Hjs|done|done| |cbn; lia].
    unfold jsmn_char. rewrite bind_gets. change (id ?s) with s. cbn [pos at_]. rewrite (bind_run _ _ _ _ _ (js_at_app js pre 34 _ p _ Hjs Hp)). cbn [Z.eqb Pos.eqb orb].
    apply (take_grow _ _ _ _ _ _ _ _ x). eapply (parse_string_run (at_ p _ _ _)); [done|exact Hjs|done|done|].
    cbn. rewrite !length_app. cbn. lia.
  - assert (Hhd : exists h str', str = h :: str' /\ 32 < h < 127 /\ ends_primitive h = false /\ h ∉ [34; 91; 123]).
    { destruct Hok as [Hall Hh]. destruct str as [|h str']; [done|]. apply Forall_cons in Hall as [[H1 H2] _]. by exists h, str'. }
    destruct Hhd as (h & str' & Estr & Hh & He & Hn).
    replace (p + Z.of_nat (length str)) with (p + Z.of_nat (length str) - 1 + 1) by lia.
    assert (Hjs' : js = pre ++ h :: str' ++ y :: post) by (rewrite Hjs, Estr; done).
    assert (0 < Z.of_nat (length str)) by (rewrite Estr; cbn; lia).
    eapply (round_one _ _ _ (at_ (p + Z.of_nat (length str) - 1) _ _ _)); [exact Hjs'|done|lia| |cbn; lia].
    unfold jsmn_char. rewrite bind_gets. change (id ?s) with s. cbn [pos at_]. rewrite (bind_run _ _ _ _ _ (js_at_app js pre h _ p _ Hjs' Hp)).
    unfold ends_primitive in He. rewrite bool_decide_eq_false, !not_elem_of_cons in *.
    rewrite (proj2 (Z.eqb_neq h 123)), (proj2 (Z.eqb_neq h 91)), (proj2 (Z.eqb_neq h 125)), (proj2 (Z.eqb_neq h 93)), (proj2 (Z.eqb_neq h 34)), (proj2 (Z.eqb_neq h 58)), (proj2 (Z.eqb_neq h 44)) by lia.
    rewrite bool_decide_eq_false_2 by (rewrite !not_elem_of_cons; split_and!; [lia..|apply not_elem_of_nil]). cbn [orb].
    apply (take_grow _ _ _ _ _ _ _ _ x). eapply (parse_primitive_run (at_ p _ _ _) _ pre str post y); [done|done| | |done|done|].
    + apply bool_decide_eq_true. set_solver.
    + set_solver.
    + cbn. rewrite !length_app. cbn. lia.
Qed.

Lemma round_space c p sup ts rest pre post : js = pre ++ 32 :: post -> p = Z.of_nat (length pre) ->
  rounds 1 c (at_ p sup ts rest) c (at_ (p + 1) sup ts rest).
Proof.
  intros Hjs Hp. eapply (round_one _ _ _ (at_ p sup ts rest)); [exact Hjs|done|done| |cbn; subst; rewrite length_app; cbn; lia].
  unfold jsmn_char. rewrite bind_gets. change (id ?s) with s. cbn [pos at_]. by rewrite (bind_run _ _ _ _ _ (js_at_app js pre 32 _ p _ Hjs Hp)).
Qed.

Lemma round_colon c p sup ts rest pre post : js = pre ++ 58 :: post -> p = Z.of_nat (length pre) ->
  rounds 1 c (at_ p sup ts rest) c (at_ (p + 1) (Z.of_nat (length ts) - 1) ts rest).
Proof.
  intros Hjs Hp. eapply (round_one _ _ _ (at_ p (Z.of_nat (length ts) - 1) ts rest)); [exact Hjs|done|done| |cbn; subst; rewrite length_app; cbn; lia].
  unfold jsmn_char. rewrite bind_gets. change (id ?s) with s. cbn [pos at_]. by rewrite (bind_run _ _ _ _ _ (js_at_app js pre 58 _ p _ Hjs Hp)).
Qed.

(** The search for the innermost open token, when only the first is open. *)
Lemma last_tok_head test p sup o l rest : test o = true -> Forall (fun t => test t = false) l ->
  last_tok test (length (o :: l)) (at_ p sup (o :: l) rest) = Ret 0 (at_ p sup (o :: l) rest).
Proof.
  intros Ho Hl. set (s := at_ p sup (o :: l) rest).
  pose proof (last_tok_ok test (length (o :: l)) s ((o :: l) ++ rest) eq_refl) as H. rewrite length_app in H. specialize (H ltac:(lia)).
  unfold wp in H. destruct (last_tok test (length (o :: l)) s) as [r s'| | | |]; try done. destruct H as [-> [[-> H]|(i & t & -> & Hi & Ht & Htest)]].
  - specialize (H 0%nat o ltac:(cbn; lia) eq_refl). congruence.
  - destruct i as [|i]; [done|]. rewrite lookup_app_l in Ht by done. cbn in Ht. rewrite Forall_lookup in Hl. rewrite (Hl i t Ht) in Htest. done.
Qed.

Definition obj (n : Z) : jsmntok := mk_tok JSMN_OBJECT 0 (-1) n.
Lemma round_comma c p sup n l rest k pre post : js = pre ++ 44 :: post -> p = Z.of_nat (length pre) ->
  Forall closed l -> sup <> -1 -> zget (obj n :: l) sup = Some k -> is_container k = false ->
  rounds 1 c (at_ p sup (obj n :: l) rest) c (at_ (p + 1) 0 (obj n :: l) rest).
Proof.
  intros Hjs Hp Hl Hsup Hk Hc. eapply (round_one _ _ _ (at_ p 0 (obj n :: l) rest)); [exact Hjs|done|done| |cbn; subst; rewrite length_app; cbn; lia].
  unfold jsmn_char. rewrite bind_gets. change (id ?s) with s. cbn [pos at_]. rewrite (bind_run _ _ _ _ _ (js_at_app js pre 44 _ p _ Hjs Hp)). cbn [Z.eqb Pos.eqb orb].
  rewrite bool_decide_eq_false_2 by set_solver.
  erewrite bind_run with (a := tt) (s' := at_ p 0 (obj n :: l) rest); [reflexivity|]. unfold comma. rewrite bind_gets.
  change (id ?s) with s. cbn [tokens toksuper toknext at_].
  rewrite bool_decide_eq_false_2 by done. rewrite (proj2 (Z.eqb_neq _ _)) by done. cbn [negb andb when].
  erewrite bind_run; [|eapply (tok_at_run _ _ k); [reflexivity|]].
  - rewrite Hc. cbn [negb when]. erewrite bind_run; [|apply last_tok_head]; [reflexivity|done|].
    eapply Forall_impl; [exact Hl|]. intros t Ht. rewrite Ht. apply andb_false_r.
  - apply zget_Some in Hk as [Hk1 Hk2]. apply zget_Some. rewrite length_app. split; [lia|]. by rewrite lookup_app_l by lia.
Qed.

Lemma round_close c p sup n l rest pre post : js = pre ++ 125 :: post -> p = Z.of_nat (length pre) -> Forall closed l ->
  rounds 1 c (at_ p sup (obj n :: l) rest) c (at_ (p + 1) (-1) (mk_tok JSMN_OBJECT 0 (p + 1) n :: l) rest).
Proof.
  intros Hjs Hp Hl. eapply (round_one _ _ _ (at_ p (-1) (mk_tok JSMN_OBJECT 0 (p + 1) n :: l) rest)); [exact Hjs|done|done| |cbn; subst; rewrite length_app; cbn; lia].
  unfold jsmn_char. rewrite bind_gets. change (id ?s) with s. cbn [pos at_ tokens]. rewrite (bind_run _ _ _ _ _ (js_at_app js pre 125 _ p _ Hjs Hp)). cbn [Z.eqb Pos.eqb orb].
  erewrite bind_run with (a := true); [reflexivity|]. unfold close_bracket. rewrite bind_gets. cbn [toknext at_].
  erewrite bind_run; [|by apply last_tok_head]. cbn [Z.eqb]. erewrite bind_run; [|eapply (tok_at_run 0 _ (obj n)); reflexivity].
  cbn [t_type obj Z.eqb Pos.eqb]. rewrite bool_decide_eq_false_2 by (by intros []). rewrite bind_gets. cbn [pos at_].
  erewrite bind_run; [|reflexivity]. erewrite bind_run; [|eapply (upd_tok_run 0 _ _ (obj n)); reflexivity].
  assert (E : is_open (mk_tok JSMN_OBJECT 0 (p + 1) n) = false) by (unfold is_open; cbn; lia).
  change ((at_ p sup _ rest) <| toksuper := -1 |> <| tokens := _ |>) with (at_ p (-1) (mk_tok JSMN_OBJECT 0 (p + 1) n :: l) rest).
  change (last_tok is_open (Z.to_nat (0 + 1))) with (last_tok is_open 1). set (s := at_ p (-1) _ rest).
  erewrite bind_run with (a := -1) (s' := s); [reflexivity|]. cbn [last_tok]. erewrite bind_run; [|by eapply tok_at_run]. by rewrite E.
Qed.

Lemma rounds_field c p n l x y rest pre f z post : field_ok f -> js = pre ++ field_text f ++ z :: post -> z ∈ [44; 125] -> p = Z.of_nat (length pre) ->
  0 <= n < 2 ^ 31 - 1 ->
  rounds 4 c (at_ p 0 (obj n :: l) (x :: y :: rest)) (c + 2)
    (at_ (p + Z.of_nat (length (field_text f))) (Z.of_nat (S (length l))) (obj (n + 1) :: l ++ field_tokens p f) rest).
Proof.
  destruct f as [k v]. intros [Hk Hv] Hjs Hz Hp Hn. cbn [fst snd] in *. unfold field_text in *. cbn [fst snd] in *.
  set (key := mk_tok JSMN_STRING (p + 1) (p + 1 + Z.of_nat (length k)) 0).
  assert (Hg : grown (obj n) = obj (n + 1)) by (change (obj (i32 (n + 1)) = obj (n + 1)); by rewrite i32_small by lia).
  pose proof (round_value c p [] (obj n) l x (y :: rest) pre (VStr k) 58 (32 :: value_text v ++ z :: post)) as H1.
  specialize (H1 Hk ltac:(rewrite Hjs; cbn; by rewrite <- !app_assoc) ltac:(set_solver) Hp).
  cbn [app length] in H1. rewrite Hg in H1. change (Z.of_nat 0) with 0 in H1.
  change (value_token p (VStr k)) with key in H1. cbn [value_text length] in H1. rewrite length_app in H1. cbn [length] in H1.
  set (p1 := p + Z.of_nat (S (length k + 1))) in *.
  assert (H2 := round_colon (c + 1) p1 0 (obj (n + 1) :: l ++ [key]) (y :: rest) (pre ++ 34 :: k ++ [34]) (32 :: value_text v ++ z :: post)).
  specialize (H2 ltac:(rewrite Hjs; cbn; rewrite <- !app_assoc; cbn; by rewrite <- !app_assoc) ltac:(rewrite length_app; cbn; rewrite length_app; cbn; lia)).
  assert (H3 := round_space (c + 1) (p1 + 1) (Z.of_nat (length (obj (n + 1) :: l ++ [key])) - 1) (obj (n + 1) :: l ++ [key]) (y :: rest) (pre ++ 34 :: k ++ [34; 58]) (value_text v ++ z :: post)).
  specialize (H3 ltac:(rewrite Hjs; cbn; rewrite <- !app_assoc; cbn; by rewrite <- !app_assoc) ltac:(rewrite length_app; cbn; rewrite length_app; cbn; lia)).
  pose proof (round_value (c + 1) (p1 + 1 + 1) (obj (n + 1) :: l) key [] y rest (pre ++ 34 :: k ++ [34; 58; 32]) v z post Hv) as H4.
  specialize (H4 ltac:(rewrite Hjs; cbn; rewrite <- !app_assoc; cbn; by rewrite <- !app_assoc) ltac:(set_solver) ltac:(rewrite length_app; cbn; rewrite length_app; cbn; lia)).
  replace (Z.of_nat (length (obj (n + 1) :: l ++ [key])) - 1) with (Z.of_nat (length (obj (n + 1) :: l))) in * by (cbn [length]; rewrite length_app; cbn [length]; lia).
  pose proof (rounds_trans _ _ _ _ _ _ _ _ H1 (rounds_trans _ _ _ _ _ _ _ _ H2 (rounds_trans _ _ _ _ _ _ _ _ H3 H4))) as H.
  cbn [length Nat.add app] in *. rewrite !length_app. cbn [length].
  replace (p1 + 1 + 1 + Z.of_nat (length (value_text v))) with (p + Z.of_nat (S (length k + S (S (S (length (value_text v))))))) in H by lia.
  replace (c + 1 + 1) with (c + 2) in H by lia. unfold field_tokens. cbn [fst snd].
  replace (p + Z.of_nat (length k) + 4) with (p1 + 1 + 1) by lia. exact H.
Qed.

Lemma rounds_fields fs : forall c p sup n l k rest pre post, Forall field_ok fs -> js = pre ++ fields_text fs ++ 125 :: post -> p = Z.of_nat (length pre) ->
  0 <= n -> n + Z.of_nat (length fs) < 2 ^ 31 -> Forall closed l -> sup <> -1 -> zget (obj n :: l) sup = Some k -> is_container k = false ->
  (2 * length fs <= length rest)%nat ->
  exists sup', rounds (6 * length fs) c (at_ p sup (obj n :: l) rest) (c + 2 * Z.of_nat (length fs))
    (at_ (p + Z.of_nat (length (fields_text fs))) sup' (obj (n + Z.of_nat (length fs)) :: l ++ fields_tokens (p + 2) fs) (drop (2 * length fs) rest)).
Proof.
  induction fs as [|f fs IH]; intros c p sup n l k rest pre post Hok Hjs Hp Hn Hb Hl Hsup Hk Hc Hr.
  - exists sup. cbn. rewrite app_nil_r, !Z.add_0_r. intros m. done.
  - destruct rest as [|x [|y rest]]; [cbn in Hr; lia..|]. apply Forall_cons in Hok as [Hf Hok].
    change (fields_text (f :: fs)) with (44 :: 32 :: field_text f ++ fields_text fs) in *.
    assert (Hz : exists z post', fields_text fs ++ 125 :: post = z :: post' /\ z ∈ [44; 125]) by (destruct fs; [exists 125|exists 44]; eexists; (split; [reflexivity|set_solver])).
    destruct Hz as (z & post' & Ez & Hz). cbn [app] in Hjs. rewrite <- app_assoc, Ez in Hjs.
    pose proof (round_comma c p sup n l (x :: y :: rest) k pre _ Hjs Hp Hl Hsup Hk Hc) as H1.
    pose proof (round_space c (p + 1) 0 (obj n :: l) (x :: y :: rest) (pre ++ [44]) (field_text f ++ z :: post')) as H2.
    specialize (H2 ltac:(by rewrite Hjs, <- app_assoc) ltac:(rewrite length_app; cbn; lia)).
    pose proof (rounds_field c (p + 1 + 1) n l x y rest (pre ++ [44; 32]) f z post' Hf) as H3.
    specialize (H3 ltac:(by rewrite Hjs, <- app_assoc) Hz ltac:(rewrite length_app; cbn; lia) ltac:(cbn in Hb; lia)).
    replace (p + 1 + 1) with (p + 2) in * by lia.
    pose proof (rounds_trans _ _ _ _ _ _ _ _ H1 (rounds_trans _ _ _ _ _ _ _ _ H2 H3)) as H4.
    destruct (IH (c + 2) (p + 2 + Z.of_nat (length (field_text f))) (Z.of_nat (S (length l))) (n + 1) (l ++ field_tokens (p + 2) f)
      (mk_tok JSMN_STRING (p + 2 + 1) (p + 2 + 1 + Z.of_nat (length f.1)) 1) rest (pre ++ [44; 32] ++ field_text f) post) as [sup' H5].
    + done.
    + rewrite Hjs, <- Ez. by rewrite <- !app_assoc.
    + rewrite !length_app. cbn [length]. lia.
    + lia.
    + cbn in Hb. lia.
    + apply Forall_app. split; [done|]. apply field_tokens_closed. lia.
    + lia.
    + rewrite zget_nat. change ((?a :: ?b) !! S ?m) with (b !! m). by rewrite lookup_app_r, Nat.sub_diag by lia.
    + done.
    + cbn in Hr. lia.
    + exists sup'. pose proof (rounds_trans _ _ _ _ _ _ _ _ H4 H5) as H. cbn [length drop fields_tokens] in *. rewrite <- app_assoc in H.
      replace (1 + (1 + 4) + 6 * length fs)%nat with (6 * S (length fs))%nat in H by lia.
      replace (2 * S (length fs))%nat with (S (S (2 * length fs))) by lia. cbn [drop].
      rewrite length_app. replace (c + 2 * Z.of_nat (S (length fs))) with (c + 2 + 2 * Z.of_nat (length fs)) by lia.
      replace (p + Z.of_nat (S (S (length (field_text f) + length (fields_text fs))))) with (p + 2 + Z.of_nat (length (field_text f)) + Z.of_nat (length (fields_text fs))) by lia.
      replace (n + Z.of_nat (S (length fs))) with (n + 1 + Z.of_nat (length fs)) by lia. exact H.
Qed.

Lemma round_open c x rest post : js = 123 :: post -> rounds 1 c (jsmn_init (Some (x :: rest))) (c + 1) (at_ 1 0 [obj 0] rest).
Proof.
  intros Hjs. eapply (round_one _ _ _ (at_ 0 0 [obj 0] rest) 123 []); [exact Hjs|done|done| |cbn; subst; cbn; lia].
  unfold jsmn_char. rewrite bind_gets. change (id ?s) with s. cbn [pos tokens jsmn_init]. rewrite (bind_run _ _ _ _ _ (js_at_app js [] 123 _ 0 _ Hjs eq_refl)). cbn [Z.eqb Pos.eqb orb].
  erewrite bind_run with (a := true); [reflexivity|]. reflexivity.
Qed.

End reads.

Definition object_tokens (fs : list (list Z * jvalue)) : list jsmntok :=
  mk_tok JSMN_OBJECT 0 (Z.of_nat (length (object_text fs))) (Z.of_nat (length fs)) :: fields_tokens 1 fs.

(** All the rounds over an object's text. *)
Lemma rounds_object fs l : Forall field_ok fs -> Z.of_nat (length (object_text fs)) < 2 ^ 31 -> (2 * length fs < length l)%nat ->
  exists k, (k <= length (object_text fs))%nat /\
    rounds (object_text fs) k 0 (jsmn_init (Some l)) (1 + 2 * Z.of_nat (length fs))
      (at_ (Z.of_nat (length (object_text fs))) (-1) (object_tokens fs) (drop (S (2 * length fs)) l)).
Proof.
  intros Hok Hlen Hl. set (js := object_text fs) in *. destruct l as [|x l]; [cbn in Hl; lia|].
  destruct fs as [|f fs].
  - exists 2%nat. split; [cbn; lia|]. eapply (rounds_trans _ 1 1); [by apply (round_open js Hlen 0 x l [125])|].
    apply (round_close js Hlen _ 1 0 0 [] l [123] []); done.
  - apply Forall_cons in Hok as [Hf Hok]. destruct l as [|x1 [|x2 l]]; [cbn in Hl; lia..|].
    assert (Hjs : js = 123 :: field_text f ++ fields_text fs ++ [125]) by (unfold js, object_text; by rewrite <- app_assoc).
    assert (Hz : exists z post', fields_text fs ++ [125] = z :: post' /\ z ∈ [44; 125]) by (destruct fs; [exists 125|exists 44]; eexists; (split; [reflexivity|set_solver])).
    destruct Hz as (z & post' & Ez & Hz).
    pose proof (round_open js Hlen 0 x (x1 :: x2 :: l) _ Hjs) as H1.
    pose proof (fields_text_length fs) as Hft. assert (Hlj : length js = (S (length (field_text f) + (length (fields_text fs) + 1)))%nat) by (rewrite Hjs; cbn; by rewrite !length_app).
    pose proof (rounds_field js Hlen 1 1 0 [] x1 x2 l [123] f z post' Hf ltac:(by rewrite Hjs, Ez) Hz eq_refl ltac:(lia)) as H2.
    destruct (rounds_fields js Hlen fs (1 + 2) (1 + Z.of_nat (length (field_text f))) 1 1 (field_tokens 1 f)
      (mk_tok JSMN_STRING 2 (2 + Z.of_nat (length f.1)) 1) l (123 :: field_text f) []) as [sup' H3]; [done|by rewrite Hjs|cbn; lia|lia|lia|by apply field_tokens_closed|done|done|done|cbn in Hl; lia|].
    pose proof (round_close js Hlen (1 + 2 + 2 * Z.of_nat (length fs)) (1 + Z.of_nat (length (field_text f)) + Z.of_nat (length (fields_text fs))) sup' (1 + Z.of_nat (length fs))
      (field_tokens 1 f ++ fields_tokens (1 + Z.of_nat (length (field_text f)) + 2) fs) (drop (2 * length fs) l) (123 :: field_text f ++ fields_text fs) []) as H4.
    specialize (H4 ltac:(rewrite Hjs; cbn [app]; by rewrite <- app_assoc) ltac:(cbn [length]; rewrite length_app; lia)).
    specialize (H4 ltac:(apply Forall_app; split; [by apply field_tokens_closed|apply fields_tokens_closed; lia])).
    pose proof (rounds_trans _ _ _ _ _ _ _ _ _ H1 (rounds_trans _ _ _ _ _ _ _ _ _ H2 (rounds_trans _ _ _ _ _ _ _ _ _ H3 H4))) as H.
    eexists. split; [|]; cycle 1.
    + unfold object_tokens. fold js. cbn [fields_tokens length]. rewrite Hlj.
      replace (1 + 2 * Z.of_nat (S (length fs))) with (1 + 2 + 2 * Z.of_nat (length fs)) by lia.
      replace (S (2 * S (length fs))) with (S (S (S (2 * length fs)))) by lia. cbn [drop].
      replace (Z.of_nat (S (length (field_text f) + (length (fields_text fs) + 1)))) with (1 + Z.of_nat (length (field_text f)) + Z.of_nat (length (fields_text fs)) + 1) by lia.
      replace (Z.of_nat (S (length fs))) with (1 + Z.of_nat (length fs)) by lia. exact H.
    + unfold field_text in Hlj. cbn [length] in Hlj. rewrite !length_app in Hlj. cbn [length] in Hlj. lia.
Qed.

Lemma jsmn_parse_object_run fs l : Forall field_ok fs -> Z.of_nat (length (object_text fs)) < 2 ^ 31 -> (2 * length fs < length l)%nat ->
  jsmn_parse (object_text fs) (jsmn_init (Some l)) =
  Ret (1 + 2 * Z.of_nat (length fs)) (at_ (Z.of_nat (length (object_text fs))) (-1) (object_tokens fs) (drop (S (2 * length fs)) l)).
Proof.
  intros Hok Hlen Hl. destruct (rounds_object fs l Hok Hlen Hl) as (k & Hk & H). unfold jsmn_parse. rewrite bind_gets. change (Z.of_nat (toknext (jsmn_init (Some l)))) with 0.
  specialize (H (S (length (object_text fs) - k))). replace (k + S (length (object_text fs) - k))%nat with (S (length (object_text fs))) in H by lia.
  set (js := object_text fs) in *. set (s := at_ _ _ _ _) in *. cbn [loop] in H.
  assert (Hend : jsmn_round js (1 + 2 * Z.of_nat (length fs)) s = Ret (inr (inl (1 + 2 * Z.of_nat (length fs)))) s).
  { unfold jsmn_round. rewrite bind_gets. unfold more. cbn [pos at_]. by rewrite Z.ltb_irrefl. }
  rewrite (bind_run _ _ _ _ _ Hend) in H. erewrite bind_run; [|exact H]. cbv iota beta. rewrite bind_gets. change (tokens (id s)) with (Some (object_tokens fs ++ drop (S (2 * length fs)) l)). cbv iota.
  pose proof (last_tok_ok is_open (toknext (id s)) s _ eq_refl) as Hlast. cbn [toknext at_ id s] in *. rewrite length_app in Hlast. specialize (Hlast ltac:(lia)).
  unfold wp in Hlast. unfold bind. destruct (last_tok is_open (length (object_tokens fs)) s) as [r s'| | | |]; try done.
  destruct Hlast as [-> [[-> _]|(i & t & -> & Hi & Ht & Ho)]]; [done|]. exfalso. rewrite lookup_app_l in Ht by done.
  assert (Hc : Forall closed (object_tokens fs)). { constructor; [unfold closed, is_open; apply andb_false_iff; right; apply Z.eqb_neq; cbn [t_end]; lia|]. by apply fields_tokens_closed. }
  rewrite Forall_lookup in Hc. specialize (Hc i t Ht). unfold closed in Hc. congruence.
Qed.

(** The content of a value, and what the tokens of an object stand for. *)
Definition content (v : jvalue) : list Z := match v with VStr s => s | VPrim s => s end.

Lemma slice_at js pre x post t : js = pre ++ x ++ post -> t_start t = Z.of_nat (length pre) -> t_end t = t_start t + Z.of_nat (length x) -> slice js t = x.
Proof.
  intros -> Hs He. unfold slice. rewrite He, Hs. rewrite Nat2Z.id, drop_app_length.
  replace (Z.to_nat (Z.of_nat (length pre) + Z.of_nat (length x) - Z.of_nat (length pre))) with (length x) by lia. apply take_app_length.
Qed.

Lemma field_slices js pre f post o : js = pre ++ field_text f ++ post -> o = Z.of_nat (length pre) ->
  map (slice js) (field_tokens o f) = [f.1; content f.2].
Proof.
  destruct f as [k v]. intros Hjs Ho. unfold field_text, field_tokens in *. cbn [fst snd map] in *. f_equal; [|f_equal].
  - apply (slice_at _ (pre ++ [34]) _ ([34; 58; 32] ++ value_text v ++ post)); cbn.
    + rewrite Hjs. cbn. rewrite <- !app_assoc. cbn. by rewrite <- ?app_assoc.
    + rewrite length_app. cbn. lia.
    + lia.
  - destruct v as [s|s]; cbn [value_text value_token content] in *.
    + apply (slice_at _ (pre ++ 34 :: k ++ [34; 58; 32; 34]) _ (34 :: post)); cbn [t_start t_end].
      * rewrite Hjs. cbn. rewrite <- !app_assoc. cbn. rewrite <- !app_assoc. cbn. by rewrite <- ?app_assoc.
      * rewrite length_app. cbn [length]. rewrite length_app. cbn [length]. lia.
      * lia.
    + apply (slice_at _ (pre ++ 34 :: k ++ [34; 58; 32]) _ post); cbn [t_start t_end].
      * rewrite Hjs. cbn. rewrite <- !app_assoc. cbn. by rewrite <- ?app_assoc.
      * rewrite length_app. cbn [length]. rewrite length_app. cbn [length]. lia.
      * lia.
Qed.

Definition pairs (fs : list (list Z * jvalue)) : list (list Z) := concat (map (fun f => [f.1; content f.2]) fs).

Lemma fields_slices fs : forall js pre f post o, js = pre ++ field_text f ++ fields_text fs ++ post -> o = Z.of_nat (length pre) ->
  map (slice js) (fields_tokens o (f :: fs)) = pairs (f :: fs).
Proof.
  induction fs as [|g fs IH]; intros js pre f post o Hjs Ho; cbn [fields_tokens]; rewrite map_app, (field_slices js pre f _ o Hjs Ho); unfold pairs; cbn [map concat]; f_equal.
  apply (IH js (pre ++ field_text f ++ [44; 32]) g post).
  - rewrite Hjs. change (fields_text (g :: fs)) with ([44; 32] ++ field_text g ++ fields_text fs). by rewrite <- !app_assoc.
  - rewrite !length_app. cbn [length]. lia.
Qed.

Lemma object_slices fs : map (slice (object_text fs)) (fields_tokens 1 fs) = pairs fs.
Proof.
  destruct fs as [|f fs]; [done|]. apply (fields_slices fs _ [123] f [125]); [|done]. unfold object_text. by rewrite <- app_assoc.
Qed.

Definition value_type (v : jvalue) : jsmntype := match v with VStr _ => JSMN_STRING | VPrim _ => JSMN_PRIMITIVE end.

Lemma fields_types fs : forall o, map t_type (fields_tokens o fs) = concat (map (fun f => [JSMN_STRING; value_type f.2]) fs).
Proof.
  induction fs as [|[k v] fs IH]; intros o; [done|]. cbn [fields_tokens]. rewrite map_app, IH. cbn [map concat field_tokens fst snd].
  by destruct v.
Qed.

Lemma fields_sizes fs : forall o, map t_size (fields_tokens o fs) = concat (map (fun _ => [1; 0]) fs).
Proof.
  induction fs as [|[k v] fs IH]; intros o; [done|]. cbn [fields_tokens]. rewrite map_app, IH. cbn [map concat field_tokens fst snd].
  by destruct v.
Qed.

(** C22: parsing a printed object gives the object back.  For every list of fields,
    with an array that has room for them, [jsmn_parse] returns the number of tokens
    it took; the texts of the tokens are the object, then each key and its value in
    order; their types say object, string, and string or primitive as the value was
    printed; and the sizes are the number of fields, one for a key and none for a value. *)
Theorem jsmn_object_roundtrip fs l : Forall field_ok fs -> Z.of_nat (length (object_text fs)) < 2 ^ 31 -> (2 * length fs < length l)%nat ->
  exists s ts rest, jsmn_parse (object_text fs) (jsmn_init (Some l)) = Ret (Z.of_nat (length ts)) s /\
    tokens s = Some (ts ++ rest) /\
    map (slice (object_text fs)) ts = object_text fs :: pairs fs /\
    map t_type ts = JSMN_OBJECT :: concat (map (fun f => [JSMN_STRING; value_type f.2]) fs) /\
    map t_size ts = Z.of_nat (length fs) :: concat (map (fun _ => [1; 0]) fs).
Proof.
  intros Hok Hlen Hl. exists (at_ (Z.of_nat (length (object_text fs))) (-1) (object_tokens fs) (drop (S (2 * length fs)) l)), (object_tokens fs), (drop (S (2 * length fs)) l).
  split_and!.
  - rewrite jsmn_parse_object_run by done. f_equal. unfold object_tokens. cbn [length]. rewrite fields_tokens_length. lia.
  - done.
  - unfold object_tokens. cbn [map]. rewrite object_slices. f_equal. unfold slice. cbn [t_start t_end]. rewrite Z.sub_0_r, Nat2Z.id. apply take_ge. cbn. lia.
  - unfold object_tokens. cbn [map t_type]. by rewrite fields_types.
  - unfold object_tokens. cbn [map t_size]. by rewrite fields_sizes.
Qed.

Definition demo_fields : list (list Z * jvalue) :=
  [([105; 110; 105; 116], VStr [47; 115; 104]); ([102; 115], VStr [47; 116]); ([110; 112; 114; 111; 99], VPrim [52])].

Lemma demo_fields_ok : Forall field_ok demo_fields.
Proof.
  repeat apply Forall_cons_2; [..|apply Forall_nil_2]; split; try (by apply (bool_decide_unpack _); vm_compute).
Qed.

Lemma jsmn_object_roundtrip_witness :
  Forall field_ok demo_fields /\
  exists s ts rest, jsmn_parse (object_text demo_fields) (jsmn_init (Some (replicate 7 (mk_tok JSMN_UNDEFINED 0 0 0)))) = Ret (Z.of_nat (length ts)) s /\
    tokens s = Some (ts ++ rest) /\ map (slice (object_text demo_fields)) ts = object_text demo_fields :: pairs demo_fields.
Proof.
  split; [apply demo_fields_ok|].
  destruct (jsmn_object_roundtrip demo_fields (replicate 7 (mk_tok JSMN_UNDEFINED 0 0 0)) demo_fields_ok ltac:(vm_compute; reflexivity) ltac:(cbn; lia))
    as (s & ts & rest & H1 & H2 & H3 & _). exists s, ts, rest. split_and!; assumption.
Defined.
