(* ===== verification/Umalloc.v ===== *)
(** * The user library's allocator

    [src/umalloc.c]: [malloc] and [free] over a circular list of free blocks kept in
    address order.  The state has the process's memory, the variable [freep], the
    end of the data ([brk]), how far the kernel lets it grow ([mem_max]) and, for each
    coming request, whether the kernel has the pages for it ([grants]); [base] is the
    address of the static header.  Blocks are measured in headers of eight
    bytes.  What new memory holds is left open. *)
From stdpp Require Import sorting.
From S2P Require Import Prelude CString Bytes.

(** ** Words in byte memory *)

Definition word (m : flat) (a : Z) : Z := m a + 256 * m (a + 1) + 65536 * m (a + 2) + 16777216 * m (a + 3).
Definition set_word (a v : Z) (m : flat) : flat :=
  flat_set (a + 3) (u8 (v / 16777216)) (flat_set (a + 2) (u8 (v / 65536)) (flat_set (a + 1) (u8 (v / 256)) (flat_set a (u8 v) m))).

Lemma set_word_out a v m x : x < a \/ a + 4 <= x -> set_word a v m x = m x.
Proof. intros H. unfold set_word. by rewrite !flat_set_ne by lia. Qed.

Lemma word_set_eq a v m : 0 <= v < 2 ^ 32 -> word (set_word a v m) a = v.
Proof.
  intros Hv. unfold word, set_word. rewrite flat_set_eq.
  repeat (rewrite (flat_set_ne _ _ _ a) by lia). rewrite flat_set_eq.
  repeat (rewrite (flat_set_ne _ _ _ (a + 1)) by lia). rewrite flat_set_eq.
  repeat (rewrite (flat_set_ne _ _ _ (a + 2)) by lia). rewrite flat_set_eq. by apply split32.
Qed.

Lemma word_ext m m' a : (forall x, a <= x < a + 4 -> m' x = m x) -> word m' a = word m a.
Proof. intros H. unfold word. by rewrite !H by lia. Qed.

Lemma word_set_ne a b v m : b + 4 <= a \/ a + 4 <= b -> word (set_word a v m) b = word m b.
Proof. intros H. apply word_ext. intros x Hx. apply set_word_out. lia. Qed.

(** ** State and operations *)

Record ustate := mk_ustate { umem : flat; freep : Z; brk : Z; mem_max : Z; grants : list bool }.
#[export] Instance eta_ustate : Eta ustate := fun r => mk_ustate (umem r) (freep r) (brk r) (mem_max r) (grants r).
#[export] Instance set_umem : Setter umem := ltac:(mk_setter).
#[export] Instance set_freep : Setter freep := ltac:(mk_setter).
#[export] Instance set_brk : Setter brk := ltac:(mk_setter).
#[export] Instance set_mem_max : Setter mem_max := ltac:(mk_setter).
#[export] Instance set_grants : Setter grants := ltac:(mk_setter).

Definition U := M ustate.

#[export] Instance ustate_mem : ByteMem ustate := {
  load8 a := gets (fun s => umem s a);
  store8 a b := modify (fun s => s <| umem ::= flat_set a b |>) }.

(** The fields of a header, and [sizeof(Header)]. *)
Definition HDR : Z := 8.
Definition ptr (p : Z) : U Z := gets (fun s => word (umem s) p).
Definition size (p : Z) : U Z := gets (fun s => word (umem s) (p + 4)).
Definition set_ptr (p v : Z) : U unit := modify (fun s => s <| umem ::= set_word p v |>).
Definition set_size (p v : Z) : U unit := modify (fun s => s <| umem ::= set_word (p + 4) v |>).

(** The system call: the old end of the data, or -1, when the address space ends or
    the kernel has no pages left ([growproc] fails when [kalloc] does). *)
Definition sbrk (n : Z) : U Z :=
  let! s := gets id in
  do! modify (fun s => s <| grants ::= tail |>) in
  if hd false (grants s) && ((0 <=? brk s + i32 n) && (brk s + i32 n <=? mem_max s)) then
    do! modify (fun s => s <| brk ::= fun b => b + i32 n |>) in
    ret (brk s)
  else ret (u32 (-1)).

(** More rounds than there can be free blocks to pass twice. *)
Definition walk_fuel (s : ustate) : nat := (Z.to_nat (mem_max s / 4) + 8)%nat.

Definition free_round (bp p : Z) : U (Z + Z) :=
  let! q := ptr p in
  if (p <? bp) && (bp <? q) then ret (inr p)
  else if (q <=? p) && ((p <? bp) || (bp <? q)) then ret (inr p)
  else ret (inl q).

(** The header [p] takes [q] as its successor, or swallows it when they touch. *)
Definition join (p q : Z) : U unit :=
  let! ps := size p in
  if u32 (p + HDR * ps) =? q then
    let! qs := size q in
    do! set_size p (u32 (ps + qs)) in
    let! r := ptr q in
    set_ptr p r
  else set_ptr p q.

Definition free (ap : Z) : U unit :=
  let bp := u32 (ap - HDR) in
  let! s := gets id in
  let! p := loop (walk_fuel s) (free_round bp) (freep s) in
  let! q := ptr p in
  do! join bp q in
  do! join p bp in
  modify (fun s => s <| freep := p |>).

Definition morecore (nu : Z) : U Z :=
  let nu := if nu <? 4096 then 4096 else nu in
  let! p := sbrk (u32 (nu * HDR)) in
  if p =? u32 (-1) then ret 0
  else
    do! set_size p nu in
    do! free (u32 (p + HDR)) in
    gets freep.

(** Taking [nunits] from the block [p] of size [sz]. *)
Definition malloc_take (nunits prevp p sz : Z) : U Z :=
  let! r := (if sz =? nunits then
               let! q := ptr p in
               do! set_ptr prevp q in
               ret p
             else
               do! set_size p (u32 (sz - nunits)) in
               let p := u32 (p + HDR * u32 (sz - nunits)) in
               do! set_size p nunits in
               ret p) in
  do! modify (fun s => s <| freep := prevp |>) in
  ret (u32 (r + HDR)).

Definition malloc_round (nunits : Z) (st : Z * Z) : U (Z * Z + Z) :=
  let '(prevp, p) := st in
  let! sz := size p in
  if nunits <=? sz then
    let! r := malloc_take nunits prevp p sz in
    ret (inr r)
  else
    let! f := gets freep in
    if p =? f then
      let! p := morecore nunits in
      if p =? 0 then ret (inr 0)
      else let! q := ptr p in ret (inl (p, q))
    else let! q := ptr p in ret (inl (p, q)).

Section alloc.
Context (base : Z).

Definition units (nbytes : Z) : Z := u32 (u32 (u32 (nbytes + HDR) - 1) / HDR + 1).

Definition malloc (nbytes : Z) : U Z :=
  let nunits := units nbytes in
  let! f := gets freep in
  let! prevp := (if f =? 0 then
                   do! modify (fun s => s <| freep := base |>) in
                   do! set_ptr base base in
                   do! set_size base 0 in
                   ret base
                 else ret f) in
  let! s := gets id in
  let! p := ptr prevp in
  loop (walk_fuel s) (malloc_round nunits) (prevp, p).
End alloc.

(** ** The list of free blocks in memory *)

(** A block: the address of its header and its size in headers. *)
Abbreviation block := (Z * Z)%type.
Definition before (x y : block) : Prop := x.1 + 8 * x.2 < y.1.
Definition apart (x y : block) : Prop := x.1 + 8 * x.2 <= y.1 \/ y.1 + 8 * y.2 <= x.1.

(** Where a list of blocks starts; [e] is what follows it. *)
Definition first (B : list block) (e : Z) : Z := match B with [] => e | x :: _ => x.1 end.

(** The headers of [B] are in memory, each with its size and pointing to the next. *)
Fixpoint chain (m : flat) (B : list block) (e : Z) : Prop :=
  match B with
  | [] => True
  | x :: B' => word m (x.1 + 4) = x.2 /\ word m x.1 = first B' e /\ chain m B' e
  end.

Lemma chain_app m P Q e : chain m (P ++ Q) e <-> chain m P (first Q e) /\ chain m Q e.
Proof.
  induction P as [|x P IH]; [naive_solver|]. cbn. rewrite IH. destruct P; cbn; naive_solver.
Qed.

Lemma chain_same m m' B e : (forall x z, x ∈ B -> x.1 <= z < x.1 + 8 -> m' z = m z) -> chain m B e -> chain m' B e.
Proof.
  induction B as [|x B IH]; [done|]. intros Hx (H1 & H2 & H3). cbn. split_and!.
  - rewrite <- H1. apply word_ext. intros z Hz. apply (Hx x); [set_solver|lia].
  - rewrite <- H2. apply word_ext. intros z Hz. apply (Hx x); [set_solver|lia].
  - apply IH; [|done]. intros y z Hy. apply Hx. set_solver.
Qed.

Lemma chain_lookup m B e i x : chain m B e -> B !! i = Some x -> word m (x.1 + 4) = x.2 /\ word m x.1 = first (drop (S i) B) e.
Proof.
  intros Hc Hi. rewrite <- (take_drop_middle B i x Hi) in Hc. apply chain_app in Hc as [_ (H1 & H2 & _)]. done.
Qed.

(** [x] put before [Q], one block with the first of [Q] when they touch. *)
Definition merge (x : block) (Q : list block) : list block :=
  match Q with
  | q :: Q' => if x.1 + 8 * x.2 =? q.1 then (x.1, x.2 + q.2) :: Q' else x :: Q
  | [] => [x]
  end.

Lemma merge_first x Q e : first (merge x Q) e = x.1.
Proof. unfold merge. destruct Q; [done|]. by case_match. Qed.

Lemma set_word_ext2 a v w m z : z < a \/ a + 8 <= z -> set_word a v (set_word (a + 4) w m) z = m z.
Proof. intros H. by rewrite !set_word_out by lia. Qed.

(** [join] merges in memory. *)
Lemma join_run s p ps Q base : word (umem s) (p + 4) = ps -> chain (umem s) Q base -> 0 <= p -> 0 <= ps -> p + 8 * ps < 2 ^ 31 -> 0 <= base < 2 ^ 31 ->
  (forall q, q ∈ Q -> p + 8 <= q.1 /\ 0 <= q.2 /\ q.1 + 8 * q.2 <= 2 ^ 31) -> (Q = [] -> p + 8 * ps <> base) ->
  exists m, join p (first Q base) s = Ret tt (s <| umem := m |>) /\ (forall z, z < p \/ p + 8 <= z -> m z = umem s z) /\ chain m (merge (p, ps) Q) base.
Proof.
  intros Hps Hc H0 H1 Hub Hb HQ Hne. unfold join, size. rewrite bind_gets, Hps. unfold HDR. rewrite u32_small by lia.
  assert (Hkeep : forall m' Q', (forall q, q ∈ Q' -> p + 8 <= q.1) -> chain (umem s) Q' base -> (forall z, z < p \/ p + 8 <= z -> m' z = umem s z) -> chain m' Q' base).
  { intros m' Q' HQ' HC Hm. eapply chain_same; [|exact HC]. intros x z Hx Hz. apply Hm. pose proof (HQ' x Hx). lia. }
  destruct (Z.eqb_spec (p + 8 * ps) (first Q base)) as [E|E].
  - destruct Q as [|q Q']; [by destruct (Hne eq_refl)|]. cbn [first] in *. destruct Hc as (C1 & C2 & C3). rewrite bind_gets, C1.
    destruct (HQ q ltac:(set_solver)) as (B1 & B2 & B3). set (r := first Q' base) in *.
    assert (Hr : 0 <= r < 2 ^ 32). { unfold r. destruct Q' as [|q' ?]; cbn; [lia|]. destruct (HQ q' ltac:(set_solver)) as (? & ? & ?). lia. }
    exists (set_word p r (set_word (p + 4) (ps + q.2) (umem s))). split_and!.
    + unfold set_size, bind, ptr, gets, set_ptr, modify, bindO. cbn. rewrite (u32_small (ps + q.2)) by lia. rewrite word_set_ne by lia. rewrite C2. done.
    + intros z Hz. by apply set_word_ext2.
    + unfold merge. cbn [fst snd]. rewrite (proj2 (Z.eqb_eq _ _) E). cbn [chain fst snd]. split_and!.
      * rewrite word_set_ne by lia. apply word_set_eq. lia.
      * by apply word_set_eq.
      * apply Hkeep; [intros x Hx; apply HQ; set_solver|done|intros z Hz; by apply set_word_ext2].
  - set (r := first Q base) in *.
    assert (Hr : 0 <= r < 2 ^ 32). { unfold r. destruct Q as [|q' ?]; cbn; [lia|]. destruct (HQ q' ltac:(set_solver)) as (? & ? & ?). lia. }
    exists (set_word p r (umem s)). split_and!.
    + done.
    + intros z Hz. apply set_word_out. lia.
    + assert (HC : chain (set_word p r (umem s)) ((p, ps) :: Q) base).
      { cbn [chain fst snd]. split_and!; [rewrite word_set_ne by lia; done|by apply word_set_eq|].
        apply Hkeep; [intros x Hx; apply HQ; set_solver|done|intros z Hz; apply set_word_out; lia]. }
      unfold merge. destruct Q as [|q Q']; [done|]. unfold r in E. cbn [fst snd first] in *. by rewrite (proj2 (Z.eqb_neq _ _) E).
Qed.

(** The free blocks fit in the heap, so the walks end. *)
Lemma sorted_length l h F : l <= h -> StronglySorted before F -> (forall x, x ∈ F -> l <= x.1 /\ 1 <= x.2 /\ x.1 + 8 * x.2 <= h) ->
  8 * Z.of_nat (length F) <= h - l.
Proof.
  revert l. induction F as [|x F IH]; intros l Hl Hs Hx; [cbn; lia|]. apply StronglySorted_inv in Hs as [Hs Hx1].
  destruct (Hx x ltac:(set_solver)) as (A1 & A2 & A3). rewrite Forall_forall in Hx1.
  specialize (IH (x.1 + 8 * x.2) ltac:(lia) Hs). cbn [length]. rewrite Nat2Z.inj_succ.
  assert (8 * Z.of_nat (length F) <= h - (x.1 + 8 * x.2)); [|lia]. apply IH. intros y Hy. destruct (Hx y ltac:(set_solver)) as (B1 & B2 & B3).
  specialize (Hx1 y Hy). unfold before in Hx1. split_and!; lia.
Qed.

Lemma sorted_lookup (B : list block) i j x y : StronglySorted before B -> B !! i = Some x -> B !! j = Some y -> (i < j)%nat -> before x y.
Proof.
  revert i j. induction B as [|z B IH]; [done|]. intros i j Hs Hi Hj Hlt. apply StronglySorted_inv in Hs as [Hs Hz].
  destruct j as [|j]; [lia|]. destruct i as [|i].
  - injection Hi as ->. rewrite Forall_forall in Hz. apply Hz. by eapply list_elem_of_lookup_2.
  - eapply (IH i j); [done..|lia].
Qed.

Lemma first_in (B : list block) e : first B e = e \/ exists x, x ∈ B /\ first B e = x.1.
Proof. destruct B as [|x B]; [by left|right]. exists x. split; [set_solver|done]. Qed.

Lemma first_drop (B : list block) i e : first (drop i B) e = match B !! i with Some y => y.1 | None => e end.
Proof. revert i. induction B as [|x B IH]; intros [|i]; try done. apply IH. Qed.

(** [B] cut at the address [a]: [p] is the last block before it. *)
Record cut_at (B : list block) (a : Z) (P : list block) (p : block) (Q : list block) : Prop := {
  cut_eq : B = P ++ p :: Q;
  cut_low : forall x, x ∈ P -> x.1 < a;
  cut_mid : p.1 < a;
  cut_high : forall y, y ∈ Q -> a < y.1 }.

Lemma split_at (B : list block) a x0 : StronglySorted before B -> (forall x, x ∈ B -> 0 <= x.2 /\ x.1 <> a) -> head B = Some x0 -> x0.1 < a ->
  exists P p Q, cut_at B a P p Q.
Proof.
  revert x0. induction B as [|x B IH]; [done|]. intros x0 Hs Hx Hh Ha. injection Hh as ->. apply StronglySorted_inv in Hs as [Hs H0].
  destruct B as [|y B]; [exists [], x0, []; constructor; [done|set_solver|done|set_solver]|].
  destruct (Z.ltb_spec y.1 a) as [Hy|Hy].
  - destruct (IH y Hs ltac:(set_solver) eq_refl Hy) as (P & p & Q & [E H1 H2 H3]). exists (x0 :: P), p, Q. rewrite E. constructor; [done| |done|done].
    intros z [->|Hz]%elem_of_cons; [done|by apply H1].
  - exists [], x0, (y :: B). constructor; [done|set_solver|done|]. assert (Hya : a < y.1) by (destruct (Hx y ltac:(set_solver)); lia).
    intros z [->|Hz]%elem_of_cons; [done|]. apply StronglySorted_inv in Hs as [_ Hs]. rewrite Forall_forall in Hs. specialize (Hs z Hz). unfold before in Hs.
    destruct (Hx y ltac:(set_solver)). lia.
Qed.

(** What [merge] keeps. *)
Lemma merge_all (T : block -> Prop) x Q : T x -> (forall q, q ∈ Q -> T q) -> (forall q, q ∈ Q -> x.1 + 8 * x.2 = q.1 -> T (x.1, x.2 + q.2)) ->
  forall y, y ∈ merge x Q -> T y.
Proof.
  intros H1 H2 H3 y. unfold merge. destruct Q as [|q Q]; [intros ->%list_elem_of_singleton; done|].
  destruct (Z.eqb_spec (x.1 + 8 * x.2) q.1) as [E|E]; intros [->|Hy]%elem_of_cons; [by apply H3; [set_solver|]|apply H2; set_solver|done|by apply H2].
Qed.

Lemma merge_sorted x Q : StronglySorted before Q -> (forall q, q ∈ Q -> x.1 + 8 * x.2 <= q.1 /\ 1 <= q.2) -> StronglySorted before (merge x Q).
Proof.
  intros Hs Hq. unfold merge. destruct Q as [|q Q]; [repeat constructor|]. pose proof Hs as Hs'. apply StronglySorted_inv in Hs' as [Hs1 Hs2]. rewrite Forall_forall in Hs2.
  destruct (Hq q ltac:(set_solver)) as [A1 A2]. destruct (Z.eqb_spec (x.1 + 8 * x.2) q.1) as [E|E]; constructor; try done; apply Forall_forall; unfold before in *.
  - intros y Hy. specialize (Hs2 y Hy). cbn. lia.
  - intros y [->|Hy]%elem_of_cons; [lia|]. specialize (Hs2 y Hy). lia.
Qed.

Lemma merge_covers x Q z : z = x \/ z ∈ Q -> 0 <= x.2 -> (forall q, q ∈ Q -> 0 <= q.2) -> exists y, y ∈ merge x Q /\ y.1 <= z.1 /\ z.1 + 8 * z.2 <= y.1 + 8 * y.2.
Proof.
  intros Hz Hx Hq. unfold merge. destruct Q as [|q Q].
  - destruct Hz as [->|Hz]; [exists x; split; [set_solver|lia]|set_solver].
  - pose proof (Hq q ltac:(set_solver)). destruct (Z.eqb_spec (x.1 + 8 * x.2) q.1) as [E|E].
    + destruct Hz as [->|[->|Hz]%elem_of_cons]; [exists (x.1, x.2 + q.2); split; [set_solver|cbn; lia]..|exists z; split; [set_solver|lia]].
    + exists z. split; [set_solver|lia].
Qed.

(** Two touching blocks apart from a third are apart from it as one. *)
Lemma apart_merge x q y : 1 <= y.2 -> x.1 + 8 * x.2 = q.1 -> apart x y -> apart q y -> apart (x.1, x.2 + q.2) y.
Proof. unfold apart. cbn. lia. Qed.

(** ** The heap *)

Section heap.
Context (base lo : Z).
Hypothesis base_low : 0 < base /\ base + 8 <= lo.

Local Abbreviation ring F := ((base, 0) :: F).

(** Within the heap and not empty. *)
Definition within (s : ustate) (x : block) : Prop := lo <= x.1 /\ 1 <= x.2 /\ x.1 + 8 * x.2 <= brk s.

(** [F] are the free blocks, [L] those handed out. *)
Record heap_ok (s : ustate) (F L : list block) : Prop := {
  hk_brk : lo <= brk s <= mem_max s /\ mem_max s < 2 ^ 31;
  hk_chain : chain (umem s) (ring F) base;
  hk_sorted : StronglySorted before (ring F);
  hk_free : Forall (within s) F;
  hk_live : Forall (fun x => within s x /\ word (umem s) (x.1 + 4) = x.2) L;
  hk_sep : forall x y, x ∈ F -> y ∈ L -> apart x y;
  hk_lsep : StronglySorted apart L;
  hk_freep : exists x, x ∈ ring F /\ x.1 = freep s }.

Lemma fuel_enough s F L : heap_ok s F L -> (2 * length F + 6 < walk_fuel s)%nat.
Proof.
  intros H. pose proof (hk_brk _ _ _ H) as Hb. pose proof (hk_sorted _ _ _ H) as Hs. apply StronglySorted_inv in Hs as [Hs _].
  pose proof (sorted_length lo (brk s) F ltac:(lia) Hs) as Hl. pose proof (hk_free _ _ _ H) as Hf. rewrite Forall_forall in Hf.
  specialize (Hl ltac:(intros x Hx; by apply Hf)). unfold walk_fuel. Z.div_mod_to_equations. lia.
Qed.

(** Every block of the ring starts at or above [base]; all but the first above [lo]. *)
Lemma ring_in s F L x : heap_ok s F L -> x ∈ ring F -> x = (base, 0) \/ within s x.
Proof. intros H [->|Hx]%elem_of_cons; [by left|right]. pose proof (hk_free _ _ _ H) as Hf. rewrite Forall_forall in Hf. by apply Hf. Qed.

(** One round of the search in [free], at the [i]-th block. *)
Lemma free_round_at s F L i x a : heap_ok s F L -> ring F !! i = Some x -> lo <= a -> (forall y, y ∈ ring F -> y.1 <> a) ->
  free_round a x.1 s =
    Ret (match ring F !! S i with
         | Some y => if (x.1 <? a) && (a <? y.1) then inr x.1 else inl y.1
         | None => if x.1 <? a then inr x.1 else inl base
         end) s.
Proof.
  intros H Hi Ha Hne. unfold free_round, ptr. rewrite bind_gets.
  destruct (chain_lookup _ _ _ _ _ (hk_chain _ _ _ H) Hi) as [_ ->]. rewrite first_drop.
  assert (Hx : base <= x.1) by (destruct (ring_in s F L x H ltac:(by eapply list_elem_of_lookup_2)) as [->|[? _]]; cbn; lia).
  assert (Hxa : x.1 <> a) by (apply Hne; by eapply list_elem_of_lookup_2).
  destruct (ring F !! S i) as [y|] eqn:Ei.
  - pose proof (sorted_lookup _ _ _ _ _ (hk_sorted _ _ _ H) Hi Ei ltac:(lia)) as Hxy. unfold before in Hxy.
    assert (0 <= x.2). { destruct (ring_in s F L x H ltac:(by eapply list_elem_of_lookup_2)) as [->|(? & ? & ?)]; cbn; lia. }
    rewrite (proj2 (Z.leb_gt y.1 x.1)) by lia. cbn [andb]. by destruct ((x.1 <? a) && (a <? y.1)).
  - rewrite (proj2 (Z.ltb_ge a base)) by lia. rewrite andb_false_r, orb_false_r. rewrite (proj2 (Z.leb_le base x.1)) by lia. cbn [andb]. by destruct (x.1 <? a).
Qed.

(** The search of [free] finds the block before [a]. *)
Lemma search_up s F L a P p Q : heap_ok s F L -> lo <= a -> cut_at (ring F) a P p Q ->
  forall d i x fuel, (i + d = length P)%nat -> ring F !! i = Some x -> (d < fuel)%nat -> loop fuel (free_round a) x.1 s = Ret p.1 s.
Proof.
  intros H Ha [E HP Hp HQ].
  assert (Hne : forall y, y ∈ ring F -> y.1 <> a).
  { intros y. rewrite E. rewrite elem_of_app, elem_of_cons. intros [Hy|[->|Hy]]; [apply HP in Hy|..|apply HQ in Hy]; lia. }
  assert (Hk : ring F !! length P = Some p) by (rewrite E; by apply list_lookup_middle).
  induction d as [|d IH]; intros i x [|fuel] Hd Hi Hf; [lia| |lia|]; cbn [loop]; erewrite bind_run; [|by eapply free_round_at| |by eapply free_round_at].
  - assert (x = p) as -> by (replace i with (length P) in Hi by lia; congruence).
    assert (Hn : ring F !! S i = head Q). { replace (S i) with (length P + 1)%nat by lia. rewrite E, lookup_app_r by lia. replace (length P + 1 - length P)%nat with 1%nat by lia. by destruct Q. }
    rewrite Hn. rewrite (proj2 (Z.ltb_lt p.1 a)) by lia. destruct Q as [|q Q]; [done|]. cbn [head andb]. by rewrite (proj2 (Z.ltb_lt a q.1)) by (apply HQ; set_solver).
  - assert (Hy : exists y, ring F !! S i = Some y /\ y.1 < a).
    { destruct (lookup_lt_is_Some_2 (ring F) (S i)) as [y Hy]; [apply lookup_lt_Some in Hk; lia|]. exists y. split; [done|].
      rewrite E in Hy. destruct (decide (S i < length P)%nat) as [Hlt|Hge].
      - rewrite lookup_app_l in Hy by done. apply HP. by eapply list_elem_of_lookup_2.
      - replace (S i) with (length P) in Hy by lia. rewrite list_lookup_middle in Hy by done. congruence. }
    destruct Hy as (y & Hy & Hya). rewrite Hy. rewrite (proj2 (Z.ltb_ge a y.1)) by lia. rewrite andb_false_r. apply (IH (S i) y); [lia|done|lia].
Qed.

Lemma search_over s F L a P p Q : heap_ok s F L -> lo <= a -> cut_at (ring F) a P p Q ->
  forall d i x fuel, (i + S d = length (ring F))%nat -> (length P < i)%nat -> ring F !! i = Some x -> (S d + length P < fuel)%nat -> loop fuel (free_round a) x.1 s = Ret p.1 s.
Proof.
  intros H Ha [E HP Hp HQ].
  assert (Hne : forall y, y ∈ ring F -> y.1 <> a).
  { intros y. rewrite E. rewrite elem_of_app, elem_of_cons. intros [Hy|[->|Hy]]; [apply HP in Hy|..|apply HQ in Hy]; lia. }
  induction d as [|d IH]; intros i x [|fuel] Hd Hlt Hi Hf; [lia| |lia|]; cbn [loop]; (erewrite bind_run; [|by eapply free_round_at]);
    (assert (Hxa : a < x.1) by (rewrite E, lookup_app_r in Hi by lia; destruct (i - length P)%nat eqn:Ei; [lia|]; apply HQ; by eapply list_elem_of_lookup_2));
    rewrite (proj2 (Z.ltb_ge x.1 a)) by lia; cbn [andb].
  - rewrite (lookup_ge_None_2 (ring F) (S i)) by lia. apply (search_up s F L a P p Q H Ha ltac:(by constructor) (length P) 0%nat (base, 0)); [lia|done|lia].
  - destruct (lookup_lt_is_Some_2 (ring F) (S i)) as [y Hy]; [lia|]. rewrite Hy. apply (IH (S i) y); [lia|lia|done|lia].
Qed.

Lemma free_search s F L a P p Q : heap_ok s F L -> lo <= a -> cut_at (ring F) a P p Q ->
  loop (walk_fuel s) (free_round a) (freep s) s = Ret p.1 s.
Proof.
  intros H Ha Hcut. pose proof Hcut as [E HP Hp HQ]. destruct (hk_freep _ _ _ H) as (x & Hx & <-). apply list_elem_of_lookup in Hx as [i Hi].
  pose proof (fuel_enough _ _ _ H) as Hf. pose proof (lookup_lt_Some _ _ _ Hi) as Hlen. assert (Hl : length (ring F) = (length P + S (length Q))%nat) by (by rewrite E, length_app).
  cbn [length] in Hl, Hlen.
  destruct (decide (i <= length P)%nat).
  - eapply (search_up s F L a P p Q H Ha Hcut (length P - i) i x); [lia|done|lia].
  - eapply (search_over s F L a P p Q H Ha Hcut (length F - i) i x); [cbn; lia|lia|done|lia].
Qed.

(** The ring after a block is put into it. *)
Lemma merge_ring F a bs P p Q : cut_at (ring F) a P p Q -> lo <= a ->
  exists F', P ++ merge p (merge (a, bs) Q) = ring F'.
Proof.
  intros [E HP Hp HQ] Ha. destruct P as [|x P]; cbn in E; injection E as <- ->.
  - exists (merge (a, bs) Q). cbn [app]. unfold merge at 1. destruct (merge (a, bs) Q) as [|y ?] eqn:Em; [done|].
    assert (y.1 = a) as <- by (pose proof (merge_first (a, bs) Q 0) as Hf; by rewrite Em in Hf). cbn [fst snd]. by rewrite (proj2 (Z.eqb_neq _ _)) by lia.
  - eexists. reflexivity.
Qed.

(** Two facts about every block of the ring that survive merging. *)
Lemma ring_merge_all s (T : block -> Prop) F L a bs P p Q : heap_ok s F L -> cut_at (ring F) a P p Q -> lo <= a ->
  T (a, bs) -> (forall y, y ∈ F -> T y) -> (forall x q, T x -> T q -> x.1 + 8 * x.2 = q.1 -> T (x.1, x.2 + q.2)) ->
  forall y, y ∈ P ++ merge p (merge (a, bs) Q) -> y = (base, 0) \/ T y.
Proof.
  intros H Hcut Ha H1 H2 H3. assert (Hin : forall y, y ∈ ring F -> y = (base, 0) \/ T y) by (intros y [->|Hy]%elem_of_cons; auto).
  assert (HQF : forall y, y ∈ Q -> y ∈ F).
  { intros y Hy. destruct Hcut as [E HP Hp HQ]. assert (Hr : y ∈ ring F) by (rewrite E; set_solver). apply elem_of_cons in Hr as [->|Hr]; [|done]. apply HQ in Hy. cbn in Hy. lia. }
  assert (HM : forall y, y ∈ merge (a, bs) Q -> lo <= y.1 /\ T y).
  { apply merge_all; [done| |].
    - intros q Hq. pose proof (cut_high _ _ _ _ _ Hcut q Hq). split; [lia|by apply H2, HQF].
    - intros q Hq Eq. split; [done|]. apply H3; [done|by apply H2, HQF|done]. }
  intros y [Hy|Hy]%elem_of_app; [apply Hin; rewrite (cut_eq _ _ _ _ _ Hcut); set_solver|]. revert y Hy. apply merge_all.
  - apply Hin. rewrite (cut_eq _ _ _ _ _ Hcut). set_solver.
  - intros q Hq. right. by apply HM.
  - intros q Hq Eq. right. destruct (HM q Hq) as [Hlo HT]. destruct (Hin p) as [->|Hp]; [rewrite (cut_eq _ _ _ _ _ Hcut); set_solver|cbn in Eq; lia|]. by apply H3.
Qed.

Lemma ring_tail_base F y : StronglySorted before (ring F) -> y ∈ F -> y <> (base, 0).
Proof. intros Hs Hy ->. apply StronglySorted_inv in Hs as [_ Hs]. rewrite Forall_forall in Hs. specialize (Hs _ Hy). unfold before in Hs. cbn in Hs. lia. Qed.

(** The blocks around the address that is freed. *)
Lemma cut_sides s F L a bs P p Q : heap_ok s F L -> cut_at (ring F) a P p Q -> lo <= a -> 1 <= bs -> (forall y, y ∈ F -> apart y (a, bs)) ->
  (p.1 + 8 * p.2 <= a /\ p.1 + 8 <= a /\ 0 <= p.1 /\ 0 <= p.2) /\ (forall q, q ∈ Q -> within s q /\ a + 8 * bs <= q.1).
Proof.
  intros H [E HP Hp HQ] Ha Hbs Hap. split.
  - destruct (ring_in s F L p H) as [->|(W1 & W2 & W3)]; [rewrite E; set_solver|cbn; lia|].
    assert (p ∈ F). { assert (Hr : p ∈ ring F) by (rewrite E; set_solver). apply elem_of_cons in Hr as [->|Hr]; [cbn in W2; lia|done]. }
    specialize (Hap p ltac:(done)). unfold apart in Hap. cbn in Hap. lia.
  - intros q Hq. pose proof (HQ q Hq). assert (Hr : q ∈ ring F) by (rewrite E; set_solver). apply elem_of_cons in Hr as [->|Hr]; [cbn in *; lia|].
    pose proof (hk_free _ _ _ H) as Hf. rewrite Forall_forall in Hf. specialize (Hf q Hr). split; [done|]. specialize (Hap q Hr). unfold apart, within in *. cbn in *. lia.
Qed.

Lemma free_link s F L a bs P p Q : heap_ok s F L -> cut_at (ring F) a P p Q -> within s (a, bs) -> word (umem s) (a + 4) = bs -> (forall y, y ∈ F -> apart y (a, bs)) ->
  exists m, (let! q := ptr p.1 in do! join a q in do! join p.1 a in modify (fun s => s <| freep := p.1 |>)) s = Ret tt (s <| umem := m |> <| freep := p.1 |>) /\
    (forall z, z < a \/ a + 8 <= z -> z < p.1 \/ p.1 + 8 <= z -> m z = umem s z) /\ chain m (P ++ merge p (merge (a, bs) Q)) base.
Proof.
  intros H Hcut (Wa1 & Wa2 & Wa3) Hw Hap. cbn [fst snd] in *. destruct (cut_sides s F L a bs P p Q H Hcut Wa1 Wa2 Hap) as [(S1 & S2 & S3 & S4) HQ].
  pose proof (hk_brk _ _ _ H) as [Hb1 Hb2]. pose proof (hk_chain _ _ _ H) as Hc. rewrite (cut_eq _ _ _ _ _ Hcut) in Hc. apply chain_app in Hc as [HcP (C1 & C2 & HcQ)].
  unfold ptr. rewrite bind_gets, C2.
  destruct (join_run s a bs Q base) as (m1 & R1 & K1 & D1); [done|done|lia|lia|lia|lia| |lia|].
  { intros q Hq. destruct (HQ q Hq) as [(? & ? & ?) ?]. split_and!; lia. }
  rewrite (bind_run _ _ _ _ _ R1).
  assert (Hup : forall q, q ∈ merge (a, bs) Q -> p.1 + 8 <= q.1 /\ 0 <= q.2 /\ q.1 + 8 * q.2 <= 2 ^ 31).
  { apply merge_all; cbn; [lia| |].
    - intros q Hq. destruct (HQ q Hq) as [(? & ? & ?) ?]. lia.
    - intros q Hq Eq. destruct (HQ q Hq) as [(? & ? & ?) ?]. lia. }
  pose proof (join_run (s <| umem := m1 |>) p.1 p.2 (merge (a, bs) Q) base) as J2. rewrite merge_first in J2. cbn [fst] in J2.
  destruct J2 as (m2 & R2 & K2 & D2); [|done|lia|lia|lia|lia|done| |].
  { cbn. rewrite <- C1. apply word_ext. intros z Hz. apply K1. lia. }
  { unfold merge. destruct Q; [done|]. by case_match. }
  rewrite (bind_run _ _ _ _ _ R2). exists m2. split_and!; [done| |].
  - intros z Hz1 Hz2. cbn in K2. rewrite K2, K1 by lia. done.
  - apply chain_app. split; [|by destruct p]. rewrite merge_first. eapply chain_same; [|exact HcP]. intros x z Hx Hz.
    assert (Hxp : x.1 + 8 <= p.1).
    { pose proof (hk_sorted _ _ _ H) as Hs. rewrite (cut_eq _ _ _ _ _ Hcut) in Hs. assert (before x p) as Hxp by (eapply StronglySorted_app_1_elem_of; [exact Hs|done|set_solver]).
      unfold before in Hxp. destruct (ring_in s F L x H) as [->|(W1 & W2 & W3)]; [rewrite (cut_eq _ _ _ _ _ Hcut); set_solver| |lia]. cbn in *.
      destruct (ring_in s F L p H) as [->|(W1 & W2 & W3)]; [rewrite (cut_eq _ _ _ _ _ Hcut); set_solver|cbn in *; lia|lia]. }
    cbn in K2. rewrite K2 by lia. apply K1. lia.
Qed.

(** The rest of memory after a step: nothing but the headers of blocks that are
    free before it or after it changes. *)
Definition quiet (s s' : ustate) (X : list block) : Prop :=
  forall z, (forall x, x ∈ X -> z < x.1 \/ x.1 + 8 <= z) -> umem s' z = umem s z.

(** Headers that do not touch the blocks handed out. *)
Definition clear_of (X L : list block) : Prop := forall x y, x ∈ X -> y ∈ L -> x.1 + 8 <= y.1 \/ y.1 + 8 * y.2 <= x.1.

Lemma ring_clear s F L : heap_ok s F L -> clear_of (ring F) L.
Proof.
  intros H x y [->|Hx]%elem_of_cons Hy; pose proof (hk_live _ _ _ H) as Hl; rewrite Forall_forall in Hl; destruct (Hl y Hy) as [(W1 & W2 & W3) _]; [cbn; lia|].
  pose proof (hk_sep _ _ _ H x y Hx Hy) as Ha. pose proof (hk_free _ _ _ H) as Hf. rewrite Forall_forall in Hf. destruct (Hf x Hx) as (? & ? & ?). unfold apart in Ha. lia.
Qed.

Lemma quiet_live s s' X L y z : quiet s s' X -> clear_of X L -> y ∈ L -> y.1 <= z < y.1 + 8 * y.2 -> umem s' z = umem s z.
Proof. intros Hq Hc Hy Hz. apply Hq. intros x Hx. specialize (Hc x y Hx Hy). lia. Qed.

(** A new list of free blocks with the same blocks handed out. *)
Lemma heap_keep s s' F F' L X : heap_ok s F L -> brk s' = brk s -> mem_max s' = mem_max s -> quiet s s' X -> clear_of X L ->
  chain (umem s') (ring F') base -> StronglySorted before (ring F') -> (forall y, y ∈ F' -> within s y /\ forall l, l ∈ L -> apart y l) ->
  (exists x, x ∈ ring F' /\ x.1 = freep s') -> heap_ok s' F' L.
Proof.
  intros H Eb Em Hq Hc Hch Hs HF Hf. destruct H as [H1 H2 H3 H4 H5 H6 H7 H8]. constructor; rewrite ?Eb, ?Em; try done.
  - apply Forall_forall. intros y Hy. unfold within. rewrite Eb. by apply HF.
  - rewrite Forall_forall in *. intros y Hy. destruct (H5 y Hy) as [W E]. split; [unfold within; by rewrite Eb|]. rewrite <- E. destruct W as (W1 & W2 & W3).
    apply word_ext. intros z Hz. eapply quiet_live; [exact Hq|exact Hc|exact Hy|lia].
  - intros x y Hx Hy. by apply HF.
Qed.

Lemma merged_sorted s F L a bs P p Q : heap_ok s F L -> cut_at (ring F) a P p Q -> lo <= a -> 1 <= bs -> (forall y, y ∈ F -> apart y (a, bs)) ->
  StronglySorted before (P ++ merge p (merge (a, bs) Q)).
Proof.
  intros H Hcut Wa1 Wa2 HapF. destruct (cut_sides s F L a bs P p Q H Hcut Wa1 Wa2 HapF) as [(S1 & S2 & S3 & S4) HQ].
  pose proof (hk_sorted _ _ _ H) as Hs. rewrite (cut_eq _ _ _ _ _ Hcut) in Hs. apply StronglySorted_app in Hs as (Hs1 & Hs2 & Hs3).
  apply StronglySorted_inv in Hs3 as [Hs3 _]. apply StronglySorted_app. split_and!; [|done|].
  - intros x y Hx Hy. specialize (Hs1 x p Hx ltac:(set_solver)). unfold before in *. revert y Hy. apply merge_all; [lia| |cbn; lia].
    apply merge_all; cbn; [lia| |lia]. intros q Hq'. destruct (HQ q Hq') as [_ ?]. lia.
  - apply merge_sorted; [apply merge_sorted; [done|]; intros q Hq'; destruct (HQ q Hq') as [(? & ? & ?) ?]; cbn; lia|].
    apply merge_all; cbn; [lia| |]; intros q Hq'; destruct (HQ q Hq') as [(? & ? & ?) ?]; cbn; lia.
Qed.

(** The block put into the ring is inside one of its blocks. *)
Lemma merged_covers s F L a bs P p Q F' : heap_ok s F L -> cut_at (ring F) a P p Q -> lo <= a -> 1 <= bs -> (forall y, y ∈ F -> apart y (a, bs)) ->
  P ++ merge p (merge (a, bs) Q) = ring F' -> exists y, y ∈ F' /\ bs <= y.2.
Proof.
  intros H Hcut Wa1 Wa2 HapF EF. destruct (cut_sides s F L a bs P p Q H Hcut Wa1 Wa2 HapF) as [(S1 & S2 & S3 & S4) HQ].
  assert (HQ0 : forall q, q ∈ Q -> 0 <= q.2) by (intros q Hq; destruct (HQ q Hq) as [(? & ? & ?) ?]; lia).
  destruct (merge_covers (a, bs) Q (a, bs) ltac:(by left) ltac:(cbn; lia) HQ0) as (u & Hu & U1 & U2). cbn in U1, U2.
  destruct (merge_covers p (merge (a, bs) Q) u ltac:(by right) ltac:(lia)) as (y & Hy & Y1 & Y2).
  { apply merge_all; cbn; [lia|done|intros q Hq _; specialize (HQ0 q Hq); lia]. }
  assert (Hu2 : a <= u.1). { clear - Hu HQ Wa2. revert u Hu. apply merge_all; cbn; [lia| |lia]. intros q Hq. destruct (HQ q Hq) as [_ ?]. lia. }
  assert (HyR : y ∈ ring F') by (rewrite <- EF; set_solver). exists y. apply elem_of_cons in HyR as [->|HyF]; [cbn in *; lia|]. split; [done|].
  lia.
Qed.

Lemma free_ok s F L a bs : heap_ok s F L -> within s (a, bs) -> word (umem s) (a + 4) = bs -> (forall y, y ∈ F -> apart y (a, bs)) -> (forall y, y ∈ L -> apart (a, bs) y) ->
  exists s' F', free (a + 8) s = Ret tt s' /\ heap_ok s' F' L /\ brk s' = brk s /\ mem_max s' = mem_max s /\ grants s' = grants s /\ quiet s s' ((a, bs) :: ring F) /\
    exists y, y ∈ F' /\ bs <= y.2.
Proof.
  intros H Hin Hw HapF HapL. pose proof (hk_brk _ _ _ H) as [Hb1 Hb2]. pose proof Hin as (Wa1 & Wa2 & Wa3). cbn [fst snd] in *.
  pose proof (hk_free _ _ _ H) as Hf. rewrite Forall_forall in Hf. pose proof (hk_live _ _ _ H) as Hl. rewrite Forall_forall in Hl.
  assert (Hne : forall x, x ∈ ring F -> 0 <= x.2 /\ x.1 <> a).
  { intros x [->|Hx]%elem_of_cons; [cbn; lia|]. specialize (HapF x Hx). destruct (Hf x Hx) as (? & ? & ?). unfold apart in HapF. cbn in HapF. lia. }
  destruct (split_at (ring F) a (base, 0) (hk_sorted _ _ _ H) Hne eq_refl ltac:(cbn; lia)) as (P & p & Q & Hcut).
  destruct (free_link s F L a bs P p Q H Hcut Hin Hw HapF) as (m & R & K & D).
  pose proof (merged_sorted s F L a bs P p Q H Hcut Wa1 Wa2 HapF) as Hsort.
  destruct (merge_ring F a bs P p Q Hcut Wa1) as [F' EF]. rewrite EF in D, Hsort.
  assert (HpB : p ∈ ring F) by (rewrite (cut_eq _ _ _ _ _ Hcut); set_solver).
  set (s' := s <| umem := m |> <| freep := p.1 |>). assert (Hq : quiet s s' ((a, bs) :: ring F)).
  { intros z Hz. apply K; [apply (Hz (a, bs)); set_solver|apply Hz; set_solver]. }
  exists s', F'. split_and!; [|apply (heap_keep s s' F F' L ((a, bs) :: ring F)); try done|done|done|done|exact Hq|by eapply merged_covers].
  - unfold free, HDR. replace (u32 (a + 8 - 8)) with a by (rewrite u32_small; lia). rewrite bind_gets.
    rewrite (bind_run _ _ _ _ _ (free_search s F L a P p Q H Wa1 Hcut)). exact R.
  - intros x y [->|Hx]%elem_of_cons Hy; [|by eapply ring_clear]. specialize (HapL y Hy). destruct (Hl y Hy) as [(? & ? & ?) _]. unfold apart in HapL. cbn in *. lia.
  - intros y Hy. assert (Hy' : y ∈ P ++ merge p (merge (a, bs) Q)) by (rewrite EF; set_solver).
    pose proof (ring_tail_base F' y Hsort Hy) as Hnb. split.
    + destruct (ring_merge_all s (within s) F L a bs P p Q H Hcut Wa1 Hin Hf) with (y := y) as [?|?]; [|done..]. unfold within. cbn. lia.
    + intros l Hl'. destruct (ring_merge_all s (fun y => apart y l) F L a bs P p Q H Hcut Wa1) with (y := y) as [?|?]; [by apply HapL|intros x Hx; by eapply hk_sep| |done..].
      intros x q Hx Hq' E. destruct (Hl l Hl') as [(? & ? & ?) _]. by apply apart_merge.
  - exists (default (0, 0) (head (merge p (merge (a, bs) Q)))). pose proof (merge_first p (merge (a, bs) Q) 0) as Hm.
    destruct (merge p (merge (a, bs) Q)) as [|y ?] eqn:Em; [unfold merge in Em; repeat case_match; done|]. cbn in *. split; [rewrite <- EF; set_solver|done].
Qed.

(** ** Growing the heap *)

(** What the client may rely on: the blocks it holds, and all memory outside the
    heap and the allocator's own header, keep their contents. *)
Definition undisturbed (s s' : ustate) (L : list block) : Prop :=
  (forall y z, y ∈ L -> y.1 <= z < y.1 + 8 * y.2 -> umem s' z = umem s z) /\
  (forall z, z < base \/ base + 8 <= z < lo \/ brk s' <= z -> umem s' z = umem s z).

Lemma undisturbed_grants s s' f L : undisturbed s s' L -> undisturbed s (s' <| grants ::= f |>) L.
Proof. done. Qed.

Lemma quiet_undisturbed s s' X L : quiet s s' X -> clear_of X L -> (forall x, x ∈ X -> x.1 = base \/ lo <= x.1 /\ x.1 + 8 <= brk s') -> lo <= brk s' -> undisturbed s s' L.
Proof.
  intros Hq Hc HX Hlo. split; [intros y z Hy Hz; by eapply quiet_live|]. intros z Hz. apply Hq. intros x Hx. destruct (HX x Hx); lia.
Qed.

Lemma undisturbed_trans s1 s2 s3 L : undisturbed s1 s2 L -> undisturbed s2 s3 L -> brk s2 <= brk s3 -> undisturbed s1 s3 L.
Proof. intros [A1 A2] [B1 B2] Hb. split; [intros y z Hy Hz; rewrite (B1 y z), (A1 y z) by done; done|]. intros z Hz. rewrite B2, A2 by lia. done. Qed.

Lemma ring_bounds s F L x : heap_ok s F L -> x ∈ ring F -> x.1 = base \/ lo <= x.1 /\ x.1 + 8 <= brk s.
Proof. intros H Hx. destruct (ring_in s F L x H Hx) as [->|(W1 & W2 & W3)]; [by left|right; lia]. Qed.

Lemma heap_grow s s' F L : heap_ok s F L -> brk s <= brk s' <= mem_max s' -> mem_max s' = mem_max s -> freep s' = freep s ->
  (forall z, z < brk s -> umem s' z = umem s z) -> heap_ok s' F L.
Proof.
  intros H Hb Em Ef Hm. pose proof (fun x => ring_bounds s F L x H) as Hrb. destruct H as [H1 H2 H3 H4 H5 H6 H7 H8].
  assert (Hw : forall x, within s x -> within s' x) by (unfold within; intros x (? & ? & ?); split_and!; lia).
  constructor; rewrite ?Em, ?Ef; try done.
  - lia.
  - eapply chain_same; [|exact H2]. intros x z Hx Hz. apply Hm. destruct (Hrb x Hx); lia.
  - eapply Forall_impl; [exact H4|auto].
  - eapply Forall_impl; [exact H5|]. intros x [W E]. split; [auto|]. rewrite <- E. destruct W as (? & ? & ?). apply word_ext. intros z Hz. apply Hm. lia.
Qed.

Lemma heap_ok_grants s F L f : heap_ok s F L -> heap_ok (s <| grants ::= f |>) F L.
Proof. intros [H1 H2 H3 H4 H5 H6 H7 H8]. by constructor. Qed.

(** The kernel refuses the memory that a request for [nu] headers asks for. *)
Definition refuses (s : ustate) (nu : Z) : Prop := hd false (grants s) = false \/ mem_max s < brk s + 8 * Z.max 4096 nu.

(** It was not asked for memory, or gave it. *)
Definition brk_grown (s s' : ustate) (nu : Z) : Prop :=
  grants s' = grants s /\ brk s' = brk s \/ grants s = true :: grants s' /\ brk s' = brk s + 8 * Z.max 4096 nu.

Lemma morecore_ok s F L nu : heap_ok s F L -> 1 <= nu < 2 ^ 27 ->
  refuses s nu /\ morecore nu s = Ret 0 (s <| grants ::= tail |>) \/
  exists s' F', morecore nu s = Ret (freep s') s' /\ freep s' <> 0 /\ heap_ok s' F' L /\ grants s = true :: grants s' /\ brk s' = brk s + 8 * Z.max 4096 nu /\
    mem_max s' = mem_max s /\ undisturbed s s' L /\ exists y, y ∈ F' /\ nu <= y.2.
Proof.
  intros H Hnu. pose proof (hk_brk _ _ _ H) as [Hb1 Hb2]. unfold morecore, refuses. set (n := if nu <? 4096 then 4096 else nu).
  assert (En : n = Z.max 4096 nu) by (unfold n; destruct (Z.ltb_spec nu 4096); lia). rewrite <- En. unfold HDR.
  assert (Ei : i32 (u32 (n * 8)) = n * 8) by (rewrite u32_small, i32_small by lia; done). unfold sbrk. rewrite Ei.
  destruct (decide (hd false (grants s) = true /\ brk s + n * 8 <= mem_max s)) as [[Hg Hle]|Hno]; [right|left].
  - assert (exists g, grants s = true :: g) as [g Eg] by (destruct (grants s) as [|[] g]; [done|by exists g|done]).
    set (s1 := s <| grants ::= tail |> <| brk ::= fun b => b + n * 8 |> <| umem ::= set_word (brk s + 4) n |>).
    assert (H1 : heap_ok s1 F L). { apply (heap_grow s s1 F L H); [cbn; lia|done|done|]. intros z Hz. apply set_word_out. lia. }
    pose proof (hk_free _ _ _ H) as Hf. rewrite Forall_forall in Hf. pose proof (hk_live _ _ _ H) as Hl. rewrite Forall_forall in Hl.
    destruct (free_ok s1 F L (brk s) n H1) as (s' & F' & R & H' & Eb & Em & Egr & Hq & y & Hy & Hy').
    + unfold within. cbn. lia.
    + apply word_set_eq. lia.
    + intros y Hy. destruct (Hf y Hy) as (? & ? & ?). left. cbn. lia.
    + intros y Hy. destruct (Hl y Hy) as [(? & ? & ?) _]. right. cbn. lia.
    + exists s', F'. split_and!; [|pose proof (hk_freep _ _ _ H') as (x & Hx & <-); destruct (ring_bounds _ _ _ _ H' Hx); lia|done|rewrite Egr; cbn; by rewrite Eg|rewrite Eb; cbn; lia|by rewrite Em| |exists y; split; [done|lia]].
      * rewrite (bind_run _ _ _ (brk s) (s <| grants ::= tail |> <| brk ::= fun b => b + n * 8 |>));
          [|unfold bind, gets, modify, bindO, id; rewrite Hg, (proj2 (Z.leb_le 0 _)), (proj2 (Z.leb_le _ (mem_max s))) by lia; done].
        rewrite (proj2 (Z.eqb_neq (brk s) (u32 (-1)))) by (change (u32 (-1)) with 4294967295; lia).
        erewrite bind_run; [|reflexivity]. rewrite u32_small by lia. erewrite bind_run; [|exact R]. done.
      * apply (undisturbed_trans s s1 s'); [| |rewrite Eb; done].
        -- split; [|intros z Hz; cbn in *; apply set_word_out; cbn in Hz; lia]. intros y0 z Hy0 Hz. destruct (Hl y0 Hy0) as [(? & ? & ?) _]. apply set_word_out. lia.
        -- eapply quiet_undisturbed; [exact Hq| | |rewrite Eb; cbn; lia].
           ++ intros x y0 [->|Hx]%elem_of_cons Hy0; [|by eapply (ring_clear s1)]. destruct (Hl y0 Hy0) as [(? & ? & ?) _]. cbn. lia.
           ++ intros x [->|Hx]%elem_of_cons; [right; rewrite Eb; cbn; lia|]. rewrite Eb. by eapply ring_bounds.
  - assert (Hr : hd false (grants s) && ((0 <=? brk s + n * 8) && (brk s + n * 8 <=? mem_max s)) = false).
    { destruct (hd false (grants s)); [|done]. destruct (Z.leb_spec (brk s + n * 8) (mem_max s)); [by destruct Hno|]. apply andb_false_r. }
    split; [|unfold bind, gets, modify, bindO, id; rewrite Hr; done]. destruct (hd false (grants s)); [right|by left]. destruct (Z.leb_spec (brk s + n * 8) (mem_max s)); [by destruct Hno|lia].
Qed.

(** ** Taking a block *)

Lemma heap_alloc s F L x : heap_ok s F L -> within s x -> word (umem s) (x.1 + 4) = x.2 -> (forall y, y ∈ F -> apart y x) -> (forall y, y ∈ L -> apart x y) -> heap_ok s F (x :: L).
Proof.
  intros H Hw Hx HF HL. destruct H as [H1 H2 H3 H4 H5 H6 H7 H8]. constructor; try done.
  - by constructor.
  - intros y z Hy [->|Hz]%elem_of_cons; [by apply HF|by apply H6].
  - constructor; [done|]. by apply Forall_forall.
Qed.

(** Headers of the ring do not overlap. *)
Lemma ring_hdr s F L x y : heap_ok s F L -> x ∈ ring F -> y ∈ ring F -> before x y -> x.1 + 8 <= y.1.
Proof.
  intros H Hx Hy Hxy. unfold before in Hxy. destruct (ring_in s F L x H Hx) as [->|(W1 & W2 & W3)]; [|lia]. cbn in *.
  destruct (ring_in s F L y H Hy) as [->|(W1 & W2 & W3)]; [cbn in *; lia|lia].
Qed.

(** What a step of [malloc] that finds a block gives. *)
Definition allocated (s : ustate) (L : list block) (nu a : Z) (s' : ustate) : Prop :=
  exists F', heap_ok s' F' ((a, nu) :: L) /\ grants s' = grants s /\ brk s' = brk s /\ mem_max s' = mem_max s /\ undisturbed s s' L.

(** The ring around the block that is taken from. *)
Record around (s : ustate) (F L P : list block) (pv p : block) (Q : list block) : Prop := {
  ar_heap : heap_ok s F L;
  ar_eq : ring F = P ++ pv :: p :: Q }.

Section take.
Context {s : ustate} {F L P Q : list block} {pv p : block} (H : around s F L P pv p Q).

Lemma ar_in x : x ∈ P ++ pv :: p :: Q -> x ∈ ring F.
Proof. by rewrite (ar_eq _ _ _ _ _ _ _ H). Qed.

Lemma ar_sorted : StronglySorted before (P ++ pv :: p :: Q).
Proof. rewrite <- (ar_eq _ _ _ _ _ _ _ H). apply (hk_sorted _ _ _ (ar_heap _ _ _ _ _ _ _ H)). Qed.

Lemma ar_p : p ∈ F /\ within s p.
Proof.
  assert (Hp : p ∈ F). { pose proof (ar_eq _ _ _ _ _ _ _ H) as E. destruct P as [|x P']; injection E as _ ->; set_solver. }
  split; [done|]. pose proof (hk_free _ _ _ (ar_heap _ _ _ _ _ _ _ H)) as Hf. rewrite Forall_forall in Hf. by apply Hf.
Qed.

(** Every other block of the ring is on one side of [p]. *)
Lemma ar_side x : x ∈ P ++ pv :: Q -> before x p \/ before p x.
Proof.
  pose proof ar_sorted as Hs. intros [Hx|[->|Hx]%elem_of_cons]%elem_of_app.
  - left. eapply StronglySorted_app_1_elem_of; [exact Hs|done|set_solver].
  - left. apply StronglySorted_app in Hs as (_ & _ & Hs). apply StronglySorted_inv in Hs as [_ Hs]. rewrite Forall_forall in Hs. apply Hs. set_solver.
  - right. apply StronglySorted_app in Hs as (_ & _ & Hs). apply StronglySorted_inv in Hs as [Hs _]. apply StronglySorted_inv in Hs as [_ Hs]. rewrite Forall_forall in Hs. by apply Hs.
Qed.

(** The ring with [p] cut to [p']: shorter, or gone. *)
Definition cut_ring (k : Z) : list block := P ++ pv :: (if k =? 0 then Q else (p.1, k) :: Q).

Lemma cut_ring_form k : exists F', cut_ring k = ring F'.
Proof. pose proof (ar_eq _ _ _ _ _ _ _ H) as E. unfold cut_ring. destruct P as [|x P']; injection E as <- _; by eexists. Qed.

Lemma cut_ring_in k y : y ∈ cut_ring k -> y ∈ P ++ pv :: Q \/ y = (p.1, k) /\ k <> 0.
Proof. unfold cut_ring. destruct (Z.eqb_spec k 0); set_solver. Qed.

Lemma cut_ring_sorted k : 0 <= k <= p.2 -> StronglySorted before (cut_ring k).
Proof.
  intros Hk. pose proof ar_sorted as Hs. unfold cut_ring. apply StronglySorted_app in Hs as (Hs1 & Hs2 & Hs3).
  apply StronglySorted_inv in Hs3 as [Hs3 Hs4]. apply StronglySorted_inv in Hs3 as [Hs5 Hs6]. rewrite Forall_forall in Hs4, Hs6.
  assert (Hs7 : StronglySorted before (if k =? 0 then Q else (p.1, k) :: Q)).
  { destruct (Z.eqb_spec k 0); [done|]. constructor; [done|]. apply Forall_forall. intros y Hy. specialize (Hs6 y Hy). unfold before in *. cbn. lia. }
  assert (Hin : forall y, y ∈ (if k =? 0 then Q else (p.1, k) :: Q) -> exists y', y' ∈ p :: Q /\ y'.1 = y.1).
  { intros y. destruct (Z.eqb_spec k 0); [exists y; set_solver|]. intros [->|Hy]%elem_of_cons; [exists p; set_solver|exists y; set_solver]. }
  apply StronglySorted_app. split_and!; [|done|].
  - intros x y Hx [->|Hy]%elem_of_cons; [apply Hs1; set_solver|]. destruct (Hin y Hy) as (y' & Hy' & E). unfold before. rewrite <- E. apply (Hs1 x y'); set_solver.
  - constructor; [done|]. apply Forall_forall. intros y Hy. destruct (Hin y Hy) as (y' & Hy' & E). unfold before. rewrite <- E. by apply (Hs4 y').
Qed.

(** Headers of the other blocks are clear of [p], and of [pv] for all but itself. *)
Lemma ar_clear x : x ∈ P ++ pv :: Q -> x.1 + 8 <= p.1 \/ p.1 + 8 * p.2 <= x.1.
Proof.
  intros Hx. pose proof (ar_heap _ _ _ _ _ _ _ H) as Hh. destruct (ar_side x Hx) as [Hb|Hb]; [left|right; unfold before in Hb; lia].
  eapply ring_hdr; [exact Hh|apply ar_in; set_solver|apply ar_in; set_solver|done].
Qed.

Lemma ar_clear_pv x : x ∈ P ++ Q -> x.1 + 8 <= pv.1 \/ pv.1 + 8 <= x.1.
Proof.
  intros Hx. pose proof (ar_heap _ _ _ _ _ _ _ H) as Hh. pose proof ar_sorted as Hs. apply elem_of_app in Hx as [Hx|Hx].
  - left. eapply ring_hdr; [exact Hh|apply ar_in; set_solver|apply ar_in; set_solver|]. eapply StronglySorted_app_1_elem_of; [exact Hs|done|set_solver].
  - right. eapply ring_hdr; [exact Hh|apply ar_in; set_solver|apply ar_in; set_solver|]. apply StronglySorted_app in Hs as (_ & _ & Hs). apply StronglySorted_inv in Hs as [_ Hs].
    rewrite Forall_forall in Hs. apply Hs. set_solver.
Qed.

Lemma ar_pv : pv.1 + 8 <= p.1.
Proof.
  eapply ring_hdr; [exact (ar_heap _ _ _ _ _ _ _ H)|apply ar_in; set_solver|apply ar_in; set_solver|].
  pose proof ar_sorted as Hs. apply StronglySorted_app in Hs as (_ & _ & Hs). apply StronglySorted_inv in Hs as [_ Hs]. rewrite Forall_forall in Hs. apply Hs. set_solver.
Qed.

Lemma ar_first : 0 <= first Q base < 2 ^ 32.
Proof.
  pose proof (ar_heap _ _ _ _ _ _ _ H) as Hh. pose proof (hk_brk _ _ _ Hh). destruct (first_in Q base) as [->|(q & Hq & ->)]; [lia|].
  destruct (ring_bounds s F L q Hh); [apply ar_in; set_solver|lia|lia].
Qed.

(** The block is unlinked when it has just the size, and shortened otherwise. *)
Lemma take_run nu : 1 <= nu <= p.2 ->
  let k := p.2 - nu in let a := p.1 + 8 * k in
  exists m, malloc_take nu pv.1 p.1 p.2 s = Ret (a + 8) (s <| umem := m |> <| freep := pv.1 |>) /\
    chain m (cut_ring k) base /\ word m (a + 4) = nu /\
    forall z, z < pv.1 \/ pv.1 + 8 <= z -> z < p.1 \/ p.1 + 8 <= z -> z < a \/ a + 8 <= z -> m z = umem s z.
Proof.
  intros Hnu k a. pose proof (ar_heap _ _ _ _ _ _ _ H) as Hh. destruct ar_p as [HpF (W1 & W2 & W3)]. pose proof (hk_brk _ _ _ Hh) as [Hb1 Hb2].
  pose proof (hk_chain _ _ _ Hh) as Hc. rewrite (ar_eq _ _ _ _ _ _ _ H) in Hc. apply chain_app in Hc as (HcP & C1 & C2 & C3 & C4 & HcQ). cbn [first] in *.
  pose proof ar_pv as Hpv.
  unfold malloc_take, cut_ring. destruct (Z.eqb_spec p.2 nu) as [E|E].
  - assert (k = 0) as Ek by lia. rewrite Ek. cbn [Z.eqb]. exists (set_word pv.1 (first Q base) (umem s)). split_and!.
    + unfold bind, ptr, gets, bindO, set_ptr, modify, ret. rewrite C4. cbn. unfold HDR. rewrite u32_small by lia. do 2 f_equal. lia.
    + apply chain_app. split; [|cbn [chain first]; split_and!].
      * eapply chain_same; [|exact HcP]. intros x z Hx Hz. apply set_word_out. destruct (ar_clear_pv x ltac:(set_solver)); lia.
      * rewrite word_set_ne by lia. done.
      * apply word_set_eq, ar_first.
      * eapply chain_same; [|exact HcQ]. intros x z Hx Hz. apply set_word_out. destruct (ar_clear_pv x ltac:(set_solver)); lia.
    + unfold a. rewrite Ek, word_set_ne by lia. rewrite Z.mul_0_r, Z.add_0_r. congruence.
    + intros z Hz _ _. apply set_word_out. lia.
  - rewrite (proj2 (Z.eqb_neq k 0)) by lia. exists (set_word (a + 4) nu (set_word (p.1 + 4) k (umem s))). assert (Ha : p.1 + 8 <= a /\ a + 8 * nu = p.1 + 8 * p.2) by lia.
    assert (Hout : forall x, x ∈ P ++ pv :: Q -> forall z, x.1 <= z < x.1 + 8 -> set_word (a + 4) nu (set_word (p.1 + 4) k (umem s)) z = umem s z).
    { intros x Hx z Hz. destruct (ar_clear x Hx); rewrite !set_word_out by lia; done. }
    split_and!.
    + unfold bind, gets, bindO, set_size, modify, ret. cbn. unfold HDR. fold k. rewrite (u32_small k) by lia. fold a. rewrite (u32_small a), u32_small by lia. done.
    + apply chain_app. split; [|cbn [chain first fst snd]; split_and!].
      * eapply chain_same; [|exact HcP]. intros x z Hx. apply Hout. set_solver.
      * transitivity (word (umem s) (pv.1 + 4)); [|exact C1]. apply word_ext. intros z Hz. apply (Hout pv); [set_solver|lia].
      * transitivity (word (umem s) pv.1); [|exact C2]. apply word_ext. intros z Hz. apply (Hout pv); [set_solver|lia].
      * rewrite word_set_ne by lia. apply word_set_eq. lia.
      * rewrite !word_set_ne by lia. done.
      * eapply chain_same; [|exact HcQ]. intros x z Hx. apply Hout. set_solver.
    + apply word_set_eq. lia.
    + intros z _ Hz1 Hz2. rewrite !set_word_out by lia. done.
Qed.

Lemma take_ok nu : 1 <= nu <= p.2 -> exists a s', malloc_take nu pv.1 p.1 p.2 s = Ret (a + 8) s' /\ allocated s L nu a s'.
Proof.
  intros Hnu. destruct (take_run nu Hnu) as (m & R & D & Hw & K). pose proof (ar_heap _ _ _ _ _ _ _ H) as Hh. destruct ar_p as [HpF (W1 & W2 & W3)].
  set (k := p.2 - nu) in *. set (a := p.1 + 8 * k) in *. set (s' := s <| umem := m |> <| freep := pv.1 |>) in *. exists a, s'. split; [done|].
  assert (Hq : quiet s s' ((a, nu) :: ring F)).
  { intros z Hz. apply K; [apply Hz|apply Hz|apply (Hz (a, nu))]; apply elem_of_cons; [right; apply ar_in; set_solver..|by left]. }
  pose proof (hk_live _ _ _ Hh) as Hl. rewrite Forall_forall in Hl. pose proof (hk_free _ _ _ Hh) as Hf. rewrite Forall_forall in Hf.
  assert (Hap : forall y, y ∈ L -> apart p y) by (intros y Hy; by eapply hk_sep).
  assert (Hcl : clear_of ((a, nu) :: ring F) L).
  { intros x y [->|Hx]%elem_of_cons Hy; [|by eapply ring_clear]. specialize (Hap y Hy). unfold apart in Hap. cbn. lia. }
  destruct (cut_ring_form k) as [F' EF]. pose proof (cut_ring_sorted k ltac:(lia)) as Hs. rewrite EF in D, Hs.
  assert (HF' : forall y, y ∈ F' -> y ∈ F /\ y ∈ P ++ pv :: Q \/ y = (p.1, k) /\ k <> 0).
  { intros y Hy. pose proof (ring_tail_base F' y Hs Hy) as Hne. destruct (cut_ring_in k y) as [Hy'|?]; [rewrite EF; set_solver| |by right]. left. split; [|done].
    assert (Hr : y ∈ ring F) by (apply ar_in; set_solver). apply elem_of_cons in Hr as [?|?]; done. }
  exists F'. split_and!; [|done|done|done|].
  - apply heap_alloc.
    + apply (heap_keep s s' F F' L ((a, nu) :: ring F)); try done.
      * intros y Hy. destruct (HF' y Hy) as [[Hy1 _]|[-> Hk]]; [split; [by apply Hf|intros l Hl'; by eapply hk_sep]|].
        split; [unfold within; cbn; lia|]. intros l Hl'. specialize (Hap l Hl'). unfold apart in *. cbn. lia.
      * exists pv. rewrite <- EF. unfold cut_ring. split; [set_solver|done].
    + unfold within. cbn. lia.
    + done.
    + intros y Hy. destruct (HF' y Hy) as [[Hy1 Hy2]|[-> Hk]]; [|left; cbn; lia]. destruct (ar_side y Hy2) as [Hb|Hb]; unfold before, apart in *; cbn; lia.
    + intros y Hy. specialize (Hap y Hy). unfold apart in *. cbn. lia.
  - eapply quiet_undisturbed; [exact Hq|exact Hcl| |cbn; pose proof (hk_brk _ _ _ Hh); lia].
    intros x [->|Hx]%elem_of_cons; [right; cbn; lia|]. exact (ring_bounds s F L x Hh Hx).
Qed.
End take.

(** ** The search of [malloc] *)

Lemma ring_inj s F L i j x y : heap_ok s F L -> ring F !! i = Some x -> ring F !! j = Some y -> x.1 = y.1 -> i = j.
Proof.
  intros H Hi Hj E. destruct (Nat.lt_trichotomy i j) as [Hlt|[->|Hlt]]; [|done|].
  - pose proof (sorted_lookup _ _ _ _ _ (hk_sorted _ _ _ H) Hi Hj Hlt) as Hb. pose proof (ring_hdr s F L x y H ltac:(by eapply list_elem_of_lookup_2) ltac:(by eapply list_elem_of_lookup_2) Hb). lia.
  - pose proof (sorted_lookup _ _ _ _ _ (hk_sorted _ _ _ H) Hj Hi Hlt) as Hb. pose proof (ring_hdr s F L y x H ltac:(by eapply list_elem_of_lookup_2) ltac:(by eapply list_elem_of_lookup_2) Hb). lia.
Qed.

Lemma round_fit s F L nu i pv p : heap_ok s F L -> ring F !! i = Some pv -> ring F !! S i = Some p -> 1 <= nu <= p.2 ->
  exists a s', malloc_round nu (pv.1, p.1) s = Ret (inr (a + 8)) s' /\ allocated s L nu a s'.
Proof.
  intros H Hi Hp Hnu. destruct (@take_ok s F L (take i (ring F)) (drop (S (S i)) (ring F)) pv p) with (nu := nu) as (a & s' & R & HA); [|done|].
  { constructor; [done|]. rewrite <- (take_drop_middle (ring F) i pv Hi) at 1. by rewrite (drop_S _ p). }
  exists a, s'. split; [|done]. unfold malloc_round, size. rewrite bind_gets. destruct (chain_lookup _ _ _ _ _ (hk_chain _ _ _ H) Hp) as [-> _].
  rewrite (proj2 (Z.leb_le nu p.2)) by lia. by rewrite (bind_run _ _ _ _ _ R).
Qed.

Lemma round_next s F L nu prev i x : heap_ok s F L -> ring F !! i = Some x -> x.2 < nu -> x.1 <> freep s ->
  malloc_round nu (prev, x.1) s = Ret (inl (x.1, match ring F !! S i with Some y => y.1 | None => base end)) s.
Proof.
  intros H Hx Hs Hf. unfold malloc_round, size, ptr. rewrite bind_gets. destruct (chain_lookup _ _ _ _ _ (hk_chain _ _ _ H) Hx) as [-> E].
  rewrite (proj2 (Z.leb_gt nu x.2)) by lia. rewrite bind_gets. rewrite (proj2 (Z.eqb_neq x.1 (freep s))) by done. rewrite bind_gets, E, first_drop. done.
Qed.

Section scan.
Context {s : ustate} {F L : list block} {nu : Z} {f : nat} {xf : block}.
Hypothesis H : heap_ok s F L.
Hypothesis Hnu : 1 <= nu.
Hypothesis Hf : ring F !! f = Some xf.
Hypothesis Ef : xf.1 = freep s.

(** [prev] is the block before the [i]-th, when there is one in the list. *)
Definition follows (prev : Z) (i : nat) : Prop := forall j, i = S j -> exists pv, ring F !! j = Some pv /\ pv.1 = prev.

Definition found (k : nat) (st : Z * Z) : Prop := exists a s', loop k (malloc_round nu) st s = Ret (a + 8) s' /\ allocated s L nu a s'.
Definition small (i j : nat) : Prop := forall l y, (i <= l < j)%nat -> ring F !! l = Some y -> y.2 < nu.

Lemma visit i x prev k : ring F !! i = Some x -> follows prev i -> found (S k) (prev, x.1) \/ x.2 < nu.
Proof.
  intros Hi Hp. destruct (Z.leb_spec nu x.2) as [Hle|]; [left|by right]. destruct i as [|i]; [injection Hi as <-; cbn in Hle; lia|].
  destruct (Hp i eq_refl) as (pv & Hpv & <-). destruct (round_fit s F L nu i pv x H Hpv Hi ltac:(lia)) as (a & s' & R & HA).
  exists a, s'. split; [|done]. cbn [loop]. by rewrite (bind_run _ _ _ _ _ R).
Qed.

Lemma scan_up : forall d i x prev k, (i + d = f)%nat -> ring F !! i = Some x -> follows prev i ->
  found (d + S k) (prev, x.1) \/ small i (S f) /\ exists prev', loop (d + S k) (malloc_round nu) (prev, x.1) s = loop (S k) (malloc_round nu) (prev', freep s) s.
Proof.
  induction d as [|d IH]; intros i x prev k Hd Hi Hp.
  - assert (i = f) as -> by lia. assert (x = xf) as -> by congruence. destruct (visit f xf prev k Hi Hp) as [?|Hs]; [by left|right].
    split; [|exists prev; by rewrite <- Ef]. intros l y Hl Hy. assert (l = f) as -> by lia. congruence.
  - destruct (visit i x prev (d + S k) Hi Hp) as [?|Hs]; [by left|].
    assert (Hne : x.1 <> freep s). { rewrite <- Ef. intros E. pose proof (ring_inj s F L i f x xf H Hi Hf E). lia. }
    destruct (lookup_lt_is_Some_2 (ring F) (S i)) as [y Hy]; [apply lookup_lt_Some in Hf; lia|].
    pose proof (round_next s F L nu prev i x H Hi Hs Hne) as R. rewrite Hy in R.
    destruct (IH (S i) y x.1 k ltac:(lia) Hy) as [(a & s' & R' & HA)|(Hsm & prev' & R')].
    + intros j Ej. injection Ej as <-. by exists x.
    + left. exists a, s'. split; [|done]. cbn [loop Nat.add]. by rewrite (bind_run _ _ _ _ _ R).
    + right. split; [|exists prev'; cbn [loop Nat.add]; by rewrite (bind_run _ _ _ _ _ R)].
      intros l z Hl Hz. destruct (decide (l = i)) as [->|]; [congruence|]. apply (Hsm l z); [lia|done].
Qed.

Lemma scan_over : forall d i x prev k, (i + S d = length (ring F))%nat -> (f < i)%nat -> ring F !! i = Some x -> follows prev i ->
  found (S d + (f + S k)) (prev, x.1) \/ small i (length (ring F)) /\ small 0 (S f) /\ exists prev', loop (S d + (f + S k)) (malloc_round nu) (prev, x.1) s = loop (S k) (malloc_round nu) (prev', freep s) s.
Proof.
  intros d. induction d as [|d IH]; intros i x prev k Hd Hlt Hi Hp;
    match goal with |- found (S ?n + ?m) _ \/ _ => destruct (visit i x prev (n + m) Hi Hp) as [Hfd|Hs]; [by left|] end;
    (assert (Hne : x.1 <> freep s) by (rewrite <- Ef; intros E; pose proof (ring_inj s F L i f x xf H Hi Hf E); lia));
    pose proof (round_next s F L nu prev i x H Hi Hs Hne) as R.
  - rewrite (lookup_ge_None_2 (ring F) (S i)) in R by lia.
    destruct (scan_up f 0 (base, 0) x.1 k eq_refl eq_refl) as [(a & s' & R' & HA)|(Hsm & prev' & R')]; [done|left; exists a, s'; split; [|done]|right; split_and!; [|done|exists prev']].
    + cbn [loop Nat.add]. by rewrite (bind_run _ _ _ _ _ R).
    + intros l z Hl Hz. assert (l = i) as -> by lia. congruence.
    + cbn [loop Nat.add]. by rewrite (bind_run _ _ _ _ _ R).
  - destruct (lookup_lt_is_Some_2 (ring F) (S i)) as [y Hy]; [lia|]. rewrite Hy in R.
    destruct (IH (S i) y x.1 k ltac:(lia) ltac:(lia) Hy) as [(a & s' & R' & HA)|(Hsm & Hsm0 & prev' & R')]; [intros j Ej; injection Ej as <-; by exists x|left; exists a, s'; split; [|done]|right; split_and!; [|done|exists prev']].
    + cbn [loop Nat.add] in *. by rewrite (bind_run _ _ _ _ _ R).
    + intros l z Hl Hz. destruct (decide (l = i)) as [->|]; [congruence|]. apply (Hsm l z); [lia|done].
    + cbn [loop Nat.add] in *. by rewrite (bind_run _ _ _ _ _ R).
Qed.

(** One turn around the ring from [freep]: a block is found, or all are too small. *)
Lemma turn k : let st := (freep s, word (umem s) (freep s)) in
  found (length F + S k) st \/ (forall y, y ∈ F -> y.2 < nu) /\ exists prev', loop (length F + S k) (malloc_round nu) st s = loop (S k) (malloc_round nu) (prev', freep s) s.
Proof.
  cbv zeta. destruct (chain_lookup _ _ _ _ _ (hk_chain _ _ _ H) Hf) as [_ E]. rewrite Ef, first_drop in E. rewrite E. pose proof (lookup_lt_Some _ _ _ Hf) as Hl. cbn [length] in Hl.
  assert (Hall : small 0 (length (ring F)) -> forall y, y ∈ F -> y.2 < nu).
  { intros Hs y Hy. apply list_elem_of_lookup in Hy as [i Hi]. apply (Hs (S i) y); [|done]. apply lookup_lt_Some in Hi. cbn. lia. }
  destruct (ring F !! S f) as [y|] eqn:Ey.
  - pose proof (lookup_lt_Some _ _ _ Ey) as Hl2. cbn [length] in Hl2. destruct (scan_over (length F - S f) (S f) y (freep s) k) as [Hfd|(Hs1 & Hs2 & R)]; [cbn; lia|lia|done| | |].
    + intros j Ej. injection Ej as <-. by exists xf.
    + left. replace (length F + S k)%nat with (S (length F - S f) + (f + S k))%nat by lia. done.
    + right. split; [|replace (length F + S k)%nat with (S (length F - S f) + (f + S k))%nat by lia; done]. apply Hall. intros l z Hlz Hz.
      destruct (decide (l < S f)%nat); [apply (Hs2 l z); [lia|done]|apply (Hs1 l z); [lia|done]].
  - assert (f = length F) as Ef'. { apply lookup_ge_None in Ey. cbn in Ey. lia. }
    destruct (scan_up f 0 (base, 0) (freep s) k eq_refl eq_refl ltac:(done)) as [Hfd|(Hs & R)]; rewrite <- Ef'; [by left|right]. split; [|done]. apply Hall. cbn [length]. by rewrite <- Ef'.
Qed.
End scan.

(** What [malloc] gives: a block, for which it may have asked the kernel once. *)
Definition obtained (s : ustate) (L : list block) (nu a : Z) (s' : ustate) : Prop :=
  exists F', heap_ok s' F' ((a, nu) :: L) /\ brk_grown s s' nu /\ mem_max s' = mem_max s /\ undisturbed s s' L.

Lemma allocated_obtained s L nu a s' : allocated s L nu a s' -> obtained s L nu a s'.
Proof. intros (F' & H & Eg & Eb & Em & U). exists F'. split_and!; [done|by left|done|done]. Qed.

Lemma allocated_after s1 s2 s3 L nu a : undisturbed s1 s2 L -> grants s1 = true :: grants s2 -> brk s2 = brk s1 + 8 * Z.max 4096 nu -> mem_max s2 = mem_max s1 ->
  allocated s2 L nu a s3 -> obtained s1 L nu a s3.
Proof.
  intros U Eg Eb Em (F' & H & Eg' & Eb' & Em' & U'). exists F'. split_and!; [done|right; split; congruence|congruence|].
  eapply undisturbed_trans; [exact U|exact U'|lia].
Qed.

(** The loop of [malloc] ends: with a block, or when the kernel grants no memory. *)
Lemma malloc_loop s F L nu fuel : heap_ok s F L -> 1 <= nu < 2 ^ 27 -> (walk_fuel s <= fuel)%nat ->
  exists r s', loop fuel (malloc_round nu) (freep s, word (umem s) (freep s)) s = Ret r s' /\
    ((exists a, r = a + 8 /\ obtained s L nu a s') \/ r = 0 /\ s' = s <| grants ::= tail |> /\ (forall y, y ∈ F -> y.2 < nu) /\ refuses s nu).
Proof.
  intros H Hnu Hfuel. pose proof (fuel_enough _ _ _ H) as Hf. destruct (hk_freep _ _ _ H) as (x & Hx & Ex). apply list_elem_of_lookup in Hx as [f Hx].
  set (k := (fuel - length F - 1)%nat). replace fuel with (length F + S k)%nat by lia.
  destruct (turn H (nu := nu) ltac:(lia) Hx Ex k) as [(a & s' & R & HA)|(Hsm & prev & R)]; [exists (a + 8), s'; split; [done|left; exists a; split; [done|by apply allocated_obtained]]|]. rewrite R. cbn [loop].
  assert (Hx2 : x.2 < nu). { apply list_elem_of_lookup_2 in Hx. apply elem_of_cons in Hx as [->|Hx]; [cbn; lia|by apply Hsm]. }
  assert (E : malloc_round nu (prev, freep s) s = (let! p := morecore nu in if p =? 0 then ret (inr 0) else let! q := ptr p in ret (inl (p, q))) s).
  { unfold malloc_round, size. rewrite bind_gets, <- Ex. destruct (chain_lookup _ _ _ _ _ (hk_chain _ _ _ H) Hx) as [-> _].
    rewrite (proj2 (Z.leb_gt nu x.2)) by lia. rewrite bind_gets, <- Ex. by rewrite Z.eqb_refl. }
  unfold bind at 1. rewrite E. clear E. destruct (morecore_ok s F L nu H Hnu) as [[Href R1]|(s1 & F1 & R1 & Hnz & H1 & Eg1 & Eb1 & Em1 & U1 & y & Hy & Hyn)]; rewrite (bind_run _ _ _ _ _ R1).
  - eexists 0, _. split; [done|right]. by split_and!.
  - rewrite (proj2 (Z.eqb_neq (freep s1) 0)) by done. unfold ptr. rewrite bind_gets. cbn [bindO ret].
    pose proof (fuel_enough _ _ _ H1) as Hf1. unfold walk_fuel in *. rewrite Em1 in Hf1. destruct (hk_freep _ _ _ H1) as (x1 & Hx1 & Ex1). apply list_elem_of_lookup in Hx1 as [f1 Hx1].
    set (k1 := (k - length F1 - 1)%nat). replace k with (length F1 + S k1)%nat by lia.
    destruct (turn H1 (nu := nu) ltac:(lia) Hx1 Ex1 k1) as [(a & s' & R2 & HA)|(Hsm1 & _)]; [|specialize (Hsm1 y Hy); lia].
    exists (a + 8), s'. split; [done|left]. exists a. split; [done|]. by eapply allocated_after.
Qed.

(** The allocator before its first call, or with its ring set up. *)
Definition heap (s : ustate) (L : list block) : Prop :=
  (lo <= brk s <= mem_max s /\ mem_max s < 2 ^ 31) /\ (freep s = 0 /\ L = [] \/ exists F, heap_ok s F L).

Lemma units_spec n : 0 <= n < 2 ^ 29 -> units n = (n + 7) / 8 + 1 /\ 1 <= units n < 2 ^ 27 /\ n <= 8 * units n - 8.
Proof. intros Hn. unfold units, HDR. rewrite (u32_small (n + 8)), (u32_small (n + 8 - 1)) by lia. replace (n + 8 - 1) with (n + 7) by lia. rewrite u32_small; Z.div_mod_to_equations; lia. Qed.

Lemma malloc_ok s L n : heap s L -> 0 <= n < 2 ^ 29 ->
  exists p s', malloc base n s = Ret p s' /\ undisturbed s s' L /\ mem_max s' = mem_max s /\
    (p = 0 /\ heap s' L /\ refuses s (units n) /\ (forall F y, heap_ok s F L -> y ∈ F -> y.2 < units n) \/
     p <> 0 /\ heap s' ((p - 8, units n) :: L) /\ brk_grown s s' (units n)).
Proof.
  intros [Hb Hh] Hn. destruct (units_spec n Hn) as (_ & Hu & _). unfold malloc. rewrite bind_gets.
  assert (Hinit : exists s1 F, (if freep s =? 0 then do! modify (fun s => s <| freep := base |>) in do! set_ptr base base in do! set_size base 0 in ret base else ret (freep s)) s = Ret (freep s1) s1 /\
    heap_ok s1 F L /\ brk s1 = brk s /\ mem_max s1 = mem_max s /\ grants s1 = grants s /\ undisturbed s s1 L /\ (forall F', heap_ok s F' L -> s1 = s)).
  { destruct Hh as [[Ef ->]|[F H]].
    - rewrite Ef. exists (s <| freep := base |> <| umem ::= set_word base base |> <| umem ::= set_word (base + 4) 0 |>), []. split_and!; [done| |done|done|done| |].
      + constructor; cbn; try done; [rewrite word_set_eq, word_set_ne, word_set_eq by lia; done|repeat constructor|set_solver|constructor|exists (base, 0); split; [set_solver|done]].
      + split; [set_solver|]. intros z Hz. cbn in *. rewrite !set_word_out by lia. done.
      + intros F' H'. destruct (hk_freep _ _ _ H') as (x & Hx & Ex). destruct (ring_bounds _ _ _ _ H' Hx); lia.
    - exists s, F. destruct (hk_freep _ _ _ H) as (x & Hx & Ex). rewrite (proj2 (Z.eqb_neq (freep s) 0)) by (destruct (ring_bounds _ _ _ _ H Hx); lia). split_and!; done. }
  destruct Hinit as (s1 & F & R & H & Eb & Em & Eg & U1 & Hsame). erewrite bind_run; [|exact R]. rewrite bind_gets. unfold ptr. rewrite bind_gets. unfold id.
  destruct (malloc_loop s1 F L (units n) (walk_fuel s1) H Hu ltac:(lia)) as (r & s' & R' & [(a & -> & HA)|(-> & -> & Hsm & Href)]).
  - exists (a + 8), s'. pose proof HA as (F' & H' & Hg' & Em' & U'). assert (Hb' : brk s1 <= brk s') by (destruct Hg' as [[_ ?]|[_ ?]]; lia).
    split_and!; [done|by eapply undisturbed_trans|congruence|right].
    pose proof (hk_live _ _ _ H') as Hl. apply Forall_cons in Hl as [[(W1 & W2 & W3) _] _]. cbn in W1. split; [lia|]. replace (a + 8 - 8) with a by lia.
    split; [split; [exact (hk_brk _ _ _ H')|right; by exists F']|]. unfold brk_grown in *. by rewrite <- Eg, <- Eb.
  - eexists 0, _. split_and!; [exact R'|by apply undisturbed_grants|done|left]. split_and!; [done| | |].
    + split; [cbn; by rewrite Eb, Em|right; exists F; by apply heap_ok_grants].
    + unfold refuses in *. by rewrite <- Eg, <- Eb, <- Em.
    + intros F2 y H2 Hy. rewrite (Hsame _ H2) in *. destruct (malloc_loop s F2 L (units n) (walk_fuel s) H2 Hu ltac:(lia)) as (r2 & s2 & R2 & [(a & -> & (F' & H' & _))|(_ & _ & Hsm2 & _)]); [|by apply Hsm2].
      rewrite R' in R2. injection R2 as E2 _. pose proof (hk_live _ _ _ H') as Hl. apply Forall_cons in Hl as [[(W1 & _) _] _]. cbn in W1. lia.
Qed.

(** The kernel will grant the next [k] requests of up to [b] bytes. *)
Definition roomy (k : nat) (b : Z) (s : ustate) : Prop := (exists g, grants s = replicate k true ++ g) /\ brk s + Z.of_nat k * b <= mem_max s.

Lemma roomy_refuses k b s nu : 8 * Z.max 4096 nu <= b -> refuses s nu -> ~ roomy (S k) b s.
Proof. intros Hb Hr [[g Eg] Hm]. unfold refuses in Hr. rewrite Eg in Hr. cbn [replicate app hd] in Hr. destruct Hr as [?|?]; [done|]. rewrite Nat2Z.inj_succ in Hm. nia. Qed.

Lemma roomy_grown k b s s' nu : 8 * Z.max 4096 nu <= b -> mem_max s' = mem_max s -> brk_grown s s' nu -> roomy (S k) b s -> roomy k b s'.
Proof.
  intros Hb Em Hg [[g Eg] Hm]. unfold roomy. rewrite Em. destruct Hg as [[E1 ->]|[E1 ->]].
  - rewrite E1, Eg. split; [|lia]. exists (true :: g). rewrite replicate_S_end, <- app_assoc. done.
  - rewrite Eg in E1. injection E1 as <-. split; [by exists g|lia].
Qed.

Lemma apart_sym x y : apart x y -> apart y x.
Proof. unfold apart. lia. Qed.

Lemma live_apart L x y : StronglySorted apart L -> x ∈ L -> y ∈ L -> x = y \/ apart x y.
Proof.
  induction L as [|z L IH]; [set_solver|]. intros Hs [->|Hx]%elem_of_cons [->|Hy]%elem_of_cons; apply StronglySorted_inv in Hs as [Hs Hz]; rewrite Forall_forall in Hz; auto.
  right. apply apart_sym. auto.
Qed.

Lemma heap_ok_drop s F L1 x L2 : heap_ok s F (L1 ++ x :: L2) -> heap_ok s F (L1 ++ L2) /\ (forall y, y ∈ L1 ++ L2 -> apart x y).
Proof.
  intros [H1 H2 H3 H4 H5 H6 H7 H8]. apply StronglySorted_app in H7 as (S1 & S2 & S3). apply StronglySorted_inv in S3 as [S3 S4]. rewrite Forall_forall in S4. split.
  - constructor; try done.
    + apply Forall_app in H5 as [H5a H5b]. apply Forall_cons in H5b as [_ H5b]. by apply Forall_app.
    + intros y z Hy Hz. apply H6; [done|set_solver].
    + apply StronglySorted_app. split_and!; [|done|done]. intros y z Hy Hz. apply S1; set_solver.
  - intros y [Hy|Hy]%elem_of_app; [apply apart_sym, S1; set_solver|by apply S4].
Qed.

(** A client that writes inside its blocks does not harm the heap. *)
Lemma heap_write s L x z b : heap s L -> x ∈ L -> x.1 + 8 <= z < x.1 + 8 * x.2 -> heap (s <| umem ::= flat_set z b |>) L.
Proof.
  intros [Hb Hh] Hx Hz. split; [done|]. destruct Hh as [[_ ->]|[F H]]; [set_solver|right]. exists F. pose proof (ring_clear s F L H) as Hc. pose proof (hk_lsep _ _ _ H) as Hs.
  destruct H as [H1 H2 H3 H4 H5 H6 H7 H8]. constructor; try done.
  - eapply chain_same; [|exact H2]. intros y w Hy Hw. cbn. apply flat_set_ne. specialize (Hc y x Hy Hx). lia.
  - rewrite Forall_forall in *. intros y Hy. destruct (H5 y Hy) as [W E]. split; [done|]. rewrite <- E. apply word_ext. intros w Hw. cbn. apply flat_set_ne.
    destruct W as (? & ? & ?). destruct (live_apart L x y Hs Hx Hy) as [->|Ha]; [lia|]. unfold apart in Ha. lia.
Qed.

Lemma heap_free s L1 x L2 : heap s (L1 ++ x :: L2) -> exists s', free (x.1 + 8) s = Ret tt s' /\ undisturbed s s' (L1 ++ L2) /\ heap s' (L1 ++ L2) /\
  brk s' = brk s /\ mem_max s' = mem_max s /\ grants s' = grants s.
Proof.
  intros [Hb Hh]. destruct Hh as [[_ E]|[F H]]; [by destruct L1|]. destruct (heap_ok_drop _ _ _ _ _ H) as [H' Hap].
  pose proof (hk_live _ _ _ H) as Hl. rewrite Forall_forall in Hl. destruct (Hl x ltac:(set_solver)) as [W E]. destruct x as [a bs]. cbn [fst snd] in *.
  destruct (free_ok s F (L1 ++ L2) a bs H' W E) as (s' & F' & R & H'' & Eb & Em & Eg & Hq & _); [intros y Hy; apply (hk_sep _ _ _ H); set_solver|done|].
  exists s'. split_and!; [done| |split; [exact (hk_brk _ _ _ H'')|right; by exists F']|done|done|done]. eapply quiet_undisturbed; [exact Hq| | |rewrite Eb; lia].
  - intros y z [->|Hy]%elem_of_cons Hz; [|by eapply (ring_clear s)]. specialize (Hap z Hz). destruct W as (W1 & W2 & W3). unfold apart in Hap. cbn in *. lia.
  - intros y [->|Hy]%elem_of_cons; rewrite Eb; [right; destruct W as (W1 & W2 & W3); cbn in *; lia|by eapply ring_bounds].
Qed.

Lemma heap_blocks s L : heap s L -> StronglySorted apart L /\ Forall (within s) L.
Proof.
  intros [_ [[_ ->]|[F H]]]; [split; constructor|]. split; [exact (hk_lsep _ _ _ H)|]. eapply Forall_impl; [exact (hk_live _ _ _ H)|]. by intros x [? _].
Qed.
End heap.

(** C12: the allocator's heap is an invariant of everything a program does with it,
    and every call returns.  With the blocks [L] handed out: they lie in the heap,
    apart from each other; a [malloc] of less than 2^29 bytes returns a new block with
    room for them, or null, and null only when every free block is too small (the
    caller's blocks fill the rest) and the kernel, asked once, refuses to grow the
    process, for lack of pages or of address space; [free] takes any of the blocks
    back; writing inside the blocks does no harm.  The contents of the other blocks
    and of the memory outside the heap do not change. *)
Theorem malloc_free_heap base lo s L : 0 < base -> base + 8 <= lo -> heap base lo s L ->
  (StronglySorted apart L /\ Forall (within lo s) L) /\
  (forall n, 0 <= n < 2 ^ 29 -> exists p s', malloc base n s = Ret p s' /\ undisturbed base lo s s' L /\
     (p = 0 /\ heap base lo s' L /\ refuses s (units n) /\ (forall F y, heap_ok base lo s F L -> y ∈ F -> y.2 < units n) \/
      p <> 0 /\ heap base lo s' ((p - 8, units n) :: L) /\ n <= 8 * units n - 8)) /\
  (forall L1 x L2, L = L1 ++ x :: L2 -> exists s', free (x.1 + 8) s = Ret tt s' /\ undisturbed base lo s s' (L1 ++ L2) /\ heap base lo s' (L1 ++ L2)) /\
  (forall x z b, x ∈ L -> x.1 + 8 <= z < x.1 + 8 * x.2 -> heap base lo (s <| umem ::= flat_set z b |>) L).
Proof.
  intros H1 H2 H. assert (Hl : 0 < base /\ base + 8 <= lo) by done. split_and!.
  - by eapply heap_blocks.
  - by eapply heap_blocks.
  - intros n Hn. destruct (malloc_ok base lo Hl s L n H Hn) as (p & s' & R & U & _ & HR). exists p, s'. split_and!; [done|exact U|].
    destruct HR as [?|(? & ? & _)]; [by left|right]. split_and!; [done..|]. by apply units_spec.
  - intros L1 x L2 ->. destruct (heap_free base lo Hl s L1 x L2 H) as (s' & ? & ? & ? & _). by exists s'.
  - intros x z b Hx Hz. by eapply heap_write.
Qed.

Definition demo_user : ustate := mk_ustate (fun _ => 255) 0 4096 65536 [true].

Lemma demo_user_heap : heap 1000 4096 demo_user [].
Proof. split; [vm_compute; by split|by left]. Qed.

(** The first call has the kernel's grant; the second is served from what is left. *)
Lemma malloc_free_heap_witness :
  exists p s' q s'', malloc 1000 100 demo_user = Ret p s' /\ malloc 1000 200 s' = Ret q s'' /\ grants s' = [] /\
    heap 1000 4096 s'' [(q - 8, units 200); (p - 8, units 100)].
Proof.
  destruct (malloc_free_heap 1000 4096 demo_user [] ltac:(lia) ltac:(lia) demo_user_heap) as (_ & Hm & _).
  destruct (Hm 100 ltac:(lia)) as (p & s' & R & _ & HR). destruct HR as [(-> & _ & [Hg|Hg] & _)|(Hp & Hh & _)]; [discriminate Hg|vm_compute in Hg; discriminate Hg|].
  destruct (malloc_free_heap 1000 4096 s' [(p - 8, units 100)] ltac:(lia) ltac:(lia) Hh) as (_ & Hm' & _).
  destruct (Hm' 200 ltac:(lia)) as (q & s'' & R' & _ & HR').
  assert (E : exists r t, malloc 1000 100 demo_user = Ret r t /\ grants t = [] /\ exists r' t', malloc 1000 200 t = Ret r' t' /\ r' <> 0).
  { eexists _, _. split; [vm_compute; reflexivity|]. split; [reflexivity|]. eexists _, _. split; [vm_compute; reflexivity|discriminate]. }
  destruct E as (r & t & E & Eg & r' & t' & E' & Hr'). rewrite E in R. injection R as <- <-. rewrite E' in R'. injection R' as <- <-.
  exists r, t, r', t'. split; [exact E|]. split; [exact E'|]. split; [exact Eg|]. destruct HR' as [[Hz _]|(_ & Hh' & _)]; [contradiction|exact Hh'].
Defined.
