(* ===== verification/Cm.v ===== *)
(** * The container manager's library

    [src/cm.h]: reading a container's specification from a JSON file and starting
    the container.  The code runs in the state of [Umalloc]: the process's memory
    and its heap.  [buf] is the address of the array [buffer] on the stack and
    [lit_init], [lit_fs], [lit_nproc] are the addresses of the string literals.  The
    results of the system calls are arguments: whether [open] and [close] succeed
    and the bytes [read] delivers, at most 99. *)
From stdpp Require Import sorting.
From S2P Require Import Prelude CString Umalloc Jsmn Json.

(** ** The code *)

Section cm.
Context (base buf lit_init lit_fs lit_nproc : Z).

Definition BUFFER : Z := 100.

Definition jsoneq (json : Z) (tok : jsmntok) (s : Z) : U Z :=
  if bool_decide (t_type tok = JSMN_STRING) then
    let! n := strlen 101 s in
    if n =? t_end tok - t_start tok then
      let! r := ulib_strncmp 101 (json + t_start tok) s (t_end tok - t_start tok) in
      ret (if r =? 0 then 0 else -1)
    else ret (-1)
  else ret (-1).

Definition is_spec (tok : jsmntok) : U bool :=
  let! a := jsoneq buf tok lit_init in
  if a =? 0 then ret true
  else
    let! b := jsoneq buf tok lit_fs in
    if b =? 0 then ret true
    else
      let! c := jsoneq buf tok lit_nproc in
      ret (c =? 0).

(** [specs[j]] *)
Definition spec_at (specs j : Z) : U Z := gets (fun s => word (umem s) (specs + 4 * j)).
Definition set_spec (specs j p : Z) : U unit := modify (fun s => s <| umem ::= set_word (specs + 4 * j) p |>).

(** One round of the loop over the tokens; [inr false] when memory runs out. *)
Definition specs_round (specs count : Z) (t : list jsmntok) (st : Z * Z) : U (Z * Z + bool) :=
  let '(i, j) := st in
  if (i <? count) && (j <? 3) then
    let! tok := ofopt (zget t i) in
    let! b := is_spec tok in
    if b : bool then
      let! v := ofopt (zget t (i + 1)) in
      let length := t_end v - t_start v in
      let! p := malloc base (u32 (length + 1)) in
      do! set_spec specs j p in
      if p =? 0 then
        do! foreach (seq 0 (Z.to_nat j)) (fun k => let! q := spec_at specs (Z.of_nat k) in free q) in
        do! free specs in
        ret (inr false)
      else
        do! safe_strcpy p (buf + t_start v) length in
        do! store8 (p + length) 0 in
        ret (inl (i + 2, j + 1))
    else ret (inl (i + 1, j))
  else ret (inr true).

(** The bytes [read] puts into the array. *)
Definition fill (a : Z) (l : list Z) : U unit := foreach (seq 0 (length l)) (fun k => store8 (a + Z.of_nat k) (default 0 (l !! k))).

Definition parse_specs (opened : bool) (data : option (list Z)) (closed : bool) (t : list jsmntok) : U Z :=
  if negb opened then ret 0
  else
    match data with
    | None => ret 0
    | Some l =>
        do! fill buf l in
        do! store8 (buf + Z.of_nat (length l)) 0 in
        if negb closed then ret 0
        else
          let! n := strlen 101 buf in
          let! m := gets umem in
          match jsmn_parse (bytes_at m buf (Z.to_nat n)) (jsmn_init (Some t)) with
          | Ret count ps =>
              let! t := ofopt (tokens ps) in
              if count <? 1 then ret 0
              else
                let! t0 := ofopt (zget t 0) in
                if bool_decide (t_type t0 <> JSMN_OBJECT) then ret 0
                else
                  let! specs := malloc base 12 in
                  if specs =? 0 then ret 0
                  else
                    let! ok := loop (Z.to_nat count + 1) (specs_round specs count t) (1, 0) in
                    ret (if ok : bool then specs else 0)
          | _ => fault
          end
    end.

(** ** Starting a container *)

(** The system calls of the child, with what they are given. *)
Inductive call :=
| SysSetroot (path : list Z) (len : Z)
| SysChdir (path : list Z)
| SysMaxproc (n : Z)
| SysCreateAndEnter
| SysExec (path : list Z)
| SysExit.

Definition string_at (fuel : nat) (a : Z) : U (list Z) :=
  let! n := strlen fuel a in
  gets (fun s => bytes_at (umem s) a (Z.to_nat n)).

(** The child of [containerstart]: the calls it makes, given which of them succeed.
    [exec] does not return when it succeeds. *)
Definition containerstart_child (specs : Z) (chdir_ok enter_ok exec_ok : bool) : U (list call) :=
  if specs =? 0 then ret [SysExit]
  else
    let! p1 := spec_at specs 1 in
    let! n := strlen 101 p1 in
    let! root := string_at 101 p1 in
    if negb chdir_ok then ret [SysSetroot root n; SysChdir root; SysExit]
    else
      let! p2 := spec_at specs 2 in
      let calls := [SysSetroot root n; SysChdir root; SysMaxproc (i32 p2); SysCreateAndEnter] in
      if negb enter_ok then ret (calls ++ [SysExit])
      else
        let! p0 := spec_at specs 0 in
        let! init := string_at 101 p0 in
        if exec_ok then ret (calls ++ [SysExec init])
        else
          do! foreach (seq 0 3) (fun k => let! q := spec_at specs (Z.of_nat k) in free q) in
          do! free specs in
          ret (calls ++ [SysExec init; SysExit]).
End cm.

(** ** Strings in memory *)

Definition cstring (m : flat) (a : Z) (l : list Z) : Prop := bytes_at m a (length l) = l /\ m (a + Z.of_nat (length l)) = 0.
Definition nonzero (l : list Z) : Prop := Forall (fun c => c <> 0) l.

Lemma cstring_ext m m' a l : (forall z, a <= z <= a + Z.of_nat (length l) -> m' z = m z) -> cstring m a l -> cstring m' a l.
Proof. intros Hz [H1 H2]. split; [rewrite <- H1 at 2; apply bytes_at_ext; intros z ?; apply Hz; lia|rewrite Hz by lia; done]. Qed.

Lemma cstring_at m a l i c : cstring m a l -> l !! i = Some c -> m (a + Z.of_nat i) = c.
Proof.
  intros [H1 _] Hi. pose proof (lookup_lt_Some _ _ _ Hi). rewrite <- H1 in Hi. rewrite bytes_at_lookup in Hi by done. by injection Hi.
Qed.

Lemma cstring_strlen s a l fuel : cstring (umem s) a l -> nonzero l -> (length l < fuel)%nat -> strlen fuel a s = Ret (Z.of_nat (length l)) s.
Proof.
  intros H Hn Hf. apply (strlen_view umem); [done| |apply H|done]. intros i Hi. destruct (lookup_lt_is_Some_2 l i Hi) as [c Hc].
  rewrite (cstring_at _ _ _ _ _ H Hc). unfold nonzero in Hn. rewrite Forall_lookup in Hn. by eapply Hn.
Qed.

Lemma bytes_at_slice m a l o n : bytes_at m a (length l) = l -> (o + n <= length l)%nat -> bytes_at m (a + Z.of_nat o) n = take n (drop o l).
Proof.
  intros H Hon. apply list_eq. intros i. destruct (decide (i < n)%nat) as [Hi|Hi].
  - rewrite bytes_at_lookup, lookup_take_lt, lookup_drop by done. rewrite <- H, bytes_at_lookup by lia. do 2 f_equal. lia.
  - rewrite !lookup_ge_None_2; [done| |by rewrite bytes_at_length; lia]. rewrite length_take, length_drop. lia.
Qed.

Lemma cstr_nonzero l : nonzero l -> cstr l = l.
Proof. induction 1 as [|c l Hc _ IH]; [done|]. cbn. rewrite (proj2 (Z.eqb_neq c 0)) by done. by rewrite IH. Qed.

Lemma nonzero_slice l t : nonzero l -> nonzero (slice l t).
Proof. intros H. unfold slice, nonzero. by apply Forall_take, Forall_drop. Qed.

(** A token within a text. *)
Definition tok_in (js : list Z) (t : jsmntok) : Prop := 0 <= t_start t <= t_end t /\ t_end t <= Z.of_nat (length js).

Lemma slice_length js t : tok_in js t -> Z.of_nat (length (slice js t)) = t_end t - t_start t.
Proof. intros [H1 H2]. unfold slice. rewrite length_take, length_drop. lia. Qed.

Lemma slice_bytes m buf js t : cstring m buf js -> tok_in js t -> bytes_at m (buf + t_start t) (Z.to_nat (t_end t - t_start t)) = slice js t.
Proof.
  intros [H _] [H1 H2]. replace (t_start t) with (Z.of_nat (Z.to_nat (t_start t))) at 1 by lia. rewrite (bytes_at_slice m buf js) by (done || lia). done.
Qed.

Lemma jsoneq_run buf s js t a key : cstring (umem s) buf js -> nonzero js -> (length js < 100)%nat -> tok_in js t -> cstring (umem s) a key -> nonzero key -> (length key < 100)%nat ->
  jsoneq buf t a s = Ret (if decide (t_type t = JSMN_STRING /\ slice js t = key) then 0 else -1) s.
Proof.
  intros Hb Hn Hl Ht Ha Hk Hlk. unfold jsoneq. case_bool_decide as Hty; [|rewrite decide_False by tauto; done].
  rewrite (bind_run _ _ _ _ _ (cstring_strlen s a key 101 Ha Hk ltac:(lia))). pose proof (slice_length js t Ht) as Hsl.
  destruct (Z.eqb_spec (Z.of_nat (length key)) (t_end t - t_start t)) as [E|E].
  - pose proof (ulib_strncmp_view umem (fun _ _ => eq_refl) s (buf + t_start t) a (length key) 101 ltac:(lia)) as R. rewrite E in R.
    rewrite (bind_run _ _ _ _ _ R). replace (length key) with (Z.to_nat (t_end t - t_start t)) at 1 by lia. rewrite (slice_bytes _ _ js) by done.
    destruct Ha as [Ha _]. rewrite Ha. set (r := strncmp_l _ _ _). unfold ret. f_equal.
    assert (Hr : r = 0 <-> slice js t = key).
    { unfold r. rewrite strncmp_l_eq, !cstr_nonzero by (done || by apply nonzero_slice). rewrite !take_ge by lia. done. }
    destruct (Z.eqb_spec r 0) as [E0|E0]; [rewrite decide_True by tauto|rewrite decide_False by tauto]; done.
  - rewrite decide_False; [done|]. intros [_ Hs]. rewrite Hs in Hsl. lia.
Qed.

(** ** Writing to the heap and outside it *)

Section run.
Context (base lo buf lit_init lit_fs lit_nproc : Z).
Hypothesis base_low : 0 < base /\ base + 8 <= lo.
Local Abbreviation Heap := (heap base lo).

Lemma heap_outside s L z b : Heap s L -> z < base \/ base + 8 <= z < lo -> Heap (s <| umem ::= flat_set z b |>) L.
Proof.
  intros [Hb Hh] Hz. split; [done|]. destruct Hh as [[? ->]|[F H]]; [by left|right]. exists F.
  pose proof (fun x => ring_bounds base lo s F L x H) as Hr. destruct H as [H1 H2 H3 H4 H5 H6 H7 H8]. constructor; try done.
  - eapply chain_same; [|exact H2]. intros y w Hy Hw. cbn. apply flat_set_ne. destruct (Hr y Hy); lia.
  - rewrite Forall_forall in *. intros y Hy. destruct (H5 y Hy) as [W E]. split; [done|]. rewrite <- E. destruct W as (? & ? & ?). apply word_ext. intros w Hw. cbn. apply flat_set_ne. lia.
Qed.

Lemma heap_set_word s L x a v : Heap s L -> x ∈ L -> x.1 + 8 <= a -> a + 4 <= x.1 + 8 * x.2 -> Heap (s <| umem ::= set_word a v |>) L.
Proof.
  intros H Hx H1 H2. pose proof (fun s z b H => heap_write base lo base_low s L x z b H Hx) as W.
  exact (W _ (a + 3) _ (W _ (a + 2) _ (W _ (a + 1) _ (W s a _ H ltac:(lia)) ltac:(lia)) ltac:(lia)) ltac:(lia)).
Qed.

(** What [safe_strcpy] does to a block of the heap. *)
Lemma copy_ok L x src n : forall dest k s, Heap s L -> x ∈ L -> lo <= dest -> x.1 + 8 <= dest -> dest + Z.of_nat n <= x.1 + 8 * x.2 ->
  src + k + Z.of_nat n <= lo -> (forall i, (i < n)%nat -> umem s (src + k + Z.of_nat i) <> 0) ->
  exists m, safe_strcpy_loop dest (src + k) n s = Ret tt (s <| umem := m |>) /\ Heap (s <| umem := m |>) L /\
    bytes_at m dest n = bytes_at (umem s) (src + k) n /\ (forall z, z < dest \/ dest + Z.of_nat n <= z -> m z = umem s z).
Proof.
  induction n as [|n IH]; intros dest k s H Hx Hlo Hd Hd2 Hs Hnz.
  - exists (umem s). destruct s. by split_and!.
  - pose proof (Hnz 0%nat ltac:(lia)) as H0. rewrite Z.add_0_r in H0. set (c := umem s (src + k)) in *. set (s1 := s <| umem ::= flat_set dest c |>).
    destruct (IH (dest + 1) (k + 1) s1) as (m & R & Hh & Hb & Hm); [apply (heap_write base lo base_low s L x); [done|done|lia]|done|lia|lia|lia|lia| |].
    { intros i Hi. cbn. rewrite flat_set_ne by lia. replace (src + (k + 1) + Z.of_nat i) with (src + k + Z.of_nat (S i)) by lia. apply Hnz. lia. }
    exists m. split_and!.
    + cbn [safe_strcpy_loop]. erewrite bind_run; [|reflexivity]. fold c. rewrite (proj2 (Z.eqb_neq c 0)) by done. cbn [negb]. erewrite bind_run; [|reflexivity].
      rewrite <- Z.add_assoc. exact R.
    + exact Hh.
    + cbn [bytes_at]. rewrite Hb. f_equal; [rewrite Hm by lia; cbn; apply flat_set_eq|]. rewrite Z.add_assoc. apply bytes_at_ext. intros z Hz. cbn. apply flat_set_ne. lia.
    + intros z Hz. rewrite Hm by lia. cbn. apply flat_set_ne. lia.
Qed.

(** The text in the array and the literals are as expected. *)
Definition KEY_INIT : list Z := [105; 110; 105; 116].
Definition KEY_FS : list Z := [102; 115].
Definition KEY_NPROC : list Z := [110; 112; 114; 111; 99].

Record ready (m : flat) (js : list Z) : Prop := {
  rd_buf : cstring m buf js;
  rd_init : cstring m lit_init KEY_INIT;
  rd_fs : cstring m lit_fs KEY_FS;
  rd_nproc : cstring m lit_nproc KEY_NPROC }.

(** Code and literals lie below the allocator's header, the stack between it and the heap. *)
Definition laid_out : Prop :=
  lit_init + 5 <= base /\ lit_fs + 3 <= base /\ lit_nproc + 6 <= base /\ base + 8 <= buf /\ buf + BUFFER <= lo.

Lemma ready_ext m m' js : laid_out -> (length js < 100)%nat -> (forall z, z < base \/ base + 8 <= z < lo -> m' z = m z) -> ready m js -> ready m' js.
Proof.
  intros (A1 & A2 & A3 & A4 & A5) Hl Hm [H1 H2 H3 H4]. unfold BUFFER in *. split; (eapply cstring_ext; [|eassumption]); intros z Hz; apply Hm; cbn [length KEY_INIT KEY_FS KEY_NPROC] in Hz; lia.
Qed.

Definition spec_key (x : jsmntype * list Z) : bool := bool_decide (x.1 = JSMN_STRING /\ x.2 ∈ [KEY_INIT; KEY_FS; KEY_NPROC]).

Lemma is_spec_run s js t : ready (umem s) js -> nonzero js -> (length js < 100)%nat -> tok_in js t ->
  is_spec buf lit_init lit_fs lit_nproc t s = Ret (spec_key (t_type t, slice js t)) s.
Proof.
  intros [H1 H2 H3 H4] Hn Hl Ht. unfold is_spec, spec_key. cbn [fst snd].
  rewrite (bind_run _ _ _ _ _ (jsoneq_run buf s js t lit_init KEY_INIT H1 Hn Hl Ht H2 ltac:(by repeat constructor) ltac:(cbn; lia))).
  destruct (decide (_ /\ slice js t = KEY_INIT)) as [[E1 E2]|N1]; cbn [Z.eqb]; [rewrite bool_decide_eq_true_2 by (split; [done|rewrite E2; set_solver]); done|].
  rewrite (bind_run _ _ _ _ _ (jsoneq_run buf s js t lit_fs KEY_FS H1 Hn Hl Ht H3 ltac:(by repeat constructor) ltac:(cbn; lia))).
  destruct (decide (_ /\ slice js t = KEY_FS)) as [[E1 E2]|N2]; cbn [Z.eqb]; [rewrite bool_decide_eq_true_2 by (split; [done|rewrite E2; set_solver]); done|].
  rewrite (bind_run _ _ _ _ _ (jsoneq_run buf s js t lit_nproc KEY_NPROC H1 Hn Hl Ht H4 ltac:(by repeat constructor) ltac:(cbn; lia))). unfold ret. f_equal.
  destruct (decide (_ /\ slice js t = KEY_NPROC)) as [[E1 E2]|N3]; cbn [Z.eqb]; symmetry; [apply bool_decide_eq_true_2; split; [done|rewrite E2; set_solver]|].
  apply bool_decide_eq_false_2. rewrite !elem_of_cons, elem_of_nil. tauto.
Qed.

(** ** The loop over the tokens *)

(** The block behind a string of the result, and all the blocks handed out. *)
Definition bl (x : Z * list Z) : Z * Z := (x.1 - 8, units (Z.of_nat (length x.2) + 1)).
Definition blocks (specs : Z) (done : list (Z * list Z)) (L : list (Z * Z)) : list (Z * Z) := map bl (reverse done) ++ (specs - 8, units 12) :: L.

(** [done] are the pointers stored so far, with their strings; [m0] is memory before. *)
Record hold (m0 : flat) (js : list Z) (specs : Z) (done : list (Z * list Z)) (L : list (Z * Z)) (s : ustate) : Prop := {
  hd_heap : Heap s (blocks specs done L);
  hd_ready : ready (umem s) js;
  hd_words : forall k x, done !! k = Some x -> word (umem s) (specs + 4 * Z.of_nat k) = x.1 /\ cstring (umem s) x.1 x.2;
  hd_lens : Forall (fun x => (length x.2 < 100)%nat) done;
  hd_room : (length done <= 3)%nat;
  hd_keep : forall y z, y ∈ L -> y.1 <= z < y.1 + 8 * y.2 -> umem s z = m0 z }.

Lemma other_block A x B y z : StronglySorted apart (A ++ x :: B) -> y ∈ A ++ B -> y.1 <= z < y.1 + 8 * y.2 -> z < x.1 \/ x.1 + 8 * x.2 <= z.
Proof.
  intros Hs Hy Hz. assert (apart y x \/ apart x y) as [Ha|Ha].
  { apply StronglySorted_app in Hs as (S1 & _ & S3). apply StronglySorted_inv in S3 as [_ S3]. rewrite Forall_forall in S3.
    apply elem_of_app in Hy as [Hy|Hy]; [left; apply (S1 y x Hy); set_solver|right; by apply S3]. }
  all: unfold apart in Ha; lia.
Qed.

Lemma units_12 : units 12 = 3.
Proof. reflexivity. Qed.

Lemma bl_in x done specs L : x ∈ done -> bl x ∈ blocks specs done L.
Proof. intros Hx. apply elem_of_app. left. apply list_elem_of_fmap. exists x. split; [done|]. by apply elem_of_reverse. Qed.

Lemma bl_room x : (length x.2 < 100)%nat -> x.1 + Z.of_nat (length x.2) + 1 <= (bl x).1 + 8 * (bl x).2 /\ (bl x).1 + 8 = x.1.
Proof. intros Hl. unfold bl. cbn [fst snd]. destruct (units_spec (Z.of_nat (length x.2) + 1) ltac:(lia)) as (_ & _ & ?). lia. Qed.

Lemma specs_in specs done L : (specs - 8, units 12) ∈ blocks specs done L.
Proof. apply elem_of_app. right. set_solver. Qed.

(** Changes that leave the blocks and the memory outside the heap alone keep all that. *)
Lemma hold_keep_blocks m0 js specs done L s s' : laid_out -> (length js < 100)%nat -> hold m0 js specs done L s -> Heap s' (blocks specs done L) ->
  (forall y z, y ∈ map bl (reverse done) ++ L -> y.1 + 8 <= z < y.1 + 8 * y.2 \/ y ∈ L /\ y.1 <= z < y.1 + 8 * y.2 -> umem s' z = umem s z) ->
  (forall k z, (k < length done)%nat -> specs + 4 * Z.of_nat k <= z < specs + 4 * Z.of_nat k + 4 -> umem s' z = umem s z) ->
  (forall z, z < base \/ base + 8 <= z < lo -> umem s' z = umem s z) -> hold m0 js specs done L s'.
Proof.
  intros Hlay Hl [H1 H2 H3 H4 H5 H6] Hh Hb Hw Ho. constructor; try done.
  - by eapply ready_ext.
  - intros k x Hk. destruct (H3 k x Hk) as [E1 E2]. pose proof (lookup_lt_Some _ _ _ Hk) as Hlt. split.
    + rewrite <- E1. apply word_ext. intros z Hz. apply (Hw k z); [done|lia].
    + rewrite Forall_lookup in H4. destruct (bl_room x (H4 k x Hk)) as [R1 R2]. eapply cstring_ext; [|exact E2]. intros z Hz. apply (Hb (bl x)); [|left; lia].
      apply elem_of_app. left. apply list_elem_of_fmap. exists x. split; [done|]. apply elem_of_reverse. by eapply list_elem_of_lookup_2.
  - intros y z Hy Hz. rewrite (Hb y z); [by apply (H6 y)|set_solver|by right].
Qed.

Lemma hold_undisturbed m0 js specs done L s s' : laid_out -> (length js < 100)%nat -> hold m0 js specs done L s -> Heap s' (blocks specs done L) ->
  undisturbed base lo s s' (blocks specs done L) -> hold m0 js specs done L s'.
Proof.
  intros Hlay Hl H Hh [U1 U2]. eapply hold_keep_blocks; [done..| | |].
  - intros y z Hy Hz. apply (U1 y z); [apply elem_of_app in Hy as [Hy|Hy]; apply elem_of_app; set_solver|]. destruct Hz as [?|[_ ?]]; lia.
  - intros k z Hk Hz. apply (U1 (specs - 8, units 12) z); [apply specs_in|]. pose proof (hd_room _ _ _ _ _ _ H). rewrite units_12. cbn. lia.
  - intros z Hz. apply U2. tauto.
Qed.

(** Writing the [j]-th entry of the array. *)
Lemma hold_set_spec m0 js specs done L s v : laid_out -> (length js < 100)%nat -> hold m0 js specs done L s -> (length done < 3)%nat ->
  hold m0 js specs done L (s <| umem ::= set_word (specs + 4 * Z.of_nat (length done)) v |>).
Proof.
  intros Hlay Hl H Hd. pose proof (hd_heap _ _ _ _ _ _ H) as Hh. destruct (heap_blocks base lo _ _ Hh) as [Hs Hw]. rewrite Forall_forall in Hw. destruct (Hw _ (specs_in specs done L)) as (W1 & W2 & W3). cbn in W1.
  eapply hold_keep_blocks; [done..| | | |].
  - eapply heap_set_word; [done|apply specs_in|cbn; lia|rewrite units_12; cbn; lia].
  - intros y z Hy Hz. assert (Hyz : y.1 <= z < y.1 + 8 * y.2) by (destruct Hz as [?|[_ ?]]; lia). cbn. apply set_word_out.
    pose proof (other_block _ _ _ y z Hs Hy Hyz) as Ho. rewrite units_12 in Ho. cbn in Ho. lia.
  - intros k z Hk Hz. cbn. apply set_word_out. lia.
  - intros z Hz. cbn. apply set_word_out. lia.
Qed.

(** When memory runs out, everything is given back. *)
Lemma free_all specs L : forall done k s, Heap s (blocks specs done L) -> (k + length done <= 3)%nat ->
  (forall i x, done !! i = Some x -> word (umem s) (specs + 4 * Z.of_nat (k + i)) = x.1) ->
  exists s', (do! foreach (seq k (length done)) (fun k => let! q := spec_at specs (Z.of_nat k) in free q) in free specs) s = Ret tt s' /\ Heap s' L /\
    forall y z, y ∈ L -> y.1 <= z < y.1 + 8 * y.2 -> umem s' z = umem s z.
Proof.
  induction done as [|x done IH]; intros k s Hh Hk Hw.
  - destruct (heap_free base lo base_low s [] (specs - 8, units 12) L Hh) as (s' & R & [U _] & H' & _). cbn [fst app] in *. replace (specs - 8 + 8) with specs in R by lia.
    exists s'. split_and!; done.
  - unfold blocks in Hh. rewrite reverse_cons, map_app, <- app_assoc in Hh. cbn [map app] in Hh.
    destruct (heap_free base lo base_low s _ (bl x) _ Hh) as (s1 & R & [U _] & H1 & _). replace ((bl x).1 + 8) with x.1 in R by (unfold bl; cbn; lia).
    assert (Hspec : (specs - 8, units 12) ∈ map bl (reverse done) ++ (specs - 8, units 12) :: L) by set_solver.
    destruct (IH (S k) s1 H1) as (s' & R' & H' & U'); [cbn in Hk; lia| |].
    { intros i y Hi. rewrite <- (Hw (S i) y Hi). replace (S k + i)%nat with (k + S i)%nat by lia. apply word_ext. intros z Hz. apply (U _ z Hspec). rewrite units_12. apply lookup_lt_Some in Hi. cbn in *. lia. }
    exists s'. split_and!; [|done|intros y z Hy Hz; rewrite (U' y z), (U y z); [done|set_solver|done..]].
    cbn [length seq foreach]. unfold spec_at at 1. specialize (Hw 0%nat x eq_refl). rewrite Nat.add_0_r in Hw. unfold bind at 1 2 in R'. unfold bind, gets. cbn [bindO]. rewrite Hw, R. exact R'.
Qed.

(** A new string in a new block. *)
Lemma hold_store m0 js specs done L s0 s1 p v : laid_out -> (length js < 100)%nat -> nonzero js -> hold m0 js specs done L s0 -> (length done < 3)%nat -> tok_in js v ->
  undisturbed base lo s0 s1 (blocks specs done L) -> Heap s1 ((p - 8, units (t_end v - t_start v + 1)) :: blocks specs done L) ->
  exists s', (do! set_spec specs (Z.of_nat (length done)) p in do! safe_strcpy p (buf + t_start v) (t_end v - t_start v) in store8 (p + (t_end v - t_start v)) 0) s1 = Ret tt s' /\
    hold m0 js specs (done ++ [(p, slice js v)]) L s' /\ exists m, s' = s1 <| umem := m |>.
Proof.
  intros Hlay Hl Hnz H Hd Hv U Hh. set (n := Z.to_nat (t_end v - t_start v)). set (x := (p - 8, units (t_end v - t_start v + 1))) in *.
  pose proof (slice_length js v Hv) as Hsl. destruct Hv as [V1 V2]. destruct (heap_blocks base lo _ _ Hh) as [Hs Hw].
  apply StronglySorted_inv in Hs as [Hs1 Hx]. rewrite Forall_forall in Hx. apply Forall_cons in Hw as [(W1 & W2 & W3) Hw]. cbn [x fst snd] in W1.
  destruct (units_spec (t_end v - t_start v + 1) ltac:(lia)) as (_ & Hu1 & Hu2).
  set (s2 := s1 <| umem ::= set_word (specs + 4 * Z.of_nat (length done)) p |>).
  assert (Hh2 : Heap s2 (x :: blocks specs done L)). { eapply heap_set_word; [exact Hh|apply elem_of_cons; right; apply specs_in|cbn; lia|rewrite units_12; cbn; lia]. }
  assert (Ht : exists F, heap_ok base lo s1 F (blocks specs done L)). { destruct Hh as [_ [[_ ?]|[F Hok]]]; [done|]. exists F. by apply (heap_ok_drop base lo base_low s1 F [] x). }
  assert (Hh1 : Heap s1 (blocks specs done L)) by (split; [apply Hh|by right]).
  assert (Hd2 : hold m0 js specs done L s2) by (apply hold_set_spec; [done..| |done]; by eapply hold_undisturbed).
  pose proof Hlay as (A1 & A2 & A3 & A4 & A5). unfold BUFFER in A5. pose proof (hd_ready _ _ _ _ _ _ Hd2) as Hr2.
  assert (Hsb : bytes_at (umem s2) (buf + t_start v) n = slice js v) by (apply slice_bytes; [apply Hr2|by split]).
  destruct (copy_ok (x :: blocks specs done L) x (buf + t_start v) n p 0 s2) as (m & R & H3 & Hb & Hm); [done|set_solver|lia|cbn; lia|cbn; lia|lia| |].
  { intros i Hi. rewrite Z.add_0_r. pose proof (nonzero_slice js v Hnz) as Hz. unfold nonzero in Hz. rewrite <- Hsb, Forall_lookup in Hz. apply (Hz i). by apply bytes_at_lookup. }
  rewrite Z.add_0_r in R, Hb. set (s3 := s2 <| umem := m |>) in *. set (s4 := s3 <| umem ::= flat_set (p + (t_end v - t_start v)) 0 |>).
  exists s4. split_and!; [unfold safe_strcpy; fold n; unfold bind at 1; cbn [set_spec modify bindO]; fold s2; erewrite bind_run; [|exact R]; done| |by eexists].
  assert (Hout : forall z, z < p \/ p + (t_end v - t_start v) + 1 <= z -> umem s4 z = umem s2 z).
  { intros z Hz. cbn. rewrite flat_set_ne by lia. apply Hm. lia. }
  assert (Hoth : forall y z, y ∈ blocks specs done L -> y.1 <= z < y.1 + 8 * y.2 -> umem s4 z = umem s2 z).
  { intros y z Hy Hz. apply Hout. specialize (Hx y Hy). unfold apart in Hx. cbn [x fst snd] in Hx. lia. }
  destruct Hd2 as [D1 D2 D3 D4 D5 D6]. assert (Hsp := specs_in specs done L). constructor.
  - unfold blocks. rewrite reverse_snoc. cbn [map app]. change (map bl (reverse done) ++ _ :: L) with (blocks specs done L).
    replace (bl (p, slice js v)) with x by (unfold x, bl; cbn [fst snd]; by rewrite Hsl). apply (heap_write base lo base_low s3 _ x); [done|set_solver|cbn; lia].
  - apply (ready_ext (umem s2)); [done..| |done]. intros z Hz. apply Hout. lia.
  - intros k y Hk. apply lookup_app_Some in Hk as [Hk|[Hge Hk]].
    + destruct (D3 k y Hk) as [E1 E2]. pose proof (lookup_lt_Some _ _ _ Hk). rewrite Forall_lookup in D4. destruct (bl_room y (D4 k y Hk)) as [R1 R2]. split.
      * rewrite <- E1. apply word_ext. intros z Hz. apply (Hoth _ z Hsp). rewrite units_12. cbn. lia.
      * eapply cstring_ext; [|exact E2]. intros z Hz. apply (Hoth (bl y)); [apply bl_in; by eapply list_elem_of_lookup_2|lia].
    + apply list_lookup_singleton_Some in Hk as [Hk <-]. assert (k = length done) as -> by lia. cbn [fst snd]. split.
      * transitivity (word (umem s2) (specs + 4 * Z.of_nat (length done))); [apply word_ext; intros z Hz; apply (Hoth _ z Hsp); rewrite units_12; cbn; lia|].
        apply word_set_eq. destruct Hh as [[? ?] _]. unfold x in W3. cbn [fst snd] in W3. lia.
      * split; [|cbn; rewrite Hsl; apply flat_set_eq]. replace (length (slice js v)) with n by lia. rewrite <- Hsb, <- Hb. apply bytes_at_ext. intros z Hz. cbn. apply flat_set_ne. lia.
  - apply Forall_app. split; [done|]. apply Forall_singleton. cbn [snd]. lia.
  - rewrite length_app. cbn. lia.
  - intros y z Hy Hz. rewrite (Hoth y z); [by apply (D6 y)|apply elem_of_app; set_solver|done].
Qed.

(** What the loop picks from the tokens: the one after each name, which it then skips. *)
Fixpoint picked (l : list (jsmntype * list Z)) : list (list Z) :=
  match l with
  | [] => []
  | x :: l => if spec_key x then match l with [] => [] | y :: l' => y.2 :: picked l' end else picked l
  end.

(** Every name it meets has a token after it. *)
Fixpoint complete (l : list (jsmntype * list Z)) : bool :=
  match l with
  | [] => true
  | x :: l => if spec_key x then match l with [] => false | _ :: l' => complete l' end else complete l
  end.

(** What one request for memory comes to at most: the strings are short. *)
Definition GRAIN : Z := 32768.

Lemma grain n : 0 <= n <= 101 -> 8 * Z.max 4096 (units n) <= GRAIN.
Proof. intros Hn. destruct (units_spec n ltac:(lia)) as (-> & _). unfold GRAIN. Z.div_mod_to_equations. lia. Qed.

Section tokens.
Context (js : list Z) (ts rest : list jsmntok) (specs : Z) (L : list (Z * Z)) (m0 : flat).
Hypothesis Hlay : laid_out.
Hypothesis Hjs : nonzero js /\ (length js < 100)%nat.
Hypothesis Hts : Forall (tok_in js) ts.

Definition view (l : list jsmntok) : list (jsmntype * list Z) := map (fun t => (t_type t, slice js t)) l.
Local Abbreviation round := (specs_round base buf lit_init lit_fs lit_nproc specs (Z.of_nat (length ts)) (ts ++ rest)).
Local Abbreviation Hold := (hold m0 js specs).

Lemma tok_get i t : ts !! i = Some t -> zget (ts ++ rest) (Z.of_nat i) = Some t.
Proof. intros Hi. rewrite zget_nat. by apply lookup_app_l_Some. Qed.

Lemma round_key s done i t v : Hold done L s -> (length done < 3)%nat -> ts !! i = Some t -> ts !! S i = Some v -> spec_key (t_type t, slice js t) = true ->
  exists r s', round (Z.of_nat i, Z.of_nat (length done)) s = Ret r s' /\
    ((exists p, r = inl (Z.of_nat (S (S i)), Z.of_nat (S (length done))) /\ Hold (done ++ [(p, slice js v)]) L s' /\ (forall k, roomy (S k) GRAIN s -> roomy k GRAIN s')) \/
     r = inr false /\ Heap s' L /\ (forall y z, y ∈ L -> y.1 <= z < y.1 + 8 * y.2 -> umem s' z = m0 z) /\ forall k, ~ roomy (S k) GRAIN s).
Proof.
  intros H Hd Hi Hv Hk. destruct Hjs as [Hnz Hl]. pose proof Hts as Hts'. rewrite Forall_lookup in Hts'. pose proof (Hts' _ _ Hi) as Ht. pose proof (Hts' _ _ Hv) as Htv. clear Hts'.
  pose proof (lookup_lt_Some _ _ _ Hi) as Hlt. destruct (Htv) as [V1 V2].
  unfold specs_round. rewrite (proj2 (Z.ltb_lt (Z.of_nat i) _)), (proj2 (Z.ltb_lt _ 3)) by lia. cbn [andb]. rewrite (tok_get i t Hi).
  change (bind (ofopt (Some ?w)) ?f s) with (f w s). cbv beta. rewrite (bind_run _ _ _ _ _ (is_spec_run s js t (hd_ready _ _ _ _ _ _ H) Hnz Hl Ht)). rewrite Hk.
  replace (Z.of_nat i + 1) with (Z.of_nat (S i)) by lia. rewrite (tok_get (S i) v Hv). change (bind (ofopt (Some ?w)) ?f s) with (f w s). cbv beta zeta.
  rewrite u32_small by lia.
  destruct (malloc_ok base lo base_low s _ (t_end v - t_start v + 1) (hd_heap _ _ _ _ _ _ H) ltac:(lia)) as (p & s1 & R & U & Em & [(-> & Hh & Href & _)|(Hp & Hh & Hg)]); rewrite (bind_run _ _ _ _ _ R).
  - assert (H1 : Hold done L s1) by (by eapply hold_undisturbed). pose proof (hold_set_spec _ _ _ _ _ _ 0 Hlay Hl H1 Hd) as H2.
    set (s2 := s1 <| umem ::= _ |>) in H2. erewrite bind_run; [|reflexivity]. fold s2. cbn [Z.eqb]. rewrite Nat2Z.id.
    destruct (free_all specs L done 0 s2 (hd_heap _ _ _ _ _ _ H2) ltac:(lia)) as (s' & R' & H' & U').
    { intros k x Hx. by apply (hd_words _ _ _ _ _ _ H2). }
    exists (inr false), s'. split; [|right; split_and!; [done|done| |intros k; eapply roomy_refuses; [apply (grain (t_end v - t_start v + 1)); lia|exact Href]]].
    + revert R'. unfold bind at 1 3 4. destruct (foreach _ _ s2) as [[] s3| | | |]; try done. cbn [bindO]. intros R'. unfold bind. by rewrite R'.
    + intros y z Hy Hz. rewrite (U' y z) by done. by apply (hd_keep _ _ _ _ _ _ H2 y).
  - destruct (hold_store _ _ _ _ _ s s1 p v Hlay Hl Hnz H Hd Htv U Hh) as (s' & R' & H' & m & Es'). exists (inl (Z.of_nat (S (S i)), Z.of_nat (S (length done)))), s'.
    split; [|left; exists p; split_and!; [done|done|]; intros k Hroom; rewrite Es'; exact (roomy_grown k GRAIN s s1 _ (grain (t_end v - t_start v + 1) ltac:(lia)) Em Hg Hroom)]. rewrite (proj2 (Z.eqb_neq p 0)) by done. revert R'. unfold bind. cbn [set_spec modify bindO].
    destruct (safe_strcpy _ _ _ _) as [[] s3| | | |]; try done. cbn [bindO]. intros R'. rewrite R'. cbn [bindO ret]. unfold ret. do 3 f_equal; lia.
Qed.

Lemma round_skip s done i t : Hold done L s -> (length done < 3)%nat -> ts !! i = Some t -> spec_key (t_type t, slice js t) = false ->
  round (Z.of_nat i, Z.of_nat (length done)) s = Ret (inl (Z.of_nat (S i), Z.of_nat (length done))) s.
Proof.
  intros H Hd Hi Hk. destruct Hjs as [Hnz Hl]. pose proof Hts as Hts'. rewrite Forall_lookup in Hts'. pose proof (Hts' _ _ Hi) as Ht. pose proof (lookup_lt_Some _ _ _ Hi) as Hlt.
  unfold specs_round. rewrite (proj2 (Z.ltb_lt (Z.of_nat i) _)), (proj2 (Z.ltb_lt _ 3)) by lia. cbn [andb]. rewrite (tok_get i t Hi).
  change (bind (ofopt (Some ?w)) ?f s) with (f w s). cbv beta. rewrite (bind_run _ _ _ _ _ (is_spec_run s js t (hd_ready _ _ _ _ _ _ H) Hnz Hl Ht)). rewrite Hk.
  unfold ret. do 3 f_equal. lia.
Qed.

Lemma specs_loop : forall fuel i done s, Hold done L s -> (length ts - i < fuel)%nat -> complete (view (drop i ts)) = true ->
  exists ok s', loop fuel round (Z.of_nat i, Z.of_nat (length done)) s = Ret ok s' /\
    (ok = true /\ (exists new, Hold (done ++ new) L s' /\ map snd (done ++ new) = take 3 (map snd done ++ picked (view (drop i ts)))) \/
     ok = false /\ Heap s' L /\ (forall y z, y ∈ L -> y.1 <= z < y.1 + 8 * y.2 -> umem s' z = m0 z) /\ ~ roomy (3 - length done) GRAIN s).
Proof.
  induction fuel as [|fuel IH]; intros i done s H Hf Hc; [lia|]. cbn [loop]. pose proof (hd_room _ _ _ _ _ _ H) as Hr.
  destruct (decide (i < length ts /\ length done < 3)%nat) as [[Hi Hd]|Hstop].
  - destruct (lookup_lt_is_Some_2 ts i Hi) as [t Ht]. rewrite (drop_S ts t i Ht) in Hc |- *. cbn [view map] in Hc |- *. cbn [complete picked] in Hc |- *. cbv iota beta in Hc |- *.
    destruct (spec_key (t_type t, slice js t)) eqn:Ek.
    + destruct (ts !! S i) as [v|] eqn:Ev; [|rewrite drop_ge in Hc by (by apply lookup_ge_None); done]. rewrite (drop_S ts v (S i) Ev) in Hc |- *. cbn [map view] in Hc |- *.
      destruct (round_key s done i t v H Hd Ht Ev Ek) as (r & s1 & R & [(p & -> & H1 & Hg)|(-> & H1 & U1 & Href)]); unfold bind; rewrite R; cbn [bindO].
      * replace (S (length done)) with (length (done ++ [(p, slice js v)])) by (rewrite length_app; cbn; lia).
        destruct (IH (S (S i)) _ s1 H1 ltac:(lia) Hc) as (ok & s' & R' & HR). exists ok, s'. split; [done|].
        destruct HR as [(-> & new & HR & E)|(-> & HR & U' & Hno)]; [left|right; split_and!; [done..|]; intros Hk; apply Hno; rewrite length_app; apply Hg; by replace (S (3 - (length done + length [(p, slice js v)]))) with (3 - length done)%nat by (cbn; lia)].
        split; [done|]. exists ((p, slice js v) :: new). rewrite <- app_assoc in HR, E. cbn [app] in HR, E. split; [done|]. rewrite E, map_app, <- app_assoc. done.
      * exists false, s1. split; [done|right]. split_and!; [done..|]. by replace (3 - length done)%nat with (S (2 - length done)) by lia.
    + unfold bind. rewrite (round_skip s done i t H Hd Ht Ek). cbn [bindO]. apply IH; [done|lia|done].
  - exists true, s. split; [|left; split; [done|exists []; rewrite app_nil_r; split; [done|]]].
    + unfold bind, specs_round. replace ((Z.of_nat i <? Z.of_nat (length ts)) && (Z.of_nat (length done) <? 3)) with false by (symmetry; apply andb_false_iff; rewrite !Z.ltb_ge; lia). done.
    + destruct (decide (length done = 3)%nat) as [E|E].
      * rewrite take_app_le by (rewrite length_map; lia). rewrite take_ge by (rewrite length_map; lia). done.
      * rewrite (drop_ge ts i) by lia. cbn. rewrite app_nil_r, take_ge by (rewrite length_map; lia). done.
Qed.
End tokens.

(** ** Reading a specification *)

Lemma fill_buffer_run L l : forall n k s, (k + n = length l)%nat -> Heap s L -> base + 8 <= buf -> buf + Z.of_nat (length l) <= lo ->
  exists m, foreach (seq k n) (fun k => store8 (buf + Z.of_nat k) (default 0 (l !! k))) s = Ret tt (s <| umem := m |>) /\ Heap (s <| umem := m |>) L /\
    (forall i c, (k <= i)%nat -> l !! i = Some c -> m (buf + Z.of_nat i) = c) /\ (forall z, z < buf + Z.of_nat k \/ buf + Z.of_nat (length l) <= z -> m z = umem s z).
Proof.
  induction n as [|n IH]; intros k s Hk H Hb1 Hb2.
  - exists (umem s). split_and!; [by destruct s|by destruct s| |done]. intros i c Hi Hc. apply lookup_lt_Some in Hc. lia.
  - cbn [seq foreach]. erewrite bind_run; [|reflexivity]. set (s1 := s <| umem ::= flat_set (buf + Z.of_nat k) (default 0 (l !! k)) |>).
    destruct (IH (S k) s1 ltac:(lia) ltac:(apply heap_outside; [done|lia]) Hb1 Hb2) as (m & R & H1 & Hm1 & Hm2). exists m. split_and!; [done|done| |].
    + intros i c Hi Hc. destruct (decide (i = k)) as [->|]; [|apply Hm1; [lia|done]]. rewrite Hm2 by lia. cbn. rewrite flat_set_eq, Hc. done.
    + intros z Hz. rewrite Hm2 by lia. cbn. apply flat_set_ne. lia.
Qed.

(** The literals of the program. *)
Record literals (m : flat) : Prop := {
  lt_init : cstring m lit_init KEY_INIT;
  lt_fs : cstring m lit_fs KEY_FS;
  lt_nproc : cstring m lit_nproc KEY_NPROC }.

Lemma fill_ready L l s : laid_out -> Heap s L -> literals (umem s) -> nonzero l -> (length l < 100)%nat ->
  exists m, (do! fill buf l in store8 (buf + Z.of_nat (length l)) 0) s = Ret tt (s <| umem := m |>) /\ Heap (s <| umem := m |>) L /\ ready m l /\
    (forall z, z < buf \/ lo <= z -> m z = umem s z).
Proof.
  intros Hlay H [T1 T2 T3] Hnz Hl. pose proof Hlay as (A1 & A2 & A3 & A4 & A5). unfold BUFFER in A5. unfold fill.
  destruct (fill_buffer_run L l (length l) 0 s eq_refl H A4 ltac:(lia)) as (m & R & H1 & Hm1 & Hm2). rewrite Z.add_0_r in Hm2.
  assert (Hout : forall z, z < buf \/ lo <= z -> flat_set (buf + Z.of_nat (length l)) 0 m z = umem s z) by (intros z Hz; rewrite flat_set_ne by lia; apply Hm2; lia).
  exists (flat_set (buf + Z.of_nat (length l)) 0 m). split_and!; [by rewrite (bind_run _ _ _ _ _ R)| |split|exact Hout].
  - exact (heap_outside (s <| umem := m |>) L (buf + Z.of_nat (length l)) 0 H1 ltac:(lia)).
  - split; [|apply flat_set_eq]. apply list_eq. intros i. destruct (decide (i < length l)%nat) as [Hi|Hi].
    + rewrite bytes_at_lookup by done. rewrite flat_set_ne by lia. destruct (lookup_lt_is_Some_2 l i Hi) as [c Hc]. rewrite Hc. f_equal. apply Hm1; [lia|done].
    + rewrite !lookup_ge_None_2; [done|lia|rewrite bytes_at_length; lia].
  - eapply cstring_ext; [|exact T1]. intros z Hz. apply Hout. cbn [length KEY_INIT] in Hz. lia.
  - eapply cstring_ext; [|exact T2]. intros z Hz. apply Hout. cbn [length KEY_FS] in Hz. lia.
  - eapply cstring_ext; [|exact T3]. intros z Hz. apply Hout. cbn [length KEY_NPROC] in Hz. lia.
Qed.

(** The values a specification gives, in the order of the file. *)
Definition known (fs : list (list Z * jvalue)) : list (list Z) :=
  omap (fun f => if bool_decide (f.1 ∈ [KEY_INIT; KEY_FS; KEY_NPROC]) then Some (content f.2) else None) fs.

(** No field that is passed over has one of the names for its value. *)
Definition unambiguous (fs : list (list Z * jvalue)) : Prop :=
  Forall (fun f => f.1 ∈ [KEY_INIT; KEY_FS; KEY_NPROC] \/ spec_key (value_type f.2, content f.2) = false) fs.

Definition field_view (fs : list (list Z * jvalue)) : list (jsmntype * list Z) := concat (map (fun f => [(JSMN_STRING, f.1); (value_type f.2, content f.2)]) fs).

Lemma picked_known fs : unambiguous fs -> picked (field_view fs) = known fs /\ complete (field_view fs) = true.
Proof.
  induction 1 as [|f fs Hf _ [IH1 IH2]]; [done|]. unfold field_view, known in *. cbn [map concat app omap list_omap picked complete].
  unfold spec_key at 1 3. cbn [fst snd]. destruct (decide (f.1 ∈ [KEY_INIT; KEY_FS; KEY_NPROC])) as [Hin|Hin].
  - rewrite (bool_decide_eq_true_2 (_ /\ _)) by done. rewrite (bool_decide_eq_true_2 (f.1 ∈ _)) by done. cbn [snd]. by rewrite IH1.
  - rewrite (bool_decide_eq_false_2 (_ /\ _)) by tauto. rewrite (bool_decide_eq_false_2 (f.1 ∈ _)) by done. destruct Hf as [?| ->]; done.
Qed.

Lemma view_object fs : view (object_text fs) (fields_tokens 1 fs) = field_view fs.
Proof.
  assert (Hz : forall js ts, view js ts = zip (map t_type ts) (map (slice js) ts)) by (intros js ts; induction ts as [|t ts IH]; [done|]; cbn; by rewrite <- IH).
  rewrite Hz, fields_types, object_slices. unfold pairs, field_view. induction fs as [|f fs IH]; [done|]. cbn [map concat app]. cbn. by rewrite IH.
Qed.

Lemma fields_tokens_in fs : forall f o js, 0 <= o -> o + Z.of_nat (length (field_text f) + length (fields_text fs)) <= Z.of_nat (length js) -> Forall (tok_in js) (fields_tokens o (f :: fs)).
Proof.
  induction fs as [|g fs IH]; intros [k v] o js Ho Hl.
  all: assert (Hf : Z.of_nat (length (field_text (k, v))) = 4 + Z.of_nat (length k) + Z.of_nat (length (value_text v))) by (unfold field_text; cbn [fst snd length]; rewrite !length_app; cbn [length]; lia).
  all: cbn [fields_tokens field_tokens fst snd app]; (apply Forall_cons; split; [unfold tok_in; cbn; lia|]); (apply Forall_cons; split; [destruct v as [x|x]; unfold tok_in; cbn in *; rewrite ?length_app in *; cbn in *; lia|]).
  - constructor.
  - change (fields_text (g :: fs)) with (44 :: 32 :: field_text g ++ fields_text fs) in Hl. cbn [length] in Hl. rewrite length_app in Hl. apply (IH g); lia.
Qed.

Lemma object_tokens_in fs : Forall (tok_in (object_text fs)) (object_tokens fs).
Proof.
  apply Forall_cons. split; [unfold tok_in; cbn; lia|]. destruct fs as [|f fs]; [constructor|]. apply fields_tokens_in; [lia|].
  unfold object_text. cbn [length]. rewrite !length_app. cbn [length]. lia.
Qed.

Lemma object_text_nonzero fs : Forall field_ok fs -> nonzero (object_text fs).
Proof.
  assert (Hf : forall f, field_ok f -> nonzero (field_text f)).
  { intros [k v] [Hk Hv]. cbn in *. assert (Hk' : nonzero k) by (eapply Forall_impl; [exact Hk|]; cbn; intros c Hc; set_solver).
    assert (Hv' : nonzero (value_text v)).
    { destruct v as [x|x]; cbn in *; [|destruct Hv as [Hv _]; eapply Forall_impl; [exact Hv|]; cbn; lia].
      constructor; [done|]. apply Forall_app. split; [eapply Forall_impl; [exact Hv|]; cbn; intros c Hc; set_solver|by repeat constructor]. }
    unfold field_text. cbn [fst snd]. constructor; [done|]. apply Forall_app. split; [done|]. repeat (constructor; [done|]). done. }
  assert (Hfs : forall fs, Forall field_ok fs -> nonzero (fields_text fs)).
  { induction 1 as [|f fs' Hf' _ IH]; [constructor|]. change (fields_text (f :: fs')) with ([44; 32] ++ field_text f ++ fields_text fs'). do 2 (constructor; [done|]). apply Forall_app. split; [by apply Hf|done]. }
  intros Hok. unfold object_text. constructor; [done|]. apply Forall_app. split; [|by repeat constructor]. destruct Hok as [|f fs' H1 H2]; [constructor|]. apply Forall_app. split; [by apply Hf|by apply Hfs].
Qed.

(** A specification that is read: the result of [parse_specs]. *)
Definition specs_read (s' : ustate) (L : list (Z * Z)) (p : Z) (vs : list (list Z)) : Prop :=
  exists qs, Heap s' (blocks p (zip qs vs) L) /\ length qs = length vs /\
    forall j q v, qs !! j = Some q -> vs !! j = Some v -> word (umem s') (p + 4 * Z.of_nat j) = q /\ lo <= q < 2 ^ 31 /\ cstring (umem s') q v.

Lemma zip_fst_snd {A B} (l : list (A * B)) : zip (map fst l) (map snd l) = l.
Proof. induction l as [|[a b] l IH]; [done|]. cbn. by rewrite IH. Qed.

Lemma hold_specs m0 js p done L s : hold m0 js p done L s -> specs_read s L p (map snd done).
Proof.
  intros H. exists (map fst done). rewrite zip_fst_snd. split_and!; [exact (hd_heap _ _ _ _ _ _ H)|by rewrite !length_map|].
  intros j q v Hq Hv. change (map fst done) with (fst <$> done) in Hq. change (map snd done) with (snd <$> done) in Hv. rewrite list_lookup_fmap in Hq. rewrite list_lookup_fmap in Hv. destruct (done !! j) as [x|] eqn:Ex; [|done]. injection Hq as <-. injection Hv as <-.
  destruct (hd_words _ _ _ _ _ _ H j x Ex) as [E1 E2]. split_and!; [done| | |done].
  all: pose proof (hd_heap _ _ _ _ _ _ H) as Hh; destruct (heap_blocks base lo _ _ Hh) as [_ Hw]; rewrite Forall_forall in Hw;
    destruct (Hw (bl x) (bl_in x done p L (list_elem_of_lookup_2 _ _ _ Ex))) as (W1 & W2 & W3); unfold bl in *; cbn [fst snd] in *; destruct Hh as [[? ?] _]; lia.
Qed.

Lemma parse_specs_run s L fs t : laid_out -> Heap s L -> literals (umem s) -> Forall field_ok fs -> unambiguous fs -> (length (object_text fs) < 100)%nat -> length t = 128%nat ->
  exists p s', parse_specs base buf lit_init lit_fs lit_nproc true (Some (object_text fs)) true t s = Ret p s' /\
    (forall y z, y ∈ L -> y.1 <= z < y.1 + 8 * y.2 -> umem s' z = umem s z) /\
    (p = 0 /\ Heap s' L /\ ~ roomy 4 GRAIN s \/ p <> 0 /\ specs_read s' L p (take 3 (known fs))).
Proof.
  intros Hlay H Hlit Hok Hun Hlen Ht. pose proof (object_text_nonzero fs Hok) as Hnz. set (js := object_text fs) in *.
  pose proof (fields_text_length fs) as Hft. assert (Hn : (6 * length fs <= length js + 1)%nat) by (destruct fs as [|f fs']; [cbn; lia|]; pose proof (fields_text_length fs'); unfold js, object_text; cbn [length]; rewrite !length_app; unfold field_text; cbn [length]; rewrite !length_app; cbn [length]; lia).
  destruct (fill_ready L js s Hlay H Hlit Hnz Hlen) as (m & R & H1 & Hr & Hm). set (s1 := s <| umem := m |>) in *.
  assert (HL : forall y, y ∈ L -> within lo s y). { destruct (heap_blocks base lo _ _ H) as [_ Hw]. by rewrite Forall_forall in Hw. }
  unfold parse_specs. cbn [negb]. revert R. unfold bind at 1 2. destruct (fill buf js s) as [[] s0| | | |]; try done. cbn [bindO]. intros R. rewrite (bind_run _ _ _ _ _ R).
  rewrite (bind_run _ _ _ _ _ (cstring_strlen s1 buf js 101 (rd_buf _ _ Hr) Hnz ltac:(lia))). rewrite bind_gets, Nat2Z.id. cbn [umem s1].
  change (umem s1) with m. rewrite (proj1 (rd_buf _ _ Hr)). pose proof (jsmn_parse_object_run fs t Hok ltac:(fold js; lia) ltac:(lia)) as RJ. fold js in RJ. rewrite RJ. clear RJ.
  set (ts := object_tokens fs). set (rest := drop (S (2 * length fs)) t). cbn [tokens at_].
  change (bind (ofopt (Some ?w)) ?f s1) with (f w s1). cbv beta. rewrite (proj2 (Z.ltb_ge _ 1)) by lia.
  change (zget (ts ++ rest) 0) with (Some (mk_tok JSMN_OBJECT 0 (Z.of_nat (length js)) (Z.of_nat (length fs)))).
  change (bind (ofopt (Some ?w)) ?f s1) with (f w s1). cbv beta. rewrite bool_decide_eq_false_2 by (by intros []).
  destruct (malloc_ok base lo base_low s1 L 12 H1 ltac:(lia)) as (p & s2 & R2 & [U1 U2] & Em & [(-> & H2 & Href & _)|(Hp & H2 & Hg)]); rewrite (bind_run _ _ _ _ _ R2).
  - exists 0, s2. split_and!; [done| |left; split_and!; [done|done|exact (roomy_refuses 3 GRAIN s1 _ (grain 12 ltac:(lia)) Href)]]. intros y z Hy Hz. rewrite (U1 y z) by done. apply Hm. destruct (HL y Hy) as (? & ? & ?). lia.
  - rewrite (proj2 (Z.eqb_neq p 0)) by done.
    assert (Hcount : 1 + 2 * Z.of_nat (length fs) = Z.of_nat (length ts)) by (unfold ts, object_tokens; cbn [length]; rewrite fields_tokens_length; lia). rewrite Hcount.
    assert (Hh0 : hold (umem s) js p [] L s2).
    { constructor; [done|apply (ready_ext m); [done..|intros z Hz; apply U2; lia|done]|done|constructor|cbn; lia|]. intros y z Hy Hz. rewrite (U1 y z) by done. apply Hm. destruct (HL y Hy) as (? & ? & ?). lia. }
    destruct (picked_known fs Hun) as [Hpk Hcp].
    destruct (specs_loop js ts rest p L (umem s) Hlay (conj Hnz Hlen) (object_tokens_in fs) (Z.to_nat (Z.of_nat (length ts)) + 1) 1 [] s2 Hh0) as (ok & s' & R' & HR); [lia|unfold ts, object_tokens; cbn [drop]; unfold js; by rewrite view_object|].
    rewrite (bind_run _ _ _ _ _ R'). destruct HR as [(-> & new & Hn' & E)|(-> & H' & U' & Hno)].
    + exists p, s'. split_and!; [done|intros y z Hy Hz; by apply (hd_keep _ _ _ _ _ _ Hn' y)|right]. split; [done|]. pose proof (hold_specs _ _ _ _ _ _ Hn') as Hsp. cbn [app map] in Hsp, E. rewrite E in Hsp.
      unfold ts, object_tokens in Hsp. cbn [drop] in Hsp. unfold js in Hsp. by rewrite view_object, Hpk in Hsp.
    + exists 0, s'. split_and!; [done|done|left; split_and!; [done|done|]]. intros Hk. exact (Hno (roomy_grown 3 GRAIN s1 s2 _ (grain 12 ltac:(lia)) Em Hg Hk)).
Qed.

Lemma string_at_run s a l : cstring (umem s) a l -> nonzero l -> (length l < 101)%nat -> string_at 101 a s = Ret l s.
Proof.
  intros H Hn Hl. unfold string_at. rewrite (bind_run _ _ _ _ _ (cstring_strlen s a l 101 H Hn Hl)). unfold gets. rewrite Nat2Z.id. by rewrite (proj1 H).
Qed.

Lemma containerstart_run s L p root init nproc : specs_read s L p [init; root; nproc] -> p <> 0 -> nonzero init -> nonzero root -> (length init < 101)%nat -> (length root < 101)%nat ->
  exists q, lo <= q < 2 ^ 31 /\ cstring (umem s) q nproc /\
    containerstart_child p true true true s = Ret [SysSetroot root (Z.of_nat (length root)); SysChdir root; SysMaxproc q; SysCreateAndEnter; SysExec init] s.
Proof.
  intros (qs & _ & Hlen & Hq) Hp N0 N1 L0 L1. destruct qs as [|q0 [|q1 [|q2 [|]]]]; try done.
  destruct (Hq 0%nat q0 init eq_refl eq_refl) as (E0 & _ & C0). destruct (Hq 1%nat q1 root eq_refl eq_refl) as (E1 & _ & C1). destruct (Hq 2%nat q2 nproc eq_refl eq_refl) as (E2 & B2 & C2).
  exists q2. split_and!; [lia|lia|done|]. unfold containerstart_child, spec_at. rewrite (proj2 (Z.eqb_neq p 0)) by done. rewrite bind_gets. change (p + 4 * 1) with (p + 4 * Z.of_nat 1). rewrite E1.
  rewrite (bind_run _ _ _ _ _ (cstring_strlen s q1 root 101 C1 N1 L1)), (bind_run _ _ _ _ _ (string_at_run s q1 root C1 N1 L1)). cbn [negb]. rewrite bind_gets. change (p + 4 * 2) with (p + 4 * Z.of_nat 2). rewrite E2.
  cbn [negb]. rewrite bind_gets. change (p + 4 * 0) with (p + 4 * Z.of_nat 0). rewrite E0. rewrite (bind_run _ _ _ _ _ (string_at_run s q0 init C0 N0 L0)). rewrite i32_small by lia. done.
Qed.
End run.

(** C23: [parse_specs] reads a specification.  For a file that holds a printed JSON
    object of fewer than 100 characters, in which no field that is passed over has one
    of the names init, fs and nproc as its string value ([unambiguous]), it returns
    without touching the blocks the program already has.  If the kernel grants four
    requests for memory, it returns an array whose entries point to the values of the
    first three fields named init, fs or nproc, as C strings, in the order of the
    file; otherwise it may return null, with everything it had allocated given
    back. *)
Theorem parse_specs_file_order base lo buf lit_init lit_fs lit_nproc s L fs t :
  0 < base -> laid_out base lo buf lit_init lit_fs lit_nproc -> heap base lo s L -> literals lit_init lit_fs lit_nproc (umem s) ->
  Forall field_ok fs -> unambiguous fs -> (length (object_text fs) < 100)%nat -> length t = 128%nat ->
  exists p s', parse_specs base buf lit_init lit_fs lit_nproc true (Some (object_text fs)) true t s = Ret p s' /\
    (forall y z, y ∈ L -> y.1 <= z < y.1 + 8 * y.2 -> umem s' z = umem s z) /\
    (p = 0 /\ heap base lo s' L /\ ~ roomy 4 GRAIN s \/ p <> 0 /\ specs_read base lo s' L p (take 3 (known fs))).
Proof.
  intros Hb Hlay. apply parse_specs_run; [|done]. destruct Hlay as (_ & _ & _ & ? & ?). unfold BUFFER in *. lia.
Qed.

(** C40: what the child of [containerstart] asks the kernel for.  With a specification
    of fewer than 100 characters in the order init, fs, nproc, all calls succeeding and
    four requests for memory granted, it sets its root to fs, changes to it, enters a
    new namespace and runs init; but the limit it passes to [cm_maxproc] is the address
    of the string with the number of processes, not the number.  Only when memory is
    refused does it exit at once. *)
Theorem containerstart_calls base lo buf lit_init lit_fs lit_nproc s L init root nproc t :
  let fs := [(KEY_INIT, VStr init); (KEY_FS, VStr root); (KEY_NPROC, nproc)] in
  0 < base -> laid_out base lo buf lit_init lit_fs lit_nproc -> heap base lo s L -> literals lit_init lit_fs lit_nproc (umem s) ->
  str_ok init -> str_ok root -> value_ok nproc -> (length (object_text fs) < 100)%nat -> length t = 128%nat ->
  exists calls s', (let! p := parse_specs base buf lit_init lit_fs lit_nproc true (Some (object_text fs)) true t in containerstart_child p true true true) s = Ret calls s' /\
    (calls = [SysExit] /\ ~ roomy 4 GRAIN s \/
     exists q, lo <= q < 2 ^ 31 /\ cstring (umem s') q (content nproc) /\
       calls = [SysSetroot root (Z.of_nat (length root)); SysChdir root; SysMaxproc q; SysCreateAndEnter; SysExec init]).
Proof.
  intros fs Hb Hlay H Hlit H0 H1 H2 Hlen Ht. assert (Hl : 0 < base /\ base + 8 <= lo) by (destruct Hlay as (_ & _ & _ & ? & ?); unfold BUFFER in *; lia).
  assert (Hk : forall k, k ∈ [KEY_INIT; KEY_FS; KEY_NPROC] -> str_ok k) by (intros k Hk; rewrite !elem_of_cons, elem_of_nil in Hk; destruct Hk as [->|[->|[->|[]]]]; by apply (bool_decide_unpack _); vm_compute).
  assert (Hok : Forall field_ok fs) by (repeat apply Forall_cons_2; [..|apply Forall_nil_2]; (split; [apply Hk; set_solver|done])).
  assert (Hun : unambiguous fs) by (repeat apply Forall_cons_2; [..|apply Forall_nil_2]; left; set_solver).
  destruct (parse_specs_run base lo buf lit_init lit_fs lit_nproc Hl s L fs t Hlay H Hlit Hok Hun Hlen Ht) as (p & s' & R & _ & HR). rewrite (bind_run _ _ _ _ _ R).
  destruct HR as [(-> & _ & Hno)|[Hp HR]]; [exists [SysExit], s'; split; [done|by left]|]. change (take 3 (known fs)) with [init; root; content nproc] in HR.
  assert (Hz : forall x, str_ok x -> nonzero x) by (intros x Hx; eapply Forall_impl; [exact Hx|]; cbn; intros c Hc; set_solver).
  assert (Hll : (length init + length root < 100)%nat) by (unfold fs, object_text in Hlen; cbn in Hlen; rewrite !length_app in Hlen; cbn in Hlen; rewrite !length_app in Hlen; cbn in Hlen; lia).
  destruct (containerstart_run base lo Hl s' L p root init (content nproc)) as (q & Hq & Hc & R'); [done|done|by apply Hz|by apply Hz|lia|lia|].
  eexists _, s'. split; [exact R'|right]. by exists q.
Qed.

(** A process with the literals at 100, 110 and 120 and the array at 2000. *)
Definition demo_literals : list Z := KEY_INIT ++ replicate 6 0 ++ KEY_FS ++ replicate 8 0 ++ KEY_NPROC.
Definition demo_proc : ustate := mk_ustate (fun a => if a <? 100 then 0 else nth (Z.to_nat (a - 100)) demo_literals 0) 0 4096 262144 (replicate 4 true).

Lemma demo_proc_ok : laid_out 1000 4096 2000 100 110 120 /\ heap 1000 4096 demo_proc [] /\ literals 100 110 120 (umem demo_proc) /\ roomy 4 GRAIN demo_proc.
Proof.
  split_and!; [unfold laid_out, BUFFER; lia| | |].
  - split; [vm_compute; by split|by left].
  - by constructor; split; vm_compute.
  - split; [by exists []|vm_compute; discriminate].
Qed.

Lemma parse_specs_file_order_witness :
  exists p s', parse_specs 1000 2000 100 110 120 true (Some (object_text demo_fields)) true (replicate 128 (mk_tok JSMN_UNDEFINED 0 0 0)) demo_proc = Ret p s' /\
    p <> 0 /\ specs_read 1000 4096 s' [] p [[47; 115; 104]; [47; 116]; [52]].
Proof.
  destruct demo_proc_ok as (H1 & H2 & H3 & H4).
  assert (Hun : unambiguous demo_fields) by (repeat apply Forall_cons_2; [..|apply Forall_nil_2]; left; set_solver).
  destruct (parse_specs_file_order 1000 4096 2000 100 110 120 demo_proc [] demo_fields (replicate 128 (mk_tok JSMN_UNDEFINED 0 0 0)) ltac:(lia) H1 H2 H3 demo_fields_ok Hun ltac:(cbn; lia) eq_refl)
    as (p & s' & R & _ & HR). exists p, s'. split; [exact R|]. destruct HR as [(_ & _ & Hno)|HR]; [contradiction|exact HR].
Defined.

Lemma containerstart_calls_witness :
  exists q s',
    (let! p := parse_specs 1000 2000 100 110 120 true (Some (object_text [(KEY_INIT, VStr [47; 115; 104]); (KEY_FS, VStr [47; 116]); (KEY_NPROC, VPrim [52])])) true (replicate 128 (mk_tok JSMN_UNDEFINED 0 0 0)) in
     containerstart_child p true true true) demo_proc =
      Ret [SysSetroot [47; 116] 2; SysChdir [47; 116]; SysMaxproc q; SysCreateAndEnter; SysExec [47; 115; 104]] s' /\
    4096 <= q < 2 ^ 31 /\ cstring (umem s') q [52].
Proof.
  destruct demo_proc_ok as (H1 & H2 & H3 & H4). pose proof demo_fields_ok as Hd. unfold demo_fields in Hd. rewrite !Forall_cons in Hd. destruct Hd as ([_ D0] & [_ D1] & [_ D2] & _).
  destruct (containerstart_calls 1000 4096 2000 100 110 120 demo_proc [] [47; 115; 104] [47; 116] (VPrim [52]) (replicate 128 (mk_tok JSMN_UNDEFINED 0 0 0)) ltac:(lia) H1 H2 H3 D0 D1 D2 ltac:(cbn; lia) eq_refl)
    as (calls & s' & R & [(_ & Hno)|(q & Hq & Hc & Ecalls)]); [contradiction|]. subst calls. exists q, s'. split; [exact R|]. split; [exact Hq|exact Hc].
Defined.
