(* ===== verification/Sh.v ===== *)
(** * The shell's parser

    [src/sh.c] from [gettoken] to [nulterminate].  The command line is a list of
    characters without zeros; [es] is its end, where the terminating zero is.
    Pointers into it are positions, and the parser's state is the position [*ps].
    Words are pairs of positions.  [panic] prints a message and exits.  The node of
    an [EXEC] command is filled in while redirections are already put around it; the
    model collects both and puts them together at the end. *)
From S2P Require Import Prelude CString Headers.

(** ** Commands *)

Definition MAXARGS : nat := 10.

(** The five kinds of [struct cmd]; [W] is what stands for a word, a pair of pointers
    in the parser. *)
Inductive command (W : Type) :=
| EXEC (argv : list W)
| REDIR (c : command W) (file : W) (mode fd : Z)
| PIPE (left right : command W)
| LIST (left right : command W)
| BACK (c : command W).
Arguments EXEC {W}.
Arguments REDIR {W}.
Arguments PIPE {W}.
Arguments LIST {W}.
Arguments BACK {W}.

Abbreviation cmd := (command (nat * nat)).

(** A file, its mode and the descriptor it replaces; [wrap] is repeated [redircmd]. *)
Definition redirection (W : Type) : Type := W * Z * Z.
Definition wrap {W} (c : command W) (rs : list (redirection W)) : command W := foldl (fun c '(file, mode, fd) => REDIR c file mode fd) c rs.
Abbreviation redir := (redirection (nat * nat)).

(** ** Tokens *)

Definition whitespace : list Z := [32; 9; 13; 10; 11].
Definition symbols : list Z := [60; 124; 62; 38; 59; 40; 41].
Definition is_space (c : Z) : bool := bool_decide (c ∈ whitespace).
Definition is_symbol (c : Z) : bool := bool_decide (c ∈ symbols).

Definition P := M nat.

Section parser.
Context (s : list Z).

Definition es : nat := length s.
Definition ch (p : nat) : Z := default 0 (s !! p).

(** [while (s < es && test( *s )) s++], with [n] characters to go. *)
Fixpoint scan (test : Z -> bool) (n p : nat) : nat :=
  match n with
  | O => p
  | S n => if test (ch p) then scan test n (S p) else p
  end.

Definition skip_space (p : nat) : nat := scan is_space (es - p) p.
Definition word_end (p : nat) : nat := scan (fun c => negb (is_space c) && negb (is_symbol c)) (es - p) p.

(** The kind of the token at [p] and where it ends. *)
Definition token_at (p : nat) : Z * nat :=
  let c := ch p in
  if c =? 0 then (0, p)
  else if bool_decide (c ∈ [124; 40; 41; 59; 38; 60]) then (c, S p)
  else if c =? 62 then if ch (S p) =? 62 then (43, S (S p)) else (62, S p)
  else (97, word_end p).

Definition gettoken : P (Z * nat * nat) :=
  let! p := gets id in
  let q := skip_space p in
  let '(tok, eq) := token_at q in
  do! modify (fun _ => skip_space eq) in
  ret (tok, q, eq).

Definition peek (toks : list Z) : P bool :=
  let! p := gets id in
  do! modify skip_space in
  let c := ch (skip_space p) in
  ret (negb (c =? 0) && bool_decide (c ∈ toks)).

(** ** Commands from tokens *)

Definition redir_round (rs : list redir) : P (list redir + list redir) :=
  let! b := peek [60; 62] in
  if b : bool then
    let! '(tok, _, _) := gettoken in
    let! '(t, q, eq) := gettoken in
    if negb (t =? 97) then panic "missing file for redirection"
    else
      ret (inl (rs ++ (if tok =? 60 then [((q, eq), O_RDONLY, 0)]
                       else if (tok =? 62) || (tok =? 43) then [((q, eq), Z.lor O_WRONLY O_CREATE, 1)] else [])))
  else ret (inr rs).

Definition parseredirs : P (list redir) := loop (S (S es)) redir_round [].

Definition exec_round (st : list (nat * nat) * list redir) : P ((list (nat * nat) * list redir) + (list (nat * nat) * list redir)) :=
  let '(argv, rs) := st in
  let! b := peek [124; 41; 38; 59] in
  if b : bool then ret (inr (argv, rs))
  else
    let! '(tok, q, eq) := gettoken in
    if tok =? 0 then ret (inr (argv, rs))
    else if negb (tok =? 97) then panic "syntax"
    else
      let argv := argv ++ [(q, eq)] in
      if (MAXARGS <=? length argv)%nat then panic "too many args"
      else
        let! rs' := parseredirs in
        ret (inl (argv, rs ++ rs')).

Definition back_round (c : cmd) : P (cmd + cmd) :=
  let! b := peek [38] in
  if b : bool then do! gettoken in ret (inl (BACK c)) else ret (inr c).

Definition spin {A} : P A := fun p => Spin p.

Fixpoint parseline (fuel : nat) : P cmd :=
  match fuel with
  | O => spin
  | S n =>
      let! c := parsepipe n in
      let! c := loop (S (S es)) back_round c in
      let! b := peek [59] in
      if b : bool then
        do! gettoken in
        let! r := parseline n in
        ret (LIST c r)
      else ret c
  end
with parsepipe (fuel : nat) : P cmd :=
  match fuel with
  | O => spin
  | S n =>
      let! c := parseexec n in
      let! b := peek [124] in
      if b : bool then
        do! gettoken in
        let! r := parsepipe n in
        ret (PIPE c r)
      else ret c
  end
with parseexec (fuel : nat) : P cmd :=
  match fuel with
  | O => spin
  | S n =>
      let! b := peek [40] in
      if b : bool then parseblock n
      else
        let! rs := parseredirs in
        let! '(argv, rs) := loop (S (S es)) exec_round ([], rs) in
        ret (wrap (EXEC argv) rs)
  end
with parseblock (fuel : nat) : P cmd :=
  match fuel with
  | O => spin
  | S n =>
      let! b := peek [40] in
      if negb b then panic "parseblock"
      else
        do! gettoken in
        let! c := parseline n in
        let! b := peek [41] in
        if negb b then panic "syntax - missing )"
        else
          do! gettoken in
          let! rs := parseredirs in
          ret (wrap c rs)
  end.

(** [parsecmd] up to the call of [nulterminate]. *)
Definition parse_text : P cmd :=
  let! c := parseline (4 * es + 4) in
  let! _ := peek [] in
  let! p := gets id in
  if (p =? es)%nat then ret c else panic "syntax".
End parser.

(** The zeros [nulterminate] writes into the line [t]. *)
Fixpoint nulterminate (c : cmd) (t : list Z) : list Z :=
  match c with
  | EXEC argv => foldl (fun t w => <[snd w := 0]> t) t argv
  | REDIR c file _ _ => <[snd file := 0]> (nulterminate c t)
  | PIPE l r => nulterminate r (nulterminate l t)
  | LIST l r => nulterminate r (nulterminate l t)
  | BACK c => nulterminate c t
  end.

Definition parsecmd (s : list Z) : outcome nat (cmd * list Z) :=
  (let! c := parse_text s in ret (c, nulterminate c (s ++ [0]))) 0%nat.


(** ** Runs that return or panic *)

(** From [p], [m] returns a value and a position that satisfy [Q], or panics. *)
Definition sure {S A} (m : M S A) (Q : A -> S -> Prop) (p : S) : Prop :=
  match m p with Ret a p' => Q a p' | Panic _ _ => True | _ => False end.

Section sure_rules.
Context {S : Type}.

Lemma sure_ret {A} (a : A) (Q : A -> S -> Prop) p : Q a p -> sure (ret a) Q p.
Proof. done. Qed.
Lemma sure_panic {A} msg (Q : A -> S -> Prop) p : sure (panic msg) Q p.
Proof. done. Qed.
Lemma sure_bind {A B} (m : M S A) (f : A -> M S B) Q p : sure m (fun a => sure (f a) Q) p -> sure (bind m f) Q p.
Proof. unfold sure, bind. by destruct (m p). Qed.
Lemma sure_mono {A} (m : M S A) (Q R : A -> S -> Prop) p : sure m Q p -> (forall a p', Q a p' -> R a p') -> sure m R p.
Proof. unfold sure. destruct (m p); auto. Qed.

Lemma sure_loop {X A} (I : X -> S -> Prop) (mu : S -> nat) fuel (body : X -> M S (X + A)) (Q : A -> S -> Prop) x p :
  I x p -> (mu p < fuel)%nat ->
  (forall x p, I x p -> sure (body x) (fun r p' => match r with inl x' => I x' p' /\ (mu p' < mu p)%nat | inr a => Q a p' end) p) ->
  sure (loop fuel body x) Q p.
Proof.
  intros HI Hf Hb. revert x p HI Hf. induction fuel as [|n IH]; intros x p HI Hf; [lia|].
  cbn [loop]. apply sure_bind. eapply sure_mono; [by apply Hb|].
  intros [x'|a] p'; [|by intros; apply sure_ret]. intros [HI' Hmu]. apply IH; [done|lia].
Qed.
End sure_rules.

(** ** Words *)

Definition plain (c : Z) : bool := negb (is_space c) && negb (is_symbol c).

Fixpoint words (c : cmd) : list (nat * nat) :=
  match c with
  | EXEC argv => argv
  | REDIR c file _ _ => file :: words c
  | PIPE l r => words l ++ words r
  | LIST l r => words l ++ words r
  | BACK c => words c
  end.

(** [nulterminate] writes at the ends of the words and nowhere else. *)
Lemma nul_argv (ws : list (nat * nat)) : forall t i, length (foldl (fun t w => <[snd w := 0]> t) t ws) = length t /\
  (i ∉ map snd ws -> foldl (fun t w => <[snd w := 0]> t) t ws !! i = t !! i) /\
  (i ∈ map snd ws -> (i < length t)%nat -> foldl (fun t w => <[snd w := 0]> t) t ws !! i = Some 0).
Proof.
  induction ws as [|w ws IH]; intros t i; cbn [foldl map]; [split_and!; [done|done|set_solver]|]. destruct (IH (<[snd w := 0]> t) i) as (H1 & H2 & H3). rewrite length_insert in *.
  split_and!; [done| |].
  - intros Hi. rewrite not_elem_of_cons in Hi. destruct Hi as [Hi1 Hi2]. rewrite H2 by done. by apply list_lookup_insert_ne.
  - intros Hi Hl. destruct (decide (i ∈ map snd ws)) as [Hw|Hw]; [by apply H3|]. apply elem_of_cons in Hi as [->|?]; [|done]. rewrite H2 by done. by apply list_lookup_insert_eq.
Qed.

Lemma nul_spec (c : cmd) : forall t i, length (nulterminate c t) = length t /\
  (i ∉ map snd (words c) -> nulterminate c t !! i = t !! i) /\ (i ∈ map snd (words c) -> (i < length t)%nat -> nulterminate c t !! i = Some 0).
Proof.
  assert (Htwo : forall l r : cmd, (forall t i, length (nulterminate l t) = length t /\ (i ∉ map snd (words l) -> nulterminate l t !! i = t !! i) /\ (i ∈ map snd (words l) -> (i < length t)%nat -> nulterminate l t !! i = Some 0)) ->
    (forall t i, length (nulterminate r t) = length t /\ (i ∉ map snd (words r) -> nulterminate r t !! i = t !! i) /\ (i ∈ map snd (words r) -> (i < length t)%nat -> nulterminate r t !! i = Some 0)) ->
    forall t i, length (nulterminate r (nulterminate l t)) = length t /\ (i ∉ map snd (words l ++ words r) -> nulterminate r (nulterminate l t) !! i = t !! i) /\
      (i ∈ map snd (words l ++ words r) -> (i < length t)%nat -> nulterminate r (nulterminate l t) !! i = Some 0)).
  { intros l r IHl IHr t i. destruct (IHl t i) as (L1 & L2 & L3). destruct (IHr (nulterminate l t) i) as (R1 & R2 & R3). rewrite map_app. split_and!; [congruence| |].
    - rewrite not_elem_of_app. intros [H1 H2]. rewrite R2, L2 by done. done.
    - intros Hi Hl. destruct (decide (i ∈ map snd (words r))) as [?|Hr]; [apply R3; [done|lia]|]. rewrite R2 by done. apply elem_of_app in Hi as [?|?]; [by apply L3|done]. }
  induction c as [argv|c IH f m fd|l IHl r IHr|l IHl r IHr|c IH]; intros t i; cbn [nulterminate words map].
  - apply nul_argv.
  - destruct (IH t i) as (H1 & H2 & H3). rewrite length_insert. split_and!; [done| |].
    + rewrite not_elem_of_cons. intros [Hi1 Hi2]. rewrite list_lookup_insert_ne by done. by apply H2.
    + intros Hi Hl. destruct (decide (i = snd f)) as [->|]; [apply list_lookup_insert_eq; lia|]. rewrite list_lookup_insert_ne by done. apply elem_of_cons in Hi as [?|?]; [done|by apply H3].
  - by apply Htwo.
  - by apply Htwo.
  - apply IH.
Qed.

Lemma cstr_between t a b : (a <= b)%nat -> (forall i, (a <= i < b)%nat -> exists c, t !! i = Some c /\ c <> 0) -> t !! b = Some 0 -> cstr (drop a t) = take (b - a) (drop a t).
Proof.
  intros Hab. remember (b - a)%nat as n eqn:En. revert a Hab En. induction n as [|n IH]; intros a Hab En Hi Hb.
  - assert (a = b) as -> by lia. rewrite (drop_S t 0 b Hb). done.
  - destruct (Hi a ltac:(lia)) as (c & Hc & Hc0). rewrite (drop_S t c a Hc). cbn [cstr take]. rewrite (proj2 (Z.eqb_neq c 0)) by done. f_equal. apply IH; [lia|lia| |done]. intros i Hi'. apply Hi. lia.
Qed.

Section words.
Context (s : list Z).
Hypothesis s_nonzero : Forall (fun c => c <> 0) s.
Local Abbreviation len := (length s).
Local Abbreviation c_at := (ch s).

(** A word of the line: plain characters up to one that is not, or to the end. *)
Definition word_ok (w : nat * nat) : Prop :=
  (w.1 < w.2 <= len)%nat /\ (forall i, (w.1 <= i < w.2)%nat -> plain (c_at i) = true) /\ (w.2 = len \/ plain (c_at w.2) = false).

Definition cmd_ok (c : cmd) : Prop := Forall word_ok (words c).
Definition redir_ok (r : redir) : Prop := word_ok r.1.1.

Lemma wrap_ok rs : forall c, cmd_ok c -> Forall redir_ok rs -> cmd_ok (wrap c rs).
Proof.
  induction rs as [|[[f m] fd] rs IH]; intros c Hc Hr; [done|]. apply Forall_cons in Hr as [Hr1 Hr2]. apply IH; [|done]. by constructor.
Qed.

Lemma scan_spec test n : forall p, (p + n = len)%nat ->
  let e := scan s test n p in (p <= e <= len)%nat /\ (forall i, (p <= i < e)%nat -> test (c_at i) = true) /\ (e = len \/ test (c_at e) = false).
Proof.
  induction n as [|n IH]; intros p Hp; cbn [scan].
  - split_and!; [lia|lia|intros; lia|left; lia].
  - destruct (test (c_at p)) eqn:E.
    + destruct (IH (S p) ltac:(lia)) as (H1 & H2 & H3). split_and!; [lia|lia| |done]. intros i Hi. destruct (decide (i = p)) as [->|]; [done|apply H2; lia].
    + split_and!; [lia|lia|intros; lia|by right].
Qed.

Lemma skip_spec p : (p <= len)%nat -> (p <= skip_space s p <= len)%nat /\ (skip_space s p = len \/ is_space (c_at (skip_space s p)) = false).
Proof. intros Hp. unfold skip_space, es. destruct (scan_spec is_space (len - p) p ltac:(lia)) as (H1 & _ & H3). done. Qed.

Lemma ch_end p : (len <= p)%nat -> c_at p = 0.
Proof. intros Hp. unfold ch. by rewrite lookup_ge_None_2. Qed.

Lemma ch_in p : (p < len)%nat -> c_at p <> 0.
Proof. intros Hp. unfold ch. destruct (lookup_lt_is_Some_2 s p Hp) as [c Hc]. rewrite Hc. rewrite Forall_lookup in s_nonzero. by eapply s_nonzero. Qed.

(** A token that is there takes at least one character; a word is [word_ok]. *)
Lemma gettoken_ok p : (p <= len)%nat ->
  sure (gettoken s) (fun '(tok, q, eq) p' => (p <= p' <= len)%nat /\ (tok <> 0 -> (p < p')%nat) /\ (skip_space s p < len -> p < p')%nat /\ (tok = 97 -> word_ok (q, eq))) p.
Proof.
  intros Hp. unfold gettoken, sure, bind, gets, bindO, modify, ret, id. destruct (skip_spec p Hp) as [Hq Hsp]. set (q := skip_space s p) in *.
  unfold token_at. destruct (decide (q = len)) as [Eq|Hne].
  - rewrite (ch_end q) by lia. cbn [Z.eqb]. destruct (skip_spec q ltac:(lia)). split_and!; [lia|lia|done|lia|done].
  - pose proof (ch_in q ltac:(lia)) as Hc. rewrite (proj2 (Z.eqb_neq (c_at q) 0)) by done.
    assert (Hadv : forall e, (q < e <= len)%nat -> (p <= skip_space s e <= len)%nat /\ (p < skip_space s e)%nat) by (intros e He; destruct (skip_spec e ltac:(lia)); lia).
    destruct (bool_decide (c_at q ∈ [124; 40; 41; 59; 38; 60])) eqn:E1.
    + destruct (Hadv (S q) ltac:(lia)). split_and!; [lia|lia|lia|lia|]. intros E. apply bool_decide_eq_true in E1. rewrite E in E1. set_solver.
    + destruct (Z.eqb_spec (c_at q) 62) as [E2|E2].
      * destruct (Z.eqb_spec (c_at (S q)) 62) as [E3|E3].
        -- assert (S q < len)%nat by (destruct (decide (S q < len)%nat); [done|rewrite ch_end in E3 by lia; done]). destruct (Hadv (S (S q)) ltac:(lia)). split_and!; [lia|lia|lia|lia|done].
        -- destruct (Hadv (S q) ltac:(lia)). split_and!; [lia|lia|lia|lia|done].
      * assert (Hpl : plain (c_at q) = true).
        { unfold plain. destruct Hsp as [?| ->]; [done|]. cbn [negb andb]. apply negb_true_iff, bool_decide_eq_false. apply bool_decide_eq_false in E1. unfold symbols. rewrite !elem_of_cons in *. tauto. }
        unfold word_end, es. destruct (scan_spec plain (len - q) q ltac:(lia)) as (H1 & H2 & H3). fold plain. set (e := scan s plain (len - q) q) in *.
        assert (q < e)%nat. { unfold e. destruct (len - q)%nat eqn:El; [lia|]. cbn [scan]. rewrite Hpl. destruct (scan_spec plain n (S q) ltac:(lia)). lia. }
        change (scan s (fun c => negb (is_space c) && negb (is_symbol c)) (len - q) q) with e.
        destruct (Hadv e ltac:(lia)). split_and!; [lia|lia|lia|lia|]. intros _. unfold word_ok. cbn [fst snd]. split_and!; [lia|lia|exact H2|exact H3].
Qed.

Lemma peek_ok toks p : (p <= len)%nat -> sure (peek s toks) (fun b p' => p' = skip_space s p /\ (p <= p' <= len)%nat /\ (b = true -> (p' < len)%nat)) p.
Proof.
  intros Hp. unfold peek, sure, bind, gets, bindO, modify, ret, id. destruct (skip_spec p Hp) as [Hq _]. split_and!; [done|lia|lia|].
  intros [H _]%andb_true_iff. apply negb_true_iff, Z.eqb_neq in H. destruct (decide (skip_space s p < len)%nat); [done|]. by rewrite ch_end in H by lia.
Qed.

Lemma skip_idem p : (p <= len)%nat -> skip_space s (skip_space s p) = skip_space s p.
Proof.
  intros Hp. destruct (skip_spec p Hp) as [Hq Hs]. unfold skip_space at 1. unfold es. destruct (len - skip_space s p)%nat as [|n] eqn:E; [done|]. cbn [scan]. destruct Hs as [?| ->]; [lia|done].
Qed.

(** ** Every line is parsed or refused *)

(** A parser step: it goes forward within the line. *)
Definition fwd {A} (Q : A -> Prop) (p : nat) : A -> nat -> Prop := fun a p' => (p <= p' <= len)%nat /\ Q a.

Lemma parseredirs_ok p : (p <= len)%nat -> sure (parseredirs s) (fwd (Forall redir_ok) p) p.
Proof.
  intros Hp. unfold parseredirs. apply (sure_loop (fun rs p' => (p <= p' <= len)%nat /\ Forall redir_ok rs) (fun p' => len - p')%nat); [split; [lia|constructor]|unfold es; lia|].
  intros rs p1 [H1 Hrs]. unfold redir_round. apply sure_bind. eapply sure_mono; [apply peek_ok; lia|]. intros b p2 (-> & H2 & Hb). destruct b; [|apply sure_ret; split; [lia|done]].
  specialize (Hb eq_refl). apply sure_bind. eapply sure_mono; [apply gettoken_ok; lia|]. intros [[tok q0] eq0] p3 (H3 & _ & Hadv & _). rewrite skip_idem in Hadv by lia. specialize (Hadv Hb).
  apply sure_bind. eapply sure_mono; [apply gettoken_ok; lia|]. intros [[t q] eq] p4 (H4 & _ & _ & Hw). destruct (Z.eqb_spec t 97) as [Et|Et]; cbn [negb]; [|apply sure_panic].
  apply sure_ret. split; [|lia]. split; [lia|]. apply Forall_app. split; [done|]. repeat case_match; [by apply Forall_singleton, Hw..|constructor].
Qed.

Lemma exec_loop_ok p rs : (p <= len)%nat -> Forall redir_ok rs ->
  sure (loop (S (S (es s))) (exec_round s) ([], rs)) (fwd (fun '(argv, rs) => Forall word_ok argv /\ Forall redir_ok rs) p) p.
Proof.
  intros Hp Hrs0. apply (sure_loop (fun '(argv, rs) p' => (p <= p' <= len)%nat /\ Forall word_ok argv /\ Forall redir_ok rs) (fun p' => len - p')%nat); [split_and!; [lia|lia|constructor|done]|unfold es; lia|].
  intros [argv rs1] p1 (H1 & Hargv & Hrs). unfold exec_round. apply sure_bind. eapply sure_mono; [apply peek_ok; lia|]. intros b p2 (-> & H2 & _). destruct b; [apply sure_ret; split; [lia|done]|].
  apply sure_bind. eapply sure_mono; [apply gettoken_ok; lia|]. intros [[tok q] eq] p3 (H3 & Hadv & _ & Hw). destruct (Z.eqb_spec tok 0) as [E0|E0]; [apply sure_ret; split; [lia|done]|].
  destruct (Z.eqb_spec tok 97) as [Et|Et]; cbn [negb]; [|apply sure_panic]. destruct (_ <=? _)%nat; [apply sure_panic|]. apply sure_bind. eapply sure_mono; [apply parseredirs_ok; lia|].
  intros rs' p4 [H4 Hrs']. specialize (Hadv E0). apply sure_ret. split; [|lia]. split_and!; [lia|lia| |by apply Forall_app]. apply Forall_app. split; [done|]. by apply Forall_singleton, Hw.
Qed.

Lemma back_loop_ok p c : (p <= len)%nat -> cmd_ok c -> sure (loop (S (S (es s))) (back_round s) c) (fwd cmd_ok p) p.
Proof.
  intros Hp Hc. apply (sure_loop (fun c p' => (p <= p' <= len)%nat /\ cmd_ok c) (fun p' => len - p')%nat); [split; [lia|done]|unfold es; lia|].
  intros c1 p1 [H1 Hc1]. unfold back_round. apply sure_bind. eapply sure_mono; [apply peek_ok; lia|]. intros b p2 (-> & H2 & Hb). destruct b; [|apply sure_ret; split; [lia|done]].
  specialize (Hb eq_refl). apply sure_bind. eapply sure_mono; [apply gettoken_ok; lia|]. intros [[tok q] eq] p3 (H3 & _ & Hadv & _). rewrite skip_idem in Hadv by lia. specialize (Hadv Hb).
  apply sure_ret. split; [split; [lia|done]|lia].
Qed.

(** [gettoken] after a [peek] that saw its character. *)
Lemma token_seen p toks {A} (f : bool -> P A) (Q : A -> nat -> Prop) : (p <= len)%nat ->
  (forall p', (p <= p' <= len)%nat -> sure (f false) Q p') ->
  (forall p', (p <= p' < len)%nat -> skip_space s p' = p' -> sure (f true) Q p') ->
  sure (let! b := peek s toks in f b) Q p.
Proof.
  intros Hp Hf Ht. apply sure_bind. eapply sure_mono; [by apply peek_ok|]. intros b p' (-> & H1 & H2). destruct b; [apply Ht; [specialize (H2 eq_refl); lia|by apply skip_idem]|by apply Hf].
Qed.

Lemma token_eaten p {A} (f : P A) (Q : A -> nat -> Prop) : (p < len)%nat -> skip_space s p = p -> (forall p', (p < p' <= len)%nat -> sure f Q p') -> sure (do! gettoken s in f) Q p.
Proof.
  intros Hp Hs Hf. apply sure_bind. eapply sure_mono; [apply gettoken_ok; lia|]. intros [[tok q] eq] p' (H1 & _ & Hadv & _). apply Hf. rewrite Hs in Hadv. lia.
Qed.

Lemma fwd_trans {A} (Q : A -> Prop) p p' a p'' : (p <= p')%nat -> fwd Q p' a p'' -> fwd Q p a p''.
Proof. unfold fwd. intros ? [? ?]. split; [lia|done]. Qed.

(** All four parsers, by the fuel they are given: four for each character left. *)
Lemma parsers_ok n : forall p, (p <= len)%nat ->
  ((4 * (len - p) + 3 < n)%nat -> sure (parseline s n) (fwd cmd_ok p) p) /\
  ((4 * (len - p) + 2 < n)%nat -> sure (parsepipe s n) (fwd cmd_ok p) p) /\
  ((4 * (len - p) + 1 < n)%nat -> sure (parseexec s n) (fwd cmd_ok p) p) /\
  ((4 * (len - p) < n)%nat -> sure (parseblock s n) (fwd cmd_ok p) p).
Proof.
  induction n as [|n IH]; intros p Hp; [split_and!; lia|]. split_and!; intros Hn; cbn [parseline parsepipe parseexec parseblock].
  - apply sure_bind. eapply sure_mono; [apply (IH p Hp); lia|]. intros c p1 [H1 Hc]. apply sure_bind. eapply sure_mono; [apply back_loop_ok; [lia|done]|]. intros c2 p2 [H2 Hc2].
    apply token_seen; [lia|intros p3 H3; apply sure_ret; split; [lia|done]|]. intros p3 H3 Hs3. apply token_eaten; [lia|done|]. intros p4 H4.
    apply sure_bind. eapply sure_mono; [apply (IH p4); lia|]. intros r p5 [H5 Hr]. apply sure_ret. split; [lia|]. by apply Forall_app.
  - apply sure_bind. eapply sure_mono; [apply (IH p Hp); lia|]. intros c p1 [H1 Hc].
    apply token_seen; [lia|intros p3 H3; apply sure_ret; split; [lia|done]|]. intros p3 H3 Hs3. apply token_eaten; [lia|done|]. intros p4 H4.
    apply sure_bind. eapply sure_mono; [apply (IH p4); lia|]. intros r p5 [H5 Hr]. apply sure_ret. split; [lia|]. by apply Forall_app.
  - apply token_seen; [lia| |].
    + intros p1 H1. apply sure_bind. eapply sure_mono; [apply parseredirs_ok; lia|]. intros rs p2 [H2 Hrs]. apply sure_bind. eapply sure_mono; [apply exec_loop_ok; [lia|done]|].
      intros [argv rs1] p3 (H3 & Hargv & Hrs1). apply sure_ret. split; [lia|]. by apply wrap_ok.
    + intros p1 H1 _. eapply sure_mono; [apply (IH p1); lia|]. intros c p2. apply fwd_trans. lia.
  - apply token_seen; [lia|intros; apply sure_panic|]. intros p1 H1 Hs1. cbn [negb]. apply token_eaten; [lia|done|]. intros p2 H2.
    apply sure_bind. eapply sure_mono; [apply (IH p2); lia|]. intros c p3 [H3 Hc]. apply token_seen; [lia|intros; apply sure_panic|]. intros p4 H4 Hs4. cbn [negb].
    apply token_eaten; [lia|done|]. intros p5 H5. apply sure_bind. eapply sure_mono; [apply parseredirs_ok; lia|]. intros rs p6 [H6 Hrs]. apply sure_ret. split; [lia|]. by apply wrap_ok.
Qed.

Lemma parse_text_ok : sure (parse_text s) (fun c p => p = len /\ cmd_ok c) 0%nat.
Proof.
  unfold parse_text. apply sure_bind. eapply sure_mono; [apply (parsers_ok (4 * es s + 4) 0); unfold es; lia|]. intros c p [H1 Hc].
  apply sure_bind. eapply sure_mono; [apply peek_ok; lia|]. intros _ p1 (_ & H2 & _). apply sure_bind. unfold sure at 1. cbn. unfold id.
  destruct (Nat.eqb_spec p1 (es s)) as [E|E]; [|done]. apply sure_ret. done.
Qed.

(** Each word of the result is a C string of its own after [nulterminate]. *)
Lemma words_terminated c w : cmd_ok c -> w ∈ words c -> cstr (drop w.1 (nulterminate c (s ++ [0]))) = take (w.2 - w.1) (drop w.1 s).
Proof.
  intros Hc Hw. unfold cmd_ok in Hc. rewrite Forall_forall in Hc. destruct (Hc w Hw) as ((Hlt & Hle) & Hpl & _). set (t := nulterminate c (s ++ [0])).
  assert (Hin : forall i, (w.1 <= i < w.2)%nat -> t !! i = s !! i).
  { intros i Hi. destruct (nul_spec c (s ++ [0]) i) as (_ & Hn & _). unfold t. rewrite Hn; [by apply lookup_app_l; lia|].
    intros Hx. apply list_elem_of_fmap in Hx as (w' & -> & Hw'). destruct (Hc w' Hw') as (_ & _ & [He|He]); [lia|]. rewrite Hpl in He by done. done. }
  destruct (nul_spec c (s ++ [0]) w.2) as (_ & _ & Hend). rewrite length_app in Hend. cbn in Hend.
  rewrite (cstr_between t w.1 w.2); [|lia| |apply Hend; [by apply list_elem_of_fmap_2|lia]].
  - apply list_eq. intros i. destruct (decide (i < w.2 - w.1)%nat); [|rewrite !lookup_take_ge by lia; done]. rewrite !lookup_take_lt, !lookup_drop by lia. apply Hin. lia.
  - intros i Hi. rewrite Hin by done. destruct (lookup_lt_is_Some_2 s i ltac:(lia)) as [x Hx]. exists x. split; [done|]. rewrite Forall_lookup in s_nonzero. by eapply s_nonzero.
Qed.
End words.

(** C39: On any line the parser comes back: it panics, or it returns a command having
    read the whole line.  Each argument and file name of the command is a nonempty part
    of the line without white space or symbols, and after [nulterminate] the C string at
    its start is exactly that part. *)
Theorem parsecmd_total s : Forall (fun c => c <> 0) s ->
  (exists msg p, parsecmd s = Panic msg p) \/
  exists c t, parsecmd s = Ret (c, t) (length s) /\ length t = S (length s) /\
    forall w, w ∈ words c -> (w.1 < w.2 <= length s)%nat /\ cstr (drop w.1 t) = take (w.2 - w.1) (drop w.1 s) /\
      Forall (fun x => is_space x = false /\ is_symbol x = false) (take (w.2 - w.1) (drop w.1 s)).
Proof.
  intros Hs. pose proof (parse_text_ok s Hs) as H. unfold parsecmd, bind. unfold sure in H. destruct (parse_text s 0%nat) as [c p|msg p| | |]; try done; [right|left; by exists msg, p].
  destruct H as [-> Hc]. exists c, (nulterminate c (s ++ [0])). split_and!; [done|destruct (nul_spec c (s ++ [0]) 0%nat) as (-> & _); rewrite length_app; cbn; lia|].
  intros w Hw. pose proof (words_terminated s Hs c w Hc Hw). unfold cmd_ok in Hc. rewrite Forall_forall in Hc. destruct (Hc w Hw) as ((H1 & H2) & H3 & _). split_and!; [lia|lia|done|].
  apply Forall_lookup. intros i x Hx. apply lookup_take_Some in Hx as [Hx Hi]. rewrite lookup_drop in Hx. specialize (H3 (w.1 + i)%nat ltac:(lia)). unfold ch in H3. rewrite Hx in H3. cbn in H3.
  unfold plain in H3. apply andb_true_iff in H3 as [A%negb_true_iff B%negb_true_iff]. done.
Qed.

(** [(a b>f;c)|d&] *)
Definition demo_line : list Z := [40; 97; 32; 98; 62; 102; 59; 99; 41; 124; 100; 38].
Lemma parsecmd_total_witness : exists c t, parsecmd demo_line = Ret (c, t) 12%nat /\ length (words c) = 5%nat /\ forall w, w ∈ words c -> cstr (drop w.1 t) = take (w.2 - w.1) (drop w.1 demo_line).
Proof.
  destruct (parsecmd_total demo_line ltac:(repeat constructor; done)) as [(msg & p & E)|(c & t & E & _ & H)]; [vm_compute in E; discriminate|].
  exists c, t. split; [exact E|]. split; [vm_compute in E; injection E as <- <-; reflexivity|]. intros w Hw. apply (H w Hw).
Defined.

(** ** Printed command lines are read back *)

Inductive tok := TWord (w : list Z) | TSym (c : Z) | TAppend.
Definition tok_text (t : tok) : list Z := match t with TWord w => w | TSym c => [c] | TAppend => [62; 62] end.
Definition kind (t : tok) : Z := match t with TWord _ => 97 | TSym c => c | TAppend => 43 end.

Definition wf_word (w : list Z) : Prop := w <> [] /\ Forall (fun c => plain c = true /\ c <> 0) w.
Definition wf_tok (t : tok) : Prop := match t with TWord w => wf_word w | TSym c => c ∈ symbols | TAppend => True end.

(** Tokens are printed with white space after each, by the list [gs]: any amount of it, but
    some after a token that the next one would otherwise continue. *)
Definition blank (g : list Z) : Prop := Forall (fun c => is_space c = true) g.
Definition glued (t : tok) (ts : list tok) : bool :=
  match t, ts with
  | TWord _, TWord _ :: _ => true
  | TSym c, TSym d :: _ => (c =? 62) && (d =? 62)
  | TSym c, TAppend :: _ => c =? 62
  | _, _ => false
  end.
Fixpoint text (gs : list (list Z)) (ts : list tok) : list Z :=
  match ts with
  | [] => []
  | t :: ts => tok_text t ++ hd [] gs ++ text (tl gs) ts
  end.
Fixpoint gaps_ok (gs : list (list Z)) (ts : list tok) : Prop :=
  match ts with
  | [] => True
  | t :: ts => blank (hd [] gs) /\ (glued t ts = true -> hd [] gs <> []) /\ gaps_ok (tl gs) ts
  end.

(** Redirections: a file, for input with [<] or for output with [>] or [>>]. *)
Inductive arrow := RIn | ROut | RAppend.
Definition rd : Type := arrow * list Z.
Definition arrow_tok (a : arrow) : tok := match a with RIn => TSym 60 | ROut => TSym 62 | RAppend => TAppend end.
Definition rd_toks (r : rd) : list tok := [arrow_tok r.1; TWord r.2].
Definition rd_val (r : rd) : redirection (list Z) := match r.1 with RIn => (r.2, O_RDONLY, 0) | _ => (r.2, Z.lor O_WRONLY O_CREATE, 1) end.
Definition rds_toks (rs : list rd) : list tok := concat (map rd_toks rs).

(** An argument and the redirections after it. *)
Definition arg : Type := list Z * list rd.
Definition args_toks (xs : list arg) : list tok := concat (map (fun x => TWord x.1 :: rds_toks x.2) xs).
Definition args_rds (xs : list arg) : list rd := concat (map snd xs).

(** A simple command has redirections before, between and after its arguments; a block has
    them after it. *)
Inductive line := LEnd (p : pipeline) (n : nat) | LSeq (p : pipeline) (n : nat) (l : line)
with pipeline := PEnd (e : simple) | PSeq (e : simple) (p : pipeline)
with simple := XCmd (rs : list rd) (xs : list arg) | XBlock (l : line) (rs : list rd).

Scheme line_mut := Induction for line Sort Prop
with pipe_mut := Induction for pipeline Sort Prop
with exec_mut := Induction for simple Sort Prop.
Combined Scheme syntax_mut from line_mut, pipe_mut, exec_mut.

Fixpoint line_toks (l : line) : list tok :=
  match l with
  | LEnd p n => pipe_toks p ++ replicate n (TSym 38)
  | LSeq p n l => pipe_toks p ++ replicate n (TSym 38) ++ TSym 59 :: line_toks l
  end
with pipe_toks (p : pipeline) : list tok :=
  match p with
  | PEnd e => exec_toks e
  | PSeq e p => exec_toks e ++ TSym 124 :: pipe_toks p
  end
with exec_toks (e : simple) : list tok :=
  match e with
  | XCmd rs xs => rds_toks rs ++ args_toks xs
  | XBlock l rs => TSym 40 :: line_toks l ++ TSym 41 :: rds_toks rs
  end.

(** The command a line stands for. *)
Definition backs (n : nat) {W} (c : command W) : command W := Nat.iter n BACK c.

Fixpoint line_cmd (l : line) : command (list Z) :=
  match l with
  | LEnd p n => backs n (pipe_cmd p)
  | LSeq p n l => LIST (backs n (pipe_cmd p)) (line_cmd l)
  end
with pipe_cmd (p : pipeline) : command (list Z) :=
  match p with
  | PEnd e => exec_cmd e
  | PSeq e p => PIPE (exec_cmd e) (pipe_cmd p)
  end
with exec_cmd (e : simple) : command (list Z) :=
  match e with
  | XCmd rs xs => wrap (EXEC (map fst xs)) (map rd_val (rs ++ args_rds xs))
  | XBlock l rs => wrap (line_cmd l) (map rd_val rs)
  end.

Definition wf_rds (rs : list rd) : Prop := Forall (fun r => wf_word r.2) rs.
Definition wf_args (xs : list arg) : Prop := Forall (fun x => wf_word x.1 /\ wf_rds x.2) xs.
Fixpoint wf_line (l : line) : Prop :=
  match l with
  | LEnd p _ => wf_pipe p
  | LSeq p _ l => wf_pipe p /\ wf_line l
  end
with wf_pipe (p : pipeline) : Prop :=
  match p with
  | PEnd e => wf_exec e
  | PSeq e p => wf_exec e /\ wf_pipe p
  end
with wf_exec (e : simple) : Prop :=
  match e with
  | XCmd rs xs => (length xs < MAXARGS)%nat /\ wf_rds rs /\ wf_args xs
  | XBlock l rs => wf_line l /\ wf_rds rs
  end.

Fixpoint cmd_map {V W} (f : V -> W) (c : command V) : command W :=
  match c with
  | EXEC argv => EXEC (map f argv)
  | REDIR c file mode fd => REDIR (cmd_map f c) (f file) mode fd
  | PIPE l r => PIPE (cmd_map f l) (cmd_map f r)
  | LIST l r => LIST (cmd_map f l) (cmd_map f r)
  | BACK c => BACK (cmd_map f c)
  end.
Definition redir_map {V W} (f : V -> W) (r : redirection V) : redirection W := let '(file, mode, fd) := r in (f file, mode, fd).

Lemma cmd_map_ext {W} (f g : nat * nat -> W) (c : cmd) : (forall w, w ∈ words c -> f w = g w) -> cmd_map f c = cmd_map g c.
Proof.
  induction c as [argv|c IH x m fd|l IHl r IHr|l IHl r IHr|c IH]; cbn; intros H; f_equal; try (apply IH || apply IHl || apply IHr); intros; try (apply H; set_solver).
  apply map_ext_in. intros a Ha. apply H. by apply list_elem_of_In.
Qed.

Lemma wrap_map {V W} (f : V -> W) rs : forall c, cmd_map f (wrap c rs) = wrap (cmd_map f c) (map (redir_map f) rs).
Proof. induction rs as [|[[x m] fd] rs IH]; intros c; [done|]. cbn [wrap foldl map]. unfold wrap in IH. rewrite IH. done. Qed.

Lemma space_facts c : is_space c = true -> c <> 0 /\ plain c = false.
Proof. intros H. split; [by intros ->|]. unfold plain. by rewrite H. Qed.

Lemma plain_facts c : plain c = true -> is_space c = false /\ c ∉ symbols.
Proof. unfold plain. intros [A%negb_true_iff B%negb_true_iff]%andb_true_iff. by apply bool_decide_eq_false in B. Qed.

Lemma symbol_facts c : c ∈ symbols -> is_space c = false /\ c <> 0 /\ plain c = false /\ c <> 97.
Proof. unfold symbols. rewrite !elem_of_cons, elem_of_nil. intros [->|[->|[->|[->|[->|[->|[->|[]]]]]]]]; by vm_compute. Qed.

Lemma tok_first t : wf_tok t -> exists c r, tok_text t = c :: r /\ is_space c = false /\ c <> 0.
Proof.
  destruct t as [w|c|]; cbn; intros H.
  - destruct H as [Hne Hw]. destruct w as [|c w]; [done|]. apply Forall_cons in Hw as [[Hp H0] _]. exists c, w. split_and!; [done|by apply plain_facts|done].
  - exists c, []. destruct (symbol_facts c H) as (? & ? & _). done.
  - by exists 62, [62].
Qed.

Lemma rd_wf rs : wf_rds rs -> Forall wf_tok (rds_toks rs).
Proof. induction 1 as [|[a f] rs Hf _ IH]; [constructor|]. unfold rds_toks. cbn. constructor; [destruct a; cbn; set_solver|by constructor]. Qed.

Lemma args_wf xs : wf_args xs -> Forall wf_tok (args_toks xs).
Proof. induction 1 as [|[w rs] xs [Hw Hr] _ IH]; [constructor|]. unfold args_toks. cbn [map concat app fst snd] in *. constructor; [done|]. apply Forall_app. split; [by apply rd_wf|exact IH]. Qed.

Lemma toks_wf : (forall l, wf_line l -> Forall wf_tok (line_toks l)) /\ (forall p, wf_pipe p -> Forall wf_tok (pipe_toks p)) /\ (forall e, wf_exec e -> Forall wf_tok (exec_toks e)).
Proof.
  assert (Hb : forall n, Forall wf_tok (replicate n (TSym 38))) by (intros n; apply Forall_replicate; cbn; set_solver).
  apply syntax_mut; cbn.
  - intros p IH n H. apply Forall_app. auto.
  - intros p IHp n l IHl [Hp Hl]. rewrite !Forall_app, Forall_cons. split_and!; [auto|auto|cbn; set_solver|auto].
  - auto.
  - intros e IHe p IHp [He Hp]. rewrite Forall_app, Forall_cons. split_and!; [auto|cbn; set_solver|auto].
  - intros rs xs (_ & Hr & Hx). apply Forall_app. split; [by apply rd_wf|by apply args_wf].
  - intros l IHl rs [Hl Hr]. rewrite Forall_cons, Forall_app, Forall_cons. split_and!; [cbn; set_solver|auto|cbn; set_solver|by apply rd_wf].
Qed.

(** What follows a token: white space, the end, or a token that does not continue it. *)
Lemma gap_first t g gs ts c r : blank g -> (glued t ts = true -> g <> []) -> Forall wf_tok ts -> g ++ text gs ts = c :: r ->
  is_space c = true \/ exists u us r', ts = u :: us /\ glued t ts = false /\ wf_tok u /\ tok_text u = c :: r'.
Proof.
  intros Hg Hgl Hts E. destruct g as [|x g]; [|injection E as -> _; left; by apply Forall_cons in Hg as [? _]]. right. destruct ts as [|u us]; [done|]. apply Forall_cons in Hts as [Hu _].
  destruct (tok_first u Hu) as (y & r' & Ey & _). cbn [text app] in E. rewrite Ey in E. injection E as -> _. exists u, us, r'. split_and!; [done| |done|done]. destruct (glued t (u :: us)); [by destruct Hgl|done].
Qed.

Lemma text_first gs ts c r : Forall wf_tok ts -> text gs ts = c :: r -> is_space c = false.
Proof. intros Hts E. destruct ts as [|u us]; [done|]. apply Forall_cons in Hts as [Hu _]. destruct (tok_first u Hu) as (y & r' & Ey & Hy & _). cbn [text] in E. rewrite Ey in E. by injection E as -> _. Qed.

Lemma word_stops w g gs ts c r : blank g -> (glued (TWord w) ts = true -> g <> []) -> Forall wf_tok ts -> g ++ text gs ts = c :: r -> plain c = false.
Proof.
  intros Hg Hgl Hts E. destruct (gap_first (TWord w) g gs ts c r Hg Hgl Hts E) as [H|(u & us & r' & -> & Hn & Hu & Eu)]; [by apply space_facts|].
  destruct u as [w'|c'|]; [done|injection Eu as -> _; by apply symbol_facts|by injection Eu as <- _].
Qed.

Lemma arrow_stops g gs ts r : blank g -> (glued (TSym 62) ts = true -> g <> []) -> Forall wf_tok ts -> g ++ text gs ts <> 62 :: r.
Proof.
  intros Hg Hgl Hts E. destruct (gap_first (TSym 62) g gs ts 62 r Hg Hgl Hts E) as [H|(u & us & r' & -> & Hn & Hu & Eu)]; [done|].
  destruct u as [w'|c'|]; [|by injection Eu as -> _|done]. cbn in Eu. subst w'. destruct Hu as [_ Hw]. apply Forall_cons in Hw as [[Hp _] _]. vm_compute in Hp. discriminate.
Qed.

Section reads.
Context (s : list Z).
Local Abbreviation len := (length s).

(** The position [p] is at the tokens [ts]. *)
Definition at_toks (p : nat) (ts : list tok) : Prop := (p <= len)%nat /\ exists gs, gaps_ok gs ts /\ drop p s = text gs ts.
Definition sl (w : nat * nat) : list Z := take (w.2 - w.1) (drop w.1 s).

(** Going on from [p] the parser is at [ts]. *)
Definition on_to (p p' : nat) (ts : list tok) : Prop := (p <= p')%nat /\ at_toks p' ts.

Lemma ch_drop p x r : drop p s = x :: r -> ch s p = x.
Proof. intros E. unfold ch. rewrite <- (Nat.add_0_r p), <- lookup_drop, E. done. Qed.

Lemma len_drop p : (p <= len)%nat -> (len = p + length (drop p s))%nat.
Proof. rewrite length_drop. lia. Qed.

Lemma drop_past p a b : drop p s = a ++ b -> drop (p + length a) s = b.
Proof. intros E. by rewrite <- drop_drop, E, drop_app_length. Qed.

(** A scan over [a], followed by a character that stops it. *)
Lemma scan_chars test a : forall q b, (q <= len)%nat -> drop q s = a ++ b -> Forall (fun c => test c = true) a -> (forall c r, b = c :: r -> test c = false) ->
  scan s test (len - q) q = (q + length a)%nat.
Proof.
  induction a as [|c a IH]; intros q b Hq E Ha Hb; pose proof (len_drop q Hq) as Hl; rewrite E, length_app in Hl; cbn [length] in *.
  - destruct b as [|c r]; cbn [length] in Hl; [replace (len - q)%nat with 0%nat by lia; cbn; lia|]. replace (len - q)%nat with (S (length r)) by lia. cbn [scan]. rewrite (ch_drop q c r E), (Hb c r eq_refl). lia.
  - apply Forall_cons in Ha as [Hc Ha]. replace (len - q)%nat with (S (len - S q)) by lia. cbn [scan]. rewrite (ch_drop q c (a ++ b) E), Hc. rewrite (IH (S q) b); [lia|lia| |done|done].
    pose proof (drop_past q [c] (a ++ b) E) as E'. cbn [length] in E'. by rewrite Nat.add_1_r in E'.
Qed.

(** A token at [p] and the white space after it. *)
Lemma at_split p t ts : at_toks p (t :: ts) -> exists g gs, drop p s = tok_text t ++ g ++ text gs ts /\ blank g /\ (glued t ts = true -> g <> []) /\ gaps_ok gs ts /\ (p + length (tok_text t) + length g <= len)%nat.
Proof.
  intros (Hp & gs & (Hg & Hgl & Hgs) & E). exists (hd [] gs), (tl gs). split_and!; [exact E|done|done|done|]. pose proof (len_drop p Hp) as Hl. rewrite E in Hl. cbn [text] in Hl. rewrite !length_app in Hl. lia.
Qed.

Lemma at_len p ts : at_toks p ts -> Forall wf_tok ts -> (length ts <= len - p)%nat.
Proof.
  intros (Hp & gs & _ & E) Hts. rewrite <- length_drop, E. clear E. revert gs. induction Hts as [|t ts Ht _ IH]; intros gs; [done|]. cbn [text]. rewrite !length_app. destruct (tok_first t Ht) as (c & r & -> & _). specialize (IH (tl gs)). cbn [length]. lia.
Qed.

Lemma at_end p : at_toks p [] -> p = len.
Proof. intros (Hp & gs & _ & E). pose proof (len_drop p Hp). rewrite E in *. cbn in *. lia. Qed.

(** White space is skipped up to the token. *)
Lemma skip_gap q g gs ts : (q <= len)%nat -> drop q s = g ++ text gs ts -> blank g -> Forall wf_tok ts -> skip_space s q = (q + length g)%nat.
Proof. intros Hq E Hg Hts. unfold skip_space, es. apply (scan_chars is_space g q (text gs ts)); [done|done|done|]. intros c r. by apply text_first. Qed.

Lemma skip_at p ts : at_toks p ts -> Forall wf_tok ts -> skip_space s p = p.
Proof. intros (Hp & gs & _ & E) Hts. rewrite (skip_gap p [] gs ts Hp E) by (done || constructor). cbn. lia. Qed.

Lemma at_slice p t ts : at_toks p (t :: ts) -> sl (p, p + length (tok_text t))%nat = tok_text t.
Proof. intros H. destruct (at_split _ _ _ H) as (g & gs & E & _). unfold sl. cbn [fst snd]. rewrite E. replace (p + length (tok_text t) - p)%nat with (length (tok_text t)) by lia. apply take_app_length. Qed.

Lemma at_first p t ts : at_toks p (t :: ts) -> wf_tok t -> exists c r, tok_text t = c :: r /\ ch s p = c /\ c <> 0.
Proof. intros H Ht. destruct (tok_first t Ht) as (c & r & E & _ & H0). destruct (at_split _ _ _ H) as (g & gs & Ed & _). rewrite E in Ed. exists c, r. split_and!; [done|by eapply ch_drop|done]. Qed.

Lemma token_at_tok p t ts : at_toks p (t :: ts) -> Forall wf_tok (t :: ts) -> token_at s p = (kind t, p + length (tok_text t))%nat.
Proof.
  intros H [Ht Hts]%Forall_cons. destruct (at_first p t ts H Ht) as (c & r & E & Hc & H0). destruct (at_split _ _ _ H) as (g & gs & Ed & Hg & Hgl & _ & Hl).
  unfold token_at. rewrite Hc, (proj2 (Z.eqb_neq c 0)) by done. destruct t as [w|c'|]; cbn [tok_text kind wf_tok] in *.
  - destruct Ht as [Hne Hw]. assert (Hs : c ∉ symbols) by (subst w; apply Forall_cons in Hw as [[Hp _] _]; by apply plain_facts). unfold symbols in Hs. rewrite !not_elem_of_cons in Hs.
    rewrite bool_decide_false by (rewrite !not_elem_of_cons; pose proof (not_elem_of_nil c); tauto). rewrite (proj2 (Z.eqb_neq c 62)) by tauto. f_equal.
    apply (scan_chars plain w p (g ++ text gs ts)); [lia|done|eapply Forall_impl; [exact Hw|by intros x [? _]]|]. intros x y. by apply (word_stops w).
  - injection E as <- <-. pose proof (drop_past p [c'] _ Ed) as En. cbn [length] in *. rewrite Nat.add_1_r in *. destruct (Z.eqb_spec c' 62) as [->|Hn].
    + destruct (Z.eqb_spec (ch s (S p)) 62) as [E62|]; [|done]. exfalso. destruct (g ++ text gs ts) as [|x y] eqn:Eg; [unfold ch in E62; rewrite <- (Nat.add_0_r (S p)), <- lookup_drop, En in E62; done|].
      rewrite (ch_drop _ _ _ En) in E62. subst x. by apply (arrow_stops g gs ts y Hg Hgl Hts).
    + rewrite bool_decide_true; [done|]. unfold symbols in Ht. rewrite !elem_of_cons in *. tauto.
  - injection E as <- <-. pose proof (drop_past p [62] _ Ed) as En. cbn [length app] in En. rewrite Nat.add_1_r in En. cbn. rewrite (ch_drop _ _ _ En). cbn. f_equal. lia.
Qed.

Lemma gettoken_at p t ts : at_toks p (t :: ts) -> Forall wf_tok (t :: ts) -> exists p', gettoken s p = Ret (kind t, p, (p + length (tok_text t))%nat) p' /\ (p < p')%nat /\ at_toks p' ts.
Proof.
  intros H Hwf. destruct (at_split _ _ _ H) as (g & gs & Ed & Hg & _ & Hgs & Hl). exists (p + length (tok_text t) + length g)%nat. pose proof (drop_past p _ _ Ed) as En. pose proof (drop_past _ _ _ En) as En2.
  unfold gettoken, bind, gets, bindO, modify, ret, id. rewrite (skip_at p _ H Hwf), (token_at_tok p t ts H Hwf). apply Forall_cons in Hwf as [Ht Hts]. rewrite (skip_gap _ g gs ts) by (done || lia).
  split_and!; [done| |split; [lia|by exists gs]]. destruct (tok_first t Ht) as (c & r & -> & _). cbn [length]. lia.
Qed.

Lemma gettoken_end p : at_toks p [] -> gettoken s p = Ret (0, p, p) p.
Proof.
  intros H. unfold gettoken, bind, gets, bindO, modify, ret, id. rewrite (skip_at p _ H) by constructor. unfold token_at. rewrite (ch_end s p) by (rewrite (at_end p H); lia). cbn [Z.eqb]. by rewrite (skip_at p _ H) by constructor.
Qed.

(** Whether the next token begins with one of the symbols [toks]. *)
Definition next_in (toks : list Z) (ts : list tok) : bool := match ts with TSym c :: _ => bool_decide (c ∈ toks) | TAppend :: _ => bool_decide (62 ∈ toks) | _ => false end.

Lemma peek_at toks p ts : at_toks p ts -> Forall wf_tok ts -> toks ⊆ symbols -> peek s toks p = Ret (next_in toks ts) p.
Proof.
  intros H Hts Hsub. unfold peek, bind, gets, bindO, modify, ret, id. rewrite (skip_at p ts H Hts). f_equal. destruct ts as [|t ts].
  - rewrite (ch_end s p); [done|]. rewrite (at_end p H). lia.
  - apply Forall_cons in Hts as [Ht _]. destruct (at_first p t ts H Ht) as (c & r & E & -> & H0). rewrite (proj2 (Z.eqb_neq c 0)) by done. cbn [negb andb].
    destruct t as [w|c'|]; cbn [tok_text next_in wf_tok] in *; [|by injection E as <- <-|by injection E as <- <-]. destruct Ht as [_ Hw]. subst w. apply Forall_cons in Hw as [[Hpl _] _]. apply bool_decide_false. intros Hin%Hsub.
    by apply plain_facts in Hpl as [_ ?].
Qed.

(** ** Redirections *)

Lemma redir_round_at acc p r ts : at_toks p (rd_toks r ++ ts) -> wf_word r.2 -> Forall wf_tok ts ->
  exists r' p', redir_round s acc p = Ret (inl (acc ++ [r'])) p' /\ on_to p p' ts /\ redir_map sl r' = rd_val r.
Proof.
  intros H Hr Hts. destruct r as [a f]. unfold rd_toks in H. cbn [fst snd app] in *.
  assert (Hw2 : Forall wf_tok (TWord f :: ts)) by (by constructor). assert (Hw : Forall wf_tok (arrow_tok a :: TWord f :: ts)) by (constructor; [destruct a; cbn; set_solver|done]).
  destruct (gettoken_at p _ _ H Hw) as (p1 & E1 & L1 & H1). destruct (gettoken_at p1 _ _ H1 Hw2) as (p2 & E2 & L2 & H2). pose proof (at_slice _ _ _ H1) as Hs. cbn [tok_text] in Hs.
  unfold redir_round. rewrite (bind_run _ _ _ _ _ (peek_at [60; 62] p _ H Hw ltac:(set_solver))). replace (next_in [60; 62] _) with true by (by destruct a). rewrite (bind_run _ _ _ _ _ E1), (bind_run _ _ _ _ _ E2). cbn [kind tok_text].
  destruct a; do 2 eexists; (split_and!; [reflexivity|split; [lia|exact H2]|]); unfold rd_val, redir_map; cbn [fst snd]; by rewrite Hs.
Qed.

Lemma redirs_loop rs : forall n acc p ts, at_toks p (rds_toks rs ++ ts) -> wf_rds rs -> Forall wf_tok ts -> next_in [60; 62] ts = false -> (length rs < n)%nat ->
  exists rs' p', loop n (redir_round s) acc p = Ret (acc ++ rs') p' /\ on_to p p' ts /\ map (redir_map sl) rs' = map rd_val rs.
Proof.
  induction rs as [|r rs IH]; intros n acc p ts H Hrs Hts Hn Hl; (destruct n as [|n]; [cbn in Hl; lia|]); cbn [loop].
  - cbn in H. exists [], p. rewrite app_nil_r. split_and!; [|by split|done]. rewrite (bind_run _ _ p (inr acc) p); [done|].
    unfold redir_round. rewrite (bind_run _ _ _ _ _ (peek_at [60; 62] p ts H Hts ltac:(set_solver))). by rewrite Hn.
  - apply Forall_cons in Hrs as [Hr Hrs]. unfold rds_toks in H. cbn [map concat] in H. rewrite <- app_assoc in H. fold (rds_toks rs) in H.
    destruct (redir_round_at acc p r _ H Hr) as (r' & p' & E & [L' H'] & Er); [by apply Forall_app; split; [apply rd_wf|]|].
    rewrite (bind_run _ _ _ _ _ E). destruct (IH n (acc ++ [r']) p' ts H' Hrs Hts Hn) as (rs' & p'' & E' & [L'' H''] & Ers); [cbn in Hl; lia|].
    exists (r' :: rs'), p''. rewrite E', <- app_assoc. split_and!; [done|split; [lia|done]|]. cbn [map]. by rewrite Er, Ers.
Qed.

Lemma rds_length rs : (length rs <= length (rds_toks rs))%nat.
Proof. induction rs as [|r rs IH]; [done|]. unfold rds_toks in *. cbn [map concat]. rewrite length_app. cbn [length rd_toks]. lia. Qed.

Lemma parseredirs_at rs p ts : at_toks p (rds_toks rs ++ ts) -> wf_rds rs -> Forall wf_tok ts -> next_in [60; 62] ts = false ->
  exists rs' p', parseredirs s p = Ret rs' p' /\ on_to p p' ts /\ map (redir_map sl) rs' = map rd_val rs.
Proof.
  intros H Hrs Hts Hn. apply (redirs_loop rs (S (S (es s))) [] p ts H Hrs Hts Hn). pose proof (at_len _ _ H ltac:(by apply Forall_app; split; [apply rd_wf|])) as Hc.
  rewrite length_app in Hc. pose proof (rds_length rs). unfold es. lia.
Qed.

(** ** Simple commands *)

(** What can come after a command, a pipeline and a line. *)
Definition stops (ts : list tok) : Prop := ts = [] \/ next_in [124; 41; 38; 59] ts = true.

Lemma next_not cs ds ts : (forall c, c ∈ cs -> c ∉ ds) -> ts = [] \/ next_in cs ts = true -> next_in ds ts = false.
Proof. intros Hs [->|H]; [done|]. destruct ts as [|[w|c|] ts]; [done|done|..]; cbn in *; apply bool_decide_eq_true in H; apply bool_decide_false; auto. Qed.

Lemma next_weaken cs ds ts : cs ⊆ ds -> ts = [] \/ next_in cs ts = true -> ts = [] \/ next_in ds ts = true.
Proof. intros Hs [->|H]; [by left|right]. destruct ts as [|[w|c|] ts]; [done|done|..]; cbn in *; apply bool_decide_eq_true in H; apply bool_decide_true; auto. Qed.

Lemma exec_stop st p ts : at_toks p ts -> Forall wf_tok ts -> stops ts -> exec_round s st p = Ret (inr st) p.
Proof.
  intros H Hts Hst. unfold exec_round. destruct st as [argv rs]. rewrite (bind_run _ _ _ _ _ (peek_at [124; 41; 38; 59] p ts H Hts ltac:(set_solver))).
  destruct Hst as [->| ->]; [|done]. cbn [next_in]. by rewrite (bind_run _ _ _ _ _ (gettoken_end p H)).
Qed.

(** An argument of the command, and the redirections after it. *)
Lemma exec_word argv rs p w rs1 ts : at_toks p (TWord w :: rds_toks rs1 ++ ts) -> wf_word w -> wf_rds rs1 -> Forall wf_tok ts -> next_in [60; 62] ts = false -> (S (length argv) < MAXARGS)%nat ->
  exists v rs1' p', exec_round s (argv, rs) p = Ret (inl (argv ++ [v], rs ++ rs1')) p' /\ on_to p p' ts /\ sl v = w /\ map (redir_map sl) rs1' = map rd_val rs1.
Proof.
  intros H Hw Hrs Hts Hn Hl. assert (Hwf : Forall wf_tok (TWord w :: rds_toks rs1 ++ ts)) by (constructor; [done|apply Forall_app; split; [by apply rd_wf|done]]).
  destruct (gettoken_at p _ _ H Hwf) as (p1 & E1 & L1 & H1). destruct (parseredirs_at rs1 p1 ts H1 Hrs Hts Hn) as (rs1' & p' & E & [L' H'] & Er).
  unfold exec_round. rewrite (bind_run _ _ _ _ _ (peek_at [124; 41; 38; 59] p _ H Hwf ltac:(set_solver))). cbn [next_in].
  rewrite (bind_run _ _ _ _ _ E1). cbn [kind tok_text]. change (97 =? 0) with false. change (negb (97 =? 97)) with false. cbv iota beta zeta. rewrite (proj2 (Nat.leb_gt _ _)) by (rewrite length_app; cbn [length]; lia).
  rewrite (bind_run _ _ _ _ _ E). do 3 eexists. split_and!; [done|split; [lia|done]|exact (at_slice _ _ _ H)|done].
Qed.

Lemma args_next xs ts : next_in [60; 62] ts = false -> next_in [60; 62] (args_toks xs ++ ts) = false.
Proof. by destruct xs as [|[w rs] xs]. Qed.

Lemma exec_loop xs : forall n vs0 rs0 p ts, at_toks p (args_toks xs ++ ts) -> wf_args xs -> Forall wf_tok ts -> stops ts -> (length vs0 + length xs < MAXARGS)%nat -> (length xs < n)%nat ->
  exists vs rs' p', loop n (exec_round s) (vs0, rs0) p = Ret (vs0 ++ vs, rs0 ++ rs') p' /\ on_to p p' ts /\ map sl vs = map fst xs /\ map (redir_map sl) rs' = map rd_val (args_rds xs).
Proof.
  induction xs as [|[w rs] xs IH]; intros n vs0 rs0 p ts H Hxs Hts Hst Hm Hn; (destruct n as [|n]; [lia|]); cbn [loop].
  - exists [], [], p. rewrite !app_nil_r. by rewrite (bind_run _ _ _ _ _ (exec_stop (vs0, rs0) p ts H Hts Hst)).
  - apply Forall_cons in Hxs as [[Hw Hrs] Hxs]. unfold args_toks in H. cbn [map concat fst snd length app] in *. rewrite <- app_assoc in H. fold (args_toks xs) in H.
    destruct (exec_word vs0 rs0 p w rs (args_toks xs ++ ts) H Hw Hrs) as (v & rs1 & p1 & E & [L1 H1] & Ev & Er); [apply Forall_app; split; [by apply args_wf|done]|apply args_next; by eapply next_not; [|exact Hst]; set_solver|lia|].
    rewrite (bind_run _ _ _ _ _ E). destruct (IH n (vs0 ++ [v]) (rs0 ++ rs1) p1 ts H1 Hxs Hts Hst) as (vs & rs' & p' & E' & [L' H'] & Evs & Ers); [rewrite length_app; cbn [length]; lia|lia|].
    exists (v :: vs), (rs1 ++ rs'), p'. rewrite E', <- !app_assoc. split_and!; [done|split; [lia|done]|cbn [map]; by rewrite Ev, Evs|]. unfold args_rds. cbn [map concat]. by rewrite !map_app, Er, Ers.
Qed.

(** From [p], at some tokens and then [us], the parser [m] reads these tokens as the command [c]. *)
Definition parses (m : P cmd) (p : nat) (us : list tok) (c : command (list Z)) : Prop :=
  exists c' p', m p = Ret c' p' /\ on_to p p' us /\ cmd_map sl c' = c.

Lemma exec_not_block rs xs ts : stops ts -> next_in [40] (rds_toks rs ++ args_toks xs ++ ts) = false.
Proof. intros Hst. destruct rs as [|[a f] rs]; [|by destruct a]. destruct xs as [|[w rs] xs]; [|done]. by eapply next_not; [|exact Hst]; set_solver. Qed.

Lemma args_length xs : (length xs <= length (args_toks xs))%nat.
Proof. induction xs as [|x xs IH]; [done|]. unfold args_toks in *. cbn [map concat]. rewrite length_app. cbn [length]. lia. Qed.

Lemma simple_parses n p rs xs ts : at_toks p (exec_toks (XCmd rs xs) ++ ts) -> wf_exec (XCmd rs xs) -> Forall wf_tok ts -> stops ts ->
  parses (parseexec s (S n)) p ts (exec_cmd (XCmd rs xs)).
Proof.
  cbn [exec_toks wf_exec exec_cmd]. rewrite <- app_assoc. intros H (Hl & Hrs & Hxs) Hts Hst. unfold parses. cbn [parseexec].
  assert (Hxt : Forall wf_tok (args_toks xs ++ ts)) by (apply Forall_app; split; [by apply args_wf|done]).
  assert (Hwt : Forall wf_tok (rds_toks rs ++ args_toks xs ++ ts)) by (apply Forall_app; split; [by apply rd_wf|done]).
  pose proof (at_len _ _ H Hwt) as Hc. rewrite !length_app in Hc. pose proof (args_length xs) as Hal.
  rewrite (bind_run _ _ _ _ _ (peek_at [40] p _ H Hwt ltac:(set_solver))), exec_not_block by done. cbv iota.
  destruct (parseredirs_at rs p _ H Hrs Hxt) as (rs0 & p0 & E & [L0 H0] & Er); [apply args_next; by eapply next_not; [|exact Hst]; set_solver|]. rewrite (bind_run _ _ _ _ _ E).
  destruct (exec_loop xs (S (S (es s))) [] rs0 p0 ts H0 Hxs Hts Hst ltac:(cbn [length]; lia) ltac:(unfold es; lia)) as (vs & rs' & p' & E' & [L' H'] & Evs & Ers).
  rewrite (bind_run _ _ _ _ _ E'). do 2 eexists. split_and!; [reflexivity|split; [lia|done]|]. rewrite wrap_map, !map_app, Ers, Er. cbn [cmd_map app]. by rewrite Evs.
Qed.

(** ** Lines *)

(** A symbol is seen and consumed. *)
Lemma symbol_at c toks p ts : at_toks p (TSym c :: ts) -> Forall wf_tok (TSym c :: ts) -> c ∈ toks -> toks ⊆ symbols ->
  exists p', peek s toks p = Ret true p /\ gettoken s p = Ret (c, p, (p + 1)%nat) p' /\ (p < p' <= len)%nat /\ at_toks p' ts.
Proof.
  intros H Hwf Hc Hsub. destruct (gettoken_at p _ _ H Hwf) as (p' & E & L & H'). exists p'. split_and!; [|done|done|by destruct H'|done]. rewrite (peek_at toks p _ H Hwf Hsub). cbn [next_in]. by rewrite bool_decide_true.
Qed.

Lemma back_loop k : forall n c p ts, at_toks p (replicate k (TSym 38) ++ ts) -> Forall wf_tok ts -> next_in [38] ts = false -> (k < n)%nat ->
  exists p', loop n (back_round s) c p = Ret (backs k c) p' /\ on_to p p' ts.
Proof.
  induction k as [|k IH]; intros n c p ts H Hts Hn Hk; (destruct n as [|n]; [lia|]); cbn [loop].
  - exists p. rewrite (bind_run _ _ p (inr c) p); [done|]. unfold back_round. by rewrite (bind_run _ _ _ _ _ (peek_at [38] p ts H Hts ltac:(set_solver))), Hn.
  - cbn [replicate app] in H. assert (Hwf : Forall wf_tok (TSym 38 :: replicate k (TSym 38) ++ ts)) by (constructor; [cbn; set_solver|apply Forall_app; split; [apply Forall_replicate; cbn; set_solver|done]]).
    destruct (symbol_at 38 [38] p _ H Hwf ltac:(set_solver) ltac:(set_solver)) as (p1 & Hpk & Hg & L1 & H1).
    rewrite (bind_run _ _ p (inl (BACK c)) p1); [|unfold back_round; by rewrite (bind_run _ _ _ _ _ Hpk), (bind_run _ _ _ _ _ Hg)].
    destruct (IH n (BACK c) p1 ts H1 Hts Hn ltac:(lia)) as (p' & E & [L' H']). exists p'. split; [|split; [lia|done]]. unfold backs. rewrite Nat.iter_succ_r. exact E.
Qed.

Definition line_reads (l : line) : Prop := forall n p ts, at_toks p (line_toks l ++ ts) -> wf_line l -> Forall wf_tok ts -> ts = [] \/ next_in [41] ts = true ->
  (4 * (len - p) + 3 < n)%nat -> parses (parseline s n) p ts (line_cmd l).
Definition pipe_reads (q : pipeline) : Prop := forall n p ts, at_toks p (pipe_toks q ++ ts) -> wf_pipe q -> Forall wf_tok ts -> ts = [] \/ next_in [41; 38; 59] ts = true ->
  (4 * (len - p) + 2 < n)%nat -> parses (parsepipe s n) p ts (pipe_cmd q).
Definition exec_reads (e : simple) : Prop := forall n p ts, at_toks p (exec_toks e ++ ts) -> wf_exec e -> Forall wf_tok ts -> stops ts ->
  (4 * (len - p) + 1 < n)%nat -> parses (parseexec s n) p ts (exec_cmd e).

Lemma block_reads l rs : line_reads l -> exec_reads (XBlock l rs).
Proof.
  intros IH n p ts H [Hl Hr] Hts Hst Hn. destruct n as [|[|n]]; [lia|lia|]. cbn [exec_toks] in H. rewrite <- app_comm_cons, <- app_assoc, <- app_comm_cons in H.
  assert (Hrt : Forall wf_tok (TSym 41 :: rds_toks rs ++ ts)) by (constructor; [cbn; set_solver|apply Forall_app; split; [by apply rd_wf|done]]).
  assert (Hwf : Forall wf_tok (TSym 40 :: line_toks l ++ TSym 41 :: rds_toks rs ++ ts)) by (constructor; [cbn; set_solver|apply Forall_app; split; [by apply toks_wf|done]]).
  destruct (symbol_at 40 [40] p _ H Hwf ltac:(set_solver) ltac:(set_solver)) as (p1 & Hpk & Hg & L1 & H1).
  destruct (IH n p1 (TSym 41 :: rds_toks rs ++ ts) H1 Hl Hrt ltac:(by right) ltac:(lia)) as (c & p2 & E & [L2 H2] & Ec).
  destruct (symbol_at 41 [41] p2 _ H2 Hrt ltac:(set_solver) ltac:(set_solver)) as (p3 & Hpk2 & Hg2 & L3 & H3).
  destruct (parseredirs_at rs p3 ts H3 Hr Hts) as (rs' & p4 & E4 & [L4 H4] & Er); [by eapply next_not; [|exact Hst]; set_solver|].
  exists (wrap c rs'), p4. split_and!; [|split; [lia|done]|rewrite wrap_map, Ec, Er; done].
  cbn [parseexec]. rewrite (bind_run _ _ _ _ _ Hpk). cbn [parseblock]. rewrite (bind_run _ _ _ _ _ Hpk). cbn [negb]. rewrite (bind_run _ _ _ _ _ Hg), (bind_run _ _ _ _ _ E), (bind_run _ _ _ _ _ Hpk2). cbn [negb]. by rewrite (bind_run _ _ _ _ _ Hg2), (bind_run _ _ _ _ _ E4).
Qed.

Lemma pipe_end_reads e : exec_reads e -> pipe_reads (PEnd e).
Proof.
  intros IH n p ts H Hw Hts Hst Hn. destruct n as [|n]; [lia|]. destruct (IH n p ts H Hw Hts) as (c & p1 & E & [L1 H1] & Ec); [by eapply next_weaken; [|exact Hst]; set_solver|lia|].
  exists c, p1. split_and!; [|by split|done]. cbn [parsepipe]. rewrite (bind_run _ _ _ _ _ E), (bind_run _ _ _ _ _ (peek_at [124] p1 ts H1 Hts ltac:(set_solver))). by rewrite (next_not [41; 38; 59] [124]) by (done || set_solver).
Qed.

Lemma pipe_seq_reads e q : exec_reads e -> pipe_reads q -> pipe_reads (PSeq e q).
Proof.
  intros IHe IHq n p ts H [He Hq] Hts Hst Hn. destruct n as [|n]; [lia|]. cbn [pipe_toks] in H. rewrite <- app_assoc, <- app_comm_cons in H.
  assert (Hwf : Forall wf_tok (TSym 124 :: pipe_toks q ++ ts)) by (constructor; [cbn; set_solver|apply Forall_app; split; [by apply toks_wf|done]]).
  destruct (IHe n p _ H He Hwf ltac:(by right) ltac:(lia)) as (c & p1 & E & [L1 H1] & Ec).
  destruct (symbol_at 124 [124] p1 _ H1 Hwf ltac:(set_solver) ltac:(set_solver)) as (p2 & Hpk & Hg & L2 & H2).
  destruct (IHq n p2 ts H2 Hq Hts Hst ltac:(lia)) as (c2 & p3 & E3 & [L3 H3] & Ec3).
  exists (PIPE c c2), p3. split_and!; [|split; [lia|done]|cbn [cmd_map pipe_cmd]; by rewrite Ec, Ec3]. cbn [parsepipe]. by rewrite (bind_run _ _ _ _ _ E), (bind_run _ _ _ _ _ Hpk), (bind_run _ _ _ _ _ Hg), (bind_run _ _ _ _ _ E3).
Qed.

(** A pipeline and its [&]s. *)
Lemma backs_reads q k n p ts : pipe_reads q -> at_toks p (pipe_toks q ++ replicate k (TSym 38) ++ ts) -> wf_pipe q -> Forall wf_tok ts -> ts = [] \/ next_in [41; 59] ts = true -> (4 * (len - p) + 2 < n)%nat ->
  exists c p1 p2, parsepipe s n p = Ret c p1 /\ loop (S (S (es s))) (back_round s) c p1 = Ret (backs k c) p2 /\ on_to p p2 ts /\ cmd_map sl (backs k c) = backs k (pipe_cmd q).
Proof.
  intros IH H Hq Hts Hst Hn. assert (Hwf : Forall wf_tok (replicate k (TSym 38) ++ ts)) by (apply Forall_app; split; [apply Forall_replicate; cbn; set_solver|done]).
  destruct (IH n p _ H Hq Hwf) as (c & p1 & E & [L1 H1] & Ec); [destruct k; [|by right]; by eapply next_weaken; [|exact Hst]; set_solver|done|].
  pose proof (at_len _ _ H1 Hwf) as Hc. rewrite length_app, length_replicate in Hc.
  destruct (back_loop k (S (S (es s))) c p1 ts H1 Hts) as (p2 & E2 & [L2 H2]); [by apply (next_not [41; 59]); [set_solver|]|unfold es; lia|].
  exists c, p1, p2. split_and!; [done|done|split; [lia|done]|]. clear - Ec. induction k as [|k IH]; [done|]. change (BACK (cmd_map sl (backs k c)) = BACK (backs k (pipe_cmd q))). by rewrite IH.
Qed.

Lemma line_end_reads q k : pipe_reads q -> line_reads (LEnd q k).
Proof.
  intros IH n p ts H Hq Hts Hst Hn. destruct n as [|n]; [lia|]. cbn [line_toks] in H. rewrite <- app_assoc in H.
  destruct (backs_reads q k n p ts IH H Hq Hts) as (c & p1 & p2 & E1 & E2 & [L2 H2] & Ec); [by eapply next_weaken; [|exact Hst]; set_solver|lia|].
  exists (backs k c), p2. split_and!; [|by split|done]. cbn [parseline]. rewrite (bind_run _ _ _ _ _ E1), (bind_run _ _ _ _ _ E2), (bind_run _ _ _ _ _ (peek_at [59] p2 ts H2 Hts ltac:(set_solver))). by rewrite (next_not [41] [59]) by (done || set_solver).
Qed.

Lemma line_seq_reads q k l : pipe_reads q -> line_reads l -> line_reads (LSeq q k l).
Proof.
  intros IHq IHl n p ts H [Hq Hl] Hts Hst Hn. destruct n as [|n]; [lia|]. cbn [line_toks] in H. rewrite <- !app_assoc, <- app_comm_cons in H.
  assert (Hwf : Forall wf_tok (TSym 59 :: line_toks l ++ ts)) by (constructor; [cbn; set_solver|apply Forall_app; split; [by apply toks_wf|done]]).
  destruct (backs_reads q k n p _ IHq H Hq Hwf ltac:(by right) ltac:(lia)) as (c & p1 & p2 & E1 & E2 & [L2 H2] & Ec).
  destruct (symbol_at 59 [59] p2 _ H2 Hwf ltac:(set_solver) ltac:(set_solver)) as (p3 & Hpk & Hg & L3 & H3).
  destruct (IHl n p3 ts H3 Hl Hts Hst ltac:(lia)) as (c2 & p4 & E4 & [L4 H4] & Ec4).
  exists (LIST (backs k c) c2), p4. split_and!; [|split; [lia|done]|cbn [cmd_map line_cmd]; by rewrite Ec, Ec4].
  cbn [parseline]. by rewrite (bind_run _ _ _ _ _ E1), (bind_run _ _ _ _ _ E2), (bind_run _ _ _ _ _ Hpk), (bind_run _ _ _ _ _ Hg), (bind_run _ _ _ _ _ E4).
Qed.

Lemma all_read : (forall l, line_reads l) /\ (forall q, pipe_reads q) /\ (forall e, exec_reads e).
Proof.
  apply syntax_mut; eauto using line_end_reads, line_seq_reads, pipe_end_reads, pipe_seq_reads, block_reads.
  intros argv rs n p ts H Hw Hts Hst Hn. destruct n as [|n]; [lia|]. by apply simple_parses.
Qed.

(** White space before the line: the parser begins with a [peek], which skips it. *)
Lemma parseline_skip n p : skip_space s (skip_space s p) = skip_space s p -> parseline s (S (S (S n))) p = parseline s (S (S (S n))) (skip_space s p).
Proof.
  intros Hs. assert (Hpk : forall toks, peek s toks (skip_space s p) = peek s toks p) by (intros toks; unfold peek, bind, gets, bindO, modify, ret, id; by rewrite Hs).
  assert (He : parseexec s (S n) p = parseexec s (S n) (skip_space s p)) by (cbn [parseexec]; unfold bind at 1 4; by rewrite Hpk).
  assert (Hp : parsepipe s (S (S n)) p = parsepipe s (S (S n)) (skip_space s p)) by (change (parsepipe s (S (S n))) with (let! c := parseexec s (S n) in let! b := peek s [124] in if b : bool then do! gettoken s in let! r := parsepipe s (S n) in ret (PIPE c r) else ret c); unfold bind at 1 5; by rewrite He).
  change (parseline s (S (S (S n)))) with (let! c := parsepipe s (S (S n)) in let! c := loop (S (S (es s))) (back_round s) c in let! b := peek s [59] in if b : bool then do! gettoken s in let! r := parseline s (S (S n)) in ret (LIST c r) else ret c).
  unfold bind at 1 6. by rewrite Hp.
Qed.

Lemma parse_text_reads g gs l : s = g ++ text gs (line_toks l) -> blank g -> gaps_ok gs (line_toks l) -> wf_line l -> exists c, parse_text s 0%nat = Ret c len /\ cmd_map sl c = line_cmd l.
Proof.
  intros Es Hg Hgs Hl. pose proof (proj1 toks_wf l Hl) as Ht. assert (Hk : skip_space s 0 = length g) by (apply (skip_gap 0 g gs (line_toks l)); [lia|by rewrite drop_0|done|done]).
  assert (H0 : at_toks (length g) (line_toks l ++ [])) by (rewrite app_nil_r; split; [rewrite Es, length_app; lia|exists gs; split; [done|rewrite Es; apply drop_app_length]]).
  destruct (proj1 all_read l (4 * es s + 4)%nat (length g) [] H0 Hl ltac:(constructor) ltac:(by left) ltac:(unfold es; lia)) as (c & p & E & [L H] & Ec). pose proof (at_end p H) as ->.
  exists c. split; [|done]. unfold parse_text. rewrite (bind_run _ _ 0%nat c len).
  - rewrite (bind_run _ _ _ _ _ (peek_at [] _ [] H ltac:(constructor) ltac:(set_solver))), bind_gets. unfold id, es. by rewrite Nat.eqb_refl.
  - replace (4 * es s + 4)%nat with (S (S (S (4 * es s + 1)))) in * by lia. rewrite parseline_skip; rewrite Hk; [exact E|]. rewrite app_nil_r in H0. by apply (skip_at _ _ H0).
Qed.

End reads.

Lemma blank_nonzero g : blank g -> Forall (fun c => c <> 0) g.
Proof. intros Hg. eapply Forall_impl; [exact Hg|]. intros c H. by apply space_facts. Qed.

Lemma text_nonzero gs ts : gaps_ok gs ts -> Forall wf_tok ts -> Forall (fun c => c <> 0) (text gs ts).
Proof.
  intros Hgs Hts. revert gs Hgs. induction Hts as [|t ts Ht _ IH]; intros gs Hgs; [constructor|]. destruct Hgs as (Hg & _ & Hgs). cbn [text]. rewrite !Forall_app. split_and!; [|by apply blank_nonzero|by apply IH].
  destruct t as [w|c|]; cbn in *; [eapply Forall_impl; [apply Ht|by intros x []]|constructor; [by apply symbol_facts|constructor]|by repeat constructor].
Qed.

(** The line with its words ended, read back as the command [c]. *)
Definition command_of (c : cmd) (t : list Z) : command (list Z) := cmd_map (fun w => cstr (drop w.1 t)) c.

Lemma line_nonzero g gs l : blank g -> gaps_ok gs (line_toks l) -> wf_line l -> Forall (fun c => c <> 0) (g ++ text gs (line_toks l)).
Proof. intros Hg Hgs Hl. apply Forall_app. split; [by apply blank_nonzero|by apply text_nonzero, toks_wf]. Qed.

Lemma parsecmd_reads g gs l : let s := g ++ text gs (line_toks l) in blank g -> gaps_ok gs (line_toks l) -> wf_line l ->
  exists c t, parsecmd s = Ret (c, t) (length s) /\ command_of c t = line_cmd l.
Proof.
  intros s Hg Hgs Hl. pose proof (line_nonzero g gs l Hg Hgs Hl) as Hs. fold s in Hs.
  destruct (parse_text_reads s g gs l eq_refl Hg Hgs Hl) as (c & E & Ec). exists c, (nulterminate c (s ++ [0])). split; [unfold parsecmd; by rewrite (bind_run _ _ _ _ _ E)|].
  pose proof (parse_text_ok s Hs) as Hok. unfold sure in Hok. rewrite E in Hok. destruct Hok as [_ Hok]. rewrite <- Ec. apply cmd_map_ext. intros w Hw. by apply words_terminated.
Qed.

(** C15: Printing and parsing.  Every line of the shell's grammar (commands of fewer than 10
    arguments, redirections with [<], [>] and [>>] before, between and after the arguments
    and after blocks, blocks, pipelines, [&] and [;]), printed as its tokens with any
    white space before the first and after each, none included except where two words or
    a [>] and a further [>] would run together, is parsed to the command it stands for:
    same tree, redirections in order with their modes and descriptors, and every word read
    back as a C string. *)
Theorem parsecmd_roundtrip g gs l : let s := g ++ text gs (line_toks l) in blank g -> gaps_ok gs (line_toks l) -> wf_line l ->
  exists c t, parsecmd s = Ret (c, t) (length s) /\ command_of c t = line_cmd l.
Proof. apply parsecmd_reads. Qed.

(** [(<i a b >f ;c)|d>>g &] *)
Definition demo_syntax : line :=
  LEnd (PSeq (XBlock (LSeq (PEnd (XCmd [(RIn, [105])] [([97], []); ([98], [(ROut, [102])])])) 0 (LEnd (PEnd (XCmd [] [([99], [])])) 0)) [])
    (PEnd (XCmd [] [([100], [(RAppend, [103])])]))) 1.
Definition demo_gaps : list (list Z) := [[]; []; [32]; [32; 9]; [32]; []; [32]; []; []; []; []; []; []; [32]; [10]].
Lemma demo_syntax_wf : wf_line demo_syntax.
Proof. cbn. repeat split; repeat constructor; cbn; done || lia. Qed.
Lemma demo_gaps_ok : gaps_ok demo_gaps (line_toks demo_syntax).
Proof. cbn. repeat split; repeat constructor; done. Qed.
Lemma parsecmd_roundtrip_witness : exists c t, parsecmd ([32; 32] ++ text demo_gaps (line_toks demo_syntax)) = Ret (c, t) 25%nat /\
  command_of c t = BACK (PIPE (LIST (REDIR (REDIR (EXEC [[97]; [98]]) [105] 0 0) [102] 513 1) (EXEC [[99]])) (REDIR (EXEC [[100]]) [103] 513 1)).
Proof. exact (parsecmd_roundtrip [32; 32] demo_gaps demo_syntax ltac:(by repeat constructor) demo_gaps_ok demo_syntax_wf). Defined.
