(* ===== verification/Shell.v ===== *)
(** * Running commands in the shell

    [src/sh.c]: [runcmd], [getcmd] and [main], with [gets] of [src/ulib.c].  A process
    is described by the tree of the system calls it makes, with a branch for each
    outcome the kernel decides: [exec], [open], [pipe] and [fork] can fail.  Its
    descriptor table is followed exactly as [src/sysfile.c] changes it, so that the
    tree shows what the descriptors of every program are when it starts.  Messages to
    descriptor 2 are left out.  The keyboard input is a list of characters; its end is
    the end of the file. *)
From S2P Require Import Prelude CString Headers Sh.

(** ** Descriptors *)

(** What a descriptor stands for; a pipe is named by the place in the command of the
    [PIPE] that made it. *)
Inductive obj :=
| Console
| File (name : list Z) (mode : Z)
| PipeRead (id : list nat)
| PipeWrite (id : list nat)
| Inherited (n : nat).

Definition fdtable : Type := list (option obj).

(** The lowest free descriptor, taken for [o]. *)
Definition fd_alloc (o : obj) (fds : fdtable) : option (nat * fdtable) :=
  match list_find (fun x => x = None) fds with
  | Some (fd, _) => Some (fd, <[fd := Some o]> fds)
  | None => None
  end.

Definition fd_close (fd : nat) (fds : fdtable) : fdtable := <[fd := None]> fds.

Definition fd_dup (fd : nat) (fds : fdtable) : fdtable :=
  match fds !! fd with
  | Some (Some o) => match fd_alloc o fds with Some (_, fds) => fds | None => fds end
  | _ => fds
  end.

(** The descriptors of the two ends, or failure with the table as before. *)
Definition fd_pipe (id : list nat) (fds : fdtable) : option (nat * nat * fdtable) :=
  match fd_alloc (PipeRead id) fds with
  | None => None
  | Some (fd0, fds) =>
      match fd_alloc (PipeWrite id) fds with
      | None => None
      | Some (fd1, fds) => Some (fd0, fd1, fds)
      end
  end.

(** ** Processes *)

(** The system calls of a process from here on.  [failed] is what happens when the
    call fails. *)
Inductive uproc :=
| Exits
| Panics (msg : string)
| Execs (argv : list (list Z)) (fds : fdtable) (failed : uproc)
| Opens (file : list Z) (mode : Z) (ok failed : uproc)
| Pipes (ok failed : uproc)
| Forks (child parent failed : uproc)
| Waits (fds : fdtable) (next : uproc)
| Chdirs (path : list Z) (next : uproc)
| Spins.

(** [fork1]: the child, and the parent; a failure is a panic. *)
Definition fork1 (child parent : uproc) : uproc := Forks child parent (Panics "fork").

(** The command [c] of the place [id], in a process with the descriptors [fds]. *)
Fixpoint runcmd (c : command (list Z)) (id : list nat) (fds : fdtable) : uproc :=
  match c with
  | EXEC argv =>
      match argv with
      | [] => Exits
      | _ => Execs argv fds Exits
      end
  | REDIR c file mode fd =>
      let fds := fd_close (Z.to_nat fd) fds in
      Opens file mode
        (match fd_alloc (File file mode) fds with
         | Some (_, fds) => runcmd c id fds
         | None => Exits
         end)
        Exits
  | LIST l r =>
      fork1 (runcmd l (0%nat :: id) fds)
        (Waits fds (runcmd r (1%nat :: id) fds))
  | PIPE l r =>
      match fd_pipe id fds with
      | None => Panics "pipe"
      | Some (p0, p1, fds) =>
          Pipes
            (fork1
               (let fds := fd_close 1 fds in
                let fds := fd_dup p1 fds in
                let fds := fd_close p0 fds in
                let fds := fd_close p1 fds in
                runcmd l (0%nat :: id) fds)
               (fork1
                  (let fds := fd_close 0 fds in
                   let fds := fd_dup p0 fds in
                   let fds := fd_close p0 fds in
                   let fds := fd_close p1 fds in
                   runcmd r (1%nat :: id) fds)
                  (let fds := fd_close p0 fds in
                   let fds := fd_close p1 fds in
                   Waits fds (Waits fds Exits))))
            (Panics "pipe")
      end
  | BACK c => fork1 (runcmd c (0%nat :: id) fds) Exits
  end.

(** ** The command loop *)

(** [gets]: at most [n] more characters into [buf] from [i], up to a line end. *)
Fixpoint gets_loop (n i : nat) (buf inp : list Z) : nat * list Z * list Z :=
  match n with
  | O => (i, buf, inp)
  | S n =>
      match inp with
      | [] => (i, buf, [])
      | c :: inp =>
          let buf := <[i := c]> buf in
          if (c =? 10) || (c =? 13) then (S i, buf, inp) else gets_loop n (S i) buf inp
      end
  end.

Definition ulib_gets (buf : list Z) (max : nat) (inp : list Z) : list Z * list Z :=
  let '(i, buf, inp) := gets_loop (max - 1) 0 buf inp in (<[i := 0]> buf, inp).

(** The buffer with the next line, and whether there is one. *)
Definition getcmd (nbuf : nat) (inp : list Z) : bool * list Z * list Z :=
  let '(buf, inp) := ulib_gets (replicate nbuf 0) nbuf inp in
  (negb (default 0 (buf !! 0%nat) =? 0), buf, inp).

Definition LINEBUF : nat := 100.
Definition is_cd (buf : list Z) : bool := bool_decide (take 3 buf = [99; 100; 32]).

(** [parsecmd(buf)] and then [runcmd], in the child. *)
Definition run_line (buf : list Z) (fds : fdtable) : uproc :=
  match parsecmd (cstr buf) with
  | Ret (c, t) _ => runcmd (command_of c t) [] fds
  | Panic msg _ => Panics msg
  | _ => Spins
  end.

Fixpoint main_loop (fuel : nat) (fds : fdtable) (inp : list Z) : uproc :=
  match fuel with
  | O => Spins
  | S fuel =>
      let '(more, buf, inp) := getcmd LINEBUF inp in
      if negb more then Exits
      else if is_cd buf then
        let buf := <[(length (cstr buf) - 1)%nat := 0]> buf in
        Chdirs (cstr (drop 3 buf)) (main_loop fuel fds inp)
      else fork1 (run_line buf fds) (Waits fds (main_loop fuel fds inp))
  end.

(** ["console"] *)
Definition console_name : list Z := [99; 111; 110; 115; 111; 108; 101].

(** The descriptors 0, 1 and 2 are opened if they are not. *)
Fixpoint open_console (fuel : nat) (fds : fdtable) (next : fdtable -> uproc) : uproc :=
  match fuel with
  | O => Spins
  | S fuel =>
      Opens console_name O_RDWR
        (match fd_alloc Console fds with
         | None => next fds
         | Some (fd, fds) => if (3 <=? fd)%nat then next (fd_close fd fds) else open_console fuel fds next
         end)
        (next fds)
  end.

Definition main (fds : fdtable) (inp : list Z) : uproc := open_console (S NOFILE) fds (fun fds => main_loop (S (length inp)) fds inp).

(** ** What a run does *)

(** The directory changes and program starts of a process and its children when no
    call fails, and the tables with which processes wait for children. *)
Inductive event := EChdir (path : list Z) | EExec (argv : list (list Z)) (fds : fdtable).

Fixpoint events (p : uproc) : list event :=
  match p with
  | Exits | Panics _ | Spins => []
  | Execs argv fds _ => [EExec argv fds]
  | Opens _ _ ok _ => events ok
  | Pipes ok _ => events ok
  | Forks child parent _ => events child ++ events parent
  | Waits _ next => events next
  | Chdirs path next => EChdir path :: events next
  end.

Fixpoint waiting (p : uproc) : list fdtable :=
  match p with
  | Exits | Panics _ | Spins | Execs _ _ _ => []
  | Opens _ _ ok _ => waiting ok
  | Pipes ok _ => waiting ok
  | Forks child parent _ => waiting child ++ waiting parent
  | Waits fds next => fds :: waiting next
  | Chdirs _ next => waiting next
  end.

(** Input, output and errors, and nothing else open. *)
Definition std (i o e : obj) : fdtable := [Some i; Some o; Some e] ++ replicate (NOFILE - 3) None.

(** The programs of a command with their input and output. *)
Fixpoint plan (c : command (list Z)) (id : list nat) (i o : obj) : list (list (list Z) * obj * obj) :=
  match c with
  | EXEC [] => []
  | EXEC argv => [(argv, i, o)]
  | REDIR c file mode fd => if fd =? 0 then plan c id (File file mode) o else plan c id i (File file mode)
  | PIPE l r => plan l (0%nat :: id) i (PipeWrite id) ++ plan r (1%nat :: id) (PipeRead id) o
  | LIST l r => plan l (0%nat :: id) i o ++ plan r (1%nat :: id) i o
  | BACK c => plan c (0%nat :: id) i o
  end.

Fixpoint redirs_std (c : command (list Z)) : Prop :=
  match c with
  | EXEC _ => True
  | REDIR c _ _ fd => (fd = 0 \/ fd = 1) /\ redirs_std c
  | PIPE l r | LIST l r => redirs_std l /\ redirs_std r
  | BACK c => redirs_std c
  end.

Definition start (e : obj) (r : list (list Z) * obj * obj) : event := let '(argv, i, o) := r in EExec argv (std i o e).
Definition is_std (e : obj) (fds : fdtable) : Prop := exists i o, fds = std i o e.

(** The programs of a command are started with the descriptors its plan says and no
    others, and no process of it waits holding the end of a pipe beyond its own input
    and output. *)
Lemma runcmd_plan e c : forall id i o, redirs_std c ->
  events (runcmd c id (std i o e)) = map (start e) (plan c id i o) /\ Forall (is_std e) (waiting (runcmd c id (std i o e))).
Proof.
  assert (Hstd : forall i o, is_std e (std i o e)) by (intros i o; by exists i, o).
  induction c as [argv|c IH file mode fd|l IHl r IHr|l IHl r IHr|c IH]; intros id i o H; cbn [redirs_std] in H.
  - destruct argv; (split; [done|constructor]).
  - destruct H as [[->| ->] H]; [apply (IH id (File file mode) o H)|apply (IH id i (File file mode) H)].
  - destruct H as [Hl Hr]. destruct (IHl (0%nat :: id) i (PipeWrite id) Hl) as [L1 L2]. destruct (IHr (1%nat :: id) (PipeRead id) o Hr) as [R1 R2].
    change (runcmd (PIPE l r) id (std i o e)) with (Pipes (fork1 (runcmd l (0%nat :: id) (std i (PipeWrite id) e)) (fork1 (runcmd r (1%nat :: id) (std (PipeRead id) o e)) (Waits (std i o e) (Waits (std i o e) Exits)))) (Panics "pipe")).
    cbn [events waiting fork1 plan]. rewrite app_nil_r, map_app, L1, R1. split; [done|]. apply Forall_app. split; [done|]. apply Forall_app. split; [done|]. by repeat constructor.
  - destruct H as [Hl Hr]. destruct (IHl (0%nat :: id) i o Hl) as [L1 L2]. destruct (IHr (1%nat :: id) i o Hr) as [R1 R2].
    cbn [runcmd events waiting fork1 plan]. rewrite map_app, L1, R1. split; [done|]. apply Forall_app. split; [done|]. by constructor.
  - destruct (IH (0%nat :: id) i o H) as [L1 L2]. cbn [runcmd events waiting fork1 plan]. rewrite !app_nil_r. done.
Qed.

Lemma wrap_std rs : forall c, redirs_std c -> redirs_std (wrap c (map rd_val rs)).
Proof. induction rs as [|[a f] rs IH]; intros c H; [done|]. destruct a; [apply (IH (REDIR c f O_RDONLY 0))|apply (IH (REDIR c f (Z.lor O_WRONLY O_CREATE) 1))..]; cbn; auto. Qed.

Lemma backs_std n c : redirs_std c -> redirs_std (backs n c).
Proof. intros H. by induction n. Qed.

(** The lines of the grammar redirect input and output only. *)
Lemma syntax_std : (forall l, redirs_std (line_cmd l)) /\ (forall p, redirs_std (pipe_cmd p)) /\ (forall e, redirs_std (exec_cmd e)).
Proof. apply syntax_mut; cbn [line_cmd pipe_cmd exec_cmd]; intros; [by apply backs_std|split; [by apply backs_std|done]|done|done|by apply wrap_std|by apply wrap_std]. Qed.

(** ** Lines of input *)

Definition no_eol (c : Z) : Prop := c <> 10 /\ c <> 13.

Lemma gets_loop_line w : forall n pre k rest, Forall no_eol w -> (length w < n)%nat -> (length w < k)%nat ->
  gets_loop n (length pre) (pre ++ replicate k 0) (w ++ 10 :: rest) = ((length pre + length w + 1)%nat, pre ++ w ++ 10 :: replicate (k - length w - 1) 0, rest).
Proof.
  induction w as [|c w IH]; intros n pre k rest Hw Hn Hk; (destruct n as [|n]; [lia|]); (destruct k as [|k]; [lia|]); cbn [gets_loop app length replicate].
  - rewrite insert_app_r_alt, Nat.sub_diag by lia. cbn. replace (k - 0)%nat with k by lia. f_equal. f_equal. lia.
  - apply Forall_cons in Hw as [[H10 H13] Hw]. rewrite (proj2 (Z.eqb_neq c 10)), (proj2 (Z.eqb_neq c 13)) by done. cbn [orb]. rewrite insert_app_r_alt, Nat.sub_diag by lia. cbn [replicate insert list_insert].
    specialize (IH n (pre ++ [c]) k rest Hw). rewrite length_app, <- !app_assoc in IH. cbn [length app] in IH, Hn, Hk. rewrite Nat.add_1_r in IH. rewrite IH by lia. f_equal. f_equal. lia.
Qed.

Lemma getcmd_line w rest : Forall no_eol w -> (length w < LINEBUF - 1)%nat -> default 0 ((w ++ [10]) !! 0%nat) <> 0 ->
  getcmd LINEBUF (w ++ 10 :: rest) = (true, w ++ 10 :: replicate (LINEBUF - length w - 1) 0, rest).
Proof.
  intros Hw Hl H0. unfold getcmd, ulib_gets. pose proof (gets_loop_line w (LINEBUF - 1) [] LINEBUF rest Hw Hl ltac:(unfold LINEBUF in *; lia)) as H. cbn [length app] in H. rewrite H.
  assert (Hi : <[(0 + length w + 1)%nat := 0]> (w ++ 10 :: replicate (LINEBUF - length w - 1) 0) = w ++ 10 :: replicate (LINEBUF - length w - 1) 0).
  { rewrite insert_app_r_alt by lia. replace (0 + length w + 1 - length w)%nat with 1%nat by lia. destruct (LINEBUF - length w - 1)%nat eqn:E; [unfold LINEBUF in *; lia|done]. }
  rewrite Hi. f_equal. f_equal. apply negb_true_iff, Z.eqb_neq. by destruct w.
Qed.

Lemma cstr_prefix w l : Forall (fun c => c <> 0) w -> cstr (w ++ 0 :: l) = w.
Proof. induction 1 as [|c w Hc _ IH]; [done|]. cbn [app cstr]. rewrite (proj2 (Z.eqb_neq c 0)) by done. by rewrite IH. Qed.

Lemma cstr_buf w k : Forall (fun c => c <> 0) w -> cstr (w ++ replicate k 0) = w.
Proof. intros H. destruct k; [|by apply cstr_prefix]. rewrite app_nil_r. induction H as [|c w Hc _ IH]; [done|]. cbn [cstr]. rewrite (proj2 (Z.eqb_neq c 0)) by done. by rewrite IH. Qed.

(** ** Sessions *)

(** What the user types: a command line, with the white space before its first token and
    after each, or [cd] and a path. *)
Inductive entry := ECmd (g : list Z) (gs : list (list Z)) (l : line) | ECd (path : list Z).

Definition entry_text (x : entry) : list Z :=
  match x with
  | ECmd g gs l => g ++ text gs (line_toks l)
  | ECd path => [99; 100; 32] ++ path ++ [10]
  end.

(** It ends with a newline, has no other line end and fits the buffer; a command line does not
    start with [cd ]. *)
Definition one_line (t : list Z) : Prop := exists w, t = w ++ [10] /\ Forall no_eol w.
Definition wf_entry (x : entry) : Prop :=
  (length (entry_text x) < LINEBUF)%nat /\
  match x with
  | ECmd g gs l => wf_line l /\ blank g /\ gaps_ok gs (line_toks l) /\ one_line (entry_text x) /\ take 3 (entry_text x) <> [99; 100; 32]
  | ECd path => Forall (fun c => no_eol c /\ c <> 0) path
  end.

Definition entry_events (i o e : obj) (x : entry) : list event :=
  match x with
  | ECmd _ _ l => map (start e) (plan (line_cmd l) [] i o)
  | ECd path => [EChdir path]
  end.

Lemma take3_padded t k : take 3 (t ++ replicate k 0) = [99; 100; 32] -> take 3 t = [99; 100; 32].
Proof.
  destruct t as [|a [|b [|c t]]]; [| | |done]; cbn.
  - destruct k; discriminate.
  - destruct k as [|[|k]]; discriminate.
  - destruct k as [|k]; discriminate.
Qed.

Lemma main_loop_cd fuel fds path inp : wf_entry (ECd path) -> main_loop (S fuel) fds (entry_text (ECd path) ++ inp) = Chdirs path (main_loop fuel fds inp).
Proof.
  intros [Hl Hp]. cbn [entry_text] in *. rewrite !length_app in Hl. cbn [length] in Hl.
  assert (Hw : Forall no_eol ([99; 100; 32] ++ path)) by (repeat constructor; try done; eapply Forall_impl; [exact Hp|by intros c []]).
  assert (H0 : Forall (fun c => c <> 0) (([99; 100; 32] ++ path) ++ [10])) by (apply Forall_app; split; [repeat constructor; try done; eapply Forall_impl; [exact Hp|by intros c []]|by repeat constructor]).
  pose proof (getcmd_line ([99; 100; 32] ++ path) inp Hw ltac:(rewrite length_app; cbn [length]; unfold LINEBUF in *; lia) ltac:(done)) as Hg.
  cbn [main_loop]. replace (([99; 100; 32] ++ path ++ [10]) ++ inp) with (([99; 100; 32] ++ path) ++ 10 :: inp) by (by rewrite <- !app_assoc). rewrite Hg. cbn [negb].
  set (k := (LINEBUF - length ([99; 100; 32]%Z ++ path) - 1)%nat).
  replace (([99; 100; 32] ++ path) ++ 10 :: replicate k 0) with ((([99; 100; 32] ++ path) ++ [10]) ++ replicate k 0) by (by rewrite <- !app_assoc).
  change (is_cd _) with true. cbv iota. rewrite cstr_buf by done. f_equal. rewrite !length_app. cbn [length]. replace (3 + length path + 1 - 1)%nat with (length ([99; 100; 32] ++ path)) by (rewrite length_app; cbn [length]; lia).
  rewrite <- app_assoc, insert_app_r_alt, Nat.sub_diag by lia. cbn [app insert list_insert drop]. apply cstr_prefix. eapply Forall_impl; [exact Hp|by intros c []].
Qed.

Lemma main_loop_cmd fuel fds g gs l inp : wf_entry (ECmd g gs l) -> main_loop (S fuel) fds (entry_text (ECmd g gs l) ++ inp) = fork1 (runcmd (line_cmd l) [] fds) (Waits fds (main_loop fuel fds inp)).
Proof.
  intros (Hl & Hwf & Hbl & Hgs & (w & Ew & Hw) & Hcd). cbn [entry_text] in *. pose proof (line_nonzero g gs l Hbl Hgs Hwf) as H0.
  destruct (parsecmd_reads g gs l Hbl Hgs Hwf) as (c & t & Ep & Ec). rewrite Ew in *. rewrite length_app in Hl. cbn [length] in Hl.
  assert (Hd : default 0 ((w ++ [10]) !! 0%nat) <> 0) by (destruct w; [done|by apply Forall_cons in H0 as [? _]]).
  pose proof (getcmd_line w inp Hw ltac:(unfold LINEBUF in *; lia) Hd) as Hg. cbn [main_loop]. rewrite <- app_assoc. cbn [app]. rewrite Hg. cbn [negb]. set (k := (LINEBUF - length w - 1)%nat).
  replace (w ++ 10 :: replicate k 0) with ((w ++ [10]) ++ replicate k 0) by (by rewrite <- !app_assoc).
  unfold is_cd. rewrite bool_decide_false by (intros E; by apply take3_padded in E). unfold run_line. by rewrite cstr_buf, Ep, Ec by done.
Qed.

Lemma main_loop_session i o e xs : Forall wf_entry xs -> forall fuel, (length xs < fuel)%nat ->
  events (main_loop fuel (std i o e) (concat (map entry_text xs))) = concat (map (entry_events i o e) xs) /\
  Forall (is_std e) (waiting (main_loop fuel (std i o e) (concat (map entry_text xs)))).
Proof.
  induction 1 as [|x xs Hx _ IH]; intros fuel Hf; (destruct fuel as [|fuel]; [lia|]); cbn [map concat length] in *; [by split; [|constructor]|].
  destruct (IH fuel ltac:(lia)) as [I1 I2]. destruct x as [g gs l|path].
  - rewrite main_loop_cmd by done. destruct (runcmd_plan e (line_cmd l) [] i o (proj1 syntax_std l)) as [R1 R2]. cbn [events waiting fork1 entry_events]. rewrite R1, I1. split; [done|]. apply Forall_app. split; [done|]. constructor; [by exists i, o|done].
  - rewrite main_loop_cd by done. cbn [events waiting entry_events app]. by rewrite I1.
Qed.

Lemma open_console_std a b c next : let fds := std (default Console a) (default Console b) (default Console c) in let p := open_console (S NOFILE) ([a; b; c] ++ replicate (NOFILE - 3) None) next in
  events p = events (next fds) /\ waiting p = waiting (next fds).
Proof. destruct a, b, c; split; reflexivity. Qed.

Lemma texts_length xs : Forall wf_entry xs -> (length xs <= length (concat (map entry_text xs)))%nat.
Proof.
  induction 1 as [|x xs Hx _ IH]; [done|]. cbn [map concat length]. rewrite length_app. enough (0 < length (entry_text x))%nat by lia. destruct x as [g gs l|path]; [|cbn; lia].
  destruct Hx as (_ & _ & _ & _ & (w & Ew & _) & _). rewrite Ew, length_app. cbn [length]. lia.
Qed.

(** C14: A session.  The user types command lines, spaced as they like, and [cd]s, each ended
    by a newline and shorter than the buffer.  When no call fails the shell carries out what
    the lines stand for: each [cd] changes the directory to its path, and each program of a
    command is started with its arguments and with exactly three descriptors, its input and output being the shell's own, a redirection or the end of
    the pipe that connects it to its neighbour.  No process that waits for a child, the
    shell included, keeps any other descriptor, so the end of a pipe's data is seen. *)
Theorem shell_session a b c xs : Forall wf_entry xs ->
  let i := default Console a in let o := default Console b in let e := default Console c in
  let p := main ([a; b; c] ++ replicate (NOFILE - 3) None) (concat (map entry_text xs)) in
  events p = concat (map (entry_events i o e) xs) /\ Forall (is_std e) (waiting p).
Proof.
  intros Hxs i o e p. unfold p, main. destruct (open_console_std a b c (fun fds => main_loop (S (length (concat (map entry_text xs)))) fds (concat (map entry_text xs)))) as [-> ->].
  apply main_loop_session; [done|]. pose proof (texts_length xs Hxs). lia.
Qed.

(** [cd d], and then [(<i a b >f ;c)|d>>g &] *)
Definition demo_session : list entry := [ECd [100]; ECmd [32; 32] demo_gaps demo_syntax].
Lemma shell_session_witness : let e := Inherited 2 in
  events (main ([None; Some (Inherited 1); Some e] ++ replicate (NOFILE - 3) None) (concat (map entry_text demo_session))) =
  [EChdir [100]; EExec [[97]; [98]] (std (File [105] 0) (File [102] 513) e); EExec [[99]] (std Console (PipeWrite [0%nat]) e); EExec [[100]] (std (PipeRead [0%nat]) (File [103] 513) e)].
Proof.
  intros e. apply (shell_session None (Some (Inherited 1)) (Some e) demo_session). constructor; [|constructor; [|constructor]].
  - split; [vm_compute; lia|]. by repeat constructor.
  - split; [vm_compute; lia|]. split_and!; [exact demo_syntax_wf|by repeat constructor|exact demo_gaps_ok| |done].
    exists ([32; 32] ++ text (take 14 demo_gaps) (line_toks demo_syntax)). split; [reflexivity|]. by repeat constructor.
Defined.
