(* ===== verification/Mkfs.v ===== *)
(** * The disk image builder

    [src/mkfs.c], the program of the build host that makes the first disk, and what
    appending to a file does to the image; [Image] proves that the kernel can use it.

    The image file is a map from sectors to blocks; reading a sector that was never
    written fails.  A failed [assert] and [exit(1)] are [Panic].  The host is
    little-endian.  A host file is what its [read] calls return, one list of bytes for
    each call, or [None] when it cannot be opened. *)

From S2P Require Import Prelude CString Headers Bio Bytes Inode Bmap Fs Content Dir.

(** ** The program *)

Definition NINODES : Z := 200.
Definition nbitmap : Z := FSSIZE / (BSIZE * 8) + 1.
Definition ninodeblocks : Z := NINODES / IPB + 1.
Definition nlog : Z := LOGSIZE.

Record mkstate := mk_mkstate { img : gmap Z (list Z); freeinode : Z; freeblock : Z; mk_sb : superblock }.
#[export] Instance eta_mkstate : Eta mkstate := fun s => mk_mkstate (img s) (freeinode s) (freeblock s) (mk_sb s).
#[export] Instance set_img : Setter img := ltac:(mk_setter).
#[export] Instance set_freeinode : Setter freeinode := ltac:(mk_setter).
#[export] Instance set_freeblock : Setter freeblock := ltac:(mk_setter).
#[export] Instance set_mk_sb : Setter mk_sb := ltac:(mk_setter).

Definition MK := M mkstate.

(** The value whose bytes in memory are those of [x], lowest first. *)
Definition xshort (x : Z) : Z := get16 [u8 x; u8 (Z.shiftr x 8)] 0.
Definition xint (x : Z) : Z := get32 [u8 x; u8 (Z.shiftr x 8); u8 (Z.shiftr x 16); u8 (Z.shiftr x 24)] 0.

Definition wsect (sec : Z) (buf : list Z) : MK unit := modify (fun s => s <| img ::= <[sec := buf]> |>).

Definition rsect (sec : Z) : MK (list Z) :=
  let! m := gets img in
  match m !! sec with
  | Some buf => ret buf
  | None => panic "read"
  end.

Definition winode (inum : Z) (ip : dinode) : MK unit :=
  let! sb := gets mk_sb in
  let bn := IBLOCK inum sb in
  let! buf := rsect bn in
  wsect bn (put_dinode buf (dinode_off inum) ip).

Definition rinode (inum : Z) : MK dinode :=
  let! sb := gets mk_sb in
  let! buf := rsect (IBLOCK inum sb) in
  ret (get_dinode buf (dinode_off inum)).

Definition mkfs_ialloc (type : Z) : MK Z :=
  let! inum := gets freeinode in
  do! modify (fun s => s <| freeinode ::= fun i => u32 (i + 1) |>) in
  do! winode inum (mk_dinode (xshort type) 0 0 (xshort 1) (xint 0) (replicate 13 0)) in
  ret inum.

(** The bitmap with the first [used] blocks marked. *)
Definition mark_used (used : Z) : list Z :=
  foldl (fun buf i => <[Z.to_nat (i / 8) := u8 (Z.lor (byte buf (Z.to_nat (i / 8))) (Z.shiftl 1 (i mod 8)))]> buf)
    (replicate (Z.to_nat BSIZE) 0) (seqZ 0 used).

Definition mkfs_balloc (used : Z) : MK unit :=
  if negb (used <? BSIZE * 8) then panic "assert used"
  else
    let! sb := gets mk_sb in
    wsect (s_bmapstart sb) (mark_used used).

(** [freeblock++] *)
Definition new_block : MK Z :=
  let! b := gets freeblock in
  do! modify (fun s => s <| freeblock ::= fun b => u32 (b + 1) |>) in
  ret b.

Definition addr (din : dinode) (n : Z) : Z := nth (Z.to_nat n) (di_addrs din) 0.
Definition set_addr (din : dinode) (n a : Z) : dinode :=
  mk_dinode (di_type din) (di_major din) (di_minor din) (di_nlink din) (di_size din) (<[Z.to_nat n := a]> (di_addrs din)).

(** A block for entry [n] of the inode when it has none. *)
Definition fill_addr (din : dinode) (n : Z) : MK dinode :=
  if xint (addr din n) =? 0 then
    let! b := new_block in
    ret (set_addr din n (xint b))
  else ret din.

(** The sector of block [fbn] of the file, allocated when needed. *)
Definition iappend_block (din : dinode) (fbn : Z) : MK (Z * dinode) :=
  if fbn <? NDIRECT then
    let! din := fill_addr din fbn in
    ret (xint (addr din fbn), din)
  else
    let! din := fill_addr din NDIRECT in
    let o := Z.to_nat (4 * (fbn - NDIRECT)) in
    let! indirect := rsect (xint (addr din NDIRECT)) in
    let! indirect := (if get32 indirect o =? 0 then
                        let! b := new_block in
                        let indirect := set32 indirect o (xint b) in
                        do! wsect (xint (addr din NDIRECT)) indirect in
                        ret indirect
                      else ret indirect) in
    ret (xint (get32 indirect o), din).

(** One round of the loop of [iappend]: the bytes [p] go to offset [off]. *)
Definition iappend_round (st : list Z * Z * dinode) : MK ((list Z * Z * dinode) + (Z * dinode)) :=
  let '(p, off, din) := st in
  let n := Z.of_nat (length p) in
  if negb (0 <? n) then ret (inr (off, din))
  else
    let fbn := off / BSIZE in
    if negb (fbn <? MAXFILE) then panic "assert fbn"
    else
      let! '(x, din) := iappend_block din fbn in
      let n1 := Z.min n ((fbn + 1) * BSIZE - off) in
      let! buf := rsect x in
      do! wsect x (put_bytes buf (Z.to_nat (off - fbn * BSIZE)) (take (Z.to_nat n1) p)) in
      ret (inl (drop (Z.to_nat n1) p, off + n1, din)).

Definition set_dsize (din : dinode) (sz : Z) : dinode :=
  mk_dinode (di_type din) (di_major din) (di_minor din) (di_nlink din) sz (di_addrs din).

Definition iappend (inum : Z) (p : list Z) : MK unit :=
  let! din := rinode inum in
  let! '(off, din) := loop (S (length p)) iappend_round (p, xint (di_size din), din) in
  winode inum (set_dsize din (xint off)).

(** A directory entry: a number and a name padded with zeros. *)
Definition mkfs_dirent (name : list Z) (inum : Z) : list Z := le16 (xshort inum) ++ strncpy_l name DIRSIZ.

(** A file of the command line. *)
Definition hostfile : Type := list Z * option (list (list Z)).

Definition strip (name : list Z) : list Z := match name with 95 :: name' => name' | _ => name end.

(** The file is copied up to the first [read] that returns nothing. *)
Fixpoint copy_reads (inum : Z) (reads : list (list Z)) : MK unit :=
  match reads with
  | [] | [] :: _ => ret tt
  | buf :: reads => do! iappend inum buf in copy_reads inum reads
  end.

Definition add_file (rootino : Z) (f : hostfile) : MK unit :=
  let '(name, reads) := f in
  if bool_decide (47 ∈ name) then panic "assert index"
  else
    match reads with
    | None => panic "open"
    | Some reads =>
        let! inum := mkfs_ialloc T_FILE in
        do! iappend rootino (mkfs_dirent (strip name) inum) in
        copy_reads inum reads
    end.

Definition nmeta : Z := 2 + nlog + ninodeblocks + nbitmap.
Definition new_sb : superblock :=
  mk_superblock (xint FSSIZE) (xint (FSSIZE - nmeta)) (xint NINODES) (xint nlog) (xint 2) (xint (2 + nlog)) (xint (2 + nlog + ninodeblocks)).

(** The superblock in its sector. *)
Definition sb_bytes (sb : superblock) : list Z :=
  put_bytes (replicate (Z.to_nat BSIZE) 0) 0
    (concat (le32 <$> [s_size sb; s_nblocks sb; s_ninodes sb; s_nlog sb; s_logstart sb; s_inodestart sb; s_bmapstart sb])).

(** [main] up to the first inode. *)
Definition begin_image : MK unit :=
  do! modify (fun s => s <| mk_sb := new_sb |>) in
  do! modify (fun s => s <| freeblock := nmeta |>) in
  do! foreach (seqZ 0 FSSIZE) (fun i => wsect i (replicate (Z.to_nat BSIZE) 0)) in
  let! sb := gets mk_sb in
  wsect 1 (sb_bytes sb).

Definition mkfs (files : list hostfile) : MK unit :=
  do! begin_image in
  let! rootino := mkfs_ialloc T_DIR in
  if negb (rootino =? ROOTINO) then panic "assert rootino"
  else
    do! iappend rootino (mkfs_dirent [46] rootino) in
    do! iappend rootino (mkfs_dirent [46; 46] rootino) in
    do! foreach files (add_file rootino) in
    let! din := rinode rootino in
    let off := xint (di_size din) in
    let off := (off / BSIZE + 1) * BSIZE in
    do! winode rootino (set_dsize din (xint off)) in
    let! used := gets freeblock in
    mkfs_balloc used.

(** The image file is truncated; [freeinode] starts at 1. *)
Definition fresh : mkstate := mk_mkstate ∅ 1 0 (mk_superblock 0 0 0 0 0 0 0).

(** ** Integers and inodes in blocks *)

Lemma xint_id x : 0 <= x < 2 ^ 32 -> xint x = x.
Proof. intros Hx. unfold xint, get32, byte. cbn [lookup list_lookup default Nat.add]. rewrite !Z.shiftr_div_pow2 by lia. exact (split32 x Hx). Qed.

Lemma xshort_id x : 0 <= x < 2 ^ 16 -> xshort x = x.
Proof.
  intros Hx. unfold xshort, get16, byte. cbn [lookup list_lookup default Nat.add]. rewrite Z.shiftr_div_pow2 by lia. unfold u8.
  change (2 ^ 8) with 256. change (2 ^ 16) with 65536 in Hx. cbn. Z.div_mod_to_equations. lia.
Qed.

Lemma put_addrs_byte l : forall d o j, (j < o \/ o + 4 * length l <= j)%nat -> byte (put_addrs d o l) j = byte d j.
Proof. induction l as [|a l IH]; intros d o j Hj; [done|]. cbn [put_addrs length] in *. rewrite IH, byte_set32_ne by lia. done. Qed.

Lemma put_addrs_get l : forall d o j a, l !! j = Some a -> 0 <= a < 2 ^ 32 -> (o + 4 * length l <= length d)%nat -> get32 (put_addrs d o l) (o + 4 * j) = a.
Proof.
  induction l as [|b l IH]; intros d o j a Hj Ha Hd; [done|]. cbn [put_addrs length] in *. destruct j as [|j].
  - injection Hj as ->. rewrite Nat.mul_0_r, Nat.add_0_r. transitivity (get32 (set32 d o a) o); [|apply get32_set32; [lia|done]].
    unfold get32. rewrite !put_addrs_byte by lia. done.
  - replace (o + 4 * S j)%nat with (o + 4 + 4 * j)%nat by lia. apply IH; [done|done|]. rewrite set32_length. lia.
Qed.

(** An inode as [mkfs] makes it. *)
Record din_ok (di : dinode) : Prop := {
  do_type : 0 <= di_type di < 2 ^ 15; do_major : di_major di = 0; do_minor : di_minor di = 0; do_nlink : di_nlink di = 1;
  do_size : 0 <= di_size di < 2 ^ 32; do_len : length (di_addrs di) = 13%nat; do_addrs : Forall (fun a => 0 <= a < 2 ^ 32) (di_addrs di) }.

Lemma put_dinode_byte d o di j : length (di_addrs di) = 13%nat -> (j < o \/ o + 64 <= j)%nat -> byte (put_dinode d o di) j = byte d j.
Proof. intros Hl Hj. unfold put_dinode. rewrite put_addrs_byte, byte_set32_ne, !byte_set16_ne by lia. done. Qed.

Lemma get_dinode_ext d d' o : (forall j, (o <= j < o + 64)%nat -> byte d j = byte d' j) -> get_dinode d o = get_dinode d' o.
Proof.
  intros H. unfold get_dinode, get16, get32. rewrite !H by lia. f_equal. apply list_fmap_ext. intros i j Hj. apply lookup_seq in Hj as [-> Hi]. rewrite !H by lia. done.
Qed.

Lemma i16_id x : 0 <= x < 2 ^ 15 -> i16 x = x.
Proof. intros Hx. unfold i16. rewrite Z.mod_small; [lia|]. change (2 ^ 16) with (2 * 2 ^ 15). lia. Qed.

Lemma get_put_dinode d o di : din_ok di -> (o + 64 <= length d)%nat -> get_dinode (put_dinode d o di) o = di.
Proof.
  intros [H1 H2 H3 H4 H5 H6 H7] Hd. destruct di as [ty ma mi nl sz A]. cbn [di_type di_major di_minor di_nlink di_size di_addrs] in *. subst ma mi nl.
  set (e := set16 (set16 (set16 (set16 d o ty) (o + 2) 0) (o + 4) 0) (o + 6) 1).
  assert (He : length e = length d) by (unfold e; by rewrite !set16_length).
  change (put_dinode d o _) with (put_addrs (set32 e (o + 8) sz) (o + 12) A). unfold get_dinode.
  assert (G : forall j w, (j + 2 <= o + 8)%nat -> 0 <= w < 2 ^ 15 -> get16 e j = w -> i16 (get16 (put_addrs (set32 e (o + 8) sz) (o + 12) A) j) = w).
  { intros j w Hj Hw <-. unfold get16. rewrite !put_addrs_byte, !byte_set32_ne by lia. by apply i16_id. }
  f_equal; try (apply G; [lia|lia|unfold e]).
  - rewrite !get16_set16_ne by lia. apply get16_set16; [lia|]. lia.
  - rewrite !get16_set16_ne by lia. apply get16_set16; rewrite ?set16_length; lia.
  - rewrite !get16_set16_ne by lia. apply get16_set16; rewrite ?set16_length; lia.
  - apply get16_set16; rewrite ?set16_length; lia.
  - transitivity (get32 (set32 e (o + 8) sz) (o + 8)); [|apply get32_set32; [lia|done]]. unfold get32. rewrite !put_addrs_byte by lia. done.
  - apply list_eq. intros j. rewrite list_lookup_fmap. destruct (decide (j < 13)%nat) as [Hj|Hj].
    + rewrite lookup_seq_lt by done. cbn [fmap option_fmap option_map]. destruct (lookup_lt_is_Some_2 A j ltac:(lia)) as [a Ha]. rewrite Ha. f_equal.
      rewrite Forall_lookup in H7. apply put_addrs_get; [done|by eapply H7|]. rewrite set32_length. lia.
    + rewrite !lookup_ge_None_2 by (rewrite ?length_seq; lia). done.
Qed.

(** ** Block maps on the image *)

Lemma nmeta_eq : nmeta = 46.
Proof. reflexivity. Qed.

Implicit Types (m : gmap Z (list Z)) (A : list Z).

(** Block [n] and the byte at offset [o] of the file whose inode has the addresses
    [A]; the kernel's [fblock] and [fbyte] on the image. *)
Definition mblock m A (n : Z) : Z :=
  if n <? NDIRECT then nth (Z.to_nat n) A 0
  else if nth 12 A 0 =? 0 then 0
  else match m !! nth 12 A 0 with Some d => get32 d (Z.to_nat (4 * (n - NDIRECT))) | None => 0 end.
Definition mbyte m A (o : Z) : Z := byte (default [] (m !! mblock m A (o / BSIZE))) (Z.to_nat (o mod BSIZE)).

(** The file has the first [nb] of its blocks, all below [hi], and the bytes [C], then
    zeros. *)
Record mapped m A (hi nb : Z) (C : list Z) : Prop := {
  mp_len : length A = 13%nat;
  mp_nb : 0 <= nb <= MAXFILE;
  mp_size : Z.of_nat (length C) <= nb * BSIZE;
  mp_blk : forall n, 0 <= n < nb -> nmeta <= mblock m A n < hi;
  mp_none : forall n, nb <= n < MAXFILE -> mblock m A n = 0;
  mp_ind : nth 12 A 0 = 0 /\ nb <= NDIRECT \/ NDIRECT <= nb /\ nmeta <= nth 12 A 0 < hi;
  mp_ind_ne : forall n, 0 <= n < nb -> mblock m A n <> nth 12 A 0;
  mp_inj : forall i j, 0 <= i < nb -> 0 <= j < nb -> mblock m A i = mblock m A j -> i = j;
  mp_byte : forall o, 0 <= o < nb * BSIZE -> mbyte m A o = byte C (Z.to_nat o) }.

(** The sectors are there, and those from [fb] on are not used yet. *)
Record room m (fb : Z) : Prop := {
  rm_range : nmeta <= fb <= FSSIZE;
  rm_dom : forall b, 0 <= b < FSSIZE -> exists d, m !! b = Some d /\ length d = Z.to_nat BSIZE;
  rm_zero : forall b, fb <= b < FSSIZE -> m !! b = Some (replicate (Z.to_nat BSIZE) 0) }.

(** The blocks of the file. *)
Definition owned m A (b : Z) : Prop := b <> 0 /\ (b = nth 12 A 0 \/ exists n, 0 <= n < MAXFILE /\ mblock m A n = b).

Lemma owned_range m A hi nb C b : mapped m A hi nb C -> owned m A b -> nmeta <= b < hi.
Proof.
  intros [M1 M2 M3 M4 M5 M6 M7 M8 M9] [Hb [->|(n & Hn & <-)]]; [destruct M6 as [[? _]|[_ ?]]; [done|lia]|].
  destruct (decide (n < nb)) as [|Hge]; [by apply M4; lia|]. rewrite M5 in Hb by lia. done.
Qed.

Lemma mblock_ext m m' A n : (nth 12 A 0 <> 0 -> m' !! nth 12 A 0 = m !! nth 12 A 0) -> mblock m' A n = mblock m A n.
Proof. intros H. unfold mblock. destruct (n <? NDIRECT); [done|]. destruct (Z.eqb_spec (nth 12 A 0) 0); [done|]. by rewrite H. Qed.

(** A file is as before when its blocks are. *)
Lemma mapped_frame m m' A hi hi' nb C : mapped m A hi nb C -> hi <= hi' -> (forall b, owned m A b -> m' !! b = m !! b) -> mapped m' A hi' nb C.
Proof.
  intros HM Hhi Hf. pose proof HM as [M1 M2 M3 M4 M5 M6 M7 M8 M9].
  assert (Hb : forall n, mblock m' A n = mblock m A n) by (intros n; apply mblock_ext; intros H0; apply Hf; split; [done|by left]).
  split; try done; intros; rewrite ?Hb in *; auto.
  - specialize (M4 n ltac:(done)). lia.
  - destruct M6 as [?|[? ?]]; [by left|right; lia].
  - rewrite <- M9 by done. unfold mbyte. rewrite Hb, Hf; [done|]. assert (0 <= o / BSIZE < nb) by (split; [apply Z.div_pos; unfold BSIZE; lia|apply Z.div_lt_upper_bound; unfold BSIZE in *; lia]).
    specialize (M4 _ H0). rewrite nmeta_eq in M4. split; [lia|]. right. exists (o / BSIZE). split; [lia|done].
Qed.

Lemma owned_frame m m' A b : (forall c, owned m A c -> m' !! c = m !! c) -> owned m' A b -> owned m A b.
Proof.
  intros Hf [Hb H]. split; [done|]. destruct H as [H|(n & Hn & H)]; [by left|right]. exists n. split; [done|]. rewrite <- H. symmetry. apply mblock_ext. intros H0. apply Hf. split; [done|by left].
Qed.

(** Blocks taken for [n] blocks of data. *)
Definition cost (n : Z) : Z := n + (if NDIRECT <? n then 1 else 0).

Lemma cost_mono i j : i <= j -> cost i <= cost j.
Proof. unfold cost. intros. destruct (Z.ltb_spec NDIRECT i), (Z.ltb_spec NDIRECT j); lia. Qed.

Lemma nth_insert_eq (l : list Z) i a : (i < length l)%nat -> nth i (<[i := a]> l) 0 = a.
Proof. intros. rewrite nth_insert by done. by rewrite decide_True. Qed.

Lemma byte_zeros n o : byte (replicate n 0) o = 0.
Proof. unfold byte. destruct (replicate n 0 !! o) as [z|] eqn:E; [|done]. by apply lookup_replicate in E as [-> _]. Qed.

(** ** Allocating a block *)

Lemma room_less m fb : room m fb -> fb < FSSIZE -> room m (fb + 1).
Proof. intros [R1 R2 R3] Hl. split; [lia|done|]. intros b Hb. apply R3. lia. Qed.

Lemma room_insert m fb b d : room m fb -> b < fb -> length d = Z.to_nat BSIZE -> room (<[b := d]> m) fb.
Proof.
  intros [R1 R2 R3] Hb Hd. split; [done| |].
  - intros c Hc. destruct (decide (b = c)) as [->|]; [exists d; by rewrite lookup_insert_eq|]. rewrite lookup_insert_ne by done. auto.
  - intros c Hc. rewrite lookup_insert_ne by lia. auto.
Qed.

(** The bytes of the file when its next block is a fresh one. *)
Lemma mbyte_new m m' A A' fb nb C : mapped m A fb nb C -> room m fb -> fb < FSSIZE ->
  (forall n, 0 <= n < nb -> mblock m' A' n = mblock m A n /\ m' !! mblock m A n = m !! mblock m A n) -> mblock m' A' nb = fb -> m' !! fb = m !! fb ->
  forall o, 0 <= o < (nb + 1) * BSIZE -> mbyte m' A' o = byte C (Z.to_nat o).
Proof.
  intros HM HR Hfb Hold Hnew Hfresh o Ho. unfold mbyte. assert (Hd : 0 <= o / BSIZE <= nb) by (unfold BSIZE in *; Z.div_mod_to_equations; lia).
  destruct (decide (o / BSIZE = nb)) as [E|E].
  - rewrite E, Hnew, Hfresh, (rm_zero _ _ HR) by (pose proof (rm_range _ _ HR); lia). change (default [] (Some ?z)) with z. rewrite byte_zeros. unfold byte. rewrite lookup_ge_None_2; [done|].
    pose proof (mp_size _ _ _ _ _ HM). unfold BSIZE in *. Z.div_mod_to_equations. lia.
  - destruct (Hold (o / BSIZE) ltac:(lia)) as [-> ->]. apply (mp_byte _ _ _ _ _ HM). unfold BSIZE in *. Z.div_mod_to_equations. lia.
Qed.

Lemma alloc_direct m A fb nb C : mapped m A fb nb C -> room m fb -> fb < FSSIZE -> nb < NDIRECT ->
  let A' := <[Z.to_nat nb := fb]> A in
  mapped m A' (fb + 1) (nb + 1) C /\ mblock m A' nb = fb /\ forall n, 0 <= n < MAXFILE -> mblock m A' n = mblock m A n \/ mblock m A' n = fb.
Proof.
  intros HM HR Hfb Hnb A'. unfold A'. pose proof HM as [M1 M2 M3 M4 M5 M6 M7 M8 M9]. change NDIRECT with 12 in *. pose proof (rm_range _ _ HR) as Hr. rewrite nmeta_eq in *.
  assert (Hi : nth 12 A 0 = 0) by (destruct M6; lia). assert (Hi' : nth 12 (<[Z.to_nat nb := fb]> A) 0 = 0) by (rewrite nth_insert by lia; rewrite decide_False by lia; done).
  assert (Hm : forall n, 0 <= n -> mblock m (<[Z.to_nat nb := fb]> A) n = if decide (n = nb) then fb else mblock m A n).
  { intros n Hn. unfold mblock. rewrite Hi, Hi'. change NDIRECT with 12. destruct (Z.ltb_spec n 12); [|by rewrite decide_False by lia]. rewrite nth_insert by lia. repeat case_decide; try lia; done. }
  assert (Hnew : mblock m (<[Z.to_nat nb := fb]> A) nb = fb) by (rewrite Hm by lia; by rewrite decide_True). split; [|split; [done|intros n Hn; rewrite Hm by lia; case_decide; auto]].
  assert (Hlt : forall n, 0 <= n < nb -> mblock m A n < fb) by (intros; by apply M4).
  split; rewrite ?nmeta_eq.
  - by rewrite length_insert.
  - change MAXFILE with 268. lia.
  - unfold BSIZE in *. lia.
  - intros n Hn. rewrite Hm by lia. case_decide; [lia|]. specialize (M4 n ltac:(lia)). lia.
  - intros n Hn. rewrite Hm by lia. rewrite decide_False by lia. apply M5. lia.
  - left. change NDIRECT with 12. lia.
  - intros n Hn. rewrite Hm, Hi' by lia. case_decide; [lia|]. specialize (M4 n ltac:(lia)). lia.
  - intros i j Hi1 Hj. rewrite !Hm by lia. pose proof (Hlt i). pose proof (Hlt j). repeat case_decide; intros E; try lia. apply M8; lia.
  - apply (mbyte_new m m A _ fb nb C HM HR Hfb); [|done|done]. intros n Hn. rewrite Hm by lia. by rewrite decide_False by lia.
Qed.

Lemma alloc_ind m A fb nb C : mapped m A fb nb C -> room m fb -> fb < FSSIZE -> NDIRECT <= nb -> nth 12 A 0 = 0 ->
  mapped m (<[12%nat := fb]> A) (fb + 1) nb C /\ forall n, 0 <= n < MAXFILE -> mblock m (<[12%nat := fb]> A) n = mblock m A n.
Proof.
  intros HM HR Hfb Hnb H0. pose proof HM as [M1 M2 M3 M4 M5 M6 M7 M8 M9]. pose proof (rm_range _ _ HR) as Hr. rewrite nmeta_eq in *. change NDIRECT with 12 in *.
  assert (Enb : nb = 12) by (destruct M6; lia). subst nb. assert (Hi : nth 12 (<[12%nat := fb]> A) 0 = fb) by (apply nth_insert_eq; lia).
  assert (Hm : forall n, 0 <= n < MAXFILE -> mblock m (<[12%nat := fb]> A) n = mblock m A n).
  { intros n Hn. unfold mblock. rewrite H0, Hi. change NDIRECT with 12. destruct (Z.ltb_spec n 12).
    - rewrite nth_insert by lia. by rewrite decide_False by lia.
    - rewrite (proj2 (Z.eqb_neq fb 0)), (rm_zero _ _ HR) by lia. apply get32_zeros. }
  split; [|done]. split; rewrite ?nmeta_eq, ?Hi; try done.
  - by rewrite length_insert.
  - intros n Hn. rewrite Hm by lia. specialize (M4 n Hn). lia.
  - intros n Hn. rewrite Hm by lia. by apply M5.
  - right. change NDIRECT with 12. lia.
  - intros n Hn. rewrite Hm by lia. specialize (M4 n Hn). lia.
  - intros i j Hi1 Hj. rewrite !Hm by lia. by apply M8.
  - intros o Ho. unfold mbyte. rewrite Hm; [by apply M9|]. change MAXFILE with 268. unfold BSIZE in *. Z.div_mod_to_equations. lia.
Qed.

Lemma alloc_entry m A fb nb C d : mapped m A fb nb C -> room m fb -> fb < FSSIZE -> NDIRECT <= nb < MAXFILE -> nth 12 A 0 <> 0 -> m !! nth 12 A 0 = Some d ->
  let o := Z.to_nat (4 * (nb - NDIRECT)) in let m' := <[nth 12 A 0 := set32 d o fb]> m in
  get32 d o = 0 /\ mapped m' A (fb + 1) (nb + 1) C /\ mblock m' A nb = fb /\ length d = Z.to_nat BSIZE /\
  forall n, 0 <= n < MAXFILE -> mblock m' A n = mblock m A n \/ mblock m' A n = fb.
Proof.
  intros HM HR Hfb Hnb H0 Hd o m'. pose proof HM as [M1 M2 M3 M4 M5 M6 M7 M8 M9]. pose proof (rm_range _ _ HR) as Hr. rewrite nmeta_eq in *. change NDIRECT with 12 in *. change MAXFILE with 268 in *.
  assert (Hx : 46 <= nth 12 A 0 < fb) by (destruct M6; lia). destruct (rm_dom _ _ HR (nth 12 A 0) ltac:(lia)) as (d' & Hd' & Hl). rewrite Hd in Hd'. injection Hd' as <-.
  assert (Hg : forall n, 12 <= n < 268 -> mblock m A n = get32 d (Z.to_nat (4 * (n - 12)))).
  { intros n Hn. unfold mblock. change NDIRECT with 12. rewrite (proj2 (Z.ltb_ge n 12)), (proj2 (Z.eqb_neq _ 0)), Hd by (done || lia). done. }
  assert (Hm : forall n, 0 <= n < 268 -> mblock m' A n = if decide (n = nb) then fb else mblock m A n).
  { intros n Hn. destruct (decide (n < 12)) as [Hs|Hs]; [unfold mblock; change NDIRECT with 12; rewrite (proj2 (Z.ltb_lt n 12)) by done; by rewrite decide_False by lia|].
    rewrite Hg by lia. unfold mblock, m'. change NDIRECT with 12. rewrite (proj2 (Z.ltb_ge n 12)), (proj2 (Z.eqb_neq _ 0)), lookup_insert_eq by (done || lia). case_decide as E.
    - subst n. apply get32_set32; [unfold o; rewrite Hl; unfold BSIZE; lia|unfold FSSIZE in *; lia].
    - apply get32_set32_ne. unfold o. lia. }
  assert (Hnew : mblock m' A nb = fb) by (rewrite Hm by lia; by rewrite decide_True). split_and!; [transitivity (mblock m A nb); [symmetry; apply Hg; lia|apply M5; lia]| |done|done|intros n Hn; rewrite Hm by done; case_decide; auto].
  assert (Hlt : forall n, 0 <= n < nb -> mblock m A n < fb) by (intros; by apply M4).
  split; rewrite ?nmeta_eq; change NDIRECT with 12; change MAXFILE with 268.
  - done.
  - lia.
  - unfold BSIZE in *. lia.
  - intros n Hn. rewrite Hm by lia. case_decide; [lia|]. specialize (M4 n ltac:(lia)). lia.
  - intros n Hn. rewrite Hm by lia. rewrite decide_False by lia. apply M5. lia.
  - right. lia.
  - intros n Hn. rewrite Hm by lia. case_decide; [lia|]. apply M7. lia.
  - intros i j Hi1 Hj. rewrite !Hm by lia. pose proof (Hlt i). pose proof (Hlt j). repeat case_decide; intros E; try lia. apply M8; lia.
  - apply (mbyte_new m m' A A fb nb C HM HR Hfb); [|done|unfold m'; by rewrite lookup_insert_ne by lia]. intros n Hn. rewrite Hm by lia. rewrite decide_False by lia. split; [done|].
    unfold m'. rewrite lookup_insert_ne; [done|]. intros E. by apply (M7 n).
Qed.

Definition set_addrs (din : dinode) A : dinode := mk_dinode (di_type din) (di_major din) (di_minor din) (di_nlink din) (di_size din) A.

Lemma set_addrs_id din : set_addrs din (di_addrs din) = din.
Proof. by destruct din. Qed.

Lemma fill_old s din n : 0 < addr din n < 2 ^ 32 -> fill_addr din n s = Ret din s.
Proof. intros H. unfold fill_addr. rewrite xint_id, (proj2 (Z.eqb_neq _ 0)) by lia. done. Qed.

Lemma fill_new s din n : addr din n = 0 -> 0 <= freeblock s < FSSIZE ->
  fill_addr din n s = Ret (set_addrs din (<[Z.to_nat n := freeblock s]> (di_addrs din))) (s <| freeblock := freeblock s + 1 |>).
Proof.
  intros H Hf. unfold fill_addr. rewrite H. change (xint 0 =? 0) with true. cbv iota. unfold new_block, bind, gets, modify, bindO, ret. change FSSIZE with 1000 in *. rewrite xint_id by lia.
  unfold set, set_freeblock. cbn. unfold u32. rewrite Z.mod_small by lia. done.
Qed.

Lemma rsect_run s b d : img s !! b = Some d -> rsect b s = Ret d s.
Proof. intros H. unfold rsect, bind, gets, bindO. by rewrite H. Qed.

(** What [iappend_block] does to the image [m] with the free blocks from [fb] on. *)
Record block_done m A (fb nb fbn : Z) (C : list Z) m' A' (fb' : Z) : Prop := {
  bd_room : room m' fb';
  bd_map : mapped m' A' fb' (fbn + 1) C;
  bd_fb : fb <= fb' <= fb + cost (fbn + 1) - cost nb;
  bd_same : forall b, b < fb -> ~ owned m A b -> m' !! b = m !! b;
  bd_own : forall b, owned m' A' b -> owned m A b \/ fb <= b < fb' }.

Lemma own_step m A m' A' fb fb' : nth 12 A' 0 = nth 12 A 0 \/ fb <= nth 12 A' 0 < fb' -> (forall n, 0 <= n < MAXFILE -> mblock m' A' n = mblock m A n \/ fb <= mblock m' A' n < fb') ->
  forall b, owned m' A' b -> owned m A b \/ fb <= b < fb'.
Proof.
  intros Hi Hm b [Hb [->|(n & Hn & <-)]]; [destruct Hi as [E|Hi]; [left; rewrite E in *; split; [done|by left]|by right]|].
  destruct (Hm n Hn) as [E|E]; [left|by right]. rewrite E in *. split; [done|]. right. by exists n.
Qed.

Lemma block_old m A fb nb fbn C : mapped m A fb nb C -> room m fb -> fbn + 1 = nb -> block_done m A fb nb fbn C m A fb.
Proof. intros HM HR E. subst nb. split; [done|done|lia|done|by left]. Qed.

Lemma block_direct m A fb fbn C : mapped m A fb fbn C -> room m fb -> fb < FSSIZE -> 0 <= fbn < NDIRECT -> block_done m A fb fbn fbn C m (<[Z.to_nat fbn := fb]> A) (fb + 1).
Proof.
  intros HM HR Hfb Hn. destruct (alloc_direct m A fb fbn C HM HR Hfb ltac:(lia)) as (H1 & H2 & H3). split; [by apply room_less|done| |done|].
  - unfold cost. change NDIRECT with 12 in *. rewrite (proj2 (Z.ltb_ge 12 (fbn + 1))), (proj2 (Z.ltb_ge 12 fbn)) by lia. lia.
  - apply own_step; [left; rewrite nth_insert by (rewrite (mp_len _ _ _ _ _ HM); change NDIRECT with 12 in *; lia); change NDIRECT with 12 in *; by rewrite decide_False by lia|].
    intros n Hn'. destruct (H3 n Hn') as [->| ->]; [by left|right; lia].
Qed.

Lemma block_entry m A fb fbn C d : mapped m A fb fbn C -> room m fb -> fb < FSSIZE -> NDIRECT <= fbn < MAXFILE -> nth 12 A 0 <> 0 -> m !! nth 12 A 0 = Some d ->
  mapped (<[nth 12 A 0 := set32 d (Z.to_nat (4 * (fbn - NDIRECT))) fb]> m) A (fb + 1) (fbn + 1) C /\
  room (<[nth 12 A 0 := set32 d (Z.to_nat (4 * (fbn - NDIRECT))) fb]> m) (fb + 1) /\
  (forall b, b <> nth 12 A 0 -> <[nth 12 A 0 := set32 d (Z.to_nat (4 * (fbn - NDIRECT))) fb]> m !! b = m !! b) /\
  (forall b, owned (<[nth 12 A 0 := set32 d (Z.to_nat (4 * (fbn - NDIRECT))) fb]> m) A b -> owned m A b \/ fb <= b < fb + 1).
Proof.
  intros HM HR Hfb Hn H0 Hd. destruct (alloc_entry m A fb fbn C d HM HR Hfb Hn H0 Hd) as (_ & H2 & _ & H3 & H4). split_and!; [done| | |].
  - apply room_insert; [by apply room_less| |by rewrite set32_length]. destruct (mp_ind _ _ _ _ _ HM) as [[? _]|[_ ?]]; [done|lia].
  - intros b Hb. by rewrite lookup_insert_ne by done.
  - apply own_step; [by left|]. intros n Hn'. destruct (H4 n Hn') as [->| ->]; [by left|right; lia].
Qed.

Ltac consts := change NDIRECT with 12 in *; change MAXFILE with 268 in *; change FSSIZE with 1000 in *; change nmeta with 46 in *; change BSIZE with 1024 in *.

Lemma cost_step n : cost (n + 1) - cost n = if decide (n = 12) then 2 else 1.
Proof. unfold cost. consts. destruct (Z.ltb_spec 12 (n + 1)), (Z.ltb_spec 12 n); case_decide; lia. Qed.

Lemma mapped_ind m A hi nb C : mapped m A hi nb C -> nth 12 A 0 <> 0 -> nmeta <= nth 12 A 0 < hi.
Proof. intros HM H0. by destruct (mp_ind _ _ _ _ _ HM) as [[? _]|[_ ?]]. Qed.

Lemma direct_run s din fbn nb C : let m := img s in let A := di_addrs din in let fb := freeblock s in
  room m fb -> mapped m A fb nb C -> 0 <= fbn < NDIRECT -> fbn = nb \/ fbn + 1 = nb -> fb + cost (fbn + 1) - cost nb <= FSSIZE ->
  exists A' fb', iappend_block din fbn s = Ret (mblock m A' fbn, set_addrs din A') (s <| img := m |> <| freeblock := fb' |>) /\ block_done m A fb nb fbn C m A' fb'.
Proof.
  intros m A fb HR HM Hn Hcase Hfit. pose proof (rm_range _ _ HR) as Hr. unfold iappend_block. rewrite (proj2 (Z.ltb_lt fbn NDIRECT)) by lia.
  assert (Ea : addr din fbn = mblock m A fbn) by (unfold mblock; by rewrite (proj2 (Z.ltb_lt fbn NDIRECT)) by lia). pose proof (mp_len _ _ _ _ _ HM) as HA. consts. destruct Hcase as [->|E].
  - pose proof (cost_step nb) as Hc. rewrite decide_False in Hc by lia. rewrite (mp_none _ _ _ _ _ HM) in Ea by (consts; lia). assert (Hfb : fb < FSSIZE) by (consts; lia).
    exists (<[Z.to_nat nb := fb]> A), (fb + 1). split; [|by apply block_direct].
    rewrite (bind_run _ _ _ _ _ (fill_new s din nb Ea ltac:(fold fb; lia))). destruct (alloc_direct m A fb nb C HM HR Hfb ltac:(consts; lia)) as (_ & -> & _).
    unfold addr, set_addrs. cbn [di_addrs]. rewrite nth_insert_eq by (fold A; lia). fold fb. rewrite xint_id by lia. by destruct s.
  - exists A, fb. split; [|by apply block_old]. pose proof (mp_blk _ _ _ _ _ HM fbn ltac:(lia)) as Hb. consts. rewrite (bind_run _ _ _ _ _ (fill_old s din fbn ltac:(lia))).
    rewrite Ea, xint_id by lia. unfold A, m, fb. rewrite set_addrs_id. by destruct s.
Qed.

(** The indirect block is there after [fill_addr]. *)
Lemma fill_ind s din nb C : let m := img s in let A := di_addrs din in let fb := freeblock s in
  room m fb -> mapped m A fb nb C -> NDIRECT <= nb -> fb + cost (nb + 1) - cost nb <= FSSIZE ->
  exists A1 fb1, fill_addr din NDIRECT s = Ret (set_addrs din A1) (s <| freeblock := fb1 |>) /\ mapped m A1 fb1 nb C /\ room m fb1 /\ nth 12 A1 0 <> 0 /\
    fb <= fb1 /\ fb1 + 1 <= fb + cost (nb + 1) - cost nb /\ (forall b, owned m A1 b -> owned m A b \/ fb <= b < fb1) /\ (nth 12 A1 0 = nth 12 A 0 \/ nth 12 A1 0 = fb).
Proof.
  intros m A fb HR HM Hnb Hfit. pose proof (rm_range _ _ HR) as Hr. pose proof (mp_len _ _ _ _ _ HM) as HA. pose proof (cost_step nb) as Hc. destruct (Z.eq_dec (nth 12 A 0) 0) as [E0|E0].
  - assert (nb = 12) by (destruct (mp_ind _ _ _ _ _ HM); consts; lia). subst nb. rewrite decide_True in Hc by done. assert (Hfb : fb < FSSIZE) by (consts; lia).
    destruct (alloc_ind m A fb 12 C HM HR Hfb Hnb E0) as [H1 H2]. exists (<[12%nat := fb]> A), (fb + 1). assert (Hx : nth 12 (<[12%nat := fb]> A) 0 = fb) by (apply nth_insert_eq; lia). rewrite Hx.
    split_and!; [exact (fill_new s din 12 E0 ltac:(fold fb; consts; lia))|done|by apply room_less|consts; lia|lia|lia| |by right]. apply own_step; [right; lia|]. intros n Hn'. left. by apply H2.
  - pose proof (mapped_ind _ _ _ _ _ HM E0) as Hi. exists A, fb. split_and!; [|done|done|done|lia|case_decide; lia|by left|by left].
    rewrite (fill_old s din NDIRECT); [unfold A; rewrite set_addrs_id; by destruct s|]. change (addr din NDIRECT) with (nth 12 A 0). consts. lia.
Qed.

Lemma indirect_new s din nb C : let m := img s in let A := di_addrs din in let fb := freeblock s in
  room m fb -> mapped m A fb nb C -> NDIRECT <= nb < MAXFILE -> fb + cost (nb + 1) - cost nb <= FSSIZE ->
  exists m' A' fb', iappend_block din nb s = Ret (mblock m' A' nb, set_addrs din A') (s <| img := m' |> <| freeblock := fb' |>) /\ block_done m A fb nb nb C m' A' fb'.
Proof.
  intros m A fb HR HM Hn Hfit. unfold iappend_block. rewrite (proj2 (Z.ltb_ge nb NDIRECT)) by lia.
  destruct (fill_ind s din nb C HR HM ltac:(lia) Hfit) as (A1 & fb1 & E1 & HM1 & HR1 & Hi1 & Hle & Hc1 & Ho1 & Hor). rewrite (bind_run _ _ _ _ _ E1).
  pose proof (rm_range _ _ HR1) as Hr1. pose proof (mapped_ind _ _ _ _ _ HM1 Hi1) as HX. assert (Hfb1 : fb1 < FSSIZE) by lia.
  destruct (rm_dom _ _ HR1 (nth 12 A1 0) ltac:(consts; lia)) as (d & Hd & Hld). change (addr (set_addrs din A1) NDIRECT) with (nth 12 A1 0). rewrite xint_id by (consts; lia).
  erewrite bind_run; [|apply rsect_run; exact Hd].
  destruct (alloc_entry m A1 fb1 nb C d HM1 HR1 Hfb1 Hn Hi1 Hd) as (H0 & _ & Hb & _ & _). destruct (block_entry m A1 fb1 nb C d HM1 HR1 Hfb1 Hn Hi1 Hd) as (H2 & H3 & H4 & H5).
  rewrite H0. change (0 =? 0) with true. cbv iota. set (o := Z.to_nat (4 * (nb - NDIRECT))) in *. set (X := nth 12 A1 0) in *. set (m' := <[X := set32 d o fb1]> m) in *. exists m', A1, (fb1 + 1). split.
  - assert (Hg : get32 (set32 d o fb1) o = fb1) by (apply get32_set32; [unfold o; rewrite Hld|]; consts; lia).
    unfold new_block, wsect, bind, gets, modify, bindO, ret, set, set_freeblock, set_img. cbn [freeblock img freeinode mk_sb]. rewrite (xint_id fb1), Hg, Hb, (xint_id fb1) by (consts; lia). unfold u32. rewrite Z.mod_small by (consts; lia). done.
  - split; [done|done|lia| |].
    + intros b Hb1 Hb2. apply H4. destruct Hor as [Hor|Hor]; rewrite Hor; [|lia]. intros ->. apply Hb2. split; [congruence|by left].
    + intros b Hb1. destruct (H5 b Hb1) as [Hb2|Hb2]; [|right; lia]. destruct (Ho1 b Hb2) as [|]; [by left|right; lia].
Qed.

Lemma indirect_old s din fbn C : let m := img s in let A := di_addrs din in let fb := freeblock s in
  room m fb -> mapped m A fb (fbn + 1) C -> NDIRECT <= fbn < MAXFILE -> iappend_block din fbn s = Ret (mblock m A fbn, set_addrs din A) (s <| img := m |> <| freeblock := fb |>).
Proof.
  intros m A fb HR HM Hn. pose proof (rm_range _ _ HR) as Hr. assert (Hi0 : nth 12 A 0 <> 0) by (destruct (mp_ind _ _ _ _ _ HM); consts; lia). pose proof (mapped_ind _ _ _ _ _ HM Hi0) as Hi.
  unfold iappend_block. rewrite (proj2 (Z.ltb_ge fbn NDIRECT)) by lia. rewrite (bind_run _ _ _ _ _ (fill_old s din NDIRECT ltac:(change (addr din NDIRECT) with (nth 12 A 0); consts; lia))).
  change (addr din NDIRECT) with (nth 12 A 0). rewrite xint_id by (consts; lia). destruct (rm_dom _ _ HR (nth 12 A 0) ltac:(consts; lia)) as (d & Hd & Hld). rewrite (bind_run _ _ _ _ _ (rsect_run s (nth 12 A 0) d Hd)).
  assert (Eg : mblock m A fbn = get32 d (Z.to_nat (4 * (fbn - NDIRECT)))) by (unfold mblock; rewrite (proj2 (Z.ltb_ge fbn NDIRECT)), (proj2 (Z.eqb_neq _ 0)), Hd by (done || lia); done).
  pose proof (mp_blk _ _ _ _ _ HM fbn ltac:(consts; lia)) as Hb. rewrite Eg in Hb. rewrite (proj2 (Z.eqb_neq (get32 d _) 0)) by (consts; lia). unfold bind, ret, bindO. rewrite Eg, xint_id by (consts; lia). unfold A, m, fb. rewrite set_addrs_id. by destruct s.
Qed.

Lemma iappend_block_run s din fbn nb C : let m := img s in let A := di_addrs din in let fb := freeblock s in
  room m fb -> mapped m A fb nb C -> 0 <= fbn < MAXFILE -> fbn = nb \/ fbn + 1 = nb -> fb + cost (fbn + 1) - cost nb <= FSSIZE ->
  exists m' A' fb', iappend_block din fbn s = Ret (mblock m' A' fbn, set_addrs din A') (s <| img := m' |> <| freeblock := fb' |>) /\ block_done m A fb nb fbn C m' A' fb'.
Proof.
  intros m A fb HR HM Hn Hcase Hfit. destruct (decide (fbn < NDIRECT)) as [Hlt|Hge].
  - destruct (direct_run s din fbn nb C HR HM ltac:(lia) Hcase Hfit) as (A' & fb' & H). exists m, A', fb'. exact H.
  - destruct Hcase as [->|E].
    + apply indirect_new; done || lia.
    + exists m, A, fb. split; [|by apply block_old]. apply (indirect_old s din fbn C HR); [by rewrite E|lia].
Qed.

(** ** Appending *)

Definition nblk (n : Z) : Z := (n + BSIZE - 1) / BSIZE.
Definition len (C : list Z) : Z := Z.of_nat (length C).

Lemma write_bytes m A fb nb C buf x fbn c : mapped m A fb nb C -> room m fb -> fbn = len C / BSIZE -> fbn + 1 = nb -> len C + len c <= nb * BSIZE ->
  x = mblock m A fbn -> m !! x = Some buf ->
  let m' := <[x := put_bytes buf (Z.to_nat (len C - fbn * BSIZE)) c]> m in mapped m' A fb nb (C ++ c) /\ forall n, mblock m' A n = mblock m A n.
Proof.
  intros HM HR Ef En Hl Ex Hx m'. pose proof HM as [M1 M2 M3 M4 M5 M6 M7 M8 M9]. unfold len in *. assert (Hfr : 0 <= fbn < nb) by (consts; Z.div_mod_to_equations; lia).
  pose proof (M4 fbn Hfr) as Hxr. rewrite <- Ex in Hxr. pose proof (rm_range _ _ HR). destruct (rm_dom _ _ HR x ltac:(consts; lia)) as (buf' & Hb' & Hlb). rewrite Hx in Hb'. injection Hb' as <-.
  assert (Hi : nth 12 A 0 <> x) by (intros E; apply (M7 fbn Hfr); congruence).
  assert (Hm : forall n, mblock m' A n = mblock m A n) by (intros n; apply mblock_ext; intros _; unfold m'; by rewrite lookup_insert_ne by done).
  split; [|done]. split; try done.
  - rewrite length_app. lia.
  - intros n Hn. rewrite Hm. by apply M4.
  - intros n Hn. rewrite Hm. by apply M5.
  - intros n Hn. rewrite Hm. by apply M7.
  - intros i j Hi1 Hj. rewrite !Hm. by apply M8.
  - intros o Ho. unfold mbyte. rewrite Hm. destruct (decide (o / BSIZE = fbn)) as [E|E].
    + rewrite E, <- Ex. unfold m'. rewrite lookup_insert_eq. change (default [] (Some ?z)) with z.
      assert (Hoff : 0 <= Z.of_nat (length C) - fbn * BSIZE < BSIZE) by (consts; Z.div_mod_to_equations; lia). assert (Hfit : Z.of_nat (length c) <= BSIZE - (Z.of_nat (length C) - fbn * BSIZE)) by (consts; lia).
      rewrite byte_put_bytes by (rewrite Hlb; consts; lia). specialize (M9 o Ho). unfold mbyte in M9. rewrite E, <- Ex, Hx in M9. change (default [] (Some buf)) with buf in M9. unfold byte in *.
      assert (Eo : o mod BSIZE = o - fbn * BSIZE /\ 0 <= o - fbn * BSIZE < BSIZE) by (consts; Z.div_mod_to_equations; lia). destruct Eo as [Eo Hob]. rewrite Eo in *. case_decide as Hd.
      * rewrite lookup_app_r by (consts; lia). do 2 f_equal. consts. lia.
      * rewrite M9. destruct (decide (Z.to_nat o < length C)%nat); [by rewrite lookup_app_l by done|]. rewrite !lookup_ge_None_2 by (rewrite ?length_app; consts; lia). done.
    + assert (Hor : 0 <= o / BSIZE < fbn) by (consts; Z.div_mod_to_equations; lia). unfold m'. rewrite lookup_insert_ne by (intros Ec; apply E; apply M8; [lia|lia|congruence]).
      specialize (M9 o Ho). unfold mbyte in M9. rewrite M9. unfold byte. rewrite lookup_app_l; [done|]. consts. Z.div_mod_to_equations. lia.
Qed.

Record grown m A (fb : Z) m' A' (fb' : Z) (C : list Z) : Prop := {
  gr_room : room m' fb';
  gr_map : mapped m' A' fb' (nblk (len C)) C;
  gr_same : forall b, b < fb -> ~ owned m A b -> m' !! b = m !! b;
  gr_own : forall b, owned m' A' b -> owned m A b \/ fb <= b < fb';
  gr_fb : fb <= fb' }.

Lemma mapped_owns m A fb nb C n : mapped m A fb nb C -> 0 <= n < nb -> owned m A (mblock m A n).
Proof. intros HM Hn. pose proof (mp_blk _ _ _ _ _ HM n Hn). pose proof (mp_nb _ _ _ _ _ HM). split; [consts; lia|]. right. exists n. split; [lia|done]. Qed.

Lemma iappend_round_run s din p C : let m := img s in let A := di_addrs din in let fb := freeblock s in let n1 := Z.min (len p) ((len C / BSIZE + 1) * BSIZE - len C) in
  room m fb -> mapped m A fb (nblk (len C)) C -> p <> [] -> len C + len p <= MAXFILE * BSIZE -> fb + cost (nblk (len C + n1)) - cost (nblk (len C)) <= FSSIZE ->
  exists m' A' fb', iappend_round (p, len C, din) s = Ret (inl (drop (Z.to_nat n1) p, len C + n1, set_addrs din A')) (s <| img := m' |> <| freeblock := fb' |>) /\
    grown m A fb m' A' fb' (C ++ take (Z.to_nat n1) p) /\ fb' <= fb + cost (nblk (len C + n1)) - cost (nblk (len C)) /\ 0 < n1 <= len p.
Proof.
  intros m A fb n1 HR HM Hp Hmax Hfit. set (fbn := len C / BSIZE) in *. set (nb := nblk (len C)) in *. assert (Hlp : 0 < len p) by (unfold len; destruct p; [done|cbn [length]; lia]).
  assert (HC : 0 <= len C) by (unfold len; lia). assert (Hn1 : 0 < n1 <= len p) by (unfold n1, fbn; consts; Z.div_mod_to_equations; lia).
  assert (Hcase : fbn = nb \/ fbn + 1 = nb) by (unfold fbn, nb, nblk; consts; Z.div_mod_to_equations; lia). assert (Hf : 0 <= fbn < MAXFILE) by (unfold fbn; consts; Z.div_mod_to_equations; lia).
  assert (Hnb : nblk (len C + n1) = fbn + 1) by (unfold nblk, n1, fbn; consts; Z.div_mod_to_equations; lia). rewrite Hnb in *.
  destruct (iappend_block_run s din fbn nb C HR HM Hf Hcase Hfit) as (m1 & A1 & fb1 & E1 & D). pose proof D as [D1 D2 D3 D4 D5]. pose proof (rm_range _ _ D1).
  pose proof (mp_blk _ _ _ _ _ D2 fbn ltac:(lia)) as Hx. destruct (rm_dom _ _ D1 (mblock m1 A1 fbn) ltac:(consts; lia)) as (buf & Hbuf & Hlb).
  assert (Htk : len (take (Z.to_nat n1) p) = n1) by (unfold len in *; rewrite length_take; lia).
  exists (<[mblock m1 A1 fbn := put_bytes buf (Z.to_nat (len C - fbn * BSIZE)) (take (Z.to_nat n1) p)]> m1), A1, fb1. split_and!; [| |lia|lia|lia].
  - unfold iappend_round. change (Z.of_nat (length p)) with (len p). rewrite (proj2 (Z.ltb_lt 0 (len p))) by done. cbn [negb]. fold fbn. rewrite (proj2 (Z.ltb_lt fbn MAXFILE)) by lia. cbn [negb].
    rewrite (bind_run _ _ _ _ _ E1). erewrite bind_run; [|apply rsect_run; exact Hbuf]. fold n1. unfold wsect, bind, modify, ret, bindO. by destruct s.
  - destruct (write_bytes m1 A1 fb1 (fbn + 1) C buf _ fbn (take (Z.to_nat n1) p) D2 D1 eq_refl eq_refl ltac:(rewrite Htk; unfold n1, fbn; lia) eq_refl Hbuf) as [W1 W2]. split.
    + apply room_insert; [done|lia|by rewrite put_bytes_length].
    + replace (nblk (len (C ++ take (Z.to_nat n1) p))) with (fbn + 1) by (unfold len in *; rewrite length_app, Nat2Z.inj_add, Htk; done). exact W1.
    + intros b Hb Ho. rewrite lookup_insert_ne; [by apply D4|]. intros <-. apply Ho. destruct (D5 _ (mapped_owns _ _ _ _ _ fbn D2 ltac:(lia))) as [|]; [done|lia].
    + intros b [Hb0 Hb]. apply D5. split; [done|]. destruct Hb as [?|(n & Hn & Hb)]; [by left|right]. exists n. by rewrite <- W2.
    + lia.
Qed.

Lemma grown_trans m A fb m1 A1 fb1 C1 m2 A2 fb2 C2 : grown m A fb m1 A1 fb1 C1 -> grown m1 A1 fb1 m2 A2 fb2 C2 -> grown m A fb m2 A2 fb2 C2.
Proof.
  intros [G1 G2 G3 G4 G5] [H1 H2 H3 H4 H5]. split; [done|done| | |lia].
  - intros b Hb Ho. rewrite H3; [by apply G3|lia|]. intros Ho1. destruct (G4 b Ho1); [done|lia].
  - intros b Ho. destruct (H4 b Ho) as [Ho1|]; [|right; lia]. destruct (G4 b Ho1); [by left|right; lia].
Qed.

Lemma len_app (C c : list Z) : len (C ++ c) = len C + len c.
Proof. unfold len. rewrite length_app. lia. Qed.

Lemma nblk_mono i j : i <= j -> nblk i <= nblk j.
Proof. intros. unfold nblk. apply Z.div_le_mono; consts; lia. Qed.

Lemma iappend_loop fuel : forall p s din C, room (img s) (freeblock s) -> mapped (img s) (di_addrs din) (freeblock s) (nblk (len C)) C -> (length p < fuel)%nat ->
  len C + len p <= MAXFILE * BSIZE -> freeblock s + cost (nblk (len C + len p)) - cost (nblk (len C)) <= FSSIZE ->
  exists m' A' fb', loop fuel iappend_round (p, len C, din) s = Ret (len C + len p, set_addrs din A') (s <| img := m' |> <| freeblock := fb' |>) /\
    grown (img s) (di_addrs din) (freeblock s) m' A' fb' (C ++ p) /\ fb' <= freeblock s + cost (nblk (len C + len p)) - cost (nblk (len C)).
Proof.
  induction fuel as [|fuel IH]; intros p s din C HR HM Hf Hmax Hfit; [lia|]. cbn [loop]. destruct (decide (p = [])) as [->|Hp].
  - exists (img s), (di_addrs din), (freeblock s). rewrite app_nil_r, set_addrs_id. replace (len C + len []) with (len C) by (unfold len; cbn; lia). split_and!; [by destruct s| |lia]. split; [done|done|done|by left|lia].
  - set (n1 := Z.min (len p) ((len C / BSIZE + 1) * BSIZE - len C)). assert (Hn1 : len C + n1 <= len C + len p) by (unfold n1; lia). pose proof (cost_mono _ _ (nblk_mono _ _ Hn1)) as Hm1.
    destruct (iappend_round_run s din p C HR HM Hp Hmax ltac:(fold n1; lia)) as (m1 & A1 & fb1 & E1 & G1 & Hfb1 & Hp1). fold n1 in E1, G1, Hfb1, Hp1. rewrite (bind_run _ _ _ _ _ E1).
    set (s1 := s <| img := m1 |> <| freeblock := fb1 |>). set (C1 := C ++ take (Z.to_nat n1) p) in *. assert (El : len C + n1 = len C1) by (unfold C1; rewrite len_app; unfold len in *; rewrite length_take; lia).
    assert (Ed : len (drop (Z.to_nat n1) p) = len p - n1) by (unfold len in *; rewrite length_drop; lia). rewrite El in *.
    destruct (IH (drop (Z.to_nat n1) p) s1 (set_addrs din A1) C1 (gr_room _ _ _ _ _ _ _ G1) (gr_map _ _ _ _ _ _ _ G1)) as (m2 & A2 & fb2 & E2 & G2 & Hfb2).
    + rewrite length_drop. unfold len in *. lia.
    + rewrite Ed. lia.
    + rewrite Ed. change (freeblock s1) with fb1. replace (len C1 + (len p - n1)) with (len C + len p) by lia. lia.
    + exists m2, A2, fb2. rewrite Ed in *. replace (len C1 + (len p - n1)) with (len C + len p) in * by lia. change (freeblock s1) with fb1 in *. split_and!; [by rewrite E2| |lia].
      apply (grown_trans _ _ _ m1 A1 fb1 C1); [done|]. unfold C1 in G2. rewrite <- app_assoc, take_drop in G2. exact G2.
Qed.

(** ** The image and its files *)

(** The inode [inum] on the image. *)
Definition iblk (inum : Z) : Z := inum / IPB + 32.
Definition the_dinode m (inum : Z) : dinode := get_dinode (default [] (m !! iblk inum)) (dinode_off inum).
Abbreviation iaddrs m inum := (di_addrs (the_dinode m inum)).

Lemma iblk_IBLOCK inum : 0 <= inum < NINODES -> IBLOCK inum new_sb = iblk inum.
Proof. intros H. unfold IBLOCK, iblk. change (s_inodestart new_sb) with 32. unfold u32. apply Z.mod_small. change IPB with 16. change NINODES with 200 in *. Z.div_mod_to_equations. lia. Qed.

Lemma iblk_range inum : 0 <= inum < NINODES -> 32 <= iblk inum < 45.
Proof. unfold iblk. change IPB with 16. change NINODES with 200. intros. Z.div_mod_to_equations. lia. Qed.

Lemma slot_disjoint i j : 0 <= i -> 0 <= j -> i <> j -> iblk i = iblk j -> (dinode_off i + 64 <= dinode_off j \/ dinode_off j + 64 <= dinode_off i)%nat.
Proof. unfold iblk, dinode_off. change IPB with 16. change DINODE with 64. intros. Z.div_mod_to_equations. lia. Qed.

Lemma slot_fits i : 0 <= i -> (dinode_off i + 64 <= Z.to_nat BSIZE)%nat.
Proof. unfold dinode_off. change IPB with 16. change DINODE with 64. intros. consts. Z.div_mod_to_equations. lia. Qed.

(** [winode] replaces one inode and leaves the others and all other blocks. *)
Lemma winode_run s inum di : mk_sb s = new_sb -> 0 <= inum < NINODES -> din_ok di -> room (img s) (freeblock s) ->
  exists m', winode inum di s = Ret tt (s <| img := m' |>) /\ the_dinode m' inum = di /\ (forall i, 0 <= i < NINODES -> i <> inum -> the_dinode m' i = the_dinode (img s) i) /\
    (forall b, b <> iblk inum -> m' !! b = img s !! b) /\ room m' (freeblock s).
Proof.
  intros Hsb Hi Hd HR. pose proof (iblk_range inum Hi) as Hb. pose proof (rm_range _ _ HR) as Hr. destruct (rm_dom _ _ HR (iblk inum) ltac:(consts; lia)) as (buf & Hbuf & Hlb).
  exists (<[iblk inum := put_dinode buf (dinode_off inum) di]> (img s)). split_and!.
  - unfold winode. rewrite bind_gets, Hsb, iblk_IBLOCK by done. rewrite (bind_run _ _ _ _ _ (rsect_run s _ _ Hbuf)). by destruct s.
  - unfold the_dinode. rewrite lookup_insert_eq. apply get_put_dinode; [done|]. rewrite Hlb. apply slot_fits. lia.
  - intros i Hi1 Hne. unfold the_dinode. destruct (decide (iblk inum = iblk i)) as [E|E]; [|by rewrite lookup_insert_ne by done].
    rewrite <- E, lookup_insert_eq, Hbuf. cbn. apply get_dinode_ext. intros j Hj. apply put_dinode_byte; [apply Hd|]. destruct (slot_disjoint i inum ltac:(lia) ltac:(lia) Hne (eq_sym E)); lia.
  - intros b Hb'. by rewrite lookup_insert_ne by done.
  - apply room_insert; [done|consts; lia|by rewrite put_dinode_length].
Qed.
