(* ===== verification/Image.v ===== *)
(** * The kernel can use the first disk

    The image that [src/mkfs.c] makes meets the conditions the theorems on [src/fs.c]
    ask of a disk, every file on it has the contents it was given and the root directory
    names it.  [fsinv] is the invariant of the image while files are added to it. *)

From S2P Require Import Prelude CString Headers Bio Bytes Inode Bmap Fs Content Dir Mkfs.

Implicit Types (m : gmap Z (list Z)) (A : list Z).

(** ** The files on the image *)

(** The blocks the metadata and the files take. *)
Definition file_cost (f : Z * list Z) : Z := cost (nblk (len f.2)).
Definition total (fs : list (Z * list Z)) : Z := nmeta + foldr (fun f n => file_cost f + n) 0 fs.

Lemma total_app fs gs : total (fs ++ gs) = total fs + foldr (fun f n => file_cost f + n) 0 gs.
Proof. unfold total. induction fs as [|f fs IH]; cbn [app foldr]; lia. Qed.

Lemma total_insert fs i f f' : fs !! i = Some f -> total (<[i := f']> fs) = total fs - file_cost f + file_cost f'.
Proof.
  unfold total. revert i. induction fs as [|g fs IH]; intros i Hi; [done|]. destruct i as [|i].
  - injection Hi as ->. change (<[0%nat := f']> (f :: fs)) with (f' :: fs). cbn [foldr]. lia.
  - change (<[S i := f']> (g :: fs)) with (g :: <[i := f']> fs). cbn [foldr]. specialize (IH i Hi). lia.
Qed.

Definition inum_of (i : nat) : Z := Z.of_nat i + 1.

(** The inode of the file and its blocks. *)
Record holds_file m (fb inum : Z) (f : Z * list Z) : Prop := {
  hf_din : the_dinode m inum = mk_dinode f.1 0 0 1 (len f.2) (iaddrs m inum);
  hf_map : mapped m (iaddrs m inum) fb (nblk (len f.2)) f.2;
  hf_type : 0 <= f.1 < 2 ^ 15;
  hf_size : len f.2 <= MAXFILE * BSIZE }.

(** The image holds the files [fs], of inodes 1, 2, and so on. *)
Record fsinv (s : mkstate) (fs : list (Z * list Z)) : Prop := {
  fi_sb : mk_sb s = new_sb;
  fi_next : freeinode s = inum_of (length fs) /\ freeinode s <= NINODES;
  fi_room : room (img s) (freeblock s);
  fi_fb : freeblock s <= total fs;
  fi_file : forall i f, fs !! i = Some f -> holds_file (img s) (freeblock s) (inum_of i) f;
  fi_disj : forall i j b, (i < length fs)%nat -> (j < length fs)%nat -> owned (img s) (iaddrs (img s) (inum_of i)) b -> owned (img s) (iaddrs (img s) (inum_of j)) b -> i = j;
  fi_free : forall inum, freeinode s <= inum < NINODES -> di_type (the_dinode (img s) inum) = 0;
  fi_super : img s !! 1 = Some (sb_bytes new_sb);
  fi_zero : forall b, b = 0 \/ 2 <= b < 32 \/ b = 45 -> img s !! b = Some (replicate (Z.to_nat BSIZE) 0) }.

Lemma mapped_addrs m A hi nb C : mapped m A hi nb C -> hi <= FSSIZE -> Forall (fun a => 0 <= a < 2 ^ 32) A.
Proof.
  intros HM Hhi. apply Forall_lookup. intros i a Ha. pose proof (lookup_lt_Some _ _ _ Ha) as Hi. rewrite (mp_len _ _ _ _ _ HM) in Hi. apply (nth_lookup_Some A i 0) in Ha. pose proof (mp_nb _ _ _ _ _ HM).
  destruct (decide (i = 12%nat)) as [->|Hne].
  - destruct (mp_ind _ _ _ _ _ HM); consts; lia.
  - assert (E : mblock m A (Z.of_nat i) = a) by (unfold mblock; rewrite (proj2 (Z.ltb_lt _ NDIRECT)) by (consts; lia); by rewrite Nat2Z.id).
    destruct (decide (Z.of_nat i < nb)); [pose proof (mp_blk _ _ _ _ _ HM (Z.of_nat i) ltac:(lia)); consts; lia|]. rewrite (mp_none _ _ _ _ _ HM) in E by (consts; lia). lia.
Qed.

Lemma owned_same m m' A b : (forall c, c = nth 12 A 0 -> c <> 0 -> m' !! c = m !! c) -> owned m' A b <-> owned m A b.
Proof.
  intros H. assert (E : forall n, mblock m' A n = mblock m A n) by (intros n; apply mblock_ext; auto). unfold owned. split; intros [H0 [?|(n & Hn & ?)]]; (split; [done|]); [by left|right; exists n; by rewrite <- E|by left|right; exists n; by rewrite E].
Qed.

Lemma holds_frame m m' fb fb' inum f : holds_file m fb inum f -> fb <= fb' -> the_dinode m' inum = the_dinode m inum -> (forall b, owned m (iaddrs m inum) b -> m' !! b = m !! b) -> holds_file m' fb' inum f.
Proof. intros [H1 H2 H3 H4] Hfb Ed Hb. split; rewrite ?Ed; try done. by apply (mapped_frame m m' _ fb fb'). Qed.

Lemma inum_of_range fs i s : fsinv s fs -> (i < length fs)%nat -> 0 <= inum_of i < NINODES.
Proof. intros [_ [H1 H2] _ _ _ _ _ _ _] Hi. unfold inum_of in *. lia. Qed.

(** What [iappend] leaves when it has grown the blocks of file [i] and then written its
    inode. *)
Lemma fsinv_grown s fs i ty C C' m1 A1 fb1 m2 : let m := img s in let inum := inum_of i in
  fsinv s fs -> fs !! i = Some (ty, C) -> len C' <= MAXFILE * BSIZE -> grown m (iaddrs m inum) (freeblock s) m1 A1 fb1 C' -> fb1 <= total (<[i := (ty, C')]> fs) ->
  the_dinode m2 inum = mk_dinode ty 0 0 1 (len C') A1 -> (forall j, 0 <= j < NINODES -> j <> inum -> the_dinode m2 j = the_dinode m1 j) -> (forall b, b <> iblk inum -> m2 !! b = m1 !! b) -> room m2 fb1 ->
  fsinv (s <| img := m2 |> <| freeblock := fb1 |>) (<[i := (ty, C')]> fs).
Proof.
  intros m inum Hinv Hi Hmax G Hfb W1 W2 W3 W4. unfold m, inum in *. clear m inum. pose proof Hinv as [I1 I2 I3 I4 I5 I6 I7 I8 I9]. pose proof (I5 _ _ Hi) as Hfile. pose proof Hfile as [F1 F2 F3 F4]. pose proof G as [G1 G2 G3 G4 G5]. set (m := img s) in *. set (inum := inum_of i) in *.
  pose proof (lookup_lt_Some _ _ _ Hi) as Hil. pose proof (inum_of_range _ _ _ Hinv Hil) as Hir. fold inum in Hir. pose proof (iblk_range _ Hir) as Hbr. pose proof (rm_range _ _ I3) as Hr.
  assert (Hmeta : forall b, 0 <= b < nmeta -> m1 !! b = m !! b) by (intros b Hb; apply G3; [lia|intros Ho; pose proof (owned_range _ _ _ _ _ _ F2 Ho); lia]).
  assert (Hdin : forall j, 0 <= j < NINODES -> j <> inum -> the_dinode m2 j = the_dinode m j).
  { intros j Hj Hne. rewrite W2 by done. unfold the_dinode. rewrite Hmeta; [done|]. pose proof (iblk_range j Hj). consts. lia. }
  assert (Hown : forall j b, (j < length fs)%nat -> j <> i -> owned m (iaddrs m (inum_of j)) b -> m2 !! b = m !! b).
  { intros j b Hj Hne Ho. destruct (lookup_lt_is_Some_2 fs j Hj) as [f Hf]. pose proof (owned_range _ _ _ _ _ _ (hf_map _ _ _ _ (I5 _ _ Hf)) Ho) as Hb.
    rewrite W3 by (consts; lia). apply G3; [lia|]. intros Ho'. apply Hne. by apply (I6 j i b). }
  assert (Hne_inum : forall j, j <> i -> inum_of j <> inum) by (intros j Hj; unfold inum, inum_of; lia).
  assert (Hi2 : forall b, owned m2 A1 b -> owned m (iaddrs m inum) b \/ freeblock s <= b < fb1).
  { intros b Ho. apply G4. revert Ho. apply owned_same. intros c Ec H0. rewrite W3; [done|]. assert (owned m1 A1 c) as Hc by (split; [done|left; done]). pose proof (owned_range _ _ _ _ _ _ G2 Hc). consts. lia. }
  assert (Hj2 : forall j b, (j < length fs)%nat -> j <> i -> owned m2 (iaddrs m2 (inum_of j)) b -> owned m (iaddrs m (inum_of j)) b).
  { intros j b Hj Hne. rewrite Hdin by (auto; by apply (inum_of_range _ _ _ Hinv)). apply owned_frame. intros c Hc. by apply (Hown j). }
  assert (Hbelow : forall j b, (j < length fs)%nat -> owned m (iaddrs m (inum_of j)) b -> b < freeblock s).
  { intros j b Hj Ho. destruct (lookup_lt_is_Some_2 fs j Hj) as [f Hf]. pose proof (owned_range _ _ _ _ _ _ (hf_map _ _ _ _ (I5 _ _ Hf)) Ho). lia. }
  assert (EA : iaddrs m2 inum = A1) by (by rewrite W1). split; try done.
  - by rewrite length_insert.
  - intros j f Hj. change (img _) with m2. change (freeblock _) with fb1. destruct (decide (j = i)) as [->|Hne].
    + rewrite list_lookup_insert_eq in Hj by done. injection Hj as <-. split; cbn [fst snd]; fold inum; [by rewrite EA| |done|done].
      rewrite EA. apply (mapped_frame m1 m2 A1 fb1 fb1); [done|lia|]. intros b Ho. apply W3. pose proof (owned_range _ _ _ _ _ _ G2 Ho). consts. lia.
    + rewrite list_lookup_insert_ne in Hj by done. pose proof (lookup_lt_Some _ _ _ Hj) as Hjl. apply (holds_frame m m2 (freeblock s) fb1); [by apply I5|done| |intros b; by apply Hown].
      apply Hdin; [by apply (inum_of_range _ _ _ Hinv)|auto].
  - change (img _) with m2. rewrite length_insert. intros j1 j2 b H1 H2 O1 O2. destruct (decide (j1 = i)) as [->|N1], (decide (j2 = i)) as [->|N2]; [done| | |].
    + fold inum in O1. rewrite EA in O1. apply Hj2 in O2; [|done..]. pose proof (Hbelow _ _ H2 O2). destruct (Hi2 b O1) as [O1'|]; [|lia]. by apply (I6 i j2 b).
    + fold inum in O2. rewrite EA in O2. apply Hj2 in O1; [|done..]. pose proof (Hbelow _ _ H1 O1). destruct (Hi2 b O2) as [O2'|]; [|lia]. by apply (I6 j1 i b).
    + apply (I6 j1 j2 b); auto.
  - intros j Hj. change (img _) with m2. change (freeinode _) with (freeinode s) in Hj. destruct I2 as [I2 _]. unfold inum, inum_of in *. rewrite Hdin; [by apply I7|lia|lia].
  - change (img _) with m2. rewrite W3, Hmeta by (consts; lia). done.
  - intros b Hb. change (img _) with m2. rewrite W3, Hmeta by (consts; lia). by apply I9.
Qed.

(** The bytes [p] are appended to a file and nothing else changes. *)
Lemma iappend_inv s fs i ty C p : fsinv s fs -> fs !! i = Some (ty, C) -> len C + len p <= MAXFILE * BSIZE -> total (<[i := (ty, C ++ p)]> fs) <= FSSIZE ->
  exists s', iappend (inum_of i) p s = Ret tt s' /\ fsinv s' (<[i := (ty, C ++ p)]> fs).
Proof.
  intros Hinv Hi Hmax Hfit. pose proof Hinv as [I1 I2 I3 I4 I5 I6 I7 I8 I9]. pose proof (I5 _ _ Hi) as Hfile. pose proof Hfile as [F1 F2 F3 F4]. cbn [fst snd] in *. set (inum := inum_of i) in *.
  pose proof (lookup_lt_Some _ _ _ Hi) as Hil. pose proof (inum_of_range _ _ _ Hinv Hil) as Hir. fold inum in Hir. rewrite (total_insert _ _ _ _ Hi) in Hfit. unfold file_cost in Hfit. cbn [snd] in Hfit. rewrite len_app in Hfit.
  pose proof (iblk_range _ Hir) as Hbr. pose proof (rm_range _ _ I3) as Hr. destruct (rm_dom _ _ I3 (iblk inum) ltac:(consts; lia)) as (buf & Hbuf & Hlb).
  destruct (iappend_loop (S (length p)) p s (the_dinode (img s) inum) C I3 F2 ltac:(lia) Hmax ltac:(lia)) as (m1 & A1 & fb1 & E1 & G & Hfb1). pose proof G as [G1 G2 G3 G4 G5]. set (s1 := s <| img := m1 |> <| freeblock := fb1 |>) in *.
  set (di := set_dsize (set_addrs (the_dinode (img s) inum) A1) (len C + len p)).
  assert (Hdi : din_ok di). { unfold di. rewrite F1. split; cbn [di set_dsize set_addrs di_type di_major di_minor di_nlink di_size di_addrs]; try done; [unfold len in *; consts; lia|apply G2|]. eapply mapped_addrs; [exact G2|]. apply (rm_range _ _ G1). }
  destruct (winode_run s1 inum di I1 Hir Hdi G1) as (m2 & E2 & W1 & W2 & W3 & W4). change (img s1) with m1 in *. change (freeblock s1) with fb1 in *.
  exists (s1 <| img := m2 |>). split.
  - unfold iappend. assert (Er : rinode inum s = Ret (the_dinode (img s) inum) s). { unfold rinode. rewrite bind_gets, I1, iblk_IBLOCK by done. rewrite (bind_run _ _ _ _ _ (rsect_run s _ _ Hbuf)). unfold the_dinode. by rewrite Hbuf. }
    rewrite (bind_run _ _ _ _ _ Er). replace (xint (di_size (the_dinode (img s) inum))) with (len C) by (rewrite F1; cbn [di_size]; rewrite xint_id; [done|unfold len in *; consts; lia]).
    rewrite (bind_run _ _ _ _ _ E1). rewrite xint_id by (unfold len in *; consts; lia). exact E2.
  - apply (fsinv_grown s fs i ty C (C ++ p) m1 A1 fb1 m2); try done; [rewrite len_app; lia|rewrite (total_insert _ _ _ _ Hi); unfold file_cost; cbn [snd]; rewrite len_app; lia|].
    fold inum. rewrite W1. unfold di. rewrite F1, len_app. done.
Qed.

Lemma mapped_nil m fb : mapped m (replicate 13 0) fb 0 [].
Proof.
  assert (H : forall n, mblock m (replicate 13 0) n = 0) by (intros n; unfold mblock; destruct (n <? NDIRECT); [|done]; destruct (nth_in_or_default (Z.to_nat n) (replicate 13 0) 0) as [H| ->]; [|done]; by apply list_elem_of_In, elem_of_replicate in H as [-> _]).
  split; try done; [intros; lia|by left|intros; lia|intros; lia|intros; lia].
Qed.

Lemma not_owned_nil m b : ~ owned m (replicate 13 0) b.
Proof. intros Ho. pose proof (owned_range _ _ 0 _ _ _ (mapped_nil m 0) Ho). consts. lia. Qed.

(** A new inode of the type, for an empty file. *)
Lemma ialloc_inv s fs ty : fsinv s fs -> freeinode s < NINODES -> 0 <= ty < 2 ^ 15 -> exists s', mkfs_ialloc ty s = Ret (inum_of (length fs)) s' /\ fsinv s' (fs ++ [(ty, [])]).
Proof.
  intros Hinv Hn Hty. pose proof Hinv as [I1 [I2 I2'] I3 I4 I5 I6 I7 I8 I9]. set (inum := freeinode s) in *. set (s1 := s <| freeinode := inum + 1 |>). assert (Hin : 0 <= inum < NINODES) by (unfold inum_of in *; lia).
  set (di := mk_dinode ty 0 0 1 0 (replicate 13 0)). assert (Hdi : din_ok di) by (split; cbn; try done; repeat constructor; lia).
  destruct (winode_run s1 inum di I1 Hin Hdi I3) as (m' & E & W1 & W2 & W3 & W4). change (img s1) with (img s) in *. change (freeblock s1) with (freeblock s) in *. pose proof (iblk_range _ Hin) as Hbr. pose proof (rm_range _ _ I3) as Hr.
  exists (s1 <| img := m' |>). split.
  - unfold mkfs_ialloc. rewrite bind_gets. unfold bind at 1. change (modify _ s) with (Ret (S := mkstate) tt (s <| freeinode := u32 (inum + 1) |>)). cbv iota beta. replace (u32 (inum + 1)) with (inum + 1) by (unfold u32; change NINODES with 200 in *; rewrite Z.mod_small; lia).
    rewrite !xshort_id, xint_id by (change NINODES with 200 in *; lia). fold di. fold s1. cbn [bindO]. change (freeinode s) with inum. rewrite (bind_run _ _ _ _ _ E). by rewrite <- I2.
  - assert (Hold : forall j, (j < length fs)%nat -> the_dinode m' (inum_of j) = the_dinode (img s) (inum_of j)) by (intros j Hj; apply W2; [by apply (inum_of_range _ _ _ Hinv)|unfold inum_of in *; lia]).
    assert (Hblk : forall j b, (j < length fs)%nat -> owned (img s) (iaddrs (img s) (inum_of j)) b -> m' !! b = img s !! b).
    { intros j b Hj Ho. destruct (lookup_lt_is_Some_2 fs j Hj) as [f Hf]. pose proof (owned_range _ _ _ _ _ _ (hf_map _ _ _ _ (I5 _ _ Hf)) Ho). apply W3. consts. lia. }
    assert (EA : iaddrs m' (inum_of (length fs)) = replicate 13 0) by (rewrite <- I2, W1; done). split; try done.
    + change (inum + 1 = inum_of (length (fs ++ [(ty, [])])) /\ inum + 1 <= NINODES). rewrite length_app, I2. unfold inum_of. cbn [length]. split; [lia|]. change (Z.of_nat (length fs) + 1) with (inum_of (length fs)). lia.
    + change (freeblock _) with (freeblock s). rewrite total_app. cbn [foldr]. change (file_cost (ty, [])) with 0. lia.
    + intros j f Hj. change (img _) with m'. change (freeblock _) with (freeblock s). apply lookup_app_Some in Hj as [Hj|[Hj1 Hj]].
      * pose proof (lookup_lt_Some _ _ _ Hj) as Hjl. apply (holds_frame (img s) m' (freeblock s)); [by apply I5|lia|by apply Hold|intros b; by apply Hblk].
      * apply list_lookup_singleton_Some in Hj as [Hj <-]. assert (j = length fs) as -> by lia. split; cbn [fst snd]; [rewrite EA, <- I2, W1; done|rewrite EA; apply mapped_nil|done|unfold len; cbn; consts; lia].
    + change (img _) with m'. rewrite length_app. cbn [length]. intros j1 j2 b H1 H2 O1 O2.
      assert (Hlt : forall j, (j < length fs + 1)%nat -> owned m' (iaddrs m' (inum_of j)) b -> (j < length fs)%nat /\ owned (img s) (iaddrs (img s) (inum_of j)) b).
      { intros j Hj Ho. destruct (decide (j = length fs)) as [->|Hne]; [rewrite EA in Ho; by apply not_owned_nil in Ho|]. assert (Hjl : (j < length fs)%nat) by lia. split; [done|]. rewrite Hold in Ho by done. revert Ho. apply owned_frame. intros c. by apply Hblk. }
      destruct (Hlt j1 H1 O1), (Hlt j2 H2 O2). by apply (I6 j1 j2 b).
    + intros j Hj. change (freeinode _) with (inum + 1) in Hj. change (img _) with m'. rewrite W2 by (change NINODES with 200 in *; lia). apply I7. lia.
    + change (img _) with m'. by rewrite W3 by lia.
    + intros b Hb. change (img _) with m'. rewrite W3 by lia. by apply I9.
Qed.

Lemma file_cost_mono ty ty' C C' : len C <= len C' -> file_cost (ty, C) <= file_cost (ty', C').
Proof. intros. unfold file_cost. by apply cost_mono, nblk_mono. Qed.

(** The bytes of a file that is read in pieces, up to an empty one. *)
Fixpoint content (reads : list (list Z)) : list Z :=
  match reads with
  | [] | [] :: _ => []
  | r :: reads => r ++ content reads
  end.

(** A file is written in as many pieces as the host returns. *)
Lemma reads_inv reads : forall s fs i ty C, fsinv s fs -> fs !! i = Some (ty, C) -> len C + len (content reads) <= MAXFILE * BSIZE -> total (<[i := (ty, C ++ content reads)]> fs) <= FSSIZE ->
  exists s', copy_reads (inum_of i) reads s = Ret tt s' /\ fsinv s' (<[i := (ty, C ++ content reads)]> fs).
Proof.
  induction reads as [|r reads IH]; intros s fs i ty C Hinv Hi Hmax Hfit; cbn [content copy_reads] in *.
  - exists s. rewrite app_nil_r. by rewrite list_insert_id.
  - destruct r as [|x r]; [exists s; rewrite app_nil_r; by rewrite list_insert_id|]. set (y := x :: r) in *. rewrite len_app in Hmax. assert (Hp : 0 <= len (content reads)) by (unfold len; lia). pose proof (lookup_lt_Some _ _ _ Hi) as Hil.
    destruct (iappend_inv s fs i ty C y Hinv Hi ltac:(lia)) as (s1 & E1 & H1).
    { etransitivity; [|exact Hfit]. rewrite !(total_insert _ _ _ _ Hi). pose proof (file_cost_mono ty ty (C ++ y) (C ++ y ++ content reads)) as Hm. rewrite !len_app in Hm. lia. }
    rewrite (bind_run _ _ _ _ _ E1). destruct (IH s1 _ i ty (C ++ y) H1) as (s2 & E2 & H2); [by rewrite list_lookup_insert_eq|rewrite len_app; lia|rewrite list_insert_insert_eq, <- app_assoc; done|].
    exists s2. rewrite list_insert_insert_eq, <- app_assoc in H2. done.
Qed.

(** ** The program's run *)

(** A file that can be opened: its name and what the reads return. *)
Definition host (f : list Z * list (list Z)) : hostfile := (f.1, Some f.2).

(** The entries of the root directory, and the files of the image. *)
Definition root_entries (files : list (list Z * list (list Z))) : list (list Z * Z) :=
  ([46], 1) :: ([46; 46], 1) :: imap (fun j f => (strip f.1, Z.of_nat j + 2)) files.
Definition dirents (es : list (list Z * Z)) : list Z := concat (map (fun e => mkfs_dirent e.1 e.2) es).
Definition image_files (files : list (list Z * list (list Z))) : list (Z * list Z) :=
  (T_DIR, dirents (root_entries files)) :: map (fun f => (T_FILE, content f.2)) files.

Lemma root_entries_app files f : root_entries (files ++ [f]) = root_entries files ++ [(strip f.1, Z.of_nat (length files) + 2)].
Proof. unfold root_entries. rewrite imap_app. cbn [app imap]. by rewrite Nat.add_0_r. Qed.

Lemma dirents_app es e : dirents (es ++ [e]) = dirents es ++ mkfs_dirent e.1 e.2.
Proof. unfold dirents. rewrite map_app, concat_app. cbn [map concat]. by rewrite app_nil_r. Qed.

Lemma mkfs_dirent_mk name inum : 0 <= inum < 2 ^ 16 -> mkfs_dirent name inum = mk_dirent name inum.
Proof. intros H. unfold mkfs_dirent, mk_dirent. by rewrite xshort_id. Qed.

Lemma mkfs_dirent_len name inum : length (mkfs_dirent name inum) = 16%nat.
Proof. unfold mkfs_dirent. rewrite length_app. pose proof (mk_dirent_length name 0) as H. unfold mk_dirent in H. rewrite length_app in H. cbn [length le16] in *. exact H. Qed.

Lemma dirents_len es : len (dirents es) = 16 * Z.of_nat (length es).
Proof. induction es as [|e es IH]; [done|]. change (dirents (e :: es)) with (mkfs_dirent e.1 e.2 ++ dirents es). rewrite len_app, IH. unfold len. rewrite mkfs_dirent_len. cbn [length]. lia. Qed.

Lemma root_entries_len files : length (root_entries files) = S (S (length files)).
Proof. unfold root_entries. cbn [length]. by rewrite length_imap. Qed.

Lemma image_len files : length (image_files files) = S (length files).
Proof. unfold image_files. cbn [length]. by rewrite length_map. Qed.

Lemma image_files_app files f : image_files (files ++ [f]) = <[0%nat := (T_DIR, dirents (root_entries files) ++ mkfs_dirent (strip f.1) (inum_of (length (image_files files))))]> (image_files files) ++ [(T_FILE, content f.2)].
Proof.
  unfold image_files at 1. rewrite root_entries_app, dirents_app, map_app, image_len. cbn [map fst snd]. replace (Z.of_nat (length files) + 2) with (inum_of (S (length files))) by (unfold inum_of; lia). done.
Qed.

Definition wf_file (f : list Z * list (list Z)) : Prop := 47 ∉ f.1 /\ len (content f.2) <= MAXFILE * BSIZE.

Lemma total_le fs i f f' : fs !! i = Some f -> file_cost f <= file_cost f' -> total fs <= total (<[i := f']> fs).
Proof. intros Hi Hle. rewrite (total_insert _ _ _ _ Hi). lia. Qed.

Lemma add_file_inv s files f : fsinv s (image_files files) -> wf_file f -> freeinode s < NINODES -> total (image_files (files ++ [f])) <= FSSIZE ->
  exists s', add_file ROOTINO (host f) s = Ret tt s' /\ fsinv s' (image_files (files ++ [f])).
Proof.
  intros Hinv [Hsl Hmax] Hn Hfit. set (fs := image_files files) in *. set (D := dirents (root_entries files)). set (de := mkfs_dirent (strip f.1) (inum_of (length fs))).
  assert (Hlfs : length fs = S (length files)) by apply image_len. assert (H0 : fs !! 0%nat = Some (T_DIR, D)) by done.
  assert (Hfin : image_files (files ++ [f]) = <[0%nat := (T_DIR, D ++ de)]> fs ++ [(T_FILE, content f.2)]) by apply image_files_app. rewrite Hfin in *. rewrite total_app in Hfit. cbn [foldr] in Hfit.
  unfold add_file, host. rewrite bool_decide_false by done. destruct (ialloc_inv s fs T_FILE Hinv Hn ltac:(done)) as (s1 & E1 & I1). rewrite (bind_run _ _ _ _ _ E1). fold de.
  assert (Hc0 : 0 <= file_cost (T_FILE, content f.2)) by (pose proof (file_cost_mono T_FILE T_FILE [] (content f.2)) as Hm; change (file_cost (T_FILE, [])) with 0 in Hm; unfold len in *; cbn [length] in Hm; lia).
  assert (Hroot : 16 * Z.of_nat (length files) + 48 <= MAXFILE * BSIZE) by (destruct Hinv as [_ [J1 J2] _ _ _ _ _ _ _]; unfold inum_of in *; change NINODES with 200 in *; consts; lia).
  assert (Hlen0 : len D + len de <= MAXFILE * BSIZE) by (unfold D, de; rewrite dirents_len, root_entries_len; unfold len; rewrite mkfs_dirent_len; lia).
  destruct (iappend_inv s1 (fs ++ [(T_FILE, [])]) 0 T_DIR D de I1 ltac:(by rewrite lookup_app_l by lia) Hlen0) as (s2 & E2 & I2).
  { rewrite insert_app_l by lia. rewrite total_app. cbn [foldr]. change (file_cost (T_FILE, [])) with 0. lia. }
  change (inum_of 0) with ROOTINO in E2. rewrite (bind_run _ _ _ _ _ E2). rewrite insert_app_l in I2 by lia.
  assert (Hlast : (<[0%nat := (T_DIR, D ++ de)]> fs ++ [(T_FILE, [])]) !! length fs = Some (T_FILE, [])) by (rewrite lookup_app_r, length_insert, Nat.sub_diag by (rewrite length_insert; lia); done).
  assert (Hset : <[length fs := (T_FILE, [] ++ content f.2)]> (<[0%nat := (T_DIR, D ++ de)]> fs ++ [(T_FILE, [])]) = <[0%nat := (T_DIR, D ++ de)]> fs ++ [(T_FILE, content f.2)]).
  { rewrite insert_app_r_alt, length_insert, Nat.sub_diag by (rewrite length_insert; lia). done. }
  destruct (reads_inv f.2 s2 _ (length fs) T_FILE [] I2 Hlast) as (s3 & E3 & I3); [unfold len in *; cbn [length]; lia|rewrite Hset, total_app; cbn [foldr]; lia|].
  exists s3. rewrite Hset in I3. split; [exact E3|exact I3].
Qed.

Lemma image_total_mono files files' : (forall f, f ∈ files' -> wf_file f) -> total (image_files files) <= total (image_files (files ++ files')).
Proof.
  revert files. induction files' as [|f fs IH]; intros files Hf; [by rewrite app_nil_r|]. rewrite cons_middle, app_assoc. etransitivity; [|apply IH; intros; apply Hf; by right].
  rewrite image_files_app, total_app. cbn [foldr]. assert (Hc0 : 0 <= file_cost (T_FILE, content f.2)) by (pose proof (file_cost_mono T_FILE T_FILE [] (content f.2)) as Hm; change (file_cost (T_FILE, [])) with 0 in Hm; unfold len in *; cbn [length] in Hm; lia).
  pose proof (total_le (image_files files) 0 (T_DIR, dirents (root_entries files)) (T_DIR, dirents (root_entries files) ++ mkfs_dirent (strip f.1) (inum_of (length (image_files files)))) eq_refl) as Ht.
  rewrite <- Z.add_0_r at 1. apply Z.add_le_mono; [|lia]. apply Ht, file_cost_mono. rewrite len_app. unfold len. lia.
Qed.

Lemma files_inv files' : forall s files, fsinv s (image_files files) -> Forall wf_file files' -> Z.of_nat (length files + length files') + 2 <= NINODES -> total (image_files (files ++ files')) <= FSSIZE ->
  exists s', foreach (map host files') (add_file ROOTINO) s = Ret tt s' /\ fsinv s' (image_files (files ++ files')).
Proof.
  induction files' as [|f fs IH]; intros s files Hinv Hf Hn Hfit; cbn [map foreach].
  - exists s. by rewrite app_nil_r.
  - apply Forall_cons in Hf as [Hf Hfs]. rewrite cons_middle, app_assoc in Hfit. cbn [length] in Hn. destruct (add_file_inv s files f Hinv Hf) as (s1 & E1 & I1).
    + destruct Hinv as [_ [J1 _] _ _ _ _ _ _ _]. rewrite J1, image_len. unfold inum_of. lia.
    + etransitivity; [|exact Hfit]. apply image_total_mono. by apply Forall_forall.
    + rewrite (bind_run _ _ _ _ _ E1). destruct (IH s1 (files ++ [f]) I1 Hfs) as (s2 & E2 & I2); [rewrite length_app; cbn [length]; lia|done|]. exists s2. rewrite <- app_assoc in I2. done.
Qed.

Lemma zero_sectors l : forall s, exists m, foreach l (fun i => wsect i (replicate (Z.to_nat BSIZE) 0)) s = Ret tt (s <| img := m |>) /\
  forall b, m !! b = if decide (b ∈ l) then Some (replicate (Z.to_nat BSIZE) 0) else img s !! b.
Proof.
  induction l as [|i l IH]; intros s; cbn [foreach].
  - exists (img s). split; [by destruct s|]. intros b. rewrite decide_False; [done|]. apply not_elem_of_nil.
  - destruct (IH (s <| img ::= <[i := replicate (Z.to_nat BSIZE) 0]> |>)) as (m & E & Hm). exists m. split; [exact E|]. intros b. rewrite Hm. destruct (decide (b ∈ l)) as [Hb|Hb]; [rewrite decide_True by (by right); done|].
    change (img (s <| img ::= _ |>)) with (<[i := replicate (Z.to_nat BSIZE) 0]> (img s)). destruct (decide (b = i)) as [->|Hne]; [rewrite decide_True by (by left); by rewrite lookup_insert_eq|].
    rewrite lookup_insert_ne, decide_False by (done || (rewrite elem_of_cons; tauto)). done.
Qed.

Lemma begin_inv : exists s, begin_image fresh = Ret tt s /\ fsinv s [].
Proof.
  destruct (zero_sectors (seqZ 0 FSSIZE) (mk_mkstate ∅ 1 nmeta new_sb)) as (m & E & Hm). set (z := replicate (Z.to_nat BSIZE) 0) in *.
  assert (Hz : forall b, 0 <= b < FSSIZE -> m !! b = Some z) by (intros b Hb; rewrite Hm, decide_True; [done|apply elem_of_seqZ; lia]).
  set (m' := <[1 := sb_bytes new_sb]> m). assert (Hz' : forall b, 0 <= b < FSSIZE -> b <> 1 -> m' !! b = Some z) by (intros b Hb Hne; unfold m'; rewrite lookup_insert_ne by done; auto).
  exists (mk_mkstate m' 1 nmeta new_sb). split.
  - unfold begin_image. change fresh with (mk_mkstate ∅ 1 0 (mk_superblock 0 0 0 0 0 0 0)). do 2 (unfold bind at 1; cbn [bindO modify]). erewrite bind_run; [|exact E]. reflexivity.
  - split; try done.
    + split; [cbn [freeblock]; consts; lia| |].
      * intros b Hb. cbn [img]. destruct (decide (b = 1)) as [->|Hne]; [|exists z; split; [by apply Hz'|apply length_replicate]]. exists (sb_bytes new_sb). split; [apply lookup_insert_eq|]. unfold sb_bytes. rewrite put_bytes_length. apply length_replicate.
      * intros b Hb. cbn [img freeblock] in *. apply Hz'; consts; lia.
    + intros i j b Hi. cbn [length] in Hi. lia.
    + intros inum Hi. cbn [img freeinode] in *. pose proof (iblk_range inum ltac:(lia)). unfold the_dinode. rewrite Hz' by (consts; lia). cbn [default from_option id]. unfold get_dinode, get16, z. rewrite !byte_zeros. done.
    + cbn [img]. apply lookup_insert_eq.
    + intros b Hb. cbn [img]. apply Hz'; consts; lia.
Qed.

(** The padding of the root directory to whole blocks. *)
Definition padded (C : list Z) : list Z := C ++ replicate (Z.to_nat ((len C / BSIZE + 1) * BSIZE - len C)) 0.

Lemma padded_len C : len (padded C) = (len C / BSIZE + 1) * BSIZE.
Proof. unfold padded. rewrite len_app. unfold len. rewrite length_replicate. consts. Z.div_mod_to_equations. lia. Qed.

Lemma padded_byte C j : byte (padded C) j = byte C j.
Proof. unfold padded, byte. destruct (decide (j < length C)%nat); [by rewrite lookup_app_l|]. rewrite lookup_app_r, (lookup_ge_None_2 C) by lia. apply byte_zeros. Qed.

Lemma mapped_padded m A fb C : mapped m A fb (nblk (len C)) C -> len C mod BSIZE <> 0 -> mapped m A fb (nblk (len (padded C))) (padded C).
Proof.
  intros HM Hne. assert (En : nblk (len (padded C)) = nblk (len C)) by (rewrite padded_len; unfold nblk, len in *; consts; Z.div_mod_to_equations; lia). rewrite En. destruct HM as [M1 M2 M3 M4 M5 M6 M7 M8 M9]. split; try done.
  - change (Z.of_nat (length (padded C))) with (len (padded C)). rewrite padded_len. unfold nblk, len in *. consts. Z.div_mod_to_equations. lia.
  - intros o Ho. rewrite padded_byte. auto.
Qed.

(** The last size of the root directory. *)
Lemma root_size_inv s fs D : fsinv s ((T_DIR, D) :: fs) -> len D mod BSIZE <> 0 -> len D < MAXFILE * BSIZE -> freeblock s <= FSSIZE ->
  exists s', (let! din := rinode ROOTINO in winode ROOTINO (set_dsize din (xint ((xint (di_size din) / BSIZE + 1) * BSIZE)))) s = Ret tt s' /\ freeblock s' = freeblock s /\ fsinv s' ((T_DIR, padded D) :: fs).
Proof.
  intros Hinv Hne Hlt Hfb. pose proof Hinv as [I1 I2 I3 I4 I5 I6 I7 I8 I9]. destruct (I5 0%nat _ eq_refl) as [F1 F2 F3 F4]. cbn [fst snd] in *. change (inum_of 0) with ROOTINO in *.
  pose proof (iblk_range ROOTINO ltac:(done)) as Hbr. pose proof (rm_range _ _ I3) as Hr. destruct (rm_dom _ _ I3 (iblk ROOTINO) ltac:(consts; lia)) as (buf & Hbuf & Hlb). pose proof (padded_len D) as Hpl.
  assert (HD : 0 <= len D) by (unfold len; lia). assert (Hp : len D < len (padded D) <= MAXFILE * BSIZE) by (rewrite Hpl; consts; Z.div_mod_to_equations; lia).
  set (di := set_dsize (the_dinode (img s) ROOTINO) (len (padded D))). assert (Edi : di = mk_dinode T_DIR 0 0 1 (len (padded D)) (iaddrs (img s) ROOTINO)) by (unfold di; rewrite F1; done).
  assert (Hdi : din_ok di) by (rewrite Edi; split; cbn [di_type di_major di_minor di_nlink di_size di_addrs]; try done; [consts; lia|eapply mapped_addrs; [exact F2|lia]]).
  destruct (winode_run s ROOTINO di I1 ltac:(done) Hdi I3) as (m' & E & W1 & W2 & W3 & W4). exists (s <| img := m' |> <| freeblock := freeblock s |>). split_and!; [|done|].
  - assert (Er : rinode ROOTINO s = Ret (the_dinode (img s) ROOTINO) s) by (unfold rinode; rewrite bind_gets, I1, iblk_IBLOCK by done; rewrite (bind_run _ _ _ _ _ (rsect_run s _ _ Hbuf)); unfold the_dinode; by rewrite Hbuf).
    rewrite (bind_run _ _ _ _ _ Er). replace (xint (di_size (the_dinode (img s) ROOTINO))) with (len D) by (rewrite F1; cbn [di_size]; rewrite xint_id; [done|consts; lia]).
    rewrite <- Hpl, xint_id by (consts; lia). fold di. rewrite E. by destruct s.
  - apply (fsinv_grown s ((T_DIR, D) :: fs) 0 T_DIR D (padded D) (img s) (iaddrs (img s) ROOTINO) (freeblock s) m'); try done; [lia| | |change (inum_of 0) with ROOTINO; by rewrite W1, Edi].
    + split; [done|by apply mapped_padded|done|by left|lia].
    + etransitivity; [exact I4|]. apply (total_le _ 0 (T_DIR, D)); [done|]. apply file_cost_mono. lia.
Qed.

Lemma mark_used_bits n : Z.of_nat n <= BPB -> length (mark_used (Z.of_nat n)) = Z.to_nat BSIZE /\ forall b, 0 <= b -> bit_of (mark_used (Z.of_nat n)) b = (b <? Z.of_nat n).
Proof.
  induction n as [|n IH]; intros Hn.
  - split; [apply length_replicate|]. intros b Hb. change (mark_used (Z.of_nat 0)) with (replicate (Z.to_nat BSIZE) 0). unfold bit_of. rewrite byte_zeros, Z.bits_0. symmetry. apply Z.ltb_ge. lia.
  - destruct (IH ltac:(lia)) as [IH1 IH2]. assert (E : mark_used (Z.of_nat (S n)) = <[bit_byte (Z.of_nat n) := u8 (Z.lor (byte (mark_used (Z.of_nat n)) (bit_byte (Z.of_nat n))) (bit_mask (Z.of_nat n)))]> (mark_used (Z.of_nat n))).
    { unfold mark_used. rewrite seqZ_S, foldl_snoc. done. }
    rewrite E. split; [by rewrite length_insert|]. intros b Hb. rewrite bit_set, IH2 by (done || lia). destruct (Z.ltb_spec b (Z.of_nat n)), (Z.ltb_spec b (Z.of_nat (S n))), (Z.eqb_spec b (Z.of_nat n)); cbn; lia || done.
Qed.

(** The files of the finished image. *)
Definition final_files (files : list (list Z * list (list Z))) : list (Z * list Z) :=
  (T_DIR, padded (dirents (root_entries files))) :: map (fun f => (T_FILE, content f.2)) files.

(** What [mkfs] is run on: names without slashes, contents that fit a file, inodes and
    blocks for all of them, and a last block of the root directory that is not full. *)
Definition wf_files (files : list (list Z * list (list Z))) : Prop :=
  Forall wf_file files /\ Z.of_nat (length files) + 2 <= NINODES /\ total (image_files files) <= FSSIZE /\ (16 * (Z.of_nat (length files) + 2)) mod BSIZE <> 0.

Lemma mkfs_run files : wf_files files ->
  exists s, fsinv s (final_files files) /\ mkfs (map host files) fresh = Ret tt (s <| img ::= <[45 := mark_used (freeblock s)]> |>).
Proof.
  intros (Hf & Hn & Hfit & Hne). destruct begin_inv as (s0 & E0 & I0). unfold mkfs. rewrite (bind_run _ _ _ _ _ E0). change NINODES with 200 in *.
  destruct (ialloc_inv s0 [] T_DIR I0 ltac:(destruct I0 as [_ [-> _] _ _ _ _ _ _ _]; done) ltac:(done)) as (s1 & E1 & I1). rewrite (bind_run _ _ _ _ _ E1). change (inum_of (length [])) with ROOTINO. change (ROOTINO =? ROOTINO) with true. cbn [negb].
  assert (H46 : total (image_files []) <= FSSIZE) by (vm_compute; discriminate).
  destruct (iappend_inv s1 [(T_DIR, [])] 0 T_DIR [] (mkfs_dirent [46] ROOTINO) I1 eq_refl ltac:(vm_compute; discriminate) ltac:(vm_compute; discriminate)) as (s2 & E2 & I2). change (inum_of 0) with ROOTINO in E2. rewrite (bind_run _ _ _ _ _ E2).
  destruct (iappend_inv s2 _ 0 T_DIR _ (mkfs_dirent [46; 46] ROOTINO) I2 eq_refl ltac:(vm_compute; discriminate) ltac:(vm_compute; discriminate)) as (s3 & E3 & I3). change (inum_of 0) with ROOTINO in E3. rewrite (bind_run _ _ _ _ _ E3).
  assert (I3' : fsinv s3 (image_files [])) by (unfold image_files, dirents; cbn [map concat root_entries imap fst snd]; rewrite app_nil_r; exact I3).
  destruct (files_inv files s3 [] I3' Hf ltac:(cbn [length]; change NINODES with 200; lia) Hfit) as (s4 & E4 & I4). cbn [app] in I4. rewrite (bind_run _ _ _ _ _ E4).
  pose proof (rm_range _ _ (fi_room _ _ I4)) as Hr. assert (HD : len (dirents (root_entries files)) = 16 * (Z.of_nat (length files) + 2)) by (rewrite dirents_len, root_entries_len; lia).
  destruct (root_size_inv s4 _ _ I4 ltac:(by rewrite HD) ltac:(rewrite HD; consts; lia) ltac:(lia)) as (s5 & E5 & Hfb5 & I5). exists s5. split; [exact I5|].
  unfold bind in E5 |- *. unfold bindO in E5 |- *. destruct (rinode ROOTINO s4) as [din s'| | | |]; try discriminate. cbv beta zeta. rewrite E5. unfold gets.
  unfold mkfs_balloc. rewrite (proj2 (Z.ltb_lt (freeblock s5) (BSIZE * 8))) by (rewrite Hfb5; consts; lia). cbn [negb]. rewrite bind_gets, (fi_sb _ _ I5). reflexivity.
Qed.

(** ** The kernel's view of the image *)

(** The inode as [ilock] loads it. *)
Definition inode_on (k : kernel) (inum : Z) : inode :=
  from_dinode (get_dinode (default [] (blk k (IBLOCK inum (the_sb k)))) (dinode_off inum)) (zero_inode <| i_dev := 1 |> <| i_inum := inum |>).

Section kernel_view.
Context (k : kernel) (m : gmap Z (list Z)) (fb : Z).
Hypothesis k_blk : forall b, blk k b = m !! b.
Hypothesis k_sb : the_sb k = new_sb.
Hypothesis m_map : m !! 45 = Some (mark_used fb).
Hypothesis m_room : room m fb.

Lemma view_used b : 0 <= b < FSSIZE -> used k b = (b <? fb).
Proof.
  intros Hb. pose proof (rm_range _ _ m_room) as Hr. unfold used. rewrite k_blk, k_sb. replace (BBLOCK b new_sb) with 45.
  - rewrite m_map. rewrite Z.mod_small by (change BPB with 8192; consts; lia). rewrite <- (Z2Nat.id fb) by (consts; lia). apply mark_used_bits; [change BPB with 8192; consts; lia|lia].
  - unfold BBLOCK, u32. change (s_bmapstart new_sb) with 45. change BPB with 8192. consts. rewrite Z.div_small by lia. done.
Qed.

Lemma view_data b : nmeta <= b < fb -> data_block k b.
Proof. intros Hb. pose proof (rm_range _ _ m_room). split; [rewrite k_sb; change (data_start new_sb) with nmeta; change (s_size new_sb) with FSSIZE; lia|]. rewrite view_used by (consts; lia). apply Z.ltb_lt. lia. Qed.

Lemma view_fblock ip n : fblock k ip n = mblock m (i_addrs ip) n.
Proof. unfold fblock, mblock, ind. by rewrite k_blk. Qed.

Lemma view_inode inum : 0 <= inum < NINODES -> inode_on k inum = from_dinode (the_dinode m inum) (zero_inode <| i_dev := 1 |> <| i_inum := inum |>).
Proof. intros H. unfold inode_on, the_dinode. by rewrite k_sb, iblk_IBLOCK, k_blk by done. Qed.

Lemma view_disk : (forall b, disk k !! b = m !! b) -> fs_disk k.
Proof.
  intros Hd. split; rewrite ?k_sb; [done|done| |].
  - intros n Hn. rewrite Hd. destruct (rm_dom _ _ m_room n Hn) as (d & -> & _). by exists d.
  - intros n Hn. change (data_start new_sb) with nmeta in Hn. pose proof (rm_range _ _ m_room). rewrite view_used by (consts; lia). apply Z.ltb_lt. lia.
Qed.

(** A file of the image is a file for the kernel, with the same bytes. *)
Lemma view_file inum f : 0 <= inum < NINODES -> holds_file m fb inum f -> f.1 <> T_DEV ->
  let ip := inode_on k inum in regular k ip /\ i_type ip = f.1 /\ i_nlink ip = 1 /\ i_size ip = len f.2 /\ fbytes k ip 0 (len f.2) = f.2.
Proof.
  intros Hi [F1 F2 F3 F4] Hty ip. unfold ip. rewrite view_inode by done. rewrite F1. set (A := iaddrs m inum) in *. set (jp := from_dinode _ _). pose proof F2 as [M1 M2 M3 M4 M5 M6 M7 M8 M9]. assert (Hl : 0 <= len f.2) by (unfold len; lia).
  assert (Hn : forall n, 0 <= n < MAXFILE -> fblock k jp n <> 0 -> 0 <= n < nblk (len f.2)) by (intros n Hn H0; rewrite view_fblock in H0; change (i_addrs jp) with A in H0; destruct (decide (n < nblk (len f.2))); [lia|]; by rewrite (M5 n) in H0 by lia).
  assert (Hnb : nblk (len f.2) * BSIZE < len f.2 + BSIZE) by (unfold nblk; consts; Z.div_mod_to_equations; lia).
  split_and!; try done.
  - split; [|done|change (i_size jp) with (len f.2); lia|].
    + split; [done|done| | | |].
      * intros n Hr H0. apply view_data. rewrite view_fblock. apply M4. auto.
      * intros H0. apply view_data. exact (mapped_ind _ _ _ _ _ F2 H0).
      * intros H0 n Hr. change (ind jp) with (nth 12 A 0) in *. rewrite view_fblock. change (i_addrs jp) with A. destruct (decide (n < nblk (len f.2))); [apply M7; lia|rewrite M5 by lia; congruence].
      * intros i j Hi1 Hj H0 E. apply M8; [by apply Hn|apply Hn; [done|by rewrite <- E]|]. rewrite !view_fblock in E. exact E.
    + intros n H0 Hsz. change (i_size jp) with (len f.2) in Hsz. rewrite view_fblock. change (i_addrs jp) with A. pose proof (M4 n) as H4. consts. assert (n < nblk (len f.2)) by (unfold nblk; consts; Z.div_mod_to_equations; lia). lia.
  - apply byte_list_eq; [rewrite fbytes_length; unfold len; lia|]. intros j Hj. rewrite fbytes_length in Hj. unfold byte at 1, fbytes. rewrite list_lookup_fmap, lookup_seqZ_lt by lia. cbn [fmap option_fmap option_map default from_option id].
    unfold fbyte. rewrite view_fblock, k_blk. change (i_addrs jp) with A. rewrite Z.add_0_l. specialize (M9 (Z.of_nat j)). unfold mbyte in M9. rewrite Nat2Z.id in M9. apply M9. unfold len in *. lia.
Qed.
End kernel_view.

(** ** The root directory *)

Lemma zero_entry name : ~ named name (replicate 16 0).
Proof. intros [H _]. by apply H. Qed.


Lemma chunk_entry es z j : (j < length es + z)%nat -> take 16 (drop (16 * j) (dirents es ++ replicate (16 * z) 0)) = default [] ((map (fun e => mkfs_dirent e.1 e.2) es ++ replicate z (replicate 16 0)) !! j).
Proof.
  revert j. induction es as [|e es IH]; intros j Hj; cbn [map app length] in *.
  - unfold dirents. cbn [map concat app]. rewrite lookup_replicate_2 by lia. rewrite drop_replicate, take_replicate. cbn [default from_option id]. f_equal. lia.
  - change (dirents (e :: es)) with (mkfs_dirent e.1 e.2 ++ dirents es). rewrite <- app_assoc. destruct j as [|j].
    + cbn [lookup list_lookup default from_option id]. rewrite Nat.mul_0_r, drop_0. rewrite take_app_le by (rewrite mkfs_dirent_len; lia). apply take_ge. by rewrite mkfs_dirent_len.
    + change (default [] ((?a :: ?l) !! S j)) with (default [] (l !! j)). rewrite <- IH by lia. rewrite drop_app_ge by (rewrite mkfs_dirent_len; lia). rewrite mkfs_dirent_len. do 2 f_equal. lia.
Qed.

Lemma fbytes_slice k ip o n sz : 0 <= o -> 0 <= n -> o + n <= sz -> fbytes k ip o n = take (Z.to_nat n) (drop (Z.to_nat o) (fbytes k ip 0 sz)).
Proof.
  intros Ho Hn Hs. apply list_eq. intros j. unfold fbytes. destruct (decide (j < Z.to_nat n)%nat) as [Hj|Hj].
  - rewrite lookup_take_lt, lookup_drop by lia. rewrite !list_lookup_fmap, !lookup_seqZ_lt by lia. cbn. f_equal. f_equal. lia.
  - rewrite lookup_take_ge by lia. apply lookup_ge_None_2. rewrite length_fmap, length_seqZ. lia.
Qed.

Lemma entries_of k ip es z : i_size ip = 16 * Z.of_nat (length es + z) -> fbytes k ip 0 (i_size ip) = dirents es ++ replicate (16 * z) 0 ->
  entries k ip = map (fun e => mkfs_dirent e.1 e.2) es ++ replicate z (replicate 16 0).
Proof.
  intros Hsz Hb. assert (Hl : length (entries k ip) = (length es + z)%nat) by (rewrite entries_length, Hsz; change DIRENT with 16; rewrite Z.mul_comm, Z.div_mul by lia; lia).
  apply list_eq. intros j. destruct (decide (j < length es + z)%nat) as [Hj|Hj].
  - rewrite entries_lookup by lia. change DIRENT with 16. rewrite (fbytes_slice k ip _ 16 (i_size ip)), Hb by lia. replace (Z.to_nat (16 * Z.of_nat j)) with (16 * j)%nat by lia. change (Z.to_nat 16) with 16%nat. rewrite chunk_entry by done.
    destruct (lookup_lt_is_Some_2 (map (fun e => mkfs_dirent e.1 e.2) es ++ replicate z (replicate 16 0)) j) as [x ->]; [rewrite length_app, length_map, length_replicate; lia|done].
  - rewrite !lookup_ge_None_2; [done|rewrite length_app, length_map, length_replicate; lia|lia].
Qed.

Lemma named_dirent name e : 0 < e.2 < 2 ^ 16 -> named name (mkfs_dirent e.1 e.2) <-> same_name name e.1.
Proof. intros He. rewrite mkfs_dirent_mk by lia. unfold named. rewrite de_inum_mk, de_name_mk by lia. split; [tauto|]. intros. split; [lia|done]. Qed.

(** Looking up a name in the root directory finds the first file of that name. *)
Lemma dir_get_root k ip es z name : entries k ip = map (fun e => mkfs_dirent e.1 e.2) es ++ replicate z (replicate 16 0) -> Forall (fun e => 0 < e.2 < 2 ^ 16) es ->
  dir_get k ip name = (fun p => p.2.2) <$> list_find (fun e : list Z * Z => same_name name e.1) es.
Proof.
  intros He Hes. rewrite dir_get_snd, He. clear He. change (fun p : nat * (list Z * Z) => p.2.2) with (@snd (list Z) Z ∘ @snd nat (list Z * Z)). rewrite (option_fmap_compose (@snd nat (list Z * Z))). induction Hes as [|e es He _ IH]; cbn [map app].
  - induction z as [|z IH]; [done|]. cbn [replicate]. rewrite find_snd_cons, decide_False by apply zero_entry. exact IH.
  - rewrite !find_snd_cons. destruct (decide (named name (mkfs_dirent e.1 e.2))) as [Hn|Hn], (decide (same_name name e.1)) as [Hs|Hs].
    + rewrite mkfs_dirent_mk by lia. change (Some (de_inum (mk_dirent e.1 e.2)) = Some e.2). f_equal. apply de_inum_mk. lia.
    + apply named_dirent in Hn; [done|lia].
    + destruct Hn. apply named_dirent; [lia|done].
    + exact IH.
Qed.

Lemma root_range files : Z.of_nat (length files) + 2 <= NINODES -> Forall (fun e : list Z * Z => 0 < e.2 < 2 ^ 16) (root_entries files).
Proof.
  intros Hn. change NINODES with 200 in Hn. unfold root_entries. do 2 (constructor; [done|]). apply Forall_lookup. intros j e Hj. rewrite list_lookup_imap in Hj. destruct (files !! j) as [f|] eqn:E; [|done]. injection Hj as <-. apply lookup_lt_Some in E. cbn [snd]. lia.
Qed.

(** C7: The kernel can use the disk that [mkfs] makes.  For files that fit (names
    without slashes, enough inodes and blocks, and a root directory whose last block is
    not full) [mkfs] succeeds, and in any kernel state in which the disk is its image and
    the superblock has been read from it: the disk is well formed, with an empty log and
    exactly the blocks below [freeblock] marked in use; inode [j + 2] is a regular file
    with the bytes of the [j]-th file; the root is a directory in which looking up a name
    gives the first file of that name; and the other inodes are free. *)
Theorem mkfs_image files : wf_files files -> exists s d1, mkfs (map host files) fresh = Ret tt s /\ img s !! 1 = Some d1 /\
  forall k, (forall b, blk k b = img s !! b) -> (forall b, disk k !! b = img s !! b) ->
    the_sb k = mk_superblock (get32 d1 0) (get32 d1 4) (get32 d1 8) (get32 d1 12) (get32 d1 16) (get32 d1 20) (get32 d1 24) ->
    fs_disk k /\ blk k (s_logstart (the_sb k)) = Some (replicate (Z.to_nat BSIZE) 0) /\ (forall b, 0 <= b < s_size (the_sb k) -> used k b = (b <? freeblock s)) /\
    (forall j f, files !! j = Some f -> let ip := inode_on k (Z.of_nat j + 2) in
      regular k ip /\ i_type ip = T_FILE /\ i_nlink ip = 1 /\ i_size ip = len (content f.2) /\ fbytes k ip 0 (i_size ip) = content f.2) /\
    (let ip := inode_on k ROOTINO in is_dir k ip /\ forall name, dir_get k ip name = (fun p => p.2.2) <$> list_find (fun e : list Z * Z => same_name name e.1) (root_entries files)) /\
    (forall inum, Z.of_nat (length files) + 2 <= inum < s_ninodes (the_sb k) -> i_type (inode_on k inum) = 0).
Proof.
  intros Hwf. destruct (mkfs_run files Hwf) as (s & Hinv & E). eexists _, (sb_bytes new_sb). split; [exact E|]. clear E. destruct Hwf as (_ & Hn & _ & Hmod). pose proof Hinv as [I1 [I2 _] I3 I4 I5 I6 I7 I8 I9].
  set (m := <[45 := mark_used (freeblock s)]> (img s)). set (fb := freeblock s) in *. change (img (s <| img ::= _ |>)) with m in *. change (freeblock (s <| img ::= _ |>)) with fb. pose proof (rm_range _ _ I3) as Hr.
  split; [unfold m; by rewrite lookup_insert_ne, I8 by done|]. intros k Hblk Hdisk Hsb. assert (Esb : the_sb k = new_sb) by (rewrite Hsb; vm_compute; reflexivity).
  assert (Hroom : room m fb). { apply room_insert; [done|consts; lia|]. rewrite <- (Z2Nat.id fb) by (consts; lia). apply mark_used_bits. change BPB with 8192. consts. lia. }
  assert (Hmap : m !! 45 = Some (mark_used fb)) by apply lookup_insert_eq. assert (Hm : forall b, b <> 45 -> m !! b = img s !! b) by (intros; by apply lookup_insert_ne).
  assert (Hdin : forall inum, 0 <= inum < NINODES -> the_dinode m inum = the_dinode (img s) inum) by (intros inum Hi; unfold the_dinode; rewrite Hm; [done|]; pose proof (iblk_range _ Hi); lia).
  assert (Hfile : forall i f, final_files files !! i = Some f -> 0 <= inum_of i < NINODES /\ holds_file m fb (inum_of i) f).
  { intros i f Hi. pose proof (inum_of_range _ i _ Hinv (lookup_lt_Some _ _ _ Hi)) as Hir. split; [done|]. apply (holds_frame (img s) m fb); [by apply I5|lia|by apply Hdin|]. intros b Ho. apply Hm. pose proof (owned_range _ _ _ _ _ _ (hf_map _ _ _ _ (I5 _ _ Hi)) Ho). consts. lia. }
  split_and!.
  - by apply (view_disk k m fb).
  - rewrite Esb, Hblk. change (s_logstart new_sb) with 2. rewrite Hm by done. apply I9. lia.
  - intros b Hb. rewrite Esb in Hb. by apply (view_used k m fb).
  - intros j f Hj. destruct (Hfile (S j) (T_FILE, content f.2)) as [Hir Hh]; [etransitivity; [exact (list_lookup_fmap (fun f => (T_FILE, content f.2)) files j)|by rewrite Hj]|]. replace (inum_of (S j)) with (Z.of_nat j + 2) in * by (unfold inum_of; lia).
    destruct (view_file k m fb Hblk Esb Hmap Hroom _ _ Hir Hh ltac:(done)) as (V1 & V2 & V3 & V4 & V5). cbn zeta. by rewrite V4.
  - destruct (Hfile 0%nat _ eq_refl) as [Hir Hh]. change (inum_of 0) with ROOTINO in *. destruct (view_file k m fb Hblk Esb Hmap Hroom _ _ Hir Hh ltac:(done)) as (V1 & V2 & V3 & V4 & V5). cbn [fst snd] in *. set (D := dirents (root_entries files)) in *.
    assert (HD : len D = 16 * (Z.of_nat (length files) + 2)) by (unfold D; rewrite dirents_len, root_entries_len; lia). pose proof (padded_len D) as Hpl.
    set (z := Z.to_nat ((len (padded D) - len D) / 16)). assert (Hz : (len D / BSIZE + 1) * BSIZE - len D = 16 * Z.of_nat z) by (unfold z; rewrite Hpl, HD; consts; Z.div_mod_to_equations; lia).
    cbn zeta. split; [split; [done|done|rewrite V4, Hpl; change DIRENT with 16; consts; Z.div_mod_to_equations; lia]|]. intros name. apply (dir_get_root _ _ _ z); [|by apply root_range].
    apply entries_of; [rewrite V4, Hpl, root_entries_len; lia|]. rewrite V4, V5. unfold padded. fold D. rewrite Hz. do 2 f_equal. lia.
  - intros inum Hi. rewrite Esb in Hi. change (s_ninodes new_sb) with NINODES in Hi. rewrite (view_inode k m Hblk Esb) by lia. change (i_type (from_dinode ?d _)) with (di_type d). rewrite Hdin by lia. apply I7.
    rewrite I2. unfold inum_of, final_files. cbn [length]. rewrite length_map. lia.
Qed.

(** A kernel with this disk and nothing in its cache. *)
Definition booted (m : gmap Z (list Z)) (sb : superblock) : kernel := zero_kernel <| disk := m |> <| the_sb := sb |>.

Lemma booted_blk m sb b : blk (booted m sb) b = m !! b.
Proof. reflexivity. Qed.

(** Two files, [README] with [hi!] in two reads and [_cat] with [x]. *)
Definition demo_files : list (list Z * list (list Z)) := [([82; 69; 65; 68; 77; 69], [[104; 105]; [33]]); ([95; 99; 97; 116], [[120]])].

Lemma mkfs_image_witness : exists s k, mkfs (map host demo_files) fresh = Ret tt s /\ fs_disk k /\ dir_get k (inode_on k ROOTINO) [99; 97; 116] = Some 3 /\
  fbytes k (inode_on k 2) 0 (i_size (inode_on k 2)) = [104; 105; 33].
Proof.
  destruct (mkfs_image demo_files) as (s & d1 & E & Hd1 & H).
  - split_and!; [repeat constructor; try (by apply (bool_decide_unpack _)); vm_compute; discriminate|done|vm_compute; discriminate|done].
  - exists s, (booted (img s) (mk_superblock (get32 d1 0) (get32 d1 4) (get32 d1 8) (get32 d1 12) (get32 d1 16) (get32 d1 20) (get32 d1 24))).
    destruct (H (booted (img s) _) (booted_blk _ _) (fun _ => eq_refl) eq_refl) as (H1 & H2 & H3 & H4 & [H5 H6] & H7). split_and!; [exact E|exact H1|apply H6|apply (H4 0%nat _ eq_refl)].
Defined.
