(* ===== verification/Hw.v ===== *)
(** * Devices

    The hardware the drivers and the boot loader talk to.  It is a parameter: a type of
    device states with the effect of the port instructions ([inb], [outb], [insl] and
    [outsl] of [src/x86.h]).  [Disk] states what the code relies on of an ATA disk, and
    [toy_disk] is a small device that behaves that way. *)

From S2P Require Import Prelude Headers Bytes.

(** ** Ports *)

(** [port_ins p n] reads [n] 32-bit words, as bytes. *)
Class Machine (D : Type) := {
  port_in : Z -> D -> Z * D;
  port_out : Z -> Z -> D -> D;
  port_ins : Z -> nat -> D -> list Z * D;
  port_outs : Z -> list Z -> D -> D }.

(** Devices with registers in memory: reading and writing a 32-bit word. *)
Class Mmio (D : Type) := {
  mem_in : Z -> D -> Z * D;
  mem_out : Z -> Z -> D -> D }.

(** The states of programs that have a device. *)
Class HasDevice (D S : Type) := { get_dev : S -> D; set_dev : D -> S -> S }.

Section instructions.
Context {D S : Type} `{Machine D} `{HasDevice D S}.

Definition inb (port : Z) : M S Z := fun s => let '(v, d) := port_in port (get_dev s) in Ret v (set_dev d s).
Definition outb (port data : Z) : M S unit := modify (fun s => set_dev (port_out port (u8 data) (get_dev s)) s).
Definition insl (port : Z) (cnt : nat) : M S (list Z) := fun s => let '(l, d) := port_ins port cnt (get_dev s) in Ret l (set_dev d s).
Definition outsl (port : Z) (l : list Z) : M S unit := modify (fun s => set_dev (port_outs port l (get_dev s)) s).
End instructions.

Section registers.
Context {D S : Type} `{Mmio D} `{HasDevice D S}.

Definition mmio_read (a : Z) : M S Z := fun s => let '(v, d) := mem_in a (get_dev s) in Ret v (set_dev d s).
Definition mmio_write (a v : Z) : M S unit := modify (fun s => set_dev (mem_out a (u32 v) (get_dev s)) s).
End registers.

#[export] Instance self_device {D} : HasDevice D D := { get_dev := id; set_dev d _ := d }.

(** ** ATA disks *)

Definition SECTOR_SIZE : Z := 512.

(** The registers of a command: [n] sectors from [lba] on, of drive [drv]. *)
Definition ata_command {D} `{Machine D} (n drv lba cmd : Z) (d : D) : D :=
  let d := port_out 0x1F2 n d in
  let d := port_out 0x1F3 (u8 lba) d in
  let d := port_out 0x1F4 (u8 (Z.shiftr lba 8)) d in
  let d := port_out 0x1F5 (u8 (Z.shiftr lba 16)) d in
  let d := port_out 0x1F6 (Z.lor (Z.lor 0xE0 (Z.shiftl drv 4)) (Z.shiftr lba 24)) d in
  port_out 0x1F7 cmd d.

(** Reading the status register until it says ready and not busy, [n] times at most. *)
Fixpoint await {D} `{Machine D} (n : nat) (d : D) : option (Z * D) :=
  match n with
  | O => None
  | S n => let '(st, d) := port_in 0x1F7 d in if Z.land st 0xC0 =? 0x40 then Some (st, d) else await n d
  end.

Definition read_cmd (n : Z) : Z := if n =? 1 then 0x20 else 0xC4.
Definition write_cmd (n : Z) : Z := if n =? 1 then 0x30 else 0xC5.

(** [n] sectors from [lba] on. *)
Definition run_of (f : Z -> list Z) (lba n : Z) : list Z := concat (f <$> seqZ lba n).

(** Drive [drv] of [d] has the sectors [sector d drv].  Waiting for the drive ends within
    [patience] status reads.  After a read command the data port delivers the sectors
    once the drive is ready, unless it reports an error; a write command stores the
    sectors that are sent.  Nothing else changes a sector. *)
Class Disk (D : Type) `{Machine D} := {
  sector : D -> Z -> Z -> list Z;
  patience : nat;
  sector_size : forall d drv lba, length (sector d drv lba) = Z.to_nat SECTOR_SIZE;
  await_ends : forall d, exists st d', await patience d = Some (st, d');
  await_keeps : forall d st d', await patience d = Some (st, d') -> sector d' = sector d;
  control_keeps : forall d, sector (port_out 0x3F6 0 d) = sector d;
  ata_command_keeps : forall n drv lba cmd d, sector (ata_command n drv lba cmd d) = sector d;
  disk_read : forall n drv lba d st d', 1 <= n <= 2 -> 0 <= drv <= 1 -> 0 <= lba -> lba + n <= 2 ^ 28 ->
    await patience (ata_command n drv lba (read_cmd n) d) = Some (st, d') -> Z.land st 0x21 = 0 ->
    exists d'', port_ins 0x1F0 (Z.to_nat (128 * n)) d' = (run_of (sector d drv) lba n, d'') /\ sector d'' = sector d;
  disk_write : forall n drv lba d l, 1 <= n <= 2 -> 0 <= drv <= 1 -> 0 <= lba -> lba + n <= 2 ^ 28 -> length l = Z.to_nat (SECTOR_SIZE * n) ->
    forall dv b, sector (port_outs 0x1F0 l (ata_command n drv lba (write_cmd n) d)) dv b =
      if decide (dv = drv /\ lba <= b < lba + n) then get_bytes l (Z.to_nat (SECTOR_SIZE * (b - lba))) (Z.to_nat SECTOR_SIZE) else sector d dv b }.

(** A drive that reports no errors. *)
Definition healthy {D} `{Disk D} : Prop := forall (d : D) st d', await patience d = Some (st, d') -> Z.land st 0x21 = 0.

(** ** A device that behaves so *)

Record toy := mk_toy { t_regs : Z -> Z; t_secs : Z -> Z -> list Z; t_out : list Z; t_busy : bool }.

Definition t_lba (r : Z -> Z) : Z := r 0x1F3 + 256 * r 0x1F4 + 65536 * r 0x1F5 + 16777216 * (Z.land (r 0x1F6) 15).
Definition t_drv (r : Z -> Z) : Z := Z.land (Z.shiftr (r 0x1F6) 4) 1.

(** A sector has [SECTOR_SIZE] bytes. *)
Definition pad (l : list Z) : list Z := take (Z.to_nat SECTOR_SIZE) (l ++ replicate (Z.to_nat SECTOR_SIZE) 0).
Definition t_sector (d : toy) (drv lba : Z) : list Z := pad (t_secs d drv lba).

Definition t_in (p : Z) (d : toy) : Z * toy :=
  if p =? 0x1F7 then if t_busy d then (0x80, mk_toy (t_regs d) (t_secs d) (t_out d) false) else (0x40, d) else (0, d).

Definition t_outb (p v : Z) (d : toy) : toy :=
  let r := t_regs d in
  if (0x1F2 <=? p) && (p <=? 0x1F6) then mk_toy (fun q => if q =? p then v else r q) (t_secs d) (t_out d) (t_busy d)
  else if p =? 0x1F7 then
    mk_toy r (t_secs d) (if (v =? 0x20) || (v =? 0xC4) then run_of (t_sector d (t_drv r)) (t_lba r) (r 0x1F2) else t_out d) true
  else d.

Definition t_outs (p : Z) (l : list Z) (d : toy) : toy :=
  let r := t_regs d in
  mk_toy r (fun dv b => if decide (dv = t_drv r /\ t_lba r <= b < t_lba r + r 0x1F2)
                        then get_bytes l (Z.to_nat (SECTOR_SIZE * (b - t_lba r))) (Z.to_nat SECTOR_SIZE) else t_secs d dv b) (t_out d) (t_busy d).

#[export] Instance toy_machine : Machine toy := {
  port_in := t_in;
  port_out := t_outb;
  port_ins _ _ d := (t_out d, d);
  port_outs := t_outs }.

Lemma pad_length l : length (pad l) = Z.to_nat SECTOR_SIZE.
Proof. unfold pad. rewrite length_take, length_app, length_replicate. lia. Qed.

Lemma pad_id l : length l = Z.to_nat SECTOR_SIZE -> pad l = l.
Proof. intros H. unfold pad. rewrite <- H. by rewrite take_app_length. Qed.

(** The registers after a command. *)
Lemma toy_command n drv lba cmd d : 0 <= drv <= 1 -> 0 <= lba < 2 ^ 28 ->
  let r := t_regs (ata_command n drv lba cmd d) in r 0x1F2 = n /\ t_drv r = drv /\ t_lba r = lba.
Proof.
  intros Hd Hl. cbn zeta. assert (Hh : 0 <= Z.shiftr lba 24 < 16) by (rewrite Z.shiftr_div_pow2 by lia; split; [apply Z.div_pos; lia|apply Z.div_lt_upper_bound; lia]).
  assert (Hb : forallb (fun h => (Z.land (Z.lor (Z.lor 0xE0 (Z.shiftl drv 4)) h) 15 =? h) && (Z.land (Z.shiftr (Z.lor (Z.lor 0xE0 (Z.shiftl drv 4)) h) 4) 1 =? drv)) (seqZ 0 16) = true) by (assert (drv = 0 \/ drv = 1) as [->| ->] by lia; reflexivity).
  rewrite forallb_forall in Hb. specialize (Hb (Z.shiftr lba 24)). rewrite andb_true_iff, !Z.eqb_eq in Hb. destruct Hb as [Hb1 Hb2]; [apply list_elem_of_In, elem_of_seqZ; lia|].
  unfold t_drv, t_lba. change (t_regs (ata_command n drv lba cmd d) 0x1F2) with n. change (t_regs (ata_command n drv lba cmd d) 0x1F3) with (u8 lba). change (t_regs (ata_command n drv lba cmd d) 0x1F4) with (u8 (Z.shiftr lba 8)).
  change (t_regs (ata_command n drv lba cmd d) 0x1F5) with (u8 (Z.shiftr lba 16)). change (t_regs (ata_command n drv lba cmd d) 0x1F6) with (Z.lor (Z.lor 0xE0 (Z.shiftl drv 4)) (Z.shiftr lba 24)).
  rewrite Hb1, Hb2. split_and!; [done|done|]. rewrite !Z.shiftr_div_pow2 by lia. unfold u8. change (2 ^ 8) with 256. change (2 ^ 16) with 65536. change (2 ^ 24) with 16777216. change (2 ^ 28) with 268435456 in Hl. Z.div_mod_to_equations. lia.
Qed.

Lemma toy_secs n drv lba cmd d : t_secs (ata_command n drv lba cmd d) = t_secs d.
Proof. reflexivity. Qed.

Lemma toy_await d st d' : await 2 d = Some (st, d') -> t_secs d' = t_secs d /\ t_out d' = t_out d /\ st = 0x40.
Proof. destruct d as [r s o []]; cbn; intros [= <- <-]; done. Qed.

#[export, refine] Instance toy_disk : Disk toy := { sector := t_sector; patience := 2 }.
Proof.
  - intros d drv lba. apply pad_length.
  - intros [r s o []]; by eexists _, _.
  - intros d st d' H. unfold t_sector. by destruct (toy_await d st d' H) as [-> _].
  - reflexivity.
  - reflexivity.
  - intros n drv lba d st d' Hn Hd Hl Hl' Ha _. destruct (toy_await _ _ _ Ha) as (Hs & Ho & _). exists d'. split; [|unfold t_sector; by rewrite Hs].
    change (port_ins 0x1F0 (Z.to_nat (128 * n)) d') with (t_out d', d'). rewrite Ho. f_equal. destruct (toy_command n drv lba (read_cmd n) d Hd ltac:(lia)) as (H1 & H2 & H3).
    transitivity (let r := t_regs (ata_command n drv lba (read_cmd n) d) in run_of (t_sector d (t_drv r)) (t_lba r) (r 0x1F2)); [|cbn zeta; by rewrite H1, H2, H3].
    assert (n = 1 \/ n = 2) as [->| ->] by lia; reflexivity.
  - intros n drv lba d l Hn Hd Hl Hl' Hll dv b. destruct (toy_command n drv lba (write_cmd n) d Hd ltac:(lia)) as (H1 & H2 & H3). unfold t_sector. cbn [port_outs toy_machine t_outs t_secs]. rewrite H1, H2, H3, toy_secs.
    case_decide; [|done]. apply pad_id. unfold get_bytes. rewrite length_take, length_drop, Hll. unfold SECTOR_SIZE. lia.
Defined.

Lemma run_of_1 f lba : run_of f lba 1 = f lba.
Proof. unfold run_of. change (seqZ lba 1) with [lba]. apply app_nil_r. Qed.

Lemma run_of_2 f lba : run_of f lba 2 = f lba ++ f (lba + 1).
Proof. unfold run_of. change (seqZ lba 2) with [lba; 1 + lba]. cbn [fmap list_fmap map concat]. by rewrite app_nil_r, (Z.add_comm 1). Qed.

Lemma toy_healthy : healthy (D := toy).
Proof. intros d st d' H. by destruct (toy_await d st d' H) as (_ & _ & ->). Qed.
