(* ===== verification/Boot.v ===== *)
(** * The boot loader

    [src/bootmain.c]: the kernel's ELF image is read from the disk, sector by sector, into
    physical memory.  The state is the memory, a byte for every address, and the disk
    ([Hw]).  [bootmain] returns the entry point it jumps to, or [None] when it returns to
    [bootasm.S]. *)

From S2P Require Import Prelude CString Headers Bytes Hw.

Definition SECTSIZE : Z := 512.
Definition ELF_SCRATCH : Z := 0x10000.

Record boot (D : Type) := mk_boot { bmem : flat; bdev : D }.
Arguments mk_boot {D}.
Arguments bmem {D}.
Arguments bdev {D}.

#[export] Instance boot_device {D} : HasDevice D (boot D) := { get_dev := bdev; set_dev d s := mk_boot (bmem s) d }.

(** The bytes [l] written from [a] on. *)
Definition poke (a : Z) (l : list Z) (m : flat) : flat :=
  fun x => if (a <=? x) && (x <? a + Z.of_nat (length l)) then default 0 (l !! Z.to_nat (x - a)) else m x.

(** The 32-bit and 16-bit integers at an address. *)
Definition mem32 (m : flat) (a : Z) : Z := get32 (bytes_at m a 4) 0.
Definition mem16 (m : flat) (a : Z) : Z := get16 (bytes_at m a 2) 0.

Section bootmain.
Context {D : Type} `{Disk D}.
Abbreviation B := (M (boot D)).

Definition store (a : Z) (l : list Z) : B unit := modify (fun s => mk_boot (poke a l (bmem s)) (bdev s)).

Definition waitdisk : B unit :=
  loop patience (fun _ : unit => let! st := inb 0x1F7 in ret (if Z.land st 0xC0 =? 0x40 then inr tt else inl tt)) tt.

Definition readsect (dst offset : Z) : B unit :=
  do! waitdisk in
  do! outb 0x1F2 1 in
  do! outb 0x1F3 offset in
  do! outb 0x1F4 (Z.shiftr offset 8) in
  do! outb 0x1F5 (Z.shiftr offset 16) in
  do! outb 0x1F6 (Z.lor (Z.shiftr offset 24) 0xE0) in
  do! outb 0x1F7 0x20 in
  do! waitdisk in
  let! l := insl 0x1F0 (Z.to_nat (SECTSIZE / 4)) in
  store dst l.

Definition readseg_round (epa : Z) (st : Z * Z) : B ((Z * Z) + unit) :=
  let '(pa, offset) := st in
  if pa <? epa then
    do! readsect pa offset in
    ret (inl (u32 (pa + SECTSIZE), u32 (offset + 1)))
  else ret (inr tt).

Definition readseg (pa count offset : Z) : B unit :=
  let epa := u32 (pa + count) in
  let pa := u32 (pa - offset mod SECTSIZE) in
  let offset := offset / SECTSIZE + 1 in
  loop (Z.to_nat (count / SECTSIZE) + 3) (readseg_round epa) (pa, offset).

(** One program header, at [ph]. *)
Definition load_segment (ph : Z) : B unit :=
  let! m := gets bmem in
  let pa := mem32 m (ph + 12) in
  let off := mem32 m (ph + 4) in
  do! readseg pa (mem32 m (ph + 16)) off in
  let! m := gets bmem in
  let filesz := mem32 m (ph + 16) in
  let memsz := mem32 m (ph + 20) in
  when (filesz <? memsz) (store (u32 (pa + filesz)) (replicate (Z.to_nat (memsz - filesz)) 0)).

Definition bootmain : B (option Z) :=
  do! readseg ELF_SCRATCH 4096 0 in
  let! m := gets bmem in
  if negb (mem32 m ELF_SCRATCH =? 0x464C457F) then ret None
  else
    let ph := u32 (ELF_SCRATCH + mem32 m (ELF_SCRATCH + 28)) in
    do! foreach (seqZ 0 (mem16 m (ELF_SCRATCH + 44))) (fun i => load_segment (u32 (ph + 32 * i))) in
    let! m := gets bmem in
    ret (Some (mem32 m (ELF_SCRATCH + 24))).
End bootmain.

(** ** What is loaded *)

Section loads.
Context {D : Type} `{Disk D}.
Implicit Types (d : D) (s : boot D).

Hypothesis disk_healthy : healthy (D := D).

(** Byte [i] of the kernel's file, which starts at sector 1. *)
Definition kbyte d (i : Z) : Z := byte (sector d 0 (i / SECTSIZE + 1)) (Z.to_nat (i mod SECTSIZE)).

Lemma waitdisk_run s : exists st d', await patience (bdev s) = Some (st, d') /\ waitdisk s = Ret tt (mk_boot (bmem s) d').
Proof.
  destruct (await_ends (bdev s)) as (st & d' & E). exists st, d'. split; [done|]. revert E. unfold waitdisk. generalize patience. intros n. destruct s as [m d]. cbn [bdev bmem]. revert d. induction n as [|n IH]; intros d E; [done|].
  cbn [await loop] in *. unfold bind at 1, inb, bind at 1, bindO. cbn [get_dev boot_device bdev]. destruct (port_in 0x1F7 d) as [st1 d1]. cbn [set_dev boot_device bmem]. destruct (Z.land st1 192 =? 64).
  - by injection E as -> ->.
  - exact (IH d1 E).
Qed.

Lemma outb_step {A} p v (f : unit -> M (boot D) A) m d : bind (outb p v) f (mk_boot m d) = f tt (mk_boot m (port_out p (u8 v) d)).
Proof. reflexivity. Qed.

Lemma readsect_run s dst off : 0 <= off -> off + 1 <= 2 ^ 28 ->
  exists d', readsect dst off s = Ret tt (mk_boot (poke dst (sector (bdev s) 0 off) (bmem s)) d') /\ sector d' = sector (bdev s).
Proof.
  intros Ho Ho'. destruct (waitdisk_run s) as (st1 & d1 & A1 & W1). set (d2 := ata_command 1 0 off (read_cmd 1) d1). destruct (waitdisk_run (mk_boot (bmem s) d2)) as (st3 & d3 & A3 & W3). cbn [bmem bdev] in *.
  destruct (disk_read 1 0 off d1 st3 d3 ltac:(lia) ltac:(lia) Ho Ho' A3 (disk_healthy _ _ _ A3)) as (d4 & R & S4). rewrite (await_keeps _ _ _ A1) in S4. exists d4. split; [|done].
  unfold readsect. rewrite (bind_run _ _ _ _ _ W1). rewrite !outb_step.
  assert (Ed : port_out 0x1F7 (u8 0x20) (port_out 0x1F6 (u8 (Z.lor (Z.shiftr off 24) 0xE0)) (port_out 0x1F5 (u8 (Z.shiftr off 16)) (port_out 0x1F4 (u8 (Z.shiftr off 8)) (port_out 0x1F3 (u8 off) (port_out 0x1F2 (u8 1) d1))))) = d2).
  { unfold d2, ata_command. do 2 f_equal. assert (Hh : 0 <= Z.shiftr off 24 < 16) by (rewrite Z.shiftr_div_pow2 by lia; split; [apply Z.div_pos; lia|apply Z.div_lt_upper_bound; lia]).
    rewrite Z.lor_comm. change (Z.lor 0xE0 (Z.shiftl 0 4)) with 0xE0. assert (Hall : forallb (fun h => u8 (Z.lor 0xE0 h) =? Z.lor 0xE0 h) (seqZ 0 16) = true) by reflexivity.
    rewrite forallb_forall in Hall. apply Z.eqb_eq, Hall, list_elem_of_In, elem_of_seqZ. lia. }
  rewrite Ed. rewrite (bind_run _ _ _ _ _ W3). unfold bind, insl. cbn [get_dev boot_device bdev]. change (Z.to_nat (SECTSIZE / 4)) with (Z.to_nat (128 * 1)). rewrite R. unfold bindO, store, modify. cbn [set_dev boot_device bmem bdev]. rewrite run_of_1, (await_keeps _ _ _ A1). done.
Qed.

(** The sectors of a segment: [sectors r count] of them when it starts at byte [r] of
    the first. *)
Definition sectors (r count : Z) : Z := (r + count + SECTSIZE - 1) / SECTSIZE.

Lemma poke_in a l m x : a <= x < a + Z.of_nat (length l) -> poke a l m x = byte l (Z.to_nat (x - a)).
Proof. intros Hx. unfold poke. rewrite (proj2 (Z.leb_le a x)), (proj2 (Z.ltb_lt x _)) by lia. done. Qed.

Lemma poke_out a l m x : ~ a <= x < a + Z.of_nat (length l) -> poke a l m x = m x.
Proof. intros Hx. unfold poke. destruct (Z.leb_spec a x), (Z.ltb_spec x (a + Z.of_nat (length l))); cbn; done || lia. Qed.

Lemma readseg_loop n : forall fuel s pa off epa, (n < fuel)%nat -> 0 <= pa -> 0 <= off -> pa + 512 * Z.of_nat n < 2 ^ 32 -> off + Z.of_nat n <= 2 ^ 28 ->
  (forall j, 0 <= j < Z.of_nat n -> pa + 512 * j < epa) -> epa <= pa + 512 * Z.of_nat n ->
  exists s', loop fuel (readseg_round epa) (pa, off) s = Ret tt s' /\ sector (bdev s') = sector (bdev s) /\
    forall x, bmem s' x = if decide (pa <= x < pa + 512 * Z.of_nat n) then byte (sector (bdev s) 0 (off + (x - pa) / 512)) (Z.to_nat ((x - pa) mod 512)) else bmem s x.
Proof.
  induction n as [|n IH]; intros fuel s pa off epa Hf Hpa Hoff Hmax Hmo Hin Hend; (destruct fuel as [|fuel]; [lia|]); cbn [loop]; unfold readseg_round at 1.
  - exists s. rewrite (proj2 (Z.ltb_ge pa epa)) by lia. split_and!; [done|done|]. intros x. rewrite decide_False by lia. done.
  - pose proof (Hin 0 ltac:(lia)). rewrite (proj2 (Z.ltb_lt pa epa)) by lia. destruct (readsect_run s pa off Hoff ltac:(lia)) as (d1 & E1 & S1). set (s1 := mk_boot (poke pa (sector (bdev s) 0 off) (bmem s)) d1) in *.
    replace (u32 (pa + SECTSIZE)) with (pa + 512) by (unfold u32, SECTSIZE; rewrite Z.mod_small; lia). replace (u32 (off + 1)) with (off + 1) by (unfold u32; rewrite Z.mod_small; lia).
    destruct (IH fuel s1 (pa + 512) (off + 1) epa) as (s2 & E2 & S2 & M2); [lia|lia|lia|lia|lia|intros j Hj; specialize (Hin (j + 1)); lia|lia|].
    exists s2. split_and!; [|by rewrite S2|].
    + unfold bind at 1. rewrite (bind_run _ _ _ _ _ E1). exact E2.
    + pose proof (sector_size (bdev s) 0 off) as Hsz. change (Z.to_nat SECTOR_SIZE) with 512%nat in Hsz. intros x. rewrite M2. change (bdev s1) with d1. rewrite S1. destruct (decide (pa + 512 <= x < pa + 512 + 512 * Z.of_nat n)) as [Hx|Hx].
      * rewrite decide_True by lia. replace (x - pa) with (x - (pa + 512) + 1 * 512) by lia. rewrite Z.div_add, Z.mod_add by lia. do 2 f_equal. lia.
      * change (bmem s1) with (poke pa (sector (bdev s) 0 off) (bmem s)). destruct (decide (pa <= x < pa + 512)) as [Hy|Hy].
        -- rewrite decide_True, poke_in by lia. rewrite Z.div_small, Z.mod_small, Z.add_0_r by lia. done.
        -- rewrite decide_False, poke_out by lia. done.
Qed.

Lemma readseg_run s pa count off : let r := off mod SECTSIZE in 0 <= count -> 0 <= off -> r <= pa -> pa + count + 1024 < 2 ^ 32 -> off + count + 1024 < 2 ^ 37 ->
  exists s', readseg pa count off s = Ret tt s' /\ sector (bdev s') = sector (bdev s) /\
    forall x, bmem s' x = if decide (pa - r <= x < pa - r + 512 * sectors r count) then kbyte (bdev s) (off + (x - pa)) else bmem s x.
Proof.
  intros r Hc Ho Hr Hmax Hmo. assert (Hr0 : 0 <= r < 512) by (apply Z.mod_pos_bound; done). unfold SECTSIZE in r. set (n := Z.to_nat (sectors r count)).
  assert (Hn : Z.of_nat n = sectors r count /\ 512 * Z.of_nat n < r + count + 512 /\ r + count <= 512 * Z.of_nat n) by (unfold n, sectors, SECTSIZE; Z.div_mod_to_equations; lia). destruct Hn as (En & Hn1 & Hn2).
  unfold readseg. unfold SECTSIZE at 1 2 3. fold r. replace (u32 (pa + count)) with (pa + count) by (unfold u32; rewrite Z.mod_small; lia). replace (u32 (pa - r)) with (pa - r) by (unfold u32; rewrite Z.mod_small; lia).
  assert (Hd : off = 512 * (off / 512) + r) by (unfold r; apply Z.div_mod; lia). set (q := off / 512) in *. change (2 ^ 37) with (512 * 2 ^ 28) in Hmo.
  destruct (readseg_loop n (Z.to_nat (count / 512) + 3) s (pa - r) (q + 1) (pa + count)) as (s' & E & S & Mm); [Z.div_mod_to_equations; lia|lia|lia|lia|lia|intros; lia|lia|].
  exists s'. split_and!; [exact E|done|]. intros x. rewrite Mm, En. case_decide as Hx; [|done]. unfold kbyte, SECTSIZE.
  assert (Ex : off + (x - pa) = (x - (pa - r)) + q * 512) by lia. rewrite Ex, Z.div_add, Z.mod_add by lia. do 2 f_equal. lia.
Qed.

(** ** The kernel's image *)

Definition kget32 d (o : Z) : Z := kbyte d o + 256 * kbyte d (o + 1) + 65536 * kbyte d (o + 2) + 16777216 * kbyte d (o + 3).
Definition kget16 d (o : Z) : Z := kbyte d o + 256 * kbyte d (o + 1).

Record segment := mk_segment { sg_off : Z; sg_pa : Z; sg_filesz : Z; sg_memsz : Z }.

Definition phnum d : Z := kget16 d 44.
Definition segment_of d (i : Z) : segment :=
  let ph := kget32 d 28 + 32 * i in mk_segment (kget32 d (ph + 4)) (kget32 d (ph + 12)) (kget32 d (ph + 16)) (kget32 d (ph + 20)).

(** The addresses written for a segment: whole sectors, and the zeros after the file. *)
Definition seg_lo (g : segment) : Z := sg_pa g - sg_off g mod SECTSIZE.
Definition seg_hi (g : segment) : Z := Z.max (seg_lo g + 512 * sectors (sg_off g mod SECTSIZE) (sg_filesz g)) (sg_pa g + sg_memsz g).
Definition touches (g : segment) (x : Z) : Prop := seg_lo g <= x < seg_hi g.
Definition inside (g : segment) (x : Z) : Prop := sg_pa g <= x < sg_pa g + Z.max (sg_filesz g) (sg_memsz g).

(** A kernel that can be loaded: an ELF file with its program headers in the first
    page, segments at addresses below 4G that stay clear of the headers' copy, and none
    that is written over by a later one. *)
Record bootable d : Prop := {
  bo_bytes : forall i, 0 <= kbyte d i < 256;
  bo_magic : kget32 d 0 = 0x464C457F;
  bo_heads : kget32 d 28 + 32 * phnum d <= 4096;
  bo_seg : forall i, 0 <= i < phnum d -> let g := segment_of d i in
    0 <= seg_lo g /\ sg_pa g + sg_filesz g + 1024 < 2 ^ 32 /\ sg_pa g + sg_memsz g < 2 ^ 32;
  bo_scratch : forall i x, 0 <= i < phnum d -> touches (segment_of d i) x -> ~ ELF_SCRATCH <= x < ELF_SCRATCH + 4096;
  bo_order : forall i j x, 0 <= i < j -> j < phnum d -> inside (segment_of d i) x -> ~ touches (segment_of d j) x }.

(** The segment is in memory. *)
Definition loaded d (m : flat) (g : segment) : Prop :=
  (forall x, 0 <= x < sg_filesz g -> m (sg_pa g + x) = kbyte d (sg_off g + x)) /\ (forall x, sg_filesz g <= x < sg_memsz g -> m (sg_pa g + x) = 0).

(** The headers are in the scratch page. *)
Definition heads d (m : flat) : Prop := forall x, 0 <= x < 4096 -> m (ELF_SCRATCH + x) = kbyte d x.

Lemma heads32 d m o : heads d m -> 0 <= o -> o + 4 <= 4096 -> mem32 m (ELF_SCRATCH + o) = kget32 d o.
Proof. intros Hm Ho H4. unfold mem32, kget32, get32, byte. cbn. rewrite <- !Z.add_assoc. cbn [Z.add]. rewrite <- (Hm o), <- (Hm (o + 1)), <- (Hm (o + 2)), <- (Hm (o + 3)) by lia. reflexivity. Qed.

Lemma kget32_range d o : (forall i, 0 <= kbyte d i < 256) -> 0 <= kget32 d o < 2 ^ 32.
Proof. intros Hb. unfold kget32. pose proof (Hb o). pose proof (Hb (o + 1)). pose proof (Hb (o + 2)). pose proof (Hb (o + 3)). lia. Qed.

Lemma load_segment_run s d i : sector (bdev s) = sector d -> bootable d -> heads d (bmem s) -> 0 <= i < phnum d -> let g := segment_of d i in
  exists s', load_segment (ELF_SCRATCH + kget32 d 28 + 32 * i) s = Ret tt s' /\ sector (bdev s') = sector d /\ loaded d (bmem s') g /\ (forall x, ~ touches g x -> bmem s' x = bmem s x).
Proof.
  intros Hs Hb Hh Hi g. destruct Hb as [B1 B2 B3 B4 B5 B6]. destruct (B4 i Hi) as (G1 & G2 & G3). fold g in G1, G2, G3. set (ph := kget32 d 28 + 32 * i). pose proof (kget32_range d 28 B1) as Hph.
  assert (Hf : forall m o, heads d m -> 0 <= o <= 28 -> mem32 m (ELF_SCRATCH + kget32 d 28 + 32 * i + o) = kget32 d (ph + o)) by (intros m o Hm Ho; rewrite <- (heads32 d m (ph + o)); [replace (ELF_SCRATCH + (ph + o)) with (ELF_SCRATCH + kget32 d 28 + 32 * i + o) by (unfold ph; lia); done|done|unfold ph; lia|unfold ph; lia]).
  pose proof (kget32_range d (ph + 4) B1) as R1. pose proof (kget32_range d (ph + 12) B1) as R2. pose proof (kget32_range d (ph + 16) B1) as R3. pose proof (kget32_range d (ph + 20) B1) as R4.
  assert (Eg : g = mk_segment (kget32 d (ph + 4)) (kget32 d (ph + 12)) (kget32 d (ph + 16)) (kget32 d (ph + 20))) by done. unfold load_segment. rewrite bind_gets, !Hf by (done || lia).
  assert (Ek : forall x, kbyte (bdev s) x = kbyte d x) by (intros x; unfold kbyte; by rewrite Hs).
  destruct (readseg_run s (sg_pa g) (sg_filesz g) (sg_off g)) as (s1 & E1 & S1 & M1); [rewrite Eg; cbn; lia|rewrite Eg; cbn; lia|unfold seg_lo in G1; fold g in G1; lia|exact G2|change (2 ^ 37) with (32 * 2 ^ 32); rewrite Eg in *; cbn [sg_off sg_pa sg_filesz sg_memsz] in *; lia|].
  rewrite Eg in E1. cbn [sg_pa sg_filesz sg_off] in E1. rewrite (bind_run _ _ _ _ _ E1). set (r := sg_off g mod SECTSIZE) in *. set (n := sectors r (sg_filesz g)) in *.
  assert (Hn : 512 * n < r + sg_filesz g + 512 /\ r + sg_filesz g <= 512 * n /\ 0 <= r) by (unfold n, sectors, r, SECTSIZE; Z.div_mod_to_equations; lia).
  assert (Hlo : seg_lo g = sg_pa g - r) by done. assert (Hhi : seg_hi g = Z.max (sg_pa g - r + 512 * n) (sg_pa g + sg_memsz g)) by done.
  assert (Hh1 : heads d (bmem s1)). { intros x Hx. rewrite M1, decide_False; [by apply Hh|]. intros Hin. apply (B5 i (ELF_SCRATCH + x) Hi); [|lia]. fold g. unfold touches. rewrite Hlo, Hhi. lia. }
  rewrite bind_gets, !Hf by (done || lia). change (kget32 d (ph + 16)) with (sg_filesz g). change (kget32 d (ph + 20)) with (sg_memsz g). change (kget32 d (ph + 12)) with (sg_pa g).
  assert (H0f : 0 <= sg_filesz g) by (rewrite Eg; cbn; lia). destruct (Z.ltb_spec (sg_filesz g) (sg_memsz g)) as [Hlt|Hge]; cbn [when].
  - unfold store, modify. eexists. split_and!; [reflexivity|cbn [bdev]; by rewrite S1|split|]; cbn [bmem]; replace (u32 (sg_pa g + sg_filesz g)) with (sg_pa g + sg_filesz g) by (unfold u32; rewrite Z.mod_small; lia).
    + intros x Hx. rewrite poke_out by lia. rewrite M1, decide_True, Ek by lia. f_equal. lia.
    + intros x Hx. rewrite poke_in by (rewrite length_replicate; lia). unfold byte. rewrite lookup_replicate_2 by lia. done.
    + intros x Hx. unfold touches in Hx. rewrite Hlo, Hhi in Hx. rewrite poke_out by (rewrite length_replicate; lia). rewrite M1, decide_False by lia. done.
  - exists s1. split_and!; [done|by rewrite S1|split|].
    + intros x Hx. rewrite M1, decide_True, Ek by lia. f_equal. lia.
    + intros x Hx. lia.
    + intros x Hx. unfold touches in Hx. rewrite Hlo, Hhi in Hx. rewrite M1, decide_False by lia. done.
Qed.

Lemma loaded_frame d m m' g : loaded d m g -> 0 <= sg_filesz g -> (forall x, inside g x -> m' x = m x) -> loaded d m' g.
Proof. intros [L1 L2] Lz Hf. split; intros x Hx; rewrite Hf by (unfold inside; lia); auto. Qed.

Lemma segments_run d n : bootable d -> forall i s, 0 <= i -> i + Z.of_nat n = phnum d -> sector (bdev s) = sector d -> heads d (bmem s) -> (forall j, 0 <= j < i -> loaded d (bmem s) (segment_of d j)) ->
  exists s', foreach (seqZ i (Z.of_nat n)) (fun i => load_segment (u32 (ELF_SCRATCH + kget32 d 28 + 32 * i))) s = Ret tt s' /\ heads d (bmem s') /\ (forall j, 0 <= j < phnum d -> loaded d (bmem s') (segment_of d j)).
Proof.
  intros Hb. pose proof Hb as [B1 B2 B3 B4 B5 B6]. induction n as [|n IH]; intros i s Hi En Hs Hh Hl.
  - exists s. split_and!; [done|done|]. intros j Hj. apply Hl. lia.
  - rewrite seqZ_cons by lia. cbn [foreach]. pose proof (kget32_range d 28 B1). replace (u32 (ELF_SCRATCH + kget32 d 28 + 32 * i)) with (ELF_SCRATCH + kget32 d 28 + 32 * i) by (unfold u32, ELF_SCRATCH; rewrite Z.mod_small; lia).
    destruct (load_segment_run s d i Hs Hb Hh ltac:(lia)) as (s1 & E1 & S1 & L1 & F1). rewrite (bind_run _ _ _ _ _ E1). replace (Z.pred (Z.of_nat (S n))) with (Z.of_nat n) by lia. apply IH; [lia|lia|done| |].
    + intros x Hx. rewrite F1; [by apply Hh|]. intros Ht. apply (B5 i (ELF_SCRATCH + x)); [lia|done|lia].
    + intros j Hj. destruct (decide (j = i)) as [->|Hne]; [done|]. apply (loaded_frame d (bmem s)); [apply Hl; lia|apply kget32_range, B1|]. intros x Hx. apply F1. apply (B6 j i x); [lia|lia|done].
Qed.
End loads.

(** C16: the boot loader loads the kernel.  From a disk that reports no errors and holds a
    loadable ELF kernel (headers in the first page, segments clear of the headers' copy
    and of each other), [bootmain] ends and jumps to the entry point of the header, and
    every segment is then in memory: the bytes of the file at its physical address,
    followed by zeros up to its size in memory, although whole sectors are read around
    it.  No segment has to start on a sector boundary of the file, which [src/Notes]
    asks for: what is needed is only that the sectors read for a segment touch neither
    the headers' copy nor a segment loaded before ([bo_scratch], [bo_order]). *)
Theorem bootmain_loads {D} `{Disk D} (s : boot D) : healthy (D := D) -> bootable (bdev s) ->
  exists s', bootmain s = Ret (Some (kget32 (bdev s) 24)) s' /\ forall i, 0 <= i < phnum (bdev s) -> loaded (bdev s) (bmem s') (segment_of (bdev s) i).
Proof.
  intros Hd Hb. pose proof Hb as [B1 B2 B3 B4 B5 B6]. set (d := bdev s) in *. unfold bootmain.
  destruct (readseg_run Hd s ELF_SCRATCH 4096 0) as (s1 & E1 & S1 & M1); [lia|lia|done|done|done|]. rewrite (bind_run _ _ _ _ _ E1).
  assert (Hh : heads d (bmem s1)) by (intros x Hx; rewrite M1, decide_True; [unfold d; f_equal; lia|change (0 mod SECTSIZE) with 0; change (sectors 0 4096) with 8; lia]).
  assert (E0 : mem32 (bmem s1) ELF_SCRATCH = 0x464C457F) by (rewrite <- B2, <- (heads32 d (bmem s1) 0) by (done || lia); done).
  rewrite bind_gets, E0. change (0x464C457F =? 0x464C457F) with true. cbn [negb]. rewrite (heads32 d) by (done || lia).
  assert (E16 : mem16 (bmem s1) (ELF_SCRATCH + 44) = phnum d) by (unfold mem16, get16, byte, phnum, kget16; change (44 + 1) with 45; rewrite <- (Hh 44), <- (Hh 45) by lia; done). rewrite E16.
  pose proof (kget32_range d 28 B1). assert (H16 : 0 <= phnum d < 2 ^ 16) by (unfold phnum, kget16; pose proof (B1 44); pose proof (B1 45); change (44 + 1) with 45; lia).
  destruct (segments_run Hd d (Z.to_nat (phnum d)) Hb 0 s1 ltac:(lia) ltac:(lia) S1 Hh ltac:(intros; lia)) as (s2 & E2 & H2 & L2). rewrite Z2Nat.id in E2 by lia.
  replace (u32 (ELF_SCRATCH + kget32 d 28)) with (ELF_SCRATCH + kget32 d 28) by (unfold u32, ELF_SCRATCH; rewrite Z.mod_small; lia). rewrite (bind_run _ _ _ _ _ E2). exists s2. split; [|done].
  rewrite bind_gets. unfold ret. rewrite (heads32 d) by (done || lia). done.
Qed.

(** A one-segment kernel: its header in sector 1, three bytes of the segment in sector 2. *)
Definition tiny_header : list Z :=
  [0x7F; 0x45; 0x4C; 0x46] ++ replicate 20 0 ++ [0x0C; 0; 0x10; 0] ++ [52; 0; 0; 0] ++ replicate 12 0 ++ [1; 0] ++ replicate 10 0
  ++ [4; 2; 0; 0] ++ replicate 4 0 ++ [4; 0; 0x10; 0] ++ [3; 0; 0; 0] ++ [8; 0; 0; 0].
Definition tiny_disk : toy :=
  mk_toy (fun _ => 0) (fun _ b => if b =? 1 then tiny_header else if b =? 2 then [9; 9; 9; 9; 1; 2; 3] else []) [] false.

Lemma tiny_bootable : bootable tiny_disk.
Proof.
  assert (Hn : phnum tiny_disk = 1) by reflexivity. assert (Hg : segment_of tiny_disk 0 = mk_segment 516 0x100004 3 8) by reflexivity. split.
  - intros i. unfold kbyte, byte. cbn [sector toy_disk]. set (k := i / SECTSIZE + 1). set (j := Z.to_nat (i mod SECTSIZE)). assert (Hf : Forall (fun x => 0 <= x < 256) (t_sector tiny_disk 0 k)).
    { unfold t_sector, tiny_disk, t_secs. destruct (k =? 1); [|destruct (k =? 2)]; apply (bool_decide_unpack _); vm_compute; exact I. }
    destruct (t_sector tiny_disk 0 k !! j) eqn:E; cbn; [by apply (Forall_lookup_1 _ _ _ _ Hf E)|lia].
  - reflexivity.
  - done.
  - intros i Hi. replace i with 0 by lia. rewrite Hg. done.
  - intros i x Hi. replace i with 0 by lia. rewrite Hg. unfold touches. change (seg_lo _) with 0x100000. change (seg_hi _) with 0x100200. unfold ELF_SCRATCH. lia.
  - intros i j x Hi Hj. lia.
Qed.

Lemma bootmain_loads_witness : let s := mk_boot (fun _ => 7) tiny_disk in
  exists s', bootmain s = Ret (Some 0x10000C) s' /\ map (bmem s') (seqZ 0x100004 8) = [1; 2; 3; 0; 0; 0; 0; 0].
Proof.
  cbn zeta. destruct (bootmain_loads (mk_boot (fun _ => 7) tiny_disk) toy_healthy tiny_bootable) as (s' & E & L). exists s'. split; [exact E|].
  destruct (L 0 ltac:(vm_compute; by split)) as [L1 L2]. change (sg_pa _) with 0x100004 in *. change (sg_filesz _) with 3 in *. change (sg_memsz _) with 8 in *. change (sg_off _) with 516 in L1. cbn [bdev] in L1.
  change (seqZ 0x100004 8) with (map (Z.add 0x100004) [0; 1; 2; 3; 4; 5; 6; 7]). cbn [map]. rewrite (L1 0), (L1 1), (L1 2), (L2 3), (L2 4), (L2 5), (L2 6), (L2 7) by lia. reflexivity.
Defined.
