(* ===== verification/Mp.v ===== *)
(** * The multiprocessor tables

    [src/mp.c] and the structures of [src/mp.h]: the search for the floating pointer
    structure that the BIOS leaves in low memory, the checks on the configuration table it
    points to, and the scan of the table's entries.  Memory is the kernel's own view, in
    which [None] is an address that is not mapped.  The scan takes its fuel as an
    argument, because it does not end on every table. *)

From S2P Require Import Prelude CString Headers Bytes Hw.

(** ** mp.h *)

Definition sizeof_mp : Z := 16.
Definition sizeof_mpconf : Z := 44.
Definition sizeof_mpproc : Z := 20.
Definition sizeof_mpioapic : Z := 8.
Definition MPPROC : Z := 0.
Definition MPBUS : Z := 1.
Definition MPIOAPIC : Z := 2.
Definition MPIOINTR : Z := 3.
Definition MPLINTR : Z := 4.

(** ** mp.c *)

Definition NCPU : nat := 8.

(** [cpu_apicid] is the [apicid] field of the entries of [cpus]. *)
Record mpstate (D : Type) := mk_mpstate {
  vmem : Z -> option Z; cpu_apicid : list Z; ncpu : Z; ioapicid : Z; lapic : Z; mp_dev : D }.
Arguments mk_mpstate {D}.
Arguments vmem {D}.
Arguments cpu_apicid {D}.
Arguments ncpu {D}.
Arguments ioapicid {D}.
Arguments lapic {D}.
Arguments mp_dev {D}.
#[export] Instance eta_mpstate {D} : Eta (mpstate D) := fun r => mk_mpstate (vmem r) (cpu_apicid r) (ncpu r) (ioapicid r) (lapic r) (mp_dev r).
#[export] Instance set_cpu_apicid {D} : Setter (@cpu_apicid D) := ltac:(mk_setter).
#[export] Instance set_ncpu {D} : Setter (@ncpu D) := ltac:(mk_setter).
#[export] Instance set_ioapicid {D} : Setter (@ioapicid D) := ltac:(mk_setter).
#[export] Instance set_lapic {D} : Setter (@lapic D) := ltac:(mk_setter).
#[export] Instance set_mp_dev {D} : Setter (@mp_dev D) := ltac:(mk_setter).
#[export] Instance mp_device {D} : HasDevice D (mpstate D) := { get_dev := mp_dev; set_dev d s := s <| mp_dev := d |> }.

Section mp.
Context {D : Type} `{Machine D}.
Abbreviation B := (M (mpstate D)).

(** Bytes and little-endian integers of memory. *)
Definition vload (a : Z) : B Z := let! m := gets vmem in ofopt (m a).
Definition vload16 (a : Z) : B Z := let! x := vload a in let! y := vload (a + 1) in ret (x + 256 * y).
Definition vload32 (a : Z) : B Z := let! x := vload16 a in let! y := vload16 (a + 2) in ret (x + 65536 * y).

(** [memcmp(p, lit, n) == 0]. *)
Fixpoint same_bytes (p : Z) (lit : list Z) : B bool :=
  match lit with
  | [] => ret true
  | c :: lit => let! x := vload p in if x =? c then same_bytes (p + 1) lit else ret false
  end.

Fixpoint sum_loop (addr : Z) (len : nat) (acc : Z) : B Z :=
  match len with
  | O => ret acc
  | S len => let! x := vload addr in sum_loop (addr + 1) len (acc + x)
  end.
Definition sum (addr len : Z) : B Z := let! t := sum_loop addr (Z.to_nat len) 0 in ret (u8 t).

Definition MP_SIGNATURE : list Z := [0x5F; 0x4D; 0x50; 0x5F].
Definition PCMP_SIGNATURE : list Z := [0x50; 0x43; 0x4D; 0x50].

Definition mpsearch1_round (e p : Z) : B (Z + option Z) :=
  if p <? e then
    let! c := same_bytes p MP_SIGNATURE in
    if c then
      let! t := sum p sizeof_mp in
      ret (if t =? 0 then inr (Some p) else inl (u32 (p + sizeof_mp)))
    else ret (inl (u32 (p + sizeof_mp)))
  else ret (inr None).

Definition mpsearch1 (a len : Z) : B (option Z) :=
  let addr := P2V a in
  let e := u32 (addr + len) in
  loop (Z.to_nat (len / sizeof_mp) + 1) (mpsearch1_round e) addr.

Definition mpsearch : B (option Z) :=
  let bda := P2V 0x400 in
  let! hi := vload (bda + 0x0F) in
  let! lo := vload (bda + 0x0E) in
  let p := Z.shiftl (Z.lor (Z.shiftl hi 8) lo) 4 in
  let! mp :=
    if negb (p =? 0) then mpsearch1 p 1024
    else
      let! hi := vload (bda + 0x14) in
      let! lo := vload (bda + 0x13) in
      let p := Z.lor (Z.shiftl hi 8) lo * 1024 in
      mpsearch1 (u32 (p - 1024)) 1024 in
  match mp with
  | Some mp => ret (Some mp)
  | None => mpsearch1 0xF0000 0x10000
  end.

(** The floating pointer structure and the configuration table. *)
Definition mpconfig : B (option (Z * Z)) :=
  let! r := mpsearch in
  match r with
  | None => ret None
  | Some mp =>
      let! physaddr := vload32 (mp + 4) in
      if physaddr =? 0 then ret None
      else
        let conf := P2V physaddr in
        let! sig := same_bytes conf PCMP_SIGNATURE in
        if negb sig then ret None
        else
          let! version := vload (conf + 6) in
          if negb (version =? 1) && negb (version =? 4) then ret None
          else
            let! length := vload16 (conf + 4) in
            let! t := sum conf length in
            ret (if negb (t =? 0) then None else Some (mp, conf))
  end.

(** One round of the scan, at [p]; [ismp] is the flag.  In the [default] case [break] leaves
    the [switch] only. *)
Definition mpinit_round (e : Z) (st : Z * bool) : B ((Z * bool) + bool) :=
  let '(p, ismp) := st in
  if p <? e then
    let! ty := vload p in
    if ty =? MPPROC then
      let! n := gets ncpu in
      do! when (n <? Z.of_nat NCPU) (
        let! apicid := vload (p + 1) in
        modify (fun s => s <| cpu_apicid ::= <[Z.to_nat n := apicid]> |> <| ncpu ::= Z.add 1 |>)) in
      ret (inl (u32 (p + sizeof_mpproc), ismp))
    else if ty =? MPIOAPIC then
      let! apicno := vload (p + 1) in
      do! modify (fun s => s <| ioapicid := apicno |>) in
      ret (inl (u32 (p + sizeof_mpioapic), ismp))
    else if (ty =? MPBUS) || (ty =? MPIOINTR) || (ty =? MPLINTR) then ret (inl (u32 (p + 8), ismp))
    else ret (inl (p, false))
  else ret (inr ismp).

Definition mpinit (fuel : nat) : B unit :=
  let! r := mpconfig in
  match r with
  | None => panic "Expect to run on an SMP"
  | Some (mp, conf) =>
      let! lapicaddr := vload32 (conf + 36) in
      do! modify (fun s => s <| lapic := lapicaddr |>) in
      let! length := vload16 (conf + 4) in
      let! ismp := loop fuel (mpinit_round (u32 (conf + length))) (u32 (conf + sizeof_mpconf), true) in
      if negb ismp then panic "Didn't find a suitable machine"
      else
        let! imcrp := vload (mp + 12) in
        when (negb (imcrp =? 0)) (
          do! outb 0x22 0x70 in
          let! v := inb 0x23 in
          outb 0x23 (Z.lor v 1))
  end.

(** ** proc.c: which processor is this *)

(** [lapicid()] is [apicid]; [fl_if] is the interrupt flag. *)
Definition mycpu (fl_if : bool) (apicid : Z) : B Z :=
  if fl_if then panic "mycpu called with interrupts enabled"
  else
    let! n := gets ncpu in
    let! r := first_of (seqZ 0 n) (fun i =>
      let! ids := gets cpu_apicid in
      let! x := ofopt (zget ids i) in
      ret (if x =? apicid then Some i else None)) in
    match r with Some i => ret i | None => panic "unknown apicid" end.

(** The index of the [struct cpu]. *)
Definition cpuid (fl_if : bool) (apicid : Z) : B Z := mycpu fl_if apicid.
End mp.

(** ** What is found *)

(** The byte at an address, the addresses [a] to [a + n - 1] being mapped. *)
Definition byt (m : Z -> option Z) (a : Z) : Z := default 0 (m a).
Definition mapped (m : Z -> option Z) (a n : Z) : Prop := forall x, a <= x < a + n -> is_Some (m x).
Definition bytes (m : Z -> option Z) (a : Z) (n : nat) : list Z := byt m <$> seqZ a (Z.of_nat n).
Definition total (l : list Z) : Z := foldr Z.add 0 l.

(** A floating pointer structure: its signature, and bytes that add up to 0. *)
Definition valid_mp (m : Z -> option Z) (p : Z) : bool := bool_decide (bytes m p 4 = MP_SIGNATURE) && (u8 (total (bytes m p 16)) =? 0).

Fixpoint chunk (a : Z) (n : nat) : list Z := match n with O => [] | S n => a :: chunk (a + sizeof_mp) n end.

(** Where the structure may be, in the order of the search: the first kilobyte of the EBDA
    or, without an EBDA, the last kilobyte of base memory; then the BIOS ROM. *)
Definition ebda (m : Z -> option Z) : Z := 16 * (256 * byt m (P2V 0x40F) + byt m (P2V 0x40E)).
Definition basemem (m : Z -> option Z) : Z := 1024 * (256 * byt m (P2V 0x414) + byt m (P2V 0x413)).
Definition places (m : Z -> option Z) : list Z :=
  chunk (KERNBASE + (if ebda m =? 0 then basemem m - 1024 else ebda m)) 64 ++ chunk (KERNBASE + 0xF0000) 4096.

(** Physical memory is mapped and made of bytes, and there is some base memory. *)
Record low_memory (m : Z -> option Z) : Prop := {
  lm_mapped : mapped m KERNBASE PHYSTOP;
  lm_bytes : forall a x, m a = Some x -> 0 <= x < 256;
  lm_base : ebda m <> 0 \/ basemem m <> 0 }.

Lemma bytes_S m a n : bytes m a (S n) = byt m a :: bytes m (a + 1) n.
Proof. unfold bytes. rewrite seqZ_cons by lia. cbn [fmap list_fmap]. rewrite Nat2Z.inj_succ, Z.pred_succ. by rewrite <- Z.add_1_r. Qed.

Section finds.
Context {D : Type} `{Machine D}.
Implicit Types s : mpstate D.

Lemma bind_vload {A} (f : Z -> M (mpstate D) A) a s : is_Some (vmem s a) -> bind (vload a) f s = f (byt (vmem s) a) s.
Proof. intros [x E]. unfold vload, bind, gets, byt. cbn. by rewrite E. Qed.

Lemma bind_vload16 {A} (f : Z -> M (mpstate D) A) a s : mapped (vmem s) a 2 -> bind (vload16 a) f s = f (byt (vmem s) a + 256 * byt (vmem s) (a + 1)) s.
Proof. intros Hm. unfold vload16. unfold bind at 1. rewrite bind_vload, bind_vload by (apply Hm; lia). done. Qed.

Definition word32 (m : Z -> option Z) (a : Z) : Z := byt m a + 256 * byt m (a + 1) + 65536 * (byt m (a + 2) + 256 * byt m (a + 2 + 1)).

Lemma bind_vload32 {A} (f : Z -> M (mpstate D) A) a s : mapped (vmem s) a 4 -> bind (vload32 a) f s = f (word32 (vmem s) a) s.
Proof. intros Hm. unfold vload32. unfold bind at 1. rewrite bind_vload16, bind_vload16 by (intros x Hx; apply Hm; lia). done. Qed.

Lemma same_bytes_run s lit : forall p, mapped (vmem s) p (Z.of_nat (length lit)) -> same_bytes p lit s = Ret (bool_decide (bytes (vmem s) p (length lit) = lit)) s.
Proof.
  induction lit as [|c lit IH]; intros p Hm; [done|]. cbn [same_bytes length]. rewrite bind_vload by (apply Hm; cbn; lia). rewrite bytes_S. destruct (Z.eqb_spec (byt (vmem s) p) c) as [->|Hne].
  - rewrite IH by (intros x Hx; apply Hm; cbn; lia). f_equal. apply bool_decide_ext. split; [by intros ->|by intros [= ->]].
  - rewrite bool_decide_eq_false_2; [done|]. by intros [=].
Qed.

Lemma sum_loop_run s n : forall a acc, mapped (vmem s) a (Z.of_nat n) -> sum_loop a n acc s = Ret (acc + total (bytes (vmem s) a n)) s.
Proof.
  induction n as [|n IH]; intros a acc Hm; [cbn; by rewrite Z.add_0_r|]. cbn [sum_loop]. rewrite bind_vload by (apply Hm; lia). rewrite IH by (intros x Hx; apply Hm; lia). rewrite bytes_S. cbn [total foldr]. f_equal. unfold total. lia.
Qed.

Lemma sum_run s a n : mapped (vmem s) a n -> sum a n s = Ret (u8 (total (bytes (vmem s) a (Z.to_nat n)))) s.
Proof. intros Hm. unfold sum. erewrite bind_run; [|apply sum_loop_run; intros x Hx; apply Hm; lia]. done. Qed.

Lemma mpsearch1_loop s k : forall p e, 0 <= p -> e = p + 16 * Z.of_nat k -> e < 2 ^ 32 -> mapped (vmem s) p (16 * Z.of_nat k) ->
  loop (k + 1) (mpsearch1_round e) p s = Ret (find (valid_mp (vmem s)) (chunk p k)) s.
Proof.
  induction k as [|k IH]; intros p e H0 He Hb Hm.
  - cbn. unfold bind, mpsearch1_round. destruct (Z.ltb_spec p e); [lia|done].
  - cbn [Nat.add loop chunk find]. unfold mpsearch1_round at 1, valid_mp. destruct (Z.ltb_spec p e); [|lia]. unfold bind at 1. erewrite bind_run; [|apply (same_bytes_run s MP_SIGNATURE); intros x Hx; apply Hm; cbn in Hx; lia].
    change (length MP_SIGNATURE) with 4%nat. destruct (bool_decide (bytes (vmem s) p 4 = MP_SIGNATURE)); cbn [andb].
    + erewrite bind_run; [|apply sum_run; intros x Hx; apply Hm; unfold sizeof_mp in Hx; lia]. change (Z.to_nat sizeof_mp) with 16%nat. unfold ret. destruct (_ =? 0); [done|]. cbn [bindO]. unfold u32, sizeof_mp. rewrite Z.mod_small by lia. apply IH; [lia|lia|lia|]. intros x Hx. apply Hm. lia.
    + cbn [bindO ret]. unfold u32, sizeof_mp. rewrite Z.mod_small by lia. apply IH; [lia|lia|lia|]. intros x Hx. apply Hm. lia.
Qed.

Lemma mpsearch1_run s a k : 0 <= a -> a + 16 * Z.of_nat k <= PHYSTOP -> mapped (vmem s) KERNBASE PHYSTOP ->
  mpsearch1 a (16 * Z.of_nat k) s = Ret (find (valid_mp (vmem s)) (chunk (KERNBASE + a) k)) s.
Proof.
  intros H0 Hk Hm. unfold mpsearch1, P2V, u32, sizeof_mp. unfold PHYSTOP, KERNBASE in *. rewrite (Z.mod_small (a + _)) by lia. rewrite Z.mul_comm, Z.div_mul, Nat2Z.id by lia. rewrite Z.mod_small by lia.
  rewrite (Z.add_comm a). apply mpsearch1_loop; [lia|lia|lia|]. intros x Hx. apply Hm. lia.
Qed.

Lemma find_app {A} (f : A -> bool) l1 l2 : find f (l1 ++ l2) = match find f l1 with Some x => Some x | None => find f l2 end.
Proof. induction l1 as [|x l1 IH]; [done|]. cbn. by destruct (f x). Qed.

Lemma two_bytes x y : 0 <= x -> 0 <= y < 256 -> Z.lor (Z.shiftl x 8) y = 256 * x + y.
Proof.
  intros Hx Hy. rewrite <- Z.lxor_lor, <- Z.add_nocarry_lxor; [rewrite Z.shiftl_mul_pow2 by lia; lia|..]; apply Z.bits_inj'; intros n Hn; rewrite Z.land_spec, Z.bits_0, Z.shiftl_spec by lia.
  all: apply andb_false_iff; destruct (Z.ltb_spec n 8); [left; apply Z.testbit_neg_r; lia|right; rewrite <- (Z.mod_small y (2 ^ 8)) by lia; apply Z.mod_pow2_bits_high; lia].
Qed.

Lemma byt_range m a : low_memory m -> 0 <= byt m a < 256.
Proof. intros [_ Hb _]. unfold byt. destruct (m a) eqn:E; cbn; [by eapply Hb|lia]. Qed.

Lemma mpsearch1_ebda s a : 0 <= a < 2 ^ 27 -> mapped (vmem s) KERNBASE PHYSTOP -> mpsearch1 a 1024 s = Ret (find (valid_mp (vmem s)) (chunk (KERNBASE + a) 64)) s.
Proof. intros Ha Hm. apply (mpsearch1_run s a 64); [lia|unfold PHYSTOP; lia|exact Hm]. Qed.

Lemma mpsearch1_rom s : mapped (vmem s) KERNBASE PHYSTOP -> mpsearch1 0xF0000 0x10000 s = Ret (find (valid_mp (vmem s)) (chunk (KERNBASE + 0xF0000) 4096)) s.
Proof. intros Hm. pose proof (mpsearch1_run s 0xF0000 4096) as E. replace (16 * Z.of_nat 4096) with 0x10000 in E by lia. apply E; [lia|unfold PHYSTOP; lia|exact Hm]. Qed.

(** The search finds the first structure of [places]. *)
Lemma mpsearch_run s : low_memory (vmem s) -> mpsearch s = Ret (find (valid_mp (vmem s)) (places (vmem s))) s.
Proof.
  intros Hl. set (m := vmem s) in *. pose proof Hl as [Hm Hb Hbase]. pose proof (fun a => byt_range m a Hl) as Hr. unfold mpsearch.
  change (P2V 0x400 + 0x0F) with (P2V 0x40F). change (P2V 0x400 + 0x0E) with (P2V 0x40E). change (P2V 0x400 + 0x14) with (P2V 0x414). change (P2V 0x400 + 0x13) with (P2V 0x413).
  assert (Hmp : forall x, 0 <= x < PHYSTOP -> is_Some (vmem s (P2V x))) by (intros x Hx; apply Hm; unfold P2V, KERNBASE, PHYSTOP in *; rewrite u32_small; lia).
  rewrite !bind_vload by (apply Hmp; by split). fold m. rewrite two_bytes by (pose proof (Hr (P2V 0x40F)); pose proof (Hr (P2V 0x40E)); lia). rewrite Z.shiftl_mul_pow2 by lia. rewrite (Z.mul_comm _ (2 ^ 4)). change (2 ^ 4 * (256 * byt m (P2V 1039) + byt m (P2V 1038))) with (ebda m).
  unfold places. pose proof (Hr (P2V 0x40F)). pose proof (Hr (P2V 0x40E)). pose proof (Hr (P2V 0x414)). pose proof (Hr (P2V 0x413)). rewrite find_app. destruct (Z.eqb_spec (ebda m) 0) as [E|E]; cbn [negb].
  - unfold bind at 1. rewrite !bind_vload by (apply Hmp; by split). fold m. rewrite two_bytes by lia. rewrite (Z.mul_comm _ 1024). fold (basemem m). assert (1024 <= basemem m < 2 ^ 26) by (destruct Hbase; [done|unfold basemem in *; lia]).
    rewrite u32_small by lia. rewrite mpsearch1_ebda by (done || lia). fold m. cbn [bindO]. destruct (find _ (chunk _ 64)); [reflexivity|]. exact (mpsearch1_rom s Hm).
  - assert (0 <= ebda m < 2 ^ 20) by (unfold ebda in *; lia). unfold bind at 1. rewrite mpsearch1_ebda by (done || lia). fold m. cbn [bindO]. destruct (find _ (chunk _ 64)); [reflexivity|]. exact (mpsearch1_rom s Hm).
Qed.
End finds.

(** ** The table *)

(** An entry: a processor or an I/O APIC with its APIC id, or one of the kinds that are
    skipped, with the rest of its bytes. *)
Inductive entry := Eproc (id : Z) (rest : list Z) | Eioapic (id : Z) (rest : list Z) | Eskip (ty : Z) (rest : list Z).

Definition encode (e : entry) : list Z :=
  match e with Eproc id rest => MPPROC :: id :: rest | Eioapic id rest => MPIOAPIC :: id :: rest | Eskip ty rest => ty :: rest end.

Definition entry_ok (e : entry) : Prop :=
  match e with
  | Eproc _ rest => length rest = 18%nat
  | Eioapic _ rest => length rest = 6%nat
  | Eskip ty rest => (ty = MPBUS \/ ty = MPIOINTR \/ ty = MPLINTR) /\ length rest = 7%nat
  end.

Definition encoded (es : list entry) : list Z := concat (encode <$> es).

(** The APIC ids of the processors and of the I/O APICs. *)
Definition proc_ids (es : list entry) : list Z := omap (fun e => match e with Eproc id _ => Some id | _ => None end) es.
Definition ioapic_ids (es : list entry) : list Z := omap (fun e => match e with Eioapic id _ => Some id | _ => None end) es.

(** The bytes [l] are in memory at [a]. *)
Definition holds (m : Z -> option Z) (a : Z) (l : list Z) : Prop := bytes m a (length l) = l /\ mapped m a (Z.of_nat (length l)).

(** The floating pointer structure at [fp] leads to a table with the header [h] and the
    entries [es], and then the bytes [tail]. *)
Record mp_table (m : Z -> option Z) (fp : Z) (h : list Z) (es : list entry) (tail : list Z) : Prop := {
  mt_found : find (valid_mp m) (places m) = Some fp;
  mt_phys : word32 m (fp + 4) <> 0;
  mt_here : holds m (P2V (word32 m (fp + 4))) (h ++ encoded es ++ tail);
  mt_hdr : length h = 44%nat;
  mt_sig : take 4 h = PCMP_SIGNATURE;
  mt_size : get16 h 4 = 44 + Z.of_nat (length (encoded es ++ tail));
  mt_ver : byte h 6 = 1 \/ byte h 6 = 4;
  mt_sum : u8 (total (h ++ encoded es ++ tail)) = 0;
  mt_fits : P2V (word32 m (fp + 4)) + 44 + Z.of_nat (length (encoded es ++ tail)) < 2 ^ 32;
  mt_ok : Forall entry_ok es }.

Lemma bytes_app m a n1 n2 : bytes m a (n1 + n2) = bytes m a n1 ++ bytes m (a + Z.of_nat n1) n2.
Proof.
  revert a. induction n1 as [|n1 IH]; intros a; [cbn [Nat.add]; by rewrite Z.add_0_r|]. cbn [Nat.add]. rewrite !bytes_S, IH. cbn. do 3 f_equal. lia.
Qed.

Lemma length_bytes m a n : length (bytes m a n) = n.
Proof. unfold bytes. rewrite length_fmap, length_seqZ. lia. Qed.

Lemma holds_app m a l1 l2 : holds m a (l1 ++ l2) -> holds m a l1 /\ holds m (a + Z.of_nat (length l1)) l2.
Proof.
  intros [Hb Hm]. rewrite length_app in *. rewrite bytes_app in Hb. apply app_inj_1 in Hb as [E1 E2]; [|by rewrite length_bytes]. split; (split; [done|]); intros x Hx; apply Hm; lia.
Qed.

Lemma holds_byte m a l (i : nat) : holds m a l -> (i < length l)%nat -> byt m (a + Z.of_nat i) = byte l i.
Proof.
  intros [Hb _] Hi. unfold byte. rewrite <- Hb. unfold bytes. rewrite list_lookup_fmap, lookup_seqZ_lt by lia. done.
Qed.

Lemma chunk_in n : forall a p, p ∈ chunk a n -> exists i, 0 <= i < Z.of_nat n /\ p = a + 16 * i.
Proof.
  induction n as [|n IH]; intros a p Hp; [by apply elem_of_nil in Hp|]. cbn [chunk] in Hp. apply elem_of_cons in Hp as [->|Hp]; [exists 0; lia|].
  destruct (IH _ _ Hp) as (i & Hi & ->). exists (i + 1). unfold sizeof_mp. lia.
Qed.

Lemma places_mapped m p : low_memory m -> p ∈ places m -> mapped m p 16.
Proof.
  intros Hl Hp. pose proof Hl as [Hm _ Hb]. pose proof (fun a => byt_range m a Hl) as Hr. unfold places in Hp. pose proof (Hr (P2V 0x40F)). pose proof (Hr (P2V 0x40E)). pose proof (Hr (P2V 0x414)). pose proof (Hr (P2V 0x413)).
  apply elem_of_app in Hp as [Hp|Hp]; apply chunk_in in Hp as (i & Hi & ->); intros x Hx; apply Hm; [|unfold PHYSTOP; lia].
  unfold PHYSTOP. destruct (Z.eqb_spec (ebda m) 0); unfold ebda, basemem in *; lia.
Qed.

Lemma find_places m p : find (valid_mp m) (places m) = Some p -> p ∈ places m.
Proof. intros E. apply list_elem_of_In. by apply find_some in E as [? _]. Qed.

Section reads.
Context {D : Type} `{Machine D}.
Implicit Types s : mpstate D.

Lemma mpconfig_run s fp h es tl : low_memory (vmem s) -> mp_table (vmem s) fp h es tl -> mpconfig s = Ret (Some (fp, P2V (word32 (vmem s) (fp + 4)))) s.
Proof.
  intros Hl []. pose proof (places_mapped _ _ Hl (find_places _ _ mt_found0)) as Hfp. pose proof (holds_app _ _ _ _ mt_here0) as [Hh _]. set (conf := P2V (word32 (vmem s) (fp + 4))) in *.
  unfold mpconfig. rewrite (bind_run _ _ _ _ _ (mpsearch_run s Hl)), mt_found0. rewrite bind_vload32 by (intros x Hx; apply Hfp; lia). destruct (Z.eqb_spec (word32 (vmem s) (fp + 4)) 0); [done|]. fold conf.
  assert (Hmp : mapped (vmem s) conf 44) by (destruct Hh as [_ Hh]; by rewrite mt_hdr0 in Hh).
  erewrite bind_run; [|apply (same_bytes_run s PCMP_SIGNATURE); intros x Hx; apply Hmp; cbn in Hx; lia]. rewrite bool_decide_eq_true_2.
  2:{ destruct Hh as [Hh _]. rewrite mt_hdr0 in Hh. rewrite <- mt_sig0, <- Hh. change 44%nat with (4 + 40)%nat. rewrite bytes_app. rewrite take_app_le by (by rewrite length_bytes). rewrite take_ge by (by rewrite length_bytes). done. }
  cbn [negb]. rewrite bind_vload by (apply Hmp; lia). change (conf + 6) with (conf + Z.of_nat 6). rewrite (holds_byte _ _ h) by (done || lia).
  assert (Ev : negb (byte h 6 =? 1) && negb (byte h 6 =? 4) = false) by (destruct mt_ver0 as [->| ->]; done). rewrite Ev. rewrite bind_vload16 by (intros x Hx; apply Hmp; lia). replace (conf + 4 + 1) with (conf + Z.of_nat 5) by lia. change (conf + 4) with (conf + Z.of_nat 4). rewrite !(holds_byte _ _ h) by (done || lia).
  change (byte h 4 + 256 * byte h 5) with (get16 h 4). rewrite mt_size0.
  destruct mt_here0 as [Hb Hmm]. rewrite (length_app h), mt_hdr0 in *. erewrite bind_run; [|apply sum_run; intros x Hx; apply Hmm; lia]. replace (Z.to_nat (44 + Z.of_nat (length (encoded es ++ tl)))) with (44 + length (encoded es ++ tl))%nat by lia. rewrite Hb, mt_sum0. done.
Qed.

(** What an entry adds to the state. *)
Definition absorb s (e : entry) : mpstate D :=
  match e with
  | Eproc id _ => if ncpu s <? Z.of_nat NCPU then s <| cpu_apicid ::= <[Z.to_nat (ncpu s) := id]> |> <| ncpu ::= Z.add 1 |> else s
  | Eioapic id _ => s <| ioapicid := id |>
  | Eskip _ _ => s
  end.

Lemma absorb_vmem s e : vmem (absorb s e) = vmem s.
Proof. destruct e; cbn; [by case_match|done..]. Qed.

Lemma round_run s p e en rest : entry_ok en -> holds (vmem s) p (encode en ++ rest) -> 0 <= p -> p + Z.of_nat (length (encode en)) <= e -> e < 2 ^ 32 ->
  mpinit_round e (p, true) s = Ret (inl (p + Z.of_nat (length (encode en)), true)) (absorb s en).
Proof.
  intros Hok Hh H0 He Hb. apply holds_app in Hh as [Hh _]. assert (Hl : (2 <= length (encode en))%nat) by (destruct en as [id r|id r|ty r]; cbn in *; lia). unfold mpinit_round. destruct (Z.ltb_spec p e); [|lia].
  assert (Hmp : forall x, p <= x < p + 2 -> is_Some (vmem s x)) by (intros x Hx; apply Hh; lia). pose proof (holds_byte (vmem s) p (encode en) 0 Hh ltac:(lia)) as Hz. change (Z.of_nat 0) with 0 in Hz. rewrite Z.add_0_r in Hz. rewrite bind_vload, Hz by (apply Hmp; lia).
  pose proof (holds_byte (vmem s) p (encode en) 1 Hh ltac:(lia)) as Hy. change (Z.of_nat 1) with 1 in Hy. unfold sizeof_mpproc, sizeof_mpioapic, u32. destruct en as [id r|id r|ty r]; cbn [entry_ok] in Hok; cbn [encode length] in *; change (byte (?a :: _) 0) with a.
  - change (MPPROC =? MPPROC) with true. cbv iota. rewrite bind_gets. cbn [absorb]. destruct (ncpu s <? Z.of_nat NCPU); cbn [when]; rewrite Z.mod_small by lia.
    + unfold bind at 1. rewrite bind_vload by (apply Hmp; lia). rewrite Hy. cbn. rewrite Hok. done.
    + cbn. rewrite Hok. done.
  - change (MPIOAPIC =? MPPROC) with false. change (MPIOAPIC =? MPIOAPIC) with true. cbv iota. rewrite bind_vload by (apply Hmp; lia). rewrite Hy. rewrite Z.mod_small by lia. cbn. rewrite Hok. done.
  - destruct Hok as [Ht Hr]. replace (p + Z.of_nat (S (length r))) with ((p + 8) mod 2 ^ 32) by (rewrite Z.mod_small; lia). destruct Ht as [->|[->| ->]]; done.
Qed.

Lemma encoded_cons en es tl : encoded (en :: es) ++ tl = encode en ++ encoded es ++ tl.
Proof. unfold encoded. cbn [fmap list_fmap concat]. by rewrite <- app_assoc. Qed.

Lemma scan_run e es : forall fuel p s, Forall entry_ok es -> holds (vmem s) p (encoded es ++ []) -> 0 <= p -> e = p + Z.of_nat (length (encoded es ++ [])) -> e < 2 ^ 32 -> (length es < fuel)%nat ->
  loop fuel (mpinit_round e) (p, true) s = Ret true (foldl absorb s es).
Proof.
  induction es as [|en es IH]; intros fuel p s Hok Hh Hz He Hb Hf; (destruct fuel as [|fuel]; [cbn in Hf; lia|]); cbn [loop foldl].
  - unfold bind, mpinit_round. destruct (Z.ltb_spec p e); [cbn in He; lia|done].
  - apply Forall_cons in Hok as [Ho Hok]. rewrite encoded_cons in *. rewrite length_app in He. erewrite bind_run; [|eapply round_run; [done|exact Hh|lia|lia|lia]]. cbn [length] in Hf. apply IH; [done| |lia|lia|lia|lia].
    rewrite absorb_vmem. by apply holds_app in Hh as [_ Hh].
Qed.

(** At an entry of another type the scan goes round in place. *)
Definition unknown_type (ty : Z) : Prop := ty <> MPPROC /\ ty <> MPBUS /\ ty <> MPIOAPIC /\ ty <> MPIOINTR /\ ty <> MPLINTR.

Lemma stuck_spins e p ismp fuel s ty : p < e -> vmem s p = Some ty -> unknown_type ty -> loop fuel (mpinit_round e) (p, ismp) s = Spin s.
Proof.
  intros Hp Ht (U1 & U2 & U3 & U4 & U5). revert ismp. induction fuel as [|fuel IH]; intros ismp; [done|]. cbn [loop]. unfold mpinit_round at 1. destruct (Z.ltb_spec p e); [|lia]. unfold bind at 1. rewrite bind_vload by eauto. unfold byt. rewrite Ht. change (default 0 (Some ty)) with ty.
  rewrite (proj2 (Z.eqb_neq ty MPPROC) U1), (proj2 (Z.eqb_neq ty MPBUS) U2), (proj2 (Z.eqb_neq ty MPIOAPIC) U3), (proj2 (Z.eqb_neq ty MPIOINTR) U4), (proj2 (Z.eqb_neq ty MPLINTR) U5). apply IH.
Qed.

Lemma scan_spins e es ty rest : unknown_type ty -> forall fuel p s, Forall entry_ok es -> holds (vmem s) p (encoded es ++ ty :: rest) -> 0 <= p -> e = p + Z.of_nat (length (encoded es ++ ty :: rest)) -> e < 2 ^ 32 ->
  exists s', loop fuel (mpinit_round e) (p, true) s = Spin s'.
Proof.
  intros Hu. induction es as [|en es IH]; intros fuel p s Hok Hh Hz He Hb.
  - exists s. cbn in *. apply stuck_spins with ty; [lia| |done]. pose proof (holds_byte _ _ _ 0 Hh ltac:(cbn; lia)) as E. change (Z.of_nat 0) with 0 in E. rewrite Z.add_0_r in E. destruct Hh as [_ Hm]. destruct (Hm p ltac:(cbn; lia)) as [x Ex]. unfold byt in E. rewrite Ex in E |- *. cbn in E. by subst.
  - destruct fuel as [|fuel]; [by exists s|]. cbn [loop]. apply Forall_cons in Hok as [Ho Hok]. rewrite encoded_cons in *. rewrite length_app in He. erewrite bind_run; [|eapply round_run; [done|exact Hh|lia|lia|lia]]. apply IH; [done| |lia|lia|lia].
    rewrite absorb_vmem. by apply holds_app in Hh as [_ Hh].
Qed.

Lemma absorb_all es : forall s n, ncpu s = Z.of_nat n -> (n <= NCPU)%nat -> length (cpu_apicid s) = NCPU -> let s' := foldl absorb s es in let n' := (NCPU `min` (n + length (proc_ids es)))%nat in
  ncpu s' = Z.of_nat n' /\ take n' (cpu_apicid s') = take NCPU (take n (cpu_apicid s) ++ proc_ids es) /\ ioapicid s' = default (ioapicid s) (last (ioapic_ids es)) /\
  lapic s' = lapic s /\ mp_dev s' = mp_dev s /\ vmem s' = vmem s.
Proof.
  induction es as [|en es IH]; intros s n Hn Hle Hlen.
  - intros s' n'. assert (En : n' = n) by (unfold n'; cbn [proc_ids omap list_omap length]; lia). rewrite En. change (proc_ids []) with (@nil Z). rewrite app_nil_r, take_take, Nat.min_r by done. done.
  - destruct en as [id r|id r|ty r]; cbn [foldl absorb].
    + destruct (Z.ltb_spec (ncpu s) (Z.of_nat NCPU)) as [Hlt|Hge].
      * set (s1 := s <| cpu_apicid ::= _ |> <| ncpu ::= _ |>). destruct (IH s1 (S n)) as (I1 & I2 & I3 & I4); [cbn; lia|lia|cbn; by rewrite length_insert|]. change (proc_ids (Eproc id r :: es)) with (id :: proc_ids es). cbn [length]. rewrite <- Nat.add_succ_comm. split_and!; [done| |done|apply I4..].
        rewrite I2. change (cpu_apicid s1) with (<[Z.to_nat (ncpu s) := id]> (cpu_apicid s)). rewrite Hn, Nat2Z.id. rewrite (take_S_r _ _ id) by (apply list_lookup_insert_eq; lia). rewrite take_insert_ge by lia. by rewrite <- app_assoc.
      * assert (n = NCPU) as -> by lia. destruct (IH s NCPU Hn Hle Hlen) as (I1 & I2 & I3 & I4). change (proc_ids (Eproc id r :: es)) with (id :: proc_ids es). cbn zeta in *. rewrite !Nat.min_l in * by (cbn [length]; lia). split_and!; [done| |done|apply I4..]. rewrite I2. rewrite !take_app_le by (rewrite length_take; lia). done.
    + set (s1 := s <| ioapicid := id |>). destruct (IH s1 n Hn Hle Hlen) as (I1 & I2 & I3 & I4). change (ioapic_ids (Eioapic id r :: es)) with (id :: ioapic_ids es). change (proc_ids (Eioapic id r :: es)) with (proc_ids es). split_and!; [exact I1|exact I2| |apply I4..]. rewrite I3. cbn [ioapicid]. rewrite last_cons. by destruct (last (ioapic_ids es)).
    + apply (IH s n Hn Hle Hlen).
Qed.
End reads.

(** After the checks comes the scan, from the end of the header. *)
Definition mp_finish {D} `{Machine D} (fp : Z) (ismp : bool) : M (mpstate D) unit :=
  if negb ismp then panic "Didn't find a suitable machine"
  else
    let! imcrp := vload (fp + 12) in
    when (negb (imcrp =? 0)) (do! outb 0x22 0x70 in let! v := inb 0x23 in outb 0x23 (Z.lor v 1)).

Lemma mpinit_enters {D} `{Machine D} fuel (s : mpstate D) fp h es tl : low_memory (vmem s) -> mp_table (vmem s) fp h es tl ->
  let p := P2V (word32 (vmem s) (fp + 4)) + 44 in let e := p + Z.of_nat (length (encoded es ++ tl)) in
  mpinit fuel s = bind (loop fuel (mpinit_round e) (p, true)) (mp_finish fp) (s <| lapic := get32 h 36 |>) /\ holds (vmem s) p (encoded es ++ tl) /\ 0 <= p /\ e < 2 ^ 32.
Proof.
  intros Hl Ht. pose proof Ht as []. destruct (holds_app _ _ _ _ mt_here0) as [Hh He]. unfold mpinit. rewrite (bind_run _ _ _ _ _ (mpconfig_run s fp h es tl Hl Ht)).
  set (conf := P2V (word32 (vmem s) (fp + 4))) in *. rewrite mt_hdr0 in He. assert (Hmp : mapped (vmem s) conf 44) by (destruct Hh as [_ Hh]; by rewrite mt_hdr0 in Hh). assert (H0c : 0 <= conf) by apply u32_range. rewrite (bind_vload32 _ (conf + 36)) by (intros x Hx; apply Hmp; lia).
  assert (Ew : word32 (vmem s) (conf + 36) = get32 h 36) by (unfold word32, get32; rewrite <- !Z.add_assoc; change (conf + 36) with (conf + Z.of_nat 36); change (conf + (36 + 1)) with (conf + Z.of_nat 37); change (conf + (36 + 2)) with (conf + Z.of_nat 38); change (conf + (36 + (2 + 1))) with (conf + Z.of_nat 39); rewrite !(holds_byte _ _ h) by (done || lia); cbn [Nat.add]; lia).
  rewrite Ew. unfold bind at 1, modify. cbn [bindO]. set (s1 := s <| lapic := get32 h 36 |>). change (vmem s) with (vmem s1) in *. rewrite (bind_vload16 _ (conf + 4)) by (intros x Hx; apply Hmp; lia).
  replace (conf + 4 + 1) with (conf + Z.of_nat 5) by lia. change (conf + 4) with (conf + Z.of_nat 4). rewrite !(holds_byte _ _ h) by (done || lia). change (byte h 4 + 256 * byte h 5) with (get16 h 4). rewrite mt_size0.
  rewrite !u32_small by (unfold sizeof_mpconf; lia). rewrite Z.add_assoc. split_and!; [reflexivity|exact He|lia|lia].
Qed.

(** C25: the processors are those of the table.  When the search leads to a well-formed
    configuration table (signature, version, length and checksum right, entries of the
    known kinds), [mpinit] ends, and then [ncpu] is the number of processor entries, at
    most [NCPU]; [cpus] holds their APIC ids in table order; [ioapicid] is the id of the
    last I/O APIC entry; [lapic] is the address in the header; and the interrupt mode
    register is left alone unless the structure asks for it. *)
Theorem mpinit_reads_table {D} `{Machine D} fuel (s : mpstate D) fp h es :
  low_memory (vmem s) -> mp_table (vmem s) fp h es [] -> ncpu s = 0 -> length (cpu_apicid s) = NCPU -> (length es < fuel)%nat ->
  exists s', mpinit fuel s = Ret tt s' /\ let n := (NCPU `min` length (proc_ids es))%nat in
    ncpu s' = Z.of_nat n /\ take n (cpu_apicid s') = take NCPU (proc_ids es) /\ ioapicid s' = default (ioapicid s) (last (ioapic_ids es)) /\ lapic s' = get32 h 36 /\
    (byt (vmem s) (fp + 12) = 0 -> mp_dev s' = mp_dev s).
Proof.
  intros Hl Ht Hn Hlen Hf. pose proof (places_mapped _ _ Hl (find_places _ _ (mt_found _ _ _ _ _ Ht))) as Hfp. destruct (mpinit_enters fuel s fp h es [] Hl Ht) as (-> & He & H0p & Hfit). set (s1 := s <| lapic := get32 h 36 |>). change (vmem s) with (vmem s1) in *.
  erewrite bind_run; [|apply scan_run; [apply Ht|exact He|done|done|done|done]]. unfold mp_finish. cbn [negb].
  destruct (absorb_all es s1 0 Hn ltac:(lia) Hlen) as (I1 & I2 & I3 & I4 & I5 & I6). set (s2 := foldl absorb s1 es) in *. rewrite bind_vload by (rewrite I6; apply Hfp; lia). rewrite I6.
  destruct (Z.eqb_spec (byt (vmem s1) (fp + 12)) 0) as [E|E]; cbn [negb when].
  - exists s2. split_and!; [done..|]. intros _. by rewrite I5.
  - unfold inb, outb, bind, modify. cbn [bindO get_dev mp_device]. destruct (port_in 0x23 _) as [v d]. cbn. eexists. split_and!; [reflexivity|done|done|done|done|done].
Qed.

(** C35: an entry of an unknown type hangs the kernel.  If the table is right as above but has
    an entry whose type is none of the five, [mpinit] never ends, whatever the fuel:
    the [break] of the [default] case leaves the [switch], not the loop, and the pointer
    stays where it is.  The message meant for this case is never printed. *)
Theorem mpinit_unknown_entry {D} `{Machine D} fuel (s : mpstate D) fp h es ty rest :
  low_memory (vmem s) -> mp_table (vmem s) fp h es (ty :: rest) -> unknown_type ty -> exists s', mpinit fuel s = Spin s'.
Proof.
  intros Hl Ht Hu. destruct (mpinit_enters fuel s fp h es _ Hl Ht) as (-> & He & H0p & Hfit). set (s1 := s <| lapic := get32 h 36 |>). change (vmem s) with (vmem s1) in *.
  destruct (scan_spins _ es ty rest Hu fuel _ s1 (mt_ok _ _ _ _ _ Ht) He H0p eq_refl Hfit) as [s' E]. exists s'. unfold bind. by rewrite E.
Qed.

(** A machine with two processors and an I/O APIC, whose BIOS put the structures in the EBDA
    at 9FC00; [extra] is added at the end of the table, with the checksum [chk]. *)
Definition tiny_entries : list entry := [Eproc 3 (replicate 18 0); Eioapic 7 (replicate 6 0); Eskip MPBUS (replicate 7 0); Eproc 5 (replicate 18 0)].
Definition tiny_mp : list Z := [95; 77; 80; 95; 0; 253; 9; 0; 1; 4; 154; 0; 0; 0; 0; 0].
Definition tiny_conf (n chk : Z) : list Z := PCMP_SIGNATURE ++ [n; 0; 4; chk] ++ replicate 30 0 ++ [0xE0; 0xFE] ++ replicate 4 0.
Definition tiny_byte (n chk : Z) (extra : list Z) (a : Z) : Z :=
  if a =? 0x40E then 0xC0 else if a =? 0x40F then 0x9F
  else if a <? 0x9FC10 then 0 else if a <? 0x9FC20 then byte tiny_mp (Z.to_nat (a - 0x9FC10))
  else if (a <? 0x9FD00) || (0x9FE00 <=? a) then 0 else byte (tiny_conf n chk ++ encoded tiny_entries ++ extra) (Z.to_nat (a - 0x9FD00)).
Definition tiny_vmem (n chk : Z) (extra : list Z) (a : Z) : option Z :=
  if (KERNBASE <=? a) && (a <? KERNBASE + PHYSTOP) then Some (u8 (tiny_byte n chk extra (a - KERNBASE))) else None.
Definition tiny_machine (n chk : Z) (extra : list Z) : mpstate toy := mk_mpstate (tiny_vmem n chk extra) (replicate 8 0) 0 0 0 (mk_toy (fun _ => 0) (fun _ _ => []) [] false).

Lemma tiny_low n chk extra : low_memory (tiny_vmem n chk extra).
Proof.
  split.
  - intros x Hx. unfold tiny_vmem. destruct (Z.leb_spec KERNBASE x), (Z.ltb_spec x (KERNBASE + PHYSTOP)); try lia. by eexists.
  - intros a x. unfold tiny_vmem. destruct (_ && _); intros [= <-]. apply Z.mod_pos_bound. done.
  - left. by vm_compute.
Qed.

Lemma tiny_holds n chk extra a l : KERNBASE <= a -> a + Z.of_nat (length l) <= KERNBASE + PHYSTOP -> bytes (tiny_vmem n chk extra) a (length l) = l -> holds (tiny_vmem n chk extra) a l.
Proof. intros H1 H2 Hb. split; [done|]. intros x Hx. apply (lm_mapped _ (tiny_low n chk extra)). lia. Qed.

(** What [mp_table] asks for, as a test. *)
Definition table_test (m : Z -> option Z) (fp : Z) (h : list Z) (es : list entry) (tl : list Z) : bool :=
  bool_decide (find (valid_mp m) (places m) = Some fp) && bool_decide (bytes m (P2V (word32 m (fp + 4))) (length (h ++ encoded es ++ tl)) = h ++ encoded es ++ tl)
  && bool_decide (word32 m (fp + 4) = 0x9FD00) && bool_decide (get16 h 4 = 44 + Z.of_nat (length (encoded es ++ tl))) && bool_decide (u8 (total (h ++ encoded es ++ tl)) = 0).

Lemma tiny_table n chk extra fp : (length extra < 200)%nat -> table_test (tiny_vmem n chk extra) fp (tiny_conf n chk) tiny_entries extra = true -> mp_table (tiny_vmem n chk extra) fp (tiny_conf n chk) tiny_entries extra.
Proof.
  intros Hx Ht. unfold table_test in Ht. rewrite !andb_true_iff, !bool_decide_eq_true in Ht. destruct Ht as ((((T1 & T2) & T3) & T4) & T5). rewrite T3 in T2. change (P2V 0x9FD00) with (KERNBASE + 0x9FD00) in T2.
  split; [exact T1|rewrite T3; lia| |reflexivity|reflexivity|exact T4|right; reflexivity|exact T5| |]; rewrite ?T3; change (P2V 0x9FD00) with (KERNBASE + 0x9FD00).
  - apply tiny_holds; [lia| |exact T2]. rewrite !length_app. change (length (tiny_conf n chk)) with 44%nat. change (length (encoded tiny_entries)) with 56%nat. unfold PHYSTOP. lia.
  - rewrite length_app. change (length (encoded tiny_entries)) with 56%nat. unfold KERNBASE. lia.
  - repeat (constructor; [cbn; auto|]). constructor.
Qed.

Lemma mpinit_reads_table_witness : exists s', mpinit 5 (tiny_machine 100 120 []) = Ret tt s' /\ ncpu s' = 2 /\ take 2 (cpu_apicid s') = [3; 5] /\ ioapicid s' = 7 /\ lapic s' = 0xFEE00000.
Proof.
  destruct (mpinit_reads_table 5 (tiny_machine 100 120 []) (KERNBASE + 0x9FC10) (tiny_conf 100 120) tiny_entries) as (s' & E & I1 & I2 & I3 & I4 & _); [apply tiny_low|apply tiny_table; [cbn; lia|vm_compute; reflexivity]|done|done|cbn; lia|].
  exists s'. split; [exact E|]. split; [exact I1|]. split; [exact I2|]. split; [exact I3|exact I4].
Defined.

Lemma mpinit_unknown_entry_witness : exists s', mpinit 1000 (tiny_machine 101 110 [9]) = Spin s'.
Proof.
  apply (mpinit_unknown_entry 1000 (tiny_machine 101 110 [9]) (KERNBASE + 0x9FC10) (tiny_conf 101 110) tiny_entries 9 []); [apply tiny_low|apply tiny_table; [cbn; lia|vm_compute; reflexivity]|by repeat split].
Defined.

(** ** Processors know themselves *)

Lemma first_cpu {D} (s : mpstate D) id n : forall a, 0 <= a -> a + Z.of_nat n <= Z.of_nat (length (cpu_apicid s)) ->
  first_of (seqZ a (Z.of_nat n)) (fun i => let! ids := gets cpu_apicid in let! x := ofopt (zget ids i) in ret (if x =? id then Some i else None)) s =
  Ret ((fun j => a + Z.of_nat j) <$> (fst <$> list_find (fun x => x = id) (take n (drop (Z.to_nat a) (cpu_apicid s))))) s.
Proof.
  induction n as [|n IH]; intros a Ha Hl; [done|]. rewrite seqZ_cons by lia. cbn [first_of]. destruct (lookup_lt_is_Some_2 (cpu_apicid s) (Z.to_nat a) ltac:(lia)) as [x Hx].
  assert (Ez : zget (cpu_apicid s) a = Some x) by (unfold zget; rewrite (proj2 (Z.leb_le 0 a)) by lia; done). unfold bind at 1. rewrite bind_gets, Ez. cbn [ofopt ret bindO]. rewrite (drop_S _ x) by done. cbn [take list_find]. destruct (Z.eqb_spec x id) as [->|Hne].
  - unfold bind. cbn [bindO ret]. rewrite decide_True by done. rewrite Z.eqb_refl. cbn [fmap option_fmap option_map fst]. change (Z.of_nat 0) with 0. by rewrite Z.add_0_r.
  - unfold bind at 1. cbn [bindO ret]. rewrite decide_False by done. rewrite (proj2 (Z.eqb_neq x id)) by done. replace (Z.pred (Z.of_nat (S n))) with (Z.of_nat n) by lia. rewrite IH by lia. replace (Z.to_nat (Z.succ a)) with (S (Z.to_nat a)) by lia. f_equal. destruct (list_find _ _) as [[j y]|]; [|done]. cbn. f_equal. lia.
Qed.

(** After the table has been read, a processor whose APIC id is that of entry [i], and of no
    earlier one, is processor [i]; one that is not in the table stops the kernel. *)
Theorem mycpu_finds {D} (s : mpstate D) id : 0 <= ncpu s <= Z.of_nat (length (cpu_apicid s)) ->
  mycpu false id s = match list_find (fun x => x = id) (take (Z.to_nat (ncpu s)) (cpu_apicid s)) with
                     | Some (i, _) => Ret (Z.of_nat i) s
                     | None => Panic "unknown apicid" s
                     end.
Proof.
  intros Hn. unfold mycpu. rewrite bind_gets. pose proof (first_cpu s id (Z.to_nat (ncpu s)) 0 ltac:(lia) ltac:(lia)) as E. rewrite Z2Nat.id in E by lia. erewrite bind_run by exact E. cbn [Z.to_nat drop]. by destruct (list_find _ _) as [[j y]|].
Qed.
