(* ===== verification/Apic.v ===== *)
(** * Interrupt controllers, the clock and the serial port

    [src/ioapic.c], [src/picirq.c], [src/lapic.c], [src/uart.c] and [src/kbd.c], over devices
    that are parameters ([Hw]).  The local APIC's address, which [src/mp.c] finds, is an
    argument.  [IoApic], [Rtc] and [Serial] state what the code relies on of the chips, [Rtc]
    with the times of the clock's data sheet, each with a small instance. *)

From S2P Require Import Prelude CString Headers Hw.

(** States with a console to print on. *)
Class HasLog (S : Type) := log_msg : string -> S -> S.

(** ** ioapic.c *)

Definition IOAPIC : Z := 0xFEC00000.
Definition REG_ID : Z := 0x00.
Definition REG_VER : Z := 0x01.
Definition REG_TABLE : Z := 0x10.
Definition INT_DISABLED : Z := 0x00010000.

Section ioapic.
Context {D S : Type} `{Mmio D} `{HasDevice D S} `{HasLog S}.

(** [ioapic->reg] is the word at [IOAPIC], [ioapic->data] the one 16 bytes further. *)
Definition ioapicread (reg : Z) : M S Z :=
  do! mmio_write IOAPIC reg in
  mmio_read (IOAPIC + 16).

Definition ioapicwrite (reg data : Z) : M S unit :=
  do! mmio_write IOAPIC reg in
  mmio_write (IOAPIC + 16) data.

Definition ioapicinit (ioapicid : Z) : M S unit :=
  let! v := ioapicread REG_VER in
  let maxintr := Z.land (Z.shiftr v 16) 0xFF in
  let! v := ioapicread REG_ID in
  let id := Z.shiftr v 24 in
  do! when (negb (id =? ioapicid)) (modify (log_msg "ioapicinit: id isn't equal to ioapicid; not a MP")) in
  foreach (seqZ 0 (maxintr + 1)) (fun i =>
    do! ioapicwrite (REG_TABLE + 2 * i) (Z.lor INT_DISABLED (T_IRQ0 + i)) in
    ioapicwrite (REG_TABLE + 2 * i + 1) 0).

Definition ioapicenable (irq cpunum : Z) : M S unit :=
  do! ioapicwrite (REG_TABLE + 2 * irq) (T_IRQ0 + irq) in
  ioapicwrite (REG_TABLE + 2 * irq + 1) (Z.shiftl cpunum 24).
End ioapic.

(** ** lapic.c: the local APIC *)

Module Lapic.
Definition ID : Z := 0x0020 / 4.
Definition VER : Z := 0x0030 / 4.
Definition TPR : Z := 0x0080 / 4.
Definition EOI : Z := 0x00B0 / 4.
Definition SVR : Z := 0x00F0 / 4.
Definition ENABLE : Z := 0x00000100.
Definition ESR : Z := 0x0280 / 4.
Definition ICRLO : Z := 0x0300 / 4.
Definition INIT : Z := 0x00000500.
Definition STARTUP : Z := 0x00000600.
Definition DELIVS : Z := 0x00001000.
Definition ASSERT : Z := 0x00004000.
Definition LEVEL : Z := 0x00008000.
Definition BCAST : Z := 0x00080000.
Definition ICRHI : Z := 0x0310 / 4.
Definition TIMER : Z := 0x0320 / 4.
Definition X1 : Z := 0x0000000B.
Definition PERIODIC : Z := 0x00020000.
Definition PCINT : Z := 0x0340 / 4.
Definition LINT0 : Z := 0x0350 / 4.
Definition LINT1 : Z := 0x0360 / 4.
Definition ERROR : Z := 0x0370 / 4.
Definition MASKED : Z := 0x00010000.
Definition TICR : Z := 0x0380 / 4.
Definition TDCR : Z := 0x03E0 / 4.

Section lapic.
Context {D S : Type} `{Mmio D} `{Machine D} `{HasDevice D S} `{ByteMem S}.
Variable lapic : Z.

Definition lapicr (index : Z) : M S Z := mmio_read (lapic + 4 * index).
Definition lapicw (index value : Z) : M S unit :=
  do! mmio_write (lapic + 4 * index) value in
  let! _ := lapicr ID in
  ret tt.

(** [fuel] bounds the wait for the delivery of the interrupt. *)
Definition lapicinit (fuel : nat) : M S unit :=
  when (negb (lapic =? 0)) (
    do! lapicw SVR (Z.lor ENABLE (T_IRQ0 + IRQ_SPURIOUS)) in
    do! lapicw TDCR X1 in
    do! lapicw TIMER (Z.lor PERIODIC (T_IRQ0 + IRQ_TIMER)) in
    do! lapicw TICR 10000000 in
    do! lapicw LINT0 MASKED in
    do! lapicw LINT1 MASKED in
    let! v := lapicr VER in
    do! when (4 <=? Z.land (Z.shiftr v 16) 0xFF) (lapicw PCINT MASKED) in
    do! lapicw ERROR (T_IRQ0 + IRQ_ERROR) in
    do! lapicw ESR 0 in
    do! lapicw ESR 0 in
    do! lapicw EOI 0 in
    do! lapicw ICRHI 0 in
    do! lapicw ICRLO (Z.lor (Z.lor BCAST INIT) LEVEL) in
    do! loop fuel (fun _ : unit => let! v := lapicr ICRLO in ret (if negb (Z.land v DELIVS =? 0) then inl tt else inr tt)) tt in
    lapicw TPR 0).

Definition lapicid : M S Z :=
  if lapic =? 0 then ret 0 else let! v := lapicr ID in ret (Z.shiftr v 24).

Definition lapiceoi : M S unit := when (negb (lapic =? 0)) (lapicw EOI 0).

Definition store16 (a v : Z) : M S unit := do! store8 a (u8 v) in store8 (a + 1) (u8 (Z.shiftr v 8)).

Definition lapicstartap (apicid addr : Z) : M S unit :=
  do! outb 0x70 0xF in
  do! outb 0x71 0x0A in
  let wrv := P2V (Z.lor (Z.shiftl 0x40 4) 0x67) in
  do! store16 wrv 0 in
  do! store16 (wrv + 2) (u16 (Z.shiftr addr 4)) in
  do! lapicw ICRHI (Z.shiftl apicid 24) in
  do! lapicw ICRLO (Z.lor (Z.lor INIT LEVEL) ASSERT) in
  do! lapicw ICRLO (Z.lor INIT LEVEL) in
  foreach (seqZ 0 2) (fun _ =>
    do! lapicw ICRHI (Z.shiftl apicid 24) in
    lapicw ICRLO (Z.lor STARTUP (Z.shiftr addr 12))).
End lapic.
End Lapic.

(** ** lapic.c: the clock *)

Definition CMOS_PORT : Z := 0x70.
Definition CMOS_RETURN : Z := 0x71.
Definition CMOS_STATA : Z := 0x0a.
Definition CMOS_STATB : Z := 0x0b.
Definition CMOS_UIP : Z := Z.shiftl 1 7.
Definition SECS : Z := 0x00.
Definition MINS : Z := 0x02.
Definition HOURS : Z := 0x04.
Definition DAY : Z := 0x07.
Definition MONTH : Z := 0x08.
Definition YEAR : Z := 0x09.

Record rtcdate := mk_rtcdate { second : Z; minute : Z; hour : Z; day : Z; month : Z; year : Z }.

#[export] Instance rtcdate_eq_dec : EqDecision rtcdate.
Proof. solve_decision. Defined.

(** The [CONV] macro. *)
Definition CONV (x : Z) : Z := Z.shiftr x 4 * 10 + Z.land x 0xf.

Section clock.
Context {D S : Type} `{Machine D} `{HasDevice D S}.

(** [microdelay] does nothing. *)
Definition cmos_read (reg : Z) : M S Z :=
  do! outb CMOS_PORT reg in
  inb CMOS_RETURN.

Definition fill_rtcdate : M S rtcdate :=
  let! s := cmos_read SECS in
  let! m := cmos_read MINS in
  let! h := cmos_read HOURS in
  let! d := cmos_read DAY in
  let! mo := cmos_read MONTH in
  let! y := cmos_read YEAR in
  ret (mk_rtcdate s m h d mo y).

Definition cmostime_round (_ : unit) : M S (unit + rtcdate) :=
  let! t1 := fill_rtcdate in
  let! a := cmos_read CMOS_STATA in
  if negb (Z.land a CMOS_UIP =? 0) then ret (inl tt)
  else
    let! t2 := fill_rtcdate in
    ret (if bool_decide (t1 = t2) then inr t1 else inl tt).

(** [fuel] bounds the rounds of the loop. *)
Definition cmostime (fuel : nat) : M S rtcdate :=
  let! sb := cmos_read CMOS_STATB in
  let bcd := Z.land sb (Z.shiftl 1 2) =? 0 in
  let! t1 := loop fuel cmostime_round tt in
  let t1 := if bcd then mk_rtcdate (CONV (second t1)) (CONV (minute t1)) (CONV (hour t1)) (CONV (day t1)) (CONV (month t1)) (CONV (year t1)) else t1 in
  ret (mk_rtcdate (second t1) (minute t1) (hour t1) (day t1) (month t1) (year t1 + 2000)).
End clock.

(** ** picirq.c *)

Definition picinit {D S : Type} `{Machine D} `{HasDevice D S} : M S unit :=
  do! outb (0x20 + 1) 0xFF in
  outb (0xA0 + 1) 0xFF.

(** ** uart.c *)

Definition COM1 : Z := 0x3f8.

(** States with the flag [uart]. *)
Class HasUart (S : Type) := { get_uart : S -> bool; set_uart : bool -> S -> S }.

Section uart.
Context {D S : Type} `{Machine D} `{Mmio D} `{HasDevice D S} `{HasUart S}.

Definition uartputc (c : Z) : M S unit :=
  let! u := gets get_uart in
  when u (
    do! loop 129 (fun i =>
      if i <? 128 then
        let! st := inb (COM1 + 5) in
        ret (if Z.land st 0x20 =? 0 then inl (i + 1) else inr tt)
      else ret (inr tt)) 0 in
    outb (COM1 + 0) c).

Definition uartinit : M S unit :=
  do! outb (COM1 + 2) 0 in
  do! outb (COM1 + 3) 0x80 in
  do! outb (COM1 + 0) (115200 / 9600) in
  do! outb (COM1 + 1) 0 in
  do! outb (COM1 + 3) 0x03 in
  do! outb (COM1 + 4) 0 in
  do! outb (COM1 + 1) 0x01 in
  let! st := inb (COM1 + 5) in
  if st =? 0xFF then ret tt
  else
    do! modify (set_uart true) in
    let! _ := inb (COM1 + 2) in
    let! _ := inb (COM1 + 0) in
    do! ioapicenable IRQ_COM1 0 in
    foreach [0x78; 0x76; 0x36; 0x2E; 0x2E; 0x2E; 0x0A] uartputc.

Definition uartgetc : M S Z :=
  let! u := gets get_uart in
  if negb u then ret (-1)
  else
    let! st := inb (COM1 + 5) in
    if Z.land st 0x01 =? 0 then ret (-1) else inb (COM1 + 0).
End uart.

(** ** kbd.c *)

(** The ports, bits and tables of [kbd.h], which is not part of the sources. *)
Record keyboard := mk_keyboard {
  KBSTATP : Z; KBS_DIB : Z; KBDATAP : Z; SHIFT : Z; CTL : Z; CAPSLOCK : Z; E0ESC : Z;
  shiftcode : Z -> Z; togglecode : Z -> Z; normalmap : Z -> Z; shiftmap : Z -> Z; ctlmap : Z -> Z }.

(** States with the static variable [shift]. *)
Class HasShift (S : Type) := { get_shift : S -> Z; set_shift : Z -> S -> S }.

Section kbd.
Context {D S : Type} `{Machine D} `{HasDevice D S} `{HasShift S}.
Variable kb : keyboard.

(** An array of four maps. *)
Definition charcode (i : Z) : option (Z -> Z) := zget [normalmap kb; shiftmap kb; ctlmap kb; ctlmap kb] i.

(** The last part: a key is pressed. *)
Definition kbd_press (data : Z) : M S Z :=
  do! modify (fun s => set_shift (Z.lor (get_shift s) (shiftcode kb data)) s) in
  do! modify (fun s => set_shift (Z.lxor (get_shift s) (togglecode kb data)) s) in
  let! shift := gets get_shift in
  let! map := ofopt (charcode (Z.land shift (Z.lor (CTL kb) (SHIFT kb)))) in
  let c := map data in
  ret (if negb (Z.land shift (CAPSLOCK kb) =? 0) then
         if (0x61 <=? c) && (c <=? 0x7A) then u32 (c + (0x41 - 0x61))
         else if (0x41 <=? c) && (c <=? 0x5A) then u32 (c + (0x61 - 0x41))
         else c
       else c).

(** What a scan code does, once it has been read. *)
Definition kbd_code (data : Z) : M S Z :=
  let! shift := gets get_shift in
  if data =? 0xE0 then
    do! modify (set_shift (Z.lor shift (E0ESC kb))) in
    ret 0
  else if negb (Z.land data 0x80 =? 0) then
    let data := if negb (Z.land shift (E0ESC kb) =? 0) then data else Z.land data 0x7F in
    do! modify (set_shift (Z.land shift (u32 (Z.lnot (Z.lor (shiftcode kb data) (E0ESC kb)))))) in
    ret 0
  else if negb (Z.land shift (E0ESC kb) =? 0) then
    do! modify (set_shift (Z.land shift (u32 (Z.lnot (E0ESC kb))))) in
    kbd_press (Z.lor data 0x80)
  else kbd_press data.

Definition kbdgetc : M S Z :=
  let! st := inb (KBSTATP kb) in
  if Z.land st (KBS_DIB kb) =? 0 then ret (-1)
  else
    let! data := inb (KBDATAP kb) in
    kbd_code data.
End kbd.

(** ** What the I/O APIC does *)

(** Register [r] is the one selected by writing [r] to the first word; the redirection table
    is made of registers that hold what is written to them. *)
Class IoApic (D : Type) `{Mmio D} := {
  io_reg : D -> Z -> Z;
  io_write : forall r v d x, REG_TABLE <= r < 256 -> io_reg (mem_out (IOAPIC + 16) v (mem_out IOAPIC r d)) x = if decide (x = r) then v else io_reg d x;
  io_read : forall r d, 0 <= r < 256 -> exists d', mem_in (IOAPIC + 16) (mem_out IOAPIC r d) = (io_reg d r, d') /\ io_reg d' = io_reg d }.

(** Interrupt [i] is masked, in the registers [r]. *)
Definition masked (r : Z -> Z) (i : Z) : bool := Z.testbit (r (REG_TABLE + 2 * i)) 16.
Definition last_intr (r : Z -> Z) : Z := Z.land (Z.shiftr (r REG_VER) 16) 0xFF.

#[export] Instance no_log {D} : HasLog D := fun _ d => d.

Section ioapic_proofs.
Context {D : Type} `{IoApic D}.
Implicit Types d : D.

Lemma ioapicwrite_run r v d : REG_TABLE <= r < 256 -> 0 <= v < 2 ^ 32 ->
  exists d', ioapicwrite r v d = Ret tt d' /\ forall x, io_reg d' x = if decide (x = r) then v else io_reg d x.
Proof.
  intros Hr Hv. eexists. split; [reflexivity|]. intros x. cbn. unfold id. rewrite (u32_small r), (u32_small v) by (unfold REG_TABLE in *; lia). by apply io_write.
Qed.

Lemma ioapicread_run r d : 0 <= r < 256 -> exists d', ioapicread r d = Ret (io_reg d r) d' /\ io_reg d' = io_reg d.
Proof.
  intros Hr. destruct (io_read r d Hr) as (d' & E & Er). exists d'. split; [|done]. unfold ioapicread, mmio_write, mmio_read, bind, modify. cbn [bindO get_dev set_dev self_device id]. rewrite u32_small by lia. unfold id. by rewrite E.
Qed.

Lemma mask_bit i : 0 <= i < 256 -> Z.testbit (Z.lor INT_DISABLED (T_IRQ0 + i)) 16 = true /\ Z.testbit (T_IRQ0 + i) 16 = false /\ 0 <= Z.lor INT_DISABLED (T_IRQ0 + i) < 2 ^ 32.
Proof.
  intros Hi. assert (Hb : Z.testbit (T_IRQ0 + i) 16 = false) by (unfold T_IRQ0; rewrite <- (Z.mod_small (32 + i) (2 ^ 9)) by lia; apply Z.mod_pow2_bits_high; lia).
  split_and!; [by rewrite Z.lor_spec|done|apply Z.lor_nonneg; unfold INT_DISABLED, T_IRQ0; lia|].
  unfold INT_DISABLED, T_IRQ0. change (2 ^ 32) with (2 ^ 32)%Z. rewrite <- (Z.mod_small (32 + i) (2 ^ 9)) by lia. apply Z.log2_lt_cancel. rewrite Z.log2_lor by (try (apply Z.mod_pos_bound); lia). change (Z.log2 (2 ^ 32)) with 32.
  apply Z.max_lub_lt; [done|]. apply Z.log2_lt_pow2; [rewrite Z.mod_small by lia; lia|]. rewrite Z.mod_small by lia. lia.
Qed.

Lemma ioapicenable_run irq cpu d : 0 <= irq < 120 -> 0 <= cpu < 256 ->
  exists d', ioapicenable irq cpu d = Ret tt d' /\ forall x, io_reg d' x = if decide (x = REG_TABLE + 2 * irq + 1) then Z.shiftl cpu 24 else if decide (x = REG_TABLE + 2 * irq) then T_IRQ0 + irq else io_reg d x.
Proof.
  intros Hi Hc. unfold ioapicenable. destruct (ioapicwrite_run (REG_TABLE + 2 * irq) (T_IRQ0 + irq) d) as (d1 & E1 & R1); [unfold REG_TABLE; lia|unfold T_IRQ0; lia|].
  destruct (ioapicwrite_run (REG_TABLE + 2 * irq + 1) (Z.shiftl cpu 24) d1) as (d2 & E2 & R2); [unfold REG_TABLE; lia|rewrite Z.shiftl_mul_pow2 by lia; lia|].
  exists d2. split; [by rewrite (bind_run _ _ _ _ _ E1)|]. intros x. rewrite R2. case_decide; [done|]. by rewrite R1.
Qed.

(** All interrupts up to the last are masked and routed nowhere. *)
Definition cleared (r : Z -> Z) (a b : Z) : Prop := forall i, a <= i < b -> masked r i = true /\ r (REG_TABLE + 2 * i + 1) = 0.

Lemma mask_all n : forall a d, 0 <= a -> a + Z.of_nat n <= 120 -> cleared (io_reg d) 0 a ->
  exists d', foreach (seqZ a (Z.of_nat n)) (fun i => do! ioapicwrite (REG_TABLE + 2 * i) (Z.lor INT_DISABLED (T_IRQ0 + i)) in ioapicwrite (REG_TABLE + 2 * i + 1) 0) d = Ret tt d' /\ cleared (io_reg d') 0 (a + Z.of_nat n).
Proof.
  induction n as [|n IH]; intros a d Ha Hn Hc; [exists d; by rewrite Z.add_0_r|]. rewrite seqZ_cons by lia. cbn [foreach]. destruct (mask_bit a ltac:(lia)) as (M1 & _ & M3).
  destruct (ioapicwrite_run (REG_TABLE + 2 * a) (Z.lor INT_DISABLED (T_IRQ0 + a)) d) as (d1 & E1 & R1); [unfold REG_TABLE; lia|done|].
  destruct (ioapicwrite_run (REG_TABLE + 2 * a + 1) 0 d1) as (d2 & E2 & R2); [unfold REG_TABLE; lia|lia|].
  erewrite bind_run; [|rewrite (bind_run _ _ _ _ _ E1); exact E2]. replace (Z.pred (Z.of_nat (S n))) with (Z.of_nat n) by lia. destruct (IH (Z.succ a) d2) as (d' & E & C); [lia|lia| |exists d'; split; [exact E|by replace (a + Z.of_nat (S n)) with (Z.succ a + Z.of_nat n) by lia]].
  intros i Hi. unfold masked. rewrite !R2, !R1. destruct (decide (i = a)) as [->|Hne].
  - rewrite decide_False, decide_True, decide_True by lia. done.
  - rewrite !decide_False by lia. apply Hc. lia.
Qed.

Lemma ioapicinit_run ioapicid d : last_intr (io_reg d) < 120 ->
  exists d', ioapicinit ioapicid d = Ret tt d' /\ cleared (io_reg d') 0 (last_intr (io_reg d) + 1).
Proof.
  intros Hl. assert (H0l : 0 <= last_intr (io_reg d)) by (apply Z.land_nonneg; right; lia). unfold ioapicinit. destruct (ioapicread_run REG_VER d ltac:(unfold REG_VER; lia)) as (d1 & E1 & R1). rewrite (bind_run _ _ _ _ _ E1).
  destruct (ioapicread_run REG_ID d1 ltac:(unfold REG_ID; lia)) as (d2 & E2 & R2). rewrite (bind_run _ _ _ _ _ E2). fold (last_intr (io_reg d)).
  destruct (mask_all (Z.to_nat (last_intr (io_reg d) + 1)) 0 d2 ltac:(lia) ltac:(lia)) as (d' & E & C); [intros i Hi; lia|]. rewrite Z2Nat.id, Z.add_0_l in * by lia. exists d'. split; [|done]. by destruct (negb _).
Qed.
End ioapic_proofs.

(** After [ioapicinit] and any calls of [ioapicenable], an interrupt is masked exactly when it
    was not enabled. *)
Theorem ioapic_only_enabled {D} `{IoApic D} ioapicid (l : list (Z * Z)) (d : D) :
  last_intr (io_reg d) < 120 -> Forall (fun p => 0 <= p.1 <= last_intr (io_reg d) /\ 0 <= p.2 < 256) l ->
  exists d', bind (ioapicinit ioapicid) (fun _ => foreach l (fun p => ioapicenable p.1 p.2)) d = Ret tt d' /\
    forall i, 0 <= i <= last_intr (io_reg d) -> masked (io_reg d') i = bool_decide (i ∉ l.*1).
Proof.
  intros Hn Hl. destruct (ioapicinit_run ioapicid d Hn) as (d1 & E1 & C1). rewrite (bind_run _ _ _ _ _ E1). set (n := last_intr (io_reg d)) in *.
  assert (Hm : forall i, 0 <= i <= n -> masked (io_reg d1) i = bool_decide (i ∉ ([] : list Z))) by (intros i Hi; rewrite bool_decide_eq_true_2 by apply not_elem_of_nil; apply C1; lia).
  clear E1 C1. change l.*1 with ([] ++ l.*1). revert d1 Hm. generalize (@nil Z) as seen. induction Hl as [|[irq cpu] l [Hi Hc] Hl IH]; intros seen d1 Hm; [exists d1; split; [done|]; cbn; by rewrite app_nil_r|].
  cbn [foreach fst snd] in *. destruct (ioapicenable_run irq cpu d1 ltac:(lia) Hc) as (d2 & E2 & R2). rewrite (bind_run _ _ _ _ _ E2). destruct (IH (seen ++ [irq]) d2) as (d' & E & M'); [|exists d'; split; [exact E|]; intros i Hi'; rewrite M' by done; by rewrite <- app_assoc].
  intros i Hi'. unfold masked in *. rewrite R2, decide_False by lia. destruct (decide (i = irq)) as [->|Hne].
  - rewrite decide_True by done. destruct (mask_bit irq ltac:(lia)) as (_ & -> & _). symmetry. apply bool_decide_eq_false_2. intros Hx. apply Hx. apply elem_of_app. right. by apply list_elem_of_singleton.
  - rewrite decide_False by lia. rewrite Hm by done. apply bool_decide_ext. rewrite not_elem_of_app, list_elem_of_singleton. naive_solver.
Qed.

(** ** What the clock shows *)

Definition clock_field (reg : Z) : option (rtcdate -> Z) :=
  if reg =? SECS then Some second else if reg =? MINS then Some minute else if reg =? HOURS then Some hour
  else if reg =? DAY then Some day else if reg =? MONTH then Some month else if reg =? YEAR then Some year else None.

(** Times of the chip's data sheet, in nanoseconds: an update does not begin within 244 us
    after the update-in-progress bit reads 0, and the bit is not set earlier than 244 us
    before one; there is one update every second, of at most 1984 us. *)
Definition AHEAD : Z := 244000.
Definition REST : Z := 998000000.

(** What selecting and reading a register takes at most: two accesses to ports. *)
Definition READ_TIME : Z := 30000.

(** The MC146818 clock.  [now] is the time; [busy] are the times at which the chip updates its
    registers, which then hold anything; between updates they hold the date [date_at]. *)
Class Rtc (D : Type) `{Machine D} := {
  now : D -> Z;
  date_at : Z -> rtcdate;
  busy : Z -> Prop;
  rtc_bcd : bool;
  rtc_steady : forall a b, a <= b -> (forall u, a <= u <= b -> ~ busy u) -> date_at a = date_at b;
  rtc_rest : forall t, exists q, t <= q /\ forall u, q <= u <= q + REST -> ~ busy u;
  rtc_read : forall reg d, 0 <= reg < 256 -> exists v d' t, port_in CMOS_RETURN (port_out CMOS_PORT reg d) = (v, d') /\
    now d <= t <= now d' /\ now d < now d' <= now d + READ_TIME /\
    (forall f, clock_field reg = Some f -> ~ busy t -> v = f (date_at t)) /\
    (reg = CMOS_STATA -> if Z.land v CMOS_UIP =? 0 then forall u, t <= u <= t + AHEAD -> ~ busy u else exists u, t <= u <= t + AHEAD /\ busy u) /\
    (reg = CMOS_STATB -> (Z.land v (Z.shiftl 1 2) =? 0) = rtc_bcd) }.

Section clock_proofs.
Context {D : Type} `{Rtc D}.
Implicit Types d : D.

(** No update from [a] to [b]. *)
Definition at_rest (a b : Z) : Prop := forall u, a <= u <= b -> ~ busy u.

Lemma at_rest_in a b a' b' : at_rest a b -> a <= a' -> b' <= b -> at_rest a' b'.
Proof. intros Hr Ha Hb u Hu. apply Hr. lia. Qed.

Lemma at_rest_date a b t : at_rest a b -> a <= t <= b -> date_at t = date_at a.
Proof. intros Hr Ht. symmetry. apply rtc_steady; [lia|]. by apply (at_rest_in a b); [|lia|lia]. Qed.

(** A read and the moment [t] at which the chip answers. *)
Record read_at (reg : Z) (d : D) (v : Z) (d' : D) (t : Z) : Prop := {
  ra_run : cmos_read reg d = Ret v d';
  ra_when : now d <= t <= now d';
  ra_time : now d < now d' <= now d + READ_TIME;
  ra_field : forall f, clock_field reg = Some f -> ~ busy t -> v = f (date_at t);
  ra_stata : reg = CMOS_STATA -> if Z.land v CMOS_UIP =? 0 then at_rest t (t + AHEAD) else exists u, t <= u <= t + AHEAD /\ busy u;
  ra_statb : reg = CMOS_STATB -> (Z.land v (Z.shiftl 1 2) =? 0) = rtc_bcd }.

Lemma cmos_read_run reg d : 0 <= reg < 256 -> exists v d' t, read_at reg d v d' t.
Proof.
  intros Hr. destruct (rtc_read reg d Hr) as (v & d' & t & E & H1 & H2 & H3 & H4 & H5). exists v, d', t. constructor; try done.
  unfold cmos_read, outb, inb, bind, modify. cbn [bindO get_dev set_dev self_device id]. unfold u8, id. rewrite Z.mod_small by done. by rewrite E.
Qed.

(** Six reads with no update meanwhile give the date. *)
Lemma fill_rtcdate_run d : exists r d', fill_rtcdate d = Ret r d' /\ now d < now d' <= now d + 6 * READ_TIME /\ (at_rest (now d) (now d') -> r = date_at (now d)).
Proof.
  unfold fill_rtcdate. destruct (cmos_read_run SECS d ltac:(done)) as (v0 & d1 & t0 & [E0 W0 T0 F0 _ _]). destruct (cmos_read_run MINS d1 ltac:(done)) as (v1 & d2 & t1 & [E1 W1 T1 F1 _ _]).
  destruct (cmos_read_run HOURS d2 ltac:(done)) as (v2 & d3 & t2 & [E2 W2 T2 F2 _ _]). destruct (cmos_read_run DAY d3 ltac:(done)) as (v3 & d4 & t3 & [E3 W3 T3 F3 _ _]).
  destruct (cmos_read_run MONTH d4 ltac:(done)) as (v4 & d5 & t4 & [E4 W4 T4 F4 _ _]). destruct (cmos_read_run YEAR d5 ltac:(done)) as (v5 & d6 & t5 & [E5 W5 T5 F5 _ _]).
  exists (mk_rtcdate v0 v1 v2 v3 v4 v5), d6. split_and!; [|lia|lia|].
  - run E0. run E1. run E2. run E3. run E4. run E5. done.
  - intros Hr. rewrite (F0 _ eq_refl), (F1 _ eq_refl), (F2 _ eq_refl), (F3 _ eq_refl), (F4 _ eq_refl), (F5 _ eq_refl) by (apply Hr; lia).
    rewrite (at_rest_date _ _ t0 Hr), (at_rest_date _ _ t1 Hr), (at_rest_date _ _ t2 Hr), (at_rest_date _ _ t3 Hr), (at_rest_date _ _ t4 Hr), (at_rest_date _ _ t5 Hr) by lia. by destruct (date_at (now d)).
Qed.

(** A round that ends the loop returns a date that was shown; a round with no update near it
    ends the loop. *)
Lemma round_clock d : exists r d', cmostime_round tt d = Ret r d' /\ now d < now d' <= now d + 13 * READ_TIME /\
  match r with inr x => exists t, now d <= t <= now d' /\ ~ busy t /\ x = date_at t | inl _ => ~ at_rest (now d) (now d' + AHEAD) end.
Proof.
  unfold cmostime_round. destruct (fill_rtcdate_run d) as (t1 & d6 & E1 & T1 & F1). run E1. destruct (cmos_read_run CMOS_STATA d6 ltac:(done)) as (a & d7 & t & [E2 W2 T2 _ Ha _]). run E2.
  specialize (Ha eq_refl). destruct (Z.eqb_spec (Z.land a CMOS_UIP) 0) as [Eu|Eu]; cbn [negb].
  2:{ exists (inl tt), d7. split_and!; [done|lia|unfold READ_TIME in *; lia|]. intros Hr. destruct Ha as (u & Hu & Hb). apply (Hr u); [lia|done]. }
  destruct (fill_rtcdate_run d7) as (t2 & d13 & E3 & T3 & F3). run E3. unfold AHEAD, READ_TIME in *.
  assert (Et2 : t2 = date_at (now d7)) by (apply F3; apply (at_rest_in t (t + 244000)); [done|lia|lia]).
  destruct (bool_decide_reflect (t1 = t2)) as [Et|Et].
  - exists (inr t1), d13. split_and!; [done|lia|lia|]. exists (now d7). split_and!; [lia|lia|apply Ha; lia|congruence].
  - exists (inl tt), d13. split_and!; [done|lia|lia|]. intros Hr. apply Et. rewrite Et2, F1 by (apply (at_rest_in (now d) (now d13 + 244000)); [done|lia|lia]).
    symmetry. apply (at_rest_date (now d) (now d13 + 244000)); [done|lia].
Qed.

(** The loop ends, at the latest in the rest after the next update. *)
Lemma clock_loop q : at_rest q (q + REST) -> forall k d, now d <= q + 13 * READ_TIME -> q - now d <= Z.of_nat k ->
  exists n0 t d', now d <= t <= now d' /\ ~ busy t /\ forall n, (n0 <= n)%nat -> loop n cmostime_round tt d = Ret (date_at t) d'.
Proof.
  intros Hq. induction k as [|k IH]; intros d Hd Hk; destruct (round_clock d) as (r & d2 & E & T & Hr); destruct r as [[]|x].
  1:{ exfalso. apply Hr. unfold READ_TIME, AHEAD, REST in *. apply (at_rest_in q (q + 998000000)); [done|lia|lia]. }
  2:{ destruct (decide (q <= now d)) as [Hge|Hlt].
      - exfalso. apply Hr. unfold READ_TIME, AHEAD, REST in *. apply (at_rest_in q (q + 998000000)); [done|lia|lia].
      - destruct (IH d2) as (n0 & t & d' & Ht & Hb & Hn); [lia|lia|]. exists (S n0), t, d'. split_and!; [lia|lia|done|]. intros [|n] Hle; [lia|]. cbn [loop]. run E. apply Hn. lia. }
  all: destruct Hr as (t & Ht & Hb & ->); exists 1%nat, t, d2; split_and!; [lia|lia|done|]; intros [|n] Hle; [lia|]; cbn [loop]; run E; done.
Qed.
End clock_proofs.

(** The date a reading of the registers stands for. *)
Definition from_bcd (x : Z) : Z := 10 * (x / 16) + x mod 16.
Definition date_of (bcd : bool) (t : rtcdate) : rtcdate :=
  let f := if bcd then from_bcd else id in
  mk_rtcdate (f (second t)) (f (minute t)) (f (hour t)) (f (day t)) (f (month t)) (f (year t) + 2000).

Lemma CONV_bcd x : CONV x = from_bcd x.
Proof. unfold CONV, from_bcd. rewrite Z.shiftr_div_pow2 by lia. change 0xf with (Z.ones 4). rewrite Z.land_ones by lia. change (2 ^ 4) with 16. lia. Qed.

(** C26: the time is read in one piece.  The six registers of the clock are read one at a time,
    they hold anything while the chip updates them, and an update may begin between any two
    reads; still [cmostime] ends, after some number [n0] of rounds, and the date it returns is
    one that the clock showed at a moment [t] during the call at which no update was under
    way, decoded from BCD when the clock is in that mode: never a mixture of the fields before
    and after an update.  Assumed are the chip's documented times ([Rtc]) and that a register
    is read within 30 us. *)
Theorem cmostime_consistent {D} `{Rtc D} (d : D) :
  exists n0 t d', now d <= t <= now d' /\ ~ busy t /\ forall n, (n0 <= n)%nat -> cmostime n d = Ret (date_of rtc_bcd (date_at t)) d'.
Proof.
  unfold cmostime. destruct (cmos_read_run CMOS_STATB d ltac:(done)) as (b & d0 & t0 & [E _ T _ _ Hb]).
  destruct (rtc_rest (now d0)) as (q & Hq & Hrest). unfold READ_TIME in *.
  destruct (clock_loop q Hrest (Z.to_nat (q - now d0)) d0) as (n0 & t & d' & Ht & Hbusy & Hn); [unfold READ_TIME; lia|lia|].
  exists n0, t, d'. split_and!; [lia|lia|done|]. intros n Hle. run E. rewrite Hb by done. erewrite bind_run by (by apply Hn).
  unfold date_of, ret. destruct rtc_bcd; [|done]. cbn. by rewrite !CONV_bcd.
Qed.

(** A clock that updates at the beginning of every second, with 0xFF in its registers
    meanwhile; an access to a port takes 1 us.  It passes from one year to the next. *)
Record toy_clock := mk_toy_clock { tc_sel : Z; tc_time : Z }.

Definition SECOND : Z := 1000000000.
Definition tc_busy (t : Z) : bool := t mod SECOND <? 1984000.
Definition tc_date (t : Z) : rtcdate := if t <? SECOND then mk_rtcdate 0x59 0x59 0x23 0x31 0x12 0x25 else mk_rtcdate 0 0 0 1 1 0x26.
Definition tc_uip (t : Z) : bool := (t + 244000) mod SECOND <? 2228000.

Definition tc_value (reg t : Z) : Z :=
  match clock_field reg with
  | Some f => if tc_busy t then 0xFF else f (tc_date t)
  | None => if (reg =? CMOS_STATA) && tc_uip t then CMOS_UIP else 0
  end.

#[export] Instance toy_clock_machine : Machine toy_clock := {
  port_in p d := (tc_value (tc_sel d) (tc_time d), mk_toy_clock (tc_sel d) (tc_time d + 1000));
  port_out p v d := mk_toy_clock (if p =? CMOS_PORT then v else tc_sel d) (tc_time d + 1000);
  port_ins _ _ d := ([], d);
  port_outs _ _ d := d }.

Lemma tc_steady a b : a <= b -> (forall u, a <= u <= b -> ~ tc_busy u = true) -> tc_date a = tc_date b.
Proof.
  intros Hab Hr. unfold tc_date. destruct (Z.ltb_spec a SECOND), (Z.ltb_spec b SECOND); try done; [|lia].
  exfalso. apply (Hr SECOND); [lia|reflexivity].
Qed.

Lemma tc_rest t : exists q, t <= q /\ forall u, q <= u <= q + REST -> ~ tc_busy u = true.
Proof.
  exists ((t / SECOND + 1) * SECOND + 1984000). unfold tc_busy, REST, SECOND. split; [Z.div_mod_to_equations; lia|]. intros u Hu. rewrite Z.ltb_lt. Z.div_mod_to_equations. lia.
Qed.

Lemma tc_ahead t : if tc_uip t then exists u, t <= u <= t + AHEAD /\ tc_busy u = true else forall u, t <= u <= t + AHEAD -> ~ tc_busy u = true.
Proof.
  unfold tc_uip, tc_busy, AHEAD, SECOND. destruct (Z.ltb_spec ((t + 244000) mod 1000000000) 2228000) as [Hlt|Hge].
  - destruct (decide ((t + 244000) mod 1000000000 <= 244000)).
    + exists ((t + 244000) / 1000000000 * 1000000000). rewrite Z.mod_mul by done. split; [Z.div_mod_to_equations; lia|done].
    + exists t. split; [lia|]. apply Z.ltb_lt. Z.div_mod_to_equations. lia.
  - intros u Hu. rewrite Z.ltb_lt. Z.div_mod_to_equations. lia.
Qed.

#[export, refine] Instance toy_clock_rtc : Rtc toy_clock := {
  now := tc_time; date_at := tc_date; busy t := tc_busy t = true; rtc_bcd := true; rtc_steady := tc_steady; rtc_rest := tc_rest }.
Proof.
  intros reg d Hr. eexists _, _, (tc_time d + 1000). split; [reflexivity|]. cbn. unfold READ_TIME. split_and!; [lia..| | |].
  - intros f Hf Hb. unfold tc_value. rewrite Hf. destruct (tc_busy _); done.
  - intros ->. unfold tc_value. cbn. pose proof (tc_ahead (tc_time d + 1000)) as Ha. destruct (tc_uip (tc_time d + 1000)); exact Ha.
  - by intros ->.
Defined.

(** Read across midnight: the year's last update begins while the registers are first read. *)
Definition midnight : toy_clock := mk_toy_clock 0 (SECOND - 5000).

Lemma cmostime_consistent_witness :
  (exists n0 t d', now midnight <= t <= now d' /\ ~ busy t /\ forall n, (n0 <= n)%nat -> cmostime n midnight = Ret (date_of true (date_at t)) d') /\
  exists d', cmostime 300 midnight = Ret (mk_rtcdate 0 0 0 1 1 2026) d'.
Proof.
  split; [exact (cmostime_consistent midnight)|]. eexists. vm_compute. reflexivity.
Defined.

(** ** What is sent on the serial line *)

(** The bytes handed to the transmitter.  While the divisor latch is open (bit 7 of the line
    control register) the data port holds the low byte of the divisor. *)
Class Serial (D : Type) `{Machine D} `{Mmio D} := {
  sent : D -> list Z;
  latch_open : D -> bool;
  serial_data : forall v d, let d' := port_out (COM1 + 0) v d in sent d' = (if latch_open d then sent d else sent d ++ [v]) /\ latch_open d' = latch_open d;
  serial_lcr : forall v d, let d' := port_out (COM1 + 3) v d in sent d' = sent d /\ latch_open d' = Z.testbit v 7;
  serial_other : forall p v d, p = COM1 + 1 \/ p = COM1 + 2 \/ p = COM1 + 4 -> let d' := port_out p v d in sent d' = sent d /\ latch_open d' = latch_open d;
  serial_in : forall p d, let d' := (port_in p d).2 in sent d' = sent d /\ latch_open d' = latch_open d;
  serial_mem : forall a v d, let d' := mem_out a v d in sent d' = sent d /\ latch_open d' = latch_open d }.

(** A device and the flag [uart]. *)
#[export] Instance flag_device {D} : HasDevice D (D * bool) := { get_dev := fst; set_dev d s := (d, s.2) }.
#[export] Instance flag_uart {D} : HasUart (D * bool) := { get_uart := snd; set_uart u s := (s.1, u) }.

Section serial_proofs.
Context {D : Type} `{Serial D}.
Implicit Types d : D.

(** Polling changes nothing. *)
Lemma uart_poll n : forall i d, exists d', loop (S n) (fun i => if i <? 128 then let! st := inb (COM1 + 5) in ret (if Z.land st 0x20 =? 0 then inl (i + 1) else inr tt) else ret (inr tt)) i (d, true) = Ret tt (d', true) /\ sent d' = sent d /\ latch_open d' = latch_open d
  \/ i + Z.of_nat n < 128.
Proof.
  induction n as [|n IH]; intros i d; cbn [loop]; unfold bind at 1; destruct (Z.ltb_spec i 128) as [Hi|Hi]; try (exists d; left; by split); [exists d; right; lia|].
  unfold inb, bind at 1. cbn [get_dev flag_device fst set_dev snd]. pose proof (serial_in (COM1 + 5) d) as [S1 S2]. destruct (port_in (COM1 + 5) d) as [st d1]. cbn [bindO snd] in *. unfold ret. destruct (Z.land st 32 =? 0).
  - cbn [bindO]. destruct (IH (i + 1) d1) as (d' & [(E & T1 & T2)|Hl]); [exists d'; left; split; [exact E|by rewrite T1, T2]|exists d; right; lia].
  - exists d1. left. by split.
Qed.

Lemma uartputc_run c d : latch_open d = false -> exists d', uartputc c (d, true) = Ret tt (d', true) /\ sent d' = sent d ++ [u8 c] /\ latch_open d' = false.
Proof.
  intros Hl. unfold uartputc. rewrite bind_gets. cbn [get_uart flag_uart snd when]. destruct (uart_poll 128 0 d) as (d1 & [(E & S1 & S2)|Hc]); [|lia]. erewrite bind_run by exact E. pose proof (serial_data (u8 c) d1) as [T1 T2].
  eexists. split; [reflexivity|]. cbn [get_dev flag_device fst]. rewrite T1, T2, S2, Hl, S1. done.
Qed.

Lemma uartputs_run l : forall d, latch_open d = false -> exists d', foreach l uartputc (d, true) = Ret tt (d', true) /\ sent d' = sent d ++ (u8 <$> l) /\ latch_open d' = false.
Proof.
  induction l as [|c l IH]; intros d Hl; [exists d; by rewrite app_nil_r|]. cbn [foreach]. destruct (uartputc_run c d Hl) as (d1 & E & S1 & L1). run E. destruct (IH d1 L1) as (d' & E' & S' & L'). exists d'. split; [exact E'|]. by rewrite S', S1, <- app_assoc.
Qed.
End serial_proofs.

(** [uartinit] leaves the divisor latch closed.  Without a serial port (status FF) it sends
    nothing and leaves the flag clear; with one it sets the flag and sends the greeting,
    and nothing of the divisor is sent. *)
Theorem uartinit_greets {D} `{Serial D} (d : D) : exists d' u, uartinit (d, false) = Ret tt (d', u) /\ latch_open d' = false /\
  sent d' = (if u then sent d ++ [0x78; 0x76; 0x36; 0x2E; 0x2E; 0x2E; 0x0A] else sent d).
Proof.
  unfold uartinit, outb, modify, bind at 1 2 3 4 5 6 7. cbn [bindO get_dev set_dev flag_device fst snd].
  set (d1 := port_out (COM1 + 2) _ d). set (d2 := port_out (COM1 + 3) _ d1). set (d3 := port_out (COM1 + 0) _ d2). set (d4 := port_out (COM1 + 1) _ d3). set (d5 := port_out (COM1 + 3) _ d4). set (d6 := port_out (COM1 + 4) _ d5). set (d7 := port_out (COM1 + 1) _ d6).
  assert (H7 : sent d7 = sent d /\ latch_open d7 = false).
  { destruct (serial_other (COM1 + 2) (u8 0) d ltac:(auto)) as [A1 B1]. destruct (serial_lcr (u8 0x80) d1) as [A2 B2]. destruct (serial_data (u8 (115200 / 9600)) d2) as [A3 B3]. destruct (serial_other (COM1 + 1) (u8 0) d3 ltac:(auto)) as [A4 B4].
    destruct (serial_lcr (u8 0x03) d4) as [A5 B5]. destruct (serial_other (COM1 + 4) (u8 0) d5 ltac:(auto)) as [A6 B6]. destruct (serial_other (COM1 + 1) (u8 0x01) d6 ltac:(auto)) as [A7 B7].
    fold d1 in A1, B1. fold d2 in A2, B2. fold d3 in A3, B3. fold d4 in A4, B4. fold d5 in A5, B5. fold d6 in A6, B6. fold d7 in A7, B7. change (Z.testbit (u8 0x80) 7) with true in B2. change (Z.testbit (u8 0x03) 7) with false in B5. rewrite B2 in A3. split; congruence. }
  destruct H7 as [S7 L7]. clearbody d7. clear d1 d2 d3 d4 d5 d6. unfold inb at 1, bind at 1. cbn [get_dev set_dev flag_device fst snd]. pose proof (serial_in (COM1 + 5) d7) as [S8 L8]. destruct (port_in (COM1 + 5) d7) as [st d8]. cbn [bindO snd] in *.
  destruct (st =? 0xFF); [exists d8, false; split; [done|]; by rewrite S8, L8|]. unfold bind at 1. cbn [bindO set_uart flag_uart fst]. unfold inb at 1, bind at 1. cbn [get_dev set_dev flag_device fst snd]. pose proof (serial_in (COM1 + 2) d8) as [S9 L9]. destruct (port_in (COM1 + 2) d8) as [v9 d9]. cbn [bindO snd] in *.
  unfold inb at 1, bind at 1. cbn [get_dev set_dev flag_device fst snd]. pose proof (serial_in (COM1 + 0) d9) as [S10 L10]. destruct (port_in (COM1 + 0) d9) as [v10 d10]. cbn [bindO snd] in *.
  unfold bind at 1, ioapicenable, ioapicwrite, mmio_write, modify, bind at 1 2 3. cbn [bindO get_dev set_dev flag_device fst snd]. set (d11 := mem_out _ _ _).
  assert (H11 : sent d11 = sent d10 /\ latch_open d11 = latch_open d10) by (unfold d11; rewrite !(proj1 (serial_mem _ _ _)), !(proj2 (serial_mem _ _ _)); done). destruct H11 as [S11 L11].
  destruct (uartputs_run [0x78; 0x76; 0x36; 0x2E; 0x2E; 0x2E; 0x0A] d11 ltac:(by rewrite L11, L10, L9, L8)) as (d' & E & S' & L'). exists d', true. split; [exact E|]. split; [done|]. rewrite S', S11, S10, S9, S8, S7. done.
Qed.

(** ** Modifier keys *)

(** A keyboard with the scan codes it has still to deliver. *)
Class Keys (D : Type) `{Machine D} (kb : keyboard) := {
  pending : D -> list Z;
  keys_status : forall d, exists st d', port_in (KBSTATP kb) d = (st, d') /\ pending d' = pending d /\ (Z.land st (KBS_DIB kb) = 0 <-> pending d = []);
  keys_data : forall d c l, pending d = c :: l -> exists d', port_in (KBDATAP kb) d = (c, d') /\ pending d' = l }.

#[export] Instance shift_device {D} : HasDevice D (D * Z) := { get_dev := fst; set_dev d s := (d, s.2) }.
#[export] Instance shift_shift {D} : HasShift (D * Z) := { get_shift := snd; set_shift v s := (s.1, v) }.

Section keys_proofs.
Context {D : Type} `{Machine D} (kb : keyboard) `{!Keys D kb}.
Implicit Types d : D.

Lemma kbdgetc_reads d sh c l : pending d = c :: l -> exists d', kbdgetc kb (d, sh) = kbd_code kb c (d', sh) /\ pending d' = l.
Proof.
  intros Hp. destruct (keys_status d) as (st & d1 & E1 & P1 & N1). destruct (keys_data d1 c l (eq_trans P1 Hp)) as (d2 & E2 & P2). exists d2. split; [|done].
  unfold kbdgetc, inb at 1, bind at 1. cbn [get_dev set_dev shift_device fst snd]. rewrite E1. cbn [bindO]. destruct (Z.eqb_spec (Z.land st (KBS_DIB kb)) 0) as [E|E]; [apply N1 in E; by rewrite Hp in E|].
  unfold inb at 1, bind at 1. cbn [get_dev set_dev shift_device fst snd]. rewrite E2. reflexivity.
Qed.
Lemma press_run k d sh map : Z.land (Z.lor sh (shiftcode kb k)) (CAPSLOCK kb) = 0 -> togglecode kb k = 0 -> charcode kb (Z.land (Z.lor sh (shiftcode kb k)) (Z.lor (CTL kb) (SHIFT kb))) = Some map ->
  kbd_press kb k (d, sh) = Ret (map k) (d, Z.lor sh (shiftcode kb k)).
Proof.
  intros Hc Ht Hm. unfold kbd_press, modify, gets, bind. cbn [bindO get_shift set_shift shift_shift fst snd]. rewrite Ht, Z.lxor_0_r, Hm. cbn [ofopt ret bindO]. by rewrite Hc.
Qed.

Lemma code_press c d sh : 0 <= c < 128 -> Z.land sh (E0ESC kb) = 0 -> kbd_code kb c (d, sh) = kbd_press kb c (d, sh).
Proof.
  intros Hc He. unfold kbd_code. rewrite bind_gets. cbn [get_shift shift_shift snd]. destruct (Z.eqb_spec c 0xE0) as [|_]; [lia|]. rewrite He.
  assert (Hb : Z.land c 0x80 = 0). { apply Z.bits_inj'. intros n Hn. rewrite Z.land_spec, Z.bits_0. change 0x80 with (2 ^ 7). rewrite Z.pow2_bits_eqb by lia. destruct (Z.eqb_spec 7 n) as [<-|]; [|apply andb_false_r]. rewrite <- (Z.mod_small c (2 ^ 7)) by lia. rewrite Z.mod_pow2_bits_high by lia. done. }
  by rewrite Hb.
Qed.

Lemma code_release c d sh : 0 <= c < 128 -> c <> 0x60 -> Z.land sh (E0ESC kb) = 0 -> kbd_code kb (c + 128) (d, sh) = Ret 0 (d, Z.land sh (u32 (Z.lnot (Z.lor (shiftcode kb c) (E0ESC kb))))).
Proof.
  intros Hc Hne He. unfold kbd_code. rewrite bind_gets. cbn [get_shift shift_shift snd]. destruct (Z.eqb_spec (c + 128) 0xE0) as [|_]; [lia|].
  assert (Hb : Z.land (c + 128) 0x80 = 128). { apply Z.bits_inj'. intros n Hn. rewrite Z.land_spec. change 0x80 with (2 ^ 7) at 1. change 128 with (2 ^ 7). rewrite !Z.pow2_bits_eqb by lia. destruct (Z.eqb_spec 7 n) as [<-|]; [|apply andb_false_r]. rewrite andb_true_r. apply Z.testbit_true; [lia|]. replace (c + 2 ^ 7) with (c + 1 * 2 ^ 7) by lia. rewrite Z.div_add, Z.div_small by lia. done. }
  assert (Hl : Z.land (c + 128) 0x7F = c). { change 0x7F with (Z.ones 7). rewrite Z.land_ones by lia. replace (c + 128) with (c + 1 * 2 ^ 7) by lia. rewrite Z.mod_add by lia. apply Z.mod_small. lia. }
  rewrite Hb, He, Hl. done.
Qed.

Lemma unshift sh b e : 0 <= sh < 2 ^ 32 -> Z.land sh b = 0 -> Z.land sh e = 0 -> Z.land (Z.lor sh b) (u32 (Z.lnot (Z.lor b e))) = sh.
Proof.
  intros Hs Hb He. apply Z.bits_inj'. intros n Hn. rewrite Z.land_spec, Z.lor_spec. unfold u32. destruct (Z.ltb_spec n 32) as [Hl|Hl].
  - rewrite Z.mod_pow2_bits_low, Z.lnot_spec, Z.lor_spec by lia. assert (B1 : Z.testbit sh n && Z.testbit b n = false) by (by rewrite <- Z.land_spec, Hb, Z.bits_0). assert (B2 : Z.testbit sh n && Z.testbit e n = false) by (by rewrite <- Z.land_spec, He, Z.bits_0).
    by destruct (Z.testbit sh n), (Z.testbit b n), (Z.testbit e n).
  - rewrite Z.mod_pow2_bits_high by lia. rewrite <- (Z.mod_small sh (2 ^ 32)) by lia. rewrite Z.mod_pow2_bits_high by lia. apply andb_false_r.
Qed.
End keys_proofs.

(** A modifier key is in force exactly while it is down: with the modifier [m] pressed, the
    key [k] gives the character of the map that the modifier selects; after the release of
    [m] it gives that of the map in force before, and [shift] is as before. *)
Theorem kbd_modifier {D} `{Machine D} (kb : keyboard) `{!Keys D kb} (d : D) sh m k map1 map0 rest :
  0 <= m < 128 -> m <> 0x60 -> 0 <= k < 128 -> 0 <= sh < 2 ^ 32 -> togglecode kb m = 0 -> togglecode kb k = 0 -> shiftcode kb k = 0 ->
  Z.land sh (E0ESC kb) = 0 -> Z.land (shiftcode kb m) (E0ESC kb) = 0 -> Z.land sh (shiftcode kb m) = 0 -> Z.land sh (CAPSLOCK kb) = 0 -> Z.land (shiftcode kb m) (CAPSLOCK kb) = 0 ->
  charcode kb (Z.land (Z.lor sh (shiftcode kb m)) (Z.lor (CTL kb) (SHIFT kb))) = Some map1 -> charcode kb (Z.land sh (Z.lor (CTL kb) (SHIFT kb))) = Some map0 ->
  pending d = m :: k :: m + 128 :: k :: rest ->
  exists d', (let! _ := kbdgetc kb in let! c1 := kbdgetc kb in let! _ := kbdgetc kb in let! c2 := kbdgetc kb in ret (c1, c2)) (d, sh) = Ret (map1 k, map0 k) (d', sh) /\ pending d' = rest.
Proof.
  intros Hm Hne Hk Hs Tm Tk Sk E1 E2 B1 C1 C2 M1 M0 Hp. set (b := shiftcode kb m) in *. assert (Eb : Z.land (Z.lor sh b) (E0ESC kb) = 0) by (rewrite Z.land_lor_distr_l, E1, E2; done). assert (Cb : Z.land (Z.lor sh b) (CAPSLOCK kb) = 0) by (rewrite Z.land_lor_distr_l, C1, C2; done).
  destruct (kbdgetc_reads kb d sh m _ Hp) as (d1 & R1 & P1). rewrite code_press in R1 by done. erewrite press_run in R1 by done. run R1.
  destruct (kbdgetc_reads kb d1 (Z.lor sh b) k _ P1) as (d2 & R2 & P2). rewrite code_press in R2 by done. erewrite press_run in R2; [|rewrite Sk, Z.lor_0_r; done|done|rewrite Sk, Z.lor_0_r; exact M1]. rewrite Sk, Z.lor_0_r in R2. run R2.
  destruct (kbdgetc_reads kb d2 (Z.lor sh b) (m + 128) _ P2) as (d3 & R3 & P3). rewrite code_release in R3 by done. fold b in R3. rewrite unshift in R3 by done. run R3.
  destruct (kbdgetc_reads kb d3 sh k _ P3) as (d4 & R4 & P4). rewrite code_press in R4 by done. erewrite press_run in R4; [|rewrite Sk, Z.lor_0_r; done|done|rewrite Sk, Z.lor_0_r; exact M0]. rewrite Sk, Z.lor_0_r in R4. run R4. exists d4. by split.
Qed.
