(* ===== verification/Ide.v ===== *)
(** * The IDE driver

    [src/ide.c], the interrupt-driven disk driver that [src/memide.c] stands in for.  The
    state has the buffers of the block cache, their [qnext] links and the head of the
    request queue, the lock, the buffers with a process asleep on them, and a disk
    ([Hw]).  Code that holds [idelock] runs without interruption; a call of
    [iderw] is cut at its [sleep] (outcome [Switch]), and the relation [istep] interleaves
    calls, interrupts and wake-ups in any order. *)

From S2P Require Import Prelude CString Headers Bytes Hw Apic.

(** ** State *)

(** [asleep] has the buffers whose caller sleeps in [iderw]; [qnext] has the links that are
    not null. *)
Record ide (D : Type) := mk_ide {
  ibufs : list buf; qnext : gmap nat nat; idequeue : option nat; havedisk1 : bool;
  idelock : bool; asleep : gset nat; ide_dev : D }.
Arguments mk_ide {D}.
Arguments ibufs {D}.
Arguments qnext {D}.
Arguments idequeue {D}.
Arguments havedisk1 {D}.
Arguments idelock {D}.
Arguments asleep {D}.
Arguments ide_dev {D}.
#[export] Instance eta_ide {D} : Eta (ide D) := fun r => mk_ide (ibufs r) (qnext r) (idequeue r) (havedisk1 r) (idelock r) (asleep r) (ide_dev r).
#[export] Instance set_ibufs {D} : Setter (@ibufs D) := ltac:(mk_setter).
#[export] Instance set_qnext {D} : Setter (@qnext D) := ltac:(mk_setter).
#[export] Instance set_idequeue {D} : Setter (@idequeue D) := ltac:(mk_setter).
#[export] Instance set_havedisk1 {D} : Setter (@havedisk1 D) := ltac:(mk_setter).
#[export] Instance set_idelock {D} : Setter (@idelock D) := ltac:(mk_setter).
#[export] Instance set_asleep {D} : Setter (@asleep D) := ltac:(mk_setter).
#[export] Instance set_ide_dev {D} : Setter (@ide_dev D) := ltac:(mk_setter).
#[export] Instance ide_device {D} : HasDevice D (ide D) := { get_dev := ide_dev; set_dev d s := s <| ide_dev := d |> }.

(** ** ide.c *)

Definition IDE_BSY : Z := 0x80.
Definition IDE_DRDY : Z := 0x40.
Definition IDE_DF : Z := 0x20.
Definition IDE_ERR : Z := 0x01.
Definition IDE_CMD_READ : Z := 0x20.
Definition IDE_CMD_WRITE : Z := 0x30.
Definition IDE_CMD_RDMUL : Z := 0xc4.
Definition IDE_CMD_WRMUL : Z := 0xc5.

(** How often a caller may be woken before its request is done. *)
Definition IDE_WAKEUPS : nat := 64.

Section ide_c.
Context {D : Type} `{Disk D}.
Abbreviation I := (M (ide D)).

Definition ibuf (i : nat) : I buf := let! bs := gets ibufs in ofopt (bs !! i).
Definition upd_ibuf (i : nat) (f : buf -> buf) : I unit := let! b := ibuf i in modify (fun s => s <| ibufs ::= <[i := f b]> |>).

(** [acquire] and [release] of [idelock]; [sleep(b, &idelock)] and [wakeup(b)]. *)
Definition ide_acquire : I unit := fun s => if idelock s then Spin s else Ret tt (s <| idelock := true |>).
Definition ide_release : I unit := fun s => if idelock s then Ret tt (s <| idelock := false |>) else Panic "release" s.
Definition ide_sleep (i : nat) : I unit := fun s => Switch (s <| idelock := false |> <| asleep ::= union {[i]} |>) ide_acquire.
Definition ide_wakeup (i : nat) : I unit := modify (fun s => s <| asleep ::= fun a => a ∖ {[i]} |>).

Definition idewait (checkerr : bool) : I Z :=
  let! r := loop patience (fun _ : unit => let! r := inb 0x1F7 in ret (if Z.land r (Z.lor IDE_BSY IDE_DRDY) =? IDE_DRDY then inr r else inl tt)) tt in
  ret (if checkerr && negb (Z.land r (Z.lor IDE_DF IDE_ERR) =? 0) then -1 else 0).

Definition ideinit `{Mmio D} (ncpu : Z) : I unit :=
  do! modify (fun s => s <| idelock := false |>) in
  do! ioapicenable IRQ_IDE (ncpu - 1) in
  let! _ := idewait false in
  do! outb 0x1F6 (Z.lor 0xE0 (Z.shiftl 1 4)) in
  let! r := first_of (seqZ 0 1000) (fun _ => let! v := inb 0x1F7 in ret (if negb (v =? 0) then Some tt else None)) in
  do! when (if r then true else false) (modify (fun s => s <| havedisk1 := true |>)) in
  outb 0x1F6 (Z.lor 0xE0 (Z.shiftl 0 4)).

Definition idestart (b : option nat) : I unit :=
  match b with
  | None => panic "idestart"
  | Some i =>
      let! b := ibuf i in
      if FSSIZE <=? b_blockno b then panic "incorrect blockno"
      else
        let sector_per_block := BSIZE / SECTOR_SIZE in
        let sector := b_blockno b * sector_per_block in
        let read_cmd := if sector_per_block =? 1 then IDE_CMD_READ else IDE_CMD_RDMUL in
        let write_cmd := if sector_per_block =? 1 then IDE_CMD_WRITE else IDE_CMD_WRMUL in
        if 7 <? sector_per_block then panic "idestart"
        else
          let! _ := idewait false in
          do! outb 0x3F6 0 in
          do! outb 0x1F2 sector_per_block in
          do! outb 0x1F3 (Z.land sector 0xFF) in
          do! outb 0x1F4 (Z.land (Z.shiftr sector 8) 0xFF) in
          do! outb 0x1F5 (Z.land (Z.shiftr sector 16) 0xFF) in
          do! outb 0x1F6 (Z.lor (Z.lor 0xE0 (Z.shiftl (Z.land (b_dev b) 1) 4)) (Z.land (Z.shiftr sector 24) 0x0F)) in
          if negb (Z.land (b_flags b) B_DIRTY =? 0) then
            do! outb 0x1F7 write_cmd in
            outsl 0x1F0 (take (Z.to_nat BSIZE) (b_data b))
          else outb 0x1F7 read_cmd
  end.

Definition ideintr : I unit :=
  do! ide_acquire in
  let! q := gets idequeue in
  match q with
  | None => ide_release
  | Some i =>
      do! modify (fun s => s <| idequeue := qnext s !! i |>) in
      let! b := ibuf i in
      do! (if Z.land (b_flags b) B_DIRTY =? 0 then
             let! r := idewait true in
             when (0 <=? r) (
               let! l := insl 0x1F0 (Z.to_nat (BSIZE / 4)) in
               upd_ibuf i (fun b => b <| b_data := l |>))
           else ret tt) in
      do! upd_ibuf i (fun b => b <| b_flags ::= fun f => Z.lor f B_VALID |>) in
      do! upd_ibuf i (fun b => b <| b_flags ::= fun f => Z.land f (Z.lnot B_DIRTY) |>) in
      do! ide_wakeup i in
      let! q := gets idequeue in
      do! (match q with Some _ => idestart q | None => ret tt end) in
      ide_release
  end.

(** [*pp], where [pp] is [&idequeue] or the address of a [qnext] field. *)
Definition deref (pp : option nat) : I (option nat) :=
  match pp with None => gets idequeue | Some j => gets (fun s => qnext s !! j) end.

(** [while ((b->flags & (B_VALID|B_DIRTY)) != B_VALID) sleep(b, &idelock);] *)
Definition ide_wait_round (i : nat) (_ : unit) : I (unit + unit) :=
  let! b := ibuf i in
  if negb (Z.land (b_flags b) (Z.lor B_VALID B_DIRTY) =? B_VALID) then do! ide_sleep i in ret (inl tt)
  else ret (inr tt).

Definition iderw (i : nat) : I unit :=
  let! b := ibuf i in
  if sl_locked (b_lock b) =? 0 then panic "iderw: buf not locked"
  else if Z.land (b_flags b) (Z.lor B_VALID B_DIRTY) =? B_VALID then panic "iderw: nothing to do"
  else
    let! hd1 := gets havedisk1 in
    if negb (b_dev b =? 0) && negb hd1 then panic "iderw: ide disk 1 not present"
    else
      do! ide_acquire in
      do! modify (fun s => s <| qnext ::= delete i |>) in
      let! n := gets (fun s => length (ibufs s)) in
      let! pp := loop (S n) (fun pp => let! x := deref pp in ret (match x with None => inr pp | Some j => inl (Some j) end)) None in
      do! modify (fun s => match pp with None => s <| idequeue := Some i |> | Some j => s <| qnext ::= <[j := i]> |> end) in
      let! q := gets idequeue in
      do! when (bool_decide (q = Some i)) (idestart (Some i)) in
      do! loop IDE_WAKEUPS (ide_wait_round i) tt in
      ide_release.
End ide_c.

(** ** Requests and the disk's blocks *)

Definition dirty (b : buf) : bool := negb (Z.land (b_flags b) B_DIRTY =? 0).
Definition synced (b : buf) : Prop := Z.land (b_flags b) (Z.lor B_VALID B_DIRTY) = B_VALID.

(** Where a buffer lives on the disk, and whether a transfer of it is possible. *)
Definition place (b : buf) : Z * Z := (b_dev b, b_blockno b).
Record transferable (b : buf) : Prop := {
  tr_dev : 0 <= b_dev b <= 1;
  tr_block : 0 <= b_blockno b < FSSIZE;
  tr_data : length (b_data b) = Z.to_nat BSIZE }.

(** Block [p.2] of drive [p.1]. *)
Definition block_at {D} `{Disk D} (d : D) (p : Z * Z) : list Z := run_of (sector d p.1) (2 * p.2) 2.

(** The linked list from [h] is [q]. *)
Fixpoint chain (nx : gmap nat nat) (h : option nat) (q : list nat) : Prop :=
  match q with [] => h = None | i :: q' => h = Some i /\ chain nx (nx !! i) q' end.

Lemma chain_delete nx h q i : i ∉ q -> chain nx h q -> chain (delete i nx) h q.
Proof.
  revert h. induction q as [|j q IH]; intros h Hi; [done|]. apply not_elem_of_cons in Hi as [Hne Hi]. intros [-> Hc]. split; [done|]. rewrite lookup_delete_ne by done. by apply IH.
Qed.

Lemma chain_insert nx h q i j : i ∉ q -> chain nx h q -> chain (<[i := j]> nx) h q.
Proof.
  revert h. induction q as [|x q IH]; intros h Hi; [done|]. apply not_elem_of_cons in Hi as [Hne Hi]. intros [-> Hc]. split; [done|]. rewrite lookup_insert_ne by done. by apply IH.
Qed.

(** Linking [i] after the last. *)
Lemma chain_append nx h q l i : NoDup (q ++ [l]) -> i ∉ q ++ [l] -> nx !! i = None -> chain nx h (q ++ [l]) -> chain (<[l := i]> nx) h ((q ++ [l]) ++ [i]).
Proof.
  revert h. induction q as [|x q IH]; intros h Hnd Hi Hn Hc.
  - cbn in *. destruct Hc as [-> _]. apply not_elem_of_cons in Hi as [Hi _]. split; [done|]. rewrite lookup_insert_eq. split; [done|]. by rewrite lookup_insert_ne.
  - cbn in *. destruct Hc as [-> Hc]. apply NoDup_cons in Hnd as [Hx Hnd]. apply not_elem_of_cons in Hi as [Hne Hi]. split; [done|]. rewrite lookup_insert_ne by (intros ->; apply Hx; set_solver). by apply IH.
Qed.

Lemma valid_flags f : Z.land (Z.land (Z.lor f B_VALID) (Z.lnot B_DIRTY)) (Z.lor B_VALID B_DIRTY) = B_VALID.
Proof.
  rewrite <- Z.land_assoc. change (Z.land (Z.lnot B_DIRTY) (Z.lor B_VALID B_DIRTY)) with B_VALID. apply Z.bits_inj'. intros n Hn. rewrite Z.land_spec, Z.lor_spec. by destruct (Z.testbit f n), (Z.testbit B_VALID n).
Qed.

Section device.
Context {D : Type} `{Disk D}.
Implicit Types (d : D) (s : ide D).

Lemma block_write d p data q : 0 <= p.1 <= 1 -> 0 <= p.2 < FSSIZE -> length data = Z.to_nat BSIZE ->
  block_at (port_outs 0x1F0 data (ata_command 2 p.1 (2 * p.2) (write_cmd 2) d)) q = if decide (q = p) then data else block_at d q.
Proof.
  intros Hd Hb Hl. unfold FSSIZE in Hb. destruct p as [dv b], q as [dv' b']. cbn [fst snd] in *. unfold block_at. cbn [fst snd]. rewrite !run_of_2.
  rewrite !(disk_write 2 dv (2 * b) d data ltac:(lia) Hd ltac:(lia) ltac:(lia) ltac:(rewrite Hl; done)). destruct (decide (dv' = dv)) as [->|Hne].
  - destruct (decide (b' = b)) as [->|Hnb].
    + rewrite !decide_True by (done || (split; [done|lia])). replace (2 * b - 2 * b) with 0 by lia. replace (2 * b + 1 - 2 * b) with 1 by lia. change (Z.to_nat (SECTOR_SIZE * 0)) with 0%nat. change (Z.to_nat (SECTOR_SIZE * 1)) with (Z.to_nat SECTOR_SIZE). unfold get_bytes. rewrite drop_0.
      rewrite (take_ge (drop _ _)); [apply take_drop|]. rewrite length_drop, Hl. done.
    + rewrite !decide_False by (try (intros [_ ?]; lia); intros [= ->]; done). done.
  - rewrite !decide_False by (try (by intros [? _]); by intros [= ->]). done.
Qed.

Lemma block_sector d d' : sector d' = sector d -> block_at d' = block_at d.
Proof. intros E. unfold block_at. by rewrite E. Qed.

Lemma idewait_run c s : exists st d', await patience (ide_dev s) = Some (st, d') /\
  idewait c s = Ret (if c && negb (Z.land st 0x21 =? 0) then -1 else 0) (s <| ide_dev := d' |>).
Proof.
  destruct (await_ends (ide_dev s)) as (st & d' & E). exists st, d'. split; [done|]. unfold idewait. change (Z.lor IDE_BSY IDE_DRDY) with 0xC0. change IDE_DRDY with 0x40. change (Z.lor IDE_DF IDE_ERR) with 0x21.
  enough (El : loop patience (fun _ : unit => let! r := inb 0x1F7 in ret (if Z.land r 0xC0 =? 0x40 then inr r else inl tt)) tt s = Ret st (s <| ide_dev := d' |>)) by by rewrite (bind_run _ _ _ _ _ El).
  revert E. generalize patience. intros n. revert s. induction n as [|n IH]; intros s E; [done|]. cbn [await loop] in *. unfold bind at 1, inb, bind at 1. cbn [get_dev ide_device]. destruct (port_in 0x1F7 (ide_dev s)) as [st1 d1]. cbn [bindO]. unfold ret. destruct (Z.land st1 192 =? 64).
  - injection E as -> ->. done.
  - cbn [bindO]. exact (IH (s <| ide_dev := d1 |>) E).
Qed.

(** The command that a request issues. *)
Definition issued (b : buf) d : D :=
  if dirty b then port_outs 0x1F0 (b_data b) (ata_command 2 (b_dev b) (2 * b_blockno b) (write_cmd 2) d)
  else ata_command 2 (b_dev b) (2 * b_blockno b) (read_cmd 2) d.

Lemma idestart_run s i b : ibufs s !! i = Some b -> transferable b ->
  exists d0, idestart (Some i) s = Ret tt (s <| ide_dev := issued b d0 |>) /\ sector d0 = sector (ide_dev s).
Proof.
  intros Hb [Hd Hk Hl]. unfold idestart, ibuf. unfold bind at 1. rewrite bind_gets, Hb. cbn [ofopt ret bindO]. destruct (Z.leb_spec FSSIZE (b_blockno b)); [lia|]. change (BSIZE / SECTOR_SIZE) with 2. cbn [Z.eqb Z.ltb Z.compare]. change (7 <? 2) with false. change (2 =? 1) with false. cbv iota.
  destruct (idewait_run false s) as (st & d' & Ea & Ew). rewrite (bind_run _ _ _ _ _ Ew). exists (port_out 0x3F6 (u8 0) d'). split.
  - unfold FSSIZE in Hk. rewrite (take_ge (b_data b)) by lia. rewrite (Z.mul_comm _ 2). set (lba := 2 * b_blockno b) in *. assert (Hh : Z.shiftr lba 24 = 0) by (rewrite Z.shiftr_div_pow2 by lia; apply Z.div_small; unfold lba; lia).
    assert (Hm : forall x, u8 (Z.land x 0xFF) = u8 x) by (intros x; unfold u8; change 0xFF with (Z.ones 8); rewrite Z.land_ones by lia; by rewrite Z.mod_mod by lia).
    unfold outb, outsl, modify, bind. cbn [bindO get_dev ide_device set_dev]. rewrite !Hm. unfold issued, dirty, ata_command. fold lba. rewrite Hh. assert (b_dev b = 0 \/ b_dev b = 1) as [->| ->] by lia; destruct (Z.land (b_flags b) B_DIRTY =? 0); reflexivity.
  - rewrite (control_keeps d'). by apply (await_keeps (ide_dev s) st).
Qed.

Lemma issued_block b d p : transferable b -> block_at (issued b d) p = if dirty b then if decide (p = place b) then b_data b else block_at d p else block_at d p.
Proof.
  intros [Hd Hk Hl]. unfold issued. destruct (dirty b); [apply (block_write d (place b)); done|]. by rewrite (block_sector d) by apply ata_command_keeps.
Qed.
End device.

(** ** One call, one interrupt *)

Section runs.
Context {D : Type} `{Disk D}.
Implicit Types (d : D) (s : ide D).

(** A call that was cut at its [sleep]: once the buffer is in step it returns, and leaves the
    state as it is. *)
Definition resumes (i : nat) (k : ide D -> outcome (ide D) unit) : Prop :=
  forall s b, idelock s = false -> ibufs s !! i = Some b -> synced b -> k s = Ret tt s.

Definition deref_of s (pp : option nat) : option nat := match pp with None => idequeue s | Some j => qnext s !! j end.

Lemma queue_walk_run q : forall fuel pp s, chain (qnext s) (deref_of s pp) q -> (length q < fuel)%nat ->
  loop fuel (fun pp => let! x := deref pp in ret (match x with None => inr pp | Some j => inl (Some j) end)) pp s = Ret (from_option Some pp (last q)) s.
Proof.
  induction q as [|j q IH]; intros fuel pp s Hc Hf; (destruct fuel as [|fuel]; [cbn in Hf; lia|]); cbn [loop chain] in *.
  - unfold bind, deref. destruct pp as [j|]; cbn in *; by rewrite Hc.
  - destruct Hc as [Hd Hc]. unfold bind at 1. assert (Er : (let! x := deref pp in ret (match x with None => inr pp | Some j => inl (Some j) end)) s = Ret (inl (Some j)) s) by (unfold bind, deref; destruct pp; cbn in *; by rewrite Hd).
    rewrite Er. cbn [bindO]. rewrite (IH fuel (Some j) s Hc) by (cbn in Hf; lia). rewrite last_cons. by destruct (last q).
Qed.

Lemma relock s : idelock s = false -> s <| idelock := true |> <| idelock := false |> = s.
Proof. intros El. destruct s. cbn in *. by subst. Qed.

Lemma wait_switches n i s b : ibufs s !! i = Some b -> ~ synced b ->
  exists k, bind (loop (S (S n)) (ide_wait_round i) tt) (fun _ => ide_release) s = Switch (s <| idelock := false |> <| asleep ::= union {[i]} |>) k /\ resumes i k.
Proof.
  intros Hb Hs. set (next := fun r : unit + unit => match r with inl x => loop (S n) (ide_wait_round (D := D) i) x | inr a => ret a end).
  exists (fun s' => bindO (bindO (bindO (ide_acquire s') (fun _ => ret (inl tt))) next) (fun _ => ide_release)). split.
  - change (loop (S (S n)) (ide_wait_round i) tt) with (bind (ide_wait_round i tt) next). unfold ide_wait_round at 1, ibuf. unfold bind at 1 2 3 4. unfold gets at 1. cbn [bindO]. rewrite Hb. cbn [ofopt ret bindO]. destruct (Z.eqb_spec (Z.land (b_flags b) (Z.lor B_VALID B_DIRTY)) B_VALID) as [E|_]; [done|]. cbn [negb]. unfold bind, ide_sleep. cbn [bindO]. reflexivity.
  - intros s' b' Hl Hb' Hs'. unfold ide_acquire. rewrite Hl. cbn [bindO ret next]. unfold next. cbn [loop]. unfold ide_wait_round, ibuf, bind, gets. cbn [bindO]. change (ibufs (s' <| idelock := true |>)) with (ibufs s'). rewrite Hb'. cbn [ofopt ret bindO]. unfold synced in Hs'. rewrite Hs', Z.eqb_refl. cbn [negb ret bindO].
    unfold ide_release. cbn [idelock]. change (idelock (s' <| idelock := true |>)) with true. cbv iota. by rewrite relock.
Qed.

Lemma iderw_run s q i b : idelock s = false -> chain (qnext s) (idequeue s) q -> NoDup q -> i ∉ q -> Forall (fun j => (j < length (ibufs s))%nat) q -> ibufs s !! i = Some b ->
  sl_locked (b_lock b) <> 0 -> ~ synced b -> transferable b -> b_dev b = 0 \/ havedisk1 s = true ->
  exists s' k, iderw i s = Switch s' k /\ resumes i k /\ ibufs s' = ibufs s /\ idelock s' = false /\ asleep s' = {[i]} ∪ asleep s /\ chain (qnext s') (idequeue s') (q ++ [i]) /\
    match q with [] => exists d0, ide_dev s' = issued b d0 /\ sector d0 = sector (ide_dev s) | _ => ide_dev s' = ide_dev s end.
Proof.
  intros Hl Hc Hnd Hi Hq Hb Hk Hs Ht Hd. unfold iderw. unfold ibuf at 1, bind at 1 2, gets at 1. cbn [bindO]. rewrite Hb. cbn [ofopt ret bindO]. destruct (Z.eqb_spec (sl_locked (b_lock b)) 0); [done|]. destruct (Z.eqb_spec (Z.land (b_flags b) (Z.lor B_VALID B_DIRTY)) B_VALID); [done|]. rewrite bind_gets.
  assert (Eh : negb (b_dev b =? 0) && negb (havedisk1 s) = false) by (destruct Hd as [->| ->]; [done|apply andb_false_r]). rewrite Eh. unfold bind at 1, ide_acquire. rewrite Hl. cbn [bindO]. unfold bind at 1, modify at 1. cbn [bindO]. rewrite bind_gets. set (s1 := s <| idelock := true |> <| qnext ::= delete i |>). change (ibufs s1) with (ibufs s).
  assert (Hc1 : chain (qnext s1) (idequeue s1) q) by (by apply chain_delete). assert (Hlen : (length q <= length (ibufs s))%nat).
  { rewrite <- (length_seq (length (ibufs s)) 0). apply submseteq_length. apply NoDup_submseteq; [done|]. intros j Hj. apply elem_of_seq. rewrite Forall_forall in Hq. specialize (Hq j Hj). lia. }
  erewrite bind_run; [|apply (queue_walk_run q (S (length (ibufs s))) None s1 Hc1); lia]. unfold bind at 1, modify at 1. cbn [bindO]. rewrite bind_gets. destruct (last q) as [l|] eqn:El; cbn [from_option].
  - apply last_Some in El as (q1 & ->). set (s2 := s1 <| qnext ::= <[l := i]> |>). assert (Hc2 : chain (qnext s2) (idequeue s2) ((q1 ++ [l]) ++ [i])) by (apply chain_append; [done|done|apply lookup_delete_eq|exact Hc1]).
    assert (Hne : idequeue s2 <> Some i) by (intros E; change (idequeue s = Some i) in E; apply Hi; destruct q1 as [|x q1]; cbn in Hc; destruct Hc as [Eq _]; rewrite Eq in E; injection E as <-; set_solver). rewrite bool_decide_eq_false_2 by done. cbn [when]. unfold bind at 1. cbn [ret bindO].
    destruct (wait_switches 62 i s2 b Hb Hs) as (k & Ek & Rk). eexists _, k. split; [exact Ek|]. split_and!; [done|done|done|done|exact Hc2|]. by destruct q1.
  - apply last_None in El as ->. set (s2 := s1 <| idequeue := Some i |>). rewrite bool_decide_eq_true_2 by done. cbn [when]. destruct (idestart_run s2 i b Hb Ht) as (d0 & Es & Sd). rewrite (bind_run _ _ _ _ _ Es). set (s3 := s2 <| ide_dev := issued b d0 |>).
    destruct (wait_switches 62 i s3 b Hb Hs) as (k & Ek & Rk). eexists _, k. split; [exact Ek|]. split_and!; [done|done|done|done| |by exists d0]. split; [done|]. apply lookup_delete_eq.
Qed.
End runs.

Section interrupt.
Context {D : Type} `{Disk D}.
Implicit Types (d : D) (s : ide D).
Hypothesis disk_healthy : healthy (D := D).

Lemma insl_run s p n l d : port_ins p n (ide_dev s) = (l, d) -> insl p n s = Ret l (s <| ide_dev := d |>).
Proof. intros E. unfold insl. cbn [get_dev ide_device]. by rewrite E. Qed.

(** The data transfer of an interrupt. *)
Definition transfer (i : nat) (b : buf) : M (ide D) unit :=
  if Z.land (b_flags b) B_DIRTY =? 0 then
    let! r := idewait true in
    when (0 <=? r) (let! l := insl 0x1F0 (Z.to_nat (BSIZE / 4)) in upd_ibuf i (fun b => b <| b_data := l |>))
  else ret tt.

Lemma transfer_run s i b : ibufs s !! i = Some b -> transferable b -> (dirty b = false -> exists d0, ide_dev s = issued b d0) ->
  exists d' l, transfer i b s = Ret tt (s <| ibufs := <[i := b <| b_data := l |>]> (ibufs s) |> <| ide_dev := d' |>) /\ sector d' = sector (ide_dev s) /\
    l = (if dirty b then b_data b else block_at (ide_dev s) (place b)) /\ length l = Z.to_nat BSIZE.
Proof.
  intros Hb [Hd Hk Hl] Hc. unfold FSSIZE in Hk. unfold transfer. destruct (Z.eqb_spec (Z.land (b_flags b) B_DIRTY) 0) as [E|E].
  - assert (Ed : dirty b = false) by (unfold dirty; by rewrite E). rewrite Ed in *. destruct (Hc eq_refl) as [d0 E0]. unfold issued in E0. rewrite Ed in E0. destruct (idewait_run true s) as (st & d1 & Ea & Ew). rewrite (disk_healthy _ _ _ Ea) in Ew. change (if true && negb (0 =? 0) then -1 else 0) with 0 in Ew. rewrite (bind_run _ _ _ _ _ Ew). change (0 <=? 0) with true. unfold when.
    assert (Es : sector (ide_dev s) = sector d0) by (rewrite E0; apply ata_command_keeps). rewrite E0 in Ea. destruct (disk_read 2 (b_dev b) (2 * b_blockno b) d0 st d1 ltac:(lia) Hd ltac:(lia) ltac:(lia) Ea (disk_healthy _ _ _ Ea)) as (d2 & Ei & S2).
    exists d2, (block_at (ide_dev s) (place b)). split_and!; [|by rewrite S2, Es|done|].
    + set (sx := s <| ide_dev := d1 |>). pose proof (insl_run sx 0x1F0 (Z.to_nat (BSIZE / 4)) _ _ Ei) as Er. rewrite (bind_run _ _ _ _ _ Er). unfold upd_ibuf, ibuf, bind, gets. cbn [bindO]. match goal with |- context [ibufs ?x !! i] => change (ibufs x) with (ibufs s) end. rewrite Hb. cbn. unfold block_at, place. cbn. rewrite Es. done.
    + unfold block_at. rewrite run_of_2, length_app, !sector_size. done.
  - assert (Ed : dirty b = true) by (unfold dirty; by destruct (Z.eqb_spec (Z.land (b_flags b) B_DIRTY) 0)). rewrite Ed in *. exists (ide_dev s), (b_data b). split_and!; [|done|done|done]. replace (b <| b_data := b_data b |>) with b by (by destruct b). rewrite list_insert_id by done. by destruct s.
Qed.

(** A buffer whose transfer is over, with the data [l]. *)
Definition after (b : buf) (l : list Z) : buf := b <| b_data := l |> <| b_flags := Z.land (Z.lor (b_flags b) B_VALID) (Z.lnot B_DIRTY) |>.

(** What the handler does after the transfer. *)
Definition ide_finish (i : nat) : M (ide D) unit :=
  do! upd_ibuf i (fun b => b <| b_flags ::= fun f => Z.lor f B_VALID |>) in
  do! upd_ibuf i (fun b => b <| b_flags ::= fun f => Z.land f (Z.lnot B_DIRTY) |>) in
  do! ide_wakeup i in
  let! q := gets idequeue in
  do! (match q with Some _ => idestart q | None => ret tt end) in
  ide_release.

Lemma ideintr_enters s i b : idelock s = false -> idequeue s = Some i -> ibufs s !! i = Some b ->
  ideintr s = bind (transfer i b) (fun _ => ide_finish i) (s <| idelock := true |> <| idequeue := qnext s !! i |>).
Proof.
  intros Hl Hh Hb. unfold ideintr. unfold bind at 1, ide_acquire. rewrite Hl. cbn [bindO]. rewrite bind_gets. change (idequeue (s <| idelock := true |>)) with (idequeue s). rewrite Hh. unfold bind at 1, modify at 1. cbn [bindO].
  unfold ibuf at 1, bind at 1 2, gets at 1. cbn [bindO]. match goal with |- context [ibufs ?x !! i] => change (ibufs x) with (ibufs s) end. rewrite Hb. reflexivity.
Qed.

Lemma upd_ibuf_run i f x s : ibufs s !! i = Some x -> upd_ibuf i f s = Ret tt (s <| ibufs ::= <[i := f x]> |>).
Proof. intros Hx. unfold upd_ibuf, ibuf, bind, gets. cbn [bindO]. by rewrite Hx. Qed.

Lemma finish_enters s i b l : ibufs s !! i = Some (b <| b_data := l |>) ->
  ide_finish i s = bind (match idequeue s with Some _ => idestart (idequeue s) | None => ret tt end) (fun _ => ide_release) (s <| ibufs ::= <[i := after b l]> |> <| asleep ::= fun a => a ∖ {[i]} |>).
Proof.
  intros Hb. assert (Hi : (i < length (ibufs s))%nat) by (by eapply lookup_lt_Some). unfold ide_finish. rewrite (bind_run _ _ _ _ _ (upd_ibuf_run i _ _ _ Hb)). set (s3 := s <| ibufs ::= _ |>).
  assert (Hb3 : ibufs s3 !! i = Some (b <| b_data := l |> <| b_flags ::= fun f => Z.lor f B_VALID |>)) by (by apply list_lookup_insert_eq). rewrite (bind_run _ _ _ _ _ (upd_ibuf_run i _ _ _ Hb3)). set (s4 := s3 <| ibufs ::= _ |>).
  unfold bind at 1, ide_wakeup, modify at 1. cbn [bindO]. rewrite bind_gets. match goal with |- _ ?x = _ => replace x with (s <| ibufs ::= <[i := after b l]> |> <| asleep ::= fun a => a ∖ {[i]} |>) end; [done|].
  unfold s4, s3, set, set_ibufs, set_asleep. destruct s. cbn [ibufs qnext idequeue havedisk1 idelock asleep ide_dev]. by rewrite list_insert_insert_eq.
Qed.

Lemma ideintr_run s i q b : idelock s = false -> chain (qnext s) (idequeue s) (i :: q) -> NoDup (i :: q) -> ibufs s !! i = Some b -> transferable b ->
  (forall j, head q = Some j -> exists c, ibufs s !! j = Some c /\ transferable c) -> (dirty b = false -> exists d0, ide_dev s = issued b d0) ->
  exists s' l, ideintr s = Ret tt s' /\ ibufs s' = <[i := after b l]> (ibufs s) /\ length l = Z.to_nat BSIZE /\ l = (if dirty b then b_data b else block_at (ide_dev s) (place b)) /\
    idelock s' = false /\ asleep s' = asleep s ∖ {[i]} /\ chain (qnext s') (idequeue s') q /\
    match q with [] => sector (ide_dev s') = sector (ide_dev s) | j :: _ => exists c d0, ibufs s !! j = Some c /\ ide_dev s' = issued c d0 /\ sector d0 = sector (ide_dev s) end.
Proof.
  intros Hlk [Hh Hc] Hnd Hb Ht Hnx Hrd. rewrite (ideintr_enters s i b Hlk Hh Hb). set (s1 := s <| idelock := true |> <| idequeue := _ |>). destruct (transfer_run s1 i b Hb Ht Hrd) as (d1 & l & Et & S1 & El & Ll). rewrite (bind_run _ _ _ _ _ Et).
  assert (Hi : (i < length (ibufs s))%nat) by (by eapply lookup_lt_Some). set (s2 := s1 <| ibufs := _ |> <| ide_dev := d1 |>). rewrite (finish_enters s2 i b l) by (by apply list_lookup_insert_eq). change (idequeue s2) with (qnext s !! i).
  set (s5 := s2 <| ibufs ::= _ |> <| asleep ::= _ |>). assert (E5 : ibufs s5 = <[i := after b l]> (ibufs s)) by (change (ibufs s5) with (<[i := after b l]> (<[i := b <| b_data := l |>]> (ibufs s))); by rewrite list_insert_insert_eq).
  destruct q as [|j q]; cbn [chain] in Hc.
  - rewrite Hc. unfold bind at 1. cbn [ret bindO]. unfold ide_release. change (idelock s5) with true. cbv iota. exists (s5 <| idelock := false |>), l. split_and!; done.
  - destruct Hc as [Ej Hc]. rewrite Ej. destruct (Hnx j eq_refl) as (c & Hcj & Tc). assert (Hne : i <> j) by (apply NoDup_cons in Hnd as [Hn _]; set_solver).
    destruct (idestart_run s5 j c ltac:(rewrite E5, list_lookup_insert_ne by done; exact Hcj) Tc) as (d0 & Es & Sd). rewrite (bind_run _ _ _ _ _ Es). unfold ide_release. change (idelock (s5 <| ide_dev := issued c d0 |>)) with true. cbv iota.
    exists (s5 <| ide_dev := issued c d0 |> <| idelock := false |>), l. split_and!; try done. exists c, d0. split_and!; [done|done|]. rewrite Sd. exact S1.
Qed.
End interrupt.

(** ** All interleavings *)

(** The driver, the calls of [iderw] under way with what is left of each, and the disk that
    the callers are to see: a write changes it when it is called. *)
Record iconf (D : Type) := mk_iconf {
  drv : ide D; calls : gmap nat (ide D -> outcome (ide D) unit); image : Z * Z -> list Z }.
Arguments mk_iconf {D}.
Arguments drv {D}.
Arguments calls {D}.
Arguments image {D}.

Section steps.
Context {D : Type} `{Disk D}.
Implicit Types (d : D) (s : ide D) (c : iconf D).

(** What a caller of [iderw] answers for: it holds the buffer, something is to be done, the
    drive is there, and no other call is about the same block. *)
Record callable c (i : nat) (b : buf) : Prop := {
  ca_buf : ibufs (drv c) !! i = Some b;
  ca_lock : sl_locked (b_lock b) <> 0;
  ca_work : ~ synced b;
  ca_move : transferable b;
  ca_disk : b_dev b = 0 \/ havedisk1 (drv c) = true;
  ca_once : calls c !! i = None;
  ca_alone : forall j k x, calls c !! j = Some k -> ibufs (drv c) !! j = Some x -> place x <> place b }.

Definition write_image (b : buf) (img : Z * Z -> list Z) : Z * Z -> list Z := fun p => if decide (p = place b) then b_data b else img p.

(** A call, an interrupt, a call that goes on after it was woken, and a process that works on
    a buffer it holds. *)
Inductive istep : iconf D -> iconf D -> Prop :=
| istep_call c i b s k : callable c i b -> iderw i (drv c) = Switch s k ->
    istep c (mk_iconf s (<[i := k]> (calls c)) (if dirty b then write_image b (image c) else image c))
| istep_intr c s : ideintr (drv c) = Ret tt s -> istep c (mk_iconf s (calls c) (image c))
| istep_return c i k s : calls c !! i = Some k -> i ∉ asleep (drv c) -> k (drv c) = Ret tt s -> istep c (mk_iconf s (delete i (calls c)) (image c))
| istep_again c i k s k' : calls c !! i = Some k -> i ∉ asleep (drv c) -> k (drv c) = Switch s k' -> istep c (mk_iconf s (<[i := k']> (calls c)) (image c))
| istep_client c i b : calls c !! i = None -> istep c (mk_iconf ((drv c) <| ibufs ::= <[i := b]> |>) (calls c) (image c)).

(** Nothing is under way, and the callers see the disk as it is. *)
Record idle c : Prop := {
  id_lock : idelock (drv c) = false;
  id_queue : idequeue (drv c) = None;
  id_calls : calls c = ∅;
  id_image : forall p, image c p = block_at (ide_dev (drv c)) p }.

Inductive ireach : iconf D -> Prop :=
| ireach_idle c : idle c -> ireach c
| ireach_step c c' : ireach c -> istep c c' -> ireach c'.

(** The request of buffer [i] has still to be served. *)
Definition waiting c (i : nat) (b : buf) : Prop :=
  ibufs (drv c) !! i = Some b /\ transferable b /\ ~ synced b /\ i ∈ asleep (drv c) /\ (dirty b = true -> b_data b = image c (place b)).
(** It has been served. *)
Definition served c (i : nat) (b : buf) : Prop :=
  ibufs (drv c) !! i = Some b /\ transferable b /\ synced b /\ b_data b = image c (place b).

Record iinv c (q : list nat) : Prop := {
  iv_lock : idelock (drv c) = false;
  iv_chain : chain (qnext (drv c)) (idequeue (drv c)) q;
  iv_nodup : NoDup q;
  iv_calls : forall i, i ∈ q -> is_Some (calls c !! i) /\ exists b, waiting c i b;
  iv_rest : forall i k, calls c !! i = Some k -> resumes i k /\ (i ∉ q -> exists b, served c i b);
  iv_alone : forall i j ki kj bi bj, calls c !! i = Some ki -> calls c !! j = Some kj -> ibufs (drv c) !! i = Some bi -> ibufs (drv c) !! j = Some bj -> place bi = place bj -> i = j;
  iv_disk : forall p, (forall i b, i ∈ tail q -> ibufs (drv c) !! i = Some b -> dirty b = true -> place b <> p) -> block_at (ide_dev (drv c)) p = image c p;
  iv_head : forall i b, head q = Some i -> ibufs (drv c) !! i = Some b -> dirty b = false -> exists d0, ide_dev (drv c) = issued b d0 }.

Lemma iinv_idle c : idle c -> iinv c [].
Proof.
  intros [I1 I2 I3 I4]. split; [exact I1|exact I2|constructor|intros i Hi; by apply elem_of_nil in Hi|intros i k; by rewrite I3|intros i j ki kj; by rewrite I3|intros p _; by rewrite I4|done].
Qed.

Lemma iinv_client c q i b : iinv c q -> calls c !! i = None -> iinv (mk_iconf ((drv c) <| ibufs ::= <[i := b]> |>) (calls c) (image c)) q.
Proof.
  intros [] Hi. assert (Hb : forall j, is_Some (calls c !! j) -> <[i := b]> (ibufs (drv c)) !! j = ibufs (drv c) !! j) by (intros j [k Hj]; apply list_lookup_insert_ne; intros ->; congruence).
  assert (Hq : forall j, j ∈ q -> <[i := b]> (ibufs (drv c)) !! j = ibufs (drv c) !! j) by (intros j Hj; by apply Hb, iv_calls0). split; try done; cbn [drv calls image] in *.
  - intros j Hj. destruct (iv_calls0 j Hj) as [Hs (x & Hx)]. split; [done|]. exists x. unfold waiting in *. cbn in *. by rewrite Hq.
  - intros j k Hj. destruct (iv_rest0 j k Hj) as [R Hs]. split; [done|]. intros Hn. destruct (Hs Hn) as (x & Hx). exists x. unfold served in *. cbn in *. by rewrite Hb.
  - intros j1 j2 k1 k2 b1 b2 H1 H2. cbn. rewrite !Hb by eauto. by apply (iv_alone0 j1 j2 k1 k2).
  - intros p Hp. apply iv_disk0. intros j x Hj Hx. apply (Hp j x Hj). cbn. rewrite Hq; [done|]. destruct q; [by apply elem_of_nil in Hj|]. by apply elem_of_cons; right.
  - intros j x Hj Hx. apply (iv_head0 j x Hj). cbn in Hx. rewrite Hq in Hx; [done|]. destruct q; [done|]. injection Hj as ->. apply elem_of_cons. by left.
Qed.

Lemma iinv_return c q i k : iinv c q -> calls c !! i = Some k -> i ∉ q -> k (drv c) = Ret tt (drv c) /\ iinv (mk_iconf (drv c) (delete i (calls c)) (image c)) q.
Proof.
  intros [] Hi Hq. destruct (iv_rest0 i k Hi) as [R Hs]. destruct (Hs Hq) as (b & Hb & _ & Hsy & _). split; [by apply (R _ b)|]. split; try done; cbn [drv calls image].
  - intros j Hj. rewrite lookup_delete_ne by (intros ->; done). by apply iv_calls0.
  - intros j kj Hj. apply lookup_delete_Some in Hj as [_ Hj]. by apply iv_rest0.
  - intros j1 j2 k1 k2 b1 b2 H1 H2. apply lookup_delete_Some in H1 as [_ H1]. apply lookup_delete_Some in H2 as [_ H2]. by apply (iv_alone0 j1 j2 k1 k2).
Qed.
End steps.

Section preservation.
Context {D : Type} `{Disk D}.
Implicit Types (d : D) (s : ide D) (c : iconf D).

Lemma iinv_call c q i b : iinv c q -> callable c i b ->
  exists s k, iderw i (drv c) = Switch s k /\ iinv (mk_iconf s (<[i := k]> (calls c)) (if dirty b then write_image b (image c) else image c)) (q ++ [i]).
Proof.
  intros [] []. assert (Hiq : i ∉ q) by (intros Hi; destruct (iv_calls0 i Hi) as [[k Hk] _]; congruence).
  destruct (iderw_run (drv c) q i b iv_lock0 iv_chain0 iv_nodup0 Hiq ltac:(rewrite Forall_forall; intros j Hj; destruct (iv_calls0 j Hj) as [_ (x & Hx & _)]; by eapply lookup_lt_Some) ca_buf0 ca_lock0 ca_work0 ca_move0 ca_disk0) as (s & k & E & R & Eb & El & Ea & Ec & Ed).
  exists s, k. split; [exact E|]. set (img := if dirty b then _ else _). assert (Himg : forall p, p <> place b -> img p = image c p) by (intros p Hp; unfold img; destruct (dirty b); [|done]; unfold write_image; by rewrite decide_False).
  assert (Hoth : forall j k' x, calls c !! j = Some k' -> ibufs (drv c) !! j = Some x -> img (place x) = image c (place x)) by (intros j k' x Hj Hx; by apply Himg, (ca_alone0 j k')).
  split; cbn [drv calls image].
  - done.
  - done.
  - apply NoDup_app. split_and!; [done| |apply NoDup_singleton]. intros j Hj Hj'. apply list_elem_of_singleton in Hj' as ->. done.
  - intros j Hj. apply elem_of_app in Hj as [Hj|Hj].
    + destruct (iv_calls0 j Hj) as [[k' Hk'] (x & W1 & W2 & W3 & W4 & W5)]. split; [rewrite lookup_insert_ne; [eauto|intros ->; done]|]. exists x. unfold waiting. cbn [drv image]. rewrite Eb, Ea, (Hoth j k') by done. split_and!; [done..|set_solver|done].
    + apply list_elem_of_singleton in Hj as ->. rewrite lookup_insert_eq. split; [eauto|]. exists b. unfold waiting. cbn [drv image]. rewrite Eb, Ea. split_and!; [done..|set_solver|]. intros Hd. unfold img. rewrite Hd. unfold write_image. by rewrite decide_True.
  - intros j kj Hj. apply lookup_insert_Some in Hj as [[<- <-]|[Hne Hj]]; [split; [done|]; intros Hn; exfalso; apply Hn; set_solver|]. destruct (iv_rest0 j kj Hj) as [Rj Sj]. split; [done|]. intros Hn. destruct (Sj ltac:(set_solver)) as (x & X1 & X2 & X3 & X4).
    exists x. unfold served. cbn [drv image]. by rewrite Eb, (Hoth j kj).
  - intros j1 j2 k1 k2 b1 b2. rewrite Eb. intros H1 H2 B1 B2 P. apply lookup_insert_Some in H1 as [[<- <-]|[N1 H1]]; apply lookup_insert_Some in H2 as [[<- <-]|[N2 H2]]; [done| | |by apply (iv_alone0 j1 j2 k1 k2 b1 b2)].
    + rewrite ca_buf0 in B1. injection B1 as <-. exfalso. by apply (ca_alone0 j2 k2 b2).
    + rewrite ca_buf0 in B2. injection B2 as <-. exfalso. by apply (ca_alone0 j1 k1 b1).
  - intros p Hp. rewrite Eb in Hp. destruct q as [|x q].
    + destruct Ed as (d0 & -> & Sd). rewrite issued_block by done. rewrite (block_sector _ _ Sd). rewrite iv_disk0 by (intros j y Hj; by apply elem_of_nil in Hj). unfold img, write_image. by destruct (dirty b).
    + rewrite Ed. cbn [tail app] in *. rewrite iv_disk0 by (intros j y Hj; apply Hp; set_solver). unfold img. destruct (dirty b) eqn:Edb; [|done]. unfold write_image. rewrite decide_False; [done|]. intros ->. apply (Hp i b); [set_solver|done..].
  - intros j x. rewrite Eb. destruct q as [|y q]; cbn [head app].
    + intros [= <-] Hx Hd. rewrite ca_buf0 in Hx. injection Hx as <-. destruct Ed as (d0 & -> & _). by exists d0.
    + rewrite Ed. apply iv_head0.
Qed.

Hypothesis disk_healthy : healthy (D := D).

Lemma iinv_intr c i q : iinv c (i :: q) -> exists s, ideintr (drv c) = Ret tt s /\ iinv (mk_iconf s (calls c) (image c)) q.
Proof.
  intros []. destruct (iv_calls0 i ltac:(set_solver)) as [[ki Hki] (b & W1 & W2 & W3 & W4 & W5)]. pose proof iv_nodup0 as Hnd. apply NoDup_cons in Hnd as [Hiq Hnd].
  destruct (ideintr_run disk_healthy (drv c) i q b iv_lock0 iv_chain0 iv_nodup0 W1 W2) as (s & l & E & Eb & Ll & El & Elk & Ea & Ec & Ed).
  { intros j Hj. destruct (iv_calls0 j) as [_ (x & X1 & X2 & _)]; [destruct q; [done|]; injection Hj as ->; set_solver|]. by exists x. }
  { intros Hd. by apply (iv_head0 i b). }
  assert (Hl : l = image c (place b)). { rewrite El. destruct (dirty b) eqn:Edb; [by apply W5|]. apply iv_disk0. intros j x Hj Hx _ P. destruct (iv_calls0 j ltac:(set_solver)) as [[kj Hkj] _]. assert (j = i) as -> by (by apply (iv_alone0 j i kj ki x b)). done. }
  assert (Hlt : (i < length (ibufs (drv c)))%nat) by (by eapply lookup_lt_Some). assert (Hne : forall j, j <> i -> ibufs s !! j = ibufs (drv c) !! j) by (intros j Hj; rewrite Eb; by apply list_lookup_insert_ne).
  assert (Hi : ibufs s !! i = Some (after b l)) by (rewrite Eb; by apply list_lookup_insert_eq).
  assert (Hpl : forall j x, ibufs s !! j = Some x -> exists y, ibufs (drv c) !! j = Some y /\ place y = place x) by (intros j x Hx; destruct (decide (j = i)) as [->|Hn]; [rewrite Hi in Hx; injection Hx as <-; by exists b|rewrite Hne in Hx by done; by exists x]).
  exists s. split; [exact E|]. split; cbn [drv calls image].
  - done.
  - done.
  - done.
  - intros j Hj. assert (j <> i) by (intros ->; done). destruct (iv_calls0 j ltac:(set_solver)) as [Hk (x & X1 & X2 & X3 & X4 & X5)]. split; [done|]. exists x. unfold waiting. cbn [drv image]. rewrite Hne, Ea by done. split_and!; [done..|set_solver|done].
  - intros j kj Hj. destruct (iv_rest0 j kj Hj) as [Rj Sj]. split; [done|]. intros Hn. destruct (decide (j = i)) as [->|Hji].
    + exists (after b l). split_and!; [done| |apply valid_flags|exact Hl]. split; [apply W2|apply W2|done].
    + destruct (Sj ltac:(set_solver)) as (x & X1 & X2). exists x. unfold served. cbn [drv image]. by rewrite Hne.
  - intros j1 j2 k1 k2 b1 b2 H1 H2 B1 B2 P. destruct (Hpl _ _ B1) as (y1 & Y1 & Z1). destruct (Hpl _ _ B2) as (y2 & Y2 & Z2). apply (iv_alone0 j1 j2 k1 k2 y1 y2); [done..|congruence].
  - intros p Hp. destruct q as [|j q].
    + rewrite (block_sector _ _ Ed). apply iv_disk0. intros j x Hj. by apply elem_of_nil in Hj.
    + destruct Ed as (x & d0 & X1 & -> & Sd). destruct (iv_calls0 j ltac:(set_solver)) as [_ (y & Y1 & Y2 & _ & _ & Y5)]. rewrite X1 in Y1. injection Y1 as <-. rewrite issued_block, (block_sector _ _ Sd) by done. cbn [tail] in *.
      assert (Ho : (dirty x = true -> place x <> p) -> block_at (ide_dev (drv c)) p = image c p).
      { intros Hx. apply iv_disk0. intros j' z Hj' Hz Hdz. apply elem_of_cons in Hj' as [->|Hj']; [rewrite X1 in Hz; injection Hz as <-; by apply Hx|]. apply (Hp j' z Hj'); [|done]. rewrite Hne; [done|]. intros ->. set_solver. }
      destruct (dirty x); [|by apply Ho]. case_decide as Hpx; [rewrite Hpx; by apply Y5|]. apply Ho. intros _ Hx. by apply Hpx.
  - intros j x Hj Hx Hdx. destruct q as [|j' q]; [done|]. injection Hj as ->. destruct Ed as (y & d0 & Y1 & -> & _). rewrite Hne in Hx by (intros ->; set_solver). rewrite Y1 in Hx. injection Hx as <-. by exists d0.
Qed.

Lemma iinv_reach c : ireach c -> exists q, iinv c q.
Proof.
  induction 1 as [c Hc|c c' Hc [q Hq] Hs]; [exists []; by apply iinv_idle|]. destruct Hs as [c i b s k Hca E|c s E|c i k s Hk Ha E|c i k s k' Hk Ha E|c i b Hi].
  - destruct (iinv_call c q i b Hq Hca) as (s' & k' & E' & Hv). rewrite E in E'. injection E' as <- <-. by exists (q ++ [i]).
  - destruct q as [|i q].
    + unfold ideintr, bind, ide_acquire in E. rewrite (iv_lock _ _ Hq) in E. cbn [bindO gets] in E. pose proof (iv_chain _ _ Hq) as Hc0. cbn in Hc0. change (idequeue ((drv c) <| idelock := true |>)) with (idequeue (drv c)) in E. rewrite Hc0 in E. unfold ide_release in E. cbn [idelock] in E. change (idelock ((drv c) <| idelock := true |>)) with true in E. cbv iota in E. injection E as <-. rewrite relock by apply Hq. exists []. by destruct c.
    + destruct (iinv_intr c i q Hq) as (s' & E' & Hv). rewrite E in E'. injection E' as <-. by exists q.
  - assert (Hn : i ∉ q) by (intros Hi; destruct (iv_calls _ _ Hq i Hi) as [_ (b & _ & _ & _ & W & _)]; done). destruct (iinv_return c q i k Hq Hk Hn) as [E' Hv]. rewrite E in E'. injection E' as ->. by exists q.
  - assert (Hn : i ∉ q) by (intros Hi; destruct (iv_calls _ _ Hq i Hi) as [_ (b & _ & _ & _ & W & _)]; done). destruct (iinv_return c q i k Hq Hk Hn) as [E' Hv]. rewrite E in E'. discriminate.
  - exists q. by apply iinv_client.
Qed.
End preservation.

Lemma chain_unique nx q : forall h q', chain nx h q -> chain nx h q' -> q = q'.
Proof. induction q as [|i q IH]; intros h [|j q']; cbn; [done|by intros -> [? _]|by intros [-> _] ?|]. intros [-> H1] [[= <-] H2]. f_equal. by apply (IH (nx !! i)). Qed.

(** C4: the interrupt-driven disk is a disk.  However calls of [iderw], disk interrupts, wake-ups
    and the work of the processes on their own buffers are interleaved, with a drive that
    reports no errors: the calls under way wait in the order of the queue; a call whose turn
    has come returns, and its buffer is then valid and clean and holds the block as a disk
    shows it on which every write takes effect when it is called; a new call is put at the
    end of the queue and sleeps; an interrupt finishes exactly the call at the head; and
    when the queue is empty the disk itself has what was written. *)
Theorem ide_serves_in_order {D} `{Disk D} (c : iconf D) : healthy (D := D) -> ireach c -> exists q, chain (qnext (drv c)) (idequeue (drv c)) q /\
  (forall i k, calls c !! i = Some k -> i ∉ q -> k (drv c) = Ret tt (drv c) /\ exists b, ibufs (drv c) !! i = Some b /\ synced b /\ b_data b = image c (place b)) /\
  (forall i b, callable c i b -> exists s k, iderw i (drv c) = Switch s k /\ chain (qnext s) (idequeue s) (q ++ [i])) /\
  (forall i q', q = i :: q' -> exists s b, ideintr (drv c) = Ret tt s /\ chain (qnext s) (idequeue s) q' /\ ibufs s !! i = Some b /\ synced b /\ b_data b = image c (place b)) /\
  (q = [] -> forall p, block_at (ide_dev (drv c)) p = image c p).
Proof.
  intros Hh Hr. destruct (iinv_reach Hh c Hr) as [q Hq]. exists q. split_and!; [apply Hq| | | |].
  - intros i k Hk Hn. destruct (iinv_return c q i k Hq Hk Hn) as [E _]. destruct (iv_rest _ _ Hq i k Hk) as [_ Hs]. destruct (Hs Hn) as (b & B1 & _ & B2 & B3). split; [done|]. by exists b.
  - intros i b Hc. destruct (iinv_call c q i b Hq Hc) as (s & k & E & Hv). exists s, k. split; [done|]. apply Hv.
  - intros i q' ->. destruct (iinv_intr Hh c i q' Hq) as (s & E & Hv). destruct (iv_calls _ _ Hq i ltac:(set_solver)) as [[k Hk] _]. pose proof (iv_nodup _ _ Hq) as Hnd. apply NoDup_cons in Hnd as [Hn _].
    destruct (iv_rest _ _ Hv i k Hk) as [_ Hs]. destruct (Hs Hn) as (b & B1 & _ & B2 & B3). exists s, b. split_and!; [done|apply Hv|done|done|done].
  - intros -> p. apply (iv_disk _ _ Hq). intros i b Hi. by apply elem_of_nil in Hi.
Qed.

(** Block 5 of drive 0, to be written. *)
Definition tiny_buf : buf := mk_buf B_DIRTY 0 5 (mk_sleeplock 1 1) 1 0 0 (replicate 1024 7).
Definition tiny_ide : ide toy := mk_ide [tiny_buf] ∅ None false false ∅ (mk_toy (fun _ => 0) (fun _ _ => []) [] false).
Definition tiny_idle : iconf toy := mk_iconf tiny_ide ∅ (block_at (ide_dev tiny_ide)).

Lemma tiny_callable : callable tiny_idle 0 tiny_buf.
Proof.
  split; [reflexivity|done|by intros H; vm_compute in H|split; [done|done|reflexivity]|by left|apply lookup_empty|]. intros j k x Hj. cbn in Hj. by rewrite lookup_empty in Hj.
Qed.

Lemma ide_serves_in_order_witness : exists c s b, ireach c /\ idequeue (drv c) = Some 0%nat /\ ideintr (drv c) = Ret tt s /\ idequeue s = None /\ ibufs s !! 0%nat = Some b /\ synced b /\ b_data b = image c (place b).
Proof.
  assert (R0 : ireach tiny_idle) by (constructor; by split). destruct (ide_serves_in_order tiny_idle toy_healthy R0) as (q0 & C0 & _ & N0 & _). assert (q0 = []) as -> by (by eapply chain_unique).
  destruct (N0 0%nat tiny_buf tiny_callable) as (s1 & k1 & E1 & C1). set (c1 := mk_iconf s1 (<[0%nat := k1]> ∅) (write_image tiny_buf (image tiny_idle))).
  assert (R1 : ireach c1) by (eapply ireach_step; [exact R0|]; exact (istep_call tiny_idle 0 tiny_buf s1 k1 tiny_callable E1)).
  destruct (ide_serves_in_order c1 toy_healthy R1) as (q1 & Q1 & _ & _ & I1 & _). assert (q1 = [0%nat]) as -> by (by eapply chain_unique). destruct (I1 0%nat [] eq_refl) as (s2 & b & E2 & C2 & B1 & B2 & B3).
  exists c1, s2, b. cbn in C1. destruct C1 as [C1 _]. by split_and!.
Defined.


(** The small disk of [Hw], but with every request in error. *)
Inductive bad_toy := Bad (t : toy).
Definition good (d : bad_toy) : toy := let 'Bad t := d in t.

#[export] Instance bad_machine : Machine bad_toy := {
  port_in p d := let '(v, t) := t_in p (good d) in (if v =? 0x40 then 0x41 else v, Bad t);
  port_out p v d := Bad (t_outb p v (good d));
  port_ins _ _ d := (t_out (good d), d);
  port_outs p l d := Bad (t_outs p l (good d)) }.

Lemma bad_command n dv lba cmd d : good (ata_command n dv lba cmd d) = ata_command n dv lba cmd (good d).
Proof. reflexivity. Qed.

Lemma bad_await d st d' : await 2 d = Some (st, d') -> t_secs (good d') = t_secs (good d) /\ st = 0x41.
Proof. destruct d as [[r s o []]]; cbn; intros [= <- <-]; done. Qed.

#[export, refine] Instance bad_disk : Disk bad_toy := { sector d := t_sector (good d); patience := 2 }.
Proof.
  - intros d dv lba. apply pad_length.
  - intros [[r s o []]]; by eexists _, _.
  - intros d st d' E. unfold t_sector. by destruct (bad_await d st d' E) as [-> _].
  - reflexivity.
  - reflexivity.
  - intros n dv lba d st d' _ _ _ _ Ha Hst. by destruct (bad_await _ _ _ Ha) as [_ ->].
  - intros n dv lba d l Hn Hd Hl Hl' Hll dv' b. cbn [port_outs bad_machine good]. rewrite bad_command. exact (disk_write (D := toy) n dv lba (good d) l Hn Hd Hl Hl' Hll dv' b).
Defined.


