(* ===== verification/Utils.v ===== *)
(** * Small user programs

    [src/printf.c] and the programs [src/cat.c], [src/wc.c], [src/echo.c], [src/ln.c],
    [src/mkdir.c], [src/rm.c], [src/kill.c] and [src/ls.c] ([fmtname]).
    Strings are the lists of their characters before the terminating zero, and [argv] the
    list of the arguments.  The system calls act on a [world]: what [open] finds, what the
    successive [read]s of a descriptor return, what was written, and the calls that change
    the file system.  [exit] ends the program; it is the outcome [Panic] with the message
    [exited]. *)

From S2P Require Import Prelude CString Headers Console.

(** ** System calls *)

(** The reads of a file: each returns some bytes or fails; after the last comes the end. *)
Definition stream : Type := list (option (list Z)).

Inductive ucall := Link (old new : list Z) | Unlink (path : list Z) | Mkdir (path : list Z) | Kill (pid : Z).

#[export] Instance ucall_eq_dec : EqDecision ucall.
Proof. solve_decision. Defined.

(** [refused] has the calls that fail; [quota], when there is one, is how many bytes can still
    be written to descriptor 1. *)
Record world := mk_world {
  named : list Z -> option stream; opened : gmap Z stream; next_fd : Z;
  output : list (Z * Z); quota : option nat; done_calls : list ucall; refused : ucall -> bool }.
#[export] Instance eta_world : Eta world := fun r => mk_world (named r) (opened r) (next_fd r) (output r) (quota r) (done_calls r) (refused r).
#[export] Instance set_opened : Setter opened := ltac:(mk_setter).
#[export] Instance set_next_fd : Setter next_fd := ltac:(mk_setter).
#[export] Instance set_output : Setter output := ltac:(mk_setter).
#[export] Instance set_quota : Setter quota := ltac:(mk_setter).
#[export] Instance set_done_calls : Setter done_calls := ltac:(mk_setter).

Abbreviation P := (M world).

Definition exited : string := "exited".
Definition exit {A} : P A := panic exited.

Definition open (path : list Z) : P Z := fun w =>
  match named w path with
  | None => Ret (-1) w
  | Some l => Ret (next_fd w) (w <| opened ::= <[next_fd w := l]> |> <| next_fd ::= Z.add 1 |>)
  end.

Definition close (fd : Z) : P unit := modify (fun w => w <| opened ::= delete fd |>).

(** The number of bytes (or -1) and the bytes. *)
Definition read (fd : Z) (n : nat) : P (Z * list Z) := fun w =>
  match opened w !! fd with
  | None => Ret (-1, []) w
  | Some [] => Ret (0, []) w
  | Some (None :: l) => Ret (-1, []) (w <| opened ::= <[fd := l]> |>)
  | Some (Some c :: l) =>
      let rest := if (n <? length c)%nat then Some (drop n c) :: l else l in
      Ret (Z.of_nat (length (take n c)), take n c) (w <| opened ::= <[fd := rest]> |>)
  end.

Definition write (fd : Z) (l : list Z) : P Z := fun w =>
  let ok := Ret (Z.of_nat (length l)) (w <| output ::= fun o => o ++ ((fun c => (fd, c)) <$> l) |>) in
  match quota w with
  | Some q => if fd =? 1 then
                if (q <? length l)%nat then Ret (-1) w
                else Ret (Z.of_nat (length l)) (w <| output ::= fun o => o ++ ((fun c => (fd, c)) <$> l) |> <| quota := Some (q - length l)%nat |>)
              else ok
  | None => ok
  end.

(** [link], [unlink], [mkdir] and [kill]. *)
Definition sys (c : ucall) : P Z := fun w =>
  if refused w c then Ret (-1) w else Ret 0 (w <| done_calls ::= fun l => l ++ [c] |>).

(** ** printf.c *)

Definition putc (fd c : Z) : P unit := let! _ := write fd [u8 c] in ret tt.

Definition udigit (x : Z) : Z := if x <? 10 then 48 + x else 65 + (x - 10).

(** [do buf[i++] = digits[x % base]; while ((x /= base) != 0);] *)
Fixpoint udigits_of (fuel : nat) (x base : Z) : list Z :=
  match fuel with
  | O => []
  | S n => udigit (x mod base) :: (if x / base =? 0 then [] else udigits_of n (x / base) base)
  end.

Definition uprintint_buf (xx base sgn : Z) : list Z :=
  let neg := negb (sgn =? 0) && (xx <? 0) in
  let x := if neg then u32 (- xx) else u32 xx in
  udigits_of 32 x base ++ (if neg then [45] else []).

Definition uprintint (fd xx base sgn : Z) : P unit := foreach (rev (uprintint_buf xx base sgn)) (putc fd).

(** An argument: a word, or a pointer to a string. *)
Inductive parg := Word (w : Z) | Text (s : option (list Z)).

Definition NULL_TEXT : list Z := [40; 110; 117; 108; 108; 41].

(** The loop over the format; [pct] is the state after a percent sign. *)
Fixpoint printf_loop (fd : Z) (fmt : list Z) (pct : bool) (args : list parg) : P unit :=
  match fmt with
  | [] => ret tt
  | c :: fmt =>
      if negb pct then
        if c =? 37 then printf_loop fd fmt true args
        else do! putc fd c in printf_loop fd fmt false args
      else if c =? 100 then
        match args with
        | Word w :: args => do! uprintint fd (i32 w) 10 1 in printf_loop fd fmt false args
        | _ => fault
        end
      else if (c =? 120) || (c =? 112) then
        match args with
        | Word w :: args => do! uprintint fd (i32 w) 16 0 in printf_loop fd fmt false args
        | _ => fault
        end
      else if c =? 115 then
        match args with
        | Text s :: args => do! foreach (default NULL_TEXT s) (putc fd) in printf_loop fd fmt false args
        | _ => fault
        end
      else if c =? 99 then
        match args with
        | Word w :: args => do! putc fd w in printf_loop fd fmt false args
        | _ => fault
        end
      else if c =? 37 then do! putc fd c in printf_loop fd fmt false args
      else do! putc fd 37 in do! putc fd c in printf_loop fd fmt false args
  end.

Definition printf (fd : Z) (fmt : list Z) (args : list parg) : P unit := printf_loop fd fmt false args.

(** The characters of a literal. *)
Fixpoint chars (s : string) : list Z :=
  match s with EmptyString => [] | String a s => Z.of_nat (Ascii.nat_of_ascii a) :: chars s end.

(** ** cat.c *)

Definition UBUF : nat := 512.

Definition cat_round (fd : Z) (_ : unit) : P (unit + unit) :=
  let! r := read fd UBUF in
  if 0 <? r.1 then
    let! k := write 1 r.2 in
    if negb (k =? r.1) then do! printf 1 (chars "cat: write error" ++ [10]) [] in exit else ret (inl tt)
  else if r.1 <? 0 then do! printf 1 (chars "cat: read error" ++ [10]) [] in exit
  else ret (inr tt).

Definition cat (fuel : nat) (fd : Z) : P unit := loop fuel (cat_round fd) tt.

(** [main] of [cat.c] and of [wc.c]: standard input, or each file in turn. *)
Definition each_file (prog : list Z) (body : Z -> list Z -> P unit) (argv : list (list Z)) : P unit :=
  if (length argv <=? 1)%nat then do! body 0 [] in exit
  else
    do! foreach (tail argv) (fun name =>
      let! fd := open name in
      if fd <? 0 then do! printf 1 (prog ++ chars ": cannot open %s" ++ [10]) [Text (Some name)] in exit
      else do! body fd name in close fd) in
    exit.

Definition cat_main (fuel : nat) (argv : list (list Z)) : P unit := each_file (chars "cat") (fun fd _ => cat fuel fd) argv.

(** ** wc.c *)

Record counts := mk_counts { nl : Z; nw : Z; nc : Z; inword : bool }.

(** [strchr(" \r\t\n\v", c)] *)
Definition is_blank (c : Z) : bool := bool_decide (c ∈ [32; 13; 9; 10; 11]).

Definition wc_char (k : counts) (ch : Z) : counts :=
  let l := if ch =? 10 then nl k + 1 else nl k in
  if is_blank ch then mk_counts l (nw k) (nc k + 1) false
  else if negb (inword k) then mk_counts l (nw k + 1) (nc k + 1) true
  else mk_counts l (nw k) (nc k + 1) true.

Definition wc_round (fd : Z) (k : counts) : P (counts + counts) :=
  let! r := read fd UBUF in
  if 0 <? r.1 then ret (inl (foldl wc_char k r.2))
  else if r.1 <? 0 then do! printf 1 (chars "wc: read error" ++ [10]) [] in exit
  else ret (inr k).

Definition wc (fuel : nat) (fd : Z) (name : list Z) : P unit :=
  let! k := loop fuel (wc_round fd) (mk_counts 0 0 0 false) in
  printf 1 (chars "%d %d %d %s" ++ [10]) [Word (nl k); Word (nw k); Word (nc k); Text (Some name)].

Definition wc_main (fuel : nat) (argv : list (list Z)) : P unit := each_file (chars "wc") (wc fuel) argv.

(** ** echo.c, ln.c, mkdir.c, rm.c, kill.c *)

Fixpoint echo_loop (l : list (list Z)) : P unit :=
  match l with
  | [] => ret tt
  | s :: l => do! printf 1 (chars "%s%s") [Text (Some s); Text (Some (match l with [] => [10] | _ => [32] end))] in echo_loop l
  end.
Definition echo_main (argv : list (list Z)) : P unit := do! echo_loop (tail argv) in exit.

Definition ln_main (argv : list (list Z)) : P unit :=
  match argv with
  | [_; old; new] =>
      let! r := sys (Link old new) in
      do! when (r <? 0) (printf 2 (chars "link %s %s: failed" ++ [10]) [Text (Some old); Text (Some new)]) in
      exit
  | _ => do! printf 2 (chars "Usage: ln old new" ++ [10]) [] in exit
  end.

(** [mkdir] and [rm]: stop at the first failure. *)
Definition each_path (usage failed : list Z) (call : list Z -> ucall) (argv : list (list Z)) : P unit :=
  if (length argv <? 2)%nat then do! printf 2 usage [] in exit
  else
    let! _ := first_of (tail argv) (fun path =>
      let! r := sys (call path) in
      if r <? 0 then do! printf 2 failed [Text (Some path)] in ret (Some tt) else ret None) in
    exit.
Definition mkdir_main : list (list Z) -> P unit := each_path (chars "Usage: mkdir files..." ++ [10]) (chars "mkdir: %s failed to create" ++ [10]) Mkdir.
Definition rm_main : list (list Z) -> P unit := each_path (chars "Usage: rm files..." ++ [10]) (chars "rm: %s failed to delete" ++ [10]) Unlink.

(** [atoi] of a string. *)
Fixpoint atoi_of (s : list Z) (n : Z) : Z :=
  match s with
  | c :: s => if (48 <=? c) && (c <=? 57) then atoi_of s (i32 (n * 10 + c - 48)) else n
  | [] => n
  end.

Definition kill_main (argv : list (list Z)) : P unit :=
  if (length argv <? 2)%nat then do! printf 2 (chars "usage: kill pid..." ++ [10]) [] in exit
  else do! foreach (tail argv) (fun s => let! _ := sys (Kill (atoi_of s 0)) in ret tt) in exit.

(** ** ls.c *)

(** The characters after the last slash; padded with blanks when they are fewer than
    [DIRSIZ]. *)
Fixpoint last_part (path : list Z) (p : list Z) : list Z :=
  match path with [] => p | c :: path => last_part path (if c =? 47 then path else p) end.
Definition fmtname (path : list Z) : list Z :=
  let p := last_part path path in
  if (DIRSIZ <=? length p)%nat then p else p ++ replicate (DIRSIZ - length p) 32.

(** ** What is printed *)

(** [l] written to [fd]. *)
Definition out (fd : Z) (l : list Z) (w : world) : world := w <| output ::= fun o => o ++ ((fun c => (fd, c)) <$> l) |>.

Definition byte_ok (c : Z) : Prop := 0 <= c < 256.

Lemma out_out fd l1 l2 w : out fd l2 (out fd l1 w) = out fd (l1 ++ l2) w.
Proof. unfold out, set, set_output. cbn. by rewrite fmap_app, <- app_assoc. Qed.

Lemma out_nil fd w : out fd [] w = w.
Proof. unfold out, set, set_output. cbn. rewrite app_nil_r. by destruct w. Qed.

Lemma write_run fd l w : quota w = None -> write fd l w = Ret (Z.of_nat (length l)) (out fd l w).
Proof. intros Hq. unfold write. by rewrite Hq. Qed.

Lemma putc_run fd c w : quota w = None -> byte_ok c -> putc fd c w = Ret tt (out fd [c] w).
Proof. intros Hq Hc. unfold putc. rewrite (bind_run _ _ _ _ _ (write_run fd _ w Hq)). unfold u8. by rewrite Z.mod_small by exact Hc. Qed.

Lemma putcs_run fd l : forall w, quota w = None -> Forall byte_ok l -> foreach l (putc fd) w = Ret tt (out fd l w).
Proof.
  induction l as [|c l IH]; intros w Hq Hl; [by rewrite out_nil|]. apply Forall_cons in Hl as [Hc Hl]. cbn [foreach]. rewrite (bind_run _ _ _ _ _ (putc_run fd c w Hq Hc)). rewrite IH by done. by rewrite out_out.
Qed.

Lemma udigits_ok fuel : forall x base, 2 <= base <= 16 -> Forall byte_ok (udigits_of fuel x base).
Proof.
  induction fuel as [|n IH]; intros x base Hb; [constructor|]. cbn. pose proof (Z.mod_pos_bound x base ltac:(lia)). constructor; [unfold udigit, byte_ok; destruct (Z.ltb_spec (x mod base) 10); lia|]. destruct (_ =? 0); [constructor|by apply IH].
Qed.

Lemma uprintint_run fd xx base sgn w : quota w = None -> 2 <= base <= 16 -> uprintint fd xx base sgn w = Ret tt (out fd (rev (uprintint_buf xx base sgn)) w).
Proof.
  intros Hq Hb. unfold uprintint. apply putcs_run; [done|]. apply Forall_forall. intros c Hc. apply list_elem_of_In, in_rev, list_elem_of_In in Hc. revert c Hc. apply Forall_forall. unfold uprintint_buf. apply Forall_app. split; [by apply udigits_ok|]. destruct (_ && _); repeat constructor; done.
Qed.

(** A piece of a format: a character, or a conversion with its argument. *)
Inductive piece := PChar (c : Z) | PDec (z : Z) | PHex (z : Z) | PPtr (z : Z) | PStr (s : list Z) | PNull | PChr (c : Z) | PPercent | POther (c : Z).

Definition piece_fmt (p : piece) : list Z :=
  match p with
  | PChar c => [c] | PDec _ => [37; 100] | PHex _ => [37; 120] | PPtr _ => [37; 112] | PStr _ | PNull => [37; 115]
  | PChr _ => [37; 99] | PPercent => [37; 37] | POther c => [37; c]
  end.
Definition piece_args (p : piece) : list parg :=
  match p with
  | PDec z | PHex z | PPtr z | PChr z => [Word (u32 z)] | PStr s => [Text (Some s)] | PNull => [Text None] | _ => []
  end.
Definition piece_text (p : piece) : list Z :=
  match p with
  | PChar c | PChr c => [c] | PDec z => rev (uprintint_buf z 10 1) | PHex z | PPtr z => rev (uprintint_buf z 16 0)
  | PStr s => s | PNull => NULL_TEXT | PPercent => [37] | POther c => [37; c]
  end.
Definition piece_ok (p : piece) : Prop :=
  match p with
  | PChar c => byte_ok c /\ c <> 37 | PDec z | PHex z | PPtr z => - 2 ^ 31 <= z < 2 ^ 31 | PStr s => Forall byte_ok s
  | PChr c => byte_ok c | POther c => byte_ok c /\ c ∉ [100; 120; 112; 115; 99; 37] | _ => True
  end.

Lemma i32_u32 z : - 2 ^ 31 <= z < 2 ^ 31 -> i32 (u32 z) = z.
Proof. intros Hz. unfold i32, u32. rewrite Zplus_mod_idemp_l. rewrite Z.mod_small; lia. Qed.

Lemma piece_run fd p : forall fmt args w, quota w = None -> piece_ok p ->
  printf_loop fd (piece_fmt p ++ fmt) false (piece_args p ++ args) w = printf_loop fd fmt false args (out fd (piece_text p) w).
Proof.
  intros fmt args w Hq Hp. destruct p as [c|z|z|z|s| |c| |c]; cbn [piece_fmt piece_args piece_text piece_ok app printf_loop negb] in *.
  - destruct Hp as [Hc Hne]. rewrite (proj2 (Z.eqb_neq c 37) Hne). by rewrite (bind_run _ _ _ _ _ (putc_run fd c w Hq Hc)).
  - change (37 =? 37) with true. change (100 =? 100) with true. cbv iota. rewrite i32_u32 by done. by rewrite (bind_run _ _ _ _ _ (uprintint_run fd z 10 1 w Hq ltac:(lia))).
  - change (37 =? 37) with true. change (120 =? 100) with false. change ((120 =? 120) || (120 =? 112)) with true. cbv iota. rewrite i32_u32 by done. by rewrite (bind_run _ _ _ _ _ (uprintint_run fd z 16 0 w Hq ltac:(lia))).
  - change (37 =? 37) with true. change (112 =? 100) with false. change ((112 =? 120) || (112 =? 112)) with true. cbv iota. rewrite i32_u32 by done. by rewrite (bind_run _ _ _ _ _ (uprintint_run fd z 16 0 w Hq ltac:(lia))).
  - change (default NULL_TEXT (Some s)) with s. cbn [Z.eqb Pos.eqb orb]. by rewrite (bind_run _ _ _ _ _ (putcs_run fd s w Hq Hp)).
  - change (default NULL_TEXT None) with NULL_TEXT. cbn [Z.eqb Pos.eqb orb]. by rewrite (bind_run _ _ _ _ _ (putcs_run fd NULL_TEXT w Hq ltac:(repeat constructor; done))).
  - cbn [Z.eqb Pos.eqb orb]. unfold putc at 1, bind at 1 2. rewrite write_run by done. cbn [bindO ret]. replace (u8 (u32 c)) with c by (unfold u8, u32, byte_ok in *; rewrite (Z.mod_small c (2 ^ 32)), Z.mod_small by lia; done). done.
  - cbn [Z.eqb Pos.eqb orb]. by rewrite (bind_run _ _ _ _ _ (putc_run fd 37 w Hq ltac:(done))).
  - destruct Hp as [Hc Hne]. rewrite !not_elem_of_cons in Hne. destruct Hne as (N1 & N2 & N3 & N4 & N5 & N6 & _). change (37 =? 37) with true. cbv iota.
    rewrite (proj2 (Z.eqb_neq c 100) N1), (proj2 (Z.eqb_neq c 120) N2), (proj2 (Z.eqb_neq c 112) N3), (proj2 (Z.eqb_neq c 115) N4), (proj2 (Z.eqb_neq c 99) N5), (proj2 (Z.eqb_neq c 37) N6). cbn [orb].
    rewrite (bind_run _ _ _ _ _ (putc_run fd 37 w Hq ltac:(done))). erewrite bind_run; [|apply putc_run; done]. by rewrite out_out.
Qed.

(** [printf] prints the format piece by piece: characters as they are, conversions as their
    argument says, a doubled percent sign once, and unknown conversions verbatim. *)
Theorem printf_formats fd ps w : quota w = None -> Forall piece_ok ps ->
  printf fd (concat (piece_fmt <$> ps)) (concat (piece_args <$> ps)) w = Ret tt (out fd (concat (piece_text <$> ps)) w).
Proof.
  intros Hq Hp. unfold printf. revert w Hq. induction Hp as [|p ps Hp1 Hp IH]; intros w Hq; cbn [fmap list_fmap concat]; [by rewrite out_nil|]. rewrite piece_run by done. rewrite IH by done. by rewrite out_out.
Qed.

(** [atoi] reads back what the conversion [%d] printed. *)
Lemma udigits_value fuel : forall x n, 0 <= x < 10 ^ Z.of_nat fuel -> 0 <= n -> x + n * 10 ^ Z.of_nat (length (udigits_of fuel x 10)) < 2 ^ 31 ->
  (forall rest, 0 <= n -> atoi_of (rev (udigits_of fuel x 10) ++ rest) n = atoi_of rest (n * 10 ^ Z.of_nat (length (udigits_of fuel x 10)) + x)).
Proof.
  induction fuel as [|f IH]; intros x n Hx Hn Hb rest _; [cbn in *; f_equal; lia|]. cbn [udigits_of] in *. rewrite Nat2Z.inj_succ, Z.pow_succ_r in Hx by lia. pose proof (Z.mod_pos_bound x 10 ltac:(lia)) as Hm. pose proof (Z.div_mod x 10 ltac:(lia)) as Hd.
  assert (Hq : 0 <= x / 10 < 10 ^ Z.of_nat f) by (split; [apply Z.div_pos; lia|apply Z.div_lt_upper_bound; lia]). assert (Hu : udigit (x mod 10) = 48 + x mod 10) by (unfold udigit; by rewrite (proj2 (Z.ltb_lt _ _)) by lia). rewrite Hu in *.
  assert (Hlast : forall m, 0 <= m -> m * 10 + x mod 10 < 2 ^ 31 -> atoi_of ([48 + x mod 10] ++ rest) m = atoi_of rest (m * 10 + x mod 10)).
  { intros m Hm0 Hmb. cbn [app atoi_of]. rewrite (proj2 (Z.leb_le _ _)), (proj2 (Z.leb_le _ _)) by lia. cbn [andb]. f_equal. rewrite i32_small; lia. }
  destruct (Z.eqb_spec (x / 10) 0) as [E|E]; cbn [length rev app] in *; [rewrite Hlast by lia; f_equal; lia|]. set (ds := udigits_of f (x / 10) 10) in *. set (k := Z.of_nat (length ds)) in *. assert (H10 : 0 < 10 ^ k) by (apply Z.pow_pos_nonneg; lia).
  rewrite Nat2Z.inj_succ, Z.pow_succ_r in Hb by lia. fold k in Hb. rewrite <- app_assoc. pose proof (IH (x / 10) n Hq Hn) as IH'. fold ds in IH'. fold k in IH'. rewrite IH' by lia. rewrite Hlast by lia. rewrite Nat2Z.inj_succ, Z.pow_succ_r by lia. fold k. f_equal. lia.
Qed.

Theorem atoi_prints z : 0 <= z < 2 ^ 31 -> atoi_of (rev (uprintint_buf z 10 1)) 0 = z.
Proof.
  intros Hz. unfold uprintint_buf. change (negb (1 =? 0)) with true. rewrite (proj2 (Z.ltb_ge z 0)) by lia. cbn [andb]. rewrite app_nil_r, u32_small by lia. pose proof (udigits_value 32 z 0 ltac:(cbn; lia) ltac:(lia) ltac:(lia) [] ltac:(lia)) as E. rewrite app_nil_r in E. rewrite E. cbn. lia.
Qed.

(** ** Reading a file *)

(** The bytes a stream delivers; it delivers all of them when no read fails and none is
    empty. *)
Definition bytes_of (st : stream) : list Z := concat (default [] <$> st).
Definition flows (st : stream) : Prop := Forall (fun x => exists c, x = Some c /\ c <> []) st.

Lemma bytes_of_cons c st : bytes_of (Some c :: st) = c ++ bytes_of st.
Proof. reflexivity. Qed.

Lemma read_next fd w x st : opened w !! fd = Some (x :: st) -> flows (x :: st) ->
  exists l rest, read fd UBUF w = Ret (Z.of_nat (length l), l) (w <| opened ::= <[fd := rest]> |>) /\ l <> [] /\ flows rest /\ bytes_of (x :: st) = l ++ bytes_of rest.
Proof.
  intros Ho Hf. apply Forall_cons in Hf as [(c & -> & Hc) Hf]. unfold read. rewrite Ho. exists (take UBUF c). assert (Hl : take UBUF c <> []) by (destruct c; [done|by intros ?]). destruct (Nat.ltb_spec UBUF (length c)) as [Hlt|Hge].
  - exists (Some (drop UBUF c) :: st). split_and!; [done|done| |].
    + constructor; [|done]. eexists. split; [reflexivity|]. intros E. apply (f_equal length) in E. rewrite length_drop in E. cbn in E. lia.
    + rewrite !bytes_of_cons, app_assoc. by rewrite (take_drop UBUF c).
  - exists st. split_and!; [done|done|done|]. rewrite take_ge by lia. done.
Qed.

Lemma read_end fd w : opened w !! fd = Some [] -> read fd UBUF w = Ret (0, []) w.
Proof. intros Ho. unfold read. by rewrite Ho. Qed.

Lemma drained fd w st : w <| opened ::= <[fd := st]> |> <| opened ::= <[fd := []]> |> = w <| opened ::= <[fd := []]> |>.
Proof. unfold set, set_opened. cbn. by rewrite insert_insert_eq. Qed.

Lemma same_opened fd w : opened w !! fd = Some [] -> w <| opened ::= <[fd := []]> |> = w.
Proof. intros Ho. unfold set, set_opened. rewrite insert_id by done. by destruct w. Qed.

(** However the file comes in pieces, the counts are those of its bytes. *)
Lemma wc_loop fuel : forall st fd k w, opened w !! fd = Some st -> flows st -> (length (bytes_of st) < fuel)%nat ->
  loop fuel (wc_round fd) k w = Ret (foldl wc_char k (bytes_of st)) (w <| opened ::= <[fd := []]> |>).
Proof.
  induction fuel as [|fuel IH]; intros st fd k w Ho Hf Hl; [lia|]. cbn [loop]. unfold wc_round at 1. unfold bind at 1. destruct st as [|x st].
  - rewrite (bind_run _ _ _ _ _ (read_end fd w Ho)). cbn. by rewrite same_opened.
  - destruct (read_next fd w x st Ho Hf) as (l & rest & E & Hne & Hr & Eb). rewrite (bind_run _ _ _ _ _ E). cbn [fst snd]. destruct (Z.ltb_spec 0 (Z.of_nat (length l))) as [_|Hz]; [|destruct l; [done|cbn in Hz; lia]]. cbn [ret bindO]. set (w1 := w <| opened ::= <[fd := rest]> |>).
    rewrite (IH rest fd (foldl wc_char k l) w1); [|apply lookup_insert_eq|done|rewrite Eb, length_app in Hl; destruct l; [done|cbn in Hl; lia]]. unfold w1. rewrite drained, Eb, foldl_app. done.
Qed.

Lemma cat_loop fuel : forall st fd w, opened w !! fd = Some st -> flows st -> quota w = None -> (length (bytes_of st) < fuel)%nat ->
  cat fuel fd w = Ret tt (out 1 (bytes_of st) (w <| opened ::= <[fd := []]> |>)).
Proof.
  unfold cat. induction fuel as [|fuel IH]; intros st fd w Ho Hf Hq Hl; [lia|]. cbn [loop]. unfold cat_round at 1. unfold bind at 1. destruct st as [|x st].
  - rewrite (bind_run _ _ _ _ _ (read_end fd w Ho)). cbn. rewrite out_nil. by rewrite same_opened.
  - destruct (read_next fd w x st Ho Hf) as (l & rest & E & Hne & Hr & Eb). rewrite (bind_run _ _ _ _ _ E). cbn [fst snd]. destruct (Z.ltb_spec 0 (Z.of_nat (length l))) as [_|Hz]; [|destruct l; [done|cbn in Hz; lia]]. set (w1 := w <| opened ::= <[fd := rest]> |>).
    rewrite (bind_run _ _ _ _ _ (write_run 1 l w1 Hq)). rewrite Z.eqb_refl. cbn [negb ret bindO]. rewrite (IH rest fd (out 1 l w1)); [|apply lookup_insert_eq|done|done|rewrite Eb, length_app in Hl; destruct l; [done|cbn in Hl; lia]].
    rewrite Eb. transitivity (Ret (A := unit) tt (out 1 (bytes_of rest) (out 1 l (w1 <| opened ::= <[fd := []]> |>)))); [done|]. unfold w1. by rewrite drained, out_out.
Qed.

(** ** Lines, words and characters *)

Definition blank (c : Z) : Prop := is_blank c = true.
Definition a_word (l : list Z) : Prop := l <> [] /\ Forall (fun c => is_blank c = false) l.

(** Words, each with the blanks after it; only the last may have none. *)
Fixpoint passage (ws : list (list Z * list Z)) : Prop :=
  match ws with
  | [] => True
  | (w, g) :: ws' => a_word w /\ Forall blank g /\ (ws' <> [] -> g <> []) /\ passage ws'
  end.
Definition passage_text (lead : list Z) (ws : list (list Z * list Z)) : list Z := lead ++ concat ((fun p => p.1 ++ p.2) <$> ws).

Definition newlines (l : list Z) : Z := Z.of_nat (length (filter (fun c => c = 10) l)).

Lemma newlines_cons c l : newlines (c :: l) = (if c =? 10 then 1 else 0) + newlines l.
Proof. unfold newlines. rewrite filter_cons. destruct (Z.eqb_spec c 10); [rewrite decide_True by done; cbn [length]; lia|by rewrite decide_False]. Qed.

Lemma newlines_app l1 l2 : newlines (l1 ++ l2) = newlines l1 + newlines l2.
Proof. unfold newlines. rewrite filter_app, length_app. lia. Qed.

Lemma wc_blanks g : forall k, Forall blank g -> foldl wc_char k g = mk_counts (nl k + newlines g) (nw k) (nc k + Z.of_nat (length g)) (match g with [] => inword k | _ => false end).
Proof.
  induction g as [|c g IH]; intros k Hg; [destruct k; cbn; f_equal; unfold newlines; cbn; lia|]. apply Forall_cons in Hg as [Hc Hg]. cbn [foldl]. rewrite IH by done. rewrite newlines_cons. unfold wc_char. rewrite Hc. cbn [nl nw nc inword length]. f_equal; [destruct (c =? 10); lia|lia|by destruct g].
Qed.

Lemma wc_in_word l : forall k, inword k = true -> Forall (fun c => is_blank c = false) l -> foldl wc_char k l = mk_counts (nl k + newlines l) (nw k) (nc k + Z.of_nat (length l)) true.
Proof.
  induction l as [|c l IH]; intros k Hk Hl; [destruct k; cbn in *; subst; f_equal; unfold newlines; cbn; lia|]. apply Forall_cons in Hl as [Hc Hl]. cbn [foldl]. unfold wc_char. rewrite Hc, Hk. cbn [negb]. rewrite IH by done. rewrite newlines_cons. cbn [nl nw nc inword length]. f_equal; [destruct (c =? 10); lia|lia].
Qed.

Lemma wc_word l k : a_word l -> inword k = false -> foldl wc_char k l = mk_counts (nl k + newlines l) (nw k + 1) (nc k + Z.of_nat (length l)) true.
Proof.
  intros [Hne Hl] Hk. destruct l as [|c l]; [done|]. apply Forall_cons in Hl as [Hc Hl]. cbn [foldl]. unfold wc_char. rewrite Hc, Hk. cbn [negb]. rewrite wc_in_word by done. rewrite newlines_cons. cbn [nl nw nc inword length]. f_equal; [destruct (c =? 10); lia|lia].
Qed.

Lemma wc_passage ws : forall k, passage ws -> inword k = false -> exists b, foldl wc_char k (concat ((fun p => p.1 ++ p.2) <$> ws)) =
  mk_counts (nl k + newlines (concat ((fun p => p.1 ++ p.2) <$> ws))) (nw k + Z.of_nat (length ws)) (nc k + Z.of_nat (length (concat ((fun p => p.1 ++ p.2) <$> ws)))) b.
Proof.
  induction ws as [|[w g] ws IH]; intros k Hp Hk; [exists (inword k); destruct k; cbn; f_equal; unfold newlines; cbn; lia|]. destruct Hp as (Hw & Hg & Hne & Hp). cbn [fmap list_fmap concat fst snd]. rewrite !foldl_app, (wc_word w k), (wc_blanks g) by done. cbn [nl nw nc inword].
  rewrite !newlines_app, !length_app. destruct ws as [|p ws].
  - eexists. cbn [fmap list_fmap concat foldl length]. change (newlines []) with 0. f_equal; lia.
  - destruct (IH (mk_counts (nl k + newlines w + newlines g) (nw k + 1) (nc k + Z.of_nat (length w) + Z.of_nat (length g)) false) Hp eq_refl) as [b E]. exists b. destruct g as [|c g]; [exfalso; by apply Hne|]. rewrite E. cbn [nl nw nc]. f_equal; [lia|cbn [length]; lia|lia].
Qed.

(** The line that [wc] prints. *)
Definition wc_line (l w c : Z) (name : list Z) : list Z :=
  rev (uprintint_buf l 10 1) ++ [32] ++ rev (uprintint_buf w 10 1) ++ [32] ++ rev (uprintint_buf c 10 1) ++ [32] ++ name ++ [10].

(** [wc] counts.  For a file whose bytes are blanks and words (maximal runs of other
    characters), however the reads cut it into pieces, also in the middle of a word: [wc]
    prints one line with the number of newlines, of words and of bytes and the name, and
    has read the file to its end. *)
Theorem wc_counts fuel fd name st lead ws w :
  opened w !! fd = Some st -> flows st -> quota w = None -> bytes_of st = passage_text lead ws -> Forall blank lead -> passage ws ->
  Z.of_nat (length (bytes_of st)) < 2 ^ 31 -> Forall byte_ok name -> (length (bytes_of st) < fuel)%nat ->
  wc fuel fd name w = Ret tt (out 1 (wc_line (newlines (bytes_of st)) (Z.of_nat (length ws)) (Z.of_nat (length (bytes_of st))) name) (w <| opened ::= <[fd := []]> |>)).
Proof.
  intros Ho Hf Hq Eb Hlead Hp Hsz Hn Hfuel. unfold wc. rewrite (bind_run _ _ _ _ _ (wc_loop fuel st fd _ w Ho Hf Hfuel)). set (w1 := w <| opened ::= <[fd := []]> |>).
  assert (Ek : exists b, foldl wc_char (mk_counts 0 0 0 false) (bytes_of st) = mk_counts (newlines (bytes_of st)) (Z.of_nat (length ws)) (Z.of_nat (length (bytes_of st))) b).
  { rewrite Eb. unfold passage_text. rewrite foldl_app, (wc_blanks lead) by done. cbn [nl nw nc]. destruct (wc_passage ws (mk_counts (0 + newlines lead) 0 (0 + Z.of_nat (length lead)) (match lead with [] => inword (mk_counts 0 0 0 false) | _ => false end)) Hp ltac:(by destruct lead)) as [b E]. exists b. rewrite E. cbn [nl nw nc]. rewrite newlines_app, length_app. f_equal; lia. }
  destruct Ek as [b ->]. cbn [nl nw nc]. set (n := Z.of_nat (length (bytes_of st))) in *.
  assert (Hnl : 0 <= newlines (bytes_of st) <= n) by (unfold newlines, n; pose proof (length_filter (fun c => c = 10) (bytes_of st)); lia).
  assert (Hw : 0 <= Z.of_nat (length ws) <= n). { split; [lia|]. unfold n. rewrite Eb. unfold passage_text. rewrite length_app. clear -Hp. induction ws as [|[u g] ws IH]; [cbn; lia|]. destruct Hp as ([Hne _] & _ & _ & Hp). specialize (IH Hp). cbn [fmap list_fmap concat fst snd length]. rewrite !length_app. destruct u; [done|cbn [length]; lia]. }
  pose proof (printf_formats 1 [PDec (newlines (bytes_of st)); PChar 32; PDec (Z.of_nat (length ws)); PChar 32; PDec n; PChar 32; PStr name; PChar 10] w1 Hq) as E. cbn [fmap list_fmap concat piece_fmt piece_args piece_text app] in E. rewrite !u32_small in E by lia.
  refine (eq_trans (E _) _); [repeat constructor; cbn; try done; lia|]. unfold wc_line. reflexivity.
Qed.

Lemma wc_counts_witness : let w := mk_world (fun _ => None) {[3 := [Some [104; 105; 32; 116]; Some [104; 101; 114; 101; 10]]]} 4 [] None [] (fun _ => false) in
  exists w', wc 20 3 [102] w = Ret tt w' /\ output w' = (fun c => (1, c)) <$> [49; 32; 50; 32; 57; 32; 102; 10].
Proof.
  cbn zeta. eexists. split.
  - apply (wc_counts 20 3 [102] [Some [104; 105; 32; 116]; Some [104; 101; 114; 101; 10]] [] [([104; 105], [32]); ([116; 104; 101; 114; 101], [10])]); [apply lookup_singleton_eq|repeat constructor; eexists; split; reflexivity || done|done|reflexivity|constructor|repeat split; repeat constructor; done|done|repeat constructor; done|cbn; lia].
  - vm_compute. reflexivity.
Defined.

(** ** The other programs *)

(** The contents of a file that can be read. *)
Definition readable (w : world) (fuel : nat) (name : list Z) : Prop := exists st, named w name = Some st /\ flows st /\ (length (bytes_of st) < fuel)%nat.
Definition contents (w : world) (name : list Z) : list Z := from_option bytes_of [] (named w name).

Lemma cat_files fuel names : forall w, quota w = None -> 0 <= next_fd w -> Forall (readable w fuel) names ->
  exists w', foreach names (fun name => let! fd := open name in
      if fd <? 0 then do! printf 1 (chars "cat" ++ chars ": cannot open %s" ++ [10]) [Text (Some name)] in exit else do! cat fuel fd in close fd) w = Ret tt w' /\
    output w' = output w ++ ((fun c => (1, c)) <$> concat (contents w <$> names)).
Proof.
  induction names as [|name names IH]; intros w Hq Hn Hr; [exists w; cbn; by rewrite app_nil_r|]. apply Forall_cons in Hr as [(st & Hst & Hf & Hl) Hr]. cbn [foreach]. set (w1 := w <| opened ::= <[next_fd w := st]> |> <| next_fd ::= Z.add 1 |>). assert (Eop : open name w = Ret (next_fd w) w1) by (unfold open; by rewrite Hst).
  set (w2 := (out 1 (bytes_of st) (w1 <| opened ::= <[next_fd w := []]> |>)) <| opened ::= delete (next_fd w) |>).
  erewrite (bind_run _ _ _ tt w2); [|rewrite (bind_run _ _ _ _ _ Eop); rewrite (proj2 (Z.ltb_ge (next_fd w) 0)) by lia; rewrite (bind_run _ _ _ _ _ (cat_loop fuel st (next_fd w) w1 ltac:(apply lookup_insert_eq) Hf Hq Hl)); done].
  destruct (IH w2 Hq ltac:(cbn; lia) Hr) as (w' & E & Eo). exists w'. split; [exact E|]. rewrite Eo. change (output w2) with (output w ++ ((fun c => (1, c)) <$> bytes_of st)). change (contents w2) with (contents w). cbn [fmap list_fmap concat]. rewrite fmap_app, <- app_assoc. unfold contents at 2. by rewrite Hst.
Qed.

(** [cat] of files that can be read prints their contents, one after the other, and exits. *)
Theorem cat_concatenates fuel prog names w : names <> [] -> quota w = None -> 0 <= next_fd w -> Forall (readable w fuel) names ->
  exists w', cat_main fuel (prog :: names) w = Panic exited w' /\ output w' = output w ++ ((fun c => (1, c)) <$> concat (contents w <$> names)).
Proof.
  intros Hne Hq Hn Hr. unfold cat_main, each_file. destruct names as [|name names]; [done|]. cbn [length tail Nat.leb]. destruct (cat_files fuel (name :: names) w Hq Hn Hr) as (w' & E & Eo). exists w'. split; [|done]. by erewrite bind_run by exact E.
Qed.

(** The arguments with blanks between them and a newline at the end. *)
Fixpoint echoed (l : list (list Z)) : list Z := match l with [] => [] | [s] => s ++ [10] | s :: l => s ++ [32] ++ echoed l end.

Theorem echo_prints prog args w : quota w = None -> Forall (Forall byte_ok) args ->
  echo_main (prog :: args) w = Panic exited (out 1 (echoed args) w).
Proof.
  intros Hq Ha. unfold echo_main. cbn [tail]. enough (E : echo_loop args w = Ret tt (out 1 (echoed args) w)) by by rewrite (bind_run _ _ _ _ _ E). revert w Hq. induction Ha as [|s args Hs Ha IH]; intros w Hq; [by rewrite out_nil|]. cbn [echo_loop].
  set (sep := match args with [] => [10] | _ => [32] end). pose proof (printf_formats 1 [PStr s; PStr sep] w Hq ltac:(repeat constructor; cbn; [done|unfold sep; destruct args; repeat constructor; done])) as E. cbn [fmap list_fmap concat piece_fmt piece_args piece_text app] in E. rewrite app_nil_r in E.
  change (chars "%s%s") with [37; 115; 37; 115]. rewrite (bind_run _ _ _ _ _ E). rewrite IH by done. rewrite out_out. unfold sep. destruct args; cbn [echoed]; [by rewrite app_nil_r|by rewrite <- !app_assoc].
Qed.

(** A message with one string in it. *)
Lemma printf_one fd pre s post w : quota w = None -> Forall byte_ok s -> Forall (fun c => byte_ok c /\ c <> 37) (pre ++ post) ->
  printf fd (pre ++ [37; 115] ++ post) [Text (Some s)] w = Ret tt (out fd (pre ++ s ++ post) w).
Proof.
  intros Hq Hs Hp. apply Forall_app in Hp as [Hp1 Hp2]. pose proof (printf_formats fd ((PChar <$> pre) ++ [PStr s] ++ (PChar <$> post)) w Hq) as E.
  assert (Hc : forall l, concat (piece_fmt <$> (PChar <$> l)) = l /\ concat (piece_args <$> (PChar <$> l)) = [] /\ concat (piece_text <$> (PChar <$> l)) = l) by (induction l as [|c l (I1 & I2 & I3)]; [done|]; cbn; by rewrite I1, I2, I3).
  destruct (Hc pre) as (A1 & A2 & A3). destruct (Hc post) as (B1 & B2 & B3). rewrite !fmap_app, !concat_app, A1, A2, A3 in E. cbn [fmap list_fmap concat piece_fmt piece_args piece_text app] in E. rewrite B1, B2, B3 in E. cbn [app] in *. rewrite app_nil_r in E. apply E.
  apply Forall_app. split; [by apply Forall_fmap|]. constructor; [done|by apply Forall_fmap].
Qed.

(** The paths before the first one whose call is refused. *)
Fixpoint until_refused (no : ucall -> bool) (call : list Z -> ucall) (l : list (list Z)) : list (list Z) :=
  match l with [] => [] | p :: l => if no (call p) then [] else p :: until_refused no call l end.

Lemma each_path_run pre post call l : Forall (fun c => byte_ok c /\ c <> 37) (pre ++ post) -> forall w, quota w = None -> Forall (Forall byte_ok) l ->
  exists r w', first_of l (fun path => let! v := sys (call path) in if v <? 0 then do! printf 2 (pre ++ [37; 115] ++ post) [Text (Some path)] in ret (Some tt) else ret None) w = Ret r w' /\
    done_calls w' = done_calls w ++ (call <$> until_refused (refused w) call l).
Proof.
  intros Hm. induction l as [|p l IH]; intros w Hq Hl; [exists None, w; cbn; by rewrite app_nil_r|]. apply Forall_cons in Hl as [Hp Hl]. cbn [first_of until_refused]. destruct (refused w (call p)) eqn:Er.
  - assert (Es : sys (call p) w = Ret (-1) w) by (unfold sys; by rewrite Er). exists (Some tt), (out 2 (pre ++ p ++ post) w). split; [|cbn; by rewrite app_nil_r].
    erewrite bind_run; [|rewrite (bind_run _ _ _ _ _ Es); change (-1 <? 0) with true; cbv iota; rewrite (bind_run _ _ _ _ _ (printf_one 2 pre p post w Hq Hp Hm)); reflexivity]. done.
  - set (w1 := w <| done_calls ::= fun l => l ++ [call p] |>). assert (Es : sys (call p) w = Ret 0 w1) by (unfold sys; by rewrite Er). destruct (IH w1 Hq Hl) as (r & w' & E & Ed). exists r, w'. split.
    + erewrite bind_run; [|rewrite (bind_run _ _ _ _ _ Es); reflexivity]. exact E.
    + rewrite Ed. change (done_calls w1) with (done_calls w ++ [call p]). change (refused w1) with (refused w). cbn [fmap list_fmap]. by rewrite <- app_assoc.
Qed.

(** [rm] unlinks its arguments in order and stops at the first failure. *)
Theorem rm_stops prog paths w : paths <> [] -> quota w = None -> Forall (Forall byte_ok) paths ->
  exists w', rm_main (prog :: paths) w = Panic exited w' /\ done_calls w' = done_calls w ++ (Unlink <$> until_refused (refused w) Unlink paths).
Proof.
  intros Hne Hq Hp. unfold rm_main, each_path. destruct paths as [|p paths]; [done|]. destruct (each_path_run (chars "rm: ") (chars " failed to delete" ++ [10]) Unlink (p :: paths)) with w as (r & w' & E & Ed); [repeat constructor; done|done|done|].
  exists w'. split; [|done]. cbn [length tail Nat.ltb Nat.leb]. by erewrite bind_run by exact E.
Qed.

(** The last component of a path, padded to [DIRSIZ]. *)
Theorem fmtname_pads dir name : 47 ∉ name -> fmtname (dir ++ 47 :: name) = name ++ replicate (DIRSIZ - length name) 32.
Proof.
  intros Hn. assert (Hl : forall p, last_part name p = p) by (clear -Hn; revert Hn; induction name as [|c name IH]; intros Hn p; [done|]; apply not_elem_of_cons in Hn as [Hc Hn]; cbn; rewrite (proj2 (Z.eqb_neq c 47)) by congruence; by apply IH).
  assert (E : forall p, last_part (dir ++ 47 :: name) p = name) by (induction dir as [|c dir IH]; intros p; cbn; [apply Hl|apply IH]). unfold fmtname. rewrite E. destruct (Nat.leb_spec DIRSIZ (length name)) as [H|H]; [|done]. by replace (DIRSIZ - length name)%nat with 0%nat by lia; rewrite app_nil_r.
Qed.
